(* ===== verification/_CoqProject ===== *)
-Q . S2P
Prelude.v
GoStrings.v
GoNum.v
GoTime.v
Paging.v
CoreTypes.v
SchedulerTypes.v
SchedulerState.v
SchedulerSnapshot.v
SchedulerStore.v
Scheduler.v
TaskBoardQuery.v
SchedulerSelect.v
SchedulerBoard.v
SchedulerRefine.v
SchedulerOps.v
SchedulerRoundTrip.v
SchedulerProps.v
SchedulerPersist.v
TaskBoardQueryProps.v
SchedulerStoreProps.v
SchedulerFacadeProps.v
MailboxTypes.v
MailboxState.v
MailboxSnapshot.v
MailboxInv.v
MailboxSweeps.v
MailboxJournal.v
MailboxRoundTrip.v
MailboxProps.v
MailboxStore.v
MailboxFacade.v
MailboxWorker.v
MailboxContinuation.v
MailboxHandlerResume.v
MailboxStoreProps.v
MailboxFacadeProps.v
MailboxWorkerProps.v
MailboxContinuationProps.v
MailboxResumeProps.v
TopoSort.v
WorkflowTypes.v
WorkflowCompose.v
ExecutionGraph.v
WorkflowPlan.v
WorkflowContinuation.v
WorkflowEngine.v
WorkflowDemo.v
WorkflowComposeProps.v
ExecutionGraphProps.v
WorkflowPlanProps.v
WorkflowContinuationProps.v
WorkflowEngineInv.v
WorkflowEngineProps.v
WorkflowResumeProps.v
AdapterHealth.v
AdapterHealthProps.v
AdapterSemver.v
AdapterSemverProps.v
AdapterCapability.v
GoText.v
A2ATypes.v
A2ARouting.v
A2AServer.v
A2AClient.v
A2AAsync.v
Invoke.v
A2AAdapter.v
A2AServerProps.v
A2ARoutingProps.v
A2AClientProps.v
A2AAsyncProps.v
RemoteExecutionProps.v
ReconcileProps.v
ReportAgreementProps.v
Collab.v
CollabProps.v
CollabRetryProps.v
Teams.v
TeamsProps.v
