(* ===== verification/Prelude.v ===== *)
(** * Baymax: verification of the orchestration core

    Baymax is an agent runtime in Go. This library verifies the part of it that
    decides which work runs, where and how often: the task scheduler
    ([src/orchestration/scheduler]), the mailbox ([src/orchestration/mailbox]), the
    workflow engine with its execution graph ([src/orchestration/workflow],
    [src/orchestration/graph]), the execution of tasks on remote peers ([src/a2a],
    [src/orchestration/invoke], a2a_adapter.go and async_reconcile.go of the
    scheduler), collaboration with peers ([src/orchestration/collab]), teams
    ([src/orchestration/teams]), and the parts of the adapters that decide whether an
    adapter is used ([src/adapter/health], [src/adapter/manifest/semver.go],
    [src/adapter/capability]).

    ** The program

    A [Scheduler] (scheduler.go) is a facade over a [QueueStore]. The store owns
    one state machine, [schedulerState] (state.go): tasks with their attempts, a
    queue of task ids, the terminal commits received, the manual control
    operations executed, counters and configuration. Workers claim tasks under a
    lease, renew it by heartbeats and commit a terminal outcome; a task may be
    parked until an asynchronous report comes in; lapsed leases and overdue
    reports are swept; failed attempts are retried with backoff within a budget.
    The memory store (store_memory.go) runs the machine under a mutex; the file
    store (store_file.go) also writes it to a JSON file. The facade adds timeline
    events, spawn guardrails and a cached, paginated query of the task board
    (query.go). Snapshots carry the machine from one process to the next.

    A mailbox is a second state machine, [mailboxState] (mailbox/state.go):
    messages published once per idempotency key, delivered to consumers under
    leases, acknowledged, rejected, requeued with backoff, expired or moved to
    the dead letters, with a bounded journal of what happened (history.go) and
    snapshots (types.go, [normalizeSnapshot]). It lives in a memory or a file
    store; the facade [Mailbox] (mailbox.go) adds lifecycle observers and a cached
    query (query.go). A [Worker] (worker.go) consumes, renews its lease while the
    handler runs, and settles the message. A handler may pause: the delivery is
    saved as a sealed continuation (continuation.go), which one resume request
    claims, runs and finishes with a result.

    A workflow definition is a list of steps with dependencies, conditions,
    retries and subgraphs. Composability (composability.go) expands the subgraphs
    and condition templates, [ValidateDefinition] and [Plan] (engine.go) check and
    order the steps, graph_projection.go and graph.go compile them to an execution
    graph with a stable order and a digest, and [execute] runs the steps in
    rounds, with checkpoints, pauses and resumable continuations.

    A claimed task may run on a remote peer. The client of [src/a2a] (interop.go)
    routes a request to a peer, negotiates the version of its card and the mode of
    delivery, submits with retries and waits by polling; the in-memory server
    accepts tasks and resolves each in a goroutine. With [SubmitAsync]
    (async_reporting.go) a goroutine of the client waits instead and delivers a
    report to a sink, with retries and at most once per key. The bridge of
    [src/orchestration/invoke] records every call in a mailbox, as a command and a
    result. The scheduler executes a claim through the bridge and turns the outcome,
    a report or a polled record into a terminal commit (a2a_adapter.go); a reconcile
    cycle (async_reconcile.go) polls the peers of the tasks that still await a
    report. A collaboration (collab/primitives.go) runs branches under an aggregation
    strategy and a failure policy and retries them; a delegation (collab/delegation.go)
    hands one task to a peer through the bridge, with the same retries. A team
    (teams/engine.go) runs the tasks of a plan one after the other or in a pool of
    goroutines, on local runners or, through a delegation, on remote peers, and may
    let their votes decide.

    An adapter is probed through a health runner with a cache, a circuit breaker
    and backoff; its manifest states version ranges; a request is matched against
    the capabilities it offers.

    ** Conventions

    A method with a pointer receiver is a function that returns the new state
    beside its result; error paths return a state too, because some of them
    count or sweep. The stores hold a mutex during every operation, so an
    execution is a sequence of operations; a call that takes several of them
    (a worker round, a resumption, a wait for a peer, a reconcile cycle) has arguments
    for what others do in between.
    [(T, error)] is [result E T], with one constructor of [E] per error the callers
    can tell apart. [time.Now] is the argument [wall] (or the records [Env],
    [Clock], [MailboxEnv]); [time.Time] is the instant in nanoseconds since the zero
    time. Go maps keyed by strings are [gmap string]; where the iteration order of
    a map could show, it is a parameter ([RangeOrder]), and where the code sorts
    the keys the model sorts them. Strings are byte strings; [strings.TrimSpace] is
    modelled on UTF-8 bytes with the Unicode spaces, [strings.ToLower] on ASCII.
    [int64] and [uint64] values wrap around where the code relies on it (jitter
    hash, retry delays, event numbers, generations); counters are unbounded
    integers. [float64] is binary64 with rounding to nearest even, since backoff
    and jitter are computed in it. A copy made to avoid aliasing
    ([cloneTaskRecord], [cloneRecord]) is the identity, values being immutable
    here; the claims of workflow continuations, which copies of a record share,
    live in a heap. JSON, base64, [%q] and the digests are classes of functions,
    with the laws a theorem needs as hypotheses. Names follow the Go source; record
    fields carry a two-letter prefix. All definitions that model code are
    executable.

    ** Files

    - Prelude: results, record update, dynamic values, sums over maps.
    - GoStrings, GoNum, GoTime: the parts of Go's strings, unicode/utf8, sort,
      strconv, time and number types the sources use.
    - Paging: stable sorting, cursors and pages, shared by the two queries.
    - CoreTypes: the events of core/types.
    - SchedulerTypes: types.go and workspace_binding.go data, normalisation of
      tasks and commits, spawn guardrails.
    - SchedulerState: state.go, every operation of the machine.
    - SchedulerSnapshot: [snapshot] and [restore] of state.go.
    - SchedulerStore: the interface [QueueStore] as a class, with the memory and
      the file store as instances (store_memory.go, store_file.go).
    - Scheduler: scheduler.go over any [QueueStore].
    - TaskBoardQuery: query.go and the query cache of scheduler.go.
    - SchedulerSelect: a declarative specification of the choice of the next
      task, and the equivalence with the scan of the code.
    - SchedulerBoard: the abstract task board, a step relation on tasks, queue
      and commits, with its invariant and the evolution of a record.
    - SchedulerRefine, SchedulerOps: every operation is a sequence of board
      steps; what each operation does.
    - SchedulerRoundTrip: restoring a snapshot, step by step.
    - SchedulerProps, SchedulerPersist, TaskBoardQueryProps,
      SchedulerStoreProps, SchedulerFacadeProps: the theorems.
    - MailboxTypes: mailbox/types.go, bridge.go, host_plan_binding.go and the
      record types of history.go and continuation.go.
    - MailboxState: mailbox/state.go with the journal of history.go.
    - MailboxSnapshot: [snapshot], [restore], [normalizeSnapshot],
      [continuationMutate].
    - MailboxInv, MailboxSweeps, MailboxJournal, MailboxRoundTrip: the lifecycle
      of a message as a step relation, the invariant, the sweeps, the journal
      and the round trip of snapshots.
    - MailboxStore: the interface [Store] as a class, with the memory and the file
      store as instances (store_memory.go, store_file.go).
    - MailboxFacade: mailbox.go and query.go over any store.
    - MailboxWorker: worker.go with an ordinary handler.
    - MailboxContinuation: continuation.go, [AdmitHostPlan] of
      host_plan_binding.go, the deployment scopes of core/types.
    - MailboxHandlerResume: the pausing and resuming worker of worker.go.
    - MailboxProps, MailboxStoreProps, MailboxFacadeProps, MailboxWorkerProps,
      MailboxContinuationProps, MailboxResumeProps: the theorems. [StoreLaws] and
      [ContinuationLaws] are what a store promises; the theorems of the clients are
      proved against them, and both stores are instances.
    - TopoSort: a reference order of a dependency graph, for the two planners.
    - WorkflowTypes: data of engine.go, continuation.go and legacy_checkpoint.go
      with their normalisation.
    - WorkflowCompose: composability.go.
    - ExecutionGraph: graph.go.
    - WorkflowPlan: validation and planning of engine.go, graph_projection.go.
    - WorkflowContinuation: continuation.go with the memory store of
      continuations.
    - WorkflowEngine: [execute] and [ResumeContinuation], as a state monad over
      what adapters, clock and context answer.
    - WorkflowDemo: the definitions the witnesses use.
    - WorkflowEngineInv: the invariant of a run. WorkflowComposeProps,
      ExecutionGraphProps, WorkflowPlanProps, WorkflowContinuationProps,
      WorkflowEngineProps, WorkflowResumeProps: the theorems.
    - AdapterHealth, AdapterSemver, AdapterCapability: health.go, semver.go,
      negotiation.go; AdapterHealthProps, AdapterSemverProps and the end of
      AdapterCapability: the theorems.
    - GoText: the searching, quoting, scanning and sorting of package a2a.
    - A2ATypes, A2ARouting: data, policies, errors and their classification; the
      router and the negotiations of interop.go.
    - A2AServer: the in-memory server, its mutex and goroutines as a step relation.
    - A2AClient, A2AAsync: the client over any server (class [A2AServer]), reports.
    - Invoke: package invoke, over any client and any mailbox store.
    - A2AAdapter: a2a_adapter.go and async_reconcile.go, over any [QueueStore].
    - A2AServerProps, A2ARoutingProps, A2AClientProps, A2AAsyncProps: the theorems
      about package a2a. RemoteExecutionProps, ReconcileProps,
      ReportAgreementProps: those about the composition with the scheduler.
    - Collab: package collab, over any executors, any client and any provider of
      bridges; CollabProps, CollabRetryProps: the theorems.
    - Teams: teams/engine.go without continuations, the goroutines of the pool as
      steps that a schedule orders (a worker takes a job, checks the context, calls
      the runner, gets its answer and sends the result; the collector reads, writes
      the record, emits, calls the consumer and cancels); graph_projection.go and
      the remote runners.
      TeamsProps: the theorems.

    ** What the theorems show

    - Refinement: every scheduler call moves tasks, queue and commits only by the
      rules of the abstract board; the facade, [Restore] of a consistent snapshot
      included, refuses by its own rules (control, guardrails), makes exactly the
      store calls it should and passes on their answers; every mailbox message
      only moves along the message lifecycle; the projected execution graph is
      ordered like the plan; negotiation computes with sets of capabilities; a
      reconcile cycle, with other clients at work, keeps to the board.
    - Safety: a task has at most one live attempt; a terminal commit takes effect
      once; a worker that lost its lease is refused; a live delivery is exclusive
      to its consumer; late reports do not revive a task; a step runs after its
      dependencies, and never again once it has finished; a paused delivery is
      resumed by one request, and a workflow continuation of the memory store is
      executed once, unless a commit for another continuation replaces its record
      (an example shows that it then runs again); an open circuit admits no probe;
      a remote task is resolved once; a report reaches its sink once; a pool of
      workers runs each task once, under every schedule, and once it is cancelled
      calls the runners of those tasks only that had passed the check of the
      context, at most one per worker.
    - Functional behaviour: which task a claim hands out and in which order,
      publishing, what a worker makes of a message, what a resumed delivery ends
      as, how conditions decide execution, version ranges and precedence; which peer
      the router picks. A claim executed remotely commits what the peer resolved;
      an undisturbed reconcile cycle commits exactly the tasks the peers resolved; a
      report and a poll of one remote record agree, whichever comes first. The
      branches decide a collaboration; a delegation is tried as its policy says; a
      team run accounts for every task, and the elected vote beats all others.
    - Invariants: the queue holds queued tasks, the mailbox queue and counters
      are exact, histories only grow, the journal has no gaps, the timelines are
      numbered without a gap.
    - Bounds: attempts and deliveries within their budgets; retry delays of tasks,
      messages and collaborations, backoff and the delay between reconcile cycles
      within their limits.
    - Round trips: a snapshot of a scheduler restores it when its queue is exact,
      that is, when no entry of a cancelled task is left in it, and its tasks agree with
      their workspace (with the forgotten conflict marks and trimmed commits spelled
      out); a snapshot of a mailbox
      restores it after any calls; a file store reopens what it accepted; but for
      the name of the backend, a client of the mailbox cannot tell a file store from
      a memory store; versions and sealed continuations.
    - Termination and liveness: a run finishes every step; the rounds of the
      engine end; a worker whose mailbox gets no messages comes to rest; the remote
      server resolves every task it accepted, unless a refused submission has left
      its mutex locked, which then blocks it for good; a schedule brings every
      batch of a team to its end.
    - Queries: following the cursors enumerates exactly the matching records.

    ** Fuel

    [drop_spaces_fuel], [fields_fuel], [valid_utf8_fuel], [skip_space] and [piecesOf] get
    the length of their input as fuel, and each step consumes at least one byte.
    [dfs] gets the number of step and dependency names, and marks another name at
    each level; [planLoop] and [orderLoop] get the number of nodes, one of
    which each round consumes; [searchStrings], a binary search, gets the length of
    the list. [compileScope] recurses over the nesting of subgraphs up to the
    depth limit of the code. [rounds] gets one more than the number of steps:
    theorem [rounds_terminate] says that more fuel changes nothing.
    [followPages], a client that follows cursors, gets the fuel as an argument;
    the theorems say that more than the number of records is enough. [waitLoop]
    and [WaitResult] get the number of polls, since the code waits as long as the
    peer takes; the theorem on remote execution says that the polls up to the
    resolution of the task are enough. [branchAttempts] and [delegateSyncLoop] recurse
    on the attempts that are left. All other recursion is structural.

    ** Not modelled

    Reading the mailbox journal with cursors; the native history journal of the workflow
    engine, the host context of a resumed step, [FileCheckpointStore] and
    [FileWorkflowContinuationStore], parsing of YAML definitions; [Restore] of a
    mailbox beside the calls of the theorems on continuations; the protocol
    references of a2a (protocol.go) and the deadline the client puts on each call of
    its server; the order of timeline events of calls on the remote server that
    overlap; two goroutines that deliver one report at the same time; the
    continuations, host contexts and native history of teams; nil
    receivers, nil stores, clients and callbacks; contexts that are already
    cancelled when a store or a continuation operation is called. Everything else
    of the repository (runner, composer, model and tool adapters, configuration,
    diagnostics, memory) is outside this library. *)
From Stdlib Require Export ZArith Lia.
From stdpp Require Export base tactics list option gmap strings pretty sorting.

(** ** Fallible results

    A Go function returning [(T, error)] is a function into [result E T]; the
    error values are inductive types of the component. *)

Inductive result (E A : Type) : Type :=
| Ok (a : A)
| Err (e : E).
Arguments Ok {E A} a.
Arguments Err {E A} e.

#[export] Instance result_eq_dec {E A} `{!EqDecision E, !EqDecision A} :
  EqDecision (result E A).
Proof. solve_decision. Defined.

Definition result_bind {E A B : Type} (m : result E A) (k : A -> result E B) : result E B :=
  match m with
  | Ok a => k a
  | Err e => Err e
  end.

Definition is_ok {E A : Type} (m : result E A) : bool :=
  match m with Ok _ => true | Err _ => false end.

Declare Scope go_scope.
Delimit Scope go_scope with go.

(** [x ← m;ₑ k] runs [k] on the value of [m] and returns the error of [m] at
    once, as the early return [if err != nil { return ..., err }] does. *)
Notation "x ←ₑ m ; k" := (result_bind m (fun x => k))
  (at level 100, m at next level, right associativity) : go_scope.

(** [guard c else e; k] is the early return [if !c { return ..., e }]. *)
Notation "'require' c 'orelse' e ; k" := (if c then k else Err e)
  (at level 100, c at next level, e at next level, right associativity) : go_scope.

Lemma result_bind_ok {E A B} (m : result E A) (k : A -> result E B) b :
  result_bind m k = Ok b <-> exists a, m = Ok a /\ k a = Ok b.
Proof. destruct m; cbn; split; [eauto | by intros (?&[= ->]&?) | done | by intros (?&?&?)]. Qed.

Lemma require_ok {E A} (b : bool) (e : E) (k : result E A) a :
  (require b orelse e; k)%go = Ok a <-> b = true /\ k = Ok a.
Proof. destruct b; naive_solver. Qed.

Lemma bind_unit_ok {E A} (m : result E unit) (k : result E A) a :
  (_ ←ₑ m; k)%go = Ok a <-> m = Ok tt /\ k = Ok a.
Proof. rewrite result_bind_ok. split; [intros ([] & ? & ?); eauto | intros [? ?]; eauto]. Qed.

(** ** Record update

    [r <| p := v |>] is the Go assignment [r.p = v] on a struct value. A record
    type declares its constructor applied to its projections once
    ([Settable]); the update function of a projection is then derived. *)

Class Settable (R : Type) := eta : R -> R.

Class Setter {R T : Type} (p : R -> T) := set_field : (T -> T) -> R -> R.
Arguments set_field {R T} p {_} _ _.

Ltac derive_setter :=
  lazymatch goal with
  | |- @Setter ?R ?T ?p =>
      let S := constr:(_ : Settable R) in
      let S' := eval hnf in S in
      let f := fresh "f" in let r := fresh "r" in
      unfold Setter; intros f r;
      let t := eval cbv beta in (S' r) in
      let t' := eval pattern (p r) in t in
      lazymatch t' with
      | ?g _ => let u := eval cbv beta in (g (f (p r))) in exact u
      end
  end.

#[export] Hint Extern 1 (Setter _) => derive_setter : typeclass_instances.

#[warnings="-postfix-notation-not-level-1"] Notation "r <| p := v |>" := (set_field p (fun _ => v) r)
  (at level 12, left associativity, format "r  <|  p  :=  v  |>") : go_scope.
#[warnings="-postfix-notation-not-level-1"] Notation "r <| p ::= f |>" := (set_field p f r)
  (at level 12, left associativity, format "r  <|  p  ::=  f  |>") : go_scope.

Global Open Scope go_scope.

(** ** Dynamic values

    A value of Go type [any], as the payload and result maps hold: only its
    being a string is observed by the modelled code. *)
Inductive any_value : Type :=
| AnyString (s : string)
| AnyBool (b : bool)
| AnyInt (z : Z)
| AnyOther (repr : string).

#[export] Instance any_value_eq_dec : EqDecision any_value.
Proof. solve_decision. Defined.

(** A [map[string]any]; a nil map and an empty one read the same. *)
Abbreviation any_map := (gmap string any_value).

(** ** Iteration over maps

    The order in which a [range] over a Go map visits the keys: any one. *)
Class RangeOrder := {
  range_order : forall {A}, gmap string A -> list string;
  range_order_perm : forall A (m : gmap string A), range_order m ≡ₚ (map_to_list m).*1
}.

(** The order of the map's own listing. *)
Definition listing_order : RangeOrder :=
  {| range_order A m := (map_to_list m).*1; range_order_perm A m := reflexivity _ |}.

(** ** Sums over finite maps

    [map_sum f m] adds [f] over the values of [m]; with a characteristic
    function it counts. *)
Section map_sum.
Context {A : Type}.
Implicit Types (m : gmap string A) (f : A -> Z).

Definition map_sum (f : A -> Z) (m : gmap string A) : Z :=
  map_fold (fun _ a acc => (f a + acc)%Z) 0%Z m.

Lemma map_sum_empty f : map_sum f ∅ = 0%Z.
Proof. apply map_fold_empty. Qed.

Lemma map_sum_insert_fresh f m k a : m !! k = None -> map_sum f (<[k := a]> m) = (f a + map_sum f m)%Z.
Proof. intros H. unfold map_sum. rewrite map_fold_insert_L; [done | intros; lia | done]. Qed.

Lemma map_sum_insert f m k a b :
  m !! k = Some a -> map_sum f (<[k := b]> m) = (map_sum f m - f a + f b)%Z.
Proof.
  intros H. rewrite <-insert_delete_eq, map_sum_insert_fresh by apply lookup_delete_eq.
  rewrite <-(insert_delete_id m k a H) at 2.
  rewrite map_sum_insert_fresh by apply lookup_delete_eq. lia.
Qed.

Lemma map_sum_pos f m k a :
  (forall b, 0 <= f b)%Z -> m !! k = Some a -> (f a <= map_sum f m)%Z.
Proof.
  intros Hf H. rewrite <-(insert_delete_id m k a H).
  rewrite map_sum_insert_fresh by apply lookup_delete_eq.
  assert (0 <= map_sum f (delete k m))%Z; [|lia].
  generalize (delete k m). intros m'. unfold map_sum.
  apply (map_fold_weak_ind (fun r _ => (0 <= r)%Z)); [done|].
  intros ? x ? ? _ ?. specialize (Hf x). lia.
Qed.
End map_sum.

Lemma filter_ext_elem {A} (P Q : A -> Prop) `{!forall x, Decision (P x), !forall x, Decision (Q x)} (l : list A) :
  (forall x, x ∈ l -> P x <-> Q x) -> filter P l = filter Q l.
Proof.
  induction l as [|x l IH]; intros Hl; [done|]. rewrite !filter_cons.
  rewrite IH by (intros; apply Hl; by right). specialize (Hl x ltac:(by left)).
  repeat case_decide; tauto.
Qed.

Lemma filter_none {A} (P : A -> Prop) `{!forall x, Decision (P x)} (l : list A) :
  (forall x, x ∈ l -> ~ P x) -> filter P l = [].
Proof.
  induction l as [|x l IH]; intros Hl; [done|]. rewrite filter_cons, decide_False by (apply Hl; by left).
  apply IH. intros y Hy. apply Hl. by right.
Qed.

Lemma filter_all {A} (P : A -> Prop) `{!forall x, Decision (P x)} (l : list A) :
  (forall x, x ∈ l -> P x) -> filter P l = l.
Proof.
  induction l as [|x l IH]; intros Hl; [done|]. rewrite filter_cons, decide_True by (apply Hl; by left).
  f_equal. apply IH. intros y Hy. apply Hl. by right.
Qed.

Lemma NoDup_fmap_eq {A B} (f : A -> B) (l : list A) x y :
  NoDup (f <$> l) -> x ∈ l -> y ∈ l -> f x = f y -> x = y.
Proof.
  intros Hnd [i Hi]%list_elem_of_lookup [j Hj]%list_elem_of_lookup He.
  assert (i = j) as ->; [|congruence].
  apply (NoDup_lookup _ i j (f x) Hnd); rewrite list_lookup_fmap, ?Hi, ?Hj; cbn; congruence.
Qed.

(** A set has at most as many elements as a list of them. *)
Lemma size_list_to_set_le (l : list string) : (size (list_to_set l : gset string) <= length l)%nat.
Proof.
  induction l as [|x l IH]; cbn; [by rewrite size_empty|].
  rewrite size_union_alt, size_singleton.
  assert (size ((list_to_set l : gset string) ∖ {[x]}) <= size (list_to_set l : gset string))%nat; [|lia].
  apply subseteq_size. set_solver.
Qed.

(** ** Hint databases

    [go] is the rewrite database of the library's simplifications, [go_db] the
    resolution database of its closing lemmas. *)
Create Rewrite HintDb go.
Create HintDb go_db.

