(* ===== verification/GoStrings.v ===== *)
(** * Go strings

    A Go string is a sequence of bytes, here [String.string]. This file models
    what the sources use of package [strings], of [sort.Strings] and of the
    [%d] verb: [TrimSpace] on UTF-8 bytes, [ToLower] and [EqualFold] on ASCII
    letters (other bytes are left alone), [Index] of one byte, the byte order,
    and [utf8.ValidString]. The lemmas say that trimming is idempotent, that an identifier built
    from a trimmed one by appending an ASCII tail is trimmed, and that sorting
    does not depend on the order in which a Go map yields its keys. *)
From S2P Require Import Prelude.
From Stdlib Require Import Ascii.

Local Open Scope bool_scope.
Local Open Scope string_scope.

(** ** Equality tests *)

Definition str_eqb (a b : string) : bool := bool_decide (a = b).

Notation "a =s? b" := (str_eqb a b) (at level 70) : go_scope.

Lemma str_eqb_eq a b : (a =s? b) = true <-> a = b.
Proof. unfold str_eqb. apply bool_decide_eq_true. Qed.

Lemma str_eqb_neq a b : (a =s? b) = false <-> a <> b.
Proof. unfold str_eqb. apply bool_decide_eq_false. Qed.

Lemma str_eqb_refl a : (a =s? a) = true.
Proof. by apply str_eqb_eq. Qed.

#[export] Hint Rewrite str_eqb_refl : go.

Lemma str_eqb_spec a b : reflect (a = b) (a =s? b).
Proof. unfold str_eqb. apply bool_decide_reflect. Qed.

(** ** [strings.TrimSpace] *)

Definition byte_of (c : ascii) : N := N_of_ascii c.

(** The one-byte white space of Unicode: \t \n \v \f \r and the space. *)
Definition is_space1 (c : ascii) : bool :=
  let n := byte_of c in ((9 <=? n) && (n <=? 13))%N || (n =? 32)%N.

(** U+0085 and U+00A0. *)
Definition is_space2 (a b : ascii) : bool :=
  ((byte_of a =? 194) && ((byte_of b =? 133) || (byte_of b =? 160)))%N.

(** U+1680, U+2000 to U+200A, U+2028, U+2029, U+202F, U+205F, U+3000. *)
Definition is_space3 (a b c : ascii) : bool :=
  let x := byte_of a in let y := byte_of b in let z := byte_of c in
  (((x =? 225) && (y =? 154) && (z =? 128))
   || ((x =? 226) && (y =? 128) &&
       (((128 <=? z) && (z <=? 138)) || (z =? 168) || (z =? 169) || (z =? 175)))
   || ((x =? 226) && (y =? 129) && (z =? 159))
   || ((x =? 227) && (y =? 128) && (z =? 128)))%N.

(** [space_len back l] is the length in bytes of the white-space rune at the
    front of [l], zero when there is none. With [back] the list is a reversed
    string, so the bytes of a rune come last byte first. *)
Definition space_len (back : bool) (l : list ascii) : nat :=
  match l with
  | [] => 0
  | c :: r =>
      if is_space1 c then 1
      else match r with
      | [] => 0
      | d :: r2 =>
          if (if back then is_space2 d c else is_space2 c d) then 2
          else match r2 with
          | [] => 0
          | e :: _ => if (if back then is_space3 e d c else is_space3 c d e) then 3 else 0
          end
      end
  end.

Fixpoint drop_spaces_fuel (fuel : nat) (back : bool) (l : list ascii) : list ascii :=
  match fuel with
  | O => l
  | S fuel =>
      match space_len back l with
      | O => l
      | n => drop_spaces_fuel fuel back (drop n l)
      end
  end.

(** Each round drops at least one byte, so the length is enough fuel. *)
Definition drop_spaces (back : bool) (l : list ascii) : list ascii :=
  drop_spaces_fuel (length l) back l.

Definition bytes (s : string) : list ascii := Stdlib.Strings.String.list_ascii_of_string s.
Definition of_bytes (l : list ascii) : string := Stdlib.Strings.String.string_of_list_ascii l.

Definition TrimSpace (s : string) : string :=
  of_bytes (reverse (drop_spaces true (reverse (drop_spaces false (bytes s))))).

(** ** [strings.Split], [strings.Fields] and greedy matching *)

(** The longest prefix in a class, and the rest. *)
Fixpoint spanWhile (p : ascii -> bool) (l : list ascii) : list ascii * list ascii :=
  match l with
  | [] => ([], [])
  | c :: r => if p c then let '(a, b) := spanWhile p r in (c :: a, b) else ([], l)
  end.

(** The parts between the occurrences of a byte. *)
Fixpoint split_bytes (sep : ascii) (l : list ascii) : list (list ascii) :=
  match l with
  | [] => [[]]
  | c :: r =>
      if bool_decide (c = sep) then [] :: split_bytes sep r
      else match split_bytes sep r with
      | part :: rest => (c :: part) :: rest
      | [] => [[c]]
      end
  end.

Definition Split (s : string) (sep : ascii) : list string := of_bytes <$> split_bytes sep (bytes s).

(** The parts between white-space runes that are not empty; each round takes at least
    one byte. *)
Fixpoint fields_fuel (fuel : nat) (word l : list ascii) : list (list ascii) :=
  let flush := match word with [] => [] | _ => [reverse word] end in
  match fuel, l with
  | S fuel, c :: r =>
      match space_len false l with
      | O => fields_fuel fuel (c :: word) r
      | n => flush ++ fields_fuel fuel [] (drop n l)
      end
  | _, _ => flush
  end%list.

Definition Fields (s : string) : list string := of_bytes <$> fields_fuel (length (bytes s)) [] (bytes s).

(** ** [strings.ToLower], [strings.EqualFold], [strings.Index] *)

Definition lower_byte (c : ascii) : ascii :=
  let n := byte_of c in
  if ((65 <=? n) && (n <=? 90))%N then ascii_of_N (n + 32) else c.

Fixpoint ToLower (s : string) : string :=
  match s with
  | EmptyString => EmptyString
  | String c r => String (lower_byte c) (ToLower r)
  end.

Definition EqualFold (a b : string) : bool := ToLower a =s? ToLower b.

(** The part of [s] before the first byte [c], when [s] has one: the slice
    [s[:cut]] with [cut = strings.Index(s, c)]. *)
Fixpoint before_byte (c : ascii) (s : string) : option string :=
  match s with
  | EmptyString => None
  | String d r =>
      if bool_decide (d = c) then Some EmptyString
      else String d <$> before_byte c r
  end.

(** ** [fmt.Sprintf("%d", n)] and [sort.Strings] *)

Definition itoa (n : Z) : string := pretty n.

Definition sort_strings (l : list string) : list string := merge_sort String.le l.

(** ** [utf8.ValidString]

    The well-formed byte sequences of Unicode: no overlong form, no surrogate,
    nothing above U+10FFFF. [utf8_len l] is the length of the rune in front of
    [l], zero when the front is no well-formed rune. *)
Definition utf8_tail (c : ascii) : bool := ((128 <=? byte_of c) && (byte_of c <=? 191))%N.

Definition utf8_len (l : list ascii) : nat :=
  match l with
  | [] => 0
  | a :: r =>
      let x := byte_of a in
      if (x <? 128)%N then 1
      else match r with
      | [] => 0
      | b :: r2 =>
          let y := byte_of b in
          if ((194 <=? x) && (x <=? 223))%N then (if utf8_tail b then 2 else 0)
          else match r2 with
          | [] => 0
          | c :: r3 =>
              if ((224 <=? x) && (x <=? 239))%N then
                (if utf8_tail b && utf8_tail c
                    && (negb (x =? 224) || (160 <=? y))%N
                    && (negb (x =? 237) || (y <=? 159))%N
                 then 3 else 0)
              else match r3 with
              | [] => 0
              | d :: _ =>
                  if ((240 <=? x) && (x <=? 244))%N
                     && utf8_tail b && utf8_tail c && utf8_tail d
                     && (negb (x =? 240) || (144 <=? y))%N
                     && (negb (x =? 244) || (y <=? 143))%N
                  then 4 else 0
              end
          end
      end
  end.

Fixpoint valid_utf8_fuel (fuel : nat) (l : list ascii) : bool :=
  match l, fuel with
  | [], _ => true
  | _, O => false
  | _, S fuel =>
      match utf8_len l with
      | O => false
      | n => valid_utf8_fuel fuel (drop n l)
      end
  end.

(** Each round drops at least one byte, so the length is enough fuel. *)
Definition ValidString (s : string) : bool := valid_utf8_fuel (length (bytes s)) (bytes s).

(** ** Trimming *)

Lemma bytes_of_bytes l : bytes (of_bytes l) = l.
Proof. apply Stdlib.Strings.String.list_ascii_of_string_of_list_ascii. Qed.

Lemma of_bytes_bytes s : of_bytes (bytes s) = s.
Proof. apply Stdlib.Strings.String.string_of_list_ascii_of_string. Qed.

Lemma bytes_inj a b : bytes a = bytes b -> a = b.
Proof. intros H. by rewrite <-(of_bytes_bytes a), H, of_bytes_bytes. Qed.

Lemma bytes_app a b : bytes (a +:+ b) = (bytes a ++ bytes b)%list.
Proof. unfold bytes. induction a as [|c a IH]; [done|]. exact (f_equal (cons c) IH). Qed.

(** A prefix with a white-space rune in front gives one to the whole. *)
Lemma space_len_app back l k : space_len back l <> 0 -> space_len back (l ++ k)%list <> 0.
Proof.
  destruct l as [|c [|d [|e l]]]; cbn; [done| | |].
  - destruct (is_space1 c); done.
  - destruct (is_space1 c); [done|].
    destruct back; cbn; case_match; done.
  - destruct (is_space1 c); [done|].
    destruct back; cbn; case_match; try done; case_match; done.
Qed.

Lemma drop_spaces_fuel_fix fuel back l :
  (length l <= fuel)%nat -> space_len back (drop_spaces_fuel fuel back l) = 0.
Proof.
  revert l. induction fuel as [|fuel IH]; intros l Hl; cbn.
  - destruct l; [done | cbn in Hl; lia].
  - destruct (space_len back l) as [|n] eqn:Hs; [done|].
    apply IH. rewrite length_drop. lia.
Qed.

Lemma drop_spaces_fix back l : space_len back (drop_spaces back l) = 0.
Proof. by apply drop_spaces_fuel_fix. Qed.

Lemma drop_spaces_none back l : space_len back l = 0 -> drop_spaces back l = l.
Proof. unfold drop_spaces. destruct l; cbn -[space_len]; [done | by intros ->]. Qed.

Lemma drop_spaces_suffix back l : exists k, l = (k ++ drop_spaces back l)%list.
Proof.
  unfold drop_spaces. generalize (length l) at 1. intros fuel. revert l.
  induction fuel as [|fuel IH]; intros l; cbn; [by exists [] |].
  destruct (space_len back l) as [|n] eqn:Hs; [by exists [] |].
  destruct (IH (drop (S n) l)) as [k Hk].
  exists (take (S n) l ++ k)%list. rewrite <-app_assoc, <-Hk. symmetry. apply take_drop.
Qed.

(** [trimmed s]: no white-space rune at either end of [s]. *)
Definition trimmed (s : string) : Prop :=
  space_len false (bytes s) = 0 /\ space_len true (reverse (bytes s)) = 0.

Lemma TrimSpace_trimmed s : trimmed (TrimSpace s).
Proof.
  unfold trimmed, TrimSpace. rewrite bytes_of_bytes, reverse_involutive. split.
  - set (l := drop_spaces false (bytes s)).
    destruct (drop_spaces_suffix true (reverse l)) as [k Hk].
    destruct (decide (space_len false (reverse (drop_spaces true (reverse l))) = 0)) as [|Hn]; [done|].
    exfalso. apply (space_len_app _ _ (reverse k)) in Hn. apply Hn.
    rewrite <-reverse_app, <-Hk, reverse_involutive. apply drop_spaces_fix.
  - apply drop_spaces_fix.
Qed.

Lemma TrimSpace_id s : trimmed s -> TrimSpace s = s.
Proof.
  intros [H1 H2]. unfold TrimSpace.
  by rewrite (drop_spaces_none false), (drop_spaces_none true), reverse_involutive, of_bytes_bytes.
Qed.

Lemma TrimSpace_iff s : TrimSpace s = s <-> trimmed s.
Proof. split; [intros <-; apply TrimSpace_trimmed | apply TrimSpace_id]. Qed.

Lemma TrimSpace_idemp s : TrimSpace (TrimSpace s) = TrimSpace s.
Proof. apply TrimSpace_id, TrimSpace_trimmed. Qed.

Lemma TrimSpace_empty : TrimSpace "" = "".
Proof. reflexivity. Qed.

#[export] Hint Rewrite TrimSpace_idemp TrimSpace_empty : go.
#[export] Hint Resolve TrimSpace_trimmed TrimSpace_id : go_db.

(** ** Identifiers built by appending an ASCII tail *)

Definition ascii_nonspace (c : ascii) : bool := negb (is_space1 c) && (byte_of c <? 128)%N.

(** An ASCII byte that is no space ends no white-space rune. *)
Lemma space_len_ascii_head back c l : ascii_nonspace c = true -> space_len back (c :: l) = 0.
Proof.
  unfold ascii_nonspace. intros [Hs Hc]%andb_true_iff.
  apply negb_true_iff in Hs. apply N.ltb_lt in Hc. cbn. rewrite Hs.
  assert (Hn : forall k : N, (128 <= k)%N -> (byte_of c =? k)%N = false)
    by (intros k Hk; apply N.eqb_neq; lia).
  assert (Hb : (128 <=? byte_of c)%N = false) by (apply N.leb_gt; lia).
  destruct l as [|d [|e l]]; [done| |]; unfold is_space2, is_space3;
    destruct back; rewrite ?Hb, ?Hn, ?andb_false_r by lia; cbn; try done.
  all: by rewrite ?Hn, ?andb_false_r by lia.
Qed.

(** A word of ASCII bytes that are no white space is trimmed. *)
Lemma ascii_trimmed s : Forall (fun c => ascii_nonspace c = true) (bytes s) -> trimmed s.
Proof.
  intros HF. split.
  - destruct (bytes s) as [|c l]; [done|]. apply space_len_ascii_head. by inversion HF.
  - rewrite Forall_forall in HF. destruct (reverse (bytes s)) as [|c l] eqn:E; [done|]. apply space_len_ascii_head, HF.
    rewrite <-elem_of_reverse, E. by left.
Qed.

Lemma space_len_app_ascii back l c k :
  l <> [] -> space_len back l = 0 -> ascii_nonspace c = true ->
  space_len back (l ++ c :: k)%list = 0.
Proof.
  intros Hl H Hc.
  assert (H2 : forall a, is_space2 a c = false /\ is_space2 c a = false
    /\ forall b, is_space3 b a c = false /\ is_space3 a c b = false /\ is_space3 c a b = false).
  { intros a. unfold ascii_nonspace in Hc. apply andb_true_iff in Hc as [Hs Hc].
    apply negb_true_iff in Hs. apply N.ltb_lt in Hc.
    assert (Hn : forall k : N, (128 <= k)%N -> (byte_of c =? k)%N = false)
      by (intros j Hj; apply N.eqb_neq; lia).
    assert (Hb : (128 <=? byte_of c)%N = false) by (apply N.leb_gt; lia).
    unfold is_space2, is_space3. split_and!; [by rewrite !Hn, andb_false_r by lia | by rewrite !Hn by lia|].
    intros b. rewrite !Hn, Hb by lia. cbn. rewrite !andb_false_r. done. }
  destruct l as [|a [|b [|d l]]]; [done| | |exact H]; cbn in H |- *;
    destruct (is_space1 a); try done.
  - destruct (H2 a) as (-> & -> & H3). destruct k as [|d k]; [by destruct back|].
    destruct (H3 d) as (_ & -> & _). assert (is_space3 d c a = false) as -> by (apply (H2 d)). by destruct back.
  - destruct (H2 b) as (_ & _ & H3). destruct (H3 a) as (-> & _ & ->).
    destruct back, (is_space2 b a), (is_space2 a b); done.
Qed.

(** A trimmed, non-empty identifier stays trimmed when a tail of ASCII bytes
    that are no white space is appended. *)
Lemma trimmed_app_ascii s t :
  trimmed s -> s <> "" -> t <> "" -> Forall (fun c => ascii_nonspace c = true) (bytes t) ->
  trimmed (s +:+ t).
Proof.
  intros [H1 H2] Hs Ht HF. unfold trimmed. rewrite bytes_app.
  destruct t as [|c t]; [done|]. clear Ht.
  change (bytes (String c t)) with (c :: bytes t) in *. split.
  - apply space_len_app_ascii; [by destruct s | done | by inversion HF].
  - rewrite reverse_app.
    destruct (reverse (c :: bytes t)) as [|d r] eqn:Hr.
    { apply (f_equal length) in Hr. rewrite length_reverse in Hr. done. }
    cbn -[space_len]. apply space_len_ascii_head.
    rewrite Forall_forall in HF. apply HF. rewrite <-elem_of_reverse, Hr. set_solver.
Qed.

(** Two identifiers joined by a separator. *)
Lemma trimmed_join s c t :
  trimmed s -> s <> "" -> trimmed t -> t <> "" -> ascii_nonspace c = true -> trimmed (s +:+ String c t).
Proof.
  intros [S1 S2] Hs [T1 T2] Ht Hc. unfold trimmed. rewrite bytes_app.
  change (bytes (String c t)) with (c :: bytes t). split.
  - apply space_len_app_ascii; [by destruct s | done..].
  - rewrite reverse_app, reverse_cons, <-app_assoc. apply space_len_app_ascii; [|done..].
    intros E. apply (f_equal length) in E. rewrite length_reverse in E. by destruct t.
Qed.

(** ** Decimal printing *)

Definition is_digit (c : ascii) : bool := (48 <=? byte_of c)%N && (byte_of c <=? 57)%N.

Lemma is_digit_ascii c : is_digit c = true -> ascii_nonspace c = true.
Proof. destruct c as [[] [] [] [] [] [] [] []]; done. Qed.

Lemma pretty_N_char_digit n : is_digit (pretty_N_char n) = true.
Proof. unfold pretty_N_char. repeat case_match; reflexivity. Qed.

Lemma pretty_N_go_digits x s :
  Forall (fun c => is_digit c = true) (bytes s) ->
  Forall (fun c => is_digit c = true) (bytes (pretty_N_go x s)).
Proof.
  revert s. induction (N.lt_wf_0 x) as [x _ IH]. intros s Hs.
  destruct (decide (x = 0)%N) as [->|Hx]; [by rewrite pretty_N_go_0|].
  rewrite pretty_N_go_step by lia. apply IH; [by apply N.div_lt; lia|].
  constructor; [apply pretty_N_char_digit | exact Hs].
Qed.

Lemma pretty_N_digits (x : N) : Forall (fun c => is_digit c = true) (bytes (pretty x)).
Proof.
  unfold pretty, pretty_N. case_decide.
  - repeat constructor.
  - apply pretty_N_go_digits. constructor.
Qed.

Lemma itoa_digits n : (0 <= n)%Z -> Forall (fun c => is_digit c = true) (bytes (itoa n)).
Proof.
  intros Hn. unfold itoa, pretty, pretty_Z.
  destruct n as [|p|p]; [repeat constructor | apply pretty_N_digits | lia].
Qed.

Lemma itoa_ascii n : Forall (fun c => ascii_nonspace c = true) (bytes (itoa n)).
Proof.
  destruct (Z.leb_spec 0 n) as [Hn|Hn].
  - eapply Forall_impl; [by apply itoa_digits|]. apply is_digit_ascii.
  - unfold itoa, pretty, pretty_Z. destruct n as [|p|p]; [lia | lia |].
    rewrite bytes_app. apply Forall_app. split; [repeat constructor|].
    eapply Forall_impl; [apply pretty_N_digits|]. apply is_digit_ascii.
Qed.

Lemma itoa_inj m n : itoa m = itoa n -> m = n.
Proof. apply pretty_Z_inj. Qed.

(** The value of a string of digits. *)
Definition digits_value (l : list ascii) : Z :=
  foldl (fun v c => 10 * v + (Z.of_N (byte_of c) - 48))%Z 0%Z l.

Lemma digits_value_app l k :
  digits_value (l ++ k)%list = (digits_value l * 10 ^ Z.of_nat (length k) + digits_value k)%Z.
Proof.
  unfold digits_value. rewrite foldl_app. generalize (foldl (fun v c => 10 * v + (Z.of_N (byte_of c) - 48))%Z 0%Z l) as v.
  induction k as [|c k IH] using rev_ind; intros v; [cbn; lia|].
  rewrite !foldl_app. cbn [foldl]. rewrite IH, length_app, Nat2Z.inj_add, Z.pow_add_r by lia. cbn [length]. lia.
Qed.

Lemma pretty_N_char_value n : (n < 10)%N -> (Z.of_N (byte_of (pretty_N_char n)) - 48)%Z = Z.of_N n.
Proof. intros Hn. destruct n as [|p]; [done|]. do 4 (destruct p as [p|p|]; try done). Qed.

Lemma pretty_N_go_value x s :
  digits_value (bytes (pretty_N_go x s)) = (Z.of_N x * 10 ^ Z.of_nat (length (bytes s)) + digits_value (bytes s))%Z.
Proof.
  revert s. induction (N.lt_wf_0 x) as [x _ IH]. intros s.
  destruct (decide (x = 0)%N) as [->|Hx]; [by rewrite pretty_N_go_0|].
  rewrite pretty_N_go_step by lia. rewrite IH by (apply N.div_lt; lia).
  set (c := pretty_N_char _). change (bytes (String c s)) with ([c] ++ bytes s)%list.
  rewrite digits_value_app, length_app. unfold digits_value at 1. cbn [foldl length Nat.add]. unfold c.
  rewrite pretty_N_char_value by (apply N.mod_lt; lia). rewrite Nat2Z.inj_succ, Z.pow_succ_r by lia.
  pose proof (N.div_mod x 10 ltac:(lia)) as Hd. apply (f_equal Z.of_N) in Hd. rewrite N2Z.inj_add, N2Z.inj_mul in Hd.
  rewrite Hd. lia.
Qed.

(** Printing and reading back. *)
Lemma itoa_value n : (0 <= n)%Z -> digits_value (bytes (itoa n)) = n.
Proof.
  intros Hn. unfold itoa, pretty, pretty_Z. destruct n as [|p|p]; [done| |lia].
  unfold pretty, pretty_positive, pretty, pretty_N. case_decide; [done|]. rewrite pretty_N_go_value. cbn. lia.
Qed.

Lemma itoa_nonempty n : bytes (itoa n) <> [].
Proof.
  intros E. assert (Hn : itoa n = "") by (apply bytes_inj; exact E).
  destruct n as [|p|p]; [done| |done].
  assert (Hz : digits_value (bytes (itoa (Z.pos p))) = Z.pos p) by (apply itoa_value; lia).
  by rewrite Hn in Hz.
Qed.

(** The identifiers the stores mint: [fmt.Sprintf("%s<tag>%d", id, n)]. *)
Definition minted (id tag : string) (n : Z) : string := id +:+ tag +:+ itoa n.

Lemma minted_trimmed id tag n :
  trimmed id -> id <> "" -> tag <> "" ->
  Forall (fun c => ascii_nonspace c = true) (bytes tag) -> trimmed (minted id tag n).
Proof.
  intros Hid Hne Htag HF. apply trimmed_app_ascii; [done|done| |].
  - by destruct tag.
  - rewrite bytes_app. apply Forall_app. split; [done | apply itoa_ascii].
Qed.

Lemma minted_inj id tag m n : minted id tag m = minted id tag n -> m = n.
Proof.
  unfold minted. intros H. apply (f_equal bytes) in H. rewrite !bytes_app in H.
  apply app_inv_head, app_inv_head, bytes_inj, itoa_inj in H. done.
Qed.

Lemma minted_nonempty id tag n : tag <> "" -> minted id tag n <> "".
Proof. unfold minted. destruct id, tag; done. Qed.

(** Two lists split at their last separator. *)
Lemma split_last_sep {A} (c : A) l1 d1 l2 d2 :
  c ∉ d1 -> c ∉ d2 -> (l1 ++ c :: d1 = l2 ++ c :: d2)%list -> l1 = l2 /\ d1 = d2.
Proof.
  intros H1 H2. revert l2. induction l1 as [|x l1 IH]; intros [|y l2]; cbn; intros H; simplify_eq; auto.
  - set_solver.
  - set_solver.
  - match goal with E : _ = _ |- _ => destruct (IH l2 E); by subst end.
Qed.

(** [id|id-attempt-n] determines [id] and [n]. *)
Lemma minted_key_inj id1 id2 sep tag n1 n2 :
  (0 <= n1)%Z -> (0 <= n2)%Z ->
  id1 +:+ sep +:+ minted id1 (tag +:+ "-") n1 = id2 +:+ sep +:+ minted id2 (tag +:+ "-") n2 ->
  id1 = id2 /\ n1 = n2.
Proof.
  intros Hn1 Hn2 H. apply (f_equal bytes) in H. unfold minted in H. rewrite !bytes_app in H.
  assert (Hd : forall n, (0 <= n)%Z -> "-"%char ∉ bytes (itoa n)).
  { intros n Hn Hin. pose proof (itoa_digits n Hn) as HF. rewrite Forall_forall in HF.
    specialize (HF _ Hin). done. }
  change (bytes "-") with ["-"%char] in H. rewrite <- !(assoc_L (++)) in H.
  rewrite !(assoc_L (++) _ (bytes tag)), !(assoc_L (++) (bytes sep)), !(assoc_L (++) (bytes id1)),
    !(assoc_L (++) (bytes id2)) in H.
  apply split_last_sep in H as [H ->%bytes_inj%itoa_inj]; [|by apply Hd..].
  split; [|done]. rewrite <- !(assoc_L (++)) in H. apply bytes_inj.
  pose proof (f_equal length H) as Hlen. rewrite !length_app in Hlen.
  apply app_inj_1 in H as [? _]; [done | lia].
Qed.

(** ** Lower case *)

Lemma lower_byte_idemp c : lower_byte (lower_byte c) = lower_byte c.
Proof. destruct c as [[] [] [] [] [] [] [] []]; reflexivity. Qed.

Lemma ToLower_idemp s : ToLower (ToLower s) = ToLower s.
Proof. induction s as [|c s IH]; cbn; [done | by rewrite lower_byte_idemp, IH]. Qed.

Lemma bytes_ToLower s : bytes (ToLower s) = map lower_byte (bytes s).
Proof. induction s as [|c s IH]; [done | exact (f_equal (cons (lower_byte c)) IH)]. Qed.

Lemma lower_byte_low c : (byte_of (lower_byte c) < 128)%N \/ lower_byte c = c.
Proof. destruct c as [[] [] [] [] [] [] [] []]; (by right) || (left; vm_compute; done). Qed.

Lemma lower_byte_space1 c : is_space1 (lower_byte c) = is_space1 c.
Proof. destruct c as [[] [] [] [] [] [] [] []]; reflexivity. Qed.

Lemma lower_byte_eqb c k : (128 <= k)%N -> (byte_of (lower_byte c) =? k)%N = (byte_of c =? k)%N.
Proof.
  intros Hk. destruct (lower_byte_low c) as [H| ->]; [|done].
  assert (Hc : (byte_of c < 128)%N).
  { revert H. destruct c as [[] [] [] [] [] [] [] []]; vm_compute; done. }
  rewrite !(proj2 (N.eqb_neq _ _)); lia.
Qed.

Lemma lower_byte_geb c : (128 <=? byte_of (lower_byte c))%N = (128 <=? byte_of c)%N.
Proof. destruct c as [[] [] [] [] [] [] [] []]; reflexivity. Qed.

Lemma lower_byte_leb c : ((128 <=? byte_of c) && (byte_of (lower_byte c) <=? 138))%N
                         = ((128 <=? byte_of c) && (byte_of c <=? 138))%N.
Proof. destruct c as [[] [] [] [] [] [] [] []]; reflexivity. Qed.

Lemma space_len_lower back l : space_len back (map lower_byte l) = space_len back l.
Proof.
  assert (H2 : forall a b, is_space2 (lower_byte a) (lower_byte b) = is_space2 a b)
    by (intros a b; unfold is_space2; by rewrite !lower_byte_eqb by lia).
  assert (H3 : forall a b c, is_space3 (lower_byte a) (lower_byte b) (lower_byte c) = is_space3 a b c).
  { intros a b c. unfold is_space3.
    by rewrite !lower_byte_eqb, lower_byte_geb, lower_byte_leb by lia. }
  destruct l as [|a [|b [|c l]]]; cbn; rewrite ?lower_byte_space1, ?H2, ?H3; done.
Qed.

Lemma ToLower_trimmed s : trimmed s -> trimmed (ToLower s).
Proof.
  unfold trimmed. rewrite bytes_ToLower. intros [H1 H2]. split.
  - by rewrite space_len_lower.
  - by rewrite <-fmap_reverse, space_len_lower.
Qed.

(** [strings.ToLower(strings.TrimSpace(s))], the normal form of the enumerated
    string fields. *)
Definition lower_trim (s : string) : string := ToLower (TrimSpace s).

Lemma TrimSpace_lower_trim s : TrimSpace (lower_trim s) = lower_trim s.
Proof. apply TrimSpace_id, ToLower_trimmed, TrimSpace_trimmed. Qed.

Lemma lower_trim_idemp s : lower_trim (lower_trim s) = lower_trim s.
Proof. unfold lower_trim at 1. by rewrite TrimSpace_lower_trim; unfold lower_trim; rewrite ToLower_idemp. Qed.

#[export] Hint Rewrite TrimSpace_lower_trim lower_trim_idemp ToLower_idemp : go.

(** ** Parts of a string *)

Lemma elem_of_TrimSpace c s : c ∈ bytes (TrimSpace s) -> c ∈ bytes s.
Proof.
  unfold TrimSpace. rewrite bytes_of_bytes, elem_of_reverse. intros H.
  destruct (drop_spaces_suffix true (reverse (drop_spaces false (bytes s)))) as [k1 E1].
  destruct (drop_spaces_suffix false (bytes s)) as [k2 E2].
  rewrite E2, elem_of_app. right. rewrite <-elem_of_reverse, E1, elem_of_app. by right.
Qed.

Lemma before_byte_None c s : before_byte c s = None <-> c ∉ bytes s.
Proof.
  induction s as [|d s IH]; cbn; [split; [intros _ []%elem_of_nil | done]|].
  change (bytes (String d s)) with (d :: bytes s).
  rewrite not_elem_of_cons. case_bool_decide as E; [naive_solver|].
  destruct (before_byte c s); cbn; naive_solver.
Qed.

Lemma before_byte_Some c s p : before_byte c s = Some p ->
  (c ∉ bytes p) /\ forall d, d ∈ bytes p -> d ∈ bytes s.
Proof.
  revert p. induction s as [|d s IH]; intros p; cbn; [done|].
  change (bytes (String d s)) with (d :: bytes s). case_bool_decide as E.
  - intros [= <-]. cbn. split; [apply not_elem_of_nil | by intros ? ?%elem_of_nil].
  - destruct (before_byte c s) as [q|]; cbn; [|done]. intros [= <-].
    destruct (IH q eq_refl) as [H1 H2]. change (bytes (String d q)) with (d :: bytes q).
    rewrite not_elem_of_cons. split; [naive_solver|]. intros e. rewrite !elem_of_cons. naive_solver.
Qed.

Lemma ToLower_fixed s : (forall c, c ∈ bytes s -> lower_byte c = c) -> ToLower s = s.
Proof.
  intros H. apply bytes_inj. rewrite bytes_ToLower. revert H. generalize (bytes s).
  intros l. induction l as [|c l IH]; intros H; [done|]. cbn. f_equal; [apply H; set_solver|].
  apply IH. set_solver.
Qed.

Lemma elem_of_ToLower c s : c ∈ bytes (ToLower s) -> lower_byte c = c.
Proof.
  rewrite bytes_ToLower. intros (d & -> & _)%list_elem_of_fmap. apply lower_byte_idemp.
Qed.

(** ** [sort.Strings] *)

Lemma sort_strings_perm l : sort_strings l ≡ₚ l.
Proof. apply merge_sort_Permutation. Qed.

Lemma sort_strings_sorted l : Sorted String.le (sort_strings l).
Proof. apply Sorted_merge_sort. apply _. Qed.

Lemma elem_of_sort_strings x l : x ∈ sort_strings l <-> x ∈ l.
Proof. by rewrite sort_strings_perm. Qed.

Lemma NoDup_sort_strings l : NoDup (sort_strings l) <-> NoDup l.
Proof. by rewrite sort_strings_perm. Qed.

Lemma spanWhile_app p (a b : list ascii) :
  Forall (fun c => p c = true) a -> match b with c :: _ => p c = false | [] => True end -> spanWhile p (a ++ b)%list = (a, b).
Proof.
  intros Ha Hb. induction Ha as [|c a Hc _ IH]; cbn [app spanWhile].
  - destruct b as [|c b]; [done|]. cbn. by rewrite Hb.
  - by rewrite Hc, IH.
Qed.

Lemma split_bytes_single sep l : sep ∉ l -> split_bytes sep l = [l].
Proof.
  induction l as [|c l IH]; [done|]. intros Hn. apply not_elem_of_cons in Hn as [Hc Hl]. cbn.
  rewrite bool_decide_eq_false_2 by congruence. by rewrite IH.
Qed.

Lemma split_bytes_app sep l k : sep ∉ l -> split_bytes sep (l ++ sep :: k)%list = l :: split_bytes sep k.
Proof.
  induction l as [|c l IH]; intros Hn; cbn; [by rewrite bool_decide_eq_true_2|].
  apply not_elem_of_cons in Hn as [Hc Hl]. rewrite bool_decide_eq_false_2 by congruence. by rewrite IH.
Qed.

(** Sorting forgets the order in which a Go map yields its keys. *)
Lemma sort_strings_order_irrelevant l k : l ≡ₚ k -> sort_strings l = sort_strings k.
Proof.
  intros H. apply (Sorted_unique String.le); try apply sort_strings_sorted.
  by rewrite !sort_strings_perm.
Qed.

#[export] Instance sort_strings_proper : Proper ((≡ₚ) ==> (=)) sort_strings.
Proof. intros l k. apply sort_strings_order_irrelevant. Qed.

(** Keep these folded under [cbn] and [simpl]. *)
#[global] Arguments TrimSpace _ : simpl never.
#[global] Arguments ToLower _ : simpl never.
#[global] Arguments lower_trim _ : simpl never.
#[global] Arguments EqualFold _ _ : simpl never.
#[global] Arguments itoa _ : simpl never.
#[global] Arguments minted _ _ _ : simpl never.
#[global] Arguments sort_strings _ : simpl never.
#[global] Arguments str_eqb _ _ : simpl never.
