(* ===== verification/GoNum.v ===== *)
(** * Go numbers and time

    Machine integers ([int64], [uint64]) as [Z] with the wrap-around written
    out, [float64] as an executable model of IEEE 754 binary64 (round to
    nearest, ties to even, no fused operations), and [time.Time] and
    [time.Duration] as nanoseconds. *)
From S2P Require Import Prelude.

Local Open Scope Z_scope.

(** ** Machine integers *)

Definition wrap_u64 (z : Z) : Z := z mod 2 ^ 64.

Definition wrap_i64 (z : Z) : Z := (z + 2 ^ 63) mod 2 ^ 64 - 2 ^ 63.

Definition max_i64 : Z := 2 ^ 63 - 1.
Definition min_i64 : Z := - 2 ^ 63.

Lemma wrap_i64_id z : min_i64 <= z <= max_i64 -> wrap_i64 z = z.
Proof. unfold wrap_i64, min_i64, max_i64. intros H. rewrite Z.mod_small; lia. Qed.

(** An addition may wrap its operand first. *)
Lemma wrap_i64_add z k : wrap_i64 (wrap_i64 z + k) = wrap_i64 (z + k).
Proof.
  unfold wrap_i64. f_equal. replace (_ - 2 ^ 63 + k + 2 ^ 63) with ((z + 2 ^ 63) mod 2 ^ 64 + k) by lia.
  rewrite Zplus_mod_idemp_l. f_equal. lia.
Qed.

(** ** Binary64 *)

(** [FFin m e] is the number [m * 2^e]; the two zeros are one value, as no
    modelled operation tells them apart. *)
Inductive f64 : Type :=
| FFin (m e : Z)
| FInf (neg : bool)
| FNaN.

#[export] Instance f64_eq_dec : EqDecision f64.
Proof. solve_decision. Defined.

(** Rounds [m * 2^e] to 53 significant bits, to the subnormal grid below
    [2^-1022] and to an infinity above the largest finite number. *)
Definition f64_round (m e : Z) : f64 :=
  if m =? 0 then FFin 0 0
  else
    let a := Z.abs m in
    let sh := Z.max (Z.log2 a - 52) (-1074 - e) in
    let r :=
      if sh <=? 0 then (a, e)
      else
        let q := a / 2 ^ sh in
        let rem := a mod 2 ^ sh in
        let half := 2 ^ (sh - 1) in
        let q' := if rem <? half then q
                  else if half <? rem then q + 1
                  else if Z.even q then q else q + 1 in
        (q', e + sh) in
    if 1024 <=? Z.log2 (fst r) + snd r then FInf (m <? 0)
    else FFin (Z.sgn m * fst r) (snd r).

Definition f64_of_Z (z : Z) : f64 := f64_round z 0.

Definition f64_mul (x y : f64) : f64 :=
  match x, y with
  | FNaN, _ | _, FNaN => FNaN
  | FFin m1 e1, FFin m2 e2 => f64_round (m1 * m2) (e1 + e2)
  | FFin m _, FInf n | FInf n, FFin m _ => if m =? 0 then FNaN else FInf (xorb n (m <? 0))
  | FInf a, FInf b => FInf (xorb a b)
  end.

Definition f64_add (x y : f64) : f64 :=
  match x, y with
  | FNaN, _ | _, FNaN => FNaN
  | FFin m1 e1, FFin m2 e2 =>
      let e := Z.min e1 e2 in f64_round (m1 * 2 ^ (e1 - e) + m2 * 2 ^ (e2 - e)) e
  | FInf a, FInf b => if Bool.eqb a b then FInf a else FNaN
  | FInf a, _ | _, FInf a => FInf a
  end.

(** Go's [<]: false when an operand is not a number. *)
Definition f64_ltb (x y : f64) : bool :=
  match x, y with
  | FNaN, _ | _, FNaN => false
  | FFin m1 e1, FFin m2 e2 =>
      let e := Z.min e1 e2 in m1 * 2 ^ (e1 - e) <? m2 * 2 ^ (e2 - e)
  | FFin _ _, FInf n => negb n
  | FInf n, FFin _ _ => n
  | FInf a, FInf b => a && negb b
  end.

Definition f64_leb (x y : f64) : bool :=
  match x, y with
  | FNaN, _ | _, FNaN => false
  | _, _ => negb (f64_ltb y x)
  end.

Definition f64_neg (x : f64) : f64 :=
  match x with
  | FFin m e => FFin (- m) e
  | FInf n => FInf (negb n)
  | FNaN => FNaN
  end.

Definition f64_sub (x y : f64) : f64 := f64_add x (f64_neg y).

(** The quotient to more than 64 bits, with a last bit that is set when it is not
    exact, rounds like the exact quotient. Division by zero is not modelled: it
    gives [FNaN]. *)
Definition f64_div (x y : f64) : f64 :=
  match x, y with
  | FNaN, _ | _, FNaN => FNaN
  | FFin m1 e1, FFin m2 e2 =>
      if m2 =? 0 then FNaN
      else
        let k := Z.max 0 (Z.log2 (Z.abs m2) - Z.log2 (Z.abs m1) + 66) in
        let a := Z.abs m1 * 2 ^ k in
        let q := 2 * (a / Z.abs m2) + (if a mod Z.abs m2 =? 0 then 0 else 1) in
        f64_round (Z.sgn m1 * Z.sgn m2 * q) (e1 - e2 - k - 1)
  | FFin _ _, FInf _ => FFin 0 0
  | FInf n, FFin m _ => FInf (xorb n (m <? 0))
  | FInf _, FInf _ => FNaN
  end.

(** [math.Max] and [math.Min]. *)
Definition f64_max (x y : f64) : f64 :=
  match x, y with
  | FInf false, _ | _, FInf false => FInf false
  | FNaN, _ | _, FNaN => FNaN
  | _, _ => if f64_ltb y x then x else y
  end.

Definition f64_min (x y : f64) : f64 :=
  match x, y with
  | FInf true, _ | _, FInf true => FInf true
  | FNaN, _ | _, FNaN => FNaN
  | _, _ => if f64_ltb x y then x else y
  end.

(** [int64(x)]: truncation. A value out of range is implementation-defined in
    Go; this is what amd64 gives. *)
Definition f64_trunc (m e : Z) : Z :=
  if 0 <=? e then m * 2 ^ e else Z.quot m (2 ^ (- e)).

Definition f64_to_i64 (x : f64) : Z :=
  match x with
  | FFin m e =>
      let v := f64_trunc m e in
      if (min_i64 <=? v) && (v <=? max_i64) then v else min_i64
  | _ => min_i64
  end.

Definition f64_zero : f64 := FFin 0 0.
Definition f64_one : f64 := FFin 1 0.
Definition f64_two : f64 := FFin 2 0.
(** The binary64 values of the constants 0.2, 0.95 and 0.9999999. *)
Definition f64_0_2 : f64 := FFin 3602879701896397 (-54).
Definition f64_0_95 : f64 := FFin 4278419646001971 (-52).
Definition f64_0_9999999 : f64 := FFin 9007198354021067 (-53).

(** *** Order and truncation *)

Definition f64_nonneg (x : f64) : Prop :=
  match x with FFin m _ => 0 <= m | FInf n => n = false | FNaN => False end.

Lemma f64_round_nonneg m e : 0 <= m -> f64_nonneg (f64_round m e).
Proof.
  intros Hm. unfold f64_round. destruct (Z.eqb_spec m 0) as [->|Hne]; [cbn; lia|].
  set (sh := Z.max _ _). set (r := if sh <=? 0 then _ else _).
  assert (Hr : 0 <= fst r).
  { unfold r. destruct (sh <=? 0); cbn; [lia|].
    pose proof (Z.div_pos (Z.abs m) (2 ^ sh)).
    assert (0 <= 2 ^ sh) by (apply Z.pow_nonneg; lia).
    destruct (Z.eq_dec (2 ^ sh) 0) as [->|]; [rewrite Z.div_0_r; repeat case_match; lia|].
    repeat case_match; lia. }
  case_match; cbn; [apply Z.ltb_ge; lia|]. rewrite Z.sgn_pos by lia. lia.
Qed.

Lemma f64_round_exact m e :
  Z.abs m < 2 ^ 53 -> -1074 <= e <= 971 -> m <> 0 -> f64_round m e = FFin m e.
Proof.
  intros Hm He Hne. unfold f64_round. destruct (Z.eqb_spec m 0) as [->|_]; [done|].
  assert (Hl : Z.log2 (Z.abs m) < 53) by (apply Z.log2_lt_pow2; lia).
  destruct (Z.leb_spec (Z.max (Z.log2 (Z.abs m) - 52) (-1074 - e)) 0); [|lia]. cbn.
  destruct (Z.leb_spec 1024 (Z.log2 (Z.abs m) + e)); [lia|].
  by rewrite Z.mul_comm, Z.abs_sgn.
Qed.

Lemma f64_of_Z_exact z : Z.abs z < 2 ^ 53 -> f64_of_Z z = FFin z 0.
Proof.
  intros Hz. unfold f64_of_Z. destruct (Z.eq_dec z 0) as [->|Hne]; [done|].
  apply f64_round_exact; lia.
Qed.

Lemma pow2_pos e : 0 <= e -> 0 < 2 ^ e.
Proof. intros. apply Z.pow_pos_nonneg; lia. Qed.

Lemma f64_trunc_le m e z : 0 <= z -> f64_ltb (FFin z 0) (FFin m e) = false -> f64_trunc m e <= z.
Proof.
  intros Hz H%Z.ltb_ge. unfold f64_trunc. destruct (Z.leb_spec 0 e) as [He|He].
  - rewrite Z.min_l in H by lia. replace (0 - 0) with 0 in H by lia.
    rewrite Z.sub_0_r in H. lia.
  - rewrite Z.min_r, Z.sub_diag in H by lia.
    replace (0 - e) with (- e) in H by lia.
    pose proof (pow2_pos (- e) ltac:(lia)) as Hp.
    apply Z.quot_le_upper_bound; [lia|]. rewrite Z.mul_1_r in H. lia.
Qed.

(** What is not above an exact non-negative integer truncates to at most it. *)
Lemma f64_to_i64_le x z :
  0 <= z -> f64_ltb (FFin z 0) x = false -> f64_to_i64 x <= z.
Proof.
  intros Hz. destruct x as [m e|n|]; [|cbn; unfold min_i64; lia..].
  intros H. pose proof (f64_trunc_le m e z Hz H). cbn.
  case_match; [done | unfold min_i64; lia].
Qed.

Lemma f64_trunc_nonneg m e : 0 <= m -> 0 <= f64_trunc m e.
Proof.
  intros Hm. unfold f64_trunc. destruct (Z.leb_spec 0 e).
  - pose proof (pow2_pos e). nia.
  - apply Z.quot_pos; [lia | apply pow2_pos; lia].
Qed.

Lemma f64_to_i64_nonneg x z :
  f64_nonneg x -> 0 <= z <= max_i64 -> f64_ltb (FFin z 0) x = false -> 0 <= f64_to_i64 x.
Proof.
  intros Hx Hz H. destruct x as [m e|n|]; [| by cbn in *; subst |done].
  pose proof (f64_trunc_nonneg m e Hx). pose proof (f64_trunc_le m e z (proj1 Hz) H). cbn.
  destruct (Z.leb_spec min_i64 (f64_trunc m e)); [|unfold min_i64 in *; lia].
  destruct (Z.leb_spec (f64_trunc m e) max_i64); [cbn; lia | lia].
Qed.

(** Numbers from one on, up to infinity. *)
Definition f64_big (x : f64) : Prop :=
  x = FInf false \/ exists m e, x = FFin m e /\ 0 < m /\ 0 <= Z.log2 m + e.

Lemma f64_round_not_nan m e : f64_round m e <> FNaN.
Proof. unfold f64_round. repeat case_match; done. Qed.

Lemma log2_div_pow2 a sh : 0 <= sh <= Z.log2 a -> Z.log2 (a / 2 ^ sh) = Z.log2 a - sh.
Proof. intros H. rewrite <-Z.shiftr_div_pow2 by lia. destruct (Z.le_gt_cases a 0); [|rewrite Z.log2_shiftr; lia].
  rewrite Z.log2_nonpos in * by lia. assert (sh = 0) as -> by lia. rewrite Z.shiftr_0_r, Z.log2_nonpos by lia. done.
Qed.

Lemma f64_round_big m e : 0 < m -> 0 <= Z.log2 m + e -> f64_big (f64_round m e).
Proof.
  intros Hm He. unfold f64_round. destruct (Z.eqb_spec m 0); [lia|]. rewrite Z.abs_eq, Z.sgn_pos by lia.
  assert ((m <? 0) = false) as -> by (apply Z.ltb_ge; lia).
  set (sh := Z.max _ _).
  assert (Hl : 0 <= Z.log2 m) by apply Z.log2_nonneg.
  destruct (Z.leb_spec sh 0) as [Hs|Hs]; cbn [fst snd].
  { destruct (_ <=? _); [by left|]. right. exists (1 * m), e. rewrite Z.mul_1_l. done. }
  assert (Hsh : sh <= Z.log2 m) by lia.
  pose proof (log2_div_pow2 m sh ltac:(lia)) as Hlog.
  assert (Hq : 0 < m / 2 ^ sh).
  { apply Z.div_str_pos. split; [apply Z.pow_pos_nonneg; lia|]. etransitivity; [|apply (Z.log2_spec m); lia].
    apply Z.pow_le_mono_r; lia. }
  assert (Hup : forall q, m / 2 ^ sh <= q -> 0 <= Z.log2 q + (e + sh)).
  { intros q Hle. apply Z.log2_le_mono in Hle. lia. }
  set (q := if _ <? _ then _ else _).
  assert (Hqq : m / 2 ^ sh <= q) by (unfold q; repeat case_match; lia).
  destruct (_ <=? _); [by left|]. right. exists (1 * q), (e + sh). rewrite Z.mul_1_l. split_and!; [done | lia | by apply Hup].
Qed.

Lemma f64_mul_big x y : f64_big x -> f64_big y -> f64_big (f64_mul x y).
Proof.
  intros [->|(m1 & e1 & -> & P1 & L1)] [->|(m2 & e2 & -> & P2 & L2)]; cbn.
  - by left.
  - left. destruct (Z.eqb_spec m2 0); [lia|]. f_equal. apply Z.ltb_ge. lia.
  - left. destruct (Z.eqb_spec m1 0); [lia|]. f_equal. apply Z.ltb_ge. lia.
  - apply f64_round_big; [nia|]. pose proof (Z.log2_mul_below m1 m2 P1 P2). lia.
Qed.

Lemma f64_trunc_ge m e z : 0 <= z -> f64_ltb (FFin m e) (FFin z 0) = false -> z <= f64_trunc m e.
Proof.
  intros Hz H%Z.ltb_ge. unfold f64_trunc. destruct (Z.leb_spec 0 e) as [He|He].
  - rewrite Z.min_r in H by lia. replace (0 - 0) with 0 in H by lia. rewrite Z.sub_0_r in H. lia.
  - rewrite Z.min_l, Z.sub_diag in H by lia. replace (0 - e) with (- e) in H by lia.
    pose proof (pow2_pos (- e) ltac:(lia)) as Hp. apply Z.quot_le_lower_bound; lia.
Qed.

(** What lies between two exact integers truncates to between them. *)
Lemma f64_to_i64_between x a b :
  x <> FNaN -> 0 <= a -> b <= max_i64 -> f64_ltb x (FFin a 0) = false -> f64_ltb (FFin b 0) x = false -> a <= b ->
  a <= f64_to_i64 x <= b.
Proof.
  intros Hn Ha Hb H1 H2 Hab. destruct x as [m e|[]|]; [|done..].
  pose proof (f64_trunc_ge m e a Ha H1). pose proof (f64_trunc_le m e b ltac:(lia) H2). unfold f64_to_i64.
  destruct (Z.leb_spec min_i64 (f64_trunc m e)); [|unfold min_i64 in *; lia].
  destruct (Z.leb_spec (f64_trunc m e) max_i64); [cbn; lia | lia].
Qed.

Lemma f64_ltb_irrefl x : f64_ltb x x = false.
Proof. destruct x as [m e|[]|]; cbn; try done. apply Z.ltb_irrefl. Qed.

Lemma f64_max_ge x y : x <> FNaN -> y <> FNaN -> f64_max x y <> FNaN /\ f64_ltb (f64_max x y) x = false.
Proof.
  intros Hx Hy. destruct x as [m1 e1|[]|], y as [m2 e2|[]|]; try done; unfold f64_max;
    try (destruct (f64_ltb _ _) eqn:E); try done; try (split; [done | apply f64_ltb_irrefl]).
Qed.

Lemma f64_min_le x y : x <> FNaN -> y <> FNaN ->
  f64_min x y <> FNaN /\ f64_ltb x (f64_min x y) = false /\ (f64_min x y = x \/ f64_min x y = y).
Proof.
  intros Hx Hy. destruct x as [m1 e1|[]|], y as [m2 e2|[]|]; try done; unfold f64_min;
    try (destruct (f64_ltb _ _) eqn:E); try done; split_and!; auto using f64_ltb_irrefl; try done.
Qed.

(** ** Time

    A [time.Time] is the instant in nanoseconds since the zero time (January 1,
    year 1, 00:00:00 UTC), so [IsZero] is a comparison with 0; [UTC] changes the
    location only and is the identity on instants. A [time.Duration] is an
    [int64] of nanoseconds. *)

Definition Time : Type := Z.
Definition Duration : Type := Z.

Definition IsZero (t : Time) : bool := t =? 0.
Definition After (t u : Time) : bool := u <? t.
Definition Before (t u : Time) : bool := t <? u.
Definition TimeEqual (t u : Time) : bool := t =? u.
Definition TimeAdd (t : Time) (d : Duration) : Time := t + d.

(** [t.Sub(u)] saturates. *)
Definition TimeSub (t u : Time) : Duration := Z.max min_i64 (Z.min max_i64 (t - u)).

Definition Milliseconds (d : Duration) : Z := Z.quot d 1000000.

(** The zero time is 62135596800 seconds before the Unix epoch. *)
Definition UnixNano (t : Time) : Z := wrap_i64 (t - 62135596800 * 1000000000).

Definition Millisecond : Duration := 1000000.
Definition Second : Duration := 1000 * Millisecond.
Definition Minute : Duration := 60 * Second.

(** [t.UnixMilli()], rounded down. *)
Definition UnixMilli (t : Time) : Z := (t - 62135596800 * Second) / Millisecond.

(** [if now.IsZero() { now = time.Now() }], with [wall] what the clock reads. *)
Definition or_now (wall now : Time) : Time := if IsZero now then wall else now.

Lemma or_now_nonzero wall now : wall <> 0 -> or_now wall now <> 0.
Proof. unfold or_now, IsZero. destruct (Z.eqb_spec now 0); lia. Qed.

Lemma or_now_id wall now : now <> 0 -> or_now wall now = now.
Proof. unfold or_now, IsZero. destruct (Z.eqb_spec now 0); lia. Qed.

Lemma or_now_or_now wall now : or_now wall (or_now wall now) = or_now wall now.
Proof. unfold or_now. destruct (IsZero now) eqn:E; [by destruct (IsZero wall) | by rewrite E]. Qed.

(** ** The FNV-1a hash of the retry jitter

    Both stores seed their jitter with the same loop over the bytes of a
    string, [h ^= byte; h *= prime] on [uint64]. *)

Definition fnv_offset : Z := 1469598103934665603.
Definition fnv_prime : Z := 1099511628211.

Definition fnv_step (h : Z) (c : Ascii.ascii) : Z :=
  wrap_u64 (Z.lxor h (Z.of_N (Ascii.N_of_ascii c)) * fnv_prime).

Definition fnv1a (raw : string) : Z :=
  foldl fnv_step fnv_offset (Stdlib.Strings.String.list_ascii_of_string raw).

(** [int64(h & 0x7fffffffffffffff)]. *)
Definition fnv_seed (raw : string) : Z := Z.land (fnv1a raw) (2 ^ 63 - 1).

(** [fnv.New32a]. *)
Definition fnv32a (raw : string) : Z :=
  foldl (fun h c => (Z.lxor h (Z.of_N (Ascii.N_of_ascii c)) * 16777619) mod 2 ^ 32) 2166136261
    (Stdlib.Strings.String.list_ascii_of_string raw).

#[global] Arguments fnv32a _ : simpl never.
#[global] Arguments f64_round _ _ : simpl never.
#[global] Arguments f64_to_i64 _ : simpl never.
#[global] Arguments wrap_i64 _ : simpl never.
#[global] Arguments wrap_u64 _ : simpl never.
#[global] Arguments fnv_seed _ : simpl never.
#[global] Arguments UnixNano _ : simpl never.
#[global] Arguments or_now _ _ : simpl never.
