(* ===== verification/GoTime.v ===== *)
(** * Go time rendering

    [time.Duration.String] and [time.Time.Format] with the layout
    [time.RFC3339Nano], in UTC. *)
From Stdlib Require Import Ascii.
From S2P Require Import Prelude GoStrings GoNum.

Local Open Scope bool_scope.
Local Open Scope string_scope.
Local Open Scope Z_scope.

(** [n] in at least [width] digits. *)
Definition padded (width : nat) (n : Z) : string :=
  let s := itoa n in
  String.append (of_bytes (replicate (width - length (bytes s)) "0"%char)) s.

(** The fraction [v / 10^prec] without trailing zeros, with its point; empty for
    zero. *)
Fixpoint fraction (prec : nat) (v : Z) : string :=
  match prec with
  | O => ""
  | S p =>
      if v mod 10 =? 0 then fraction p (v / 10) else "." +:+ padded prec v
  end.

(** [value / 10^prec] of a unit. *)
Definition with_fraction (prec : nat) (v : Z) (unit_ : string) : string :=
  itoa (v / 10 ^ Z.of_nat prec) +:+ fraction prec (v mod 10 ^ Z.of_nat prec) +:+ unit_.

(** The micro sign of the unit of microseconds, in UTF-8. *)
Definition microseconds_unit : string := of_bytes [ascii_of_N 194; ascii_of_N 181; "s"%char].

Definition Duration_String (d : Duration) : string :=
  let u := Z.abs d in
  let text :=
    if u =? 0 then "0s"
    else if u <? 1000 then itoa u +:+ "ns"
    else if u <? Millisecond then with_fraction 3 u microseconds_unit
    else if u <? Second then with_fraction 6 u "ms"
    else
      let seconds := with_fraction 9 (u mod Minute) "s" in
      if u <? Minute then seconds
      else
        let m := u / Minute in
        let minutes := itoa (m mod 60) +:+ "m" +:+ seconds in
        if m <? 60 then minutes else itoa (m / 60) +:+ "h" +:+ minutes in
  if d <? 0 then "-" +:+ text else text.

(** ** Dates *)

(** Year, month and day of the day number [n] since January 1, year 1. The year
    starts in March, so that the leap day comes last; an era is 400 years. *)
Definition civil (n : Z) : Z * Z * Z :=
  let z := n + 306 in
  let era := z / 146097 in
  let doe := z mod 146097 in
  let yoe := (doe - doe / 1460 + doe / 36524 - doe / 146096) / 365 in
  let doy := doe - (365 * yoe + yoe / 4 - yoe / 100) in
  let mp := (5 * doy + 2) / 153 in
  let d := doy - (153 * mp + 2) / 5 + 1 in
  let m := if mp <? 10 then mp + 3 else mp - 9 in
  (yoe + era * 400 + (if m <=? 2 then 1 else 0), m, d).

Definition FormatRFC3339Nano (t : Time) : string :=
  let secs := t / Second in
  let '(y, m, d) := civil (secs / 86400) in
  let s := secs mod 86400 in
  padded 4 y +:+ "-" +:+ padded 2 m +:+ "-" +:+ padded 2 d +:+ "T" +:+ padded 2 (s / 3600) +:+ ":"
  +:+ padded 2 (s / 60 mod 60) +:+ ":" +:+ padded 2 (s mod 60) +:+ fraction 9 (t mod Second) +:+ "Z".

Example unix_epoch : FormatRFC3339Nano (62135596800 * Second) = "1970-01-01T00:00:00Z".
Proof. vm_compute. reflexivity. Qed.

Example leap_day :
  FormatRFC3339Nano (63844808706 * Second + 1500) = "2024-02-29T13:05:06.0000015Z".
Proof. vm_compute. reflexivity. Qed.

Example durations :
  Duration_String <$> [0; 1500; 500 * Millisecond; 1500 * Millisecond; 3661 * Second; - 2 * Minute]
  = ["0s"; "1.5" +:+ microseconds_unit; "500ms"; "1.5s"; "1h1m1s"; "-2m0s"].
Proof. vm_compute. reflexivity. Qed.
