(* ===== verification/Paging.v ===== *)
(** * Stable sorting, cursors and pages

    What the queries of the scheduler's task board ([orchestration/scheduler/query.go])
    and of the mailbox ([orchestration/mailbox/query.go]) have in common:
    [sort.SliceStable], opaque cursors that carry an offset and the digest of their
    query, and pages of a filtered list. [encoding/json] in [base64.RawURLEncoding]
    and [crypto/sha1] in hex are functions of the class [QueryCodec]. *)
From S2P Require Import Prelude GoStrings GoNum.

Local Open Scope bool_scope.
Local Open Scope string_scope.
Local Open Scope list_scope.
Local Open Scope Z_scope.

(** ** [sort.SliceStable] *)

(** [a < b] on Go strings, byte by byte. *)
Definition str_ltb (a b : string) : bool := bool_decide (String.le a b) && negb (a =s? b).

Section sorting.
Context {A : Type} (less : A -> A -> bool).

(** A stable sort: an item goes after the smaller items of those that followed it. *)
Fixpoint insertItem (x : A) (l : list A) : list A :=
  match l with
  | [] => [x]
  | y :: l => if less y x then y :: insertItem x l else x :: y :: l
  end.

Definition SliceStable (l : list A) : list A := foldr insertItem [] l.

Lemma insertItem_perm x l : insertItem x l ≡ₚ x :: l.
Proof.
  induction l as [|y l IH]; cbn; [done|]. destruct (less y x); [|done]. rewrite IH. apply Permutation_swap.
Qed.

Lemma SliceStable_perm l : SliceStable l ≡ₚ l.
Proof. unfold SliceStable. induction l as [|x l IH]; cbn; [done|]. by rewrite insertItem_perm, IH. Qed.

Lemma insertItem_sorted x l :
  (forall a b, less a b = true -> less b a = false) ->
  Sorted (fun a b => less b a = false) l -> Sorted (fun a b => less b a = false) (insertItem x l).
Proof.
  intros Hasym. induction l as [|y l IH]; cbn; intros Hs; [by repeat constructor|].
  apply Sorted_inv in Hs as [Hs Hhd]. destruct (less y x) eqn:E.
  - constructor; [by apply IH|]. destruct l as [|z l]; cbn; [constructor; auto|].
    apply HdRel_inv in Hhd. destruct (less z x); constructor; auto.
  - constructor; [by constructor|]. by constructor.
Qed.

Lemma SliceStable_sorted l :
  (forall a b, less a b = true -> less b a = false) ->
  Sorted (fun a b => less b a = false) (SliceStable l).
Proof.
  intros Hasym. unfold SliceStable. induction l as [|x l IH]; cbn; [constructor|]. by apply insertItem_sorted.
Qed.
End sorting.

Lemma str_ltb_asym a b : str_ltb a b = true -> str_ltb b a = false.
Proof.
  unfold str_ltb. rewrite andb_true_iff, bool_decide_eq_true, negb_true_iff. intros [Hle Hne%str_eqb_neq].
  apply andb_false_iff. left. apply bool_decide_eq_false. intros Hle'. apply Hne. by apply (anti_symm String.le).
Qed.

(** ** Cursors *)

Record queryCursor : Type := mkCursor {
  cu_Offset : Z;
  cu_QueryHash : string
}.

Class QueryCodec : Type := {
  sha1Hex : string -> string;
  cursor_Encode : queryCursor -> string;
  cursor_Decode : string -> option queryCursor
}.

(** What the code relies on: a digest is a non-empty word, a cursor too, and
    decoding an encoded cursor gives it back. *)
Class QueryCodecLaws `{QueryCodec} : Prop := {
  sha1Hex_word x : TrimSpace (sha1Hex x) = sha1Hex x /\ sha1Hex x <> "";
  cursor_word n x : 0 <= n ->
    let c := cursor_Encode (mkCursor n (sha1Hex x)) in TrimSpace c = c /\ c <> "";
  cursor_roundtrip n x : 0 <= n ->
    cursor_Decode (cursor_Encode (mkCursor n (sha1Hex x))) = Some (mkCursor n (sha1Hex x))
}.

(** The offset of a cursor of that query; [None] for an invalid cursor. *)
Definition decodeCursor `{QueryCodec} (cursor expectedHash : string) : option Z :=
  if TrimSpace cursor =s? "" then Some 0
  else match cursor_Decode (TrimSpace cursor) with
  | None => None
  | Some decoded =>
      if (cu_Offset decoded <? 0) || (TrimSpace (cu_QueryHash decoded) =s? "") then None
      else if negb (TrimSpace (cu_QueryHash decoded) =s? TrimSpace expectedHash) then None
      else Some (cu_Offset decoded)
  end.

(** The items from [start] on and the cursor of the next page; [None] when the list
    has no such page. *)
Definition pageOf `{QueryCodec} {A} (filtered : list A) (start pageSize : Z) (queryHash : string)
    : option (list A * string) :=
  let n := Z.of_nat (length filtered) in
  if n <? start then None
  else
    let end_ := start + pageSize in
    let end_ := if n <? end_ then n else end_ in
    Some (take (Z.to_nat (end_ - start)) (drop (Z.to_nat start) filtered),
          if end_ <? n then cursor_Encode (mkCursor end_ queryHash) else "").

Lemma decode_encoded `{QueryCodecLaws} x c :
  0 <= c -> decodeCursor (cursor_Encode (mkCursor c (sha1Hex x))) (sha1Hex x) = Some c.
Proof.
  intros Hc. unfold decodeCursor. destruct (cursor_word c x Hc) as [-> Hne].
  apply str_eqb_neq in Hne. rewrite Hne, cursor_roundtrip by done. cbn [cu_Offset cu_QueryHash].
  destruct (sha1Hex_word x) as [E Hh]. apply str_eqb_neq in Hh. rewrite E, Hh, str_eqb_refl.
  destruct (Z.ltb_spec c 0); [lia|done].
Qed.

(** ** Following the cursors *)

(** The items of the page at [cursor] and of the pages after it. *)
Fixpoint followPages {S A} (query : S -> string -> S * option (list A * string)) (fuel : nat) (s : S)
    (cursor : string) : list A :=
  match fuel with
  | O => []
  | Datatypes.S fuel =>
      match query s cursor with
      | (s', Some (items, next)) => items ++ (if next =s? "" then [] else followPages query fuel s' next)
      | (_, None) => []
      end
  end.

(** Each page takes its items from the same list, so the pages are that list. *)
Lemma followPages_from `{QueryCodecLaws} {S A} (query : S -> string -> S * option (list A * string))
    (good : S -> Prop) (all : list A) (size : Z) (x : string) :
  0 < size ->
  (forall s cursor start, good s -> decodeCursor cursor (sha1Hex x) = Some start ->
     exists s', query s cursor = (s', pageOf all start size (sha1Hex x)) /\ good s') ->
  forall fuel s cursor k, good s -> decodeCursor cursor (sha1Hex x) = Some (Z.of_nat k) ->
    (k <= length all)%nat -> (length all - k < fuel)%nat -> followPages query fuel s cursor = drop k all.
Proof.
  intros Hsize Hquery fuel. induction fuel as [|fuel IH]; intros s cursor k Hs Hd Hk Hf; [lia|].
  destruct (Hquery s cursor _ Hs Hd) as (s' & HQ & Hs'). cbn [followPages]. rewrite HQ. unfold pageOf.
  destruct (Z.ltb_spec (Z.of_nat (length all)) (Z.of_nat k)); [lia|]. cbn zeta. rewrite Nat2Z.id.
  destruct (Z.ltb_spec (Z.of_nat (length all)) (Z.of_nat k + size)).
  - rewrite Z.ltb_irrefl, str_eqb_refl, app_nil_r. apply take_ge. rewrite length_drop. lia.
  - destruct (Z.ltb_spec (Z.of_nat k + size) (Z.of_nat (length all))) as [Hlt|].
    + set (k' := (k + Z.to_nat size)%nat). replace (Z.of_nat k + size) with (Z.of_nat k') by lia.
      destruct (cursor_word (Z.of_nat k') x ltac:(lia)) as [Ht Hne]. apply str_eqb_neq in Hne. rewrite Hne.
      rewrite (IH s' _ k' Hs'); [|apply decode_encoded; lia|lia|lia].
      replace (Z.to_nat (Z.of_nat k' - Z.of_nat k)) with (k' - k)%nat by lia.
      rewrite <- (take_drop (k' - k) (drop k all)) at 2. f_equal. rewrite drop_drop. f_equal. lia.
    + rewrite str_eqb_refl, app_nil_r. apply take_ge. rewrite length_drop. lia.
Qed.
