(* ===== verification/CoreTypes.v ===== *)
(** * Shared types

    The event types of [core/types/types.go] that the scheduler and the workflow
    engine emit. *)
From S2P Require Import Prelude GoStrings GoNum.

Local Open Scope string_scope.
Local Open Scope Z_scope.

(** ** Timeline events *)

Inductive ActionStatus : Type :=
| ActionStatusPending
| ActionStatusRunning
| ActionStatusSucceeded
| ActionStatusFailed
| ActionStatusSkipped
| ActionStatusCanceled.

Definition ActionStatus_string (st : ActionStatus) : string :=
  match st with
  | ActionStatusPending => "pending"
  | ActionStatusRunning => "running"
  | ActionStatusSucceeded => "succeeded"
  | ActionStatusFailed => "failed"
  | ActionStatusSkipped => "skipped"
  | ActionStatusCanceled => "canceled"
  end.

(** [types.Event], without the fields the modelled components leave at their zero value
    ([Iteration], [CallID], [TraceID], [SpanID]). *)
Record Event : Type := mkEvent {
  ev_Version : string;
  ev_Type : string;
  ev_RunID : string;
  ev_Time : Time;
  ev_Payload : any_map
}.

