(* ===== verification/SchedulerTypes.v ===== *)
(** * Scheduler: data model

    The types of [orchestration/scheduler/types.go] and the validation and
    normalisation of tasks and terminal commits. Go string enumerations are
    inductive types with one more constructor for every other string. *)
From S2P Require Import Prelude GoStrings GoNum.

Local Open Scope bool_scope.
Local Open Scope string_scope.
Local Open Scope Z_scope.

(** ** Reasons *)

Definition ReasonEnqueue := "scheduler.enqueue".
Definition ReasonDelayedEnqueue := "scheduler.delayed_enqueue".
Definition ReasonDelayedWait := "scheduler.delayed_wait".
Definition ReasonDelayedReady := "scheduler.delayed_ready".
Definition ReasonClaim := "scheduler.claim".
Definition ReasonHeartbeat := "scheduler.heartbeat".
Definition ReasonLeaseExpired := "scheduler.lease_expired".
Definition ReasonManualCancel := "scheduler.manual_cancel".
Definition ReasonManualRetry := "scheduler.manual_retry".
Definition ReasonAwaitingReport := "scheduler.awaiting_report".
Definition ReasonAsyncTimeout := "scheduler.async_timeout".
Definition ReasonAsyncLateReport := "scheduler.async_late_report".
Definition ReasonAsyncReconcile := "scheduler.async_reconcile".
Definition ReasonRequeue := "scheduler.requeue".
Definition ReasonQoSClaim := "scheduler.qos_claim".
Definition ReasonFairnessYield := "scheduler.fairness_yield".
Definition ReasonRetryBackoff := "scheduler.retry_backoff".
Definition ReasonDeadLetter := "scheduler.dead_letter".
Definition ReasonSpawn := "subagent.spawn".
Definition ReasonJoin := "subagent.join".
Definition ReasonBudgetReject := "subagent.budget_reject".

Definition canonicalReasonSet : list string :=
  [ReasonEnqueue; ReasonDelayedEnqueue; ReasonDelayedWait; ReasonDelayedReady; ReasonClaim;
   ReasonHeartbeat; ReasonLeaseExpired; ReasonManualCancel; ReasonManualRetry;
   ReasonAwaitingReport; ReasonAsyncTimeout; ReasonAsyncLateReport; ReasonAsyncReconcile;
   ReasonRequeue; ReasonQoSClaim; ReasonFairnessYield; ReasonRetryBackoff; ReasonDeadLetter;
   ReasonSpawn; ReasonJoin; ReasonBudgetReject].

Definition CanonicalReason (reason : string) : option string :=
  let normalized := TrimSpace reason in
  if bool_decide (normalized ∈ canonicalReasonSet) then Some normalized else None.

(** ** Task and attempt states *)

Inductive TaskState : Type :=
| TaskStateQueued
| TaskStateRunning
| TaskStateAwaitingReport
| TaskStateSucceeded
| TaskStateFailed
| TaskStateDeadLetter
| TaskStateOther (s : string).

#[export] Instance TaskState_eq_dec : EqDecision TaskState.
Proof. solve_decision. Defined.

Definition TaskState_string (st : TaskState) : string :=
  match st with
  | TaskStateQueued => "queued"
  | TaskStateRunning => "running"
  | TaskStateAwaitingReport => "awaiting_report"
  | TaskStateSucceeded => "succeeded"
  | TaskStateFailed => "failed"
  | TaskStateDeadLetter => "dead_letter"
  | TaskStateOther s => s
  end.

Definition TaskPriorityHigh := "high".
Definition TaskPriorityNormal := "normal".
Definition TaskPriorityLow := "low".

Inductive AttemptStatus : Type :=
| AttemptStatusRunning
| AttemptStatusSucceeded
| AttemptStatusFailed
| AttemptStatusExpired
| AttemptStatusOther (s : string).

#[export] Instance AttemptStatus_eq_dec : EqDecision AttemptStatus.
Proof. solve_decision. Defined.

Inductive QoSMode : Type :=
| QoSModeFIFO
| QoSModePriority
| QoSModeOther (s : string).

#[export] Instance QoSMode_eq_dec : EqDecision QoSMode.
Proof. solve_decision. Defined.

Definition QoSMode_string (q : QoSMode) : string :=
  match q with QoSModeFIFO => "fifo" | QoSModePriority => "priority" | QoSModeOther s => s end.

(** ** Errors

    The sentinel errors and the validation messages of the package; the
    causes of [ErrSnapshotCorrupt] are kept apart. *)

Inductive SnapshotFault : Type :=
| FaultTaskIDRequired
| FaultDuplicateTask
| FaultInvalidTask
| FaultTaskRunAssociation
| FaultTaskStepAssociation
| FaultAttemptIDRequired
| FaultDuplicateAttempt
| FaultAttemptProvenanceInvalid
| FaultAttemptProvenanceMismatch
| FaultQueuedHasCurrent
| FaultRunningNeedsCurrent
| FaultAwaitingNeedsCurrent
| FaultAwaitingNeedsTimeout
| FaultTerminalHasCurrent
| FaultUnsupportedState
| FaultTerminalRunningAttempt
| FaultInflightCurrentInvalid
| FaultQueueUnknownTask
| FaultQueueNotQueued
| FaultQueueDuplicate
| FaultCommitKeyRequired
| FaultCommitStatus
| FaultCommitDuplicate
| FaultCommitUnknownAttempt
| FaultCommitTaskProvenance
| FaultCommitAttemptProvenance
| FaultControlOpIDRequired
| FaultControlDuplicate
| FaultControlTaskIDRequired
| FaultControlAction.

Inductive SchedulerError : Type :=
| ErrTaskNotFound
| ErrAttemptNotFound
| ErrLeaseTokenMismatch
| ErrLeaseExpired
| ErrTaskNotClaimable
| ErrTaskNotRunning
| ErrTaskNotAwaitingReport
| ErrStaleAttempt
| ErrSnapshotCorrupt (f : SnapshotFault)
| ErrTaskBoardControlDisabled
| ErrTaskBoardControlActionInvalid
| ErrTaskBoardControlOperationIDRequired
| ErrTaskBoardControlStateConflict
| ErrTaskBoardControlOperationConflict
| ErrTaskBoardControlRetryBudgetExceeded
| ErrWorkspaceBindingMismatch
| ErrDispatchBindingMismatch
| ErrTaskIDRequired
| ErrAttemptIDRequired
| ErrWorkerIDRequired
| ErrLeaseTimeoutNotPositive
| ErrLeaseKeyRequired
| ErrTaskAndAttemptIDRequired
| ErrPriorityInvalid (got : string)
| ErrTerminalStatusInvalid (got : TaskState)
| ErrUnsupportedTerminalStatus (got : TaskState)
| ErrWorkspaceProvenance (why : string)
| ErrFileBackend (why : string).

#[export] Instance SnapshotFault_eq_dec : EqDecision SnapshotFault.
Proof. solve_decision. Defined.
#[export] Instance SchedulerError_eq_dec : EqDecision SchedulerError.
Proof. solve_decision. Defined.

(** ** Workspace provenance ([core/types/protocol.go]) *)

Record WorkspaceProvenance : Type := mkWorkspaceProvenance {
  wp_WorkspaceID : string;
  wp_ChangeSetID : string;
  wp_BeforeIntegrity : string;
  wp_AfterIntegrity : string;
  wp_ProducedByRunID : string;
  wp_ProducedByStepID : string;
  wp_CheckpointID : string
}.

#[export] Instance WorkspaceProvenance_eq_dec : EqDecision WorkspaceProvenance.
Proof. solve_decision. Defined.

(** [None] is a valid provenance, [Some why] the protocol reason. *)
Definition WorkspaceProvenance_Validate (p : WorkspaceProvenance) : option string :=
  if (TrimSpace (wp_WorkspaceID p) =s? "") || (TrimSpace (wp_ChangeSetID p) =s? "")
     || (TrimSpace (wp_BeforeIntegrity p) =s? "") || (TrimSpace (wp_AfterIntegrity p) =s? "")
  then Some "workspace.provenance_missing"
  else if (TrimSpace (wp_ProducedByRunID p) =s? "") || (TrimSpace (wp_ProducedByStepID p) =s? "")
  then Some "workspace.association_mismatch"
  else None.

Definition workspaceProvenanceEqual (a b : option WorkspaceProvenance) : bool :=
  bool_decide (a = b).

(** ** Tasks, attempts and records *)

Record TimeoutResolutionMetadata : Type := mkTimeoutResolutionMetadata {
  tm_EffectiveOperationProfile : string;
  tm_Source : string;
  tm_Trace : string;
  tm_ResolvedTimeout : Duration;
  tm_ParentBudgetClamped : bool
}.
#[export] Instance eta_TimeoutResolutionMetadata : Settable TimeoutResolutionMetadata := fun r =>
  mkTimeoutResolutionMetadata (tm_EffectiveOperationProfile r) (tm_Source r) (tm_Trace r)
    (tm_ResolvedTimeout r) (tm_ParentBudgetClamped r).

Record Task : Type := mkTask {
  tk_DispatchBinding : string;
  tk_TaskID : string;
  tk_RunID : string;
  tk_WorkflowID : string;
  tk_TeamID : string;
  tk_StepID : string;
  tk_AgentID : string;
  tk_PeerID : string;
  tk_ParentRunID : string;
  tk_Priority : string;
  tk_Payload : any_map;
  tk_MaxAttempts : Z;
  tk_NotBefore : Time;
  tk_TimeoutResolution : TimeoutResolutionMetadata;
  tk_WorkspaceProvenance : option WorkspaceProvenance
}.
#[export] Instance eta_Task : Settable Task := fun r =>
  mkTask (tk_DispatchBinding r) (tk_TaskID r) (tk_RunID r) (tk_WorkflowID r) (tk_TeamID r)
    (tk_StepID r) (tk_AgentID r) (tk_PeerID r) (tk_ParentRunID r) (tk_Priority r) (tk_Payload r)
    (tk_MaxAttempts r) (tk_NotBefore r) (tk_TimeoutResolution r) (tk_WorkspaceProvenance r).

Record Attempt : Type := mkAttempt {
  at_AttemptID : string;
  at_Attempt : Z;
  at_WorkerID : string;
  at_LeaseToken : string;
  at_Status : AttemptStatus;
  at_StartedAt : Time;
  at_HeartbeatAt : Time;
  at_LeaseExpiresAt : Time;
  at_TerminalAt : Time;
  at_WorkspaceProvenance : option WorkspaceProvenance
}.
#[export] Instance eta_Attempt : Settable Attempt := fun r =>
  mkAttempt (at_AttemptID r) (at_Attempt r) (at_WorkerID r) (at_LeaseToken r) (at_Status r)
    (at_StartedAt r) (at_HeartbeatAt r) (at_LeaseExpiresAt r) (at_TerminalAt r)
    (at_WorkspaceProvenance r).

Record TaskRecord : Type := mkTaskRecord {
  tr_Task : Task;
  tr_State : TaskState;
  tr_Attempts : list Attempt;
  tr_CurrentAttempt : string;
  tr_ManualRetryCount : Z;
  tr_AwaitingReportSince : Time;
  tr_ReportTimeoutAt : Time;
  tr_RemoteTaskID : string;
  tr_ResolutionSource : string;
  tr_TerminalConflict : bool;
  tr_NextEligibleAt : Time;
  tr_DeadLetterCode : string;
  tr_Result : any_map;
  tr_ErrorMessage : string;
  tr_ErrorClass : string;
  tr_ErrorLayer : string;
  tr_CreatedAt : Time;
  tr_UpdatedAt : Time
}.
#[export] Instance eta_TaskRecord : Settable TaskRecord := fun r =>
  mkTaskRecord (tr_Task r) (tr_State r) (tr_Attempts r) (tr_CurrentAttempt r)
    (tr_ManualRetryCount r) (tr_AwaitingReportSince r) (tr_ReportTimeoutAt r) (tr_RemoteTaskID r)
    (tr_ResolutionSource r) (tr_TerminalConflict r) (tr_NextEligibleAt r) (tr_DeadLetterCode r)
    (tr_Result r) (tr_ErrorMessage r) (tr_ErrorClass r) (tr_ErrorLayer r) (tr_CreatedAt r)
    (tr_UpdatedAt r).

Definition ErrContext := "ErrContext".
Definition ErrPolicyTimeout := "ErrPolicyTimeout".

Definition zeroAttempt : Attempt :=
  mkAttempt "" 0 "" "" (AttemptStatusOther "") 0 0 0 0 None.

Definition attemptByID (r : TaskRecord) (attemptID : string) : option Attempt :=
  let trimmed := TrimSpace attemptID in
  if trimmed =s? "" then None
  else snd <$> list_find (fun at_ => TrimSpace (at_AttemptID at_) = trimmed) (tr_Attempts r).

Definition currentAttempt (r : TaskRecord) : option Attempt :=
  attemptByID r (tr_CurrentAttempt r).

(** The loop [for i := range record.Attempts { if ...AttemptID == current.AttemptID
    { record.Attempts[i] = current; break } }]. *)
Fixpoint replaceAttempt (current : Attempt) (l : list Attempt) : list Attempt :=
  match l with
  | [] => []
  | a :: l =>
      if at_AttemptID a =s? at_AttemptID current then current :: l
      else a :: replaceAttempt current l
  end.

(** [cloneTaskRecord] copies the payload, the provenances, the attempts and the
    result: the copy is equal to the original and shares nothing with it. *)
Definition cloneTaskRecord (r : TaskRecord) : TaskRecord := r.

Definition latestAttempt (r : TaskRecord) : Attempt := default zeroAttempt (last (tr_Attempts r)).

Record ClaimedTask : Type := mkClaimedTask {
  ct_Record : TaskRecord;
  ct_Attempt : Attempt;
  ct_TaskPriority : string;
  ct_FairnessYielded : bool
}.

Record TerminalCommit : Type := mkTerminalCommit {
  tc_TaskID : string;
  tc_AttemptID : string;
  tc_Status : TaskState;
  tc_Source : string;
  tc_RemoteTaskID : string;
  tc_Result : any_map;
  tc_ErrorMessage : string;
  tc_ErrorClass : string;
  tc_ErrorLayer : string;
  tc_OutcomeKey : string;
  tc_CommittedAt : Time;
  tc_WorkspaceProvenance : option WorkspaceProvenance
}.
#[export] Instance eta_TerminalCommit : Settable TerminalCommit := fun r =>
  mkTerminalCommit (tc_TaskID r) (tc_AttemptID r) (tc_Status r) (tc_Source r) (tc_RemoteTaskID r)
    (tc_Result r) (tc_ErrorMessage r) (tc_ErrorClass r) (tc_ErrorLayer r) (tc_OutcomeKey r)
    (tc_CommittedAt r) (tc_WorkspaceProvenance r).

Record CommitResult : Type := mkCommitResult {
  cr_Record : TaskRecord;
  cr_Duplicate : bool;
  cr_LateReport : bool;
  cr_Conflict : bool
}.

(** ** Normalisation of tasks and commits *)

Definition payload_string (m : any_map) (k : string) : option string :=
  match m !! k with Some (AnyString s) => Some s | _ => None end.

Definition validPriority (p : string) : bool :=
  (p =s? TaskPriorityHigh) || (p =s? TaskPriorityNormal) || (p =s? TaskPriorityLow).

(** The trimming assignments at the head of [normalizeTask]. *)
Definition trimTask (inp : Task) : Task :=
  inp
    <| tk_DispatchBinding ::= TrimSpace |>
    <| tk_TaskID ::= TrimSpace |>
    <| tk_RunID ::= TrimSpace |>
    <| tk_WorkflowID ::= TrimSpace |>
    <| tk_TeamID ::= TrimSpace |>
    <| tk_StepID ::= TrimSpace |>
    <| tk_AgentID ::= TrimSpace |>
    <| tk_PeerID ::= TrimSpace |>
    <| tk_ParentRunID ::= TrimSpace |>
    <| tk_Priority ::= lower_trim |>
    <| tk_TimeoutResolution ::= fun tm => tm
         <| tm_EffectiveOperationProfile ::= lower_trim |>
         <| tm_Source ::= lower_trim |>
         <| tm_Trace ::= TrimSpace |> |>.

(** The priority of the task, or the one its payload names. *)
Definition requestedPriority (out : Task) : string :=
  if tk_Priority out =s? "" then
    match payload_string (tk_Payload out) "priority" with
    | Some p => lower_trim p
    | None => tk_Priority out
    end
  else tk_Priority out.

Definition normalizeTask (inp : Task) : result SchedulerError Task :=
  let out := trimTask inp in
  require negb (tk_TaskID out =s? "") orelse ErrTaskIDRequired;
  let prio := requestedPriority out in
  require validPriority prio || (prio =s? "") orelse ErrPriorityInvalid prio;
  let prio := if prio =s? "" then TaskPriorityNormal else prio in
  let maxAttempts := if tk_MaxAttempts out <=? 0 then 3 else tk_MaxAttempts out in
  let out := out <| tk_Priority := prio |> <| tk_MaxAttempts := maxAttempts |> in
  match (wp ← tk_WorkspaceProvenance out; WorkspaceProvenance_Validate wp) with
  | Some why => Err (ErrWorkspaceProvenance why)
  | None => Ok out
  end.

Definition defaultOutcomeKey (commit : TerminalCommit) : string :=
  if bool_decide (tc_Status commit = TaskStateSucceeded) then
    let keys := sort_strings (map_to_list (tc_Result commit)).*1 in
    TaskState_string (tc_Status commit) +:+ String.concat "" (map (fun k => "|" +:+ k) keys)
  else if tc_ErrorMessage commit =s? "" then TaskState_string (tc_Status commit)
  else TaskState_string (tc_Status commit) +:+ "|" +:+ tc_ErrorMessage commit.

(** The trimming assignments at the head of [normalizeCommit]. *)
Definition trimCommit (inp : TerminalCommit) : TerminalCommit :=
  inp
    <| tc_TaskID ::= TrimSpace |>
    <| tc_AttemptID ::= TrimSpace |>
    <| tc_Source ::= lower_trim |>
    <| tc_RemoteTaskID ::= TrimSpace |>
    <| tc_ErrorMessage ::= TrimSpace |>
    <| tc_ErrorLayer ::= TrimSpace |>
    <| tc_OutcomeKey ::= TrimSpace |>.

Definition normalizeCommit (wall : Time) (inp : TerminalCommit) : result SchedulerError TerminalCommit :=
  let out := trimCommit inp in
  require negb (tc_TaskID out =s? "") orelse ErrTaskIDRequired;
  require negb (tc_AttemptID out =s? "") orelse ErrAttemptIDRequired;
  require bool_decide (tc_Status out = TaskStateSucceeded \/ tc_Status out = TaskStateFailed)
    orelse ErrTerminalStatusInvalid (tc_Status out);
  let out := out <| tc_CommittedAt ::= or_now wall |> in
  match (wp ← tc_WorkspaceProvenance out; WorkspaceProvenance_Validate wp) with
  | Some why => Err (ErrWorkspaceProvenance why)
  | None =>
      if tc_OutcomeKey out =s? "" then Ok (out <| tc_OutcomeKey := defaultOutcomeKey out |>)
      else Ok out
  end.

(** ** Statistics, control operations and configuration

    The counters are Go [int]s; they are unbounded here, since they count
    operations one by one. *)

Record Stats : Type := mkStats {
  st_Backend : string;
  st_QoSMode : string;
  st_QueueTotal : Z;
  st_ClaimTotal : Z;
  st_ReclaimTotal : Z;
  st_LeaseExpiredTotal : Z;
  st_CompleteTotal : Z;
  st_FailTotal : Z;
  st_PriorityClaimTotal : Z;
  st_FairnessYieldTotal : Z;
  st_RetryBackoffTotal : Z;
  st_DeadLetterTotal : Z;
  st_DelayedTaskTotal : Z;
  st_DelayedClaimTotal : Z;
  st_DelayedWaitMsP95 : Z;
  st_RecoveryTimeoutReentryTotal : Z;
  st_RecoveryTimeoutReentryExhaustedTotal : Z;
  st_DuplicateTerminalCommitTotal : Z;
  st_AsyncAwaitTotal : Z;
  st_AsyncTimeoutTotal : Z;
  st_AsyncReconcilePollTotal : Z;
  st_AsyncReconcileTerminalByPollTotal : Z;
  st_AsyncReconcileErrorTotal : Z;
  st_AsyncTerminalConflictTotal : Z;
  st_TaskBoardManualControlTotal : Z;
  st_TaskBoardManualControlSuccessTotal : Z;
  st_TaskBoardManualControlRejectedTotal : Z;
  st_TaskBoardManualControlDedupTotal : Z;
  st_TaskBoardManualControlByAction : gmap string Z;
  st_TaskBoardManualControlByReason : gmap string Z
}.
#[export] Instance eta_Stats : Settable Stats := fun r =>
  mkStats (st_Backend r) (st_QoSMode r) (st_QueueTotal r) (st_ClaimTotal r) (st_ReclaimTotal r)
    (st_LeaseExpiredTotal r) (st_CompleteTotal r) (st_FailTotal r) (st_PriorityClaimTotal r)
    (st_FairnessYieldTotal r) (st_RetryBackoffTotal r) (st_DeadLetterTotal r)
    (st_DelayedTaskTotal r) (st_DelayedClaimTotal r) (st_DelayedWaitMsP95 r)
    (st_RecoveryTimeoutReentryTotal r) (st_RecoveryTimeoutReentryExhaustedTotal r)
    (st_DuplicateTerminalCommitTotal r) (st_AsyncAwaitTotal r) (st_AsyncTimeoutTotal r)
    (st_AsyncReconcilePollTotal r) (st_AsyncReconcileTerminalByPollTotal r)
    (st_AsyncReconcileErrorTotal r) (st_AsyncTerminalConflictTotal r)
    (st_TaskBoardManualControlTotal r) (st_TaskBoardManualControlSuccessTotal r)
    (st_TaskBoardManualControlRejectedTotal r) (st_TaskBoardManualControlDedupTotal r)
    (st_TaskBoardManualControlByAction r) (st_TaskBoardManualControlByReason r).

Definition zeroStats (backend qos : string) : Stats :=
  mkStats backend qos 0 0 0 0 0 0 0 0 0 0 0 0 0 0 0 0 0 0 0 0 0 0 0 0 0 0 ∅ ∅.

Inductive TaskBoardControlAction : Type :=
| TaskBoardControlActionCancel
| TaskBoardControlActionRetryTerminal
| TaskBoardControlActionOther (s : string).

#[export] Instance TaskBoardControlAction_eq_dec : EqDecision TaskBoardControlAction.
Proof. solve_decision. Defined.

Definition TaskBoardControlAction_string (a : TaskBoardControlAction) : string :=
  match a with
  | TaskBoardControlActionCancel => "cancel"
  | TaskBoardControlActionRetryTerminal => "retry_terminal"
  | TaskBoardControlActionOther s => s
  end.

Record TaskBoardControlRequest : Type := mkTaskBoardControlRequest {
  rq_TaskID : string;
  rq_Action : string;
  rq_OperationID : string;
  rq_RequestedBy : string;
  rq_ReasonDetail : string
}.

Record TaskBoardControlResult : Type := mkTaskBoardControlResult {
  co_TaskID : string;
  co_Action : TaskBoardControlAction;
  co_OperationID : string;
  co_Applied : bool;
  co_Deduplicated : bool;
  co_Reason : string;
  co_Record : TaskRecord
}.
#[export] Instance eta_TaskBoardControlResult : Settable TaskBoardControlResult := fun r =>
  mkTaskBoardControlResult (co_TaskID r) (co_Action r) (co_OperationID r) (co_Applied r)
    (co_Deduplicated r) (co_Reason r) (co_Record r).

Record TaskBoardControlConfig : Type := mkTaskBoardControlConfig {
  tb_Enabled : bool;
  tb_MaxManualRetryPerTask : Z
}.

Definition AsyncLateReportPolicyDropAndRecord := "drop_and_record".
Definition AsyncResolutionSourceCallback := "callback".
Definition AsyncResolutionSourceReconcilePoll := "reconcile_poll".
Definition AsyncResolutionSourceTimeout := "timeout".
Definition AsyncReconcileNotFoundKeepTimeout := "keep_until_timeout".

Record AsyncAwaitReconcileConfig : Type := mkAsyncAwaitReconcileConfig {
  ar_Enabled : bool;
  ar_Interval : Duration;
  ar_BatchSize : Z;
  ar_JitterRatio : f64;
  ar_NotFoundPolicy : string
}.

Record AsyncAwaitConfig : Type := mkAsyncAwaitConfig {
  aa_ReportTimeout : Duration;
  aa_LateReportPolicy : string;
  aa_TimeoutTerminal : TaskState;
  aa_Reconcile : AsyncAwaitReconcileConfig
}.

Definition RecoveryResumeBoundaryNextAttemptOnly := "next_attempt_only".
Definition RecoveryInflightPolicyNoRewind := "no_rewind".
Definition RecoveryTimeoutReentryPolicySingleReentryFail := "single_reentry_then_fail".

Record RecoveryBoundaryConfig : Type := mkRecoveryBoundaryConfig {
  rb_Enabled : bool;
  rb_ResumeBoundary : string;
  rb_InflightPolicy : string;
  rb_TimeoutReentryPolicy : string;
  rb_TimeoutReentryMaxPerTask : Z
}.

Record RetryBackoffConfig : Type := mkRetryBackoffConfig {
  bo_Enabled : bool;
  bo_Initial : Duration;
  bo_Max : Duration;
  bo_Multiplier : f64;
  bo_JitterRatio : f64
}.

(** [FairnessConfig] and [DLQConfig] are one-field structs, inlined. *)
Record GovernanceConfig : Type := mkGovernanceConfig {
  gv_QoS : QoSMode;
  gv_MaxConsecutiveClaimsPerPriority : Z;
  gv_DLQEnabled : bool;
  gv_Backoff : RetryBackoffConfig
}.

Record StoreSnapshot : Type := mkStoreSnapshot {
  sn_Backend : string;
  sn_Tasks : list TaskRecord;
  sn_Queue : list string;
  sn_TerminalCommits : list TerminalCommit;
  sn_ControlOps : list TaskBoardControlResult;
  sn_DelayedWaitMs : list Z;
  sn_Stats : Stats
}.

(** ** Spawn guardrails *)

Record Guardrails : Type := mkGuardrails {
  gr_MaxDepth : Z;
  gr_MaxActiveChildren : Z;
  gr_ChildTimeoutBudget : Duration
}.

Record SpawnRequest : Type := mkSpawnRequest {
  sp_Task : Task;
  sp_ParentDepth : Z;
  sp_ParentActiveChildren : Z;
  sp_ParentRemainingBudget : Duration;
  sp_ChildTimeout : Duration;
  sp_TimeoutResolution : TimeoutResolutionMetadata
}.
#[export] Instance eta_SpawnRequest : Settable SpawnRequest := fun r =>
  mkSpawnRequest (sp_Task r) (sp_ParentDepth r) (sp_ParentActiveChildren r)
    (sp_ParentRemainingBudget r) (sp_ChildTimeout r) (sp_TimeoutResolution r).

Inductive BudgetRejectCode : Type :=
| BudgetRejectDepth
| BudgetRejectActiveChild
| BudgetRejectTimeout
| BudgetRejectParentBudgetExhausted.

Definition ValidateSpawn (g : Guardrails) (req : SpawnRequest) : result BudgetRejectCode unit :=
  require negb ((0 <? gr_MaxDepth g) && (gr_MaxDepth g <? wrap_i64 (sp_ParentDepth req + 1)))
    orelse BudgetRejectDepth;
  require negb ((0 <? gr_MaxActiveChildren g)
                && (gr_MaxActiveChildren g <=? sp_ParentActiveChildren req))
    orelse BudgetRejectActiveChild;
  Ok tt.

#[global] Arguments normalizeTask _ : simpl never.
#[global] Arguments normalizeCommit _ _ : simpl never.
#[global] Arguments WorkspaceProvenance_Validate _ : simpl never.
#[global] Arguments currentAttempt _ : simpl never.
#[global] Arguments attemptByID _ _ : simpl never.

(** Evaluates record updates down to constructors, the string functions apart;
    the records must have been destructed. *)
Ltac go_eval :=
  with_strategy opaque [TrimSpace lower_trim ToLower itoa minted sort_strings str_eqb] lazy.
