(* ===== verification/SchedulerState.v ===== *)
(** * Scheduler: the state machine

    The operations of [orchestration/scheduler/state.go] on [schedulerState]:
    configuration, enqueue, claim with leases and QoS selection, heartbeat,
    asynchronous reports, manual control, lease and report expiry, retries,
    terminal commits. A method that mutates its receiver returns the new state
    beside its result; the state is returned on the error paths too, since some
    of them count. [wall] is what [time.Now] reads during the call: it is used
    only when the caller passes the zero time. *)
From S2P Require Import Prelude GoStrings GoNum SchedulerTypes.

Local Open Scope bool_scope.
Local Open Scope string_scope.
Local Open Scope list_scope.
Local Open Scope Z_scope.

Record schedulerState : Type := mkSchedulerState {
  s_Tasks : gmap string TaskRecord;
  s_Queue : list string;
  s_TerminalCommits : gmap string TerminalCommit;
  s_ControlOps : gmap string TaskBoardControlResult;
  s_DelayedWaitMs : list Z;
  s_Stats : Stats;
  s_governance : GovernanceConfig;
  s_asyncAwait : AsyncAwaitConfig;
  s_recoveryBoundary : RecoveryBoundaryConfig;
  s_taskBoardControl : TaskBoardControlConfig;
  s_lastPriority : string;
  s_lastConsecutive : Z
}.
#[export] Instance eta_schedulerState : Settable schedulerState := fun r =>
  mkSchedulerState (s_Tasks r) (s_Queue r) (s_TerminalCommits r) (s_ControlOps r)
    (s_DelayedWaitMs r) (s_Stats r) (s_governance r) (s_asyncAwait r) (s_recoveryBoundary r)
    (s_taskBoardControl r) (s_lastPriority r) (s_lastConsecutive r).

(** ** Configuration *)

Definition defaultTaskBoardControlConfig : TaskBoardControlConfig :=
  mkTaskBoardControlConfig false 3.

Definition normalizeTaskBoardControlConfig (cfg : TaskBoardControlConfig) : TaskBoardControlConfig :=
  mkTaskBoardControlConfig (tb_Enabled cfg)
    (if tb_MaxManualRetryPerTask cfg <=? 0 then 3 else tb_MaxManualRetryPerTask cfg).

Definition defaultAsyncAwaitConfig : AsyncAwaitConfig :=
  mkAsyncAwaitConfig (15 * Minute) AsyncLateReportPolicyDropAndRecord TaskStateFailed
    (mkAsyncAwaitReconcileConfig false (5 * Second) 64 f64_0_2 AsyncReconcileNotFoundKeepTimeout).

(** Ratios are clamped to [0, 1]; a NaN fails both tests and is kept. *)
Definition clampRatio (r : f64) : f64 :=
  let r := if f64_ltb r f64_zero then f64_zero else r in
  if f64_ltb f64_one r then f64_one else r.

Definition normalizeAsyncAwaitConfig (cfg : AsyncAwaitConfig) : AsyncAwaitConfig :=
  let late := lower_trim (aa_LateReportPolicy cfg) in
  let late := if late =s? "" then AsyncLateReportPolicyDropAndRecord else late in
  let late := if negb (late =s? AsyncLateReportPolicyDropAndRecord)
              then AsyncLateReportPolicyDropAndRecord else late in
  let rc := aa_Reconcile cfg in
  let nf := lower_trim (ar_NotFoundPolicy rc) in
  let nf := if nf =s? "" then AsyncReconcileNotFoundKeepTimeout else nf in
  let nf := if negb (nf =s? AsyncReconcileNotFoundKeepTimeout)
            then AsyncReconcileNotFoundKeepTimeout else nf in
  mkAsyncAwaitConfig
    (if aa_ReportTimeout cfg <=? 0 then 15 * Minute else aa_ReportTimeout cfg)
    late
    (match aa_TimeoutTerminal cfg with TaskStateDeadLetter => TaskStateDeadLetter | _ => TaskStateFailed end)
    (mkAsyncAwaitReconcileConfig (ar_Enabled rc)
       (if ar_Interval rc <=? 0 then 5 * Second else ar_Interval rc)
       (if ar_BatchSize rc <=? 0 then 64 else ar_BatchSize rc)
       (clampRatio (ar_JitterRatio rc)) nf).

Definition defaultGovernanceConfig : GovernanceConfig :=
  mkGovernanceConfig QoSModeFIFO 3 false
    (mkRetryBackoffConfig false (50 * Millisecond) (2 * Second) f64_two f64_0_2).

Definition normalizeGovernanceConfig (cfg : GovernanceConfig) : GovernanceConfig :=
  let bo := gv_Backoff cfg in
  let initial := if bo_Initial bo <=? 0 then 50 * Millisecond else bo_Initial bo in
  let mx :=
    if (bo_Max bo <=? 0) || (bo_Max bo <? initial) then
      (if 2 * Second <? initial then initial else 2 * Second)
    else bo_Max bo in
  mkGovernanceConfig
    (match gv_QoS cfg with QoSModePriority => QoSModePriority | _ => QoSModeFIFO end)
    (if gv_MaxConsecutiveClaimsPerPriority cfg <=? 0 then 3
     else gv_MaxConsecutiveClaimsPerPriority cfg)
    (gv_DLQEnabled cfg)
    (mkRetryBackoffConfig (bo_Enabled bo) initial mx
       (if f64_ltb (bo_Multiplier bo) f64_one then f64_one else bo_Multiplier bo)
       (clampRatio (bo_JitterRatio bo))).

Definition defaultRecoveryBoundaryConfig : RecoveryBoundaryConfig :=
  mkRecoveryBoundaryConfig false RecoveryResumeBoundaryNextAttemptOnly
    RecoveryInflightPolicyNoRewind RecoveryTimeoutReentryPolicySingleReentryFail 1.

Definition normalizeRecoveryBoundaryConfig (cfg : RecoveryBoundaryConfig) : RecoveryBoundaryConfig :=
  let dflt (d v : string) := let v := lower_trim v in if v =s? "" then d else v in
  mkRecoveryBoundaryConfig (rb_Enabled cfg)
    (dflt RecoveryResumeBoundaryNextAttemptOnly (rb_ResumeBoundary cfg))
    (dflt RecoveryInflightPolicyNoRewind (rb_InflightPolicy cfg))
    (dflt RecoveryTimeoutReentryPolicySingleReentryFail (rb_TimeoutReentryPolicy cfg))
    (if rb_TimeoutReentryMaxPerTask cfg <=? 0 then 1 else rb_TimeoutReentryMaxPerTask cfg).

Definition newSchedulerState (backend : string) : schedulerState :=
  mkSchedulerState ∅ [] ∅ ∅ []
    (zeroStats (TrimSpace backend) (QoSMode_string (gv_QoS defaultGovernanceConfig)))
    defaultGovernanceConfig defaultAsyncAwaitConfig defaultRecoveryBoundaryConfig
    defaultTaskBoardControlConfig "" 0.

Definition setGovernance (s : schedulerState) (cfg : GovernanceConfig) : schedulerState :=
  let g := normalizeGovernanceConfig cfg in
  s <| s_governance := g |>
    <| s_Stats ::= fun st => st <| st_QoSMode := QoSMode_string (gv_QoS g) |> |>.

Definition setRecoveryBoundary (s : schedulerState) (cfg : RecoveryBoundaryConfig) : schedulerState :=
  s <| s_recoveryBoundary := normalizeRecoveryBoundaryConfig cfg |>.

Definition setAsyncAwait (s : schedulerState) (cfg : AsyncAwaitConfig) : schedulerState :=
  s <| s_asyncAwait := normalizeAsyncAwaitConfig cfg |>.

Definition setTaskBoardControl (s : schedulerState) (cfg : TaskBoardControlConfig) : schedulerState :=
  s <| s_taskBoardControl := normalizeTaskBoardControlConfig cfg |>.

(** ** Shared helpers *)

(** [record.f = ...] through the pointer held by [s.Tasks[taskID]]. *)
Definition putTask (taskID : string) (r : TaskRecord) (s : schedulerState) : schedulerState :=
  s <| s_Tasks ::= <[taskID := r]> |>.

Definition onStats (f : Stats -> Stats) (s : schedulerState) : schedulerState :=
  s <| s_Stats ::= f |>.

Definition isTaskDelayed (task : Task) (createdAt : Time) : bool :=
  if IsZero (tk_NotBefore task) then false
  else if IsZero createdAt then true
  else After (tk_NotBefore task) createdAt.

Definition delayedWaitDurationMs (r : TaskRecord) (now : Time) : Z :=
  if IsZero now then 0
  else
    let wait := Milliseconds (TimeSub now (tr_CreatedAt r)) in
    if wait <? 0 then 0 else wait.

Definition percentileP95Int64 (samples : list Z) : Z :=
  match samples with
  | [] => 0
  | _ =>
      let cp := merge_sort Z.le samples in
      let n := Z.of_nat (length cp) in
      let index := f64_to_i64 (f64_add (f64_mul (f64_of_Z n) f64_0_95) f64_0_9999999) in
      let index := if index <=? 0 then 1 else index in
      let index := if n <? index then n else index in
      default 0 (cp !! Z.to_nat (index - 1))
  end.

Definition normalizedPriority (priority : string) : string :=
  let p := lower_trim priority in
  if p =s? TaskPriorityHigh then TaskPriorityHigh
  else if p =s? TaskPriorityLow then TaskPriorityLow
  else TaskPriorityNormal.

Definition terminalCommitKey (taskID attemptID : string) : string :=
  TrimSpace taskID +:+ "|" +:+ TrimSpace attemptID.

(** ** Enqueue *)

Definition queuedRecord (task : Task) (now : Time) : TaskRecord :=
  mkTaskRecord task TaskStateQueued [] "" 0 0 0 "" "" false 0 "" ∅ "" "" "" now now.

Definition enqueue (wall : Time) (s : schedulerState) (task : Task) (now : Time)
  : schedulerState * result SchedulerError TaskRecord :=
  match normalizeTask task with
  | Err e => (s, Err e)
  | Ok normalized =>
      match s_Tasks s !! tk_TaskID normalized with
      | Some existing =>
          if tk_DispatchBinding (tr_Task existing) =s? tk_DispatchBinding normalized
          then (s, Ok (cloneTaskRecord existing))
          else (s, Err ErrDispatchBindingMismatch)
      | None =>
          let now := or_now wall now in
          let record := queuedRecord normalized now in
          let s := putTask (tk_TaskID normalized) record s in
          let s := s <| s_Queue ::= fun q => q ++ [tk_TaskID normalized] |> in
          let s := onStats (fun st => st <| st_QueueTotal ::= Z.succ |>) s in
          let s := if isTaskDelayed normalized now
                   then onStats (fun st => st <| st_DelayedTaskTotal ::= Z.succ |>) s else s in
          (s, Ok (cloneTaskRecord record))
      end
  end.

(** ** Retries *)

Definition stableRetryJitterSeed (taskID attemptID : string) (attempt : Z) : Z :=
  fnv_seed (TrimSpace taskID +:+ "|" +:+ TrimSpace attemptID +:+ "|" +:+ itoa attempt).

(** The delay before jitter: [Initial * Multiplier^(attempt-1)] capped at [Max]. *)
Definition backoffDelay (bo : RetryBackoffConfig) (attempt : Z) : Duration :=
  let base := f64_of_Z (bo_Initial bo) in
  let base := if f64_leb base f64_zero then f64_of_Z (50 * Millisecond) else base in
  let multiplier := bo_Multiplier bo in
  let multiplier := if f64_ltb multiplier f64_one then f64_one else multiplier in
  let attemptNum := if attempt <=? 0 then 1 else attempt in
  let delayFloat := Nat.iter (Z.to_nat (attemptNum - 1)) (fun d => f64_mul d multiplier) base in
  let maxDelay := f64_of_Z (bo_Max bo) in
  let maxDelay := if f64_leb maxDelay f64_zero then f64_of_Z (2 * Second) else maxDelay in
  f64_to_i64 (if f64_ltb maxDelay delayFloat then maxDelay else delayFloat).

(** The jitter of [retryDelay] around [delay], within [0, mx]. *)
Definition jittered (delay mx : Duration) (ratio : f64) (seed : Z) : Duration :=
  if f64_leb ratio f64_zero then delay
  else
    let jitterRange := f64_to_i64 (f64_mul (f64_of_Z delay) ratio) in
    if jitterRange <=? 0 then delay
    else
      let jitter := wrap_i64 (Z.rem seed (wrap_i64 (2 * jitterRange + 1)) - jitterRange) in
      let withJitter := wrap_i64 (delay + jitter) in
      let withJitter := if withJitter <? 0 then 0 else withJitter in
      if mx <? withJitter then mx else withJitter.

Definition retryDelay (s : schedulerState) (taskID : string) (current : Attempt) : Duration :=
  let bo := gv_Backoff (s_governance s) in
  if negb (bo_Enabled bo) then 0
  else
    jittered (backoffDelay bo (at_Attempt current)) (bo_Max bo) (bo_JitterRatio bo)
      (stableRetryJitterSeed taskID (at_AttemptID current) (at_Attempt current)).

Definition reentryPolicyOn (s : schedulerState) : bool :=
  rb_Enabled (s_recoveryBoundary s)
  && (rb_TimeoutReentryPolicy (s_recoveryBoundary s) =s? RecoveryTimeoutReentryPolicySingleReentryFail).

(** *** The record after a retry transition *)

(** The attempt is closed as expired. *)
Definition expiredRecord (current : Attempt) (now : Time) (record : TaskRecord) : TaskRecord :=
  let current := current <| at_Status := AttemptStatusExpired |> <| at_TerminalAt := now |> in
  record
    <| tr_Attempts ::= replaceAttempt current |>
    <| tr_CurrentAttempt := "" |>
    <| tr_UpdatedAt := now |>.

Definition reentryFailedRecord (record : TaskRecord) : TaskRecord :=
  record
    <| tr_State := TaskStateFailed |>
    <| tr_NextEligibleAt := 0 |>
    <| tr_DeadLetterCode := "" |>
    <| tr_ErrorMessage := "recovery timeout reentry budget exhausted" |>.

Definition retryDeadRecord (record : TaskRecord) : TaskRecord :=
  record
    <| tr_NextEligibleAt := 0 |>
    <| tr_State := TaskStateDeadLetter |>
    <| tr_DeadLetterCode := "retry_exhausted" |>
    <| tr_ErrorMessage := "retry attempts exhausted" |>.

Definition retryFailedRecord (record : TaskRecord) : TaskRecord :=
  record
    <| tr_NextEligibleAt := 0 |>
    <| tr_State := TaskStateFailed |>
    <| tr_ErrorMessage := "retry attempts exhausted" |>.

Definition requeuedRecord (now : Time) (backoff : Duration) (record : TaskRecord) : TaskRecord :=
  record
    <| tr_State := TaskStateQueued |>
    <| tr_DeadLetterCode := "" |>
    <| tr_NextEligibleAt := TimeAdd now backoff |>.

Definition maxAttemptsOf (record : TaskRecord) : Z :=
  if tk_MaxAttempts (tr_Task record) <=? 0 then 3 else tk_MaxAttempts (tr_Task record).

(** The new state and record after the current attempt ran out of its lease or
    was given back. *)
Definition handleRetryTransition (s : schedulerState) (taskID : string) (record : TaskRecord)
    (current : Attempt) (now : Time) : schedulerState * TaskRecord :=
  let record := expiredRecord current now record in
  let attempts := Z.of_nat (length (tr_Attempts record)) in
  let reentryBudget := if rb_TimeoutReentryMaxPerTask (s_recoveryBoundary s) <=? 0 then 1
                       else rb_TimeoutReentryMaxPerTask (s_recoveryBoundary s) in
  if reentryPolicyOn s && (reentryBudget <=? attempts - 1) then
    let record := reentryFailedRecord record in
    (onStats (fun st => st <| st_FailTotal ::= Z.succ |>
                           <| st_RecoveryTimeoutReentryExhaustedTotal ::= Z.succ |>)
       (putTask taskID record s), record)
  else if maxAttemptsOf record <=? attempts then
    if gv_DLQEnabled (s_governance s) then
      let record := retryDeadRecord record in
      (onStats (fun st => st <| st_DeadLetterTotal ::= Z.succ |>) (putTask taskID record s), record)
    else
      let record := retryFailedRecord record in
      (onStats (fun st => st <| st_FailTotal ::= Z.succ |>) (putTask taskID record s), record)
  else
    let backoff := retryDelay s taskID current in
    let record := requeuedRecord now backoff record in
    let s := putTask taskID record s <| s_Queue ::= fun q => q ++ [taskID] |> in
    let s := onStats (fun st => st <| st_ReclaimTotal ::= Z.succ |>) s in
    let s := if reentryPolicyOn s
             then onStats (fun st => st <| st_RecoveryTimeoutReentryTotal ::= Z.succ |>) s else s in
    let s := if 0 <? backoff
             then onStats (fun st => st <| st_RetryBackoffTotal ::= Z.succ |>) s else s in
    (s, record).

(** ** Lease expiry *)

Definition leaseLapsed (now : Time) (r : TaskRecord) : bool :=
  bool_decide (tr_State r = TaskStateRunning)
  && match currentAttempt r with
     | Some current =>
         bool_decide (at_Status current = AttemptStatusRunning)
         && negb (After (at_LeaseExpiresAt current) now)
     | None => false
     end.

Definition tasksWhere (p : TaskRecord -> bool) (s : schedulerState) : list string :=
  sort_strings (map_to_list (filter (fun kv => p kv.2 = true) (s_Tasks s))).*1.

Definition expireLeaseStep (now : Time) (acc : schedulerState * list ClaimedTask) (taskID : string)
  : schedulerState * list ClaimedTask :=
  let '(s, out) := acc in
  match s_Tasks s !! taskID with
  | None => (s, out)
  | Some record =>
      if negb (bool_decide (tr_State record = TaskStateRunning)) then (s, out)
      else match currentAttempt record with
      | None => (s, out)
      | Some current =>
          let '(s, record) := handleRetryTransition s taskID record current now in
          let s := onStats (fun st => st <| st_LeaseExpiredTotal ::= Z.succ |>) s in
          (s, out ++ [mkClaimedTask (cloneTaskRecord record) current "" false])
      end
  end.

Definition expireLeases (wall : Time) (s : schedulerState) (now : Time)
  : schedulerState * list ClaimedTask :=
  let now := or_now wall now in
  foldl (expireLeaseStep now) (s, []) (tasksWhere (leaseLapsed now) s).

(** ** Claim *)

Definition isClaimableRecord (record : option TaskRecord) (now : Time) : bool :=
  match record with
  | None => false
  | Some r =>
      if negb (bool_decide (tr_State r = TaskStateQueued)) then false
      else if negb (IsZero (tk_NotBefore (tr_Task r))) && After (tk_NotBefore (tr_Task r)) now
      then false
      else if IsZero (tr_NextEligibleAt r) then true
      else negb (After (tr_NextEligibleAt r) now)
  end.

(** The scan of the queue: the first claimable index, and the first one of
    each priority. *)
Fixpoint scanQueue (tasks : gmap string TaskRecord) (now : Time) (idx : nat) (queue : list string)
    (firstEligible : option nat) (byPriority : gmap string nat)
  : option nat * gmap string nat :=
  match queue with
  | [] => (firstEligible, byPriority)
  | id :: queue =>
      let record := tasks !! TrimSpace id in
      match record with
      | Some r =>
          if isClaimableRecord record now then
            let firstEligible := match firstEligible with Some i => Some i | None => Some idx end in
            let priority := normalizedPriority (tk_Priority (tr_Task r)) in
            let byPriority := match byPriority !! priority with
                              | Some _ => byPriority
                              | None => <[priority := idx]> byPriority
                              end in
            scanQueue tasks now (S idx) queue firstEligible byPriority
          else scanQueue tasks now (S idx) queue firstEligible byPriority
      | None => scanQueue tasks now (S idx) queue firstEligible byPriority
      end
  end.

Definition priorityOrder : list string := [TaskPriorityHigh; TaskPriorityNormal; TaskPriorityLow].

(** The first priority of the list that has a claimable task. *)
Fixpoint firstPresent (byPriority : gmap string nat) (l : list string) : option (string * nat) :=
  match l with
  | [] => None
  | p :: l => match byPriority !! p with Some i => Some (p, i) | None => firstPresent byPriority l end
  end.

Definition nextClaimableIndex (s : schedulerState) (now : Time) : option (nat * bool) :=
  match scanQueue (s_Tasks s) now 0 (s_Queue s) None ∅ with
  | (None, _) => None
  | (Some firstEligible, byPriority) =>
      if negb (bool_decide (gv_QoS (s_governance s) = QoSModePriority))
      then Some (firstEligible, false)
      else match firstPresent byPriority priorityOrder with
      | None => Some (firstEligible, false)
      | Some (selectedPriority, selectedIndex) =>
          let threshold := gv_MaxConsecutiveClaimsPerPriority (s_governance s) in
          if (0 <? threshold) && (s_lastPriority s =s? selectedPriority)
             && (threshold <=? s_lastConsecutive s)
          then match firstPresent byPriority
                       (filter (fun p => p <> selectedPriority) priorityOrder) with
               | Some (_, idx) => Some (idx, true)
               | None => Some (selectedIndex, false)
               end
          else Some (selectedIndex, false)
      end
  end.

Definition newAttempt (taskID : string) (record : TaskRecord) (workerID : string) (now : Time)
    (leaseTimeout : Duration) : Attempt :=
  let nextAttempt := Z.of_nat (length (tr_Attempts record)) + 1 in
  mkAttempt (minted taskID "-attempt-" nextAttempt) nextAttempt workerID
    (minted taskID "-lease-" (UnixNano now)) AttemptStatusRunning now now
    (TimeAdd now leaseTimeout) 0 (tk_WorkspaceProvenance (tr_Task record)).

Definition claimedRecord (attempt : Attempt) (now : Time) (record : TaskRecord) : TaskRecord :=
  record
    <| tr_Attempts ::= fun l => l ++ [attempt] |>
    <| tr_CurrentAttempt := at_AttemptID attempt |>
    <| tr_NextEligibleAt := 0 |>
    <| tr_State := TaskStateRunning |>
    <| tr_UpdatedAt := now |>.

(** The consecutive-claim memory and the statistics of a claim. *)
Definition countClaim (priority : string) (yielded delayedTask : bool) (delayedWaitMs : Z)
    (s : schedulerState) : schedulerState :=
  let s := if bool_decide (gv_QoS (s_governance s) = QoSModePriority)
           then onStats (fun st => st <| st_PriorityClaimTotal ::= Z.succ |>) s else s in
  let s := if yielded
           then onStats (fun st => st <| st_FairnessYieldTotal ::= Z.succ |>) s else s in
  let s := if priority =s? s_lastPriority s
           then s <| s_lastConsecutive ::= Z.succ |>
           else s <| s_lastPriority := priority |> <| s_lastConsecutive := 1 |> in
  let s := onStats (fun st => st <| st_ClaimTotal ::= Z.succ |>) s in
  let s :=
    if delayedTask then
      let s := onStats (fun st => st <| st_DelayedClaimTotal ::= Z.succ |>) s in
      let s := s <| s_DelayedWaitMs ::= fun l => l ++ [delayedWaitMs] |> in
      onStats (fun st => st <| st_DelayedWaitMsP95 := percentileP95Int64 (s_DelayedWaitMs s) |>) s
    else s in
  onStats (fun st => st <| st_QoSMode := QoSMode_string (gv_QoS (s_governance s)) |>) s.

Definition claim (wall : Time) (s : schedulerState) (workerID : string) (now : Time)
    (leaseTimeout : Duration) : schedulerState * result SchedulerError (option ClaimedTask) :=
  let workerID := TrimSpace workerID in
  if workerID =s? "" then (s, Err ErrWorkerIDRequired)
  else if leaseTimeout <=? 0 then (s, Err ErrLeaseTimeoutNotPositive)
  else
    let now := or_now wall now in
    let s := fst (expireLeases wall s now) in
    match nextClaimableIndex s now with
    | None => (s, Ok None)
    | Some (index, yielded) =>
        let taskID := default "" (s_Queue s !! index) in
        let s := s <| s_Queue ::= delete index |> in
        match s_Tasks s !! taskID with
        | None => (s, Ok None)
        | Some record =>
            if negb (bool_decide (tr_State record = TaskStateQueued)) then (s, Ok None)
            else
              let delayedTask := isTaskDelayed (tr_Task record) (tr_CreatedAt record) in
              let delayedWaitMs := delayedWaitDurationMs record now in
              let attempt := newAttempt taskID record workerID now leaseTimeout in
              let record := claimedRecord attempt now record in
              let s := putTask taskID record s in
              let priority := normalizedPriority (tk_Priority (tr_Task record)) in
              let s := countClaim priority yielded delayedTask delayedWaitMs s in
              (s, Ok (Some (mkClaimedTask (cloneTaskRecord record) attempt priority yielded)))
        end
    end.

(** ** Heartbeat *)

Definition renewedRecord (current : Attempt) (now : Time) (record : TaskRecord) : TaskRecord :=
  record <| tr_Attempts ::= replaceAttempt current |> <| tr_UpdatedAt := now |>.

Definition heartbeat (wall : Time) (s : schedulerState) (taskID attemptID leaseToken : string)
    (now : Time) (leaseTimeout : Duration) : schedulerState * result SchedulerError ClaimedTask :=
  let taskID := TrimSpace taskID in
  let attemptID := TrimSpace attemptID in
  let leaseToken := TrimSpace leaseToken in
  if (taskID =s? "") || (attemptID =s? "") || (leaseToken =s? "") then (s, Err ErrLeaseKeyRequired)
  else if leaseTimeout <=? 0 then (s, Err ErrLeaseTimeoutNotPositive)
  else match s_Tasks s !! taskID with
  | None => (s, Err ErrTaskNotFound)
  | Some record =>
      if negb (bool_decide (tr_State record = TaskStateRunning)) then (s, Err ErrTaskNotRunning)
      else match currentAttempt record with
      | None => (s, Err ErrAttemptNotFound)
      | Some current =>
          if negb (at_AttemptID current =s? attemptID) then (s, Err ErrAttemptNotFound)
          else if negb (at_LeaseToken current =s? leaseToken) then (s, Err ErrLeaseTokenMismatch)
          else
            let now := or_now wall now in
            if Before (at_LeaseExpiresAt current) now then (s, Err ErrLeaseExpired)
            else
              let current := current <| at_HeartbeatAt := now |>
                                     <| at_LeaseExpiresAt := TimeAdd now leaseTimeout |> in
              let record := renewedRecord current now record in
              (putTask taskID record s, Ok (mkClaimedTask (cloneTaskRecord record) current "" false))
      end
  end.

(** ** Asynchronous reports *)

Definition awaitingRecord (current : Attempt) (now : Time) (reportTimeout : Duration)
    (remoteTaskID : string) (record : TaskRecord) : TaskRecord :=
  record
    <| tr_Attempts ::= replaceAttempt current |>
    <| tr_State := TaskStateAwaitingReport |>
    <| tr_AwaitingReportSince := now |>
    <| tr_ReportTimeoutAt := TimeAdd now reportTimeout |>
    <| tr_RemoteTaskID := remoteTaskID |>
    <| tr_ResolutionSource := "" |>
    <| tr_TerminalConflict := false |>
    <| tr_NextEligibleAt := 0 |>
    <| tr_UpdatedAt := now |>.

Definition markAwaitingReport (wall : Time) (s : schedulerState)
    (taskID attemptID remoteTaskID : string) (now : Time) (reportTimeout : Duration)
  : schedulerState * result SchedulerError TaskRecord :=
  let taskID := TrimSpace taskID in
  let attemptID := TrimSpace attemptID in
  let remoteTaskID := TrimSpace remoteTaskID in
  if (taskID =s? "") || (attemptID =s? "") then (s, Err ErrTaskAndAttemptIDRequired)
  else match s_Tasks s !! taskID with
  | None => (s, Err ErrTaskNotFound)
  | Some record =>
      let now := or_now wall now in
      let reportTimeout :=
        if reportTimeout <=? 0 then
          (if aa_ReportTimeout (s_asyncAwait s) <=? 0 then 15 * Minute
           else aa_ReportTimeout (s_asyncAwait s))
        else reportTimeout in
      match currentAttempt record with
      | None => (s, Err ErrAttemptNotFound)
      | Some current =>
          if negb (at_AttemptID current =s? attemptID) then (s, Err ErrAttemptNotFound)
          else if bool_decide (tr_State record = TaskStateAwaitingReport) then
            let record := if negb (remoteTaskID =s? "")
                          then record <| tr_RemoteTaskID := remoteTaskID |> else record in
            (putTask taskID record s, Ok (cloneTaskRecord record))
          else if negb (bool_decide (tr_State record = TaskStateRunning))
          then (s, Err ErrTaskNotRunning)
          else
            let current := current <| at_LeaseExpiresAt := 0 |> <| at_HeartbeatAt := now |> in
            let record := awaitingRecord current now reportTimeout remoteTaskID record in
            let s := onStats (fun st => st <| st_AsyncAwaitTotal ::= Z.succ |>)
                       (putTask taskID record s) in
            (s, Ok (cloneTaskRecord record))
      end
  end.

Definition reportLapsed (now : Time) (r : TaskRecord) : bool :=
  bool_decide (tr_State r = TaskStateAwaitingReport)
  && negb (IsZero (tr_ReportTimeoutAt r) || After (tr_ReportTimeoutAt r) now).

Definition timedOutRecord (terminalState : TaskState) (current : Attempt) (now : Time)
    (record : TaskRecord) : TaskRecord :=
  record
    <| tr_Attempts ::= replaceAttempt current |>
    <| tr_CurrentAttempt := "" |>
    <| tr_State := terminalState |>
    <| tr_AwaitingReportSince := 0 |>
    <| tr_ReportTimeoutAt := 0 |>
    <| tr_ResolutionSource := AsyncResolutionSourceTimeout |>
    <| tr_NextEligibleAt := 0 |>
    <| tr_Result := ∅ |>
    <| tr_ErrorMessage := "async report timeout exceeded" |>
    <| tr_ErrorClass := ErrPolicyTimeout |>
    <| tr_ErrorLayer := "scheduler.async_await" |>
    <| tr_DeadLetterCode :=
         if bool_decide (terminalState = TaskStateDeadLetter) then "async_report_timeout" else "" |>
    <| tr_UpdatedAt := now |>.

Definition timeoutTerminalState (s : schedulerState) : TaskState :=
  if bool_decide (aa_TimeoutTerminal (s_asyncAwait s) = TaskStateDeadLetter)
     && negb (gv_DLQEnabled (s_governance s))
  then TaskStateFailed else aa_TimeoutTerminal (s_asyncAwait s).

(** The commit recorded for the timed-out attempt. *)
Definition timeoutCommit (record : TaskRecord) (current : Attempt) (now : Time) : TerminalCommit :=
  mkTerminalCommit (tk_TaskID (tr_Task record)) (at_AttemptID current)
    TaskStateFailed AsyncResolutionSourceTimeout (tr_RemoteTaskID record) ∅
    (tr_ErrorMessage record) (tr_ErrorClass record) (tr_ErrorLayer record) "" now None.

Definition expireAwaitingStep (now : Time) (acc : schedulerState * list ClaimedTask)
    (taskID : string) : schedulerState * list ClaimedTask :=
  let '(s, out) := acc in
  match s_Tasks s !! taskID with
  | None => (s, out)
  | Some record =>
      if negb (bool_decide (tr_State record = TaskStateAwaitingReport)) then (s, out)
      else match currentAttempt record with
      | None => (s, out)
      | Some current =>
          let terminalState := timeoutTerminalState s in
          let current := current <| at_Status := AttemptStatusFailed |> <| at_TerminalAt := now |> in
          let record := timedOutRecord terminalState current now record in
          let dead := bool_decide (terminalState = TaskStateDeadLetter) in
          let s := onStats (fun st => if dead then st <| st_DeadLetterTotal ::= Z.succ |>
                                      else st <| st_FailTotal ::= Z.succ |>)
                     (putTask taskID record s) in
          let s := onStats (fun st => st <| st_AsyncTimeoutTotal ::= Z.succ |>) s in
          let key := terminalCommitKey (tk_TaskID (tr_Task record)) (at_AttemptID current) in
          let s :=
            match s_TerminalCommits s !! key with
            | Some _ => s
            | None => s <| s_TerminalCommits ::= <[key := timeoutCommit record current now]> |>
            end in
          (s, out ++ [mkClaimedTask (cloneTaskRecord record) current "" false])
      end
  end.

Definition expireAwaitingReports (wall : Time) (s : schedulerState) (now : Time)
  : schedulerState * list ClaimedTask :=
  let now := or_now wall now in
  foldl (expireAwaitingStep now) (s, []) (tasksWhere (reportLapsed now) s).

Definition awaitingOpen (now : Time) (r : TaskRecord) : bool :=
  bool_decide (tr_State r = TaskStateAwaitingReport)
  && negb (IsZero (tr_ReportTimeoutAt r) || Before (tr_ReportTimeoutAt r) now).

Definition listAwaitingReport (wall : Time) (s : schedulerState) (now : Time) (limit : Z)
  : list TaskRecord :=
  let now := or_now wall now in
  let limit := if limit <=? 0 then 64 else limit in
  let ids := tasksWhere (awaitingOpen now) s in
  take (Z.to_nat limit) (omap (fun id => s_Tasks s !! id) ids).

Definition recordAsyncReconcileStats (s : schedulerState) (pollTotal errorTotal : Z) : schedulerState :=
  let s := if 0 <? pollTotal
           then onStats (fun st => st <| st_AsyncReconcilePollTotal ::= Z.add pollTotal |>) s else s in
  if 0 <? errorTotal
  then onStats (fun st => st <| st_AsyncReconcileErrorTotal ::= Z.add errorTotal |>) s else s.

(** ** Requeue *)

Definition requeue (wall : Time) (s : schedulerState) (taskID : string) (now : Time)
  : schedulerState * result SchedulerError TaskRecord :=
  let taskID := TrimSpace taskID in
  if taskID =s? "" then (s, Err ErrTaskIDRequired)
  else match s_Tasks s !! taskID with
  | None => (s, Err ErrTaskNotFound)
  | Some record =>
      let now := or_now wall now in
      if negb (bool_decide (tr_State record = TaskStateRunning)) then (s, Err ErrTaskNotRunning)
      else match currentAttempt record with
      | None => (s, Err ErrAttemptNotFound)
      | Some current =>
          let '(s, record) := handleRetryTransition s taskID record current now in
          (s, Ok (cloneTaskRecord record))
      end
  end.

(** ** Terminal commits *)

Definition isTimeoutTerminalCommit (commit : TerminalCommit) : bool :=
  EqualFold (TrimSpace (tc_ErrorLayer commit)) "scheduler.async_await"
  && EqualFold (TrimSpace (tc_ErrorMessage commit)) "async report timeout exceeded".

Definition terminalCommitConflict (existing incoming : TerminalCommit) : bool :=
  negb (bool_decide (tc_Status existing = tc_Status incoming))
  || negb (TrimSpace (tc_OutcomeKey existing) =s? TrimSpace (tc_OutcomeKey incoming))
  || negb (TrimSpace (tc_ErrorMessage existing) =s? TrimSpace (tc_ErrorMessage incoming))
  || negb (TrimSpace (tc_ErrorLayer existing) =s? TrimSpace (tc_ErrorLayer incoming))
  || negb (tc_ErrorClass existing =s? tc_ErrorClass incoming).

Definition committedRecord (current : Attempt) (normalized : TerminalCommit) (record : TaskRecord)
  : TaskRecord :=
  record
    <| tr_Attempts ::= replaceAttempt current |>
    <| tr_CurrentAttempt := "" |>
    <| tr_State := tc_Status normalized |>
    <| tr_AwaitingReportSince := 0 |>
    <| tr_ReportTimeoutAt := 0 |>
    <| tr_NextEligibleAt := 0 |>
    <| tr_DeadLetterCode := "" |>
    <| tr_ResolutionSource ::=
         fun v => if tc_Source normalized =s? "" then v else tc_Source normalized |>
    <| tr_RemoteTaskID ::=
         fun v => if tc_RemoteTaskID normalized =s? "" then v else tc_RemoteTaskID normalized |>
    <| tr_UpdatedAt := tc_CommittedAt normalized |>
    <| tr_ErrorMessage := tc_ErrorMessage normalized |>
    <| tr_ErrorClass := tc_ErrorClass normalized |>
    <| tr_ErrorLayer := tc_ErrorLayer normalized |>
    <| tr_Result := if bool_decide (tc_Status normalized = TaskStateSucceeded)
                    then tc_Result normalized else ∅ |>.

Definition applyTerminalCommit (s : schedulerState) (taskID : string) (record : TaskRecord)
    (normalized : TerminalCommit) : schedulerState * result SchedulerError CommitResult :=
  let key := terminalCommitKey (tc_TaskID normalized) (tc_AttemptID normalized) in
  match currentAttempt record with
  | None => (s, Err ErrAttemptNotFound)
  | Some current =>
      if negb (at_AttemptID current =s? tc_AttemptID normalized) then (s, Err ErrStaleAttempt)
      else
        match tc_Status normalized with
        | TaskStateSucceeded | TaskStateFailed =>
            let ok := bool_decide (tc_Status normalized = TaskStateSucceeded) in
            let current := current
              <| at_Status := if ok then AttemptStatusSucceeded else AttemptStatusFailed |>
              <| at_TerminalAt := tc_CommittedAt normalized |> in
            let record := committedRecord current normalized record in
            let s := putTask taskID record s <| s_TerminalCommits ::= <[key := normalized]> |> in
            let s := if tc_Source normalized =s? AsyncResolutionSourceReconcilePoll
                     then onStats (fun st => st <| st_AsyncReconcileTerminalByPollTotal ::= Z.succ |>) s
                     else s in
            let s := onStats (fun st => if ok then st <| st_CompleteTotal ::= Z.succ |>
                                        else st <| st_FailTotal ::= Z.succ |>) s in
            (s, Ok (mkCommitResult (cloneTaskRecord record) false false false))
        | st => (s, Err (ErrUnsupportedTerminalStatus st))
        end
  end.

Definition commitTerminal (wall : Time) (s : schedulerState) (commit : TerminalCommit)
  : schedulerState * result SchedulerError CommitResult :=
  match normalizeCommit wall commit with
  | Err e => (s, Err e)
  | Ok normalized =>
      match s_Tasks s !! tc_TaskID normalized with
      | None => (s, Err ErrTaskNotFound)
      | Some record =>
          let key := terminalCommitKey (tc_TaskID normalized) (tc_AttemptID normalized) in
          match s_TerminalCommits s !! key with
          | Some _ =>
              (onStats (fun st => st <| st_DuplicateTerminalCommitTotal ::= Z.succ |>) s,
               Ok (mkCommitResult (cloneTaskRecord record) true false false))
          | None =>
              if negb (bool_decide (tr_State record = TaskStateRunning))
              then (s, Err ErrTaskNotRunning)
              else match currentAttempt record with
              | None => (s, Err ErrWorkspaceBindingMismatch)
              | Some current =>
                  if negb (workspaceProvenanceEqual (at_WorkspaceProvenance current)
                             (tc_WorkspaceProvenance normalized))
                  then (s, Err ErrWorkspaceBindingMismatch)
                  else applyTerminalCommit s (tc_TaskID normalized) record normalized
              end
          end
      end
  end.

Definition commitAsyncReportTerminal (wall : Time) (s : schedulerState) (commit : TerminalCommit)
  : schedulerState * result SchedulerError CommitResult :=
  match normalizeCommit wall commit with
  | Err e => (s, Err e)
  | Ok normalized =>
      let normalized := if tc_Source normalized =s? ""
                        then normalized <| tc_Source := AsyncResolutionSourceCallback |>
                        else normalized in
      let taskID := tc_TaskID normalized in
      match s_Tasks s !! taskID with
      | None => (s, Err ErrTaskNotFound)
      | Some record =>
          let key := terminalCommitKey taskID (tc_AttemptID normalized) in
          match s_TerminalCommits s !! key with
          | Some existing =>
              let s := onStats (fun st => st <| st_DuplicateTerminalCommitTotal ::= Z.succ |>) s in
              let conflict := terminalCommitConflict existing normalized in
              let mark := conflict && negb (tr_TerminalConflict record) in
              let record := if mark then record <| tr_TerminalConflict := true |> else record in
              let s := if mark
                       then onStats (fun st => st <| st_AsyncTerminalConflictTotal ::= Z.succ |>)
                              (putTask taskID record s)
                       else s in
              (s, Ok (mkCommitResult (cloneTaskRecord record) true
                        (isTimeoutTerminalCommit existing) conflict))
          | None =>
              if bool_decide (tr_State record = TaskStateRunning)
              then (s, Err ErrTaskNotAwaitingReport)
              else match currentAttempt record with
              | None => (s, Err ErrWorkspaceBindingMismatch)
              | Some current =>
                  if negb (workspaceProvenanceEqual (at_WorkspaceProvenance current)
                             (tc_WorkspaceProvenance normalized))
                  then (s, Err ErrWorkspaceBindingMismatch)
                  else if negb (bool_decide (tr_State record = TaskStateAwaitingReport)) then
                    if aa_LateReportPolicy (s_asyncAwait s) =s? AsyncLateReportPolicyDropAndRecord
                    then (s, Ok (mkCommitResult (cloneTaskRecord record) false true false))
                    else (s, Err ErrTaskNotAwaitingReport)
                  else applyTerminalCommit s taskID record normalized
              end
          end
      end
  end.

Definition get (s : schedulerState) (taskID : string) : option TaskRecord :=
  cloneTaskRecord <$> s_Tasks s !! TrimSpace taskID.

(** ** Manual control *)

Definition normalizeTaskBoardControlAction (action : string) : result SchedulerError TaskBoardControlAction :=
  let a := lower_trim action in
  if a =s? TaskBoardControlAction_string TaskBoardControlActionCancel
  then Ok TaskBoardControlActionCancel
  else if a =s? TaskBoardControlAction_string TaskBoardControlActionRetryTerminal
  then Ok TaskBoardControlActionRetryTerminal
  else Err ErrTaskBoardControlActionInvalid.

(** [m[k]++]. *)
Definition bump (k : string) (m : gmap string Z) : gmap string Z := <[k := default 0 (m !! k) + 1]> m.

Definition canceledRecord (now : Time) (record : TaskRecord) : TaskRecord :=
  record
    <| tr_State := TaskStateFailed |>
    <| tr_CurrentAttempt := "" |>
    <| tr_AwaitingReportSince := 0 |>
    <| tr_ReportTimeoutAt := 0 |>
    <| tr_NextEligibleAt := 0 |>
    <| tr_Result := ∅ |>
    <| tr_ErrorMessage := "manual cancel requested" |>
    <| tr_ErrorClass := ErrContext |>
    <| tr_ErrorLayer := "scheduler.task_board.control" |>
    <| tr_DeadLetterCode := "" |>
    <| tr_ResolutionSource := "manual_cancel" |>
    <| tr_TerminalConflict := false |>
    <| tr_UpdatedAt := now |>.

Definition applyManualCancel (s : schedulerState) (taskID : string) (record : TaskRecord)
    (operationID : string) (now : Time)
  : schedulerState * result SchedulerError TaskBoardControlResult :=
  let cancel (record : TaskRecord) :=
    let record := canceledRecord now record in
    let s := onStats (fun st => st
      <| st_FailTotal ::= Z.succ |>
      <| st_TaskBoardManualControlSuccessTotal ::= Z.succ |>
      <| st_TaskBoardManualControlByAction ::=
           bump (TaskBoardControlAction_string TaskBoardControlActionCancel) |>
      <| st_TaskBoardManualControlByReason ::= bump ReasonManualCancel |>)
      (putTask taskID record s) in
    let out := mkTaskBoardControlResult (tk_TaskID (tr_Task record)) TaskBoardControlActionCancel
                 operationID true false ReasonManualCancel (cloneTaskRecord record) in
    (s <| s_ControlOps ::= <[operationID := out]> |>, Ok out) in
  match tr_State record with
  | TaskStateQueued => cancel record
  | TaskStateAwaitingReport =>
      match currentAttempt record with
      | None => (s, Err ErrAttemptNotFound)
      | Some current =>
          let current := current <| at_Status := AttemptStatusFailed |> <| at_TerminalAt := now |> in
          cancel (record <| tr_Attempts ::= replaceAttempt current |>)
      end
  | _ => (s, Err ErrTaskBoardControlStateConflict)
  end.

Definition retriedRecord (now : Time) (record : TaskRecord) : TaskRecord :=
  record
    <| tr_ManualRetryCount ::= Z.succ |>
    <| tr_State := TaskStateQueued |>
    <| tr_CurrentAttempt := "" |>
    <| tr_AwaitingReportSince := 0 |>
    <| tr_ReportTimeoutAt := 0 |>
    <| tr_NextEligibleAt := 0 |>
    <| tr_ResolutionSource := "" |>
    <| tr_TerminalConflict := false |>
    <| tr_Result := ∅ |>
    <| tr_ErrorMessage := "" |>
    <| tr_ErrorClass := "" |>
    <| tr_ErrorLayer := "" |>
    <| tr_DeadLetterCode := "" |>
    <| tr_UpdatedAt := now |>.

Definition maxManualRetryOf (s : schedulerState) : Z :=
  if tb_MaxManualRetryPerTask (s_taskBoardControl s) <=? 0 then 3
  else tb_MaxManualRetryPerTask (s_taskBoardControl s).

Definition applyManualRetry (s : schedulerState) (taskID : string) (record : TaskRecord)
    (operationID : string) (now : Time)
  : schedulerState * result SchedulerError TaskBoardControlResult :=
  if negb (bool_decide (tr_State record = TaskStateFailed \/ tr_State record = TaskStateDeadLetter))
  then (s, Err ErrTaskBoardControlStateConflict)
  else
    if maxManualRetryOf s <=? tr_ManualRetryCount record
    then (s, Err ErrTaskBoardControlRetryBudgetExceeded)
    else
      let record := retriedRecord now record in
      let s := putTask taskID record s
                 <| s_Queue ::= fun q => q ++ [tk_TaskID (tr_Task record)] |> in
      let s := onStats (fun st => st
        <| st_ReclaimTotal ::= Z.succ |>
        <| st_TaskBoardManualControlSuccessTotal ::= Z.succ |>
        <| st_TaskBoardManualControlByAction ::=
             bump (TaskBoardControlAction_string TaskBoardControlActionRetryTerminal) |>
        <| st_TaskBoardManualControlByReason ::= bump ReasonManualRetry |>) s in
      let out := mkTaskBoardControlResult (tk_TaskID (tr_Task record))
                   TaskBoardControlActionRetryTerminal operationID true false ReasonManualRetry
                   (cloneTaskRecord record) in
      (s <| s_ControlOps ::= <[operationID := out]> |>, Ok out).

Definition countRejected : schedulerState -> schedulerState :=
  onStats (fun st => st <| st_TaskBoardManualControlRejectedTotal ::= Z.succ |>).

Definition controlTask (wall : Time) (s : schedulerState) (req : TaskBoardControlRequest) (now : Time)
  : schedulerState * result SchedulerError TaskBoardControlResult :=
  if negb (tb_Enabled (s_taskBoardControl s)) then (s, Err ErrTaskBoardControlDisabled)
  else
    let taskID := TrimSpace (rq_TaskID req) in
    let operationID := TrimSpace (rq_OperationID req) in
    if operationID =s? "" then (s, Err ErrTaskBoardControlOperationIDRequired)
    else match normalizeTaskBoardControlAction (rq_Action req) with
    | Err e => (s, Err e)
    | Ok action =>
        let now := or_now wall now in
        match s_ControlOps s !! operationID with
        | Some previous =>
            if negb (co_TaskID previous =s? taskID) || negb (bool_decide (co_Action previous = action))
            then (countRejected s, Err ErrTaskBoardControlOperationConflict)
            else
              (onStats (fun st => st <| st_TaskBoardManualControlDedupTotal ::= Z.succ |>) s,
               Ok (previous <| co_Deduplicated := true |>))
        | None =>
            match s_Tasks s !! taskID with
            | None => (countRejected s, Err ErrTaskNotFound)
            | Some record =>
                let s := onStats (fun st => st <| st_TaskBoardManualControlTotal ::= Z.succ |>) s in
                let apply :=
                  match action with
                  | TaskBoardControlActionCancel => applyManualCancel s taskID record operationID now
                  | TaskBoardControlActionRetryTerminal => applyManualRetry s taskID record operationID now
                  | TaskBoardControlActionOther _ => (s, Err ErrTaskBoardControlActionInvalid)
                  end in
                match apply with
                | (s, Err e) => (countRejected s, Err e)
                | (s, Ok out) => (s, Ok out)
                end
            end
        end
    end.

#[global] Arguments percentileP95Int64 _ : simpl never.
#[global] Arguments terminalCommitKey _ _ : simpl never.
#[global] Arguments retryDelay _ _ _ : simpl never.
#[global] Arguments tasksWhere _ _ : simpl never.
