(* ===== verification/SchedulerSnapshot.v ===== *)
(** * Scheduler: snapshots

    [snapshot] and [restore] of [orchestration/scheduler/state.go] with the
    workspace checks of [workspace_binding.go]. A snapshot lists the tasks, the
    commits and the control operations by sorted key; [restore] checks a
    snapshot and rebuilds the state, or reports the first fault. *)
From S2P Require Import Prelude GoStrings GoNum SchedulerTypes SchedulerState.

Local Open Scope bool_scope.
Local Open Scope string_scope.
Local Open Scope list_scope.
Local Open Scope Z_scope.

Abbreviation fault f := (Err (ErrSnapshotCorrupt f)).

(** ** Snapshot *)

(** The values of a map by sorted key. *)
Definition sortedValues {A} (m : gmap string A) : list A :=
  omap (fun k => m !! k) (sort_strings (map_to_list m).*1).

Definition trimControlOp (item : TaskBoardControlResult) : TaskBoardControlResult :=
  item
    <| co_OperationID ::= TrimSpace |>
    <| co_TaskID ::= TrimSpace |>
    <| co_Reason ::= TrimSpace |>.

Definition snapshotControlOps (s : schedulerState) : list TaskBoardControlResult :=
  trimControlOp <$> sortedValues (s_ControlOps s).

(** The maps of the statistics are copied. *)
Definition snapshotStats (s : schedulerState) : Stats := s_Stats s.

Definition snapshot (s : schedulerState) : StoreSnapshot :=
  mkStoreSnapshot (TrimSpace (st_Backend (s_Stats s)))
    (cloneTaskRecord <$> sortedValues (s_Tasks s)) (s_Queue s)
    (trimCommit <$> sortedValues (s_TerminalCommits s))
    (snapshotControlOps s) (s_DelayedWaitMs s) (snapshotStats s).

(** ** Workspace bindings *)

Definition validateTaskWorkspaceBinding (task : Task) : result SchedulerError unit :=
  match tk_WorkspaceProvenance task with
  | None => Ok tt
  | Some wp =>
      require (tk_RunID task =s? "") || (wp_ProducedByRunID wp =s? tk_RunID task)
        orelse ErrSnapshotCorrupt FaultTaskRunAssociation;
      require (tk_StepID task =s? "") || (wp_ProducedByStepID wp =s? tk_StepID task)
        orelse ErrSnapshotCorrupt FaultTaskStepAssociation;
      Ok tt
  end.

Definition validateAttemptWorkspaceBinding (task attempt : option WorkspaceProvenance)
  : result SchedulerError unit :=
  match attempt with
  | None => Ok tt
  | Some wp =>
      match WorkspaceProvenance_Validate wp with
      | Some _ => fault FaultAttemptProvenanceInvalid
      | None =>
          require workspaceProvenanceEqual task attempt
            orelse ErrSnapshotCorrupt FaultAttemptProvenanceMismatch;
          Ok tt
      end
  end.

Definition validateTerminalWorkspaceBinding (record : TaskRecord) (commit : TerminalCommit)
    (attemptID : string) : result SchedulerError unit :=
  match attemptByID record attemptID with
  | None => fault FaultCommitUnknownAttempt
  | Some attempt =>
      match tc_WorkspaceProvenance commit with
      | None => Ok tt
      | Some _ =>
          require workspaceProvenanceEqual (tk_WorkspaceProvenance (tr_Task record))
                    (tc_WorkspaceProvenance commit)
            orelse ErrSnapshotCorrupt FaultCommitTaskProvenance;
          require workspaceProvenanceEqual (at_WorkspaceProvenance attempt)
                    (tc_WorkspaceProvenance commit)
            orelse ErrSnapshotCorrupt FaultCommitAttemptProvenance;
          Ok tt
      end
  end.

(** ** Restore: the tasks *)

Definition trimAttempt (a : Attempt) : Attempt :=
  a <| at_AttemptID ::= TrimSpace |> <| at_WorkerID ::= TrimSpace |> <| at_LeaseToken ::= TrimSpace |>.

(** The loop over [record.Attempts]. *)
Fixpoint restoreAttempts (task : Task) (seen : list string) (l : list Attempt)
  : result SchedulerError (list Attempt) :=
  match l with
  | [] => Ok []
  | a :: l =>
      let a := trimAttempt a in
      require negb (at_AttemptID a =s? "") orelse ErrSnapshotCorrupt FaultAttemptIDRequired;
      require negb (bool_decide (at_AttemptID a ∈ seen)) orelse ErrSnapshotCorrupt FaultDuplicateAttempt;
      _ ←ₑ validateAttemptWorkspaceBinding (tk_WorkspaceProvenance task) (at_WorkspaceProvenance a);
      rest ←ₑ restoreAttempts task (at_AttemptID a :: seen) l;
      Ok (a :: rest)
  end.

Definition dropAwaiting (r : TaskRecord) : TaskRecord :=
  r <| tr_AwaitingReportSince := 0 |> <| tr_ReportTimeoutAt := 0 |>.

(** The switch on [record.State]. *)
Definition restoreState (r : TaskRecord) : result SchedulerError TaskRecord :=
  let current := tr_CurrentAttempt r in
  let currentExists := existsb (fun a => at_AttemptID a =s? current) (tr_Attempts r) in
  match tr_State r with
  | TaskStateQueued =>
      require current =s? "" orelse ErrSnapshotCorrupt FaultQueuedHasCurrent; Ok r
  | TaskStateRunning =>
      require negb (current =s? "") && currentExists orelse ErrSnapshotCorrupt FaultRunningNeedsCurrent;
      Ok (dropAwaiting r)
  | TaskStateAwaitingReport =>
      require negb (current =s? "") && currentExists orelse ErrSnapshotCorrupt FaultAwaitingNeedsCurrent;
      require negb (IsZero (tr_ReportTimeoutAt r)) orelse ErrSnapshotCorrupt FaultAwaitingNeedsTimeout;
      Ok (if IsZero (tr_AwaitingReportSince r)
          then r <| tr_AwaitingReportSince := tr_UpdatedAt r |> else r)
  | TaskStateSucceeded | TaskStateFailed | TaskStateDeadLetter =>
      require current =s? "" orelse ErrSnapshotCorrupt FaultTerminalHasCurrent;
      Ok (dropAwaiting r)
  | TaskStateOther _ => fault FaultUnsupportedState
  end.

Definition isTerminalState (st : TaskState) : bool :=
  match st with
  | TaskStateSucceeded | TaskStateFailed | TaskStateDeadLetter => true
  | _ => false
  end.

(** The two recovery-boundary checks. *)
Definition checkBoundary (rb : RecoveryBoundaryConfig) (r : TaskRecord) : result SchedulerError unit :=
  require negb (rb_Enabled rb && (rb_InflightPolicy rb =s? RecoveryInflightPolicyNoRewind)
                && isTerminalState (tr_State r)
                && existsb (fun a => bool_decide (at_Status a = AttemptStatusRunning)) (tr_Attempts r))
    orelse ErrSnapshotCorrupt FaultTerminalRunningAttempt;
  require negb (rb_Enabled rb && (rb_ResumeBoundary rb =s? RecoveryResumeBoundaryNextAttemptOnly)
                && bool_decide (tr_State r = TaskStateRunning \/ tr_State r = TaskStateAwaitingReport)
                && match currentAttempt r with
                   | Some c => negb (bool_decide (at_Status c = AttemptStatusRunning))
                   | None => true
                   end)
    orelse ErrSnapshotCorrupt FaultInflightCurrentInvalid;
  Ok tt.

(** The trimming and clearing assignments after the checks. *)
Definition cleanRecord (r : TaskRecord) : TaskRecord :=
  let r := r
    <| tr_ErrorMessage ::= TrimSpace |>
    <| tr_ErrorLayer ::= TrimSpace |>
    <| tr_DeadLetterCode ::= TrimSpace |>
    <| tr_RemoteTaskID ::= TrimSpace |>
    <| tr_ResolutionSource ::= lower_trim |> in
  let r := if bool_decide (tr_State r = TaskStateQueued) then r else r <| tr_NextEligibleAt := 0 |> in
  let r := if bool_decide (tr_State r = TaskStateAwaitingReport) then r else dropAwaiting r in
  if isTerminalState (tr_State r) then r
  else r <| tr_ResolutionSource := "" |> <| tr_TerminalConflict := false |>.

Definition restoreTask (rb : RecoveryBoundaryConfig) (tasks : gmap string TaskRecord) (inp : TaskRecord)
  : result SchedulerError (gmap string TaskRecord) :=
  let record := cloneTaskRecord inp in
  let taskID := TrimSpace (tk_TaskID (tr_Task record)) in
  require negb (taskID =s? "") orelse ErrSnapshotCorrupt FaultTaskIDRequired;
  require bool_decide (tasks !! taskID = None) orelse ErrSnapshotCorrupt FaultDuplicateTask;
  match normalizeTask (tr_Task record) with
  | Err _ => fault FaultInvalidTask
  | Ok normalizedTask =>
      let record := record <| tr_Task := normalizedTask |> in
      _ ←ₑ validateTaskWorkspaceBinding (tr_Task record);
      let record := record <| tr_CurrentAttempt ::= TrimSpace |> in
      attempts ←ₑ restoreAttempts (tr_Task record) [] (tr_Attempts record);
      let record := record <| tr_Attempts := attempts |> in
      record ←ₑ restoreState record;
      _ ←ₑ checkBoundary rb record;
      Ok (<[taskID := cleanRecord record]> tasks)
  end.

Fixpoint restoreTasks (rb : RecoveryBoundaryConfig) (tasks : gmap string TaskRecord) (l : list TaskRecord)
  : result SchedulerError (gmap string TaskRecord) :=
  match l with
  | [] => Ok tasks
  | r :: l => tasks ←ₑ restoreTask rb tasks r; restoreTasks rb tasks l
  end.

(** ** Restore: the queue, the commits and the control operations *)

Fixpoint restoreQueue (tasks : gmap string TaskRecord) (seen : list string) (l : list string)
  : result SchedulerError (list string) :=
  match l with
  | [] => Ok []
  | x :: l =>
      let taskID := TrimSpace x in
      if taskID =s? "" then restoreQueue tasks seen l
      else match tasks !! taskID with
      | None => fault FaultQueueUnknownTask
      | Some record =>
          require bool_decide (tr_State record = TaskStateQueued) orelse ErrSnapshotCorrupt FaultQueueNotQueued;
          require negb (bool_decide (taskID ∈ seen)) orelse ErrSnapshotCorrupt FaultQueueDuplicate;
          rest ←ₑ restoreQueue tasks (taskID :: seen) l;
          Ok (taskID :: rest)
      end
  end.

Fixpoint restoreCommits (tasks : gmap string TaskRecord) (acc : gmap string TerminalCommit)
    (l : list TerminalCommit) : result SchedulerError (gmap string TerminalCommit) :=
  match l with
  | [] => Ok acc
  | commit :: l =>
      let taskID := TrimSpace (tc_TaskID commit) in
      let attemptID := TrimSpace (tc_AttemptID commit) in
      require negb ((taskID =s? "") || (attemptID =s? "")) orelse ErrSnapshotCorrupt FaultCommitKeyRequired;
      require bool_decide (tc_Status commit = TaskStateSucceeded \/ tc_Status commit = TaskStateFailed)
        orelse ErrSnapshotCorrupt FaultCommitStatus;
      let key := terminalCommitKey taskID attemptID in
      require bool_decide (acc !! key = None) orelse ErrSnapshotCorrupt FaultCommitDuplicate;
      let normalized := trimCommit commit in
      _ ←ₑ match tasks !! taskID with
           | Some record => validateTerminalWorkspaceBinding record normalized attemptID
           | None => Ok tt
           end;
      restoreCommits tasks (<[key := normalized]> acc) l
  end.

Fixpoint restoreControlOps (acc : gmap string TaskBoardControlResult) (l : list TaskBoardControlResult)
  : result SchedulerError (gmap string TaskBoardControlResult) :=
  match l with
  | [] => Ok acc
  | item :: l =>
      let opID := TrimSpace (co_OperationID item) in
      require negb (opID =s? "") orelse ErrSnapshotCorrupt FaultControlOpIDRequired;
      require bool_decide (acc !! opID = None) orelse ErrSnapshotCorrupt FaultControlDuplicate;
      let taskID := TrimSpace (co_TaskID item) in
      require negb (taskID =s? "") orelse ErrSnapshotCorrupt FaultControlTaskIDRequired;
      match normalizeTaskBoardControlAction (TaskBoardControlAction_string (co_Action item)) with
      | Err _ => fault FaultControlAction
      | Ok action =>
          let item := trimControlOp item <| co_Action := action |> in
          restoreControlOps (<[opID := item]> acc) l
      end
  end.

(** ** Restore *)

Definition firstNonEmpty (l : list string) (d : string) : string :=
  match filter (fun x => TrimSpace x <> "") l with
  | [] => d
  | x :: _ => TrimSpace x
  end.

Definition restoreStats (s : schedulerState) (sn : StoreSnapshot) : Stats :=
  let backend := firstNonEmpty [st_Backend (sn_Stats sn); sn_Backend sn; st_Backend (s_Stats s)] "memory" in
  let stats := sn_Stats sn <| st_Backend := backend |> in
  let stats := if TrimSpace (st_QoSMode stats) =s? ""
               then stats <| st_QoSMode := QoSMode_string (gv_QoS (s_governance s)) |> else stats in
  match sn_DelayedWaitMs sn with
  | [] => stats
  | samples => stats <| st_DelayedWaitMsP95 := percentileP95Int64 samples |>
  end.

(** On a fault the state is left as it was. *)
Definition restore (s : schedulerState) (sn : StoreSnapshot) : result SchedulerError schedulerState :=
  tasks ←ₑ restoreTasks (s_recoveryBoundary s) ∅ (sn_Tasks sn);
  queue ←ₑ restoreQueue tasks [] (sn_Queue sn);
  commits ←ₑ restoreCommits tasks ∅ (sn_TerminalCommits sn);
  ops ←ₑ restoreControlOps ∅ (sn_ControlOps sn);
  Ok (s <| s_Tasks := tasks |> <| s_Queue := queue |> <| s_TerminalCommits := commits |>
        <| s_ControlOps := ops |> <| s_DelayedWaitMs := sn_DelayedWaitMs sn |>
        <| s_Stats := restoreStats s sn |> <| s_lastPriority := "" |> <| s_lastConsecutive := 0 |>).
