(* ===== verification/SchedulerStore.v ===== *)
(** * Scheduler: the queue stores

    The [QueueStore] interface of [orchestration/scheduler] and its two
    implementations: the memory store ([store_memory.go]), which is the state
    machine behind a mutex, and the file store ([store_file.go]), which writes
    the state to a JSON file after mutations, at once or in batches. A mutex
    makes each operation one step. *)
From S2P Require Import Prelude GoStrings GoNum SchedulerTypes SchedulerState SchedulerSnapshot.

Local Open Scope bool_scope.
Local Open Scope string_scope.
Local Open Scope list_scope.
Local Open Scope Z_scope.

(** What an operation reads from its environment: two readings of [time.Now]
    (the second one for [time.Since]) and the failure of the file system calls,
    if they fail. *)
Record Env : Type := mkEnv {
  env_wall : Time;
  env_later : Time;
  env_io : option string
}.

Abbreviation outcome T A := (T * result SchedulerError A)%type.

(** ** The interface *)

Class QueueStore (T : Type) : Type := {
  SetGovernance : T -> GovernanceConfig -> T;
  SetRecoveryBoundary : T -> RecoveryBoundaryConfig -> T;
  SetAsyncAwait : T -> AsyncAwaitConfig -> T;
  SetTaskBoardControl : T -> TaskBoardControlConfig -> T;
  Backend : T -> string;
  Enqueue : Env -> T -> Task -> Time -> outcome T TaskRecord;
  Claim : Env -> T -> string -> Time -> Duration -> outcome T (option ClaimedTask);
  Heartbeat : Env -> T -> string -> string -> string -> Time -> Duration -> outcome T ClaimedTask;
  ControlTask : Env -> T -> TaskBoardControlRequest -> Time -> outcome T TaskBoardControlResult;
  ExpireLeases : Env -> T -> Time -> outcome T (list ClaimedTask);
  ExpireAwaitingReports : Env -> T -> Time -> outcome T (list ClaimedTask);
  MarkAwaitingReport : Env -> T -> string -> string -> string -> Time -> Duration -> outcome T TaskRecord;
  ListAwaitingReport : Env -> T -> Time -> Z -> result SchedulerError (list TaskRecord);
  RecordAsyncReconcileStats : Env -> T -> Z -> Z -> outcome T unit;
  Requeue : Env -> T -> string -> string -> Time -> outcome T TaskRecord;
  CommitTerminal : Env -> T -> TerminalCommit -> outcome T CommitResult;
  CommitAsyncReportTerminal : Env -> T -> TerminalCommit -> outcome T CommitResult;
  Get : T -> string -> option TaskRecord;
  StoreStats : T -> Stats;
  Snapshot : T -> StoreSnapshot;
  Restore : Env -> T -> StoreSnapshot -> outcome T unit
}.

(** ** The memory store *)

Record MemoryStore : Type := mkMemoryStore { ms_state : schedulerState }.

Definition NewMemoryStore : MemoryStore := mkMemoryStore (newSchedulerState "memory").

(** Runs an operation of the state machine under the lock. *)
Definition locked {A} (x : schedulerState * A) : MemoryStore * A := (mkMemoryStore x.1, x.2).

Definition restoreInto (s : schedulerState) (sn : StoreSnapshot) : schedulerState * result SchedulerError unit :=
  match restore s sn with
  | Ok s' => (s', Ok tt)
  | Err e => (s, Err e)
  end.

#[export] Instance MemoryStore_QueueStore : QueueStore MemoryStore := {|
  SetGovernance m cfg := mkMemoryStore (setGovernance (ms_state m) cfg);
  SetRecoveryBoundary m cfg := mkMemoryStore (setRecoveryBoundary (ms_state m) cfg);
  SetAsyncAwait m cfg := mkMemoryStore (setAsyncAwait (ms_state m) cfg);
  SetTaskBoardControl m cfg := mkMemoryStore (setTaskBoardControl (ms_state m) cfg);
  Backend _ := "memory";
  Enqueue e m task now := locked (enqueue (env_wall e) (ms_state m) task now);
  Claim e m w now d := locked (claim (env_wall e) (ms_state m) (TrimSpace w) now d);
  Heartbeat e m t a k now d := locked (heartbeat (env_wall e) (ms_state m) t a k now d);
  ControlTask e m req now := locked (controlTask (env_wall e) (ms_state m) req now);
  ExpireLeases e m now :=
    let '(s, l) := expireLeases (env_wall e) (ms_state m) now in (mkMemoryStore s, Ok l);
  ExpireAwaitingReports e m now :=
    let '(s, l) := expireAwaitingReports (env_wall e) (ms_state m) now in (mkMemoryStore s, Ok l);
  MarkAwaitingReport e m t a r now d := locked (markAwaitingReport (env_wall e) (ms_state m) t a r now d);
  ListAwaitingReport e m now limit := Ok (listAwaitingReport (env_wall e) (ms_state m) now limit);
  RecordAsyncReconcileStats _ m p er := (mkMemoryStore (recordAsyncReconcileStats (ms_state m) p er), Ok tt);
  Requeue e m t _ now := locked (requeue (env_wall e) (ms_state m) t now);
  CommitTerminal e m c := locked (commitTerminal (env_wall e) (ms_state m) c);
  CommitAsyncReportTerminal e m c := locked (commitAsyncReportTerminal (env_wall e) (ms_state m) c);
  Get m t := get (ms_state m) t;
  StoreStats m := snapshotStats (ms_state m);
  Snapshot m := snapshot (ms_state m);
  Restore _ m sn := locked (restoreInto (ms_state m) sn)
|}.

(** ** The file store *)

(** The exported fields of [schedulerState], which are what the file holds. *)
Record Document : Type := mkDocument {
  doc_Tasks : gmap string TaskRecord;
  doc_Queue : list string;
  doc_TerminalCommits : gmap string TerminalCommit;
  doc_ControlOps : gmap string TaskBoardControlResult;
  doc_DelayedWaitMs : list Z;
  doc_Stats : Stats
}.

(** [encoding/json] on documents: what is written, and what is read back. *)
Class DocumentCodec : Type := {
  doc_Marshal : Document -> string;
  doc_Unmarshal : string -> option Document
}.

Record fileStoreOptions : Type := mkFileStoreOptions {
  fo_PersistDebounce : Duration;
  fo_PersistBatchSize : Z
}.

Definition normalizeFileStoreOptions (opts : list (fileStoreOptions -> fileStoreOptions)) : fileStoreOptions :=
  let n := foldl (fun o f => f o) (mkFileStoreOptions 0 1) opts in
  mkFileStoreOptions
    (if fo_PersistDebounce n <? 0 then 0 else fo_PersistDebounce n)
    (if fo_PersistBatchSize n <=? 0 then 1 else fo_PersistBatchSize n).

Definition batchingEnabled (o : fileStoreOptions) : bool :=
  (0 <? fo_PersistDebounce o) || (1 <? fo_PersistBatchSize o).

(** [fs_file] is the content of the file at [path], absent at first. *)
Record FileStore : Type := mkFileStore {
  fs_state : schedulerState;
  fs_persistOpts : fileStoreOptions;
  fs_pendingPersist : Z;
  fs_dirtySince : Time;
  fs_file : option string
}.
#[export] Instance eta_FileStore : Settable FileStore := fun r =>
  mkFileStore (fs_state r) (fs_persistOpts r) (fs_pendingPersist r) (fs_dirtySince r) (fs_file r).

Section file_store.
Context `{DocumentCodec}.

Definition documentOf (s : schedulerState) : Document :=
  mkDocument (s_Tasks s) (s_Queue s) (s_TerminalCommits s) (s_ControlOps s) (s_DelayedWaitMs s)
    (s_Stats s).

(** The state [json.Unmarshal] fills over a new one. *)
Definition stateOf (d : Document) : schedulerState :=
  newSchedulerState "file"
    <| s_Tasks := doc_Tasks d |> <| s_Queue := doc_Queue d |>
    <| s_TerminalCommits := doc_TerminalCommits d |> <| s_ControlOps := doc_ControlOps d |>
    <| s_DelayedWaitMs := doc_DelayedWaitMs d |> <| s_Stats := doc_Stats d |>.

(** The file is replaced by renaming a complete temporary file: a failure
    leaves it as it was. *)
Definition persist (e : Env) (fs : FileStore) : FileStore * result SchedulerError unit :=
  match env_io e with
  | Some why => (fs, Err (ErrFileBackend why))
  | None => (fs <| fs_file := Some (doc_Marshal (documentOf (fs_state fs))) |>, Ok tt)
  end.

Definition flushPersistLocked (e : Env) (fs : FileStore) : FileStore * result SchedulerError unit :=
  if batchingEnabled (fs_persistOpts fs) && (fs_pendingPersist fs =? 0) then (fs, Ok tt)
  else match persist e fs with
  | (fs, Err er) => (fs, Err er)
  | (fs, Ok _) => (fs <| fs_pendingPersist := 0 |> <| fs_dirtySince := 0 |>, Ok tt)
  end.

Definition maybePersistLocked (e : Env) (force : bool) (fs : FileStore)
  : FileStore * result SchedulerError unit :=
  if negb (batchingEnabled (fs_persistOpts fs)) then persist e fs
  else
    let fs := fs <| fs_pendingPersist ::= Z.succ |> in
    let fs := if IsZero (fs_dirtySince fs) then fs <| fs_dirtySince := env_wall e |> else fs in
    if force then flushPersistLocked e fs
    else if fo_PersistBatchSize (fs_persistOpts fs) <=? fs_pendingPersist fs then flushPersistLocked e fs
    else if (0 <? fo_PersistDebounce (fs_persistOpts fs))
            && (fo_PersistDebounce (fs_persistOpts fs) <=? TimeSub (env_later e) (fs_dirtySince fs))
    then flushPersistLocked e fs
    else (fs, Ok tt).

(** An operation of the state machine, persisted when it succeeds. *)
Definition persisted {A} (e : Env) (force : bool) (fs : FileStore)
    (x : schedulerState * result SchedulerError A) : outcome FileStore A :=
  let fs := fs <| fs_state := x.1 |> in
  match x.2 with
  | Err er => (fs, Err er)
  | Ok a =>
      match maybePersistLocked e force fs with
      | (fs, Err er) => (fs, Err er)
      | (fs, Ok _) => (fs, Ok a)
      end
  end.

(** A sweep is persisted when it expired something. *)
Definition persistedSweep (e : Env) (fs : FileStore) (x : schedulerState * list ClaimedTask)
  : outcome FileStore (list ClaimedTask) :=
  match x.2 with
  | [] => (fs <| fs_state := x.1 |>, Ok [])
  | _ => persisted e false fs (x.1, Ok x.2)
  end.

Definition claimFile (e : Env) (fs : FileStore) (workerID : string) (now : Time) (lease : Duration)
  : outcome FileStore (option ClaimedTask) :=
  match claim (env_wall e) (fs_state fs) (TrimSpace workerID) now lease with
  | (s, Ok (Some ct)) => persisted e false fs (s, Ok (Some ct))
  | (s, r) => (fs <| fs_state := s |>, r)
  end.

Definition Flush (e : Env) (fs : FileStore) : outcome FileStore unit := flushPersistLocked e fs.

Definition load (e : Env) (fs : FileStore) : outcome FileStore unit :=
  match env_io e with
  | Some why => (fs, Err (ErrFileBackend why))
  | None =>
      match fs_file fs with
      | None => (fs, Ok tt)
      | Some raw =>
          match doc_Unmarshal raw with
          | None => (fs, Err (ErrFileBackend "decode scheduler file backend"))
          | Some d =>
              let sn := snapshot (stateOf d) in
              let sn := mkStoreSnapshot "file" (sn_Tasks sn) (sn_Queue sn) (sn_TerminalCommits sn)
                          (sn_ControlOps sn) (sn_DelayedWaitMs sn) (sn_Stats sn <| st_Backend := "file" |>) in
              match restore (fs_state fs) sn with
              | Ok s => (fs <| fs_state := s |>, Ok tt)
              | Err er => (fs, Err er)
              end
          end
      end
  end.

(** [file] is what the path holds when the store is opened. *)
Definition NewFileStore (e : Env) (path : string) (opts : list (fileStoreOptions -> fileStoreOptions))
    (file : option string) : result SchedulerError FileStore :=
  if TrimSpace path =s? "" then Err (ErrFileBackend "scheduler file backend path is required")
  else
    let fs := mkFileStore (newSchedulerState "file") (normalizeFileStoreOptions opts) 0 0 file in
    match load e fs with
    | (fs, Ok _) => Ok fs
    | (_, Err er) => Err er
    end.

#[export] Instance FileStore_QueueStore : QueueStore FileStore := {|
  SetGovernance fs cfg := fs <| fs_state ::= fun s => setGovernance s cfg |>;
  SetRecoveryBoundary fs cfg := fs <| fs_state ::= fun s => setRecoveryBoundary s cfg |>;
  SetAsyncAwait fs cfg := fs <| fs_state ::= fun s => setAsyncAwait s cfg |>;
  SetTaskBoardControl fs cfg := fs <| fs_state ::= fun s => setTaskBoardControl s cfg |>;
  Backend _ := "file";
  Enqueue e fs task now := persisted e false fs (enqueue (env_wall e) (fs_state fs) task now);
  Claim e fs w now d := claimFile e fs w now d;
  Heartbeat e fs t a k now d := persisted e false fs (heartbeat (env_wall e) (fs_state fs) t a k now d);
  ControlTask e fs req now := persisted e false fs (controlTask (env_wall e) (fs_state fs) req now);
  ExpireLeases e fs now := persistedSweep e fs (expireLeases (env_wall e) (fs_state fs) now);
  ExpireAwaitingReports e fs now :=
    persistedSweep e fs (expireAwaitingReports (env_wall e) (fs_state fs) now);
  MarkAwaitingReport e fs t a r now d :=
    persisted e false fs (markAwaitingReport (env_wall e) (fs_state fs) t a r now d);
  ListAwaitingReport e fs now limit := Ok (listAwaitingReport (env_wall e) (fs_state fs) now limit);
  RecordAsyncReconcileStats e fs p er :=
    if (p <=? 0) && (er <=? 0) then (fs, Ok tt)
    else persisted e false fs (recordAsyncReconcileStats (fs_state fs) p er, Ok tt);
  Requeue e fs t _ now := persisted e false fs (requeue (env_wall e) (fs_state fs) t now);
  CommitTerminal e fs c := persisted e false fs (commitTerminal (env_wall e) (fs_state fs) c);
  CommitAsyncReportTerminal e fs c :=
    persisted e false fs (commitAsyncReportTerminal (env_wall e) (fs_state fs) c);
  Get fs t := get (fs_state fs) t;
  StoreStats fs := snapshotStats (fs_state fs);
  Snapshot fs := snapshot (fs_state fs);
  Restore e fs sn := persisted e true fs (restoreInto (fs_state fs) sn)
|}.
End file_store.
