(* ===== verification/Scheduler.v ===== *)
(** * Scheduler: the facade

    [Scheduler] of [orchestration/scheduler/scheduler.go], over any
    [QueueStore]: its options, its operations with the timeline events they emit
    and the invalidation of the query cache. The query that reads the cache is in
    TaskBoardQuery. *)
From S2P Require Import Prelude GoStrings GoNum CoreTypes SchedulerTypes SchedulerState SchedulerStore.

Local Open Scope bool_scope.
Local Open Scope string_scope.
Local Open Scope list_scope.
Local Open Scope Z_scope.

(** ** The scheduler *)

Record Scheduler (T : Type) : Type := mkScheduler {
  sc_store : T;
  sc_leaseTimeout : Duration;
  sc_guardrails : Guardrails;
  sc_governance : GovernanceConfig;
  sc_asyncAwait : AsyncAwaitConfig;
  sc_taskBoardControl : TaskBoardControlConfig;
  sc_recoveryBoundary : RecoveryBoundaryConfig;
  sc_timeline : bool;
  sc_events : list Event;
  sc_seq : Z;
  sc_reconcileSeq : Z;
  sc_queryCacheEpoch : Z;
  sc_queryCache : gmap string (list TaskRecord)
}.
Arguments mkScheduler {T}.
Arguments sc_store {T}.
Arguments sc_leaseTimeout {T}.
Arguments sc_guardrails {T}.
Arguments sc_governance {T}.
Arguments sc_asyncAwait {T}.
Arguments sc_taskBoardControl {T}.
Arguments sc_recoveryBoundary {T}.
Arguments sc_timeline {T}.
Arguments sc_events {T}.
Arguments sc_seq {T}.
Arguments sc_reconcileSeq {T}.
Arguments sc_queryCacheEpoch {T}.
Arguments sc_queryCache {T}.
#[export] Instance eta_Scheduler {T} : Settable (Scheduler T) := fun r =>
  mkScheduler (sc_store r) (sc_leaseTimeout r) (sc_guardrails r) (sc_governance r) (sc_asyncAwait r)
    (sc_taskBoardControl r) (sc_recoveryBoundary r) (sc_timeline r) (sc_events r) (sc_seq r)
    (sc_reconcileSeq r) (sc_queryCacheEpoch r) (sc_queryCache r).

(** The errors of the facade beside those of the store. *)
Inductive FacadeError : Type :=
| ErrStore (e : SchedulerError)
| ErrBudget (code : BudgetRejectCode)
| ErrLeaseTimeout
| ErrCompleteRequiresSucceeded
| ErrFailRequiresFailed
| ErrPageSize (got : Z)
| ErrSortField (got : string)
| ErrSortOrder (got : string)
| ErrStateFilter (got : string)
| ErrTimeRange
| ErrQueryCursor.

(** The readings of [s.now]: [ck_now] by the operation itself, [ck_event n] while
    the event of sequence number [n] is built. *)
Record Clock : Type := mkClock {
  ck_now : Time;
  ck_event : Z -> Time;
  ck_env : Env
}.

Section scheduler.
Context {T : Type} `{QueueStore T}.
Implicit Types (s : Scheduler T) (ck : Clock).

Definition Option := Scheduler T -> Scheduler T.

Definition WithTimelineEmitter (present : bool) : Option := fun s => s <| sc_timeline := present |>.
Definition WithLeaseTimeout (timeout : Duration) : Option := fun s =>
  if 0 <? timeout then s <| sc_leaseTimeout := timeout |> else s.
Definition WithGuardrails (g : Guardrails) : Option := fun s => s <| sc_guardrails := g |>.
Definition WithGovernance (cfg : GovernanceConfig) : Option := fun s =>
  s <| sc_governance := normalizeGovernanceConfig cfg |>.
Definition WithRecoveryBoundary (cfg : RecoveryBoundaryConfig) : Option := fun s =>
  s <| sc_recoveryBoundary := normalizeRecoveryBoundaryConfig cfg |>.
Definition WithAsyncAwait (cfg : AsyncAwaitConfig) : Option := fun s =>
  s <| sc_asyncAwait := normalizeAsyncAwaitConfig cfg |>.
Definition WithTaskBoardControl (cfg : TaskBoardControlConfig) : Option := fun s =>
  s <| sc_taskBoardControl := normalizeTaskBoardControlConfig cfg |>.

Definition New (store : T) (opts : list Option) : result FacadeError (Scheduler T) :=
  let s := mkScheduler store (2 * Second) (mkGuardrails 0 0 0) defaultGovernanceConfig
             defaultAsyncAwaitConfig defaultTaskBoardControlConfig defaultRecoveryBoundaryConfig
             false [] 0 0 0 ∅ in
  let s := foldl (fun s opt => opt s) s opts in
  require 0 <? sc_leaseTimeout s orelse ErrLeaseTimeout;
  let s := s <| sc_governance ::= normalizeGovernanceConfig |>
             <| sc_asyncAwait ::= normalizeAsyncAwaitConfig |>
             <| sc_taskBoardControl ::= normalizeTaskBoardControlConfig |> in
  let store := SetGovernance (sc_store s) (sc_governance s) in
  let store := SetRecoveryBoundary store (sc_recoveryBoundary s) in
  let store := SetAsyncAwait store (sc_asyncAwait s) in
  let store := SetTaskBoardControl store (sc_taskBoardControl s) in
  Ok (s <| sc_store := store |>).

(** [payload[k] = v] when the trimmed [v] is not empty. *)
Definition putNonEmpty (k v : string) (m : any_map) : any_map :=
  let v := TrimSpace v in if v =s? "" then m else <[k := AnyString v]> m.

Definition timelinePayload (record : TaskRecord) (attempt : Attempt) (status : ActionStatus)
    (reason : string) (sequence : Z) (extras : any_map) : any_map :=
  let t := tr_Task record in
  let p : any_map :=
    <["phase" := AnyString "run"]> (<["status" := AnyString (ActionStatus_string status)]>
    (<["reason" := AnyString reason]> (<["sequence" := AnyInt sequence]>
    (<["task_id" := AnyString (tk_TaskID t)]> ∅)))) in
  let p := putNonEmpty "attempt_id" (at_AttemptID attempt) p in
  let p := putNonEmpty "run_id" (tk_RunID t) p in
  let p := putNonEmpty "workflow_id" (tk_WorkflowID t) p in
  let p := putNonEmpty "team_id" (tk_TeamID t) p in
  let p := putNonEmpty "step_id" (tk_StepID t) p in
  let p := putNonEmpty "agent_id" (tk_AgentID t) p in
  let p := putNonEmpty "peer_id" (tk_PeerID t) p in
  let p := putNonEmpty "parent_run_id" (tk_ParentRunID t) p in
  extras ∪ p.

Definition emitTimelineWithExtras ck (record : TaskRecord) (attempt : Attempt)
    (status : ActionStatus) (reason : string) (extras : any_map) s : Scheduler T :=
  if negb (sc_timeline s) then s
  else match CanonicalReason reason with
  | None => s
  | Some reason =>
      let s := s <| sc_seq := wrap_i64 (sc_seq s + 1) |> in
      let payload := timelinePayload record attempt status reason (sc_seq s) extras in
      s <| sc_events ::= fun l =>
             l ++ [mkEvent "v1" "action.timeline" (TrimSpace (tk_RunID (tr_Task record)))
                     (ck_event ck (sc_seq s)) payload] |>
  end.

Definition emitTimeline ck (record : TaskRecord) (attempt : Attempt) (status : ActionStatus)
    (reason : string) s : Scheduler T :=
  emitTimelineWithExtras ck record attempt status reason ∅ s.

Definition invalidateTaskBoardQueryCache s : Scheduler T :=
  s <| sc_queryCacheEpoch := wrap_u64 (sc_queryCacheEpoch s + 1) |> <| sc_queryCache := ∅ |>.

(** Runs a store operation, keeping its new state on every path. *)
Definition onStore {A} (s : Scheduler T) (x : outcome T A) : Scheduler T * result SchedulerError A :=
  (s <| sc_store := x.1 |>, x.2).

Abbreviation step A := (Scheduler T * result FacadeError A)%type.

Definition FacadeEnqueue ck s (task : Task) : step TaskRecord :=
  let now := ck_now ck in
  match onStore s (Enqueue (ck_env ck) (sc_store s) task now) with
  | (s, Err e) => (s, Err (ErrStore e))
  | (s, Ok record) =>
      let s := invalidateTaskBoardQueryCache s in
      let s := emitTimeline ck record zeroAttempt ActionStatusPending ReasonEnqueue s in
      let s :=
        if isTaskDelayed (tr_Task record) now then
          let remaining := Milliseconds (TimeSub (tk_NotBefore (tr_Task record)) now) in
          let remaining := if remaining <? 0 then 0 else remaining in
          let extras : any_map :=
            <["not_before_unix_ms" := AnyInt (UnixMilli (tk_NotBefore (tr_Task record)))]>
            (<["remaining_delay_ms" := AnyInt remaining]> ∅) in
          let s := emitTimelineWithExtras ck record zeroAttempt ActionStatusPending
                     ReasonDelayedEnqueue extras s in
          emitTimelineWithExtras ck record zeroAttempt ActionStatusPending ReasonDelayedWait extras s
        else s in
      (s, Ok record)
  end.

Definition rejectSpawn ck (code : BudgetRejectCode) (task : Task) s : step TaskRecord :=
  (emitTimeline ck (mkTaskRecord task (TaskStateOther "") [] "" 0 0 0 "" "" false 0 "" ∅ "" "" "" 0 0)
     zeroAttempt ActionStatusFailed ReasonBudgetReject s, Err (ErrBudget code)).

(** The child timeout clamped to the parent's budget, and its record. *)
Definition resolveChildTimeout (req : SpawnRequest) : SpawnRequest :=
  let req :=
    if sp_ParentRemainingBudget req <? sp_ChildTimeout req
    then req <| sp_ChildTimeout := sp_ParentRemainingBudget req |>
             <| sp_TimeoutResolution ::= fun tm => tm <| tm_ParentBudgetClamped := true |> |>
    else req in
  let req := req <| sp_TimeoutResolution ::= fun tm => tm
    <| tm_EffectiveOperationProfile ::= TrimSpace |>
    <| tm_Source ::= TrimSpace |>
    <| tm_Trace ::= TrimSpace |>
    <| tm_ResolvedTimeout := sp_ChildTimeout req |> |> in
  req <| sp_Task ::= fun t => t <| tk_TimeoutResolution := sp_TimeoutResolution req |> |>.

Definition SpawnChild ck s (req : SpawnRequest) : step TaskRecord :=
  if sp_ParentRemainingBudget req <=? 0
  then rejectSpawn ck BudgetRejectParentBudgetExhausted (sp_Task req) s
  else if sp_ChildTimeout req <=? 0 then rejectSpawn ck BudgetRejectTimeout (sp_Task req) s
  else
    let req := resolveChildTimeout req in
    match ValidateSpawn (sc_guardrails s) req with
    | Err code => rejectSpawn ck code (sp_Task req) s
    | Ok _ =>
        match FacadeEnqueue ck s (sp_Task req) with
        | (s, Err e) => (s, Err e)
        | (s, Ok record) => (emitTimeline ck record zeroAttempt ActionStatusPending ReasonSpawn s, Ok record)
        end
    end.

(** [qos_mode] and [task_priority]. *)
Definition qosExtras (s : Scheduler T) (ct : ClaimedTask) : any_map :=
  <["qos_mode" := AnyString (QoSMode_string (gv_QoS (sc_governance s)))]>
  (<["task_priority" := AnyString (normalizedPriority (ct_TaskPriority ct))]> ∅).

Definition FacadeClaim ck s (workerID : string) : step (option ClaimedTask) :=
  let now := ck_now ck in
  match onStore s (Claim (ck_env ck) (sc_store s) workerID now (sc_leaseTimeout s)) with
  | (s, Err e) => (s, Err (ErrStore e))
  | (s, Ok None) => (s, Ok None)
  | (s, Ok (Some ct)) =>
      let r := ct_Record ct in
      let a := ct_Attempt ct in
      let s := invalidateTaskBoardQueryCache s in
      let s :=
        if isTaskDelayed (tr_Task r) (tr_CreatedAt r) then
          let wait := Milliseconds (TimeSub now (tr_CreatedAt r)) in
          let wait := if wait <? 0 then 0 else wait in
          emitTimelineWithExtras ck r a ActionStatusPending ReasonDelayedReady
            (<["not_before_unix_ms" := AnyInt (UnixMilli (tk_NotBefore (tr_Task r)))]>
             (<["delayed_wait_ms" := AnyInt wait]> ∅)) s
        else s in
      let s := emitTimeline ck r a ActionStatusRunning ReasonClaim s in
      let s :=
        if bool_decide (gv_QoS (sc_governance s) = QoSModePriority) then
          let s := emitTimelineWithExtras ck r a ActionStatusRunning ReasonQoSClaim (qosExtras s ct) s in
          if ct_FairnessYielded ct then
            emitTimelineWithExtras ck r a ActionStatusPending ReasonFairnessYield
              (<["fairness_window" := AnyInt (gv_MaxConsecutiveClaimsPerPriority (sc_governance s))]>
               (<["fairness_yielded" := AnyBool true]> (qosExtras s ct))) s
          else s
        else s in
      (s, Ok (Some ct))
  end.

Definition FacadeHeartbeat ck s (taskID attemptID leaseToken : string) : step ClaimedTask :=
  match onStore s (Heartbeat (ck_env ck) (sc_store s) taskID attemptID leaseToken (ck_now ck)
                     (sc_leaseTimeout s)) with
  | (s, Err e) => (s, Err (ErrStore e))
  | (s, Ok ct) =>
      let s := invalidateTaskBoardQueryCache s in
      (emitTimeline ck (ct_Record ct) (ct_Attempt ct) ActionStatusRunning ReasonHeartbeat s, Ok ct)
  end.

Definition backoffExtras (r : TaskRecord) (now : Time) : any_map :=
  <["task_priority" := AnyString (normalizedPriority (tk_Priority (tr_Task r)))]>
  (<["backoff_ms" := AnyInt (Milliseconds (TimeSub (tr_NextEligibleAt r) now))]>
   (<["max_attempts" := AnyInt (tk_MaxAttempts (tr_Task r))]> ∅)).

Definition deadLetterExtras (r : TaskRecord) : any_map :=
  <["task_priority" := AnyString (normalizedPriority (tk_Priority (tr_Task r)))]>
  (<["dead_letter_code" := AnyString (TrimSpace (tr_DeadLetterCode r))]>
   (<["max_attempts" := AnyInt (tk_MaxAttempts (tr_Task r))]>
    (<["dead_letter_state" := AnyString (TaskState_string TaskStateDeadLetter)]>
     (<["retry_exhausted" := AnyBool true]>
      (<["retry_attempts" := AnyInt (Z.of_nat (length (tr_Attempts r)))]> ∅))))).

(** The events of a retry transition: the switch on the new state. *)
Definition emitRetry ck (now : Time) (r : TaskRecord) (a : Attempt) s : Scheduler T :=
  match tr_State r with
  | TaskStateQueued =>
      let s := emitTimeline ck r a ActionStatusPending ReasonRequeue s in
      if negb (IsZero (tr_NextEligibleAt r)) && After (tr_NextEligibleAt r) now
      then emitTimelineWithExtras ck r a ActionStatusPending ReasonRetryBackoff (backoffExtras r now) s
      else s
  | TaskStateDeadLetter =>
      emitTimelineWithExtras ck r a ActionStatusFailed ReasonDeadLetter (deadLetterExtras r) s
  | _ => s
  end.

Definition emitLeaseExpired ck (now : Time) s (item : ClaimedTask) : Scheduler T :=
  let s := emitTimeline ck (ct_Record item) (ct_Attempt item) ActionStatusFailed ReasonLeaseExpired s in
  emitRetry ck now (ct_Record item) (ct_Attempt item) s.

Definition emitReportExpired ck s (item : ClaimedTask) : Scheduler T :=
  let r := ct_Record item in
  let extras : any_map :=
    <["task_priority" := AnyString (normalizedPriority (tk_Priority (tr_Task r)))]>
    (<["timeout_terminal" := AnyString (TaskState_string (tr_State r))]> ∅) in
  let extras := if IsZero (tr_ReportTimeoutAt r) then extras
                else <["report_timeout_at_unix_ms" := AnyInt (UnixMilli (tr_ReportTimeoutAt r))]> extras in
  let s := emitTimelineWithExtras ck r (ct_Attempt item) ActionStatusFailed ReasonAsyncTimeout extras s in
  if bool_decide (tr_State r = TaskStateDeadLetter)
  then emitTimelineWithExtras ck r (ct_Attempt item) ActionStatusFailed ReasonDeadLetter
         (deadLetterExtras r) s
  else s.

Definition FacadeExpireLeases ck s : step (list ClaimedTask) :=
  let now := ck_now ck in
  match onStore s (ExpireLeases (ck_env ck) (sc_store s) now) with
  | (s, Err e) => (s, Err (ErrStore e))
  | (s, Ok expired) =>
      let s := foldl (emitLeaseExpired ck now) s expired in
      match onStore s (ExpireAwaitingReports (ck_env ck) (sc_store s) now) with
      | (s, Err e) => (s, Err (ErrStore e))
      | (s, Ok awaitingExpired) =>
          let s := foldl (emitReportExpired ck) s awaitingExpired in
          let expired := expired ++ awaitingExpired in
          let s := match expired with [] => s | _ => invalidateTaskBoardQueryCache s end in
          (s, Ok expired)
      end
  end.

Definition FacadeMarkAwaitingReport ck s (taskID attemptID : string) (remoteTaskID : list string)
  : step TaskRecord :=
  let remote := match remoteTaskID with [] => "" | r :: _ => TrimSpace r end in
  match onStore s (MarkAwaitingReport (ck_env ck) (sc_store s) taskID attemptID remote (ck_now ck)
                     (aa_ReportTimeout (sc_asyncAwait s))) with
  | (s, Err e) => (s, Err (ErrStore e))
  | (s, Ok record) =>
      let s := invalidateTaskBoardQueryCache s in
      let attempt := default zeroAttempt (attemptByID record (TrimSpace attemptID)) in
      let extras : any_map :=
        <["report_timeout_ms" := AnyInt (Milliseconds (aa_ReportTimeout (sc_asyncAwait s)))]> ∅ in
      let extras := if TrimSpace (tr_RemoteTaskID record) =s? "" then extras
                    else <["remote_task_id" := AnyString (TrimSpace (tr_RemoteTaskID record))]> extras in
      (emitTimelineWithExtras ck record attempt ActionStatusPending ReasonAwaitingReport extras s, Ok record)
  end.

Definition FacadeRequeue ck s (taskID reason : string) : step TaskRecord :=
  let now := ck_now ck in
  match onStore s (Requeue (ck_env ck) (sc_store s) taskID reason now) with
  | (s, Err e) => (s, Err (ErrStore e))
  | (s, Ok record) =>
      let s := invalidateTaskBoardQueryCache s in
      (emitRetry ck now record (latestAttempt record) s, Ok record)
  end.

Definition FacadeControlTask ck s (req : TaskBoardControlRequest) : step TaskBoardControlResult :=
  match onStore s (ControlTask (ck_env ck) (sc_store s) req (ck_now ck)) with
  | (s, Err e) => (s, Err (ErrStore e))
  | (s, Ok result) =>
      if negb (co_Applied result) || co_Deduplicated result then (s, Ok result)
      else
        let s := invalidateTaskBoardQueryCache s in
        let r := co_Record result in
        let s :=
          match co_Action result with
          | TaskBoardControlActionCancel =>
              emitTimeline ck r (latestAttempt r) ActionStatusCanceled ReasonManualCancel s
          | TaskBoardControlActionRetryTerminal =>
              emitTimeline ck r (latestAttempt r) ActionStatusPending ReasonManualRetry s
          | TaskBoardControlActionOther _ => s
          end in
        (s, Ok result)
  end.

(** The common tail of [Complete] and [Fail]. *)
Definition joinCommit ck s (commit : TerminalCommit) (status : ActionStatus) : step CommitResult :=
  match onStore s (CommitTerminal (ck_env ck) (sc_store s) commit) with
  | (s, Err e) => (s, Err (ErrStore e))
  | (s, Ok result) =>
      let s :=
        if cr_Duplicate result then s
        else
          let s := invalidateTaskBoardQueryCache s in
          let attempt := default zeroAttempt (attemptByID (cr_Record result) (tc_AttemptID commit)) in
          emitTimeline ck (cr_Record result) attempt status ReasonJoin s in
      (s, Ok result)
  end.

Definition Complete ck s (commit : TerminalCommit) : step CommitResult :=
  if negb (bool_decide (tc_Status commit = TaskStateSucceeded)) then (s, Err ErrCompleteRequiresSucceeded)
  else joinCommit ck s commit ActionStatusSucceeded.

Definition Fail ck s (commit : TerminalCommit) : step CommitResult :=
  if negb (bool_decide (tc_Status commit = TaskStateFailed)) then (s, Err ErrFailRequiresFailed)
  else joinCommit ck s commit ActionStatusFailed.

Definition FacadeCommitAsyncReportTerminal ck s (commit : TerminalCommit) : step CommitResult :=
  match onStore s (CommitAsyncReportTerminal (ck_env ck) (sc_store s) commit) with
  | (s, Err e) => (s, Err (ErrStore e))
  | (s, Ok result) =>
      if cr_LateReport result then (s, Ok result)
      else if cr_Duplicate result then (s, Ok result)
      else
        let s := invalidateTaskBoardQueryCache s in
        let attempt := default zeroAttempt (attemptByID (cr_Record result) (tc_AttemptID commit)) in
        let s :=
          match tc_Status commit with
          | TaskStateSucceeded =>
              emitTimeline ck (cr_Record result) attempt ActionStatusSucceeded ReasonJoin s
          | TaskStateFailed =>
              emitTimeline ck (cr_Record result) attempt ActionStatusFailed ReasonJoin s
          | _ => s
          end in
        (s, Ok result)
  end.

Definition FacadeRestore ck s (sn : StoreSnapshot) : step unit :=
  match onStore s (Restore (ck_env ck) (sc_store s) sn) with
  | (s, Err e) => (s, Err (ErrStore e))
  | (s, Ok _) => (invalidateTaskBoardQueryCache s, Ok tt)
  end.
End scheduler.
