(* ===== verification/TaskBoardQuery.v ===== *)
(** * Scheduler: the task-board query

    [QueryTasks] of [orchestration/scheduler/query.go]: normalisation of the
    request, filter, stable sort, pages with opaque cursors, and the cache of
    filtered records in [scheduler.go]. Sorting, cursors and pages are those of Paging. *)
From S2P Require Import Prelude GoStrings GoNum Paging SchedulerTypes SchedulerState.
From S2P Require Import SchedulerStore Scheduler.

Local Open Scope bool_scope.
Local Open Scope string_scope.
Local Open Scope list_scope.
Local Open Scope Z_scope.

Definition DefaultTaskBoardQueryPageSize : Z := 50.
Definition MaxTaskBoardQueryPageSize : Z := 200.

Record TaskBoardQueryTimeRange : Type := mkTimeRange {
  qt_Start : Time;
  qt_End : Time
}.

Record TaskBoardQueryRequest : Type := mkTaskBoardQueryRequest {
  qr_TaskID : string;
  qr_RunID : string;
  qr_WorkflowID : string;
  qr_TeamID : string;
  qr_State : string;
  qr_Priority : string;
  qr_AgentID : string;
  qr_PeerID : string;
  qr_ParentRunID : string;
  qr_TimeRange : option TaskBoardQueryTimeRange;
  qr_PageSize : option Z;
  qr_SortField : string;
  qr_SortOrder : string;
  qr_Cursor : string
}.
#[export] Instance eta_TaskBoardQueryRequest : Settable TaskBoardQueryRequest := fun r =>
  mkTaskBoardQueryRequest (qr_TaskID r) (qr_RunID r) (qr_WorkflowID r) (qr_TeamID r) (qr_State r)
    (qr_Priority r) (qr_AgentID r) (qr_PeerID r) (qr_ParentRunID r) (qr_TimeRange r) (qr_PageSize r)
    (qr_SortField r) (qr_SortOrder r) (qr_Cursor r).

Record TaskBoardQueryResult : Type := mkTaskBoardQueryResult {
  qo_Items : list TaskRecord;
  qo_NextCursor : string;
  qo_PageSize : Z;
  qo_SortField : string;
  qo_SortOrder : string
}.

Record normalizedTaskBoardQuery : Type := mkNormalizedQuery {
  nq_TaskID : string;
  nq_RunID : string;
  nq_WorkflowID : string;
  nq_TeamID : string;
  nq_State : string;
  nq_Priority : string;
  nq_AgentID : string;
  nq_PeerID : string;
  nq_ParentRunID : string;
  nq_TimeRange : option TaskBoardQueryTimeRange;
  nq_PageSize : Z;
  nq_SortField : string;
  nq_SortOrder : string;
  nq_Cursor : string
}.

(** ** Normalisation *)

Definition stateFilters : list string :=
  TaskState_string <$> [TaskStateQueued; TaskStateRunning; TaskStateAwaitingReport;
                        TaskStateSucceeded; TaskStateFailed; TaskStateDeadLetter].

Definition orDefault (d v : string) : string := if v =s? "" then d else v.

Definition normalizeTaskBoardQuery (req : TaskBoardQueryRequest)
  : result FacadeError normalizedTaskBoardQuery :=
  let sortField := orDefault "updated_at" (lower_trim (qr_SortField req)) in
  let sortOrder := orDefault "desc" (lower_trim (qr_SortOrder req)) in
  let state := lower_trim (qr_State req) in
  let pageSize := default DefaultTaskBoardQueryPageSize (qr_PageSize req) in
  require match qr_PageSize req with
          | Some p => negb ((p <=? 0) || (MaxTaskBoardQueryPageSize <? p))
          | None => true
          end orelse ErrPageSize pageSize;
  require (sortField =s? "updated_at") || (sortField =s? "created_at") orelse ErrSortField (qr_SortField req);
  require (sortOrder =s? "asc") || (sortOrder =s? "desc") orelse ErrSortOrder (qr_SortOrder req);
  require (state =s? "") || bool_decide (state ∈ stateFilters) orelse ErrStateFilter (qr_State req);
  require match qr_TimeRange req with
          | Some tr => negb (negb (IsZero (qt_Start tr)) && negb (IsZero (qt_End tr))
                             && After (qt_Start tr) (qt_End tr))
          | None => true
          end orelse ErrTimeRange;
  Ok (mkNormalizedQuery (TrimSpace (qr_TaskID req)) (TrimSpace (qr_RunID req))
        (TrimSpace (qr_WorkflowID req)) (TrimSpace (qr_TeamID req)) state
        (lower_trim (qr_Priority req)) (TrimSpace (qr_AgentID req)) (TrimSpace (qr_PeerID req))
        (TrimSpace (qr_ParentRunID req)) (qr_TimeRange req) pageSize sortField sortOrder
        (TrimSpace (qr_Cursor req))).

(** ** Filter *)

(** [q != "" && strings.TrimSpace(v) != q] does not hold. *)
Definition matchField (q v : string) : bool := (q =s? "") || (TrimSpace v =s? q).

Definition matchTimeRange (tr : option TaskBoardQueryTimeRange) (ts : Time) : bool :=
  match tr with
  | None => true
  | Some tr =>
      (IsZero (qt_Start tr) || negb (IsZero ts || Before ts (qt_Start tr)))
      && (IsZero (qt_End tr) || negb (IsZero ts || After ts (qt_End tr)))
  end.

Definition matchesTaskBoardQuery (record : TaskRecord) (q : normalizedTaskBoardQuery) : bool :=
  let t := tr_Task record in
  matchField (nq_TaskID q) (tk_TaskID t) && matchField (nq_RunID q) (tk_RunID t)
  && matchField (nq_WorkflowID q) (tk_WorkflowID t) && matchField (nq_TeamID q) (tk_TeamID t)
  && matchField (nq_State q) (TaskState_string (tr_State record))
  && ((nq_Priority q =s? "") || (normalizedPriority (tk_Priority t) =s? nq_Priority q))
  && matchField (nq_AgentID q) (tk_AgentID t) && matchField (nq_PeerID q) (tk_PeerID t)
  && matchField (nq_ParentRunID q) (tk_ParentRunID t)
  && matchTimeRange (nq_TimeRange q) (tr_UpdatedAt record).

(** ** Sort *)

Definition taskBoardSortTimestamp (record : TaskRecord) (field : string) : Time :=
  if lower_trim field =s? "created_at" then tr_CreatedAt record else tr_UpdatedAt record.

(** The comparison passed to [sort.SliceStable]. *)
Definition taskBoardLess (field order : string) (left right : TaskRecord) : bool :=
  let desc := negb (lower_trim order =s? "asc") in
  let l := taskBoardSortTimestamp left field in
  let r := taskBoardSortTimestamp right field in
  if TimeEqual l r then
    let lid := TrimSpace (tk_TaskID (tr_Task left)) in
    let rid := TrimSpace (tk_TaskID (tr_Task right)) in
    if lid =s? rid
    then str_ltb (TrimSpace (tk_RunID (tr_Task left))) (TrimSpace (tk_RunID (tr_Task right)))
    else str_ltb lid rid
  else if desc then After l r else Before l r.

Definition sortTaskBoardQuery (items : list TaskRecord) (field order : string) : list TaskRecord :=
  SliceStable (taskBoardLess field order) items.

Definition filterTaskBoardQueryRecords (records : list TaskRecord) (q : normalizedTaskBoardQuery)
  : list TaskRecord :=
  sortTaskBoardQuery (List.filter (fun r => matchesTaskBoardQuery r q) records)
    (nq_SortField q) (nq_SortOrder q).

Section query.
Context `{QueryCodec}.

Definition taskBoardQueryRaw (q : normalizedTaskBoardQuery) : string :=
  let instant (t : Time) := if IsZero t then 0 else UnixNano t in
  let start := match nq_TimeRange q with Some tr => instant (qt_Start tr) | None => 0 end in
  let end_ := match nq_TimeRange q with Some tr => instant (qt_End tr) | None => 0 end in
  String.concat "|"
    [nq_TaskID q; nq_RunID q; nq_WorkflowID q; nq_TeamID q; nq_State q; nq_Priority q; nq_AgentID q;
     nq_PeerID q; nq_ParentRunID q; itoa start; itoa end_; nq_SortField q; nq_SortOrder q;
     itoa (nq_PageSize q)].

Definition taskBoardQueryHash (q : normalizedTaskBoardQuery) : string := sha1Hex (taskBoardQueryRaw q).

Definition decodeTaskBoardCursor (cursor expectedHash : string) : result FacadeError Z :=
  match decodeCursor cursor expectedHash with
  | None => Err ErrQueryCursor
  | Some start => Ok start
  end.

Definition buildTaskBoardQueryResult (filtered : list TaskRecord) (q : normalizedTaskBoardQuery)
    (start : Z) (queryHash : string) : result FacadeError TaskBoardQueryResult :=
  match pageOf filtered start (nq_PageSize q) queryHash with
  | None => Err ErrQueryCursor
  | Some (items, nextCursor) =>
      Ok (mkTaskBoardQueryResult items nextCursor (nq_PageSize q) (nq_SortField q) (nq_SortOrder q))
  end.

(** ** The cached query *)

Context {T : Type} `{QueueStore T}.

Definition readTaskBoardQueryCache (s : Scheduler T) (epoch : Z) (key : string) : option (list TaskRecord) :=
  if TrimSpace key =s? "" then None
  else if negb (sc_queryCacheEpoch s =? epoch) then None
  else sc_queryCache s !! key.

Definition writeTaskBoardQueryCache (s : Scheduler T) (epoch : Z) (key : string)
    (items : list TaskRecord) : Scheduler T :=
  if TrimSpace key =s? "" then s
  else if negb (sc_queryCacheEpoch s =? epoch) then s
  else
    let cache := if (32 <=? Z.of_nat (size (sc_queryCache s))) then ∅ else sc_queryCache s in
    s <| sc_queryCache := <[key := items]> cache |>.

Definition QueryTasks (s : Scheduler T) (req : TaskBoardQueryRequest)
  : Scheduler T * result FacadeError TaskBoardQueryResult :=
  match normalizeTaskBoardQuery req with
  | Err e => (s, Err e)
  | Ok q =>
      let queryHash := taskBoardQueryHash q in
      match decodeTaskBoardCursor (nq_Cursor q) queryHash with
      | Err e => (s, Err e)
      | Ok start =>
          let epoch := sc_queryCacheEpoch s in
          match readTaskBoardQueryCache s epoch queryHash with
          | Some filtered => (s, buildTaskBoardQueryResult filtered q start queryHash)
          | None =>
              let filtered := filterTaskBoardQueryRecords (sn_Tasks (Snapshot (sc_store s))) q in
              (writeTaskBoardQueryCache s epoch queryHash filtered,
               buildTaskBoardQueryResult filtered q start queryHash)
          end
      end
  end.
End query.
