(* ===== verification/SchedulerSelect.v ===== *)
(** * Scheduler: which task a claim takes

    [nextClaimableIndex] scans the queue once, remembering the first claimable
    task and the first one of each priority. Here it is shown equal to its
    specification [selectSpec], written with searches of the queue: first in,
    first out, or the highest priority that has a claimable task, with one
    yield to the next priority when the fairness threshold is reached. *)
From S2P Require Import Prelude GoStrings GoNum SchedulerTypes SchedulerState.

Local Open Scope bool_scope.
Local Open Scope string_scope.
Local Open Scope list_scope.
Local Open Scope Z_scope.

(** The priority at which the queue entry [id] can be claimed now. *)
Definition claimPriority (tasks : gmap string TaskRecord) (now : Time) (id : string) : option string :=
  match tasks !! TrimSpace id with
  | Some r => if isClaimableRecord (Some r) now then Some (normalizedPriority (tk_Priority (tr_Task r)))
              else None
  | None => None
  end.

(** The first queue index whose entry satisfies [p]. *)
Definition firstIndex (p : string -> bool) (queue : list string) : option nat :=
  fst <$> list_find (fun id => p id = true) queue.

Definition claimableEntry (tasks : gmap string TaskRecord) (now : Time) (id : string) : bool :=
  bool_decide (is_Some (claimPriority tasks now id)).

Definition entryOf (tasks : gmap string TaskRecord) (now : Time) (p id : string) : bool :=
  bool_decide (claimPriority tasks now id = Some p).

(** The priorities that have a claimable task, highest first, with the index of
    its first entry. *)
Definition offers (tasks : gmap string TaskRecord) (now : Time) (queue : list string)
  : list (string * nat) :=
  omap (fun p => (fun i => (p, i)) <$> firstIndex (entryOf tasks now p) queue) priorityOrder.

(** The last [MaxConsecutiveClaimsPerPriority] claims all had priority [p]. *)
Definition turnUsedUp (s : schedulerState) (p : string) : bool :=
  let threshold := gv_MaxConsecutiveClaimsPerPriority (s_governance s) in
  (0 <? threshold) && (s_lastPriority s =s? p) && (threshold <=? s_lastConsecutive s).

Definition selectSpec (s : schedulerState) (now : Time) : option (nat * bool) :=
  if bool_decide (gv_QoS (s_governance s) = QoSModePriority) then
    match offers (s_Tasks s) now (s_Queue s) with
    | [] => None
    | (p, i) :: others =>
        match turnUsedUp s p, others with
        | true, (_, j) :: _ => Some (j, true)
        | _, _ => Some (i, false)
        end
    end
  else (fun i => (i, false)) <$> firstIndex (claimableEntry (s_Tasks s) now) (s_Queue s).

(** ** Searching the queue *)

Lemma firstIndex_cons p id queue :
  firstIndex p (id :: queue) = if p id then Some 0%nat else S <$> firstIndex p queue.
Proof.
  unfold firstIndex. cbn. case_decide as Hp; [by rewrite Hp|].
  apply not_true_is_false in Hp. rewrite Hp. by destruct (list_find _ queue) as [[]|].
Qed.

Lemma firstIndex_Some p queue i :
  firstIndex p queue = Some i <->
  exists id, queue !! i = Some id /\ p id = true
             /\ forall j x, queue !! j = Some x -> (j < i)%nat -> p x = false.
Proof.
  unfold firstIndex. rewrite fmap_Some. split.
  - intros ([j id] & H & ->). apply list_find_Some in H as (Hi & Hp & Hmin).
    exists id. split_and!; auto. intros k x Hk Hlt. apply not_true_is_false. by eapply Hmin.
  - intros (id & Hi & Hp & Hmin). exists (i, id). split; [|done].
    apply list_find_Some. split_and!; auto. intros j y Hj Hlt. by erewrite Hmin.
Qed.

Lemma firstIndex_None p queue :
  firstIndex p queue = None <-> Forall (fun id => p id = false) queue.
Proof.
  unfold firstIndex. rewrite fmap_None, list_find_None, !Forall_forall.
  split; intros H x Hx; specialize (H x Hx); [by apply not_true_is_false|by rewrite H].
Qed.

(** ** The scan *)

Definition orElse {A} (x y : option A) : option A := match x with Some a => Some a | None => y end.

Lemma scanQueue_spec tasks now queue : forall idx fe bp,
  (scanQueue tasks now idx queue fe bp).1
    = orElse fe (Nat.add idx <$> firstIndex (claimableEntry tasks now) queue)
  /\ forall p, (scanQueue tasks now idx queue fe bp).2 !! p
      = orElse (bp !! p) (Nat.add idx <$> firstIndex (entryOf tasks now p) queue).
Proof.
  induction queue as [|id queue IH]; intros idx fe bp.
  { cbn. split; [by destruct fe | intros p; by destruct (bp !! p)]. }
  cbn [scanQueue]. rewrite firstIndex_cons.
  assert (Hshift : forall f, Nat.add (S idx) <$> firstIndex f queue
                             = Nat.add idx <$> (S <$> firstIndex f queue)).
  { intros f. destruct (firstIndex f queue); cbn; [f_equal; lia|done]. }
  assert (Hskip : claimPriority tasks now id = None ->
    orElse fe (Nat.add (S idx) <$> firstIndex (claimableEntry tasks now) queue)
      = orElse fe (Nat.add idx <$> (if claimableEntry tasks now id then Some 0%nat
                                    else S <$> firstIndex (claimableEntry tasks now) queue))
    /\ forall p, orElse (bp !! p) (Nat.add (S idx) <$> firstIndex (entryOf tasks now p) queue)
      = orElse (bp !! p) (Nat.add idx <$> firstIndex (entryOf tasks now p) (id :: queue))).
  { intros Hn. split; [unfold claimableEntry at 2; rewrite Hn; by rewrite Hshift|]. intros p. rewrite firstIndex_cons.
    unfold entryOf at 2. rewrite Hn. cbn. by rewrite Hshift. }
  destruct (tasks !! TrimSpace id) as [r|] eqn:Hr.
  2: { specialize (IH (S idx) fe bp) as [-> IH2].
       destruct Hskip as [-> Hs2]; [unfold claimPriority; by rewrite Hr|].
       split; [done|]. intros p. by rewrite IH2, Hs2. }
  destruct (isClaimableRecord (Some r) now) eqn:Hc.
  2: { specialize (IH (S idx) fe bp) as [-> IH2].
       destruct Hskip as [-> Hs2]; [unfold claimPriority; by rewrite Hr, Hc|].
       split; [done|]. intros p. by rewrite IH2, Hs2. }
  set (pr := normalizedPriority (tk_Priority (tr_Task r))).
  destruct (IH (S idx) (match fe with Some i => Some i | None => Some idx end)
              (match bp !! pr with Some _ => bp | None => <[pr := idx]> bp end)) as [-> IH2].
  assert (claimableEntry tasks now id = true) as ->.
  { unfold claimableEntry, claimPriority. by rewrite Hr, Hc. }
  split.
  - destruct fe; cbn; [done|]. by rewrite Nat.add_0_r.
  - intros p. rewrite IH2, firstIndex_cons. unfold entryOf at 2, claimPriority.
    rewrite Hr, Hc. fold pr.
    destruct (decide (pr = p)) as [<-|Hne].
    + rewrite bool_decide_true by done. cbn. rewrite Nat.add_0_r.
      destruct (bp !! pr) eqn:Hb; [by rewrite Hb | by rewrite lookup_insert_eq].
    + rewrite bool_decide_false by congruence. rewrite Hshift.
      destruct (bp !! pr) eqn:Hb; [done | by rewrite lookup_insert_ne].
Qed.

(** The scan of the whole queue. *)
Lemma scanQueue_whole tasks now queue :
  exists bp, scanQueue tasks now 0 queue None ∅ = (firstIndex (claimableEntry tasks now) queue, bp)
    /\ forall p, bp !! p = firstIndex (entryOf tasks now p) queue.
Proof.
  destruct (scanQueue_spec tasks now queue 0 None ∅) as [H1 H2].
  destruct (scanQueue tasks now 0 queue None ∅) as [fe bp]. cbn in *.
  exists bp. assert (Hid : forall o : option nat, Nat.add 0 <$> o = o) by (by intros []).
  split; [by rewrite H1, Hid|]. intros p. by rewrite H2, lookup_empty, Hid.
Qed.

Lemma normalizedPriority_order p : normalizedPriority p ∈ priorityOrder.
Proof. unfold normalizedPriority, priorityOrder. repeat case_match; set_solver. Qed.

Lemma firstPresent_offers tasks now queue bp l :
  (forall p, bp !! p = firstIndex (entryOf tasks now p) queue) ->
  firstPresent bp l
  = head (omap (fun p => (fun i => (p, i)) <$> firstIndex (entryOf tasks now p) queue) l).
Proof.
  intros Hbp. induction l as [|p l IH]; cbn; [done|]. rewrite Hbp.
  by destruct (firstIndex (entryOf tasks now p) queue).
Qed.

(** Some priority is offered exactly when some entry is claimable. *)
Lemma offers_nil tasks now queue :
  offers tasks now queue = [] <-> firstIndex (claimableEntry tasks now) queue = None.
Proof.
  rewrite firstIndex_None. split.
  - intros H. apply Forall_forall. intros id Hid. apply not_true_is_false.
    unfold claimableEntry. intros [p Hp]%bool_decide_eq_true_1.
    assert (Hin : p ∈ priorityOrder).
    { unfold claimPriority in Hp. repeat case_match; simplify_eq. apply normalizedPriority_order. }
    destruct (firstIndex (entryOf tasks now p) queue) as [i|] eqn:Hf.
    + assert (Ho : (p, i) ∈ offers tasks now queue).
      { apply list_elem_of_omap. exists p. by rewrite Hf. }
      rewrite H in Ho. set_solver.
    + apply firstIndex_None in Hf. rewrite Forall_forall in Hf. specialize (Hf _ Hid).
      unfold entryOf in Hf. by apply bool_decide_eq_false in Hf.
  - intros HF. destruct (offers tasks now queue) as [|[p i] l] eqn:Ho; [done|].
    assert (Hin : (p, i) ∈ offers tasks now queue) by (rewrite Ho; set_solver).
    apply list_elem_of_omap in Hin as (p' & _ & Hp'). apply fmap_Some in Hp' as (i' & Hf & [= <- <-]).
    apply firstIndex_Some in Hf as (id & Hi & Hp & _). apply list_elem_of_lookup_2 in Hi.
    rewrite Forall_forall in HF. specialize (HF _ Hi). unfold claimableEntry in HF.
    apply bool_decide_eq_false in HF. apply bool_decide_eq_true in Hp. rewrite Hp in HF. by destruct HF.
Qed.

Lemma filter_high : filter (fun p => p <> TaskPriorityHigh) priorityOrder = [TaskPriorityNormal; TaskPriorityLow].
Proof. reflexivity. Qed.
Lemma filter_normal : filter (fun p => p <> TaskPriorityNormal) priorityOrder = [TaskPriorityHigh; TaskPriorityLow].
Proof. reflexivity. Qed.
Lemma filter_low : filter (fun p => p <> TaskPriorityLow) priorityOrder = [TaskPriorityHigh; TaskPriorityNormal].
Proof. reflexivity. Qed.

Lemma nextClaimableIndex_select s now : nextClaimableIndex s now = selectSpec s now.
Proof.
  unfold nextClaimableIndex, selectSpec.
  destruct (scanQueue_whole (s_Tasks s) now (s_Queue s)) as (bp & -> & Hbp).
  pose proof (offers_nil (s_Tasks s) now (s_Queue s)) as Hnil.
  destruct (firstIndex (claimableEntry _ _) _) as [fe|] eqn:Hfe.
  2: { destruct Hnil as [_ Hnil]. rewrite Hnil by done. by case_bool_decide. }
  case_bool_decide as Hq; cbn [negb]; [|done].
  rewrite (firstPresent_offers _ _ _ _ _ Hbp). fold (offers (s_Tasks s) now (s_Queue s)).
  destruct (offers (s_Tasks s) now (s_Queue s)) as [|[p i] others] eqn:Ho.
  { destruct Hnil as [Hnil _]. by specialize (Hnil eq_refl). }
  cbn [head]. fold (turnUsedUp s p). destruct (turnUsedUp s p); [|done].
  rewrite (firstPresent_offers _ _ _ _ _ Hbp).
  unfold offers, priorityOrder in Ho. cbn in Ho.
  destruct (firstIndex (entryOf _ _ TaskPriorityHigh) _) as [h|] eqn:Hh;
    [|destruct (firstIndex (entryOf _ _ TaskPriorityNormal) _) as [n|] eqn:Hn;
      [|destruct (firstIndex (entryOf _ _ TaskPriorityLow) _) as [l|] eqn:Hl; [|done]]];
    cbn in Ho; simplify_eq; rewrite ?filter_high, ?filter_normal, ?filter_low; cbn; rewrite ?Hh, ?Hn, ?Hl.
  - by destruct (firstIndex (entryOf _ _ TaskPriorityNormal) _), (firstIndex (entryOf _ _ TaskPriorityLow) _).
  - by destruct (firstIndex (entryOf _ _ TaskPriorityLow) _).
  - done.
Qed.

(** Every offer is a claimable entry. *)
Lemma offers_claimable tasks now queue p i :
  (p, i) ∈ offers tasks now queue ->
  exists id, queue !! i = Some id /\ claimPriority tasks now id = Some p
             /\ forall j x, queue !! j = Some x -> (j < i)%nat -> claimPriority tasks now x <> Some p.
Proof.
  intros (p' & _ & Hp')%list_elem_of_omap. apply fmap_Some in Hp' as (i' & Hf & [= <- <-]).
  apply firstIndex_Some in Hf as (id & Hi & Hp & Hmin). exists id.
  apply bool_decide_eq_true in Hp. split_and!; auto.
  intros j x Hj Hlt. specialize (Hmin _ _ Hj Hlt). by apply bool_decide_eq_false in Hmin.
Qed.

Lemma selectSpec_claimable s now i y :
  selectSpec s now = Some (i, y) ->
  exists id, s_Queue s !! i = Some id /\ is_Some (claimPriority (s_Tasks s) now id).
Proof.
  unfold selectSpec. case_bool_decide.
  - destruct (offers _ _ _) as [|[p k] others] eqn:Ho; [done|]. intros Hs.
    assert (Hin : exists p', (p', i) ∈ offers (s_Tasks s) now (s_Queue s)).
    { rewrite Ho. destruct (turnUsedUp s p), others as [|[p' j] ?]; simplify_eq; set_solver. }
    destruct Hin as (p' & Hin). apply offers_claimable in Hin as (id & ? & Hc & _).
    exists id. rewrite Hc. eauto.
  - intros (k & Hf & [= -> ->])%fmap_Some. apply firstIndex_Some in Hf as (id & ? & Hc & _).
    exists id. apply bool_decide_eq_true in Hc. auto.
Qed.

Lemma claimPriority_record tasks now id :
  is_Some (claimPriority tasks now id) <->
  exists r, tasks !! TrimSpace id = Some r /\ isClaimableRecord (Some r) now = true.
Proof.
  unfold claimPriority. destruct (tasks !! TrimSpace id) as [r|]; [|split; [by intros []|by intros (?&?&?)]].
  destruct (isClaimableRecord _ _) eqn:E; [split; eauto|].
  split; [by intros [] | intros (?&?&?); congruence].
Qed.

(** The scan misses no claimable entry. *)
Lemma selectSpec_None s now :
  selectSpec s now = None <-> Forall (fun id => claimPriority (s_Tasks s) now id = None) (s_Queue s).
Proof.
  assert (HF : firstIndex (claimableEntry (s_Tasks s) now) (s_Queue s) = None
    <-> Forall (fun id => claimPriority (s_Tasks s) now id = None) (s_Queue s)).
  { rewrite firstIndex_None, !Forall_forall. unfold claimableEntry.
    split; intros H x Hx; specialize (H x Hx).
    - apply bool_decide_eq_false in H. by apply eq_None_not_Some.
    - apply bool_decide_eq_false. by apply eq_None_not_Some. }
  rewrite <- HF. unfold selectSpec. case_bool_decide; [|by rewrite fmap_None].
  rewrite <- offers_nil. destruct (offers _ _ _) as [|[p i] [|[]]]; [done| |];
    destruct (turnUsedUp s p); done.
Qed.

(** ** Order and fairness of the selection *)

Definition priorityRank (p : string) : nat :=
  if p =s? TaskPriorityHigh then 0%nat else if p =s? TaskPriorityNormal then 1%nat else 2%nat.

(** The offer of a priority is its first claimable entry. *)
Lemma offer_of tasks now queue j x p :
  queue !! j = Some x -> claimPriority tasks now x = Some p ->
  exists i, (p, i) ∈ offers tasks now queue /\ (i <= j)%nat.
Proof.
  intros Hj Hp.
  assert (Hin : p ∈ priorityOrder).
  { unfold claimPriority in Hp. repeat case_match; simplify_eq. apply normalizedPriority_order. }
  destruct (firstIndex (entryOf tasks now p) queue) as [i|] eqn:Hf.
  - exists i. split.
    + apply list_elem_of_omap. exists p. by rewrite Hf.
    + apply firstIndex_Some in Hf as (id & _ & _ & Hmin). apply Nat.nlt_ge. intros Hlt.
      specialize (Hmin _ _ Hj Hlt). apply bool_decide_eq_false in Hmin. done.
  - apply firstIndex_None in Hf. rewrite Forall_forall in Hf.
    specialize (Hf x ltac:(by eapply list_elem_of_lookup_2)). by apply bool_decide_eq_false in Hf.
Qed.

(** Offers come by decreasing priority, one per priority. *)
Lemma offers_sorted tasks now queue p i others :
  offers tasks now queue = (p, i) :: others ->
  Forall (fun o => priorityRank p < priorityRank o.1)%nat others.
Proof.
  unfold offers, priorityOrder. cbn.
  destruct (firstIndex (entryOf _ _ TaskPriorityHigh) _), (firstIndex (entryOf _ _ TaskPriorityNormal) _),
    (firstIndex (entryOf _ _ TaskPriorityLow) _); cbn; intros [= <- <- <-];
    repeat constructor; unfold priorityRank; cbn; lia.
Qed.

Lemma selectSpec_fifo s now i y :
  gv_QoS (s_governance s) <> QoSModePriority -> selectSpec s now = Some (i, y) ->
  forall j x, s_Queue s !! j = Some x -> (j < i)%nat -> claimPriority (s_Tasks s) now x = None.
Proof.
  intros Hq. unfold selectSpec. rewrite bool_decide_false by done.
  intros (k & Hf & [= -> ->])%fmap_Some. apply firstIndex_Some in Hf as (id & _ & _ & Hmin).
  intros j x Hj Hlt. specialize (Hmin j x Hj Hlt). apply bool_decide_eq_false in Hmin.
  by apply eq_None_not_Some.
Qed.

Lemma selectSpec_priority s now i y id p :
  gv_QoS (s_governance s) = QoSModePriority -> selectSpec s now = Some (i, y) ->
  s_Queue s !! i = Some id -> claimPriority (s_Tasks s) now id = Some p ->
  forall j x p', s_Queue s !! j = Some x -> claimPriority (s_Tasks s) now x = Some p' ->
    (p' = p -> (i <= j)%nat)
    /\ (y = false -> (priorityRank p <= priorityRank p')%nat /\ (turnUsedUp s p = true -> p' = p))
    /\ (y = true -> turnUsedUp s p = false /\ exists p0, turnUsedUp s p0 = true /\ (priorityRank p0 < priorityRank p)%nat).
Proof.
  intros Hq Hsel Hi Hp j x p' Hj Hp'. unfold selectSpec in Hsel. rewrite bool_decide_true in Hsel by done.
  assert (Huniq : forall pa ia, (pa, ia) ∈ offers (s_Tasks s) now (s_Queue s) -> ia = i -> pa = p).
  { intros pa ia Hin ->. apply offers_claimable in Hin as (id' & Hi' & Hc & _). congruence. }
  assert (Hfun : forall pa ia ib, (pa, ia) ∈ offers (s_Tasks s) now (s_Queue s) ->
            (pa, ib) ∈ offers (s_Tasks s) now (s_Queue s) -> ia = ib).
  { intros pa ia ib (? & _ & E1)%list_elem_of_omap (? & _ & E2)%list_elem_of_omap.
    apply fmap_Some in E1 as (? & E1 & [= -> ->]), E2 as (? & E2 & [= <- ->]). congruence. }
  destruct (offer_of _ _ _ _ _ _ Hj Hp') as (i' & Hin' & Hle).
  destruct (offers (s_Tasks s) now (s_Queue s)) as [|[p1 i1] others] eqn:Ho; [done|].
  pose proof (offers_sorted _ _ _ _ _ _ Ho) as Hsort. rewrite Forall_forall in Hsort.
  assert (Hrank : forall pa ia, (pa, ia) ∈ (p1, i1) :: others -> (priorityRank p1 <= priorityRank pa)%nat).
  { intros pa ia [[= -> ->]|Hin]%elem_of_cons; [lia|]. specialize (Hsort _ Hin). cbn in Hsort. lia. }
  destruct (turnUsedUp s p1) eqn:Hturn; [destruct others as [|[p2 i2] rest]|];
    injection Hsel as <- <-.
  - assert (p1 = p) as -> by (apply (Huniq p1 i1); [set_solver|done]).
    apply list_elem_of_singleton in Hin'. simplify_eq. split_and!; [lia | auto | done].
  - assert (p2 = p) as -> by (apply (Huniq p2 i2); [set_solver|done]).
    assert (Hlt : (priorityRank p1 < priorityRank p)%nat) by (specialize (Hsort (p, i2) ltac:(set_solver)); done).
    split_and!; [|done|].
    + intros ->. assert (i' = i2) as -> by (apply (Hfun p); [done|set_solver]). lia.
    + intros _. split; [|by eauto]. unfold turnUsedUp in Hturn |- *.
      destruct (str_eqb_spec (s_lastPriority s) p1); [|by rewrite andb_false_r in Hturn].
      destruct (str_eqb_spec (s_lastPriority s) p); [|by rewrite andb_false_r].
      assert (p1 = p) as -> by congruence. lia.
  - assert (p1 = p) as -> by (apply (Huniq p1 i1); [set_solver|done]).
    split_and!; [|intros _; split; [eauto | congruence] | done].
    intros ->. assert (i' = i1) as -> by (apply (Hfun p); [done|set_solver]). lia.
Qed.
