(* ===== verification/SchedulerBoard.v ===== *)
(** * Scheduler: the task board

    What the scheduler promises, without leases, statistics, priorities or
    configuration: a board holds the task records, the queue and the terminal
    commits, and moves by the rules of [board_step]. [record_wf] and [board_inv]
    are the invariants of the records and of the board; every rule preserves
    them. [SchedulerRefine] shows that the operations of [state.go] only move
    the board by these rules. *)
From S2P Require Import Prelude GoStrings GoNum SchedulerTypes SchedulerState.

Local Open Scope bool_scope.
Local Open Scope string_scope.
Local Open Scope list_scope.
Local Open Scope Z_scope.

(** ** Well-formed records *)

(** The [n]th attempt (from 0) of task [task], minted by [claim]. *)
Record attempt_wf (task : Task) (n : nat) (a : Attempt) : Prop := {
  aw_id : at_AttemptID a = minted (tk_TaskID task) "-attempt-" (Z.of_nat n + 1);
  aw_number : at_Attempt a = Z.of_nat n + 1;
  aw_worker : TrimSpace (at_WorkerID a) = at_WorkerID a;
  aw_lease : TrimSpace (at_LeaseToken a) = at_LeaseToken a;
  aw_workspace : at_WorkspaceProvenance a = tk_WorkspaceProvenance task
}.

Definition attempts_wf (task : Task) (l : list Attempt) : Prop :=
  forall n a, l !! n = Some a -> attempt_wf task n a.

Definition not_running (a : Attempt) : Prop := at_Status a <> AttemptStatusRunning.

(** An attempt that ended by a terminal commit. *)
Definition closed (a : Attempt) : Prop :=
  at_Status a = AttemptStatusSucceeded \/ at_Status a = AttemptStatusFailed.

(** One attempt is running, it is the last one and the current one. *)
Definition live (r : TaskRecord) : Prop :=
  exists l c, tr_Attempts r = l ++ [c] /\ tr_CurrentAttempt r = at_AttemptID c
              /\ at_Status c = AttemptStatusRunning /\ Forall not_running l.

(** No attempt is running and none is current. *)
Definition idle (r : TaskRecord) : Prop :=
  tr_CurrentAttempt r = "" /\ Forall not_running (tr_Attempts r).

Definition terminal (st : TaskState) : Prop :=
  st = TaskStateSucceeded \/ st = TaskStateFailed \/ st = TaskStateDeadLetter.

#[export] Instance terminal_dec st : Decision (terminal st).
Proof. unfold terminal. apply _. Defined.

Definition phase_ok (r : TaskRecord) : Prop :=
  match tr_State r with
  | TaskStateRunning | TaskStateAwaitingReport => live r
  | TaskStateQueued | TaskStateSucceeded | TaskStateFailed | TaskStateDeadLetter => idle r
  | TaskStateOther _ => False
  end.

(** The claims a task may still use: manual retries add to the budget. *)
Definition attempt_budget (r : TaskRecord) : Z :=
  tk_MaxAttempts (tr_Task r) + tr_ManualRetryCount r.

Definition budget_ok (r : TaskRecord) : Prop :=
  0 <= tr_ManualRetryCount r
  /\ Z.of_nat (length (tr_Attempts r)) <= attempt_budget r
  /\ (tr_State r = TaskStateQueued -> Z.of_nat (length (tr_Attempts r)) < attempt_budget r).

(** The fields that mean something only in some states. *)
Record fields_ok (r : TaskRecord) : Prop := {
  fo_message : TrimSpace (tr_ErrorMessage r) = tr_ErrorMessage r;
  fo_layer : TrimSpace (tr_ErrorLayer r) = tr_ErrorLayer r;
  fo_dead : TrimSpace (tr_DeadLetterCode r) = tr_DeadLetterCode r;
  fo_remote : TrimSpace (tr_RemoteTaskID r) = tr_RemoteTaskID r;
  fo_source : lower_trim (tr_ResolutionSource r) = tr_ResolutionSource r;
  fo_eligible : tr_State r <> TaskStateQueued -> tr_NextEligibleAt r = 0;
  fo_awaiting : tr_State r <> TaskStateAwaitingReport ->
                tr_AwaitingReportSince r = 0 /\ tr_ReportTimeoutAt r = 0;
  fo_unresolved : ~ terminal (tr_State r) -> tr_ResolutionSource r = ""
}.

Record record_wf (id : string) (r : TaskRecord) : Prop := {
  rw_task : normalizeTask (tr_Task r) = Ok (tr_Task r);
  rw_id : tk_TaskID (tr_Task r) = id;
  rw_attempts : attempts_wf (tr_Task r) (tr_Attempts r);
  rw_phase : phase_ok r;
  rw_budget : budget_ok r;
  rw_fields : fields_ok r
}.

(** ** The board and its rules *)

Record Board : Type := mkBoard {
  b_tasks : gmap string TaskRecord;
  b_queue : list string;
  b_commits : gmap string TerminalCommit
}.

Definition board_of (s : schedulerState) : Board :=
  mkBoard (s_Tasks s) (s_Queue s) (s_TerminalCommits s).

(** A commit in the form [normalizeCommit] and the report timeout give it. *)
Record commit_wf (n : TerminalCommit) : Prop := {
  cw_status : tc_Status n = TaskStateSucceeded \/ tc_Status n = TaskStateFailed;
  cw_source : lower_trim (tc_Source n) = tc_Source n;
  cw_remote : TrimSpace (tc_RemoteTaskID n) = tc_RemoteTaskID n;
  cw_message : TrimSpace (tc_ErrorMessage n) = tc_ErrorMessage n;
  cw_layer : TrimSpace (tc_ErrorLayer n) = tc_ErrorLayer n
}.

Definition endAttempt (st : AttemptStatus) (now : Time) (c : Attempt) : Attempt :=
  c <| at_Status := st |> <| at_TerminalAt := now |>.

(** The status an attempt gets from a commit. *)
Definition commitStatus (n : TerminalCommit) : AttemptStatus :=
  if bool_decide (tc_Status n = TaskStateSucceeded) then AttemptStatusSucceeded
  else AttemptStatusFailed.

Definition in_flight (r : TaskRecord) (c : Attempt) : Prop :=
  currentAttempt r = Some c
  /\ (tr_State r = TaskStateRunning \/ tr_State r = TaskStateAwaitingReport).

(** Moves of one record that leave the queue and the commits alone. *)
Inductive record_step (r : TaskRecord) : TaskRecord -> Prop :=
| R_renew c now lease :
    tr_State r = TaskStateRunning -> currentAttempt r = Some c ->
    record_step r (renewedRecord (c <| at_HeartbeatAt := now |> <| at_LeaseExpiresAt := lease |>) now r)
| R_await c now timeout remote :
    tr_State r = TaskStateRunning -> currentAttempt r = Some c -> TrimSpace remote = remote ->
    record_step r (awaitingRecord (c <| at_LeaseExpiresAt := 0 |> <| at_HeartbeatAt := now |>)
                     now timeout remote r)
| R_remote remote :
    tr_State r = TaskStateAwaitingReport -> TrimSpace remote = remote ->
    record_step r (r <| tr_RemoteTaskID := remote |>)
| R_exhaust c now f :
    tr_State r = TaskStateRunning -> currentAttempt r = Some c ->
    f ∈ [reentryFailedRecord; retryDeadRecord; retryFailedRecord] ->
    record_step r (f (expiredRecord c now r)).

Inductive board_step (ctl : bool) : Board -> Board -> Prop :=
| B_enqueue t q m inp task now :
    normalizeTask inp = Ok task -> t !! tk_TaskID task = None ->
    board_step ctl (mkBoard t q m)
      (mkBoard (<[tk_TaskID task := queuedRecord task now]> t) (q ++ [tk_TaskID task]) m)
| B_claim t q m i id r worker now lease :
    q !! i = Some id -> t !! id = Some r -> tr_State r = TaskStateQueued ->
    TrimSpace worker = worker ->
    board_step ctl (mkBoard t q m)
      (mkBoard (<[id := claimedRecord (newAttempt id r worker now lease) now r]> t) (delete i q) m)
| B_record t q m id r r' :
    t !! id = Some r -> record_step r r' ->
    board_step ctl (mkBoard t q m) (mkBoard (<[id := r']> t) q m)
| B_requeue t q m id r c now backoff :
    t !! id = Some r -> tr_State r = TaskStateRunning -> currentAttempt r = Some c ->
    Z.of_nat (length (tr_Attempts r)) < maxAttemptsOf r ->
    board_step ctl (mkBoard t q m)
      (mkBoard (<[id := requeuedRecord now backoff (expiredRecord c now r)]> t) (q ++ [id]) m)
| B_commit t q m id r c n :
    t !! id = Some r -> in_flight r c -> commit_wf n ->
    tc_TaskID n = id -> tc_AttemptID n = at_AttemptID c ->
    tc_WorkspaceProvenance n = at_WorkspaceProvenance c ->
    m !! terminalCommitKey id (at_AttemptID c) = None ->
    board_step ctl (mkBoard t q m)
      (mkBoard (<[id := committedRecord (endAttempt (commitStatus n) (tc_CommittedAt n) c) n r]> t) q
         (<[terminalCommitKey id (at_AttemptID c) := n]> m))
| B_timeout t q m id r r' c now st :
    t !! id = Some r -> tr_State r = TaskStateAwaitingReport -> currentAttempt r = Some c ->
    (st = TaskStateFailed \/ st = TaskStateDeadLetter) ->
    r' = timedOutRecord st (endAttempt AttemptStatusFailed now c) now r ->
    m !! terminalCommitKey id (at_AttemptID c) = None ->
    board_step ctl (mkBoard t q m)
      (mkBoard (<[id := r']> t) q
         (<[terminalCommitKey id (at_AttemptID c) := timeoutCommit r' c now]> m))
| B_conflict t q m id r :
    t !! id = Some r ->
    board_step ctl (mkBoard t q m) (mkBoard (<[id := r <| tr_TerminalConflict := true |>]> t) q m)
| B_cancel_queued t q m id r now :
    ctl = true -> t !! id = Some r -> tr_State r = TaskStateQueued ->
    board_step ctl (mkBoard t q m) (mkBoard (<[id := canceledRecord now r]> t) q m)
| B_cancel_awaiting t q m id r c now :
    ctl = true -> t !! id = Some r -> tr_State r = TaskStateAwaitingReport ->
    currentAttempt r = Some c ->
    board_step ctl (mkBoard t q m)
      (mkBoard (<[id := canceledRecord now
                          (r <| tr_Attempts ::= replaceAttempt (endAttempt AttemptStatusFailed now c) |>)]> t)
         q m)
| B_retry t q m id r now :
    ctl = true -> t !! id = Some r ->
    tr_State r = TaskStateFailed \/ tr_State r = TaskStateDeadLetter ->
    board_step ctl (mkBoard t q m) (mkBoard (<[id := retriedRecord now r]> t) (q ++ [id]) m).

(** ** Invariant of the board *)

(** A recorded commit names an attempt of a known task that it closed; with
    manual control off the task is then terminal. *)
Definition commit_ok (ctl : bool) (t : gmap string TaskRecord) (k : string) (n : TerminalCommit) : Prop :=
  exists r i a,
    k = terminalCommitKey (tc_TaskID n) (tc_AttemptID n)
    /\ t !! tc_TaskID n = Some r /\ tr_Attempts r !! i = Some a
    /\ at_AttemptID a = tc_AttemptID n /\ closed a /\ commit_wf n
    /\ (tc_WorkspaceProvenance n = None \/ tc_WorkspaceProvenance n = at_WorkspaceProvenance a)
    /\ (ctl = false -> terminal (tr_State r)).

Record board_inv (ctl : bool) (b : Board) : Prop := {
  bi_records : map_Forall record_wf (b_tasks b);
  bi_commits : map_Forall (commit_ok ctl (b_tasks b)) (b_commits b);
  bi_known : forall id, id ∈ b_queue b -> is_Some (b_tasks b !! id);
  bi_waiting : forall id r, b_tasks b !! id = Some r -> tr_State r = TaskStateQueued -> id ∈ b_queue b;
  bi_exact : ctl = false ->
    NoDup (b_queue b)
    /\ forall id r, id ∈ b_queue b -> b_tasks b !! id = Some r -> tr_State r = TaskStateQueued
}.

(** ** Normalised tasks *)

(** What [normalizeTask] establishes. *)
Record task_normal (k : Task) : Prop := {
  tn_ids : Forall (fun s => TrimSpace s = s)
             [tk_DispatchBinding k; tk_TaskID k; tk_RunID k; tk_WorkflowID k; tk_TeamID k;
              tk_StepID k; tk_AgentID k; tk_PeerID k; tk_ParentRunID k];
  tn_named : tk_TaskID k <> "";
  tn_priority : validPriority (tk_Priority k) = true;
  tn_attempts : 0 < tk_MaxAttempts k;
  tn_timeout : lower_trim (tm_EffectiveOperationProfile (tk_TimeoutResolution k))
                 = tm_EffectiveOperationProfile (tk_TimeoutResolution k)
               /\ lower_trim (tm_Source (tk_TimeoutResolution k)) = tm_Source (tk_TimeoutResolution k)
               /\ TrimSpace (tm_Trace (tk_TimeoutResolution k)) = tm_Trace (tk_TimeoutResolution k);
  tn_workspace : (wp ← tk_WorkspaceProvenance k; WorkspaceProvenance_Validate wp) = None
}.

Lemma validPriority_lower p : validPriority p = true -> lower_trim p = p /\ (p =s? "") = false.
Proof.
  unfold validPriority. rewrite !orb_true_iff, !str_eqb_eq. by intros [[->| ->]| ->].
Qed.

Lemma trimTask_ids inp :
  let k := trimTask inp in
  Forall (fun s => TrimSpace s = s)
    [tk_DispatchBinding k; tk_TaskID k; tk_RunID k; tk_WorkflowID k; tk_TeamID k;
     tk_StepID k; tk_AgentID k; tk_PeerID k; tk_ParentRunID k].
Proof. destruct inp. cbn. repeat constructor; apply TrimSpace_idemp. Qed.

Lemma trimTask_timeout inp :
  let tm := tk_TimeoutResolution (trimTask inp) in
  lower_trim (tm_EffectiveOperationProfile tm) = tm_EffectiveOperationProfile tm
  /\ lower_trim (tm_Source tm) = tm_Source tm /\ TrimSpace (tm_Trace tm) = tm_Trace tm.
Proof. destruct inp as [????????????? []]. cbn. by rewrite !lower_trim_idemp, TrimSpace_idemp. Qed.

Lemma normalizeTask_normal inp k : normalizeTask inp = Ok k -> task_normal k.
Proof.
  unfold normalizeTask. pose proof (trimTask_ids inp) as Hids. pose proof (trimTask_timeout inp) as Htm.
  revert Hids Htm. generalize (trimTask inp) as out. cbn zeta. intros out Hids Htm.
  destruct (tk_TaskID out =s? "") eqn:Hid; cbn [negb]; [done|].
  generalize (requestedPriority out) as p. intros p.
  destruct (validPriority p || (p =s? ""))%bool eqn:Hp; [|done].
  destruct (_ ≫= _) eqn:Hw; [done|]. intros [= <-]. apply str_eqb_neq in Hid.
  destruct out. cbn in *. split; cbn; auto.
  - destruct (p =s? ""); [done|]. by rewrite orb_false_r in Hp.
  - case_match; lia.
Qed.

Lemma trimTask_fix k : task_normal k -> trimTask k = k.
Proof.
  intros [Hids Hne Hp Hm (H1 & H2 & H3) Hw]. repeat (apply Forall_cons in Hids as [? Hids]).
  apply validPriority_lower in Hp as [Hl _].
  destruct k as [????????????? [] ?]. go_eval. cbn in *. congruence.
Qed.

Lemma task_normal_fix k : task_normal k -> normalizeTask k = Ok k.
Proof.
  intros Hk. unfold normalizeTask. rewrite trimTask_fix by done.
  destruct Hk as [Hids Hne Hp Hm Htm Hw]. clear Hids Htm.
  apply validPriority_lower in Hp as Hp'. destruct Hp' as [Hl Hpe].
  apply str_eqb_neq in Hne. apply Z.leb_gt in Hm. rewrite Hne. cbn [negb].
  unfold requestedPriority. rewrite Hpe, Hp, Hm. cbn. rewrite Hpe, Hw. by destruct k.
Qed.

Lemma normalizeTask_fix inp k : normalizeTask inp = Ok k -> normalizeTask k = Ok k.
Proof. eauto using task_normal_fix, normalizeTask_normal. Qed.

Section record_facts.
Context (id : string) (r : TaskRecord) (Hwf : record_wf id r).

Lemma wf_normal : task_normal (tr_Task r).
Proof. eapply normalizeTask_normal, rw_task, Hwf. Qed.

Lemma wf_trim : TrimSpace id = id.
Proof.
  rewrite <- (rw_id _ _ Hwf). pose proof (tn_ids _ wf_normal) as H.
  by do 2 apply Forall_cons in H as [? H].
Qed.

Lemma wf_nonempty : id <> "".
Proof. rewrite <- (rw_id _ _ Hwf). apply (tn_named _ wf_normal). Qed.

Lemma wf_maxAttempts : maxAttemptsOf r = tk_MaxAttempts (tr_Task r) /\ 0 < tk_MaxAttempts (tr_Task r).
Proof.
  pose proof (tn_attempts _ wf_normal). unfold maxAttemptsOf. split; [|done].
  by destruct (Z.leb_spec (tk_MaxAttempts (tr_Task r)) 0); [lia|].
Qed.
End record_facts.

(** ** Attempts of a record *)

Section attempts.
Context (task : Task).
Hypothesis Hnormal : task_normal task.

Local Abbreviation aid n := (minted (tk_TaskID task) "-attempt-" (Z.of_nat n + 1)).

Lemma aid_inj m n : aid m = aid n -> m = n.
Proof. intros H%minted_inj. lia. Qed.

Lemma task_trimmed : trimmed (tk_TaskID task).
Proof.
  apply TrimSpace_iff. pose proof (tn_ids _ Hnormal) as H.
  by do 2 apply Forall_cons in H as [? H].
Qed.

Lemma aid_trim n : TrimSpace (aid n) = aid n.
Proof.
  apply TrimSpace_id, minted_trimmed; [apply task_trimmed | apply (tn_named _ Hnormal) | done |].
  repeat constructor.
Qed.

Lemma lease_trim n : TrimSpace (minted (tk_TaskID task) "-lease-" n) = minted (tk_TaskID task) "-lease-" n.
Proof.
  apply TrimSpace_id, minted_trimmed; [apply task_trimmed | apply (tn_named _ Hnormal) | done |].
  repeat constructor.
Qed.

Lemma attempts_wf_app l a :
  attempts_wf task l -> attempt_wf task (length l) a -> attempts_wf task (l ++ [a]).
Proof.
  intros Hl Ha n b [Hn|[Hn Hb]]%lookup_app_Some; [eauto|].
  apply list_lookup_singleton_Some in Hb as [? <-]. by replace n with (length l) by lia.
Qed.

Lemma attempts_wf_prefix l a : attempts_wf task (l ++ [a]) ->
  attempts_wf task l /\ attempt_wf task (length l) a.
Proof.
  intros H. split.
  - intros n b Hb. apply H. by apply lookup_app_l_Some.
  - apply H. by rewrite lookup_app_r, Nat.sub_diag by lia.
Qed.

Lemma aid_fresh l a b : attempts_wf task (l ++ [a]) -> b ∈ l -> at_AttemptID b <> at_AttemptID a.
Proof.
  intros [Hl Ha]%attempts_wf_prefix [n Hb]%list_elem_of_lookup E.
  apply lookup_lt_Some in Hb as Hn.
  rewrite (aw_id _ _ _ (Hl _ _ Hb)), (aw_id _ _ _ Ha) in E. apply aid_inj in E. lia.
Qed.

Lemma replaceAttempt_last l a c :
  attempts_wf task (l ++ [a]) -> at_AttemptID c = at_AttemptID a ->
  replaceAttempt c (l ++ [a]) = l ++ [c].
Proof.
  intros H E.
  assert (Hf : forall b, b ∈ l -> at_AttemptID b <> at_AttemptID c)
    by (intros b Hb; rewrite E; by eapply aid_fresh).
  clear H. induction l as [|b l IH]; cbn.
  - by rewrite E, str_eqb_refl.
  - destruct (str_eqb_spec (at_AttemptID b) (at_AttemptID c)) as [Hb|_].
    + exfalso. apply (Hf b); [set_solver|done].
    + rewrite IH by set_solver. done.
Qed.

Lemma find_attempt l n a id :
  attempts_wf task l -> l !! n = Some a -> TrimSpace id = at_AttemptID a ->
  snd <$> list_find (fun x => TrimSpace (at_AttemptID x) = TrimSpace id) l = Some a.
Proof.
  intros Hl Hn E. rewrite E.
  assert (Ht : forall m b, l !! m = Some b -> TrimSpace (at_AttemptID b) = aid m)
    by (intros m b Hb; rewrite (aw_id _ _ _ (Hl _ _ Hb)); apply aid_trim).
  assert (list_find (fun x => TrimSpace (at_AttemptID x) = at_AttemptID a) l = Some (n, a)) as ->; [|done].
  pose proof (aw_id _ _ _ (Hl _ _ Hn)) as Ha.
  apply list_find_Some. split_and!; [done | by rewrite (Ht _ _ Hn) |].
  intros m b Hb Hlt. rewrite (Ht _ _ Hb), Ha. intros ?%aid_inj. lia.
Qed.
End attempts.

Lemma attemptByID_wf id r n a :
  record_wf id r -> tr_Attempts r !! n = Some a -> attemptByID r (at_AttemptID a) = Some a.
Proof.
  intros Hwf Hn. unfold attemptByID. pose proof (wf_normal _ _ Hwf) as Hk.
  pose proof (rw_attempts _ _ Hwf) as Ha. pose proof (aw_id _ _ _ (Ha _ _ Hn)) as Hid.
  assert (Ht : TrimSpace (at_AttemptID a) = at_AttemptID a) by (rewrite Hid; by apply aid_trim).
  rewrite Ht at 1. destruct (str_eqb_spec (at_AttemptID a) "") as [E|_].
  - rewrite Hid in E. by apply minted_nonempty in E.
  - by eapply find_attempt.
Qed.

Lemma currentAttempt_live id r :
  record_wf id r -> live r ->
  exists l c, tr_Attempts r = l ++ [c] /\ currentAttempt r = Some c /\ tr_CurrentAttempt r = at_AttemptID c
              /\ at_Status c = AttemptStatusRunning /\ Forall not_running l.
Proof.
  intros Hwf (l & c & Hl & Hc & Hs & HF). exists l, c. repeat split; try done.
  unfold currentAttempt. rewrite Hc. eapply (attemptByID_wf id r (length l)); [done|].
  rewrite Hl, lookup_app_r, Nat.sub_diag by lia. done.
Qed.

(** The current attempt of a record, seen at the end of its attempts. *)
Lemma current_last id r c :
  record_wf id r -> currentAttempt r = Some c ->
  exists l, tr_Attempts r = l ++ [c] /\ tr_CurrentAttempt r = at_AttemptID c
            /\ at_Status c = AttemptStatusRunning /\ Forall not_running l
            /\ (tr_State r = TaskStateRunning \/ tr_State r = TaskStateAwaitingReport).
Proof.
  intros Hwf Hc. pose proof (rw_phase _ _ Hwf) as Hp. unfold phase_ok in Hp.
  assert (Hidle : idle r -> False).
  { intros [E _]. unfold currentAttempt, attemptByID in Hc. rewrite E, TrimSpace_empty in Hc. done. }
  destruct (tr_State r) eqn:Hs; try tauto.
  all: destruct (currentAttempt_live _ _ Hwf Hp) as (l & c' & Hl & Hc' & ?); simplify_eq.
  all: exists l; naive_solver.
Qed.

(** ** The moves of a record keep it well formed *)

(** The identity of an attempt, which no move changes. *)
Definition keeps (c c' : Attempt) : Prop :=
  at_AttemptID c' = at_AttemptID c /\ at_Attempt c' = at_Attempt c /\ at_WorkerID c' = at_WorkerID c
  /\ at_LeaseToken c' = at_LeaseToken c /\ at_WorkspaceProvenance c' = at_WorkspaceProvenance c.

Lemma keeps_wf task n c c' : keeps c c' -> attempt_wf task n c -> attempt_wf task n c'.
Proof. intros (E1 & E2 & E3 & E4 & E5) []. split; congruence. Qed.

Lemma replace_current id r c c' :
  record_wf id r -> currentAttempt r = Some c -> keeps c c' ->
  exists l, tr_Attempts r = l ++ [c] /\ replaceAttempt c' (tr_Attempts r) = l ++ [c']
            /\ attempts_wf (tr_Task r) (l ++ [c']) /\ Forall not_running l
            /\ at_Status c = AttemptStatusRunning /\ tr_CurrentAttempt r = at_AttemptID c.
Proof.
  intros Hwf Hc Hk. destruct (current_last _ _ _ Hwf Hc) as (l & Hl & Hcur & Hs & HF & _).
  pose proof (rw_attempts _ _ Hwf) as Ha. rewrite Hl in Ha |- *.
  exists l. split_and!; try done.
  - apply (replaceAttempt_last (tr_Task r)); [by eapply wf_normal | exact Ha | apply Hk].
  - apply attempts_wf_prefix in Ha as [Ha Hc']. apply attempts_wf_app; eauto using keeps_wf.
Qed.

(** Three shapes of move cover the rules: the current attempt goes on, the
    current attempt ends, and no attempt is concerned. *)
Section moves.
Context (id : string) (r r' : TaskRecord) (Hwf : record_wf id r).
Hypothesis Htask : tr_Task r' = tr_Task r.
Hypothesis Hfields : fields_ok r'.

Lemma wf_continued c c' :
  currentAttempt r = Some c -> keeps c c' -> at_Status c' = AttemptStatusRunning ->
  tr_Attempts r' = replaceAttempt c' (tr_Attempts r) ->
  tr_CurrentAttempt r' = tr_CurrentAttempt r ->
  tr_ManualRetryCount r' = tr_ManualRetryCount r ->
  tr_State r' = TaskStateRunning \/ tr_State r' = TaskStateAwaitingReport ->
  record_wf id r'.
Proof.
  intros Hc Hk Hrun Hatt Hcur Hman Hst.
  destruct (replace_current _ _ _ _ Hwf Hc Hk) as (l & Hl & Hr & Haw & HF & _ & Hcur').
  rewrite Hr in Hatt. destruct Hwf as [Ht Hid _ _ Hbud _].
  assert (Hlive : live r').
  { exists l, c'. rewrite Hatt, Hcur, Hcur'. split_and!; try done. symmetry. apply Hk. }
  split; rewrite ?Htask, ?Hatt; try done.
  - unfold phase_ok. by destruct Hst as [-> | ->].
  - revert Hbud. unfold budget_ok, attempt_budget. rewrite Hman, Htask, Hatt, Hl, !length_app. cbn.
    intros (? & ? & _). split_and!; try done. by destruct Hst as [-> | ->].
Qed.

Lemma wf_ended c c' :
  currentAttempt r = Some c -> keeps c c' -> not_running c' ->
  tr_Attempts r' = replaceAttempt c' (tr_Attempts r) ->
  tr_CurrentAttempt r' = "" ->
  tr_ManualRetryCount r' = tr_ManualRetryCount r ->
  terminal (tr_State r')
  \/ tr_State r' = TaskStateQueued /\ Z.of_nat (length (tr_Attempts r)) < attempt_budget r ->
  record_wf id r'.
Proof.
  intros Hc Hk Hrun Hatt Hcur Hman Hst.
  destruct (replace_current _ _ _ _ Hwf Hc Hk) as (l & Hl & Hr & Haw & HF & _ & _).
  rewrite Hr in Hatt. destruct Hwf as [Ht Hid _ _ Hbud _].
  assert (Hidle : idle r').
  { split; [done|]. rewrite Hatt. apply Forall_app. auto. }
  split; rewrite ?Htask, ?Hatt; try done.
  - unfold phase_ok. by destruct Hst as [[-> | [-> | ->]] | [-> _]].
  - revert Hbud Hst. unfold budget_ok, attempt_budget.
    rewrite Hman, Htask, Hatt, Hl, !length_app. cbn.
    intros (? & ? & _) Hst. split_and!; try done. intros Hq. rewrite Hq in Hst.
    destruct Hst as [[?|[?|?]]|[_ ?]]; done.
Qed.

Lemma wf_idle :
  idle r -> tr_Attempts r' = tr_Attempts r -> tr_CurrentAttempt r' = "" ->
  terminal (tr_State r') /\ tr_ManualRetryCount r' = tr_ManualRetryCount r
  \/ tr_State r' = TaskStateQueued /\ tr_ManualRetryCount r' = tr_ManualRetryCount r + 1 ->
  record_wf id r'.
Proof.
  intros [_ HF] Hatt Hcur Hst. destruct Hwf as [Ht Hid Ha _ Hbud _].
  assert (Hidle : idle r') by (split; [done | by rewrite Hatt]).
  split; rewrite ?Htask, ?Hatt; try done.
  - unfold phase_ok. by destruct Hst as [[[-> | [-> | ->]] _] | [-> _]].
  - revert Hbud. unfold budget_ok, attempt_budget. rewrite Htask, Hatt.
    destruct Hst as [[Hst ->]|[Hst ->]]; intros (? & ? & ?); split_and!; try lia.
    intros Hq. rewrite Hq in Hst. destruct Hst as [?|[?|?]]; done.
Qed.
End moves.

(** Discharges [fields_ok] after a move from the fields of the record before. *)
Ltac fields_tac Hwf :=
  let F := fresh in pose proof (rw_fields _ _ Hwf) as F; destruct F;
  split; cbn; repeat case_match; auto; unfold terminal in *; try (naive_solver congruence); try tauto.

Lemma wf_queuedRecord inp task now :
  normalizeTask inp = Ok task -> record_wf (tk_TaskID task) (queuedRecord task now).
Proof.
  intros H. pose proof (tn_attempts _ (normalizeTask_normal _ _ H)).
  split; cbn; try done.
  - by eapply normalizeTask_fix.
  - unfold budget_ok, attempt_budget. cbn. lia.
Qed.

Lemma wf_claimedRecord id r worker now lease :
  record_wf id r -> tr_State r = TaskStateQueued -> TrimSpace worker = worker ->
  record_wf id (claimedRecord (newAttempt id r worker now lease) now r).
Proof.
  intros Hwf Hq Hw. pose proof (wf_normal _ _ Hwf) as Hn.
  pose proof (rw_id _ _ Hwf) as Hid. pose proof (rw_phase _ _ Hwf) as Hp.
  unfold phase_ok in Hp. rewrite Hq in Hp. destruct Hp as [_ HF].
  split; cbn; try apply Hwf.
  - apply attempts_wf_app; [apply Hwf|]. split; cbn; try done; rewrite <- Hid; try done.
    by apply lease_trim.
  - eexists _, _. cbn. split_and!; done.
  - destruct (rw_budget _ _ Hwf) as (? & _ & Hlt). specialize (Hlt Hq).
    unfold budget_ok, attempt_budget in *. cbn. rewrite length_app. cbn.
    split_and!; [lia | lia | done].
  - fields_tac Hwf.
Qed.

(** Applies a shape lemma to a concrete move. *)
Ltac move_tac lem Hwf :=
  eapply lem; [exact Hwf | done | fields_tac Hwf | eassumption | | | reflexivity | done | done | ];
  [by repeat split | cbn | cbn; unfold terminal; auto].

Lemma current_running id r c :
  record_wf id r -> currentAttempt r = Some c -> at_Status c = AttemptStatusRunning.
Proof. intros Hwf Hc. by destruct (current_last _ _ _ Hwf Hc) as (? & _ & _ & ? & _). Qed.

Lemma wf_record_step id r r' : record_wf id r -> record_step r r' -> record_wf id r'.
Proof.
  intros Hwf H. destruct H as [c now lease Hs Hc|c now d rem Hs Hc Hrem|rem Hs Hrem|c now f Hs Hc Hf].
  - move_tac wf_continued Hwf. by eapply current_running.
  - move_tac wf_continued Hwf. by eapply current_running.
  - pose proof Hwf as [? ? ? Hp Hb Hf]. split; try done; fields_tac Hwf.
  - rewrite !elem_of_cons in Hf. destruct Hf as [-> | [-> | [-> | []%elem_of_nil]]].
    all: move_tac wf_ended Hwf; done.
Qed.

Lemma wf_requeued id r c now backoff :
  record_wf id r -> tr_State r = TaskStateRunning -> currentAttempt r = Some c ->
  Z.of_nat (length (tr_Attempts r)) < maxAttemptsOf r ->
  record_wf id (requeuedRecord now backoff (expiredRecord c now r)).
Proof.
  intros Hwf Hs Hc Hlt. destruct (wf_maxAttempts _ _ Hwf) as [E _].
  destruct (rw_budget _ _ Hwf) as (? & _ & _).
  move_tac wf_ended Hwf; [done|]. right. split; [done|]. unfold attempt_budget. lia.
Qed.

Lemma wf_committed id r c n :
  record_wf id r -> in_flight r c -> commit_wf n ->
  record_wf id (committedRecord (endAttempt (commitStatus n) (tc_CommittedAt n) c) n r).
Proof.
  intros Hwf [Hc Hs] [Hst Hsrc Hrem Hmsg Hlay].
  move_tac wf_ended Hwf.
  - unfold not_running. cbn. unfold commitStatus. by case_match.
  - left. cbn. unfold terminal. tauto.
Qed.

Lemma wf_timedOut id r c now st :
  record_wf id r -> currentAttempt r = Some c -> st = TaskStateFailed \/ st = TaskStateDeadLetter ->
  record_wf id (timedOutRecord st (endAttempt AttemptStatusFailed now c) now r).
Proof.
  intros Hwf Hc Hst. move_tac wf_ended Hwf; try done.
Qed.

Lemma wf_conflict id r : record_wf id r -> record_wf id (r <| tr_TerminalConflict := true |>).
Proof. intros Hwf. pose proof Hwf as [? ? ? Hp Hb Hf]. split; try done; fields_tac Hwf. Qed.

Lemma wf_canceled_queued id r now :
  record_wf id r -> tr_State r = TaskStateQueued -> record_wf id (canceledRecord now r).
Proof.
  intros Hwf Hs. pose proof (rw_phase _ _ Hwf) as Hp. unfold phase_ok in Hp. rewrite Hs in Hp.
  eapply wf_idle; [exact Hwf | done | fields_tac Hwf | done..|]. left. cbn. unfold terminal. auto.
Qed.

Lemma wf_canceled_awaiting id r c now :
  record_wf id r -> currentAttempt r = Some c ->
  record_wf id (canceledRecord now
    (r <| tr_Attempts ::= replaceAttempt (endAttempt AttemptStatusFailed now c) |>)).
Proof. intros Hwf Hc. move_tac wf_ended Hwf. done. Qed.

Lemma wf_retried id r now :
  record_wf id r -> tr_State r = TaskStateFailed \/ tr_State r = TaskStateDeadLetter ->
  record_wf id (retriedRecord now r).
Proof.
  intros Hwf Hs. pose proof (rw_phase _ _ Hwf) as Hp. unfold phase_ok in Hp.
  eapply wf_idle; [exact Hwf | done | fields_tac Hwf | by destruct Hs as [Hs|Hs]; rewrite Hs in Hp | done..|].
  right. cbn. done.
Qed.

(** ** The rules keep the board invariant *)

(** Attempts closed by a commit are never touched again. *)
Definition grows (r r' : TaskRecord) : Prop :=
  forall n a, tr_Attempts r !! n = Some a -> closed a -> tr_Attempts r' !! n = Some a.

Lemma grows_same r r' : tr_Attempts r' = tr_Attempts r -> grows r r'.
Proof. intros E n a. by rewrite E. Qed.

Lemma grows_app r r' l : tr_Attempts r' = tr_Attempts r ++ l -> grows r r'.
Proof. intros E n a Ha _. rewrite E. by apply lookup_app_l_Some. Qed.

Lemma grows_replace id r r' c c' :
  record_wf id r -> currentAttempt r = Some c -> keeps c c' ->
  tr_Attempts r' = replaceAttempt c' (tr_Attempts r) -> grows r r'.
Proof.
  intros Hwf Hc Hk E n a Ha Hcl.
  destruct (replace_current _ _ _ _ Hwf Hc Hk) as (l & Hl & Hr & _ & _ & Hrun & _).
  rewrite E, Hr. rewrite Hl in Ha. apply lookup_snoc_Some in Ha as [[Hn Ha]|[-> <-]].
  - by apply lookup_app_l_Some.
  - destruct Hcl; congruence.
Qed.

Lemma grows_record_step id r r' : record_wf id r -> record_step r r' -> grows r r'.
Proof.
  intros Hwf [c now lease Hs Hc|c now d rem Hs Hc Hrem|rem Hs Hrem|c now f Hs Hc Hf].
  3: by apply grows_same.
  3: rewrite !elem_of_cons in Hf; destruct Hf as [-> | [-> | [-> | []%elem_of_nil]]].
  all: eapply grows_replace; [exact Hwf | exact Hc | | reflexivity]; by repeat split.
Qed.

Lemma commit_ok_grows ctl t id r' k n :
  (forall r, t !! id = Some r -> grows r r' /\ (ctl = false -> terminal (tr_State r) -> terminal (tr_State r'))) ->
  commit_ok ctl t k n -> commit_ok ctl (<[id := r']> t) k n.
Proof.
  intros Hr (r & i & a & Hk & Ht & Ha & Hid & Hcl & Hwf & Hwp & Hterm).
  destruct (decide (tc_TaskID n = id)) as [<-|Hne].
  - destruct (Hr _ Ht) as [Hg Hst]. exists r', i, a. rewrite lookup_insert_eq. split_and!; auto.
  - exists r, i, a. rewrite lookup_insert_ne by done. split_and!; auto.
Qed.

Section update.
Context (ctl : bool) (t : gmap string TaskRecord) (q q' : list string)
  (m : gmap string TerminalCommit) (id : string) (r' : TaskRecord).
Hypothesis Hinv : board_inv ctl (mkBoard t q m).
Hypothesis Hwf : record_wf id r'.
Hypothesis Hgrow : forall r, t !! id = Some r ->
  grows r r' /\ (ctl = false -> terminal (tr_State r) -> terminal (tr_State r')).
Hypothesis Hsub : forall x, x ∈ q' -> x ∈ q \/ x = id.
Hypothesis Hkeep : forall x, x ∈ q -> x <> id -> x ∈ q'.
Hypothesis Hin : tr_State r' = TaskStateQueued -> id ∈ q'.
Hypothesis Hexact : ctl = false -> NoDup q' /\ (id ∈ q' -> tr_State r' = TaskStateQueued).

Lemma board_inv_update : board_inv ctl (mkBoard (<[id := r']> t) q' m).
Proof.
  destruct Hinv as [Hrec Hcom Hkn Hwait Hex]; cbn in *. split; cbn.
  - by apply map_Forall_insert_2.
  - eapply map_Forall_impl; [done|]. intros k n. by apply commit_ok_grows.
  - intros x [Hx| ->]%Hsub; [|by rewrite lookup_insert_eq].
    destruct (decide (x = id)) as [->|]; [by rewrite lookup_insert_eq|].
    rewrite lookup_insert_ne by done. auto.
  - intros x r [[-> ->]|[Hne Hx]]%lookup_insert_Some Hq; [auto|]. eauto.
  - intros Hctl. destruct (Hexact Hctl) as [Hnd Hqd]. split; [done|].
    intros x r Hx [[-> ->]|[Hne Hl]]%lookup_insert_Some; [auto|].
    apply Hsub in Hx as [Hx| ->]; [|done]. by eapply Hex.
Qed.
End update.

Lemma board_inv_record ctl t q m k n :
  board_inv ctl (mkBoard t q m) -> commit_ok ctl t k n -> board_inv ctl (mkBoard t q (<[k := n]> m)).
Proof.
  intros [] ?. split; cbn in *; auto. by apply map_Forall_insert_2.
Qed.

Lemma delete_queue (q : list string) i id :
  q !! i = Some id -> q ≡ₚ id :: delete i q.
Proof. apply delete_Permutation. Qed.

Lemma not_terminal_queued : ~ terminal TaskStateQueued.
Proof. by intros [?|[?|?]]. Qed.
Lemma not_terminal_running : ~ terminal TaskStateRunning.
Proof. by intros [?|[?|?]]. Qed.
Lemma not_terminal_awaiting : ~ terminal TaskStateAwaitingReport.
Proof. by intros [?|[?|?]]. Qed.

(** A record moves while its task stays out of the queue. *)
Lemma board_inv_move ctl t q m id r r' :
  board_inv ctl (mkBoard t q m) -> t !! id = Some r -> tr_State r <> TaskStateQueued ->
  tr_State r' <> TaskStateQueued -> record_wf id r' -> grows r r' ->
  (ctl = false -> terminal (tr_State r) -> terminal (tr_State r')) ->
  board_inv ctl (mkBoard (<[id := r']> t) q m).
Proof.
  intros Hinv Ht Hs Hs' Hwf Hg Hterm.
  apply (board_inv_update ctl t q q); auto.
  - intros ? ?. simplify_eq. auto.
  - done.
  - intros Hctl. destruct (bi_exact _ _ Hinv Hctl) as [Hnd Hq]. split; [done|].
    intros Hin. by destruct Hs; eapply Hq.
Qed.

(** A record becomes queued and its task goes to the end of the queue. *)
Lemma board_inv_push ctl t q m id r' :
  board_inv ctl (mkBoard t q m) ->
  (ctl = false -> id ∉ q) ->
  tr_State r' = TaskStateQueued -> record_wf id r' ->
  (forall r, t !! id = Some r -> grows r r' /\ (ctl = false -> ~ terminal (tr_State r))) ->
  board_inv ctl (mkBoard (<[id := r']> t) (q ++ [id]) m).
Proof.
  intros Hinv Hnq Hs Hwf Hg. apply (board_inv_update ctl t q); auto.
  - intros r Hr. destruct (Hg r Hr) as [? Hnt]. split; [done|]. intros Hctl ?. by destruct (Hnt Hctl).
  - set_solver.
  - set_solver.
  - set_solver.
  - intros Hctl. split; [|done]. destruct (bi_exact _ _ Hinv Hctl) as [Hnd _].
    apply NoDup_app. split_and!; [done | set_solver | apply NoDup_singleton].
Qed.

Lemma inv_record ctl t q m id r :
  board_inv ctl (mkBoard t q m) -> t !! id = Some r -> record_wf id r.
Proof. intros Hinv Ht. by apply (bi_records _ _ Hinv). Qed.

Lemma inv_not_queued ctl t q m id r :
  board_inv ctl (mkBoard t q m) -> t !! id = Some r -> tr_State r <> TaskStateQueued ->
  ctl = false -> id ∉ q.
Proof. intros Hinv Ht Hs Hctl Hin. destruct (bi_exact _ _ Hinv Hctl) as [_ Hq]. destruct Hs. by eapply Hq. Qed.

Lemma step_enqueue_inv ctl t q m inp task now :
  board_inv ctl (mkBoard t q m) -> normalizeTask inp = Ok task -> t !! tk_TaskID task = None ->
  board_inv ctl (mkBoard (<[tk_TaskID task := queuedRecord task now]> t) (q ++ [tk_TaskID task]) m).
Proof.
  intros Hinv Hn Ht. apply board_inv_push; try done.
  - intros _ Hin. apply (bi_known _ _ Hinv) in Hin. cbn in Hin. rewrite Ht in Hin. by destruct Hin.
  - by eapply wf_queuedRecord.
  - intros r Hr. simplify_eq.
Qed.

Lemma step_claim_inv ctl t q m i id r worker now lease :
  board_inv ctl (mkBoard t q m) -> q !! i = Some id -> t !! id = Some r ->
  tr_State r = TaskStateQueued -> TrimSpace worker = worker ->
  board_inv ctl (mkBoard (<[id := claimedRecord (newAttempt id r worker now lease) now r]> t) (delete i q) m).
Proof.
  intros Hinv Hi Ht Hs Hw. pose proof (delete_queue _ _ _ Hi) as Hperm.
  assert (Hnt : ~ terminal (tr_State r)) by (rewrite Hs; apply not_terminal_queued).
  eapply (board_inv_update ctl t q); [done | ..]; cbn.
  - eapply wf_claimedRecord; eauto using inv_record.
  - intros r0 Hr0. simplify_eq. split; [by eapply grows_app|]. tauto.
  - intros x Hx. left. rewrite Hperm. set_solver.
  - intros x Hx Hne. rewrite Hperm in Hx. set_solver.
  - done.
  - intros Hctl. destruct (bi_exact _ _ Hinv Hctl) as [Hnd _]. cbn in Hnd.
    rewrite Hperm in Hnd. apply NoDup_cons in Hnd as [? ?]. split; [done|set_solver].
Qed.

Lemma record_step_states r r' :
  record_step r r' ->
  (tr_State r = TaskStateRunning \/ tr_State r = TaskStateAwaitingReport)
  /\ tr_State r' <> TaskStateQueued.
Proof.
  intros [c now lease Hs Hc|c now d rem Hs Hc Hrem|rem Hs Hrem|c now f Hs Hc Hf]; cbn.
  4: rewrite !elem_of_cons in Hf; destruct Hf as [-> | [-> | [-> | []%elem_of_nil]]]; cbn.
  all: rewrite ?Hs; split; auto; done.
Qed.

Lemma step_record_inv ctl t q m id r r' :
  board_inv ctl (mkBoard t q m) -> t !! id = Some r -> record_step r r' ->
  board_inv ctl (mkBoard (<[id := r']> t) q m).
Proof.
  intros Hinv Ht Hstep. pose proof (inv_record _ _ _ _ _ _ Hinv Ht) as Hwf.
  destruct (record_step_states _ _ Hstep) as (Hs & Hs').
  assert (Hnt : ~ terminal (tr_State r))
    by (destruct Hs as [-> | ->]; [apply not_terminal_running | apply not_terminal_awaiting]).
  eapply board_inv_move; eauto using wf_record_step, grows_record_step.
  - by destruct Hs as [-> | ->].
  - tauto.
Qed.

Lemma step_requeue_inv ctl t q m id r c now backoff :
  board_inv ctl (mkBoard t q m) -> t !! id = Some r -> tr_State r = TaskStateRunning ->
  currentAttempt r = Some c -> Z.of_nat (length (tr_Attempts r)) < maxAttemptsOf r ->
  board_inv ctl (mkBoard (<[id := requeuedRecord now backoff (expiredRecord c now r)]> t) (q ++ [id]) m).
Proof.
  intros Hinv Ht Hs Hc Hlt. pose proof (inv_record _ _ _ _ _ _ Hinv Ht) as Hwf.
  assert (Hnt : ~ terminal (tr_State r)) by (rewrite Hs; apply not_terminal_running).
  apply board_inv_push; try done.
  - eapply inv_not_queued; [done..|]. by rewrite Hs.
  - by apply wf_requeued.
  - intros r0 Hr0. simplify_eq. split; [|done].
    eapply grows_replace; [exact Hwf | exact Hc | | reflexivity]; by repeat split.
Qed.

(** A commit that ends the current attempt of a record. *)
Lemma commit_ok_ended ctl t id r r' c c' n :
  record_wf id r -> currentAttempt r = Some c -> keeps c c' -> closed c' ->
  tr_Attempts r' = replaceAttempt c' (tr_Attempts r) -> terminal (tr_State r') ->
  commit_wf n -> tc_TaskID n = id -> tc_AttemptID n = at_AttemptID c ->
  (tc_WorkspaceProvenance n = None \/ tc_WorkspaceProvenance n = at_WorkspaceProvenance c) ->
  commit_ok ctl (<[id := r']> t) (terminalCommitKey id (at_AttemptID c)) n.
Proof.
  intros Hwf Hc Hk Hcl Hatt Hterm Hn Hid Haid Hwp.
  destruct (replace_current _ _ _ _ Hwf Hc Hk) as (l & Hl & Hr & _ & _ & _ & _).
  destruct Hk as (Hk1 & _ & _ & _ & Hk5).
  exists r', (length l), c'. rewrite Hid, Haid, lookup_insert_eq, Hatt, Hr, Hk1, Hk5. split_and!; auto.
  by rewrite lookup_app_r, Nat.sub_diag by lia.
Qed.

Lemma closed_commitStatus n now c : closed (endAttempt (commitStatus n) now c).
Proof. unfold closed, commitStatus. cbn. case_bool_decide; auto. Qed.

Lemma step_commit_inv ctl t q m id r c n :
  board_inv ctl (mkBoard t q m) -> t !! id = Some r -> in_flight r c -> commit_wf n ->
  tc_TaskID n = id -> tc_AttemptID n = at_AttemptID c ->
  tc_WorkspaceProvenance n = at_WorkspaceProvenance c ->
  board_inv ctl
    (mkBoard (<[id := committedRecord (endAttempt (commitStatus n) (tc_CommittedAt n) c) n r]> t) q
       (<[terminalCommitKey id (at_AttemptID c) := n]> m)).
Proof.
  intros Hinv Ht Hfl Hn Hid Haid Hwp. pose proof (inv_record _ _ _ _ _ _ Hinv Ht) as Hwf.
  pose proof Hfl as [Hc Hs]. pose proof (cw_status _ Hn) as Hst.
  assert (Hterm : terminal (tc_Status n)) by (unfold terminal; tauto).
  apply board_inv_record.
  - eapply board_inv_move; eauto using wf_committed; cbn; auto.
    + by destruct Hs as [-> | ->].
    + by destruct Hst as [-> | ->].
    + eapply grows_replace; [exact Hwf | exact Hc | | reflexivity]; by repeat split.
  - eapply commit_ok_ended; [exact Hwf | exact Hc | | | reflexivity | ..]; eauto using closed_commitStatus.
    by repeat split.
Qed.

Lemma step_timeout_inv ctl t q m id r c now st :
  board_inv ctl (mkBoard t q m) -> t !! id = Some r -> tr_State r = TaskStateAwaitingReport ->
  currentAttempt r = Some c -> st = TaskStateFailed \/ st = TaskStateDeadLetter ->
  let r' := timedOutRecord st (endAttempt AttemptStatusFailed now c) now r in
  board_inv ctl
    (mkBoard (<[id := r']> t) q (<[terminalCommitKey id (at_AttemptID c) := timeoutCommit r' c now]> m)).
Proof.
  intros Hinv Ht Hs Hc Hst r'. pose proof (inv_record _ _ _ _ _ _ Hinv Ht) as Hwf.
  assert (Hterm : terminal (tr_State r')) by (cbn; unfold terminal; tauto).
  apply board_inv_record.
  - eapply board_inv_move; eauto using wf_timedOut; cbn; auto.
    + by rewrite Hs.
    + by destruct Hst as [-> | ->].
    + eapply grows_replace; [exact Hwf | exact Hc | | reflexivity]; by repeat split.
  - eapply commit_ok_ended; [exact Hwf | exact Hc | | | reflexivity | ..]; auto; try by repeat split.
    + by right.
    + split; cbn; auto. apply (fo_remote _ (rw_fields _ _ Hwf)).
    + cbn. apply Hwf.
Qed.

Lemma step_conflict_inv ctl t q m id r :
  board_inv ctl (mkBoard t q m) -> t !! id = Some r ->
  board_inv ctl (mkBoard (<[id := r <| tr_TerminalConflict := true |>]> t) q m).
Proof.
  intros Hinv Ht. pose proof (inv_record _ _ _ _ _ _ Hinv Ht) as Hwf.
  apply (board_inv_update ctl t q q); auto; cbn.
  - by apply wf_conflict.
  - intros r0 Hr0. simplify_eq. split; [by apply grows_same|done].
  - intros Hq. by eapply (bi_waiting _ _ Hinv).
  - intros Hctl. destruct (bi_exact _ _ Hinv Hctl) as [? Hq]. split; [done|]. intros. by eapply Hq.
Qed.

Lemma step_cancel_queued_inv t q m id r now :
  board_inv true (mkBoard t q m) -> t !! id = Some r -> tr_State r = TaskStateQueued ->
  board_inv true (mkBoard (<[id := canceledRecord now r]> t) q m).
Proof.
  intros Hinv Ht Hs. pose proof (inv_record _ _ _ _ _ _ Hinv Ht) as Hwf.
  apply (board_inv_update true t q q); auto; try done.
  - by apply wf_canceled_queued.
  - intros r0 Hr0. simplify_eq. split; [by apply grows_same|done].
Qed.

Lemma step_cancel_awaiting_inv t q m id r c now :
  board_inv true (mkBoard t q m) -> t !! id = Some r -> tr_State r = TaskStateAwaitingReport ->
  currentAttempt r = Some c ->
  board_inv true
    (mkBoard (<[id := canceledRecord now
                        (r <| tr_Attempts ::= replaceAttempt (endAttempt AttemptStatusFailed now c) |>)]> t) q m).
Proof.
  intros Hinv Ht Hs Hc. pose proof (inv_record _ _ _ _ _ _ Hinv Ht) as Hwf.
  apply (board_inv_update true t q q); auto; try done.
  - by apply wf_canceled_awaiting.
  - intros r0 Hr0. simplify_eq. split; [|done].
    eapply grows_replace; [exact Hwf | exact Hc | | reflexivity]; by repeat split.
Qed.

Lemma step_retry_inv t q m id r now :
  board_inv true (mkBoard t q m) -> t !! id = Some r ->
  tr_State r = TaskStateFailed \/ tr_State r = TaskStateDeadLetter ->
  board_inv true (mkBoard (<[id := retriedRecord now r]> t) (q ++ [id]) m).
Proof.
  intros Hinv Ht Hs. pose proof (inv_record _ _ _ _ _ _ Hinv Ht) as Hwf.
  apply board_inv_push; try done.
  - by apply wf_retried.
  - intros r0 Hr0. simplify_eq. split; [by apply grows_same|done].
Qed.

Lemma board_step_inv ctl b b' : board_inv ctl b -> board_step ctl b b' -> board_inv ctl b'.
Proof.
  intros Hinv Hstep. destruct Hstep; subst.
  - by eapply step_enqueue_inv.
  - by eapply step_claim_inv.
  - by eapply step_record_inv.
  - by eapply step_requeue_inv.
  - by eapply step_commit_inv.
  - by eapply step_timeout_inv.
  - by eapply step_conflict_inv.
  - by eapply step_cancel_queued_inv.
  - by eapply step_cancel_awaiting_inv.
  - by eapply step_retry_inv.
Qed.

Lemma board_steps_inv ctl b b' : board_inv ctl b -> rtc (board_step ctl) b b' -> board_inv ctl b'.
Proof. intros Hb H. induction H; eauto using board_step_inv. Qed.

(** ** Consequences of the invariant *)

Lemma commitKey_attempt task n :
  task_normal task ->
  terminalCommitKey (tk_TaskID task) (minted (tk_TaskID task) "-attempt-" (Z.of_nat n + 1))
  = tk_TaskID task +:+ "|" +:+ minted (tk_TaskID task) ("-attempt" +:+ "-") (Z.of_nat n + 1).
Proof.
  intros Hn. unfold terminalCommitKey. rewrite aid_trim by done.
  by rewrite (TrimSpace_id _ (task_trimmed _ Hn)).
Qed.

(** The attempt in flight has no recorded commit. *)
Lemma current_uncommitted ctl t q m id r c :
  board_inv ctl (mkBoard t q m) -> t !! id = Some r -> currentAttempt r = Some c ->
  m !! terminalCommitKey id (at_AttemptID c) = None.
Proof.
  intros Hinv Ht Hc. pose proof (inv_record _ _ _ _ _ _ Hinv Ht) as Hwf.
  destruct (m !! _) as [n|] eqn:Hm; [exfalso|done].
  apply (bi_commits _ _ Hinv) in Hm.
  destruct Hm as (r0 & i & a & Hk & Hr0 & Ha & Haid & Hcl & _). cbn in Hr0.
  pose proof (inv_record _ _ _ _ _ _ Hinv Hr0) as Hwf0.
  destruct (current_last _ _ _ Hwf Hc) as (l & Hl & _ & Hrun & _).
  assert (Hlc : tr_Attempts r !! length l = Some c) by (by rewrite Hl, lookup_app_r, Nat.sub_diag by lia).
  pose proof (aw_id _ _ _ (rw_attempts _ _ Hwf _ _ Hlc)) as Ec.
  pose proof (aw_id _ _ _ (rw_attempts _ _ Hwf0 _ _ Ha)) as Ea.
  rewrite <- Haid, <- (rw_id _ _ Hwf), <- (rw_id _ _ Hwf0), Ec, Ea in Hk.
  rewrite !commitKey_attempt in Hk by eauto using wf_normal.
  apply minted_key_inj in Hk as [Hid Hn]; [|lia..].
  rewrite (rw_id _ _ Hwf), (rw_id _ _ Hwf0) in Hid. rewrite <- Hid in Hr0.
  assert (r0 = r) as -> by congruence. assert (i = length l) as -> by lia.
  assert (a = c) as -> by congruence. destruct Hcl; congruence.
Qed.

(** What a step may do to a task: it stays on the board with its definition,
    its closed attempts stay as they are and attempts are only appended. *)
Definition record_evolves (r r' : TaskRecord) : Prop :=
  tr_Task r' = tr_Task r /\ tr_CreatedAt r' = tr_CreatedAt r /\ grows r r'
  /\ (length (tr_Attempts r) <= length (tr_Attempts r'))%nat
  /\ (tr_State r = TaskStateSucceeded ->
      r' = r \/ r' = r <| tr_TerminalConflict := true |>).

Lemma length_replaceAttempt c l : length (replaceAttempt c l) = length l.
Proof. induction l as [|a l IH]; cbn; [done|]. case_match; cbn; auto. Qed.

Lemma record_evolves_refl r : record_evolves r r.
Proof. repeat split; auto. by apply grows_same. Qed.

(** A move of a task that is not succeeded. *)
Lemma record_evolves_move r r' :
  tr_State r <> TaskStateSucceeded -> tr_Task r' = tr_Task r -> tr_CreatedAt r' = tr_CreatedAt r ->
  grows r r' -> (length (tr_Attempts r) <= length (tr_Attempts r'))%nat -> record_evolves r r'.
Proof. intros. repeat split; auto. done. Qed.

Lemma record_step_evolves id r r' : record_wf id r -> record_step r r' -> record_evolves r r'.
Proof.
  intros Hwf Hs. pose proof (grows_record_step _ _ _ Hwf Hs) as Hg.
  assert (Hne : tr_State r <> TaskStateSucceeded)
    by (destruct (record_step_states _ _ Hs) as ([E|E] & _); by rewrite E).
  destruct Hs as [c now lease Hs Hc|c now d rem Hs Hc Hrem|rem Hs Hrem|c now f Hs Hc Hf];
    apply record_evolves_move; try done; try (cbn; by rewrite ?length_replaceAttempt).
  all: rewrite !elem_of_cons in Hf; destruct Hf as [-> | [-> | [-> | []%elem_of_nil]]]; cbn;
    by rewrite ?length_replaceAttempt.
Qed.

Lemma board_step_evolves ctl b b' id r :
  board_inv ctl b -> board_step ctl b b' -> b_tasks b !! id = Some r ->
  exists r', b_tasks b' !! id = Some r' /\ record_evolves r r'.
Proof.
  intros Hinv Hstep Hr.
  assert (Hupd : forall id0 r0' (t : gmap string TaskRecord), t !! id = Some r ->
            (id = id0 -> record_evolves r r0') ->
            exists r', <[id0 := r0']> t !! id = Some r' /\ record_evolves r r').
  { intros id0 r0' t Ht Hev. destruct (decide (id = id0)) as [<-|Hne].
    - exists r0'. rewrite lookup_insert_eq. auto.
    - exists r. rewrite lookup_insert_ne by done. auto using record_evolves_refl. }
  pose proof (bi_records _ _ Hinv id r Hr) as Hwf.
  destruct Hstep; cbn in *; subst; (apply Hupd; [exact Hr|intros E; simplify_eq]).
  - apply record_evolves_move; cbn; [congruence | done | done | by eapply grows_app | rewrite length_app; lia].
  - by eapply record_step_evolves.
  - apply record_evolves_move; cbn; [congruence | done | done | | by rewrite length_replaceAttempt].
    eapply grows_replace; [exact Hwf | eassumption | | reflexivity]; by repeat split.
  - destruct H0 as [Hc Hs]. apply record_evolves_move; cbn;
      [destruct Hs; congruence | done | done | | by rewrite length_replaceAttempt].
    eapply grows_replace; [exact Hwf | exact Hc | | reflexivity]; by repeat split.
  - apply record_evolves_move; cbn; [congruence | done | done | | by rewrite length_replaceAttempt].
    eapply grows_replace; [exact Hwf | eassumption | | reflexivity]; by repeat split.
  - repeat split; auto; by apply grows_same.
  - apply record_evolves_move; cbn; [congruence | done | done | by apply grows_same | done].
  - apply record_evolves_move; cbn; [congruence | done | done | | by rewrite length_replaceAttempt].
    eapply grows_replace; [exact Hwf | eassumption | | reflexivity]; by repeat split.
  - apply record_evolves_move; cbn; [destruct H1; congruence | done | done | by apply grows_same | done].
Qed.
