(* ===== verification/SchedulerRefine.v ===== *)
(** * Scheduler: the operations implement the task board

    Every operation of [state.go] moves the board of its state by the rules of
    [SchedulerBoard.board_step] and leaves the configuration alone
    ([refines]); the invariants of the board hold of every state that calls
    reach from a new store ([reachable]). *)
From S2P Require Import Prelude GoStrings GoNum SchedulerTypes SchedulerState SchedulerSelect.
From S2P Require Import SchedulerBoard.

Local Open Scope bool_scope.
Local Open Scope string_scope.
Local Open Scope list_scope.
Local Open Scope Z_scope.

(** ** Refinement *)

Definition same_config (s s' : schedulerState) : Prop :=
  s_governance s' = s_governance s /\ s_asyncAwait s' = s_asyncAwait s
  /\ s_recoveryBoundary s' = s_recoveryBoundary s /\ s_taskBoardControl s' = s_taskBoardControl s.

Definition refines (ctl : bool) (s s' : schedulerState) : Prop :=
  rtc (board_step ctl) (board_of s) (board_of s') /\ same_config s s'.

#[export] Instance refines_preorder ctl : PreOrder (refines ctl).
Proof.
  split.
  - intros s. split; [apply rtc_refl | by repeat split].
  - intros s1 s2 s3 [H1 (E1 & E2 & E3 & E4)] [H2 (F1 & F2 & F3 & F4)]. split.
    + by etrans.
    + repeat split; congruence.
Qed.

(** The terminal state of a report timeout is a terminal state, and control
    operations are only enabled on a board that admits them. *)
Record sched_inv (ctl : bool) (s : schedulerState) : Prop := {
  si_board : board_inv ctl (board_of s);
  si_timeout : aa_TimeoutTerminal (s_asyncAwait s) = TaskStateFailed
               \/ aa_TimeoutTerminal (s_asyncAwait s) = TaskStateDeadLetter;
  si_control : tb_Enabled (s_taskBoardControl s) = true -> ctl = true
}.

Lemma refines_inv ctl s s' : sched_inv ctl s -> refines ctl s s' -> sched_inv ctl s'.
Proof.
  intros [Hb Ht Hc] [Hst (_ & E2 & _ & E4)].
  split; [by eapply board_steps_inv | by rewrite E2 | by rewrite E4].
Qed.

(** One rule, when only statistics and scheduling memory change besides. *)
Lemma refines_step ctl s s' :
  board_step ctl (board_of s) (board_of s') -> same_config s s' -> refines ctl s s'.
Proof. intros. split; [by apply rtc_once | done]. Qed.

Lemma refines_same ctl s s' : board_of s' = board_of s -> same_config s s' -> refines ctl s s'.
Proof. intros E. split; [rewrite E; apply rtc_refl | done]. Qed.

(** The bookkeeping of a claim leaves the board alone. *)
Lemma countClaim_frame p y d w s :
  let s' := countClaim p y d w s in
  board_of s' = board_of s /\ same_config s s' /\ s_lastPriority s' = p
  /\ s_lastConsecutive s' = (if p =s? s_lastPriority s then s_lastConsecutive s + 1 else 1).
Proof.
  unfold countClaim. cbn zeta.
  case_bool_decide; destruct y; cbn; destruct (str_eqb_spec p (s_lastPriority s)); destruct d; cbn; by repeat split.
Qed.

Ltac same := apply refines_same; by repeat case_match || by repeat split.

Section refine.
Context (ctl : bool) (wall : Time).

Lemma enqueue_refines s task now : refines ctl s (enqueue wall s task now).1.
Proof.
  unfold enqueue. destruct (normalizeTask task) as [k|e] eqn:Hk; [|reflexivity].
  destruct (s_Tasks s !! tk_TaskID k) as [r|] eqn:Ht; [by case_match|].
  apply refines_step; [|by case_match].
  assert (Hb : forall s', board_of (if isTaskDelayed k (or_now wall now)
           then onStats (fun st => st <| st_DelayedTaskTotal ::= Z.succ |>) s' else s') = board_of s')
    by (intros; by case_match).
  cbn [fst]. rewrite Hb. by eapply (B_enqueue ctl (s_Tasks s) (s_Queue s) (s_TerminalCommits s)).
Qed.

Lemma handleRetryTransition_refines s id r c now :
  s_Tasks s !! id = Some r -> tr_State r = TaskStateRunning -> currentAttempt r = Some c ->
  refines ctl s (handleRetryTransition s id r c now).1.
Proof.
  intros Ht Hs Hc. unfold handleRetryTransition. cbn zeta.
  destruct (_ && _) eqn:Hre; cbn [fst].
  { apply refines_step; [|by repeat split].
    eapply (B_record ctl (s_Tasks s) (s_Queue s) (s_TerminalCommits s)); [done|].
    apply R_exhaust; [done..|set_solver]. }
  destruct (Z.leb_spec (maxAttemptsOf (expiredRecord c now r))
              (Z.of_nat (length (tr_Attempts (expiredRecord c now r))))) as [Hle|Hlt].
  { destruct (gv_DLQEnabled _); cbn [fst]; apply refines_step; try by repeat split.
    all: eapply (B_record ctl (s_Tasks s) (s_Queue s) (s_TerminalCommits s)); [done|].
    all: apply R_exhaust; [done..|set_solver]. }
  cbn [fst]. apply refines_step; [|by repeat case_match].
  cbn in Hlt. rewrite length_replaceAttempt in Hlt.
  pose proof (B_requeue ctl (s_Tasks s) (s_Queue s) (s_TerminalCommits s) id r c now
                (retryDelay s id c) Ht Hs Hc Hlt) as H.
  by repeat case_match.
Qed.

Lemma expireLeaseStep_refines now s out id : refines ctl s (expireLeaseStep now (s, out) id).1.
Proof.
  unfold expireLeaseStep. destruct (s_Tasks s !! id) as [r|] eqn:Ht; [|reflexivity].
  case_bool_decide as Hs; cbn [negb]; [|reflexivity].
  destruct (currentAttempt r) as [c|] eqn:Hc; [|reflexivity].
  pose proof (handleRetryTransition_refines s id r c now Ht Hs Hc) as H.
  destruct (handleRetryTransition s id r c now) as [s' r']. cbn in *. exact H.
Qed.

Lemma foldl_refines {A B} (f : schedulerState * B -> A -> schedulerState * B) l acc :
  (forall s out x, sched_inv ctl s -> refines ctl s (f (s, out) x).1) ->
  sched_inv ctl acc.1 -> refines ctl acc.1 (foldl f acc l).1.
Proof.
  intros Hf. revert acc. induction l as [|x l IH]; intros [s out] Hinv; cbn; [reflexivity|].
  specialize (Hf s out x Hinv). destruct (f (s, out) x) as [s' out'] eqn:E. cbn in *.
  etrans; [exact Hf|]. apply (IH (s', out')). cbn. by eapply refines_inv.
Qed.

Lemma expireLeases_refines s now : sched_inv ctl s -> refines ctl s (expireLeases wall s now).1.
Proof.
  intros Hinv. apply (foldl_refines _ _ (s, [])); [|done].
  intros. apply expireLeaseStep_refines.
Qed.

(** A queue entry of a good board is the trimmed id of its record. *)
Lemma queue_entry s i id :
  sched_inv ctl s -> s_Queue s !! i = Some id ->
  exists r, s_Tasks s !! id = Some r /\ record_wf id r /\ TrimSpace id = id.
Proof.
  intros [Hb _ _] Hi. apply list_elem_of_lookup_2 in Hi.
  destruct (bi_known _ _ Hb id Hi) as [r Hr]. pose proof (bi_records _ _ Hb id r Hr) as Hwf.
  exists r. split_and!; auto. by eapply wf_trim.
Qed.

Lemma selected_queued s now i y :
  sched_inv ctl s -> nextClaimableIndex s now = Some (i, y) ->
  exists id r, s_Queue s !! i = Some id /\ s_Tasks s !! id = Some r
               /\ isClaimableRecord (Some r) now = true /\ tr_State r = TaskStateQueued.
Proof.
  intros Hinv. rewrite nextClaimableIndex_select. intros Hsel.
  apply selectSpec_claimable in Hsel as (id & Hi & Hc).
  apply claimPriority_record in Hc as (r & Hr & Hc).
  destruct (queue_entry _ _ _ Hinv Hi) as (r0 & Hr0 & _ & Ht). rewrite Ht in Hr. simplify_eq.
  exists id, r. split_and!; auto. unfold isClaimableRecord in Hc.
  by destruct (decide (tr_State r = TaskStateQueued)); [|rewrite bool_decide_false in Hc].
Qed.

Lemma claim_refines s worker now lease :
  sched_inv ctl s -> refines ctl s (claim wall s worker now lease).1.
Proof.
  intros Hinv. unfold claim.
  destruct (str_eqb_spec (TrimSpace worker) ""); [reflexivity|].
  destruct (lease <=? 0); [reflexivity|]. cbn zeta. set (nw := or_now wall now).
  pose proof (expireLeases_refines s nw Hinv) as Hexp.
  destruct (expireLeases wall s nw) as [s1 out]. cbn [fst] in *.
  assert (Hinv1 : sched_inv ctl s1) by (by eapply refines_inv).
  etrans; [exact Hexp|]. clear Hexp.
  destruct (nextClaimableIndex s1 nw) as [[i y]|] eqn:Hsel; [|reflexivity].
  destruct (selected_queued _ _ _ _ Hinv1 Hsel) as (tid & r & Hi & Hr & _ & Hq).
  rewrite Hi. cbn [from_option]. change (Datatypes.id tid) with tid.
  change (s_Tasks (s1 <| s_Queue ::= delete i |>)) with (s_Tasks s1). rewrite Hr.
  rewrite bool_decide_true by done. cbn [negb].
  destruct (countClaim_frame (normalizedPriority (tk_Priority (tr_Task r))) y
    (isTaskDelayed (tr_Task r) (tr_CreatedAt r)) (delayedWaitDurationMs r nw)
    (putTask tid (claimedRecord (newAttempt tid r (TrimSpace worker) nw lease) nw r)
       (s1 <| s_Queue ::= delete i |>))) as (Hb & Hcfg & _).
  apply refines_step; [|exact Hcfg]. cbn [fst]. setoid_rewrite Hb.
  pose proof (B_claim ctl (s_Tasks s1) (s_Queue s1) (s_TerminalCommits s1) i tid r
                (TrimSpace worker) nw lease Hi Hr Hq (TrimSpace_idemp _)) as Hstep.
  exact Hstep.
Qed.

Lemma heartbeat_refines s id attemptID token now lease :
  refines ctl s (heartbeat wall s id attemptID token now lease).1.
Proof.
  unfold heartbeat. repeat (case_match; try reflexivity).
  match goal with H : s_Tasks s !! _ = Some ?r, H' : currentAttempt ?r = Some ?c,
                  Hs : negb (bool_decide _) = false |- _ =>
    apply negb_false_iff, bool_decide_eq_true in Hs; apply refines_step; [|by repeat split];
    by eapply (B_record ctl _ (s_Queue s) (s_TerminalCommits s) _ _ _ H (R_renew _ c _ _ Hs H')) end.
Qed.

Lemma markAwaitingReport_refines s id attemptID remote now timeout :
  refines ctl s (markAwaitingReport wall s id attemptID remote now timeout).1.
Proof.
  unfold markAwaitingReport. destruct (_ || _); [reflexivity|].
  destruct (s_Tasks s !! TrimSpace id) as [r|] eqn:Ht; [|reflexivity].
  destruct (currentAttempt r) as [c|] eqn:Hc; [|reflexivity].
  destruct (negb _); [reflexivity|]. cbn zeta.
  destruct (bool_decide (tr_State r = TaskStateAwaitingReport)) eqn:Haw.
  - apply bool_decide_eq_true in Haw. destruct (negb (TrimSpace remote =s? "")); cbn [fst].
    + apply refines_step; [|by repeat split].
      eapply (B_record ctl _ (s_Queue s) (s_TerminalCommits s) _ _ _ Ht). apply R_remote; [done|].
      apply TrimSpace_idemp.
    + apply refines_same; [|by repeat split]. unfold board_of, putTask. cbn. by rewrite insert_id.
  - destruct (negb _) eqn:Hs; [reflexivity|].
    apply negb_false_iff, bool_decide_eq_true in Hs. apply refines_step; [|by repeat split].
    eapply (B_record ctl _ (s_Queue s) (s_TerminalCommits s) _ _ _ Ht).
    apply R_await; [done | done | apply TrimSpace_idemp].
Qed.

Lemma timeoutTerminalState_cases s :
  sched_inv ctl s -> timeoutTerminalState s = TaskStateFailed \/ timeoutTerminalState s = TaskStateDeadLetter.
Proof. intros [_ H _]. unfold timeoutTerminalState. case_match; auto. Qed.

Lemma expireAwaitingStep_refines now s out id :
  sched_inv ctl s -> refines ctl s (expireAwaitingStep now (s, out) id).1.
Proof.
  intros Hinv. unfold expireAwaitingStep. destruct (s_Tasks s !! id) as [r|] eqn:Ht; [|reflexivity].
  case_bool_decide as Hs; cbn [negb]; [|reflexivity].
  destruct (currentAttempt r) as [c|] eqn:Hc; [|reflexivity].
  pose proof (rw_id _ _ (bi_records _ _ (si_board _ _ Hinv) id r Ht)) as Hid.
  assert (Hnone : s_TerminalCommits s !! terminalCommitKey id (at_AttemptID c) = None)
    by (eapply current_uncommitted; [apply Hinv | exact Ht | exact Hc]).
  cbn zeta. cbn [tr_Task timedOutRecord set_field at_AttemptID].
  pose proof (B_timeout ctl (s_Tasks s) (s_Queue s) (s_TerminalCommits s) id r _ c now
                (timeoutTerminalState s) Ht Hs Hc (timeoutTerminalState_cases _ Hinv) eq_refl Hnone) as Hstep.
  cbn. rewrite Hid, Hnone. cbn. apply refines_step; [exact Hstep | by repeat split].
Qed.

Lemma expireAwaitingReports_refines s now :
  sched_inv ctl s -> refines ctl s (expireAwaitingReports wall s now).1.
Proof.
  intros Hinv. apply (foldl_refines _ _ (s, [])); [|done].
  intros. by apply expireAwaitingStep_refines.
Qed.

Lemma requeue_refines s id now : refines ctl s (requeue wall s id now).1.
Proof.
  unfold requeue. destruct (_ =s? _); [reflexivity|].
  destruct (s_Tasks s !! TrimSpace id) as [r|] eqn:Ht; [|reflexivity].
  case_bool_decide as Hs; cbn [negb]; [|reflexivity].
  destruct (currentAttempt r) as [c|] eqn:Hc; [|reflexivity].
  pose proof (handleRetryTransition_refines s (TrimSpace id) r c (or_now wall now) Ht Hs Hc) as H.
  destruct (handleRetryTransition _ _ _ _ _) as [s' r']. exact H.
Qed.

Lemma normalizeCommit_wf inp n :
  normalizeCommit wall inp = Ok n ->
  commit_wf n /\ TrimSpace (tc_TaskID n) = tc_TaskID n /\ TrimSpace (tc_AttemptID n) = tc_AttemptID n
  /\ tc_TaskID n <> "" /\ tc_AttemptID n <> "".
Proof.
  unfold normalizeCommit.
  assert (Ht : forall n', n' = trimCommit inp -> TrimSpace (tc_TaskID n') = tc_TaskID n'
    /\ TrimSpace (tc_AttemptID n') = tc_AttemptID n' /\ lower_trim (tc_Source n') = tc_Source n'
    /\ TrimSpace (tc_RemoteTaskID n') = tc_RemoteTaskID n'
    /\ TrimSpace (tc_ErrorMessage n') = tc_ErrorMessage n'
    /\ TrimSpace (tc_ErrorLayer n') = tc_ErrorLayer n').
  { intros n' ->. destruct inp. cbn. by rewrite !TrimSpace_idemp, lower_trim_idemp. }
  specialize (Ht _ eq_refl). revert Ht. generalize (trimCommit inp). cbn zeta.
  intros n' (H1 & H2 & H3 & H4 & H5 & H6).
  destruct (str_eqb_spec (tc_TaskID n') ""); [done|].
  destruct (str_eqb_spec (tc_AttemptID n') ""); [done|]. cbn [negb].
  case_bool_decide as Hst; [|done]. destruct (_ ≫= _); [done|].
  destruct n'. cbn in *. case_match; intros [= <-]; cbn; (split_and!; auto; by split).
Qed.

Lemma applyTerminalCommit_refines s r n :
  sched_inv ctl s -> s_Tasks s !! tc_TaskID n = Some r -> commit_wf n ->
  (forall c, currentAttempt r = Some c -> tc_WorkspaceProvenance n = at_WorkspaceProvenance c) ->
  refines ctl s (applyTerminalCommit s (tc_TaskID n) r n).1.
Proof.
  intros Hinv Ht Hn Hwp. unfold applyTerminalCommit.
  destruct (currentAttempt r) as [c|] eqn:Hc; [|reflexivity].
  destruct (str_eqb_spec (at_AttemptID c) (tc_AttemptID n)) as [Haid|]; cbn [negb]; [|reflexivity].
  assert (Hnone : s_TerminalCommits s !! terminalCommitKey (tc_TaskID n) (at_AttemptID c) = None)
    by (eapply current_uncommitted; [apply Hinv | exact Ht | exact Hc]).
  destruct (current_last _ _ _ (bi_records _ _ (si_board _ _ Hinv) _ r Ht) Hc) as (_ & _ & _ & _ & _ & Hs).
  pose proof (B_commit ctl (s_Tasks s) (s_Queue s) (s_TerminalCommits s) (tc_TaskID n) r c n Ht
                (conj Hc Hs) Hn eq_refl (eq_sym Haid) (Hwp c eq_refl) Hnone) as Hstep.
  rewrite Haid in Hstep. unfold commitStatus, endAttempt in Hstep.
  assert (Hgoal : forall s', board_of s' = mkBoard (<[tc_TaskID n :=
    committedRecord (c <| at_Status := if bool_decide (tc_Status n = TaskStateSucceeded)
       then AttemptStatusSucceeded else AttemptStatusFailed |> <| at_TerminalAt := tc_CommittedAt n |>) n r]>
    (s_Tasks s)) (s_Queue s) (<[terminalCommitKey (tc_TaskID n) (tc_AttemptID n) := n]> (s_TerminalCommits s)) ->
    same_config s s' -> refines ctl s s').
  { intros s' E Hcfg. apply refines_step; [by rewrite E|done]. }
  destruct (tc_Status n) eqn:Hst; try reflexivity; apply Hgoal; by repeat case_match || by repeat split.
Qed.

Lemma workspaceProvenanceEqual_eq a b : workspaceProvenanceEqual a b = true <-> a = b.
Proof. unfold workspaceProvenanceEqual. apply bool_decide_eq_true. Qed.

Lemma commitTerminal_refines s commit : sched_inv ctl s -> refines ctl s (commitTerminal wall s commit).1.
Proof.
  intros Hinv. unfold commitTerminal.
  destruct (normalizeCommit wall commit) as [n|e] eqn:Hn; [|reflexivity].
  apply normalizeCommit_wf in Hn as (Hn & _).
  destruct (s_Tasks s !! tc_TaskID n) as [r|] eqn:Ht; [|reflexivity]. cbn zeta.
  destruct (s_TerminalCommits s !! _); [by same|].
  destruct (negb _); [reflexivity|]. destruct (currentAttempt r) as [c|] eqn:Hc; [|reflexivity].
  destruct (workspaceProvenanceEqual _ _) eqn:Hwp; cbn [negb]; [|reflexivity].
  apply workspaceProvenanceEqual_eq in Hwp. apply applyTerminalCommit_refines; auto.
  intros c' Hc'. congruence.
Qed.

Lemma commitAsyncReportTerminal_refines s commit :
  sched_inv ctl s -> refines ctl s (commitAsyncReportTerminal wall s commit).1.
Proof.
  intros Hinv. unfold commitAsyncReportTerminal.
  destruct (normalizeCommit wall commit) as [n0|e] eqn:Hn0; [|reflexivity].
  apply normalizeCommit_wf in Hn0 as (Hn0 & _). cbn zeta.
  set (n := if tc_Source n0 =s? "" then _ else n0).
  assert (Hn : commit_wf n) by (unfold n; case_match; [destruct Hn0; by split | done]). clearbody n.
  destruct (s_Tasks s !! tc_TaskID n) as [r|] eqn:Ht; [|reflexivity].
  destruct (s_TerminalCommits s !! _) as [ex|] eqn:Hex.
  { destruct (_ && _); cbn [fst]; [|by same].
    apply refines_step; [|by repeat split].
    by apply (B_conflict ctl (s_Tasks s) (s_Queue s) (s_TerminalCommits s)). }
  destruct (bool_decide _); [reflexivity|].
  destruct (currentAttempt r) as [c|] eqn:Hc; [|reflexivity].
  destruct (workspaceProvenanceEqual _ _) eqn:Hwp; cbn [negb]; [|reflexivity].
  destruct (negb _); [by case_match|].
  apply workspaceProvenanceEqual_eq in Hwp. apply applyTerminalCommit_refines; auto.
  intros c' Hc'. congruence.
Qed.

Lemma controlTask_refines s req now :
  sched_inv ctl s -> refines ctl s (controlTask wall s req now).1.
Proof.
  intros Hinv. unfold controlTask.
  destruct (tb_Enabled (s_taskBoardControl s)) eqn:Hen; cbn [negb]; [|reflexivity].
  apply (si_control _ _ Hinv) in Hen. subst ctl.
  destruct (_ =s? ""); [reflexivity|].
  destruct (normalizeTaskBoardControlAction _) as [act|]; [|reflexivity]. cbn zeta.
  destruct (s_ControlOps s !! _) as [prev|]; [destruct (_ || _); by same|].
  destruct (s_Tasks s !! TrimSpace (rq_TaskID req)) as [r|] eqn:Ht; [|by same].
  pose proof (bi_records _ _ (si_board _ _ Hinv) _ r Ht) as Hwf. pose proof (rw_id _ _ Hwf) as Hid.
  destruct act as [| |a]; [unfold applyManualCancel | unfold applyManualRetry | by same].
  - destruct (tr_State r) eqn:Hs; try by same.
    + apply refines_step; [|by repeat split]. cbn.
      by apply (B_cancel_queued true (s_Tasks s) (s_Queue s) (s_TerminalCommits s)).
    + destruct (currentAttempt r) as [c|] eqn:Hc; [|by same].
      apply refines_step; [|by repeat split]. cbn.
      by apply (B_cancel_awaiting true (s_Tasks s) (s_Queue s) (s_TerminalCommits s)).
  - destruct (bool_decide _) eqn:Hs; cbn [negb]; [|by same]. apply bool_decide_eq_true in Hs.
    destruct (_ <=? _); [by same|].
    apply refines_step; [|by repeat split]. unfold board_of. cbn. rewrite Hid.
    by apply (B_retry true (s_Tasks s) (s_Queue s) (s_TerminalCommits s)).
Qed.
End refine.

(** ** Calls and reachable states *)

(** The store operations that change the state, with their arguments. *)
Inductive call : Type :=
| CallSetGovernance (cfg : GovernanceConfig)
| CallSetRecoveryBoundary (cfg : RecoveryBoundaryConfig)
| CallSetAsyncAwait (cfg : AsyncAwaitConfig)
| CallSetTaskBoardControl (cfg : TaskBoardControlConfig)
| CallEnqueue (task : Task) (now : Time)
| CallClaim (workerID : string) (now : Time) (leaseTimeout : Duration)
| CallHeartbeat (taskID attemptID leaseToken : string) (now : Time) (leaseTimeout : Duration)
| CallMarkAwaitingReport (taskID attemptID remoteTaskID : string) (now : Time) (reportTimeout : Duration)
| CallExpireLeases (now : Time)
| CallExpireAwaitingReports (now : Time)
| CallRequeue (taskID : string) (now : Time)
| CallCommitTerminal (commit : TerminalCommit)
| CallCommitAsyncReportTerminal (commit : TerminalCommit)
| CallRecordAsyncReconcileStats (pollTotal errorTotal : Z)
| CallControlTask (req : TaskBoardControlRequest) (now : Time).

Definition run (wall : Time) (s : schedulerState) (c : call) : schedulerState :=
  match c with
  | CallSetGovernance cfg => setGovernance s cfg
  | CallSetRecoveryBoundary cfg => setRecoveryBoundary s cfg
  | CallSetAsyncAwait cfg => setAsyncAwait s cfg
  | CallSetTaskBoardControl cfg => setTaskBoardControl s cfg
  | CallEnqueue task now => (enqueue wall s task now).1
  | CallClaim w now d => (claim wall s w now d).1
  | CallHeartbeat t a k now d => (heartbeat wall s t a k now d).1
  | CallMarkAwaitingReport t a rm now d => (markAwaitingReport wall s t a rm now d).1
  | CallExpireLeases now => (expireLeases wall s now).1
  | CallExpireAwaitingReports now => (expireAwaitingReports wall s now).1
  | CallRequeue t now => (requeue wall s t now).1
  | CallCommitTerminal n => (commitTerminal wall s n).1
  | CallCommitAsyncReportTerminal n => (commitAsyncReportTerminal wall s n).1
  | CallRecordAsyncReconcileStats p e => recordAsyncReconcileStats s p e
  | CallControlTask req now => (controlTask wall s req now).1
  end.

(** A call that does not switch manual control on, unless [ctl] says so. *)
Definition admits (ctl : bool) (c : call) : Prop :=
  match c with
  | CallSetTaskBoardControl cfg => tb_Enabled cfg = true -> ctl = true
  | _ => True
  end.

(** The states of a store from its creation on; with [ctl = false] manual
    control stays off. *)
Inductive reachable (ctl : bool) : schedulerState -> Prop :=
| Reach_new backend : reachable ctl (newSchedulerState backend)
| Reach_call s wall c : reachable ctl s -> admits ctl c -> reachable ctl (run wall s c).

Lemma sched_inv_new ctl backend : sched_inv ctl (newSchedulerState backend).
Proof.
  split; cbn; [|by left|done].
  split; cbn; try done; try (apply map_Forall_empty); try (intros ? []%elem_of_nil).
  - intros _. split; [apply NoDup_nil_2 | done].
Qed.

Lemma timeoutTerminal_normal cfg :
  aa_TimeoutTerminal (normalizeAsyncAwaitConfig cfg) = TaskStateFailed
  \/ aa_TimeoutTerminal (normalizeAsyncAwaitConfig cfg) = TaskStateDeadLetter.
Proof. unfold normalizeAsyncAwaitConfig. cbn. destruct (aa_TimeoutTerminal cfg); auto. Qed.

(** The refinement lemma of the operation at hand. *)
Ltac refine_op :=
  first [ apply enqueue_refines | apply claim_refines | apply heartbeat_refines
        | apply markAwaitingReport_refines | apply expireLeases_refines
        | apply expireAwaitingReports_refines | apply requeue_refines | apply commitTerminal_refines
        | apply commitAsyncReportTerminal_refines | apply controlTask_refines ].

Lemma run_board ctl wall s c :
  sched_inv ctl s -> rtc (board_step ctl) (board_of s) (board_of (run wall s c)).
Proof.
  intros Hinv. destruct c; cbn [run]; try apply rtc_refl.
  all: try by refine_op.
  unfold recordAsyncReconcileStats. by repeat case_match.
Qed.

Lemma run_inv ctl wall s c : sched_inv ctl s -> admits ctl c -> sched_inv ctl (run wall s c).
Proof.
  intros Hinv Hadm. destruct c; cbn [run].
  all: try (eapply refines_inv; [exact Hinv|]; by refine_op).
  all: destruct Hinv as [Hb Ht Hc]; split; auto.
  - apply timeoutTerminal_normal.
  - unfold recordAsyncReconcileStats. by repeat case_match.
  - unfold recordAsyncReconcileStats. by repeat case_match.
  - unfold recordAsyncReconcileStats. by repeat case_match.
Qed.

Lemma reachable_inv ctl s : reachable ctl s -> sched_inv ctl s.
Proof. induction 1; auto using sched_inv_new, run_inv. Qed.

(** What happens to a record over any number of steps. *)
Lemma record_evolves_trans r1 r2 r3 :
  record_evolves r1 r2 -> record_evolves r2 r3 -> record_evolves r1 r3.
Proof.
  intros (T1 & C1 & G1 & L1 & S1) (T2 & C2 & G2 & L2 & S2). repeat split; try congruence; try lia.
  - intros n a Ha Hcl. eauto.
  - intros Hs. destruct (S1 Hs) as [->| ->]; [by auto|].
    destruct (S2 Hs) as [->| ->]; right; done.
Qed.

Lemma board_steps_evolve ctl b b' id r :
  board_inv ctl b -> rtc (board_step ctl) b b' -> b_tasks b !! id = Some r ->
  exists r', b_tasks b' !! id = Some r' /\ record_evolves r r'.
Proof.
  intros Hinv Hst. revert r Hinv. induction Hst as [b|b1 b2 b3 H12 H23 IH]; intros r Hinv Hr.
  - exists r. auto using record_evolves_refl.
  - destruct (board_step_evolves _ _ _ _ _ Hinv H12 Hr) as (r2 & Hr2 & E12).
    destruct (IH r2) as (r3 & Hr3 & E23); eauto using board_step_inv, record_evolves_trans.
Qed.

