(* ===== verification/SchedulerOps.v ===== *)
(** * Scheduler: what each operation does

    Functional lemmas about the operations of [state.go]: the sweeps treat
    exactly the lapsed tasks, a heartbeat renews the lease of its holder and of
    nobody else, retry delays stay within their bounds, a commit is recorded
    once and replays are recognised. *)
From S2P Require Import Prelude GoStrings GoNum SchedulerTypes SchedulerState SchedulerSelect.
From S2P Require Import SchedulerBoard SchedulerRefine.

Local Open Scope bool_scope.
Local Open Scope string_scope.
Local Open Scope list_scope.
Local Open Scope Z_scope.

(** ** Sweeps *)

(** A sweep folds a step over distinct tasks; a step touches only its task and
    keeps what it achieved for the tasks before. *)
Section sweep.
Context {B : Type} (f : schedulerState * B -> string -> schedulerState * B)
  (I : schedulerState -> Prop) (pre : TaskRecord -> Prop)
  (post : string -> TaskRecord -> schedulerState -> Prop).
Hypothesis HI : forall s out id, I s -> I (f (s, out) id).1.
Hypothesis Htouch : forall s out id x, x <> id -> s_Tasks (f (s, out) id).1 !! x = s_Tasks s !! x.
Hypothesis Hpost : forall s out id r, I s -> s_Tasks s !! id = Some r -> pre r ->
  post id r (f (s, out) id).1.
Hypothesis Hstable : forall s out id x r, x <> id -> post x r s -> post x r (f (s, out) id).1.

Lemma sweep_stable l : forall s out x r, x ∉ l -> post x r s -> post x r (foldl f (s, out) l).1.
Proof.
  induction l as [|y l IH]; intros s out x r Hx Hp; cbn [foldl]; [done|].
  apply not_elem_of_cons in Hx as [Hne Hx]. pose proof (Hstable s out y x r Hne Hp) as Hp'.
  destruct (f (s, out) y) as [s1 out1]. by apply IH.
Qed.

Lemma sweep_spec l : forall s out,
  NoDup l -> I s -> (forall id, id ∈ l -> exists r, s_Tasks s !! id = Some r /\ pre r) ->
  forall id,
    (id ∈ l -> exists r, s_Tasks s !! id = Some r /\ post id r (foldl f (s, out) l).1)
    /\ (id ∉ l -> s_Tasks (foldl f (s, out) l).1 !! id = s_Tasks s !! id).
Proof.
  induction l as [|x l IH]; intros s out Hnd Hi Hpre id.
  { split; [by intros ?%elem_of_nil | done]. }
  apply NoDup_cons in Hnd as [Hx Hnd]. cbn [foldl].
  pose proof (HI s out x Hi) as Hi1. pose proof (Hpost s out x) as Hpost1.
  pose proof (Htouch s out x) as Hs1.
  destruct (f (s, out) x) as [s1 out1] eqn:E. cbn in *.
  destruct (IH s1 out1 Hnd Hi1) with (id := id) as [IH1 IH2].
  { intros y Hy. rewrite Hs1 by set_solver. apply Hpre. set_solver. }
  split.
  - intros [->|Hin]%elem_of_cons.
    + destruct (Hpre x) as (r & Hr & Hp); [set_solver|]. exists r. split; [done|].
      by apply sweep_stable; [|apply Hpost1].
    + destruct (IH1 Hin) as (r & Hr & Hp). exists r. rewrite <- Hs1; [auto | by intros ->].
  - intros [Hne Hni]%not_elem_of_cons. rewrite IH2 by done. by apply Hs1.
Qed.
End sweep.

Lemma elem_of_tasksWhere p s id :
  id ∈ tasksWhere p s <-> exists r, s_Tasks s !! id = Some r /\ p r = true.
Proof.
  unfold tasksWhere. rewrite elem_of_sort_strings, list_elem_of_fmap. split.
  - intros ([k r] & -> & Hin%elem_of_map_to_list). apply map_lookup_filter_Some in Hin. cbn in *. eauto.
  - intros (r & Hr & Hp). exists (id, r). split; [done|].
    apply elem_of_map_to_list, map_lookup_filter_Some. auto.
Qed.

Lemma NoDup_tasksWhere p s : NoDup (tasksWhere p s).
Proof. unfold tasksWhere. apply NoDup_sort_strings, NoDup_fst_map_to_list. Qed.

(** A task swept by [expireLeases]: its attempt ended and it waits or failed. *)
Definition retired (r r' : TaskRecord) : Prop :=
  tr_Task r' = tr_Task r /\ tr_CurrentAttempt r' = ""
  /\ (tr_State r' = TaskStateQueued \/ tr_State r' = TaskStateFailed \/ tr_State r' = TaskStateDeadLetter).

Lemma handleRetryTransition_tasks s id r c now :
  let '(s', r') := handleRetryTransition s id r c now in
  s_Tasks s' = <[id := r']> (s_Tasks s) /\ retired r r'
  /\ s_Queue s' = (if bool_decide (tr_State r' = TaskStateQueued) then s_Queue s ++ [id] else s_Queue s).
Proof.
  unfold handleRetryTransition, retired. cbn zeta.
  destruct (_ && _); [cbn; by auto 10|]. destruct (_ <=? _); [destruct (gv_DLQEnabled _); cbn; by auto 10|].
  destruct (reentryPolicyOn _), (0 <? _); cbn; auto 10.
Qed.

Lemma leaseLapsed_inv now r :
  leaseLapsed now r = true ->
  tr_State r = TaskStateRunning /\ exists c, currentAttempt r = Some c
    /\ at_Status c = AttemptStatusRunning /\ After (at_LeaseExpiresAt c) now = false.
Proof.
  unfold leaseLapsed. rewrite andb_true_iff, bool_decide_eq_true. intros [Hs H].
  destruct (currentAttempt r) as [c|]; [|done].
  rewrite andb_true_iff, bool_decide_eq_true, negb_true_iff in H. naive_solver.
Qed.

Lemma expireLeaseStep_touch nw s out x y :
  y <> x -> s_Tasks (expireLeaseStep nw (s, out) x).1 !! y = s_Tasks s !! y.
Proof.
  intros Hne. unfold expireLeaseStep. destruct (s_Tasks s !! x) as [r|]; [|done].
  destruct (negb _); [done|]. destruct (currentAttempt r) as [c|]; [|done].
  pose proof (handleRetryTransition_tasks s x r c nw) as H.
  destruct (handleRetryTransition s x r c nw) as [s1 r1]. cbn. destruct H as [-> _].
  by rewrite lookup_insert_ne.
Qed.

Lemma expireLeaseStep_post nw s out id r :
  s_Tasks s !! id = Some r -> leaseLapsed nw r = true ->
  exists r', s_Tasks (expireLeaseStep nw (s, out) id).1 !! id = Some r' /\ retired r r'.
Proof.
  intros Hr (Hs & c & Hc & _)%leaseLapsed_inv. unfold expireLeaseStep. rewrite Hr, Hc.
  rewrite bool_decide_true by done. cbn [negb].
  pose proof (handleRetryTransition_tasks s id r c nw) as H.
  destruct (handleRetryTransition s id r c nw) as [s1 r1]. cbn. destruct H as (-> & Hret & _).
  exists r1. by rewrite lookup_insert_eq.
Qed.

(** [expireLeases] ends exactly the attempts whose lease ran out. *)
Lemma expireLeases_tasks wall s now id :
  let s' := (expireLeases wall s now).1 in
  match s_Tasks s !! id with
  | Some r => if leaseLapsed (or_now wall now) r
              then exists r', s_Tasks s' !! id = Some r' /\ retired r r'
              else s_Tasks s' !! id = Some r
  | None => s_Tasks s' !! id = None
  end.
Proof.
  cbn zeta. unfold expireLeases. set (nw := or_now wall now).
  destruct (sweep_spec (expireLeaseStep nw) (fun _ => True) (fun r => leaseLapsed nw r = true)
              (fun id r s => exists r', s_Tasks s !! id = Some r' /\ retired r r'))
    with (l := tasksWhere (leaseLapsed nw) s) (s := s) (out := @nil ClaimedTask) (id := id) as [H1 H2];
    auto using expireLeaseStep_touch, NoDup_tasksWhere.
  - intros s0 out x r _. apply expireLeaseStep_post.
  - intros s0 out x y r Hne (r' & Hr' & Hret). exists r'. by rewrite expireLeaseStep_touch.
  - intros x. by rewrite elem_of_tasksWhere.
  - destruct (s_Tasks s !! id) as [r|] eqn:Hr.
    + destruct (leaseLapsed nw r) eqn:Hl.
      * destruct H1 as (r0 & Hr0 & r' & Hr' & Hret); [apply elem_of_tasksWhere; eauto|].
        simplify_eq. eauto.
      * rewrite H2; [done|]. rewrite elem_of_tasksWhere. intros (? & ? & ?). congruence.
    + rewrite H2; [done|]. rewrite elem_of_tasksWhere. intros (? & ? & ?). congruence.
Qed.

(** A report that timed out: the attempt failed, the task is terminal and the
    timeout is recorded as the attempt's commit. *)
Definition timed_out (st : TaskState) (nw : Time) (id : string) (r : TaskRecord) (s : schedulerState) : Prop :=
  exists c, currentAttempt r = Some c
    /\ let r' := timedOutRecord st (endAttempt AttemptStatusFailed nw c) nw r in
       s_Tasks s !! id = Some r'
       /\ s_TerminalCommits s !! terminalCommitKey id (at_AttemptID c) = Some (timeoutCommit r' c nw).

Lemma expireAwaitingStep_touch nw s out x y :
  y <> x -> s_Tasks (expireAwaitingStep nw (s, out) x).1 !! y = s_Tasks s !! y.
Proof.
  intros Hne. unfold expireAwaitingStep. destruct (s_Tasks s !! x) as [r|]; [|done].
  destruct (negb _); [done|]. destruct (currentAttempt r) as [c|]; [|done].
  cbn zeta. destruct (s_TerminalCommits _ !! _); cbn; by rewrite lookup_insert_ne.
Qed.

Lemma expireAwaitingStep_commits nw s out x k n :
  s_TerminalCommits s !! k = Some n ->
  s_TerminalCommits (expireAwaitingStep nw (s, out) x).1 !! k = Some n.
Proof.
  intros Hk. unfold expireAwaitingStep. destruct (s_Tasks s !! x) as [r|]; [|done].
  destruct (negb _); [done|]. destruct (currentAttempt r) as [c|]; [|done].
  cbn zeta. cbn. destruct (s_TerminalCommits s !! terminalCommitKey _ _) eqn:E; cbn; [done|].
  by rewrite lookup_insert_ne by congruence.
Qed.

(** [expireAwaitingReports] closes exactly the attempts whose report is late. *)
Lemma expireAwaitingReports_tasks ctl wall s now id :
  sched_inv ctl s ->
  let s' := (expireAwaitingReports wall s now).1 in
  match s_Tasks s !! id with
  | Some r => if reportLapsed (or_now wall now) r
              then timed_out (timeoutTerminalState s) (or_now wall now) id r s'
              else s_Tasks s' !! id = Some r
  | None => s_Tasks s' !! id = None
  end.
Proof.
  intros Hinv. cbn zeta. unfold expireAwaitingReports. set (nw := or_now wall now).
  set (st := timeoutTerminalState s).
  destruct (sweep_spec (expireAwaitingStep nw)
              (fun s0 => sched_inv ctl s0 /\ timeoutTerminalState s0 = st)
              (fun r => reportLapsed nw r = true) (timed_out st nw))
    with (l := tasksWhere (reportLapsed nw) s) (s := s) (out := @nil ClaimedTask) (id := id) as [H1 H2];
    auto using expireAwaitingStep_touch, NoDup_tasksWhere.
  - intros s0 out x [Hi Hst]. pose proof (expireAwaitingStep_refines ctl nw s0 out x Hi) as Href.
    split; [by eapply refines_inv|]. destruct Href as [_ (E1 & E2 & _)].
    unfold timeoutTerminalState in *. by rewrite E1, E2.
  - intros s0 out x r [Hi Hst] Hr Hl. unfold reportLapsed in Hl.
    apply andb_true_iff in Hl as [Hs _]. apply bool_decide_eq_true in Hs.
    pose proof (bi_records _ _ (si_board _ _ Hi) _ _ Hr) as Hwf. pose proof (rw_phase _ _ Hwf) as Hp.
    unfold phase_ok in Hp. rewrite Hs in Hp.
    destruct (currentAttempt_live _ _ Hwf Hp) as (l & c & _ & Hc & _).
    pose proof (current_uncommitted _ _ _ _ _ _ _ (si_board _ _ Hi) Hr Hc) as Hn.
    exists c. split; [done|]. unfold expireAwaitingStep. rewrite Hr, Hc, bool_decide_true by done.
    cbn. rewrite (rw_id _ _ Hwf), Hn, Hst. cbn. by rewrite !lookup_insert_eq.
  - intros s0 out x y r Hne (c & Hc & Hr' & Hk). exists c.
    rewrite expireAwaitingStep_touch by done. split; [done|]. split; [done|].
    by apply expireAwaitingStep_commits.
  - intros x. by rewrite elem_of_tasksWhere.
  - destruct (s_Tasks s !! id) as [r|] eqn:Hr.
    + destruct (reportLapsed nw r) eqn:Hl.
      * destruct H1 as (r0 & Hr0 & Ht); [apply elem_of_tasksWhere; eauto|]. by simplify_eq.
      * rewrite H2; [done|]. rewrite elem_of_tasksWhere. intros (? & ? & ?). congruence.
    + rewrite H2; [done|]. rewrite elem_of_tasksWhere. intros (? & ? & ?). congruence.
Qed.

(** ** Retry delays *)

(** A finite float that is at least one. *)
Definition f64_at_least_one (x : f64) : Prop :=
  exists m e, x = FFin m e /\ 0 < m.

Lemma clamped_multiplier x :
  (exists m e, x = FFin m e) -> f64_at_least_one (if f64_ltb x f64_one then f64_one else x).
Proof.
  intros (m & e & ->). destruct (f64_ltb (FFin m e) f64_one) eqn:H.
  - exists 1, 0. split; [done|lia].
  - exists m, e. split; [done|]. apply Z.ltb_ge in H. cbn in H.
    pose proof (pow2_pos (e - Z.min e 0) ltac:(lia)). pose proof (pow2_pos (0 - Z.min e 0) ltac:(lia)).
    destruct (Z.le_gt_cases m 0); [|lia]. nia.
Qed.

Lemma f64_mul_grow d x : f64_nonneg d -> f64_at_least_one x -> f64_nonneg (f64_mul d x).
Proof.
  intros Hd (m & e & -> & Hm). destruct d as [m1 e1|n|]; cbn in *.
  - apply f64_round_nonneg. nia.
  - subst n. destruct (Z.eqb_spec m 0); [lia|]. cbn. apply Z.ltb_ge. lia.
  - done.
Qed.

Lemma backoffDelay_bounds bo attempt :
  0 < bo_Initial bo -> 0 < bo_Max bo < 2 ^ 53 -> (exists m e, bo_Multiplier bo = FFin m e) ->
  0 <= backoffDelay bo attempt <= bo_Max bo.
Proof.
  intros Hi Hm Hx. unfold backoffDelay. cbn zeta.
  set (base := if f64_leb (f64_of_Z (bo_Initial bo)) f64_zero then _ else _).
  set (x := if f64_ltb (bo_Multiplier bo) f64_one then _ else _).
  set (n := Z.to_nat _). set (d := Nat.iter n _ base).
  assert (Hbase : f64_nonneg base)
    by (unfold base; case_match; apply f64_round_nonneg; unfold Millisecond; lia).
  assert (Hd : f64_nonneg d).
  { unfold d. clearbody n. induction n as [|n IH]; cbn; [done|].
    apply f64_mul_grow; [done|]. by apply clamped_multiplier. }
  clearbody d. rewrite (f64_of_Z_exact (bo_Max bo)) by lia.
  assert (f64_leb (FFin (bo_Max bo) 0) f64_zero = false) as ->.
  { unfold f64_leb, f64_zero, f64_ltb. cbn. rewrite !Z.mul_1_r.
    destruct (Z.ltb_spec (bo_Max bo) 0); [lia|].
    destruct (Z.ltb_spec 0 (bo_Max bo)); [done|lia]. }
  assert (Hmax : f64_nonneg (FFin (bo_Max bo) 0)) by (cbn; lia).
  assert (Hself : f64_ltb (FFin (bo_Max bo) 0) (FFin (bo_Max bo) 0) = false).
  { unfold f64_ltb. apply Z.ltb_irrefl. }
  assert (Hi64 : 0 <= bo_Max bo <= max_i64) by (unfold max_i64; lia).
  destruct (f64_ltb (FFin (bo_Max bo) 0) d) eqn:Hlt;
    split; eauto using f64_to_i64_nonneg; apply f64_to_i64_le; auto; lia.
Qed.

Lemma jittered_bounds delay mx ratio seed :
  0 <= delay <= mx -> 0 <= jittered delay mx ratio seed <= mx.
Proof.
  intros H. unfold jittered. destruct (f64_leb ratio f64_zero); [done|].
  destruct (_ <=? 0); [done|]. cbn zeta.
  generalize (wrap_i64 (delay + wrap_i64 (Z.rem seed (wrap_i64 (2 * f64_to_i64 (f64_mul (f64_of_Z delay) ratio) + 1))
     - f64_to_i64 (f64_mul (f64_of_Z delay) ratio)))). intros w.
  destruct (Z.ltb_spec w 0).
  - destruct (Z.ltb_spec mx 0); lia.
  - destruct (Z.ltb_spec mx w); lia.
Qed.

Lemma normalizeGovernance_backoff cfg :
  let bo := gv_Backoff (normalizeGovernanceConfig cfg) in
  0 < bo_Initial bo <= bo_Max bo
  /\ ((exists m e, bo_Multiplier (gv_Backoff cfg) = FFin m e) -> exists m e, bo_Multiplier bo = FFin m e).
Proof.
  unfold normalizeGovernanceConfig. cbn -[Z.mul]. unfold Second, Millisecond. split.
  - repeat case_match; lia.
  - intros (m & e & E). destruct (f64_ltb (bo_Multiplier (gv_Backoff cfg)) f64_one); [by exists 1, 0|eauto].
Qed.

Lemma retryDelay_range s cfg taskID current :
  s_governance s = normalizeGovernanceConfig cfg ->
  bo_Max (gv_Backoff (s_governance s)) < 2 ^ 53 ->
  (exists m e, bo_Multiplier (gv_Backoff cfg) = FFin m e) ->
  0 <= retryDelay s taskID current <= bo_Max (gv_Backoff (s_governance s)).
Proof.
  intros Hg Hm Hx. unfold retryDelay. rewrite Hg in *.
  destruct (normalizeGovernance_backoff cfg) as [Hb Hmul]. specialize (Hmul Hx). cbn zeta in *.
  destruct (bo_Enabled _); cbn [negb]; [|lia].
  apply jittered_bounds, backoffDelay_bounds; [lia | lia | done].
Qed.

(** ** Terminal commits *)

Lemma normalizeCommit_fields wall inp n :
  normalizeCommit wall inp = Ok n ->
  tc_TaskID n = TrimSpace (tc_TaskID inp) /\ tc_AttemptID n = TrimSpace (tc_AttemptID inp)
  /\ tc_Status n = tc_Status inp /\ tc_WorkspaceProvenance n = tc_WorkspaceProvenance inp.
Proof.
  unfold normalizeCommit. cbn zeta. destruct (negb _); [|done]. destruct (negb _); [|done].
  destruct (bool_decide _); [|done]. destruct (_ ≫= _); [done|].
  case_match; intros [= <-]; done.
Qed.

(** Whether a commit is well formed does not depend on the clock. *)
Lemma normalizeCommit_any_wall wall wall' inp n :
  normalizeCommit wall inp = Ok n -> exists n', normalizeCommit wall' inp = Ok n'.
Proof.
  unfold normalizeCommit. cbn zeta. destruct (negb _); [|done]. destruct (negb _); [|done].
  destruct (bool_decide _); [|done].
  change (tc_WorkspaceProvenance (trimCommit inp <| tc_CommittedAt ::= or_now wall |>))
    with (tc_WorkspaceProvenance inp).
  change (tc_WorkspaceProvenance (trimCommit inp <| tc_CommittedAt ::= or_now wall' |>))
    with (tc_WorkspaceProvenance inp).
  destruct (_ ≫= _); [done|]. intros _. case_match; eauto.
Qed.

(** The record and the commit that an accepted commit leaves behind. *)
Lemma applyTerminalCommit_ok s id r n s' res :
  applyTerminalCommit s id r n = (s', Ok res) ->
  exists c, currentAttempt r = Some c /\ at_AttemptID c = tc_AttemptID n
    /\ cr_Record res = committedRecord (endAttempt (commitStatus n) (tc_CommittedAt n) c) n r
    /\ cr_Duplicate res = false /\ cr_LateReport res = false /\ cr_Conflict res = false
    /\ s_Tasks s' = <[id := cr_Record res]> (s_Tasks s) /\ s_Queue s' = s_Queue s
    /\ s_TerminalCommits s' = <[terminalCommitKey (tc_TaskID n) (tc_AttemptID n) := n]> (s_TerminalCommits s).
Proof.
  unfold applyTerminalCommit. destruct (currentAttempt r) as [c|]; [|done].
  destruct (str_eqb_spec (at_AttemptID c) (tc_AttemptID n)) as [E|]; cbn [negb]; [|done].
  intros H. exists c. unfold endAttempt, commitStatus.
  destruct (tc_Status n); simplify_eq; split_and!; try done; by destruct (tc_Source n =s? _).
Qed.

Lemma commitTerminal_fresh wall s inp s' res :
  commitTerminal wall s inp = (s', Ok res) -> cr_Duplicate res = false ->
  exists n r c, normalizeCommit wall inp = Ok n /\ s_Tasks s !! tc_TaskID n = Some r
    /\ tr_State r = TaskStateRunning /\ currentAttempt r = Some c /\ at_AttemptID c = tc_AttemptID n
    /\ at_WorkspaceProvenance c = tc_WorkspaceProvenance n
    /\ cr_Record res = committedRecord (endAttempt (commitStatus n) (tc_CommittedAt n) c) n r
    /\ s_Tasks s' = <[tc_TaskID n := cr_Record res]> (s_Tasks s) /\ s_Queue s' = s_Queue s
    /\ s_TerminalCommits s' = <[terminalCommitKey (tc_TaskID n) (tc_AttemptID n) := n]> (s_TerminalCommits s).
Proof.
  unfold commitTerminal. destruct (normalizeCommit wall inp) as [n|]; [|done].
  destruct (s_Tasks s !! tc_TaskID n) as [r|] eqn:Hr; [|done]. cbn zeta.
  destruct (s_TerminalCommits s !! _); [by intros [= <- <-]|].
  case_bool_decide as Hs; cbn [negb]; [|done].
  destruct (currentAttempt r) as [c|] eqn:Hc; [|done].
  destruct (workspaceProvenanceEqual _ _) eqn:Hw; cbn [negb]; [|done].
  apply workspaceProvenanceEqual_eq in Hw. intros H _.
  apply applyTerminalCommit_ok in H as (c' & Hc' & ? & ? & _ & _ & _ & ? & ? & ?).
  rewrite Hc in Hc'. injection Hc' as <-. exists n, r, c. split_and!; auto.
Qed.

(** A commit whose key is recorded is a duplicate: only a counter moves. *)
Lemma commitTerminal_replay wall s inp n r ex :
  normalizeCommit wall inp = Ok n -> s_Tasks s !! tc_TaskID n = Some r ->
  s_TerminalCommits s !! terminalCommitKey (tc_TaskID n) (tc_AttemptID n) = Some ex ->
  commitTerminal wall s inp
  = (onStats (fun st => st <| st_DuplicateTerminalCommitTotal ::= Z.succ |>) s,
     Ok (mkCommitResult r true false false)).
Proof. intros Hn Hr Hm. unfold commitTerminal. by rewrite Hn, Hr, Hm. Qed.

(** Recorded commits are kept by every rule. *)
Lemma commits_persist ctl b b' k n :
  rtc (board_step ctl) b b' -> b_commits b !! k = Some n -> b_commits b' !! k = Some n.
Proof.
  induction 1 as [b|b1 b2 b3 H12 _ IH]; [done|]. intros Hk. apply IH. clear IH.
  destruct H12; cbn in *; auto; by rewrite lookup_insert_ne by congruence.
Qed.

(** The calls of [l] one after the other, each with its clock. *)
Definition runs (s : schedulerState) (l : list (Time * call)) : schedulerState :=
  foldl (fun s wc => run wc.1 s wc.2) s l.

Lemma runs_board ctl s l :
  sched_inv ctl s -> Forall (fun wc => admits ctl wc.2) l ->
  rtc (board_step ctl) (board_of s) (board_of (runs s l)) /\ sched_inv ctl (runs s l).
Proof.
  revert s. induction l as [|[w c] l IH]; intros s Hinv Hadm; cbn; [split; [apply rtc_refl|done]|].
  apply Forall_cons in Hadm as [Hc Hadm]. cbn in *.
  destruct (IH (run w s c)) as [H1 H2]; auto using run_inv.
  split; [|done]. etrans; [by apply run_board | done].
Qed.

(** ** Heartbeats *)

(** Who may renew the lease of a task, and when. *)
Definition holds_lease (s : schedulerState) (taskID attemptID leaseToken : string) (now : Time)
    (r : TaskRecord) (c : Attempt) : Prop :=
  s_Tasks s !! taskID = Some r /\ tr_State r = TaskStateRunning /\ currentAttempt r = Some c
  /\ at_AttemptID c = attemptID /\ at_LeaseToken c = leaseToken /\ now <= at_LeaseExpiresAt c.

Lemma heartbeat_ok wall s taskID attemptID token now lease s' ct :
  heartbeat wall s taskID attemptID token now lease = (s', Ok ct) <->
  exists r c, TrimSpace taskID <> "" /\ TrimSpace attemptID <> "" /\ TrimSpace token <> "" /\ 0 < lease
    /\ holds_lease s (TrimSpace taskID) (TrimSpace attemptID) (TrimSpace token) (or_now wall now) r c
    /\ let c' := c <| at_HeartbeatAt := or_now wall now |>
                   <| at_LeaseExpiresAt := TimeAdd (or_now wall now) lease |> in
       let r' := renewedRecord c' (or_now wall now) r in
       s' = putTask (TrimSpace taskID) r' s /\ ct = mkClaimedTask r' c' "" false.
Proof.
  unfold heartbeat, holds_lease. cbn zeta. split.
  - destruct (str_eqb_spec (TrimSpace taskID) ""), (str_eqb_spec (TrimSpace attemptID) ""),
      (str_eqb_spec (TrimSpace token) ""); cbn [orb]; try done.
    destruct (Z.leb_spec lease 0); [done|].
    destruct (s_Tasks s !! TrimSpace taskID) as [r|]; [|done].
    case_bool_decide; cbn [negb]; [|done]. destruct (currentAttempt r) as [c|] eqn:Hc; [|done].
    destruct (str_eqb_spec (at_AttemptID c) (TrimSpace attemptID)); cbn [negb]; [|done].
    destruct (str_eqb_spec (at_LeaseToken c) (TrimSpace token)); cbn [negb]; [|done].
    destruct (Before _ _) eqn:Hb; [done|]. unfold Before in Hb.
    intros [= <- <-]. exists r, c. split_and!; auto. lia.
  - intros (r & c & H1 & H2 & H3 & Hl & (Hr & Hs & Hc & E1 & E2 & Hb) & -> & ->).
    apply str_eqb_neq in H1, H2, H3. rewrite H1, H2, H3. cbn [orb].
    destruct (Z.leb_spec lease 0); [lia|]. rewrite Hr, bool_decide_true by done. cbn [negb].
    rewrite Hc, E1, E2, !str_eqb_refl. cbn [negb].
    destruct (Before _ _) eqn:Hb'; [unfold Before in Hb'; lia | done].
Qed.

Lemma heartbeat_err wall s taskID attemptID token now lease s' e :
  heartbeat wall s taskID attemptID token now lease = (s', Err e) -> s' = s.
Proof. unfold heartbeat. cbn zeta. repeat (case_match; try (by intros [= <- _])). Qed.

(** ** Claims *)

(** The state after a successful claim of queue entry [i]. *)
Definition claimed (s1 s' : schedulerState) (i : nat) (worker : string) (now : Time)
    (lease : Duration) (yielded : bool) (ct : ClaimedTask) : Prop :=
  exists id r,
    s_Queue s1 !! i = Some id /\ s_Tasks s1 !! id = Some r
    /\ isClaimableRecord (Some r) now = true /\ tr_State r = TaskStateQueued
    /\ let a := newAttempt id r worker now lease in
       let r' := claimedRecord a now r in
       let p := normalizedPriority (tk_Priority (tr_Task r)) in
       s_Tasks s' = <[id := r']> (s_Tasks s1) /\ s_Queue s' = delete i (s_Queue s1)
       /\ s_TerminalCommits s' = s_TerminalCommits s1
       /\ s_lastPriority s' = p
       /\ s_lastConsecutive s' = (if p =s? s_lastPriority s1 then s_lastConsecutive s1 + 1 else 1)
       /\ ct = mkClaimedTask r' a p yielded.

Lemma expireLeases_or_now wall s now :
  expireLeases wall s (or_now wall now) = expireLeases wall s now.
Proof. unfold expireLeases. by rewrite or_now_or_now. Qed.

Lemma claim_cases ctl wall s worker now lease :
  sched_inv ctl s -> TrimSpace worker <> "" -> 0 < lease ->
  let nw := or_now wall now in
  let s1 := (expireLeases wall s now).1 in
  sched_inv ctl s1
  /\ match selectSpec s1 nw with
     | None => claim wall s worker now lease = (s1, Ok None)
     | Some (i, y) => exists s' ct, claim wall s worker now lease = (s', Ok (Some ct))
                        /\ claimed s1 s' i (TrimSpace worker) nw lease y ct
     end.
Proof.
  intros Hinv Hw Hl nw s1.
  assert (Hinv1 : sched_inv ctl s1) by (eapply refines_inv; [exact Hinv | by apply expireLeases_refines]).
  split; [done|]. unfold claim. apply str_eqb_neq in Hw. rewrite Hw.
  destruct (Z.leb_spec lease 0); [lia|]. cbn zeta. rewrite expireLeases_or_now. fold nw s1.
  rewrite nextClaimableIndex_select.
  destruct (selectSpec s1 nw) as [[i y]|] eqn:Hsel; [|done].
  rewrite <- nextClaimableIndex_select in Hsel.
  destruct (selected_queued _ _ _ _ _ Hinv1 Hsel) as (tid & r & Hi & Hr & Hc & Hq).
  rewrite Hi. cbn [from_option]. change (Datatypes.id tid) with tid.
  change (s_Tasks (s1 <| s_Queue ::= delete i |>)) with (s_Tasks s1). rewrite Hr.
  rewrite bool_decide_true by done. cbn [negb].
  destruct (countClaim_frame (normalizedPriority (tk_Priority (tr_Task r))) y
    (isTaskDelayed (tr_Task r) (tr_CreatedAt r)) (delayedWaitDurationMs r nw)
    (putTask tid (claimedRecord (newAttempt tid r (TrimSpace worker) nw lease) nw r)
       (s1 <| s_Queue ::= delete i |>))) as ([= Hb1 Hb2 Hb3] & _ & Hp & Hcon).
  eexists _, _. split; [reflexivity|]. exists tid, r. split_and!; try done.
Qed.

(** ** The retry transition *)

(** No attempt is left, or the timeout reentry budget is used up. *)
Definition retryOver (s : schedulerState) (r : TaskRecord) : bool :=
  let n := Z.of_nat (length (tr_Attempts r)) in
  (reentryPolicyOn s && (Z.max 1 (rb_TimeoutReentryMaxPerTask (s_recoveryBoundary s)) <=? n - 1))
  || (maxAttemptsOf r <=? n).

Lemma handleRetryTransition_cases s id r c now :
  let '(s', r') := handleRetryTransition s id r c now in
  tr_Attempts r' = replaceAttempt (endAttempt AttemptStatusExpired now c) (tr_Attempts r)
  /\ tr_Task r' = tr_Task r
  /\ if retryOver s r
     then s_Queue s' = s_Queue s
          /\ (tr_State r' = TaskStateFailed
              \/ tr_State r' = TaskStateDeadLetter /\ gv_DLQEnabled (s_governance s) = true)
     else tr_State r' = TaskStateQueued /\ s_Queue s' = s_Queue s ++ [id]
          /\ tr_NextEligibleAt r' = now + retryDelay s id c.
Proof.
  unfold handleRetryTransition, retryOver. cbn zeta.
  assert (Hb : (if rb_TimeoutReentryMaxPerTask (s_recoveryBoundary s) <=? 0 then 1
                else rb_TimeoutReentryMaxPerTask (s_recoveryBoundary s))
               = Z.max 1 (rb_TimeoutReentryMaxPerTask (s_recoveryBoundary s)))
    by (destruct (Z.leb_spec (rb_TimeoutReentryMaxPerTask (s_recoveryBoundary s)) 0); lia).
  rewrite Hb. change (maxAttemptsOf (expiredRecord c now r)) with (maxAttemptsOf r).
  change (tr_Attempts (expiredRecord c now r))
    with (replaceAttempt (endAttempt AttemptStatusExpired now c) (tr_Attempts r)).
  rewrite length_replaceAttempt. clear Hb.
  destruct (_ && _); cbn [orb]; [cbn; by auto|].
  destruct (maxAttemptsOf r <=? _); [destruct (gv_DLQEnabled _); cbn; auto 10|].
  destruct (reentryPolicyOn _), (0 <? _); cbn; auto.
Qed.

Lemma not_claimable_before r t :
  tr_NextEligibleAt r <> 0 -> t < tr_NextEligibleAt r -> isClaimableRecord (Some r) t = false.
Proof.
  intros Hne Ht. unfold isClaimableRecord. destruct (negb _); [done|]. destruct (_ && _); [done|].
  unfold IsZero, After. destruct (Z.eqb_spec (tr_NextEligibleAt r) 0); [lia|].
  destruct (Z.ltb_spec t (tr_NextEligibleAt r)); [done|lia].
Qed.
