(* ===== verification/SchedulerRoundTrip.v ===== *)
(** * Scheduler: restoring a snapshot

    A snapshot of a reachable store whose queue is exact restores to the same
    tasks, queue, commits and control operations. The lemmas follow the loops of
    [restore]; the theorems are in [SchedulerPersist]. *)
From S2P Require Import Prelude GoStrings GoNum SchedulerTypes SchedulerState SchedulerSnapshot.
From S2P Require Import SchedulerSelect SchedulerBoard SchedulerRefine SchedulerOps.

Local Open Scope bool_scope.
Local Open Scope string_scope.
Local Open Scope list_scope.
Local Open Scope Z_scope.

(** ** Rebuilding a map from its sorted values *)

Section sorted.
Context {A : Type} (key : A -> string).

Context (m : gmap string A).
Hypothesis Hkey : forall k a, m !! k = Some a -> key a = k.

Lemma elem_of_sortedValues a : a ∈ sortedValues m <-> m !! key a = Some a.
Proof.
  unfold sortedValues. rewrite list_elem_of_omap. split.
  - intros (k & _ & Hk). by rewrite (Hkey _ _ Hk).
  - intros Ha. exists (key a). split; [|done]. apply elem_of_sort_strings, list_elem_of_fmap.
    exists (key a, a). split; [done|]. by apply elem_of_map_to_list.
Qed.

Lemma sortedValues_keys : key <$> sortedValues m = sort_strings (map_to_list m).*1.
Proof.
  unfold sortedValues.
  assert (H : forall l : list string, (forall k, k ∈ l -> is_Some (m !! k)) ->
            key <$> (omap (fun k => m !! k) l : list A) = l).
  { induction l as [|k l IH]; intros Hl; [done|]. cbn.
    destruct (Hl k) as [a Ha]; [set_solver|]. rewrite Ha. cbn.
    rewrite (Hkey _ _ Ha), IH; [done|]. intros; apply Hl; set_solver. }
  apply H. intros k Hk. apply elem_of_sort_strings, list_elem_of_fmap in Hk as ([k' a] & -> & Hk).
  apply elem_of_map_to_list in Hk. eauto.
Qed.

Lemma NoDup_sortedValues : NoDup (key <$> sortedValues m).
Proof. rewrite sortedValues_keys. apply NoDup_sort_strings, NoDup_fst_map_to_list. Qed.
End sorted.

Section rebuild.
Context {A B : Type} (key : A -> string) (g : A -> B).

Definition rebuild (acc : gmap string B) (l : list A) : gmap string B :=
  foldl (fun acc a => <[key a := g a]> acc) acc l.

Lemma rebuild_lookup l : forall acc k,
  NoDup (key <$> l) ->
  rebuild acc l !! k = match list_find (fun a => key a = k) l with
                       | Some (_, a) => Some (g a)
                       | None => acc !! k
                       end.
Proof.
  induction l as [|a l IH]; intros acc k Hnd; [done|].
  cbn in Hnd. apply NoDup_cons in Hnd as [Ha Hnd]. cbn [rebuild foldl].
  fold (rebuild (<[key a := g a]> acc) l). rewrite IH by done. cbn.
  case_decide as Hk.
  - assert (list_find (fun x => key x = k) l = None) as ->.
    { apply list_find_None, Forall_forall. intros x Hx E. apply Ha. apply list_elem_of_fmap.
      exists x. split; [congruence|done]. }
    rewrite Hk. apply lookup_insert_eq.
  - destruct (list_find (fun x => key x = k) l) as [[i x]|]; cbn; [done|].
    by rewrite lookup_insert_ne.
Qed.

Context (m : gmap string A).
Hypothesis Hkey : forall k a, m !! k = Some a -> key a = k.

Lemma rebuild_sortedValues : rebuild ∅ (sortedValues m) = g <$> m.
Proof.
  apply map_eq. intros k. rewrite rebuild_lookup by (by apply NoDup_sortedValues).
  rewrite lookup_fmap, lookup_empty.
  destruct (list_find _ _) as [[i a]|] eqn:Hf.
  - apply list_find_Some in Hf as (Hi & <- & _). apply list_elem_of_lookup_2, (elem_of_sortedValues key) in Hi; [|done].
    by rewrite Hi.
  - destruct (m !! k) as [a|] eqn:Hk; [exfalso|done]. apply list_find_None in Hf.
    rewrite Forall_forall in Hf. apply (Hf a); [|by apply Hkey].
    apply (elem_of_sortedValues key); [done|]. by rewrite (Hkey _ _ Hk).
Qed.
End rebuild.

(** ** Tasks *)

(** What restoring changes in a good record: an unresolved task forgets a
    conflict mark. *)
Definition restoredRecord (r : TaskRecord) : TaskRecord :=
  if isTerminalState (tr_State r) then r else r <| tr_TerminalConflict := false |>.

(** What a snapshot needs beyond the invariant: the task agrees with its
    workspace provenance and the instants of a pending report are set. *)
Definition restorable (r : TaskRecord) : Prop :=
  validateTaskWorkspaceBinding (tr_Task r) = Ok tt
  /\ (tr_State r = TaskStateAwaitingReport ->
      tr_ReportTimeoutAt r <> 0 /\ tr_AwaitingReportSince r <> 0).

Lemma restoreAttempts_id task l : forall seen,
  (forall a, a ∈ l -> trimAttempt a = a /\ at_AttemptID a <> ""
     /\ validateAttemptWorkspaceBinding (tk_WorkspaceProvenance task) (at_WorkspaceProvenance a) = Ok tt) ->
  NoDup (at_AttemptID <$> l) -> (forall a, a ∈ l -> at_AttemptID a ∉ seen) ->
  restoreAttempts task seen l = Ok l.
Proof.
  induction l as [|a l IH]; intros seen Hl Hnd Hs; [done|]. cbn [restoreAttempts]. cbn zeta.
  destruct (Hl a) as (Ha & Hne & Hv); [set_solver|]. rewrite Ha.
  apply str_eqb_neq in Hne. rewrite Hne. cbn [negb].
  rewrite bool_decide_false by (apply Hs; set_solver). cbn [negb]. rewrite Hv. cbn.
  cbn in Hnd. apply NoDup_cons in Hnd as [Hni Hnd].
  rewrite IH; [done | intros; apply Hl; set_solver | done |].
  intros b Hb [E|Hin]%elem_of_cons; [|by apply (Hs b); [set_solver|]].
  apply Hni. rewrite <- E. apply list_elem_of_fmap. eauto.
Qed.

Lemma NoDup_attempts task l : task_normal task -> attempts_wf task l -> NoDup (at_AttemptID <$> l).
Proof.
  intros Hn Hl. apply NoDup_alt. intros i j x Hi Hj.
  rewrite list_lookup_fmap in Hi, Hj. apply fmap_Some in Hi as (a & Ha & ->), Hj as (b & Hb & E).
  rewrite (aw_id _ _ _ (Hl _ _ Ha)), (aw_id _ _ _ (Hl _ _ Hb)) in E. by apply aid_inj in E.
Qed.

Lemma trimAttempt_wf task n a : task_normal task -> attempt_wf task n a -> trimAttempt a = a /\ at_AttemptID a <> "".
Proof.
  intros Hn [Hid _ Hw Hl _]. split; [|rewrite Hid; by apply minted_nonempty].
  assert (Hi : TrimSpace (at_AttemptID a) = at_AttemptID a) by (rewrite Hid; by apply aid_trim).
  destruct a. go_eval. cbn in *. congruence.
Qed.

Lemma attempt_binding_ok task : task_normal task ->
  validateAttemptWorkspaceBinding (tk_WorkspaceProvenance task) (tk_WorkspaceProvenance task) = Ok tt.
Proof.
  intros Hn. pose proof (tn_workspace _ Hn) as H. unfold validateAttemptWorkspaceBinding.
  destruct (tk_WorkspaceProvenance task) as [wp|]; [|done]. cbn in H. rewrite H.
  unfold workspaceProvenanceEqual. by rewrite bool_decide_true.
Qed.

Lemma restoreAttempts_wf id r :
  record_wf id r -> restoreAttempts (tr_Task r) [] (tr_Attempts r) = Ok (tr_Attempts r).
Proof.
  intros Hwf. pose proof (wf_normal _ _ Hwf) as Hn. pose proof (rw_attempts _ _ Hwf) as Ha.
  apply restoreAttempts_id; [|by eapply NoDup_attempts|set_solver].
  intros a [n Hi]%list_elem_of_lookup. pose proof (Ha n a Hi) as Hw.
  destruct (trimAttempt_wf _ _ _ Hn Hw). rewrite (aw_workspace _ _ _ Hw).
  auto using attempt_binding_ok.
Qed.

Lemma isTerminalState_spec st : isTerminalState st = true <-> terminal st.
Proof. unfold terminal. destruct st; cbn; naive_solver. Qed.

(** The fields of a good record already have the form [cleanRecord] gives. *)
Lemma cleanRecord_wf id r : record_wf id r -> cleanRecord r = restoredRecord r.
Proof.
  intros Hwf. destruct (rw_fields _ _ Hwf) as [F1 F2 F3 F4 F5 F6 F7 F8]. clear Hwf.
  destruct r as [k st atts cur man since tmo rem src cf elig dead res msg cls lay cr up]. cbn in *.
  assert (Hsrc : isTerminalState st = false -> src = "").
  { intros E. apply F8. rewrite <- isTerminalState_spec. by rewrite E. }
  clear F8. destruct st; cbn in Hsrc;
    try (rewrite F6 in * by done); try (destruct F7 as [F7a F7b]; [done|]); try (specialize (Hsrc eq_refl));
    subst; go_eval; congruence.
Qed.

Lemma restoreState_wf id r : record_wf id r -> restorable r -> restoreState r = Ok r.
Proof.
  intros Hwf [_ Haw]. pose proof (rw_phase _ _ Hwf) as Hp. unfold phase_ok in Hp.
  pose proof (fo_awaiting _ (rw_fields _ _ Hwf)) as Hf.
  assert (Hdrop : tr_State r <> TaskStateAwaitingReport -> dropAwaiting r = r).
  { intros Hs. destruct (Hf Hs) as [E1 E2]. destruct r. cbn in *. subst. done. }
  assert (Hlive : live r -> (tr_CurrentAttempt r =s? "") = false
            /\ existsb (fun a => at_AttemptID a =s? tr_CurrentAttempt r) (tr_Attempts r) = true).
  { intros Hl. destruct (currentAttempt_live _ _ Hwf Hl) as (l & c & Hatt & Hc & Hcur & _). split.
    - apply str_eqb_neq. rewrite Hcur.
      pose proof (rw_attempts _ _ Hwf) as Ha. rewrite Hatt in Ha.
      apply attempts_wf_prefix in Ha as [_ Ha]. rewrite (aw_id _ _ _ Ha). by apply minted_nonempty.
    - apply existsb_exists. exists c. rewrite Hatt, Hcur, str_eqb_refl. split; [|done].
      apply in_or_app. right. by left. }
  unfold restoreState. cbn zeta. destruct (tr_State r) eqn:Hs; try done.
  - destruct Hp as [-> _]. done.
  - destruct (Hlive Hp) as [-> ->]. cbn. by rewrite Hdrop.
  - destruct (Hlive Hp) as [-> ->]. cbn. destruct (Haw eq_refl) as [H1 H2]. unfold IsZero.
    apply Z.eqb_neq in H1, H2. rewrite H1, H2. done.
  - destruct Hp as [-> _]. cbn. by rewrite Hdrop.
  - destruct Hp as [-> _]. cbn. by rewrite Hdrop.
  - destruct Hp as [-> _]. cbn. by rewrite Hdrop.
Qed.

Lemma checkBoundary_wf rb id r : record_wf id r -> checkBoundary rb r = Ok tt.
Proof.
  intros Hwf. pose proof (rw_phase _ _ Hwf) as Hp. unfold phase_ok in Hp. unfold checkBoundary.
  assert (H1 : isTerminalState (tr_State r)
    && existsb (fun a => bool_decide (at_Status a = AttemptStatusRunning)) (tr_Attempts r) = false).
  { destruct (isTerminalState (tr_State r)) eqn:Ht; [|done]. cbn.
    assert (Hi : idle r) by (destruct (tr_State r); done). destruct Hi as [_ HF].
    apply not_true_is_false. rewrite existsb_exists. intros (a & Hin & Ha%bool_decide_eq_true).
    rewrite Forall_forall in HF. apply (HF a); [by apply list_elem_of_In | done]. }
  assert (H2 : bool_decide (tr_State r = TaskStateRunning \/ tr_State r = TaskStateAwaitingReport)
    && match currentAttempt r with
       | Some c => negb (bool_decide (at_Status c = AttemptStatusRunning)) | None => true end = false).
  { case_bool_decide as Hs; [|done]. cbn.
    assert (Hl : live r) by (destruct Hs as [Hs|Hs]; by rewrite Hs in Hp).
    destruct (currentAttempt_live _ _ Hwf Hl) as (l & c & _ & -> & _ & Hrun & _).
    by rewrite bool_decide_true. }
  rewrite <- !andb_assoc, H1, H2, !andb_false_r. done.
Qed.

Lemma restoreTask_wf rb tasks id r :
  record_wf id r -> restorable r -> tasks !! id = None ->
  restoreTask rb tasks r = Ok (<[id := restoredRecord r]> tasks).
Proof.
  intros Hwf Hre Hnone. unfold restoreTask, cloneTaskRecord. cbn zeta.
  rewrite (rw_id _ _ Hwf), (wf_trim _ _ Hwf).
  pose proof (wf_nonempty _ _ Hwf) as Hne. apply str_eqb_neq in Hne. rewrite Hne. cbn [negb].
  rewrite bool_decide_true by done. rewrite (rw_task _ _ Hwf).
  assert (E1 : r <| tr_Task := tr_Task r |> = r) by (by destruct r). rewrite E1.
  destruct Hre as [Hb Haw]. rewrite Hb. cbn [result_bind].
  assert (E2 : r <| tr_CurrentAttempt ::= TrimSpace |> = r).
  { assert (Ht : TrimSpace (tr_CurrentAttempt r) = tr_CurrentAttempt r).
    { pose proof (rw_phase _ _ Hwf) as Hp. unfold phase_ok in Hp.
      assert (Hl : live r -> TrimSpace (tr_CurrentAttempt r) = tr_CurrentAttempt r).
      { intros Hl. destruct (currentAttempt_live _ _ Hwf Hl) as (l & c & Hatt & _ & -> & _).
        pose proof (rw_attempts _ _ Hwf) as Ha. rewrite Hatt in Ha.
        apply attempts_wf_prefix in Ha as [_ Ha]. rewrite (aw_id _ _ _ Ha). apply aid_trim, (wf_normal _ _ Hwf). }
      destruct (tr_State r); auto; try done; by destruct Hp as [-> _]. }
    destruct r. cbn in Ht. go_eval. congruence. }
  rewrite E2, (restoreAttempts_wf _ _ Hwf). cbn [result_bind].
  assert (E3 : r <| tr_Attempts := tr_Attempts r |> = r) by (by destruct r). rewrite E3.
  rewrite (restoreState_wf _ _ Hwf (conj Hb Haw)). cbn [result_bind].
  rewrite (checkBoundary_wf _ _ _ Hwf). cbn [result_bind]. by rewrite (cleanRecord_wf _ _ Hwf).
Qed.

Lemma restoreTasks_wf rb l : forall acc,
  (forall r, r ∈ l -> record_wf (tk_TaskID (tr_Task r)) r /\ restorable r) ->
  NoDup ((fun r => tk_TaskID (tr_Task r)) <$> l) ->
  (forall r, r ∈ l -> acc !! tk_TaskID (tr_Task r) = None) ->
  restoreTasks rb acc l = Ok (rebuild (fun r => tk_TaskID (tr_Task r)) restoredRecord acc l).
Proof.
  induction l as [|r l IH]; intros acc Hl Hnd Hacc; [done|]. cbn [restoreTasks].
  destruct (Hl r) as [Hwf Hre]; [set_solver|].
  rewrite (restoreTask_wf _ _ _ _ Hwf Hre) by (apply Hacc; set_solver). cbn [result_bind].
  cbn in Hnd. apply NoDup_cons in Hnd as [Hni Hnd].
  rewrite IH; [done | intros; apply Hl; set_solver | done |].
  intros x Hx. rewrite lookup_insert_ne; [apply Hacc; set_solver|].
  intros E. apply Hni. rewrite E. apply list_elem_of_fmap. eauto.
Qed.

(** ** Queue, commits and control operations *)

Lemma restoreQueue_exact tasks q : forall seen,
  NoDup q -> (forall id, id ∈ q -> id ∉ seen) ->
  (forall id, id ∈ q -> TrimSpace id = id /\ id <> ""
     /\ exists r, tasks !! id = Some r /\ tr_State r = TaskStateQueued) ->
  restoreQueue tasks seen q = Ok q.
Proof.
  induction q as [|x q IH]; intros seen Hnd Hs Hq; [done|]. cbn.
  destruct (Hq x) as (Ht & Hne & r & Hr & Hst); [set_solver|].
  apply str_eqb_neq in Hne. rewrite Ht, Hne, Hr, bool_decide_true by done.
  rewrite bool_decide_false by (apply Hs; set_solver). cbn.
  apply NoDup_cons in Hnd as [Hni Hnd].
  rewrite IH; [done | done | set_solver | intros; apply Hq; set_solver].
Qed.

Lemma trimCommit_ids n :
  TrimSpace (tc_TaskID (trimCommit n)) = tc_TaskID (trimCommit n)
  /\ TrimSpace (tc_AttemptID (trimCommit n)) = tc_AttemptID (trimCommit n).
Proof. destruct n. cbn. by rewrite !TrimSpace_idemp. Qed.

Lemma trimCommit_idemp n : trimCommit (trimCommit n) = trimCommit n.
Proof. destruct n. go_eval. by rewrite !TrimSpace_idemp, lower_trim_idemp. Qed.

(** A commit that the restored tasks accept. *)
Definition commit_restorable (tasks : gmap string TaskRecord) (n : TerminalCommit) : Prop :=
  tc_TaskID n <> "" /\ tc_AttemptID n <> ""
  /\ (tc_Status n = TaskStateSucceeded \/ tc_Status n = TaskStateFailed)
  /\ exists r, tasks !! tc_TaskID n = Some r
     /\ validateTerminalWorkspaceBinding r n (tc_AttemptID n) = Ok tt.

Lemma restoreCommits_wf tasks l : forall acc,
  (forall n, n ∈ l -> trimCommit n = n /\ commit_restorable tasks n) ->
  NoDup ((fun n => terminalCommitKey (tc_TaskID n) (tc_AttemptID n)) <$> l) ->
  (forall n, n ∈ l -> acc !! terminalCommitKey (tc_TaskID n) (tc_AttemptID n) = None) ->
  restoreCommits tasks acc l
  = Ok (rebuild (fun n => terminalCommitKey (tc_TaskID n) (tc_AttemptID n)) id acc l).
Proof.
  induction l as [|n l IH]; intros acc Hl Hnd Hacc; [done|]. cbn [restoreCommits]. cbn zeta.
  destruct (Hl n) as (Ht & H1 & H2 & Hst & r & Hr & Hv); [set_solver|].
  assert (TrimSpace (tc_TaskID n) = tc_TaskID n /\ TrimSpace (tc_AttemptID n) = tc_AttemptID n) as [E1 E2].
  { rewrite <- Ht. apply trimCommit_ids. }
  apply str_eqb_neq in H1, H2. rewrite E1, E2, H1, H2. cbn [orb negb].
  rewrite bool_decide_true by done. rewrite bool_decide_true by (apply Hacc; set_solver).
  rewrite Hr, Ht, Hv. cbn [result_bind]. cbn in Hnd. apply NoDup_cons in Hnd as [Hni Hnd].
  rewrite IH; [done | intros; apply Hl; set_solver | done |].
  intros x Hx. rewrite lookup_insert_ne; [apply Hacc; set_solver|].
  intros E. apply Hni. rewrite E. apply list_elem_of_fmap. eauto.
Qed.

(** A control operation as [controlTask] records it. *)
Record op_wf (k : string) (o : TaskBoardControlResult) : Prop := {
  ow_key : co_OperationID o = k;
  ow_trim : trimControlOp o = o;
  ow_named : co_OperationID o <> "" /\ co_TaskID o <> "";
  ow_action : co_Action o = TaskBoardControlActionCancel \/ co_Action o = TaskBoardControlActionRetryTerminal
}.

Lemma restoreControlOps_wf l : forall acc,
  (forall o, o ∈ l -> op_wf (co_OperationID o) o) -> NoDup (co_OperationID <$> l) ->
  (forall o, o ∈ l -> acc !! co_OperationID o = None) ->
  restoreControlOps acc l = Ok (rebuild co_OperationID id acc l).
Proof.
  induction l as [|o l IH]; intros acc Hl Hnd Hacc; [done|]. cbn [restoreControlOps]. cbn zeta.
  destruct (Hl o) as [_ Ht [H1 H2] Ha]; [set_solver|].
  assert (TrimSpace (co_OperationID o) = co_OperationID o /\ TrimSpace (co_TaskID o) = co_TaskID o) as [E1 E2].
  { rewrite <- Ht. destruct o. cbn. by rewrite !TrimSpace_idemp. }
  apply str_eqb_neq in H1, H2. rewrite E1, E2, H1, H2. cbn [negb].
  rewrite bool_decide_true by (apply Hacc; set_solver).
  assert (normalizeTaskBoardControlAction (TaskBoardControlAction_string (co_Action o)) = Ok (co_Action o)) as ->
    by (by destruct Ha as [-> | ->]).
  assert (trimControlOp o <| co_Action := co_Action o |> = o) as -> by (rewrite Ht; by destruct o).
  cbn in Hnd. apply NoDup_cons in Hnd as [Hni Hnd].
  rewrite IH; [done | intros; apply Hl; set_solver | done |].
  intros x Hx. rewrite lookup_insert_ne; [apply Hacc; set_solver|].
  intros E. apply Hni. rewrite E. apply list_elem_of_fmap. eauto.
Qed.

(** ** The whole store *)

Lemma rebuild_fmap {A B C} (key : B -> string) (g : B -> C) (f : A -> B) l : forall acc,
  rebuild key g acc (f <$> l) = rebuild (fun a => key (f a)) (fun a => g (f a)) acc l.
Proof. induction l as [|a l IH]; intros acc; [done|]. apply IH. Qed.

Lemma rebuild_ext {A B} (k1 k2 : A -> string) (g : A -> B) l : forall acc,
  (forall a, k1 a = k2 a) -> rebuild k1 g acc l = rebuild k2 g acc l.
Proof. induction l as [|a l IH]; intros acc H; [done|]. cbn. rewrite H. by apply IH. Qed.

Definition commitKey (n : TerminalCommit) : string := terminalCommitKey (tc_TaskID n) (tc_AttemptID n).

Lemma commitKey_trim n : commitKey (trimCommit n) = commitKey n.
Proof. unfold commitKey, terminalCommitKey. destruct n. cbn. by rewrite !TrimSpace_idemp. Qed.

Section store.
Context (ctl : bool) (s s0 : schedulerState).
Hypothesis Hinv : sched_inv ctl s.
Hypothesis Hexact : NoDup (s_Queue s)
  /\ forall id r, id ∈ s_Queue s -> s_Tasks s !! id = Some r -> tr_State r = TaskStateQueued.
Hypothesis Hre : map_Forall (fun _ => restorable) (s_Tasks s).
Hypothesis Hops : map_Forall op_wf (s_ControlOps s).

Let key_task (r : TaskRecord) := tk_TaskID (tr_Task r).

Lemma task_keys k r : s_Tasks s !! k = Some r -> key_task r = k.
Proof. intros Hr. apply (bi_records _ _ (si_board _ _ Hinv)) in Hr. apply Hr. Qed.

Lemma commit_keys k n : s_TerminalCommits s !! k = Some n -> commitKey n = k.
Proof. intros Hn. apply (bi_commits _ _ (si_board _ _ Hinv)) in Hn as (? & ? & ? & -> & _). done. Qed.

Lemma restore_tasks_ok rb :
  restoreTasks rb ∅ (sn_Tasks (snapshot s)) = Ok (restoredRecord <$> s_Tasks s).
Proof.
  cbn [sn_Tasks snapshot].
  assert (cloneTaskRecord <$> sortedValues (s_Tasks s) = sortedValues (s_Tasks s)) as ->
    by (apply list_fmap_id).
  rewrite restoreTasks_wf.
  - f_equal. apply (rebuild_sortedValues key_task), task_keys.
  - intros r Hr. apply (elem_of_sortedValues key_task) in Hr; [|apply task_keys].
    split; [by apply (bi_records _ _ (si_board _ _ Hinv)) | by apply Hre in Hr].
  - apply (NoDup_sortedValues key_task), task_keys.
  - intros r _. apply lookup_empty.
Qed.

Lemma commit_restorable_ok n :
  s_TerminalCommits s !! commitKey n = Some n ->
  commit_restorable (restoredRecord <$> s_Tasks s) (trimCommit n).
Proof.
  intros Hn. apply (bi_commits _ _ (si_board _ _ Hinv)) in Hn.
  destruct Hn as (r & i & a & _ & Hr & Ha & Haid & _ & Hcw & Hwp & _). cbn in Hr.
  pose proof (bi_records _ _ (si_board _ _ Hinv) _ _ Hr) as Hwf.
  pose proof (rw_attempts _ _ Hwf _ _ Ha) as Hat.
  destruct (trimAttempt_wf _ _ _ (wf_normal _ _ Hwf) Hat) as [Htr Hne].
  assert (Et : tc_TaskID (trimCommit n) = tc_TaskID n) by (cbn; by eapply wf_trim).
  assert (Ea : tc_AttemptID (trimCommit n) = at_AttemptID a).
  { cbn. rewrite <- Haid, (aw_id _ _ _ Hat). apply aid_trim, (wf_normal _ _ Hwf). }
  unfold commit_restorable. rewrite Et, Ea.
  change (tc_Status (trimCommit n)) with (tc_Status n).
  split_and!; [by eapply wf_nonempty | done | apply Hcw |].
  exists (restoredRecord r). rewrite lookup_fmap, Hr. split; [done|].
  unfold validateTerminalWorkspaceBinding.
  assert (attemptByID (restoredRecord r) (at_AttemptID a) = attemptByID r (at_AttemptID a)) as ->
    by (unfold restoredRecord; by destruct (isTerminalState _)).
  rewrite (attemptByID_wf _ _ _ _ Hwf Ha).
  change (tc_WorkspaceProvenance (trimCommit n)) with (tc_WorkspaceProvenance n).
  assert (tr_Task (restoredRecord r) = tr_Task r) as -> by (unfold restoredRecord; by case_match).
  destruct (tc_WorkspaceProvenance n) as [wp|]; [|done]. destruct Hwp as [?|Hwp]; [done|].
  rewrite <- (aw_workspace _ _ _ Hat), <- Hwp. unfold workspaceProvenanceEqual.
  by rewrite bool_decide_true.
Qed.

Lemma restore_commits_ok :
  restoreCommits (restoredRecord <$> s_Tasks s) ∅ (sn_TerminalCommits (snapshot s))
  = Ok (trimCommit <$> s_TerminalCommits s).
Proof.
  cbn [sn_TerminalCommits snapshot]. rewrite restoreCommits_wf.
  - f_equal. fold commitKey. rewrite rebuild_fmap.
    rewrite (rebuild_ext _ commitKey) by apply commitKey_trim.
    apply (rebuild_sortedValues commitKey), commit_keys.
  - intros n' (n & -> & Hn)%list_elem_of_fmap. split; [apply trimCommit_idemp|].
    apply (elem_of_sortedValues commitKey) in Hn; [|apply commit_keys]. by apply commit_restorable_ok.
  - fold commitKey. rewrite <- list_fmap_compose.
    rewrite (list_fmap_ext _ commitKey) by (intros; apply commitKey_trim).
    apply (NoDup_sortedValues commitKey), commit_keys.
  - intros n _. apply lookup_empty.
Qed.

Lemma restore_ops_ok : restoreControlOps ∅ (sn_ControlOps (snapshot s)) = Ok (s_ControlOps s).
Proof.
  cbn [sn_ControlOps snapshot]. unfold snapshotControlOps.
  assert (Hkeys : forall k o, s_ControlOps s !! k = Some o -> co_OperationID o = k)
    by (intros k o Ho; apply Hops in Ho; apply Ho).
  assert (trimControlOp <$> sortedValues (s_ControlOps s) = sortedValues (s_ControlOps s)) as ->.
  { rewrite <- (list_fmap_id (sortedValues (s_ControlOps s))) at 2. apply list_fmap_ext.
    intros i o Ho. apply list_elem_of_lookup_2, (elem_of_sortedValues _ _ Hkeys) in Ho.
    apply Hops in Ho. apply Ho. }
  rewrite restoreControlOps_wf.
  - f_equal. rewrite (rebuild_sortedValues _ _ _ Hkeys). apply map_fmap_id.
  - intros o Ho. apply (elem_of_sortedValues _ _ Hkeys) in Ho. by apply Hops in Ho.
  - apply (NoDup_sortedValues _ _ Hkeys).
  - intros o _. apply lookup_empty.
Qed.

Lemma restore_queue_ok :
  restoreQueue (restoredRecord <$> s_Tasks s) [] (s_Queue s) = Ok (s_Queue s).
Proof.
  destruct Hexact as [Hnd Hq]. apply restoreQueue_exact; [done|set_solver|].
  intros x Hx. destruct (bi_known _ _ (si_board _ _ Hinv) x Hx) as [r Hr]. cbn in Hr.
  pose proof (bi_records _ _ (si_board _ _ Hinv) _ _ Hr) as Hwf.
  split_and!; [by eapply wf_trim | by eapply wf_nonempty |].
  exists (restoredRecord r). rewrite lookup_fmap, Hr. split; [done|].
  pose proof (Hq x r Hx Hr) as Hst. unfold restoredRecord. by case_match.
Qed.

Lemma restore_snapshot_ok :
  restore s0 (snapshot s)
  = Ok (s0 <| s_Tasks := restoredRecord <$> s_Tasks s |> <| s_Queue := s_Queue s |>
           <| s_TerminalCommits := trimCommit <$> s_TerminalCommits s |>
           <| s_ControlOps := s_ControlOps s |> <| s_DelayedWaitMs := s_DelayedWaitMs s |>
           <| s_Stats := restoreStats s0 (snapshot s) |>
           <| s_lastPriority := "" |> <| s_lastConsecutive := 0 |>).
Proof.
  unfold restore. rewrite restore_tasks_ok. cbn [result_bind sn_Queue snapshot].
  rewrite restore_queue_ok. cbn [result_bind]. rewrite restore_commits_ok. cbn [result_bind].
  rewrite restore_ops_ok. reflexivity.
Qed.

(** The restored store is as good as the one the snapshot was taken of. *)
Lemma restoredRecord_wf id r : record_wf id r -> record_wf id (restoredRecord r).
Proof.
  unfold restoredRecord. case_match; [done|]. intros [H1 H2 H3 H4 H5 [G1 G2 G3 G4 G5 G6 G7 G8]].
  destruct r. by split.
Qed.

Lemma restoredRecord_state r : tr_State (restoredRecord r) = tr_State r.
Proof. unfold restoredRecord. by case_match. Qed.

Lemma restored_commit k n :
  commit_ok ctl (s_Tasks s) k n -> commit_ok ctl (restoredRecord <$> s_Tasks s) k (trimCommit n).
Proof.
  intros (r & i & a & -> & Hr & Ha & Haid & Hcl & [W1 W2 W3 W4 W5] & Hwp & Ht).
  pose proof (bi_records _ _ (si_board _ _ Hinv) _ _ Hr) as Hwf. pose proof (rw_attempts _ _ Hwf _ _ Ha) as Hat.
  assert (Et : tc_TaskID (trimCommit n) = tc_TaskID n) by (cbn; by eapply wf_trim).
  assert (Ea : tc_AttemptID (trimCommit n) = tc_AttemptID n).
  { cbn. rewrite <- Haid, (aw_id _ _ _ Hat). apply aid_trim, (wf_normal _ _ Hwf). }
  exists (restoredRecord r), i, a. rewrite Et, Ea, lookup_fmap, Hr, restoredRecord_state. split_and!; try done.
  - unfold restoredRecord. by case_match.
  - split; cbn; [done | by rewrite lower_trim_idemp | by rewrite TrimSpace_idemp..].
Qed.

Lemma restored_inv s' :
  restore s0 (snapshot s) = Ok s' -> sched_inv ctl s0 -> sched_inv ctl s' /\ map_Forall op_wf (s_ControlOps s').
Proof.
  rewrite restore_snapshot_ok. intros [= <-] [_ Ht Hc]. destruct (si_board _ _ Hinv) as [Hrec Hcom Hkn Hwt Hex].
  split; [|done]. split; [|done..]. cbn in *. split; cbn.
  - intros id r. rewrite lookup_fmap. intros (r0 & Hr & ->)%fmap_Some. by apply restoredRecord_wf, Hrec.
  - intros k n. rewrite lookup_fmap. intros (n0 & Hn & ->)%fmap_Some. by apply restored_commit, Hcom.
  - intros id Hid. destruct (Hkn id Hid) as [r Hr]. exists (restoredRecord r). by rewrite lookup_fmap, Hr.
  - intros id r. rewrite lookup_fmap. intros (r0 & Hr & ->)%fmap_Some. rewrite restoredRecord_state. by apply Hwt.
  - intros _. destruct Hexact as [Hnd Hq]. split; [done|]. intros id r Hid. rewrite lookup_fmap.
    intros (r0 & Hr & ->)%fmap_Some. rewrite restoredRecord_state. by eapply Hq.
Qed.
End store.

(** Control operations are recorded in good form, by [controlTask] only. *)
Lemma handleRetryTransition_ops s id r c now :
  s_ControlOps (handleRetryTransition s id r c now).1 = s_ControlOps s.
Proof.
  unfold handleRetryTransition. cbn zeta. destruct (_ && _); [done|].
  destruct (_ <=? _); [by destruct (gv_DLQEnabled _)|].
  destruct (reentryPolicyOn _), (0 <? _); done.
Qed.

Lemma foldl_ops {A B} (f : schedulerState * B -> A -> schedulerState * B) l acc :
  (forall s out x, s_ControlOps (f (s, out) x).1 = s_ControlOps s) ->
  s_ControlOps (foldl f acc l).1 = s_ControlOps acc.1.
Proof.
  intros Hf. revert acc. induction l as [|x l IH]; intros [s out]; [done|]. cbn [foldl].
  rewrite IH. apply Hf.
Qed.

Lemma expireLeases_ops wall s now : s_ControlOps (expireLeases wall s now).1 = s_ControlOps s.
Proof.
  apply (foldl_ops _ _ (s, [])). intros s0 out id. unfold expireLeaseStep.
  destruct (s_Tasks s0 !! id) as [r|]; [|done]. destruct (negb _); [done|].
  destruct (currentAttempt r) as [c|]; [|done].
  pose proof (handleRetryTransition_ops s0 id r c (or_now wall now)) as H.
  destruct (handleRetryTransition _ _ _ _ _). exact H.
Qed.

Lemma expireAwaitingReports_ops wall s now : s_ControlOps (expireAwaitingReports wall s now).1 = s_ControlOps s.
Proof.
  apply (foldl_ops _ _ (s, [])). intros s0 out id. unfold expireAwaitingStep.
  destruct (s_Tasks s0 !! id) as [r|]; [|done]. destruct (negb _); [done|].
  destruct (currentAttempt r) as [c|]; [|done]. cbn zeta. by destruct (s_TerminalCommits _ !! _).
Qed.

Lemma countClaim_ops p y d w s : s_ControlOps (countClaim p y d w s) = s_ControlOps s.
Proof.
  unfold countClaim. cbn zeta.
  case_bool_decide; destruct y; cbn; destruct (p =s? s_lastPriority s), d; done.
Qed.

Lemma claim_ops wall s worker now lease : s_ControlOps (claim wall s worker now lease).1 = s_ControlOps s.
Proof.
  unfold claim. destruct (_ =s? _); [done|]. destruct (_ <=? _); [done|]. cbn zeta.
  pose proof (expireLeases_ops wall s (or_now wall now)) as H.
  destruct (expireLeases wall s (or_now wall now)) as [s1 out]. cbn [fst] in *.
  destruct (nextClaimableIndex s1 _) as [[i y]|]; [|done].
  destruct (s_Tasks _ !! _) as [r|]; [|done]. destruct (negb _); [done|]. cbn [fst].
  by rewrite countClaim_ops.
Qed.

Lemma applyTerminalCommit_ops s id r n : s_ControlOps (applyTerminalCommit s id r n).1 = s_ControlOps s.
Proof.
  unfold applyTerminalCommit. destruct (currentAttempt r); [|done]. destruct (negb _); [done|].
  destruct (tc_Status n); try done; cbn zeta; by destruct (tc_Source n =s? _).
Qed.

Lemma simple_ops wall s :
  (forall task now, s_ControlOps (enqueue wall s task now).1 = s_ControlOps s)
  /\ (forall t a k now d, s_ControlOps (heartbeat wall s t a k now d).1 = s_ControlOps s)
  /\ (forall t a k now d, s_ControlOps (markAwaitingReport wall s t a k now d).1 = s_ControlOps s)
  /\ (forall n, s_ControlOps (commitTerminal wall s n).1 = s_ControlOps s)
  /\ (forall n, s_ControlOps (commitAsyncReportTerminal wall s n).1 = s_ControlOps s)
  /\ (forall t now, s_ControlOps (requeue wall s t now).1 = s_ControlOps s).
Proof.
  split_and!.
  - intros task now. unfold enqueue. destruct (normalizeTask task); [|done].
    destruct (s_Tasks s !! _); [by case_match|]. cbn zeta. by destruct (isTaskDelayed _ _).
  - intros t a k now d. unfold heartbeat. cbn zeta. by repeat (case_match; try done).
  - intros t a k now d. unfold markAwaitingReport. cbn zeta. by repeat (case_match; try done).
  - intros n. unfold commitTerminal. cbn zeta. repeat (case_match; try done). apply applyTerminalCommit_ops.
  - intros n. unfold commitAsyncReportTerminal. destruct (normalizeCommit wall n) as [n0|]; [|done].
    cbn zeta. generalize (if tc_Source n0 =s? "" then n0 <| tc_Source := AsyncResolutionSourceCallback |> else n0).
    intros n1. destruct (s_Tasks s !! _); [|done].
    destruct (s_TerminalCommits s !! _); [by destruct (_ && _)|].
    repeat (case_match; try done). apply applyTerminalCommit_ops.
  - intros t now. unfold requeue. cbn zeta. destruct (_ =s? _); [done|].
    destruct (s_Tasks s !! _) as [r|]; [|done]. destruct (negb _); [done|].
    destruct (currentAttempt r) as [c|]; [|done].
    pose proof (handleRetryTransition_ops s (TrimSpace t) r c (or_now wall now)) as H.
    destruct (handleRetryTransition _ _ _ _ _). exact H.
Qed.

(** [controlTask] adds at most one operation, under its trimmed id. *)
Lemma controlTask_ops ctl wall s req now :
  sched_inv ctl s -> map_Forall op_wf (s_ControlOps s) ->
  map_Forall op_wf (s_ControlOps (controlTask wall s req now).1).
Proof.
  intros Hinv Hops. unfold controlTask. destruct (negb _); [done|].
  destruct (str_eqb_spec (TrimSpace (rq_OperationID req)) "") as [|Hop]; [done|].
  destruct (normalizeTaskBoardControlAction _) as [act|]; [|done]. cbn zeta.
  destruct (s_ControlOps s !! _) as [prev|]; [by destruct (_ || _)|].
  destruct (s_Tasks s !! TrimSpace (rq_TaskID req)) as [r|] eqn:Ht; [|done].
  pose proof (bi_records _ _ (si_board _ _ Hinv) _ _ Ht) as Hwf.
  assert (Hwfo : forall act rec reason, TrimSpace reason = reason ->
    act = TaskBoardControlActionCancel \/ act = TaskBoardControlActionRetryTerminal ->
    op_wf (TrimSpace (rq_OperationID req))
      (mkTaskBoardControlResult (tk_TaskID (tr_Task r)) act (TrimSpace (rq_OperationID req)) true false reason rec)).
  { intros act0 rec reason Hreason Hact. rewrite (rw_id _ _ Hwf). split; cbn; auto.
    - unfold trimControlOp, set_field. cbn. by rewrite TrimSpace_idemp, TrimSpace_idemp, Hreason.
    - split; [done | by eapply wf_nonempty]. }
  destruct act as [| |a]; [unfold applyManualCancel | unfold applyManualRetry | done].
  - destruct (tr_State r); try done; [|destruct (currentAttempt r); [|done]];
      (apply map_Forall_insert_2; [apply Hwfo; auto | exact Hops]).
  - destruct (negb _); [done|]. destruct (_ <=? _); [done|].
    apply map_Forall_insert_2; [apply Hwfo; auto | exact Hops].
Qed.

Lemma run_ops ctl wall s c :
  sched_inv ctl s -> map_Forall op_wf (s_ControlOps s) -> map_Forall op_wf (s_ControlOps (run wall s c)).
Proof.
  intros Hs IH. destruct (simple_ops wall s) as (E1 & E2 & E3 & E4 & E5 & E6).
  destruct c; cbn [run]; try done;
    rewrite ?E1, ?E2, ?E3, ?E4, ?E5, ?E6, ?claim_ops, ?expireLeases_ops, ?expireAwaitingReports_ops;
    try done.
  - unfold recordAsyncReconcileStats. by repeat case_match.
  - by eapply controlTask_ops.
Qed.

Lemma reachable_ops ctl s : reachable ctl s -> map_Forall op_wf (s_ControlOps s).
Proof.
  induction 1 as [backend|s wall c Hs IH Hadm]; [apply map_Forall_empty|].
  eapply run_ops; [by apply reachable_inv | done].
Qed.
