(* ===== verification/SchedulerProps.v ===== *)
(** * Scheduler: the properties

    The theorems about the scheduler store: refinement of the task board, its
    invariants, claims and their order, leases, terminal commits, retries and
    manual control. Each theorem with hypotheses is followed by an instance on a
    concrete store. *)
From S2P Require Import Prelude GoStrings GoNum SchedulerTypes SchedulerState SchedulerSelect.
From S2P Require Import SchedulerBoard SchedulerRefine SchedulerOps.

Local Open Scope bool_scope.
Local Open Scope string_scope.
Local Open Scope list_scope.
Local Open Scope Z_scope.

(** ** Concrete stores *)

Definition t0 : Time := 63800000000 * Second.

Definition demoTask (id priority : string) : Task :=
  mkTask "" id "" "" "" "" "" "" "" priority ∅ 2 0
    (mkTimeoutResolutionMetadata "" "" "" 0 false) None.

Definition demoCommit (id attempt : string) (st : TaskState) : TerminalCommit :=
  mkTerminalCommit id attempt st "" "" ∅ "" "" "" "" 0 None.

(** [a] is running for worker [w1], [b] waits. *)
Definition demo : schedulerState :=
  runs (newSchedulerState "memory")
    [(t0, CallEnqueue (demoTask "a" "high") t0); (t0, CallEnqueue (demoTask "b" "low") t0);
     (t0, CallClaim "w1" t0 (10 * Second))].

(** [a] waits for the report of its remote execution. *)
Definition demoAwaiting : schedulerState :=
  runs demo [(t0, CallMarkAwaitingReport "a" "a-attempt-1" "r" t0 (60 * Second))].

(** [a] has succeeded. *)
Definition demoDone : schedulerState :=
  runs demo [(t0, CallCommitTerminal (demoCommit "a" "a-attempt-1" TaskStateSucceeded))].

(** Manual control is on and [b] waits. *)
Definition demoControl : schedulerState :=
  runs (newSchedulerState "memory")
    [(t0, CallSetTaskBoardControl (mkTaskBoardControlConfig true 3));
     (t0, CallEnqueue (demoTask "b" "low") t0)].

Definition demoCancel : TaskBoardControlRequest := mkTaskBoardControlRequest "b" "cancel" "op1" "" "".

(** The records of the concrete stores, evaluated. *)
Definition recordOf (s : schedulerState) (id : string) : TaskRecord :=
  default (queuedRecord (demoTask "" "") 0) (s_Tasks s !! id).

Definition demoA : TaskRecord := Eval vm_compute in recordOf demo "a".
Definition demoB : TaskRecord := Eval vm_compute in recordOf demo "b".
Definition demoDoneA : TaskRecord := Eval vm_compute in recordOf demoDone "a".

Lemma demo_a : s_Tasks demo !! "a" = Some demoA.
Proof. vm_compute. reflexivity. Qed.
Lemma demo_b : s_Tasks demo !! "b" = Some demoB.
Proof. vm_compute. reflexivity. Qed.
Lemma demoDone_a : s_Tasks demoDone !! "a" = Some demoDoneA.
Proof. vm_compute. reflexivity. Qed.

Lemma runs_reachable ctl s l :
  reachable ctl s -> Forall (fun wc => admits ctl wc.2) l -> reachable ctl (runs s l).
Proof.
  revert s. induction l as [|[w c] l IH]; intros s Hs Hl; cbn; [done|].
  apply Forall_cons in Hl as [? ?]. apply IH; [by apply Reach_call | done].
Qed.

Lemma demo_reachable : reachable false demo.
Proof. apply runs_reachable; [apply Reach_new | by repeat constructor]. Qed.

Lemma demoAwaiting_reachable : reachable false demoAwaiting.
Proof. apply runs_reachable; [apply demo_reachable | by repeat constructor]. Qed.

Lemma demoDone_reachable : reachable false demoDone.
Proof. apply runs_reachable; [apply demo_reachable | by repeat constructor]. Qed.

Lemma demoControl_reachable : reachable true demoControl.
Proof. apply runs_reachable; [apply Reach_new | by repeat constructor]. Qed.

(** ** Refinement and invariants *)

(** C1: every call on a reachable store moves its records, queue and commits
    only by the rules of the task board: the store implements the abstract
    board machine, whatever the configuration, the clock and the arguments. *)
Theorem scheduler_refines_board (ctl : bool) (wall : Time) (s : schedulerState) (c : call) :
  reachable ctl s -> rtc (board_step ctl) (board_of s) (board_of (run wall s c)).
Proof. intros Hs. apply run_board. by apply reachable_inv. Qed.

Lemma scheduler_refines_board_witness :
  rtc (board_step false) (board_of demo) (board_of (run t0 demo (CallExpireLeases (t0 + 20 * Second)))).
Proof. apply (scheduler_refines_board false t0 demo). apply demo_reachable. Defined.

(** C2: in a reachable store every task has at most one running attempt: a task
    that runs or awaits its report has exactly one, the last and current one,
    and a task in any other state has none and no current attempt. *)
Theorem single_active_attempt (ctl : bool) (s : schedulerState) (id : string) (r : TaskRecord) :
  reachable ctl s -> s_Tasks s !! id = Some r ->
  match tr_State r with
  | TaskStateRunning | TaskStateAwaitingReport =>
      exists closed c, tr_Attempts r = closed ++ [c] /\ currentAttempt r = Some c
        /\ at_Status c = AttemptStatusRunning
        /\ Forall (fun a => at_Status a <> AttemptStatusRunning) closed
  | TaskStateOther _ => False
  | _ => currentAttempt r = None /\ Forall (fun a => at_Status a <> AttemptStatusRunning) (tr_Attempts r)
  end.
Proof.
  intros Hs Hr. apply reachable_inv in Hs as [Hb _ _]. pose proof (bi_records _ _ Hb _ _ Hr) as Hwf.
  pose proof (rw_phase _ _ Hwf) as Hp. unfold phase_ok in Hp.
  assert (Hidle : idle r -> currentAttempt r = None /\ Forall not_running (tr_Attempts r)).
  { intros [E HF]. unfold currentAttempt, attemptByID. rewrite E, TrimSpace_empty. auto. }
  destruct (tr_State r); auto;
    destruct (currentAttempt_live _ _ Hwf Hp) as (l & c & ? & ? & _ & ? & ?); exists l, c; auto.
Qed.

Lemma single_active_attempt_witness :
  exists closed c, tr_Attempts demoA = closed ++ [c] /\ currentAttempt demoA = Some c.
Proof.
  destruct (single_active_attempt false demo "a" demoA demo_reachable demo_a) as (l & c & H1 & H2 & _ & _).
  exists l, c. split; [exact H1|exact H2].
Defined.

(** No task is lost: a queued task is in the queue, the queue names only
    known tasks, and while manual control is off the queue holds exactly the
    queued tasks, each once. *)
Theorem queue_holds_queued_tasks (ctl : bool) (s : schedulerState) :
  reachable ctl s ->
  (forall id r, s_Tasks s !! id = Some r -> tr_State r = TaskStateQueued -> id ∈ s_Queue s)
  /\ (forall id, id ∈ s_Queue s -> is_Some (s_Tasks s !! id))
  /\ (ctl = false -> NoDup (s_Queue s)
      /\ forall id, id ∈ s_Queue s <-> exists r, s_Tasks s !! id = Some r /\ tr_State r = TaskStateQueued).
Proof.
  intros [Hb _ _]%reachable_inv. destruct Hb as [_ _ Hkn Hw Hex]. cbn in *.
  split_and!; [exact Hw | exact Hkn |]. intros Hctl. destruct (Hex Hctl) as [Hnd Hq]. split; [done|].
  intros id. split; [|intros (r & ? & ?); eauto].
  intros Hin. destruct (Hkn id Hin) as [r Hr]. eauto.
Qed.

Lemma queue_holds_queued_tasks_witness : "b" ∈ s_Queue demo.
Proof.
  destruct (queue_holds_queued_tasks false demo demo_reachable) as (H & _).
  apply (H "b" demoB demo_b). reflexivity.
Defined.

(** C38: the attempts of a task never exceed its [MaxAttempts] plus the manual
    retries granted, and a queued task always has an attempt left. *)
Theorem attempts_within_budget (ctl : bool) (s : schedulerState) (id : string) (r : TaskRecord) :
  reachable ctl s -> s_Tasks s !! id = Some r ->
  Z.of_nat (length (tr_Attempts r)) <= tk_MaxAttempts (tr_Task r) + tr_ManualRetryCount r
  /\ (tr_State r = TaskStateQueued ->
      Z.of_nat (length (tr_Attempts r)) < tk_MaxAttempts (tr_Task r) + tr_ManualRetryCount r)
  /\ forall n a, tr_Attempts r !! n = Some a ->
       at_Attempt a = Z.of_nat n + 1 /\ at_AttemptID a = minted id "-attempt-" (Z.of_nat n + 1).
Proof.
  intros [Hb _ _]%reachable_inv Hr. pose proof (bi_records _ _ Hb _ _ Hr) as Hwf.
  destruct (rw_budget _ _ Hwf) as (_ & H1 & H2). split_and!; [exact H1 | exact H2 |].
  intros n a Ha. pose proof (rw_attempts _ _ Hwf n a Ha) as [Hid Hn _ _ _].
  by rewrite Hid, (rw_id _ _ Hwf).
Qed.

Lemma attempts_within_budget_witness :
  Z.of_nat (length (tr_Attempts demoA)) <= tk_MaxAttempts (tr_Task demoA) + tr_ManualRetryCount demoA.
Proof. apply (attempts_within_budget false demo "a" demoA demo_reachable demo_a). Defined.

(** Whatever calls follow, a task stays on the board with the same
    definition and creation time, an attempt closed by a commit is never
    changed or removed, and a succeeded task stays as it is (only its conflict
    flag may be raised). *)
Theorem history_is_append_only (ctl : bool) (s : schedulerState) (l : list (Time * call))
    (id : string) (r : TaskRecord) :
  reachable ctl s -> Forall (fun wc => admits ctl wc.2) l -> s_Tasks s !! id = Some r ->
  exists r', s_Tasks (runs s l) !! id = Some r'
    /\ tr_Task r' = tr_Task r /\ tr_CreatedAt r' = tr_CreatedAt r
    /\ (length (tr_Attempts r) <= length (tr_Attempts r'))%nat
    /\ (forall n a, tr_Attempts r !! n = Some a -> closed a -> tr_Attempts r' !! n = Some a)
    /\ (tr_State r = TaskStateSucceeded -> r' = r \/ r' = r <| tr_TerminalConflict := true |>).
Proof.
  intros Hs Hl Hr. apply reachable_inv in Hs. destruct (runs_board ctl s l Hs Hl) as [Hst _].
  destruct (board_steps_evolve ctl _ _ id r (si_board _ _ Hs) Hst Hr) as (r' & Hr' & ? & ? & ? & ? & ?).
  exists r'. auto 10.
Qed.

Lemma history_is_append_only_witness :
  exists r', s_Tasks (runs demoDone [(t0, CallClaim "w2" t0 Second)]) !! "a" = Some r'
    /\ (r' = demoDoneA \/ r' = demoDoneA <| tr_TerminalConflict := true |>).
Proof.
  destruct (history_is_append_only false demoDone [(t0, CallClaim "w2" t0 Second)] "a" demoDoneA
    demoDone_reachable ltac:(by repeat constructor) demoDone_a) as (r' & H & _ & _ & _ & _ & H2).
  exists r'. split; [exact H|]. apply H2. reflexivity.
Defined.

(** ** Claims *)

(** The one-pass scan of [nextClaimableIndex] selects exactly what its
    specification says: the first claimable entry, or in priority mode the first
    entry of the highest claimable priority, yielding to the next claimable
    priority once the fairness threshold is used up. *)
Theorem nextClaimableIndex_meets_spec (s : schedulerState) (now : Time) :
  nextClaimableIndex s now = selectSpec s now.
Proof. apply nextClaimableIndex_select. Qed.

(** C13: a claim with a worker and a positive lease never fails. It first sweeps
    the lapsed leases; then it hands out the selected entry, with a fresh
    attempt and a lease of the requested length, and removes exactly that entry
    from the queue; it returns no task only when no queue entry is claimable. *)
Theorem claim_hands_out_selected_task (ctl : bool) (wall : Time) (s : schedulerState)
    (worker : string) (now : Time) (lease : Duration) :
  reachable ctl s -> TrimSpace worker <> "" -> 0 < lease ->
  let nw := or_now wall now in
  let s1 := (expireLeases wall s now).1 in
  match claim wall s worker now lease with
  | (s', Ok (Some ct)) =>
      exists i id r,
        selectSpec s1 nw = Some (i, ct_FairnessYielded ct)
        /\ s_Queue s1 !! i = Some id /\ s_Tasks s1 !! id = Some r
        /\ tr_State r = TaskStateQueued /\ isClaimableRecord (Some r) nw = true
        /\ ct_Attempt ct = newAttempt id r (TrimSpace worker) nw lease
        /\ at_LeaseExpiresAt (ct_Attempt ct) = nw + lease
        /\ ct_Record ct = claimedRecord (ct_Attempt ct) nw r
        /\ s_Tasks s' = <[id := ct_Record ct]> (s_Tasks s1)
        /\ s_Queue s' = delete i (s_Queue s1)
  | (s', Ok None) => s' = s1 /\ Forall (fun id => claimPriority (s_Tasks s1) nw id = None) (s_Queue s1)
  | (_, Err _) => False
  end.
Proof.
  intros Hs Hw Hl. cbn zeta.
  destruct (claim_cases ctl wall s worker now lease (reachable_inv _ _ Hs) Hw Hl) as [_ H].
  destruct (selectSpec _ _) as [[i y]|] eqn:Hsel.
  - destruct H as (s' & ct & -> & id & r & Hi & Hr & Hc & Hq & Ht & Hqu & _ & _ & _ & ->).
    exists i, id, r. split_and!; done.
  - rewrite H. split; [done|]. by apply selectSpec_None.
Qed.

Lemma demo_claim : exists s' ct, claim t0 demo "w2" (t0 + Second) Second = (s', Ok (Some ct)).
Proof. eexists _, _. vm_compute. reflexivity. Qed.

Lemma claim_hands_out_selected_task_witness :
  exists s' ct id r, claim t0 demo "w2" (t0 + Second) Second = (s', Ok (Some ct))
    /\ s_Tasks (expireLeases t0 demo (t0 + Second)).1 !! id = Some r /\ tr_State r = TaskStateQueued
    /\ ct_Attempt ct = newAttempt id r "w2" (t0 + Second) Second.
Proof.
  pose proof (claim_hands_out_selected_task false t0 demo "w2" (t0 + Second) Second demo_reachable
    ltac:(by vm_compute) ltac:(by vm_compute)) as H.
  destruct demo_claim as (s' & ct & E). rewrite E in H.
  destruct H as (i & id & r & _ & _ & Hr & Hs & _ & Ha & _). exists s', ct, id, r.
  split; [exact E|]. split; [exact Hr|]. split; [exact Hs|]. rewrite Ha. reflexivity.
Defined.

(** The order of claims. First in, first out takes the first claimable entry.
    In priority mode the entry taken is the first of its priority; no claimable
    entry has a higher priority unless the claim yields; and it yields only when
    the last threshold claims all had a higher priority, so that once a priority
    has used up its turn it is taken again only if nothing else is claimable. *)
Theorem claim_order (s : schedulerState) (now : Time) (i : nat) (yielded : bool) (id p : string) :
  nextClaimableIndex s now = Some (i, yielded) ->
  s_Queue s !! i = Some id -> claimPriority (s_Tasks s) now id = Some p ->
  forall j x p', s_Queue s !! j = Some x -> claimPriority (s_Tasks s) now x = Some p' ->
    (gv_QoS (s_governance s) <> QoSModePriority -> (i <= j)%nat)
    /\ (gv_QoS (s_governance s) = QoSModePriority ->
        (p' = p -> (i <= j)%nat)
        /\ (yielded = false -> (priorityRank p <= priorityRank p')%nat /\ (turnUsedUp s p = true -> p' = p))
        /\ (yielded = true -> exists p0, turnUsedUp s p0 = true /\ (priorityRank p0 < priorityRank p)%nat)).
Proof.
  rewrite nextClaimableIndex_select. intros Hsel Hi Hp j x p' Hj Hp'. split.
  - intros Hq. apply Nat.nlt_ge. intros Hlt.
    by rewrite (selectSpec_fifo _ _ _ _ Hq Hsel j x Hj Hlt) in Hp'.
  - intros Hq. destruct (selectSpec_priority _ _ _ _ _ _ Hq Hsel Hi Hp j x p' Hj Hp') as (H1 & H2 & H3).
    split_and!; [done | done |]. intros Hy. by destruct (H3 Hy).
Qed.

Definition demoWaiting : schedulerState :=
  runs (newSchedulerState "memory")
    [(t0, CallSetGovernance (mkGovernanceConfig QoSModePriority 1 false (gv_Backoff defaultGovernanceConfig)));
     (t0, CallEnqueue (demoTask "b" "low") t0); (t0, CallEnqueue (demoTask "a" "high") t0)].

Lemma demoWaiting_select : nextClaimableIndex demoWaiting t0 = Some (1%nat, false).
Proof. vm_compute. reflexivity. Qed.

Lemma claim_order_witness : (priorityRank "high" <= priorityRank "low")%nat.
Proof.
  assert (Hq : gv_QoS (s_governance demoWaiting) = QoSModePriority) by (vm_compute; reflexivity).
  destruct (claim_order demoWaiting t0 1 false "a" "high" demoWaiting_select
    ltac:(vm_compute; reflexivity) ltac:(vm_compute; reflexivity) 0%nat "b" "low"
    ltac:(vm_compute; reflexivity) ltac:(vm_compute; reflexivity)) as [_ H].
  apply (H Hq). reflexivity.
Defined.

(** ** Leases *)

(** A lease sweep is exact: every running task whose lease has run out loses
    its attempt and becomes queued, failed or dead-lettered, every other task is
    untouched, and no lapsed lease remains. *)
Theorem lease_sweep_is_exact (wall : Time) (s : schedulerState) (now : Time) (id : string) :
  let nw := or_now wall now in
  let s' := (expireLeases wall s now).1 in
  match s_Tasks s !! id with
  | Some r => exists r', s_Tasks s' !! id = Some r' /\ leaseLapsed nw r' = false
                /\ (if leaseLapsed nw r
                    then tr_CurrentAttempt r' = "" /\ tr_State r' <> TaskStateRunning
                    else r' = r)
  | None => s_Tasks s' !! id = None
  end.
Proof.
  cbn zeta. pose proof (expireLeases_tasks wall s now id) as H. cbn zeta in H.
  destruct (s_Tasks s !! id) as [r|]; [|done].
  destruct (leaseLapsed (or_now wall now) r) eqn:Hl; [|by eauto].
  destruct H as (r' & Hr' & _ & Hc & Hs). exists r'.
  assert (Hnr : tr_State r' <> TaskStateRunning) by (destruct Hs as [E|[E|E]]; by rewrite E).
  split_and!; auto. unfold leaseLapsed. by rewrite bool_decide_false.
Qed.

(** A heartbeat succeeds exactly for the holder of a live lease: the named
    task runs, the named attempt is its current one, the token is its token and
    the lease has not run out. It moves the end of the lease to now plus the
    timeout and changes nothing else; a heartbeat that fails changes nothing. *)
Theorem heartbeat_renews_own_lease (wall : Time) (s : schedulerState)
    (taskID attemptID token : string) (now : Time) (lease : Duration) :
  let nw := or_now wall now in
  (forall s' ct, heartbeat wall s taskID attemptID token now lease = (s', Ok ct) <->
    exists r c, TrimSpace taskID <> "" /\ TrimSpace attemptID <> "" /\ TrimSpace token <> "" /\ 0 < lease
      /\ holds_lease s (TrimSpace taskID) (TrimSpace attemptID) (TrimSpace token) nw r c
      /\ ct_Attempt ct = c <| at_HeartbeatAt := nw |> <| at_LeaseExpiresAt := nw + lease |>
      /\ ct = mkClaimedTask (renewedRecord (ct_Attempt ct) nw r) (ct_Attempt ct) "" false
      /\ s' = putTask (TrimSpace taskID) (ct_Record ct) s)
  /\ (forall s' e, heartbeat wall s taskID attemptID token now lease = (s', Err e) -> s' = s).
Proof.
  cbn zeta. split; [|intros s' e; apply heartbeat_err].
  intros s' ct. rewrite heartbeat_ok. cbn zeta. split.
  - intros (r & c & ? & ? & ? & ? & ? & -> & ->). exists r, c. cbn. split_and!; done.
  - intros (r & c & ? & ? & ? & ? & ? & E & Hct & ->). exists r, c. split_and!; try done.
    + by rewrite Hct, E.
    + by rewrite Hct, E.
Qed.

(** C24: a worker whose lease was lost is fenced off: while another attempt of
    the task is current, its heartbeat is refused, and so is its terminal commit
    (unless that commit had been recorded, when it is a duplicate); neither
    changes the store. *)
Theorem stale_worker_is_fenced (ctl : bool) (wall : Time) (s : schedulerState) (id : string)
    (r : TaskRecord) (c : Attempt) (token : string) (now : Time) (lease : Duration)
    (commit : TerminalCommit) (n : TerminalCommit) :
  reachable ctl s -> s_Tasks s !! id = Some r -> currentAttempt r = Some c ->
  normalizeCommit wall commit = Ok n -> tc_TaskID n = id -> tc_AttemptID n <> at_AttemptID c ->
  s_TerminalCommits s !! terminalCommitKey id (tc_AttemptID n) = None ->
  (exists e, heartbeat wall s id (tc_AttemptID n) token now lease = (s, Err e))
  /\ exists e, commitTerminal wall s commit = (s, Err e)
     /\ (tr_State r = TaskStateRunning -> tc_WorkspaceProvenance n = at_WorkspaceProvenance c ->
         e = ErrStaleAttempt).
Proof.
  intros Hs Hr Hc Hn Hid Hne Hm. apply reachable_inv in Hs as [Hb _ _].
  pose proof (wf_trim _ _ (bi_records _ _ Hb _ _ Hr)) as Htrim.
  destruct (normalizeCommit_wf wall _ _ Hn) as (_ & _ & Hat & _).
  split.
  - destruct (heartbeat wall s id (tc_AttemptID n) token now lease) as [s' [ct|e]] eqn:E.
    + apply heartbeat_ok in E as (r0 & c0 & _ & _ & _ & _ & (Hr0 & _ & Hc0 & Hida & _) & _).
      rewrite Htrim, Hat in *. congruence.
    + apply heartbeat_err in E as ->. eauto.
  - unfold commitTerminal. rewrite Hn, Hid, Hr, Hm, Hc. unfold applyTerminalCommit. rewrite Hc.
    apply not_eq_sym, str_eqb_neq in Hne. rewrite Hne. cbn [negb].
    case_bool_decide; cbn [negb]; [|eexists; split; [done|]; done].
    destruct (workspaceProvenanceEqual _ _) eqn:Hw; cbn [negb]; eexists; (split; [done|]); [done|].
    intros _ E. rewrite E in Hw. unfold workspaceProvenanceEqual in Hw. by rewrite bool_decide_true in Hw.
Qed.

(** [a] lost its first lease and runs for [w2]. *)
Definition demoRetaken : schedulerState :=
  runs demo [(t0, CallClaim "w2" (t0 + 20 * Second) (10 * Second));
             (t0, CallClaim "w2" (t0 + 20 * Second) (10 * Second))].
Definition demoRetakenA : TaskRecord := Eval vm_compute in recordOf demoRetaken "a".
Definition demoRetakenAttempt : Attempt := Eval vm_compute in latestAttempt demoRetakenA.
Definition staleCommit : TerminalCommit :=
  Eval vm_compute in match normalizeCommit t0 (demoCommit "a" "a-attempt-1" TaskStateSucceeded) with
                     | Ok n => n | Err _ => demoCommit "" "" TaskStateFailed end.

Lemma demoRetaken_reachable : reachable false demoRetaken.
Proof. apply runs_reachable; [apply demo_reachable | by repeat constructor]. Qed.

Lemma stale_worker_is_fenced_witness :
  (exists e, heartbeat t0 demoRetaken "a" "a-attempt-1" "k" t0 Second = (demoRetaken, Err e))
  /\ commitTerminal t0 demoRetaken (demoCommit "a" "a-attempt-1" TaskStateSucceeded)
     = (demoRetaken, Err ErrStaleAttempt).
Proof.
  destruct (stale_worker_is_fenced false t0 demoRetaken "a" demoRetakenA demoRetakenAttempt "k" t0 Second
    (demoCommit "a" "a-attempt-1" TaskStateSucceeded) staleCommit demoRetaken_reachable
    ltac:(vm_compute; reflexivity) ltac:(vm_compute; reflexivity) ltac:(vm_compute; reflexivity)
    ltac:(vm_compute; reflexivity) ltac:(by vm_compute) ltac:(vm_compute; reflexivity)) as [H1 (e & H2 & H3)].
  split; [exact H1|]. rewrite H2. f_equal. f_equal. apply H3; vm_compute; reflexivity.
Defined.

(** ** Terminal commits *)

(** C4: a terminal commit takes effect exactly once. An accepted commit closes
    the current attempt and makes the task terminal with its status; from then
    on, after any further calls, committing it again is reported as a duplicate
    and leaves records, queue and commits as they are. *)
Theorem terminal_commit_takes_effect_once (ctl : bool) (wall : Time) (s s' : schedulerState)
    (commit : TerminalCommit) (res : CommitResult) (l : list (Time * call)) (wall' : Time) :
  reachable ctl s -> commitTerminal wall s commit = (s', Ok res) -> cr_Duplicate res = false ->
  Forall (fun wc => admits ctl wc.2) l ->
  let id := TrimSpace (tc_TaskID commit) in
  s_Tasks s' !! id = Some (cr_Record res)
  /\ tr_State (cr_Record res) = tc_Status commit /\ tr_CurrentAttempt (cr_Record res) = ""
  /\ exists r2, s_Tasks (runs s' l) !! id = Some r2
     /\ commitTerminal wall' (runs s' l) commit
        = (onStats (fun st => st <| st_DuplicateTerminalCommitTotal ::= Z.succ |>) (runs s' l),
           Ok (mkCommitResult r2 true false false)).
Proof.
  intros Hs Hok Hdup Hl id.
  assert (Hinv' : sched_inv ctl s').
  { pose proof (commitTerminal_refines ctl wall s commit (reachable_inv _ _ Hs)) as Href.
    rewrite Hok in Href. eapply refines_inv; [by apply reachable_inv | exact Href]. }
  destruct (commitTerminal_fresh _ _ _ _ _ Hok Hdup)
    as (n & r & c & Hn & Hr & Hst & Hc & Haid & Hwp & Hrec & Htasks & _ & Hcommits).
  destruct (normalizeCommit_fields _ _ _ Hn) as (E1 & E2 & E3 & _).
  destruct (runs_board ctl s' l Hinv' Hl) as [Hsteps _].
  assert (Hlook : s_Tasks s' !! id = Some (cr_Record res)).
  { rewrite Htasks. unfold id. rewrite <- E1. apply lookup_insert_eq. }
  destruct (board_steps_evolve ctl _ _ id _ (si_board _ _ Hinv') Hsteps Hlook) as (r2 & Hr2 & _).
  split_and!; [done | by rewrite Hrec, <- E3 | by rewrite Hrec |].
  exists r2. split; [exact Hr2|].
  destruct (normalizeCommit_any_wall wall wall' commit n Hn) as [n' Hn'].
  destruct (normalizeCommit_fields _ _ _ Hn') as (F1 & F2 & _).
  eapply commitTerminal_replay; [exact Hn' | by rewrite F1 |].
  eapply (commits_persist ctl (board_of s') (board_of (runs s' l))); [exact Hsteps|].
  cbn. rewrite Hcommits, F1, F2, <- E1, <- E2. apply lookup_insert_eq.
Qed.

Definition demoResult : CommitResult :=
  Eval vm_compute in
    match commitTerminal t0 demo (demoCommit "a" "a-attempt-1" TaskStateSucceeded) with
    | (_, Ok res) => res | _ => mkCommitResult (recordOf demo "a") true false false end.

Lemma demo_commit :
  commitTerminal t0 demo (demoCommit "a" "a-attempt-1" TaskStateSucceeded) = (demoDone, Ok demoResult).
Proof. vm_compute. reflexivity. Qed.

Lemma terminal_commit_takes_effect_once_witness :
  exists r2, commitTerminal t0 (runs demoDone [(t0, CallClaim "w2" t0 Second)])
      (demoCommit "a" "a-attempt-1" TaskStateSucceeded)
    = (onStats (fun st => st <| st_DuplicateTerminalCommitTotal ::= Z.succ |>)
         (runs demoDone [(t0, CallClaim "w2" t0 Second)]), Ok (mkCommitResult r2 true false false)).
Proof.
  destruct (terminal_commit_takes_effect_once false t0 demo demoDone
    (demoCommit "a" "a-attempt-1" TaskStateSucceeded) demoResult [(t0, CallClaim "w2" t0 Second)] t0
    demo_reachable demo_commit eq_refl ltac:(by repeat constructor)) as (_ & _ & _ & r2 & _ & H).
  exists r2. exact H.
Defined.

(** C39: a report that misses its deadline loses. The timeout sweep fails (or
    dead-letters) every awaiting task whose deadline passed and records the
    timeout as the attempt's terminal commit; a report for that attempt that
    comes later is answered as a late duplicate and cannot revive the task: only
    the conflict flag of the record may change. *)
Theorem late_report_cannot_revive (ctl : bool) (wall : Time) (s : schedulerState) (now : Time)
    (id : string) (r : TaskRecord) (c : Attempt) (report : TerminalCommit) (n : TerminalCommit) :
  reachable ctl s -> s_Tasks s !! id = Some r -> currentAttempt r = Some c ->
  reportLapsed (or_now wall now) r = true ->
  normalizeCommit wall report = Ok n -> tc_TaskID n = id -> tc_AttemptID n = at_AttemptID c ->
  let s1 := (expireAwaitingReports wall s now).1 in
  exists r1, s_Tasks s1 !! id = Some r1
    /\ (tr_State r1 = TaskStateFailed \/ tr_State r1 = TaskStateDeadLetter)
    /\ tr_CurrentAttempt r1 = "" /\ tr_ResolutionSource r1 = AsyncResolutionSourceTimeout
    /\ exists s2 r2 conflict,
         commitAsyncReportTerminal wall s1 report = (s2, Ok (mkCommitResult r2 true true conflict))
         /\ s_Tasks s2 !! id = Some r2 /\ (r2 = r1 \/ r2 = r1 <| tr_TerminalConflict := true |>)
         /\ s_Queue s2 = s_Queue s1 /\ s_TerminalCommits s2 = s_TerminalCommits s1.
Proof.
  intros Hs Hr Hc Hl Hn Hid Haid s1. apply reachable_inv in Hs.
  pose proof (expireAwaitingReports_tasks ctl wall s now id Hs) as H. cbn zeta in H.
  rewrite Hr, Hl in H. destruct H as (c0 & Hc0 & Hr1 & Hk). rewrite Hc in Hc0. injection Hc0 as <-.
  fold s1 in Hr1, Hk.
  set (r1 := timedOutRecord (timeoutTerminalState s) (endAttempt AttemptStatusFailed (or_now wall now) c)
               (or_now wall now) r) in *.
  exists r1. split; [exact Hr1|]. split; [by eapply timeoutTerminalState_cases|]. split; [done|]. split; [done|].
  unfold commitAsyncReportTerminal. rewrite Hn. cbn zeta.
  set (n1 := if tc_Source n =s? "" then _ else n).
  assert (tc_TaskID n1 = id /\ tc_AttemptID n1 = at_AttemptID c) as [E1 E2]
    by (unfold n1; by case_match). clearbody n1.
  rewrite E1, E2, Hr1, Hk. destruct (_ && _).
  - eexists _, _, _. split; [reflexivity|]. split; [apply lookup_insert_eq|].
    split; [right; reflexivity|]. by split.
  - eexists _, _, _. split; [reflexivity|]. split; [exact Hr1|].
    split; [left; reflexivity|]. by split.
Qed.

Definition demoAwaitingA : TaskRecord := Eval vm_compute in recordOf demoAwaiting "a".
Definition demoAwaitingAttempt : Attempt := Eval vm_compute in latestAttempt demoAwaitingA.

Lemma late_report_cannot_revive_witness :
  let s1 := (expireAwaitingReports t0 demoAwaiting (t0 + 61 * Second)).1 in
  exists s2 r2 conflict,
    commitAsyncReportTerminal t0 s1 (demoCommit "a" "a-attempt-1" TaskStateSucceeded)
    = (s2, Ok (mkCommitResult r2 true true conflict)).
Proof.
  destruct (late_report_cannot_revive false t0 demoAwaiting (t0 + 61 * Second) "a" demoAwaitingA
    demoAwaitingAttempt (demoCommit "a" "a-attempt-1" TaskStateSucceeded) staleCommit demoAwaiting_reachable
    ltac:(vm_compute; reflexivity) ltac:(vm_compute; reflexivity) ltac:(vm_compute; reflexivity)
    ltac:(vm_compute; reflexivity) ltac:(vm_compute; reflexivity) ltac:(vm_compute; reflexivity))
    as (r1 & _ & _ & _ & _ & s2 & r2 & conflict & H & _).
  exists s2, r2, conflict. exact H.
Defined.

(** ** Retries *)

(** With a configuration that went through [normalizeGovernanceConfig], a
    finite multiplier and a maximum below 2^53 ns, the retry delay lies between
    zero and the configured maximum, for every attempt number, jitter ratio and
    jitter seed, including the overflow of the exponential and of the jitter
    arithmetic. *)
Theorem retryDelay_within_bounds (s : schedulerState) (cfg : GovernanceConfig) (taskID : string)
    (current : Attempt) :
  s_governance s = normalizeGovernanceConfig cfg ->
  bo_Max (gv_Backoff (s_governance s)) < 2 ^ 53 ->
  (exists m e, bo_Multiplier (gv_Backoff cfg) = FFin m e) ->
  0 <= retryDelay s taskID current <= bo_Max (gv_Backoff (s_governance s)).
Proof. apply retryDelay_range. Qed.

Definition demoBackoff : GovernanceConfig :=
  mkGovernanceConfig QoSModeFIFO 3 true (mkRetryBackoffConfig true Second (60 * Second) f64_two f64_0_2).

Lemma retryDelay_within_bounds_witness :
  0 <= retryDelay (setGovernance demo demoBackoff) "a" (newAttempt "a" demoA "w" t0 Second) <= 60 * Second.
Proof.
  apply (retryDelay_within_bounds (setGovernance demo demoBackoff) demoBackoff).
  - reflexivity.
  - vm_compute. reflexivity.
  - exists 2, 0. reflexivity.
Defined.

(** When a running task loses its lease or is given back, its attempt is
    closed as expired. If an attempt is left and the timeout reentry budget is
    not used up, the task goes to the end of the queue and cannot be claimed
    before its retry delay has passed; otherwise it fails, or is dead-lettered
    when the dead-letter queue is on, and leaves the queue alone. *)
Theorem retry_transition (s : schedulerState) (id : string) (r : TaskRecord) (c : Attempt) (now : Time)
    (s' : schedulerState) (r' : TaskRecord) :
  handleRetryTransition s id r c now = (s', r') ->
  s_Tasks s' = <[id := r']> (s_Tasks s) /\ tr_CurrentAttempt r' = ""
  /\ tr_Attempts r' = replaceAttempt (endAttempt AttemptStatusExpired now c) (tr_Attempts r)
  /\ if retryOver s r
     then s_Queue s' = s_Queue s
          /\ (tr_State r' = TaskStateFailed
              \/ tr_State r' = TaskStateDeadLetter /\ gv_DLQEnabled (s_governance s) = true)
     else tr_State r' = TaskStateQueued /\ s_Queue s' = s_Queue s ++ [id]
          /\ forall t, now + retryDelay s id c <> 0 -> t < now + retryDelay s id c ->
               isClaimableRecord (Some r') t = false.
Proof.
  intros H. pose proof (handleRetryTransition_tasks s id r c now) as H1.
  pose proof (handleRetryTransition_cases s id r c now) as H2. rewrite H in H1, H2.
  destruct H1 as (? & (_ & ? & _) & _). destruct H2 as (? & _ & H2). split_and!; auto.
  destruct (retryOver s r); [done|]. destruct H2 as (? & ? & E). split_and!; auto.
  intros t. rewrite <- E. apply not_claimable_before.
Qed.

Definition demoExpired : schedulerState * TaskRecord :=
  Eval vm_compute in handleRetryTransition (setGovernance demo demoBackoff) "a" demoA (latestAttempt demoA) t0.

Lemma retry_transition_witness :
  tr_State demoExpired.2 = TaskStateQueued /\ s_Queue demoExpired.1 = ["b"; "a"]
  /\ isClaimableRecord (Some demoExpired.2) (t0 + 1) = false.
Proof.
  destruct (retry_transition (setGovernance demo demoBackoff) "a" demoA (latestAttempt demoA) t0
    demoExpired.1 demoExpired.2 ltac:(vm_compute; reflexivity)) as (_ & _ & _ & H).
  assert (E : retryOver (setGovernance demo demoBackoff) demoA = false) by (vm_compute; reflexivity).
  rewrite E in H. destruct H as (H1 & H2 & H3). split; [exact H1|]. split; [transitivity (s_Queue (setGovernance demo demoBackoff) ++ ["a"]); [exact H2|vm_compute; reflexivity]|].
  apply H3; vm_compute; done.
Defined.
