(* ===== verification/SchedulerPersist.v ===== *)
(** * Scheduler: manual control and persistence, the properties

    What manual control does and refuses, that a snapshot restores to the same
    store while the queue is exact, and the two places where manual control
    breaks a contract: a cancelled queued task leaves a queue entry behind that
    makes the snapshot unrestorable, and a report that comes after a manual
    cancel is refused instead of dropped and recorded. *)
From S2P Require Import Prelude GoStrings GoNum SchedulerTypes SchedulerState SchedulerSnapshot.
From S2P Require Import SchedulerSelect SchedulerBoard SchedulerRefine SchedulerOps.
From S2P Require Import SchedulerRoundTrip SchedulerProps.

Local Open Scope bool_scope.
Local Open Scope string_scope.
Local Open Scope list_scope.
Local Open Scope Z_scope.

(** ** What restore keeps of a task *)

Lemma restoreState_state r r' : restoreState r = Ok r' -> tr_State r' = tr_State r.
Proof.
  unfold restoreState. cbn zeta. destruct (tr_State r) eqn:Hs; try done;
    repeat (case_match; try done); intros [= <-]; try done; by rewrite ?Hs.
Qed.

Lemma cleanRecord_state r : tr_State (cleanRecord r) = tr_State r.
Proof. destruct r as [k st]. destruct st; go_eval; reflexivity. Qed.

Lemma restoreTask_state rb acc r acc' :
  restoreTask rb acc r = Ok acc' ->
  let id := TrimSpace (tk_TaskID (tr_Task r)) in
  acc !! id = None /\ exists r', acc' = <[id := r']> acc /\ tr_State r' = tr_State r.
Proof.
  unfold restoreTask, cloneTaskRecord. cbn zeta. destruct (negb _); [|done].
  case_bool_decide as Hn; [|done]. destruct (normalizeTask _) as [k|]; [|done].
  rewrite result_bind_ok. intros (_ & _ & H). apply result_bind_ok in H as (atts & _ & H).
  apply result_bind_ok in H as (r2 & Hst & H). apply result_bind_ok in H as (_ & _ & [= <-]).
  split; [done|]. eexists. split; [done|]. rewrite cleanRecord_state. by apply restoreState_state in Hst.
Qed.

Lemma restoreTasks_state rb l : forall acc acc',
  restoreTasks rb acc l = Ok acc' ->
  (forall k v, acc !! k = Some v -> acc' !! k = Some v)
  /\ forall r, r ∈ l -> exists r', acc' !! TrimSpace (tk_TaskID (tr_Task r)) = Some r' /\ tr_State r' = tr_State r.
Proof.
  induction l as [|r l IH]; intros acc acc'; cbn.
  { intros [= <-]. split; [done | by intros ? ?%elem_of_nil]. }
  rewrite result_bind_ok. intros (acc1 & H1 & H2). apply restoreTask_state in H1 as (Hn & r' & -> & Hs).
  destruct (IH _ _ H2) as [Hk Hr]. split.
  - intros k v Hv. apply Hk. by rewrite lookup_insert_ne by congruence.
  - intros x [->|Hx]%elem_of_cons; [|auto]. exists r'. split; [apply Hk, lookup_insert_eq | done].
Qed.

Lemma restoreQueue_inv tasks q : forall seen q',
  restoreQueue tasks seen q = Ok q' ->
  forall x, x ∈ q -> TrimSpace x = "" \/ exists r, tasks !! TrimSpace x = Some r /\ tr_State r = TaskStateQueued.
Proof.
  induction q as [|y q IH]; intros seen q'; cbn; [by intros _ x ?%elem_of_nil|].
  destruct (str_eqb_spec (TrimSpace y) "") as [Hy|Hy].
  { intros H x [->|Hx]%elem_of_cons; [by left | by eapply IH]. }
  destruct (tasks !! TrimSpace y) as [r|] eqn:Hr; [|done]. case_bool_decide as Hs; [|done].
  destruct (negb _); [|done]. rewrite result_bind_ok. intros (rest & H & _) x [->|Hx]%elem_of_cons; eauto.
Qed.

(** A snapshot whose queue names a task that is not queued is refused. *)
Lemma restore_stale_entry s0 s id r :
  id ∈ s_Queue s -> s_Tasks s !! id = Some r -> tk_TaskID (tr_Task r) = id -> TrimSpace id = id -> id <> "" ->
  tr_State r <> TaskStateQueued -> is_ok (restore s0 (snapshot s)) = false.
Proof.
  intros Hin Hr Hid Ht Hne Hs. destruct (restore s0 (snapshot s)) as [s'|e] eqn:E; [exfalso|done].
  unfold restore in E. apply result_bind_ok in E as (tasks & Htasks & E).
  apply result_bind_ok in E as (q & Hq & _).
  destruct (restoreTasks_state _ _ _ _ Htasks) as [_ Hst].
  assert (Hl : r ∈ sn_Tasks (snapshot s)).
  { cbn. apply list_elem_of_fmap. exists r. split; [done|]. unfold sortedValues.
    apply list_elem_of_omap. exists id. split; [|done]. apply elem_of_sort_strings, list_elem_of_fmap.
    exists (id, r). split; [done|]. by apply elem_of_map_to_list. }
  destruct (Hst r Hl) as (r' & Hr' & Es). rewrite Hid, Ht in Hr'.
  destruct (restoreQueue_inv _ _ _ _ Hq id Hin) as [?|(r2 & Hr2 & Hs2)]; [congruence|].
  rewrite Ht in Hr2. congruence.
Qed.

(** ** Control operations *)

(** What an accepted operation did to its task. *)
Definition control_effect (s s' : schedulerState) (id : string) (out : TaskBoardControlResult) : Prop :=
  exists r, s_Tasks s !! id = Some r /\ s_Tasks s' !! id = Some (co_Record out)
    /\ s_TerminalCommits s' = s_TerminalCommits s
    /\ match co_Action out with
       | TaskBoardControlActionCancel =>
           (tr_State r = TaskStateQueued \/ tr_State r = TaskStateAwaitingReport)
           /\ tr_State (co_Record out) = TaskStateFailed /\ tr_CurrentAttempt (co_Record out) = ""
           /\ tr_ResolutionSource (co_Record out) = "manual_cancel" /\ s_Queue s' = s_Queue s
       | TaskBoardControlActionRetryTerminal =>
           (tr_State r = TaskStateFailed \/ tr_State r = TaskStateDeadLetter)
           /\ tr_ManualRetryCount r < maxManualRetryOf s
           /\ tr_State (co_Record out) = TaskStateQueued
           /\ tr_ManualRetryCount (co_Record out) = tr_ManualRetryCount r + 1
           /\ s_Queue s' = s_Queue s ++ [id]
       | TaskBoardControlActionOther _ => False
       end.

Lemma controlTask_accepted ctl wall s req now s' out :
  sched_inv ctl s -> controlTask wall s req now = (s', Ok out) ->
  tb_Enabled (s_taskBoardControl s') = true
  /\ exists act, normalizeTaskBoardControlAction (rq_Action req) = Ok act /\ co_Action out = act
  /\ co_TaskID out = TrimSpace (rq_TaskID req)
  /\ ((exists prev, s_ControlOps s !! TrimSpace (rq_OperationID req) = Some prev
         /\ s_ControlOps s' = s_ControlOps s /\ board_of s' = board_of s /\ out = prev <| co_Deduplicated := true |>)
      \/ (s_ControlOps s !! TrimSpace (rq_OperationID req) = None
          /\ s_ControlOps s' = <[TrimSpace (rq_OperationID req) := out]> (s_ControlOps s)
          /\ co_Deduplicated out = false /\ control_effect s s' (TrimSpace (rq_TaskID req)) out)).
Proof.
  intros Hinv. unfold controlTask, control_effect.
  destruct (tb_Enabled (s_taskBoardControl s)) eqn:Hen; cbn [negb]; [|done].
  destruct (str_eqb_spec (TrimSpace (rq_OperationID req)) "") as [|Hop]; [done|].
  destruct (normalizeTaskBoardControlAction (rq_Action req)) as [act|]; [|done]. cbn zeta.
  destruct (s_ControlOps s !! _) as [prev|] eqn:Hp.
  { destruct (_ || _) eqn:Hor; [done|]. intros [= <- <-].
    apply orb_false_iff in Hor as [H1%negb_false_iff H2%negb_false_iff].
    apply str_eqb_eq in H1. apply bool_decide_eq_true in H2.
    split; [done|]. exists act. split_and!; try done. left. exists prev. done. }
  destruct (s_Tasks s !! TrimSpace (rq_TaskID req)) as [r|] eqn:Ht; [|done].
  pose proof (rw_id _ _ (bi_records _ _ (si_board _ _ Hinv) _ _ Ht)) as Hid.
  destruct act as [| |a]; [unfold applyManualCancel | unfold applyManualRetry | done].
  - destruct (tr_State r) eqn:Hs; try done; [|destruct (currentAttempt r) as [c|]; [|done]].
    all: intros [= <- <-]; split; [done|]; exists TaskBoardControlActionCancel; split_and!; try done.
    all: right; split_and!; try done; exists r; cbn; rewrite lookup_insert_eq; split_and!; auto.
  - destruct (bool_decide _) eqn:Hs; cbn [negb]; [|done]. apply bool_decide_eq_true in Hs.
    match goal with |- context [?a <=? ?b] => destruct (Z.leb_spec a b) as [|Hlt] end; [done|].
    intros [= <- <-]. split; [done|]. exists TaskBoardControlActionRetryTerminal. split_and!; try done.
    right. split_and!; try done. exists r. cbn. rewrite lookup_insert_eq, Hid. split_and!; auto.
Qed.

(** Manual control does what it is asked to, once. An accepted operation
    either repeats a recorded one, and then returns the recorded outcome marked
    as deduplicated and changes no task; or it is new, and then it cancels a
    queued or awaiting task, or puts a failed or dead-lettered task with a retry
    left at the end of the queue. *)
Theorem control_operation_effect (ctl : bool) (wall : Time) (s : schedulerState)
    (req : TaskBoardControlRequest) (now : Time) (s' : schedulerState) (out : TaskBoardControlResult) :
  reachable ctl s -> controlTask wall s req now = (s', Ok out) ->
  if co_Deduplicated out
  then board_of s' = board_of s
       /\ exists prev, s_ControlOps s !! TrimSpace (rq_OperationID req) = Some prev
          /\ out = prev <| co_Deduplicated := true |>
  else s_ControlOps s' = <[TrimSpace (rq_OperationID req) := out]> (s_ControlOps s)
       /\ control_effect s s' (TrimSpace (rq_TaskID req)) out.
Proof.
  intros Hs Hok. apply reachable_inv in Hs.
  destruct (controlTask_accepted _ _ _ _ _ _ _ Hs Hok) as (_ & act & _ & _ & _ & [H|H]).
  - destruct H as (prev & Hp & _ & Hb & ->). cbn. eauto.
  - destruct H as (_ & Hops & -> & He). auto.
Qed.

Definition demoCancelled : schedulerState := (controlTask t0 demoControl demoCancel t0).1.
Definition demoOut : TaskBoardControlResult :=
  Eval vm_compute in
    match controlTask t0 demoControl demoCancel t0 with
    | (_, Ok out) => out
    | _ => mkTaskBoardControlResult "" TaskBoardControlActionCancel "" false true "" (recordOf demo "a")
    end.

Lemma demo_control : controlTask t0 demoControl demoCancel t0 = (demoCancelled, Ok demoOut).
Proof. vm_compute. reflexivity. Qed.

Lemma control_operation_effect_witness : control_effect demoControl demoCancelled "b" demoOut.
Proof.
  apply (control_operation_effect true t0 demoControl demoCancel t0 demoCancelled demoOut
    demoControl_reachable demo_control).
Defined.

(** Control operations are idempotent: repeating an accepted operation, at any
    time and with any clock, returns its outcome marked as deduplicated and
    leaves tasks, queue and commits as they are. *)
Theorem control_operation_idempotent (ctl : bool) (wall wall' : Time) (s : schedulerState)
    (req : TaskBoardControlRequest) (now now' : Time) (s' : schedulerState) (out : TaskBoardControlResult) :
  reachable ctl s -> controlTask wall s req now = (s', Ok out) ->
  controlTask wall' s' req now'
  = (onStats (fun st => st <| st_TaskBoardManualControlDedupTotal ::= Z.succ |>) s',
     Ok (out <| co_Deduplicated := true |>)).
Proof.
  intros Hs Hok. apply reachable_inv in Hs.
  destruct (controlTask_accepted _ _ _ _ _ _ _ Hs Hok) as (Hen & act & Hact & Ha & Hid & Hcase).
  assert (Hop : TrimSpace (rq_OperationID req) <> "").
  { intros E. unfold controlTask in Hok. destruct (negb _); [done|]. rewrite E in Hok. done. }
  assert (Hprev : exists prev, s_ControlOps s' !! TrimSpace (rq_OperationID req) = Some prev
            /\ prev <| co_Deduplicated := true |> = out <| co_Deduplicated := true |>
            /\ co_TaskID prev = TrimSpace (rq_TaskID req) /\ co_Action prev = act).
  { destruct Hcase as [(prev & Hp & Hops & _ & ->)|(_ & Hops & _ & _)].
    - exists prev. by rewrite Hops.
    - exists out. rewrite Hops, lookup_insert_eq. done. }
  destruct Hprev as (prev & Hp & Hout & Ht & Hac). apply str_eqb_neq in Hop.
  unfold controlTask. rewrite Hen. cbn [negb]. rewrite Hop, Hact. cbn zeta.
  by rewrite Hp, Ht, Hac, str_eqb_refl, bool_decide_true, Hout.
Qed.

Lemma control_operation_idempotent_witness :
  controlTask t0 demoCancelled demoCancel t0
  = (onStats (fun st => st <| st_TaskBoardManualControlDedupTotal ::= Z.succ |>) demoCancelled,
     Ok (demoOut <| co_Deduplicated := true |>)).
Proof.
  apply (control_operation_idempotent true t0 t0 demoControl demoCancel t0 t0 demoCancelled demoOut
    demoControl_reachable demo_control).
Defined.

(** ** Persistence *)

(** C11: round trip. The snapshot of a reachable store whose queue is exact and
    whose tasks agree with their workspace provenance restores, into any store,
    to the same tasks (an unresolved task forgets a conflict mark), the same
    queue and control operations and the same commits (trimmed). *)
Theorem snapshot_restores (ctl : bool) (s s0 : schedulerState) :
  reachable ctl s ->
  NoDup (s_Queue s) ->
  (forall id r, id ∈ s_Queue s -> s_Tasks s !! id = Some r -> tr_State r = TaskStateQueued) ->
  map_Forall (fun _ => restorable) (s_Tasks s) ->
  exists s', restore s0 (snapshot s) = Ok s'
    /\ s_Tasks s' = restoredRecord <$> s_Tasks s
    /\ s_Queue s' = s_Queue s
    /\ s_TerminalCommits s' = trimCommit <$> s_TerminalCommits s
    /\ s_ControlOps s' = s_ControlOps s
    /\ s_DelayedWaitMs s' = s_DelayedWaitMs s
    /\ s_governance s' = s_governance s0 /\ s_recoveryBoundary s' = s_recoveryBoundary s0.
Proof.
  intros Hs Hnd Hq Hre. eexists. split.
  - apply (restore_snapshot_ok ctl); [by apply reachable_inv | done | done | by eapply reachable_ops].
  - split_and!; reflexivity.
Qed.

Lemma demo_restorable : map_Forall (fun _ => restorable) (s_Tasks demo).
Proof.
  assert (H : forallb (fun kr =>
      is_ok (validateTaskWorkspaceBinding (tr_Task kr.2))
      && negb (bool_decide (tr_State kr.2 = TaskStateAwaitingReport))) (map_to_list (s_Tasks demo)) = true)
    by (vm_compute; reflexivity).
  intros k r Hr. rewrite forallb_forall in H.
  assert (Hin : (k, r) ∈ map_to_list (s_Tasks demo)) by (by apply elem_of_map_to_list).
  apply list_elem_of_In, H in Hin. cbn [snd] in Hin. clear H. rename Hin into H.
  apply andb_true_iff in H as [H1 H2%negb_true_iff%bool_decide_eq_false]. split; [|done].
  destruct (validateTaskWorkspaceBinding (tr_Task r)) as [[]|]; done.
Qed.

Lemma demo_queue : s_Queue demo = ["b"].
Proof. vm_compute. reflexivity. Qed.

Lemma snapshot_restores_witness :
  exists s', restore (newSchedulerState "file") (snapshot demo) = Ok s'
    /\ s_Tasks s' = restoredRecord <$> s_Tasks demo /\ s_Queue s' = s_Queue demo.
Proof.
  destruct (snapshot_restores false demo (newSchedulerState "file") demo_reachable) as (s' & H & H1 & H2 & _).
  - rewrite demo_queue. apply NoDup_singleton.
  - intros id r Hin Hr. rewrite demo_queue in Hin. apply list_elem_of_singleton in Hin as ->.
    rewrite demo_b in Hr. injection Hr as <-. reflexivity.
  - apply demo_restorable.
  - exists s'. split; [exact H|]. split; [exact H1|exact H2].
Defined.

(** Cancelling a queued task breaks persistence. The cancelled task fails but
    its id stays in the queue, so the snapshot of the store taken next is
    refused by [restore]: a file-backed store cannot be reopened. *)
Theorem cancelled_queue_entry_corrupts_snapshot (ctl : bool) (wall : Time) (s s0 : schedulerState)
    (req : TaskBoardControlRequest) (now : Time) (s' : schedulerState) (out : TaskBoardControlResult)
    (r : TaskRecord) :
  reachable ctl s -> controlTask wall s req now = (s', Ok out) -> co_Deduplicated out = false ->
  co_Action out = TaskBoardControlActionCancel ->
  s_Tasks s !! TrimSpace (rq_TaskID req) = Some r -> tr_State r = TaskStateQueued ->
  TrimSpace (rq_TaskID req) ∈ s_Queue s' /\ tr_State (co_Record out) = TaskStateFailed
  /\ is_ok (restore s0 (snapshot s')) = false.
Proof.
  intros Hs Hok Hd Hact Hr Hq. set (id := TrimSpace (rq_TaskID req)) in *. apply reachable_inv in Hs.
  destruct (controlTask_accepted _ _ _ _ _ _ _ Hs Hok) as (_ & act & _ & _ & _ & [H|H]).
  { destruct H as (prev & _ & _ & _ & ->). done. }
  destruct H as (_ & _ & _ & r1 & Hr1 & Hr' & _ & Heff). fold id in Hr1, Hr'. rewrite Hact in Heff.
  destruct Heff as (_ & Hf & _ & _ & Hqueue).
  assert (Hin : id ∈ s_Queue s') by (rewrite Hqueue; exact (bi_waiting _ _ (si_board _ _ Hs) id r Hr Hq)).
  assert (Hinv' : sched_inv ctl s').
  { pose proof (controlTask_refines ctl wall s req now Hs) as Href. rewrite Hok in Href.
    by eapply refines_inv. }
  pose proof (bi_records _ _ (si_board _ _ Hinv') _ _ Hr') as Hwf.
  split_and!; [done | done |].
  eapply restore_stale_entry; [exact Hin | exact Hr' | apply Hwf | by eapply wf_trim | by eapply wf_nonempty |].
  by rewrite Hf.
Qed.

Definition demoControlB : TaskRecord := Eval vm_compute in recordOf demoControl "b".

Lemma cancelled_queue_entry_corrupts_snapshot_witness :
  is_ok (restore (newSchedulerState "file") (snapshot demoCancelled)) = false.
Proof.
  apply (cancelled_queue_entry_corrupts_snapshot true t0 demoControl (newSchedulerState "file") demoCancel t0
    demoCancelled demoOut demoControlB demoControl_reachable demo_control); vm_compute; reflexivity.
Defined.

(** A report that comes after its task was cancelled by hand is refused with
    a workspace-binding error, whatever it says: the branch that drops and
    records late reports is not reached. *)
Theorem report_after_cancel_is_refused (ctl : bool) (wall wall' : Time) (s : schedulerState)
    (req : TaskBoardControlRequest) (now : Time) (s' : schedulerState) (out : TaskBoardControlResult)
    (r : TaskRecord) (c : Attempt) (report n : TerminalCommit) :
  reachable ctl s -> controlTask wall s req now = (s', Ok out) -> co_Deduplicated out = false ->
  co_Action out = TaskBoardControlActionCancel ->
  s_Tasks s !! TrimSpace (rq_TaskID req) = Some r -> currentAttempt r = Some c ->
  normalizeCommit wall' report = Ok n -> tc_TaskID n = TrimSpace (rq_TaskID req) ->
  tc_AttemptID n = at_AttemptID c ->
  commitAsyncReportTerminal wall' s' report = (s', Err ErrWorkspaceBindingMismatch).
Proof.
  intros Hs Hok Hd Hact Hr Hc Hn Hid Haid. apply reachable_inv in Hs.
  destruct (controlTask_accepted _ _ _ _ _ _ _ Hs Hok) as (_ & act & _ & _ & _ & [H|H]).
  { destruct H as (prev & _ & _ & _ & ->). done. }
  destruct H as (_ & _ & _ & r1 & Hr1 & Hr' & Hcom & Heff). rewrite Hact in Heff.
  destruct Heff as (_ & Hf & Hcur & _ & _).
  pose proof (current_uncommitted _ _ _ _ _ _ _ (si_board _ _ Hs) Hr Hc) as Hnone.
  unfold commitAsyncReportTerminal. rewrite Hn. cbn zeta.
  set (n1 := if tc_Source n =s? "" then _ else n).
  assert (tc_TaskID n1 = TrimSpace (rq_TaskID req) /\ tc_AttemptID n1 = at_AttemptID c) as [E1 E2]
    by (unfold n1; by case_match). clearbody n1.
  rewrite E1, E2, Hr', Hcom, Hnone, Hf, bool_decide_false by done.
  unfold currentAttempt, attemptByID. by rewrite Hcur, TrimSpace_empty.
Qed.

Definition demoAwaitingControl : schedulerState :=
  runs demoControl [(t0, CallClaim "w1" t0 (10 * Second));
                    (t0, CallMarkAwaitingReport "b" "b-attempt-1" "" t0 Second)].
Definition demoAwaitingB : TaskRecord := Eval vm_compute in recordOf demoAwaitingControl "b".
Definition demoOut2 : TaskBoardControlResult :=
  Eval vm_compute in
    match controlTask t0 demoAwaitingControl demoCancel t0 with (_, Ok out) => out | _ => demoOut end.
Definition reportB : TerminalCommit :=
  Eval vm_compute in match normalizeCommit t0 (demoCommit "b" "b-attempt-1" TaskStateSucceeded) with
                     | Ok n => n | Err _ => demoCommit "" "" TaskStateFailed end.

Lemma demoAwaitingControl_reachable : reachable true demoAwaitingControl.
Proof. apply runs_reachable; [apply demoControl_reachable | by repeat constructor]. Qed.

Lemma report_after_cancel_is_refused_witness :
  let s' := (controlTask t0 demoAwaitingControl demoCancel t0).1 in
  commitAsyncReportTerminal t0 s' (demoCommit "b" "b-attempt-1" TaskStateSucceeded)
  = (s', Err ErrWorkspaceBindingMismatch).
Proof.
  apply (report_after_cancel_is_refused true t0 t0 demoAwaitingControl demoCancel t0 _ demoOut2
    demoAwaitingB (latestAttempt demoAwaitingB) (demoCommit "b" "b-attempt-1" TaskStateSucceeded) reportB
    demoAwaitingControl_reachable); vm_compute; reflexivity.
Defined.
