(* ===== verification/TaskBoardQueryProps.v ===== *)
(** * Scheduler: the task-board query, the properties

    Sorting keeps the matching records, cursors enumerate them completely, and
    two ways in which the query cache answers wrongly. *)
From Stdlib Require Import Ascii.
From S2P Require Import Prelude GoStrings GoNum Paging SchedulerTypes SchedulerState SchedulerSnapshot.
From S2P Require Import SchedulerStore Scheduler TaskBoardQuery SchedulerRefine SchedulerOps.
From S2P Require Import SchedulerProps.

Local Open Scope bool_scope.
Local Open Scope string_scope.
Local Open Scope list_scope.
Local Open Scope Z_scope.

(** ** Sorting *)

Lemma sortTaskBoardQuery_perm items field order : sortTaskBoardQuery items field order ≡ₚ items.
Proof. apply SliceStable_perm. Qed.

Lemma taskBoardLess_asym field order a b :
  taskBoardLess field order a b = true -> taskBoardLess field order b a = false.
Proof.
  unfold taskBoardLess, TimeEqual, After, Before. cbn zeta.
  set (ta := taskBoardSortTimestamp a field). set (tb := taskBoardSortTimestamp b field).
  rewrite (Z.eqb_sym tb ta). destruct (Z.eqb_spec ta tb).
  - destruct (str_eqb_spec (TrimSpace (tk_TaskID (tr_Task a))) (TrimSpace (tk_TaskID (tr_Task b)))) as [->|Hne].
    + rewrite str_eqb_refl. apply str_ltb_asym.
    + apply not_eq_sym, str_eqb_neq in Hne. rewrite Hne. apply str_ltb_asym.
  - destruct (negb _); rewrite ?Z.ltb_lt, ?Z.ltb_ge; lia.
Qed.

Lemma sortTaskBoardQuery_sorted items field order :
  Sorted (fun a b => taskBoardLess field order b a = false) (sortTaskBoardQuery items field order).
Proof. apply SliceStable_sorted, taskBoardLess_asym. Qed.

(** The records a query ranges over are exactly the stored records that match
    its filters, each as often as it is stored, ordered by the requested
    timestamp and, among equal timestamps, by task id. *)
Lemma filtered_records_match (records : list TaskRecord) (q : normalizedTaskBoardQuery) :
  filterTaskBoardQueryRecords records q ≡ₚ List.filter (fun r => matchesTaskBoardQuery r q) records
  /\ Sorted (fun a b => taskBoardLess (nq_SortField q) (nq_SortOrder q) b a = false)
       (filterTaskBoardQueryRecords records q).
Proof. split; [apply sortTaskBoardQuery_perm | apply sortTaskBoardQuery_sorted]. Qed.

(** ** Pages *)

Lemma normalizeTaskBoardQuery_page req q :
  normalizeTaskBoardQuery req = Ok q -> 0 < nq_PageSize q.
Proof.
  unfold normalizeTaskBoardQuery. cbn zeta. unfold DefaultTaskBoardQueryPageSize.
  destruct (qr_PageSize req) as [p|]; cbn [default from_option];
    repeat (case_match; try done); intros [= <-]; cbn; try lia.
Qed.

(** One page for the clients that follow the cursors of a request. *)
Definition askPage `{QueryCodec} {T} `{QueueStore T} (req : TaskBoardQueryRequest) (s : Scheduler T)
    (cursor : string) : Scheduler T * option (list TaskRecord * string) :=
  match QueryTasks s (req <| qr_Cursor := cursor |>) with
  | (s', Ok res) => (s', Some (qo_Items res, qo_NextCursor res))
  | (s', Err _) => (s', None)
  end.

(** The items of the page and of the pages after it. *)
Definition followCursors `{QueryCodec} {T} `{QueueStore T} (fuel : nat) (s : Scheduler T)
    (req : TaskBoardQueryRequest) : list TaskRecord :=
  followPages (askPage req) fuel s (qr_Cursor req).

Section pages.
Context `{QueryCodecLaws} {T : Type} `{QueueStore T}.

(** The cache has no entry for the query, or the right one. *)
Definition cache_right (s : Scheduler T) (q : normalizedTaskBoardQuery) : Prop :=
  forall items, sc_queryCache s !! taskBoardQueryHash q = Some items ->
    items = filterTaskBoardQueryRecords (sn_Tasks (Snapshot (sc_store s))) q.

Definition withCursor (q : normalizedTaskBoardQuery) (c : string) : normalizedTaskBoardQuery :=
  mkNormalizedQuery (nq_TaskID q) (nq_RunID q) (nq_WorkflowID q) (nq_TeamID q) (nq_State q)
    (nq_Priority q) (nq_AgentID q) (nq_PeerID q) (nq_ParentRunID q) (nq_TimeRange q) (nq_PageSize q)
    (nq_SortField q) (nq_SortOrder q) c.

Lemma normalize_cursor req q c :
  normalizeTaskBoardQuery req = Ok q ->
  normalizeTaskBoardQuery (req <| qr_Cursor := c |>) = Ok (withCursor q (TrimSpace c)).
Proof.
  destruct req. unfold normalizeTaskBoardQuery. cbn.
  do 5 (match goal with |- (if ?b then _ else _) = _ -> _ => destruct b; [|done] end).
  by intros [= <-].
Qed.

Lemma normalize_nq_cursor req q : normalizeTaskBoardQuery req = Ok q -> nq_Cursor q = TrimSpace (qr_Cursor req).
Proof.
  destruct req. unfold normalizeTaskBoardQuery. cbn.
  do 5 (match goal with |- (if ?b then _ else _) = _ -> _ => destruct b; [|done] end).
  by intros [= <-].
Qed.

(** A query answered from the store or from a right cache entry. *)
Lemma QueryTasks_page s req q start :
  normalizeTaskBoardQuery req = Ok q -> cache_right s q ->
  decodeTaskBoardCursor (nq_Cursor q) (taskBoardQueryHash q) = Ok start ->
  let all := filterTaskBoardQueryRecords (sn_Tasks (Snapshot (sc_store s))) q in
  exists s', QueryTasks s req = (s', buildTaskBoardQueryResult all q start (taskBoardQueryHash q))
    /\ sc_store s' = sc_store s /\ cache_right s' q.
Proof.
  intros Hq Hc Hd all. unfold QueryTasks. rewrite Hq, Hd.
  destruct (readTaskBoardQueryCache s _ _) as [items|] eqn:Hr.
  - unfold readTaskBoardQueryCache in Hr. destruct (_ =s? _); [done|]. destruct (negb _); [done|].
    rewrite (Hc _ Hr). exists s. auto.
  - eexists. split; [reflexivity|]. unfold writeTaskBoardQueryCache.
    destruct (_ =s? _); [auto|]. destruct (negb _); [auto|]. split; [done|].
    intros items. cbn. rewrite lookup_insert_eq. by intros [= <-].
Qed.

Lemma askPage_page s req q cursor start :
  normalizeTaskBoardQuery req = Ok q -> cache_right s q ->
  decodeCursor cursor (taskBoardQueryHash q) = Some start ->
  exists s', askPage req s cursor
    = (s', pageOf (filterTaskBoardQueryRecords (sn_Tasks (Snapshot (sc_store s))) q) start (nq_PageSize q)
             (taskBoardQueryHash q))
    /\ sc_store s' = sc_store s /\ cache_right s' q.
Proof.
  intros Hq Hc Hd. pose proof (normalize_cursor req q cursor Hq) as Hn.
  destruct (QueryTasks_page s _ _ start Hn Hc) as (s' & HQ & Hst & Hc').
  { cbn [nq_Cursor withCursor]. unfold decodeTaskBoardCursor, decodeCursor in *.
    change (taskBoardQueryHash (withCursor q ?c)) with (taskBoardQueryHash q). rewrite TrimSpace_idemp. by rewrite Hd. }
  exists s'. split; [|done]. unfold askPage. rewrite HQ. unfold buildTaskBoardQueryResult.
  change (filterTaskBoardQueryRecords ?r (withCursor q ?c)) with (filterTaskBoardQueryRecords r q).
  change (taskBoardQueryHash (withCursor q ?c)) with (taskBoardQueryHash q).
  change (nq_PageSize (withCursor q ?c)) with (nq_PageSize q).
  by destruct (pageOf _ start (nq_PageSize q) (taskBoardQueryHash q)) as [[items next]|].
Qed.
End pages.

(** Pagination is complete. Starting without a cursor and following the
    returned cursors, on an unchanged store, enumerates the records that match
    the filters, every one as often as it is stored, in the requested order,
    whatever the page size; as many rounds as there are records are enough, so
    the enumeration ends. *)
Theorem cursors_enumerate_all `{QueryCodecLaws} {T : Type} `{QueueStore T} (s : Scheduler T)
    (req : TaskBoardQueryRequest) (q : normalizedTaskBoardQuery) (fuel : nat) :
  normalizeTaskBoardQuery req = Ok q -> nq_Cursor q = "" -> cache_right s q ->
  let all := filterTaskBoardQueryRecords (sn_Tasks (Snapshot (sc_store s))) q in
  (length all < fuel)%nat ->
  followCursors fuel s req = all
  /\ all ≡ₚ List.filter (fun r => matchesTaskBoardQuery r q) (sn_Tasks (Snapshot (sc_store s)))
  /\ Sorted (fun a b => taskBoardLess (nq_SortField q) (nq_SortOrder q) b a = false) all.
Proof.
  intros Hq Hcur Hc all Hf. split; [|apply filtered_records_match].
  unfold followCursors. rewrite <-(drop_0 all).
  apply (followPages_from _ (fun s' => sc_store s' = sc_store s /\ cache_right s' q) all (nq_PageSize q)
           (taskBoardQueryRaw q)); [by eapply normalizeTaskBoardQuery_page | | by split | | lia | lia].
  - intros s1 cursor start [Hst Hc1] Hd.
    destruct (askPage_page s1 req q cursor start Hq Hc1 Hd) as (s' & E & Hst' & Hc').
    rewrite Hst in E. exists s'. split; [exact E|]. split; [congruence | exact Hc'].
  - unfold decodeCursor.
    rewrite (normalize_nq_cursor req q Hq) in Hcur. by rewrite Hcur, str_eqb_refl.
Qed.

(** A codec for the examples: one digest for all, offsets in unary. *)
#[local] Instance demoCodec : QueryCodec := {|
  sha1Hex _ := "d";
  cursor_Encode c := of_bytes ("c"%char :: replicate (Z.to_nat (cu_Offset c)) "x"%char);
  cursor_Decode x := match bytes x with
                     | [] => None
                     | _ :: l => Some (mkCursor (Z.of_nat (length l)) "d")
                     end
|}.

#[local] Instance demoCodec_laws : QueryCodecLaws.
Proof.
  split; cbn.
  - intros _. by vm_compute.
  - intros n _ _. split; [|done].
    apply TrimSpace_id. destruct (Z.to_nat n) as [|k]; [by vm_compute|].
    apply (trimmed_app_ascii "c" (of_bytes (replicate (S k) "x"%char))); try done.
    rewrite bytes_of_bytes. apply Forall_replicate. done.
  - intros n _ Hn. rewrite bytes_of_bytes, length_replicate, Z2Nat.id by done. done.
Qed.

Definition demoScheduler (st : schedulerState) : Scheduler MemoryStore :=
  mkScheduler (mkMemoryStore st) (10 * Second) (mkGuardrails 0 0 0) defaultGovernanceConfig
    defaultAsyncAwaitConfig defaultTaskBoardControlConfig defaultRecoveryBoundaryConfig false [] 0 0 0 ∅.

Definition onePerPage : TaskBoardQueryRequest :=
  mkTaskBoardQueryRequest "" "" "" "" "" "" "" "" "" None (Some 1) "" "" "".

Lemma cursors_enumerate_all_witness :
  length (followCursors 3 (demoScheduler demo) onePerPage) = 2%nat.
Proof.
  destruct (cursors_enumerate_all (demoScheduler demo) onePerPage
    (mkNormalizedQuery "" "" "" "" "" "" "" "" "" None 1 "updated_at" "desc" "") 3) as [-> _].
  - vm_compute. reflexivity.
  - reflexivity.
  - intros items E. discriminate E.
  - vm_compute. lia.
  - vm_compute. reflexivity.
Defined.

(** ** Where the cache answers wrongly *)

Definition runningOnly : TaskBoardQueryRequest :=
  mkTaskBoardQueryRequest "" "" "" "" "running" "" "" "" "" None None "" "" "".

Definition demoEnv : Env := mkEnv t0 t0 None.
Definition demoClock (now : Time) : Clock := mkClock now (fun _ => now) demoEnv.

Definition returnedIDs (r : result FacadeError TaskBoardQueryResult) : list string :=
  match r with
  | Ok res => (fun x => tk_TaskID (tr_Task x)) <$> qo_Items res
  | Err _ => []
  end.

(** [a] runs with a lease of ten seconds; retries wait. *)
Definition demoBackedOff : schedulerState :=
  runs (newSchedulerState "memory")
    [(t0, CallSetGovernance demoBackoff); (t0, CallEnqueue (demoTask "a" "high") t0);
     (t0, CallClaim "w1" t0 (10 * Second))].

(** The cache is not invalidated by a claim that hands out nothing, although
    that claim has swept lapsed leases: a query for the running tasks then
    returns, from the cache, a task that no longer runs. *)
Theorem idle_claim_leaves_stale_cache :
  let q0 := QueryTasks (demoScheduler demoBackedOff) runningOnly in
  let c := FacadeClaim (demoClock (t0 + 20 * Second)) q0.1 "w2" in
  returnedIDs q0.2 = ["a"]
  /\ c.2 = Ok None
  /\ (tr_State <$> Get (sc_store c.1) "a") = Some TaskStateQueued
  /\ returnedIDs (QueryTasks c.1 runningOnly).2 = ["a"].
Proof. vm_compute. split_and!; reflexivity. Qed.

(** The cache key joins the query fields with a separator that may occur in
    them: two queries that match different records get the same key, whatever the
    digest function, and so share one cache entry and each other's cursors. *)
Theorem query_key_is_ambiguous :
  let q1 := mkNormalizedQuery "a|b" "c" "" "" "" "" "" "" "" None 50 "updated_at" "desc" "" in
  let q2 := mkNormalizedQuery "a" "b|c" "" "" "" "" "" "" "" None 50 "updated_at" "desc" "" in
  (forall codec : QueryCodec, taskBoardQueryHash q1 = taskBoardQueryHash q2)
  /\ exists r, matchesTaskBoardQuery r q1 = true /\ matchesTaskBoardQuery r q2 = false.
Proof.
  split; [reflexivity|].
  exists (queuedRecord (demoTask "a|b" "low" <| tk_RunID := "c" |>) t0). vm_compute. done.
Qed.
