(* ===== verification/SchedulerStoreProps.v ===== *)
(** * Scheduler: the stores, the properties

    The file store computes what the memory store computes, its file holds the
    state after every successful mutation (or lags behind it by less than one
    batch), and reopening the file gives the tasks back. *)
From S2P Require Import Prelude GoStrings GoNum SchedulerTypes SchedulerState SchedulerSnapshot.
From S2P Require Import SchedulerStore SchedulerSelect SchedulerBoard SchedulerRefine SchedulerOps.
From S2P Require Import SchedulerRoundTrip SchedulerProps SchedulerPersist.

Local Open Scope bool_scope.
Local Open Scope string_scope.
Local Open Scope list_scope.
Local Open Scope Z_scope.

(** The two stores end in the same state with the same result. *)
Definition agree {A} (x : outcome FileStore A) (y : outcome MemoryStore A) : Prop :=
  fs_state x.1 = ms_state y.1 /\ x.2 = y.2.

Section stores.
Context `{DocumentCodec} (e : Env) (Hio : env_io e = None).

Lemma persist_ok fs :
  persist e fs = (fs <| fs_file := Some (doc_Marshal (documentOf (fs_state fs))) |>, Ok tt).
Proof. unfold persist. by rewrite Hio. Qed.

Lemma flushPersistLocked_state fs :
  fs_state (flushPersistLocked e fs).1 = fs_state fs /\ (flushPersistLocked e fs).2 = Ok tt.
Proof. unfold flushPersistLocked. rewrite persist_ok. by case_match. Qed.

Lemma maybePersistLocked_state force fs :
  fs_state (maybePersistLocked e force fs).1 = fs_state fs /\ (maybePersistLocked e force fs).2 = Ok tt.
Proof.
  unfold maybePersistLocked. destruct (negb _); [by rewrite persist_ok|]. cbn zeta.
  set (fs1 := if IsZero _ then _ else _).
  assert (E : fs_state fs1 = fs_state fs) by (unfold fs1; by case_match). clearbody fs1.
  rewrite <- E. repeat (case_match; try apply flushPersistLocked_state). done.
Qed.

Lemma persisted_agree {A} force fs (x : schedulerState * result SchedulerError A) :
  agree (persisted e force fs x) (locked x).
Proof.
  unfold persisted, agree, locked. cbn zeta. destruct x as [s [a|er]]; cbn [fst snd]; [|done].
  destruct (maybePersistLocked_state force (fs <| fs_state := s |>)) as [E1 E2].
  destruct (maybePersistLocked e force _) as [fs' [u|er]]; cbn in *; [done|discriminate].
Qed.

Lemma persistedSweep_agree fs (x : schedulerState * list ClaimedTask) :
  agree (persistedSweep e fs x) (let '(s, l) := x in (mkMemoryStore s, Ok l)).
Proof.
  unfold persistedSweep. destruct x as [s [|c l]]; [done|]. apply persisted_agree.
Qed.

Lemma claimFile_agree fs w now d :
  agree (claimFile e fs w now d) (locked (claim (env_wall e) (fs_state fs) (TrimSpace w) now d)).
Proof.
  unfold claimFile. destruct (claim _ _ _ _ _) as [s [[ct|]|er]]; [|done|done]. apply persisted_agree.
Qed.
End stores.

(** While the file system works, the file store behaves as the memory store:
    from the same state every operation returns the same result and leaves the
    same state. *)
Theorem file_store_agrees_with_memory_store `{DocumentCodec} (e : Env) (fs : FileStore) (ms : MemoryStore) :
  env_io e = None -> ms_state ms = fs_state fs ->
  (forall task now, agree (Enqueue e fs task now) (Enqueue e ms task now))
  /\ (forall w now d, agree (Claim e fs w now d) (Claim e ms w now d))
  /\ (forall t a k now d, agree (Heartbeat e fs t a k now d) (Heartbeat e ms t a k now d))
  /\ (forall req now, agree (ControlTask e fs req now) (ControlTask e ms req now))
  /\ (forall now, agree (ExpireLeases e fs now) (ExpireLeases e ms now))
  /\ (forall now, agree (ExpireAwaitingReports e fs now) (ExpireAwaitingReports e ms now))
  /\ (forall t a r now d, agree (MarkAwaitingReport e fs t a r now d) (MarkAwaitingReport e ms t a r now d))
  /\ (forall p er, agree (RecordAsyncReconcileStats e fs p er) (RecordAsyncReconcileStats e ms p er))
  /\ (forall t why now, agree (Requeue e fs t why now) (Requeue e ms t why now))
  /\ (forall c, agree (CommitTerminal e fs c) (CommitTerminal e ms c))
  /\ (forall c, agree (CommitAsyncReportTerminal e fs c) (CommitAsyncReportTerminal e ms c))
  /\ (forall sn, agree (Restore e fs sn) (Restore e ms sn)).
Proof.
  intros Hio Hst. destruct ms as [s]. cbn in Hst. subst s.
  split_and!; intros; try apply (persisted_agree e Hio); try apply (persistedSweep_agree e Hio).
  - apply (claimFile_agree e Hio).
  - cbn. destruct (Z.leb_spec p 0), (Z.leb_spec er 0); cbn [andb];
      try apply (persisted_agree e Hio _ _ (_, Ok tt)).
    unfold agree, recordAsyncReconcileStats. cbn.
    destruct (Z.ltb_spec 0 p), (Z.ltb_spec 0 er); try lia. done.
Qed.

(** A codec for the examples, that never decodes. *)
#[local] Instance demoDocCodec : DocumentCodec := {| doc_Marshal _ := "{}"; doc_Unmarshal _ := None |}.

Definition demoFile : FileStore := mkFileStore demo (mkFileStoreOptions 0 1) 0 0 None.

Lemma file_store_agrees_with_memory_store_witness :
  agree (Claim (mkEnv t0 t0 None) demoFile "w2" t0 Second)
        (Claim (mkEnv t0 t0 None) (mkMemoryStore demo) "w2" t0 Second).
Proof.
  destruct (file_store_agrees_with_memory_store (mkEnv t0 t0 None) demoFile (mkMemoryStore demo)
    eq_refl eq_refl) as (_ & H & _).
  apply H.
Defined.

(** ** Durability *)

(** The file holds the state of the store. *)
Definition durable `{DocumentCodec} (fs : FileStore) : Prop :=
  fs_file fs = Some (doc_Marshal (documentOf (fs_state fs))).

(** Durability. After an operation that persists and succeeds, the file holds
    the new state, unless writes are batched; when they are, fewer than one batch
    of mutations is pending, and a flush that succeeds writes them. A failing
    write is reported and leaves the file as it was. *)
Theorem successful_mutation_is_durable `{DocumentCodec} {A} (e : Env) (fs : FileStore)
    (x : schedulerState * result SchedulerError A) (fs' : FileStore) (a : A) :
  0 < fo_PersistBatchSize (fs_persistOpts fs) -> 0 <= fs_pendingPersist fs ->
  persisted e false fs x = (fs', Ok a) ->
  fs_state fs' = x.1
  /\ (batchingEnabled (fs_persistOpts fs) = false -> durable fs')
  /\ (batchingEnabled (fs_persistOpts fs) = true ->
      durable fs' /\ fs_pendingPersist fs' = 0
      \/ fs_file fs' = fs_file fs /\ fs_pendingPersist fs' = fs_pendingPersist fs + 1
         /\ fs_pendingPersist fs' < fo_PersistBatchSize (fs_persistOpts fs)
         /\ (env_io e = None -> durable (Flush e fs').1)).
Proof.
  intros Hsize Hpend. unfold persisted. cbn zeta. destruct x as [s [a0|er]]; cbn [fst snd]; [|done].
  unfold maybePersistLocked. cbn [fs_persistOpts set_field].
  change (fs_persistOpts (fs <| fs_state := s |>)) with (fs_persistOpts fs).
  destruct (batchingEnabled (fs_persistOpts fs)) eqn:Hb; cbn [negb].
  2: { unfold persist. destruct (env_io e); [done|]. intros [= <- <-]. split_and!; done. }
  cbn zeta. set (fs1 := if IsZero _ then _ else _).
  assert (E : fs_state fs1 = s /\ fs_persistOpts fs1 = fs_persistOpts fs
              /\ fs_pendingPersist fs1 = fs_pendingPersist fs + 1 /\ fs_file fs1 = fs_file fs)
    by (unfold fs1; case_match; cbn; auto).
  clearbody fs1. destruct E as (Es & Eo & Ep & Ef).
  assert (Hflush : forall fs2 u, flushPersistLocked e fs1 = (fs2, Ok u) ->
            fs_state fs2 = s /\ durable fs2 /\ fs_pendingPersist fs2 = 0).
  { intros fs2 u. unfold flushPersistLocked. rewrite Eo, Hb, Ep. cbn [andb].
    destruct (Z.eqb_spec (fs_pendingPersist fs + 1) 0); [lia|].
    unfold persist. destruct (env_io e); [done|]. intros [= <- _]. split_and!; done. }
  rewrite Eo, Ep.
  destruct (Z.leb_spec (fo_PersistBatchSize (fs_persistOpts fs)) (fs_pendingPersist fs + 1)) as [Hle|Hlt].
  { destruct (flushPersistLocked e fs1) as [fs2 [u|er]] eqn:Efl; [|done]. intros [= <- <-].
    destruct (Hflush _ _ eq_refl) as (? & ? & ?). split_and!; auto. }
  destruct (_ && _).
  { destruct (flushPersistLocked e fs1) as [fs2 [u|er]] eqn:Efl; [|done]. intros [= <- <-].
    destruct (Hflush _ _ eq_refl) as (? & ? & ?). split_and!; auto. }
  intros [= <- <-]. split_and!; auto; [done|]. intros _. right. rewrite Ef, Ep. split_and!; auto.
  intros Hio. unfold Flush, flushPersistLocked. rewrite Eo, Hb, Ep. cbn [andb].
  destruct (Z.eqb_spec (fs_pendingPersist fs + 1) 0); [lia|]. by rewrite (persist_ok e Hio).
Qed.

Definition demoEnqueue : schedulerState * result SchedulerError TaskRecord :=
  enqueue t0 demo (demoTask "c" "low") t0.

Lemma demo_write : exists fs' r, persisted (mkEnv t0 t0 None) false demoFile demoEnqueue = (fs', Ok r).
Proof. eexists _, _. vm_compute. reflexivity. Qed.

Lemma successful_mutation_is_durable_witness :
  exists fs' r, persisted (mkEnv t0 t0 None) false demoFile demoEnqueue = (fs', Ok r) /\ durable fs'.
Proof.
  destruct demo_write as (fs' & r & E). exists fs', r. split; [exact E|].
  destruct (successful_mutation_is_durable (mkEnv t0 t0 None) demoFile demoEnqueue fs' r) as (_ & H & _).
  - vm_compute. reflexivity.
  - vm_compute. discriminate.
  - exact E.
  - apply H. vm_compute. reflexivity.
Defined.

(** ** Reopening *)

Lemma sched_inv_document ctl s : sched_inv ctl s -> sched_inv ctl (stateOf (documentOf s)).
Proof. intros [Hb _ _]. split; [exact Hb | by left | done]. Qed.

(** A store reopened from a file that holds a reachable state with an exact
    queue has the same tasks, queue, commits and control operations, if the JSON
    encoding gives the document back. *)
Theorem reopened_file_restores_tasks `{DocumentCodec} (ctl : bool) (s : schedulerState) (e : Env)
    (path : string) (opts : list (fileStoreOptions -> fileStoreOptions)) :
  doc_Unmarshal (doc_Marshal (documentOf s)) = Some (documentOf s) ->
  reachable ctl s -> NoDup (s_Queue s) ->
  (forall id r, id ∈ s_Queue s -> s_Tasks s !! id = Some r -> tr_State r = TaskStateQueued) ->
  map_Forall (fun _ => restorable) (s_Tasks s) ->
  env_io e = None -> TrimSpace path <> "" ->
  exists fs, NewFileStore e path opts (Some (doc_Marshal (documentOf s))) = Ok fs
    /\ s_Tasks (fs_state fs) = restoredRecord <$> s_Tasks s /\ s_Queue (fs_state fs) = s_Queue s
    /\ s_TerminalCommits (fs_state fs) = trimCommit <$> s_TerminalCommits s
    /\ s_ControlOps (fs_state fs) = s_ControlOps s.
Proof.
  intros Hcodec Hs Hnd Hq Hre Hio Hp. pose proof (reachable_ops _ _ Hs) as Hops.
  apply reachable_inv, sched_inv_document in Hs. apply str_eqb_neq in Hp.
  unfold NewFileStore. rewrite Hp. unfold load. rewrite Hio. cbn [fs_file]. rewrite Hcodec. cbn [fs_state].
  set (s1 := stateOf (documentOf s)) in *.
  unfold restore. cbn [sn_Tasks sn_Queue sn_TerminalCommits sn_ControlOps].
  rewrite (restore_tasks_ok ctl s1 Hs Hre). cbn [result_bind].
  change (sn_Queue (snapshot s1)) with (s_Queue s1).
  rewrite (restore_queue_ok ctl s1 Hs (conj Hnd Hq)). cbn [result_bind].
  rewrite (restore_commits_ok ctl s1 Hs). cbn [result_bind].
  rewrite (restore_ops_ok s1 Hops). cbn [result_bind].
  eexists. split; [reflexivity|]. split_and!; reflexivity.
  all: first [exact Hre | exact Hops].
Qed.

#[local] Instance demoDiskCodec : DocumentCodec :=
  {| doc_Marshal _ := "{}"; doc_Unmarshal _ := Some (documentOf demo) |}.

Lemma reopened_file_restores_tasks_witness :
  exists fs, NewFileStore (mkEnv t0 t0 None) "tasks.json" [] (Some "{}") = Ok fs
    /\ s_Queue (fs_state fs) = s_Queue demo.
Proof.
  destruct (reopened_file_restores_tasks (H := demoDiskCodec) false demo (mkEnv t0 t0 None) "tasks.json" [] eq_refl
    demo_reachable) as (fs & E & _ & Hq & _).
  - rewrite demo_queue. apply NoDup_singleton.
  - intros id r Hin Hr. rewrite demo_queue in Hin. apply list_elem_of_singleton in Hin as ->.
    rewrite demo_b in Hr. injection Hr as <-. reflexivity.
  - apply demo_restorable.
  - reflexivity.
  - by vm_compute.
  - exists fs. split; [exact E | exact Hq].
Defined.
