(* ===== verification/SchedulerFacadeProps.v ===== *)
(** * Scheduler: the facade, the properties

    What the clients of [Scheduler] get: each call is refused by the facade's own
    rules or is exactly the calls of the store it stands for, with the store's answer, so
    that the task board moves by its rules; the timeline is numbered without
    a gap, and a child is spawned only within the guardrails and its parent's
    budget. *)
From S2P Require Import Prelude GoStrings GoNum CoreTypes SchedulerTypes SchedulerState SchedulerSnapshot.
From S2P Require Import SchedulerStore Scheduler SchedulerSelect SchedulerBoard SchedulerRefine.
From S2P Require Import SchedulerOps SchedulerRoundTrip SchedulerProps SchedulerPersist.

Local Open Scope bool_scope.
Local Open Scope string_scope.
Local Open Scope list_scope.
Local Open Scope Z_scope.

(** ** Clients *)

(** The calls of a client that work on the store's content; [Restore], which replaces
    it, joins them in [client_call] below. *)
Inductive fcall : Type :=
| FEnqueue (task : Task)
| FSpawnChild (req : SpawnRequest)
| FClaim (workerID : string)
| FHeartbeat (taskID attemptID leaseToken : string)
| FExpireLeases
| FMarkAwaitingReport (taskID attemptID : string) (remoteTaskID : list string)
| FRequeue (taskID reason : string)
| FControlTask (req : TaskBoardControlRequest)
| FComplete (commit : TerminalCommit)
| FFail (commit : TerminalCommit)
| FCommitAsyncReportTerminal (commit : TerminalCommit).

(** The options a client may pass to [New]. *)
Inductive fopt : Type :=
| OTimelineEmitter (present : bool)
| OLeaseTimeout (timeout : Duration)
| OGuardrails (g : Guardrails)
| OGovernance (cfg : GovernanceConfig)
| ORecoveryBoundary (cfg : RecoveryBoundaryConfig)
| OAsyncAwait (cfg : AsyncAwaitConfig)
| OTaskBoardControl (cfg : TaskBoardControlConfig).

Create HintDb facade.

Section clients.
Context {T : Type} `{QueueStore T}.
Implicit Types (s : Scheduler T) (ck : Clock).

Definition option_of (o : fopt) : Scheduler T -> Scheduler T :=
  match o with
  | OTimelineEmitter b => WithTimelineEmitter b
  | OLeaseTimeout d => WithLeaseTimeout d
  | OGuardrails g => WithGuardrails g
  | OGovernance cfg => WithGovernance cfg
  | ORecoveryBoundary cfg => WithRecoveryBoundary cfg
  | OAsyncAwait cfg => WithAsyncAwait cfg
  | OTaskBoardControl cfg => WithTaskBoardControl cfg
  end.

Definition fexec s (cc : Clock * fcall) : Scheduler T :=
  let ck := cc.1 in
  match cc.2 with
  | FEnqueue t => (FacadeEnqueue ck s t).1
  | FSpawnChild req => (SpawnChild ck s req).1
  | FClaim w => (FacadeClaim ck s w).1
  | FHeartbeat t a k => (FacadeHeartbeat ck s t a k).1
  | FExpireLeases => (FacadeExpireLeases ck s).1
  | FMarkAwaitingReport t a r => (FacadeMarkAwaitingReport ck s t a r).1
  | FRequeue t why => (FacadeRequeue ck s t why).1
  | FControlTask req => (FacadeControlTask ck s req).1
  | FComplete c => (Complete ck s c).1
  | FFail c => (Fail ck s c).1
  | FCommitAsyncReportTerminal c => (FacadeCommitAsyncReportTerminal ck s c).1
  end.

Definition fruns s (l : list (Clock * fcall)) : Scheduler T := foldl fexec s l.

(** ** The timeline *)

(** The [i]-th event carries the sequence number [i + 1], as an [int64], and a
    canonical reason. *)
Definition numbered (i : nat) (e : Event) : Prop :=
  ev_Payload e !! "sequence" = Some (AnyInt (wrap_i64 (Z.of_nat i + 1)))
  /\ exists reason, ev_Payload e !! "reason" = Some (AnyString reason) /\ reason ∈ canonicalReasonSet.

Record timeline_ok s : Prop := {
  tl_seq : sc_seq s = wrap_i64 (Z.of_nat (length (sc_events s)));
  tl_events : forall i e, sc_events s !! i = Some e -> numbered i e
}.

(** Extra fields that leave the sequence number and the reason alone. *)
Definition harmless (extras : any_map) : Prop :=
  extras !! "sequence" = None /\ extras !! "reason" = None.

Lemma putNonEmpty_ne k v m k' : k <> k' -> putNonEmpty k v m !! k' = m !! k'.
Proof. intros Hk. unfold putNonEmpty. case_match; [done | by apply lookup_insert_ne]. Qed.

Lemma timelinePayload_fields r a st reason n extras :
  harmless extras ->
  timelinePayload r a st reason n extras !! "sequence" = Some (AnyInt n)
  /\ timelinePayload r a st reason n extras !! "reason" = Some (AnyString reason).
Proof.
  intros [H1 H2]. unfold timelinePayload. cbn zeta.
  rewrite !lookup_union_r by done. rewrite !putNonEmpty_ne by done.
  split; rewrite !lookup_insert_ne by done; apply lookup_insert_eq.
Qed.

(** What an emission does: nothing, or one more event. *)
Lemma emit_shape ck r a st reason extras s :
  let s' := emitTimelineWithExtras ck r a st reason extras s in
  s' = s
  \/ exists reason' e, reason' ∈ canonicalReasonSet
     /\ ev_Payload e = timelinePayload r a st reason' (wrap_i64 (sc_seq s + 1)) extras
     /\ s' = s <| sc_seq := wrap_i64 (sc_seq s + 1) |> <| sc_events := sc_events s ++ [e] |>.
Proof.
  cbn zeta. unfold emitTimelineWithExtras. case_match; [by left|].
  destruct (CanonicalReason reason) as [reason'|] eqn:Hr; [|by left]. right.
  eexists reason', (mkEvent _ _ _ _ _). split_and!; [|reflexivity|by destruct s].
  unfold CanonicalReason in Hr. case_bool_decide; [by injection Hr as <- | done].
Qed.

Lemma timeline_ok_snoc s e :
  timeline_ok s -> numbered (length (sc_events s)) e ->
  timeline_ok (s <| sc_seq := wrap_i64 (sc_seq s + 1) |> <| sc_events := sc_events s ++ [e] |>).
Proof.
  intros [Hs He] Hn. destruct s; cbn in *. split; cbn.
  - rewrite Hs, wrap_i64_add, length_app. f_equal. cbn. lia.
  - intros i e' [Hi|[Hi Hi']]%lookup_app_Some; [by apply He|].
    apply list_lookup_singleton_Some in Hi' as [Hi0 <-]. by replace i with (length sc_events) by lia.
Qed.

Lemma emit_timeline ck r a st reason extras s :
  harmless extras -> timeline_ok s -> timeline_ok (emitTimelineWithExtras ck r a st reason extras s).
Proof.
  intros Hx Hok. destruct (emit_shape ck r a st reason extras s) as [->|(reason' & e & Hin & Hp & ->)]; [done|].
  apply timeline_ok_snoc; [done|]. unfold numbered. rewrite Hp.
  destruct (timelinePayload_fields r a st reason' (wrap_i64 (sc_seq s + 1)) extras Hx) as [-> ->].
  rewrite (tl_seq s Hok), wrap_i64_add. eauto.
Qed.

Lemma emit_timeline_plain ck r a st reason s :
  timeline_ok s -> timeline_ok (emitTimeline ck r a st reason s).
Proof. by apply emit_timeline. Qed.

Lemma invalidate_timeline s : timeline_ok s -> timeline_ok (invalidateTaskBoardQueryCache s).
Proof. intros [? ?]. by split. Qed.

Lemma store_timeline s st : timeline_ok s -> timeline_ok (s <| sc_store := st |>).
Proof. intros [? ?]. by split. Qed.

Lemma foldl_timeline {A} (f : Scheduler T -> A -> Scheduler T) s l :
  (forall s x, timeline_ok s -> timeline_ok (f s x)) -> timeline_ok s -> timeline_ok (foldl f s l).
Proof. intros Hf. revert s. induction l as [|x l IH]; intros s Hs; cbn; [done|]. by apply IH, Hf. Qed.

End clients.

#[export] Hint Resolve emit_timeline emit_timeline_plain invalidate_timeline store_timeline : facade.

(** The extra fields of the code are inserts of other keys. *)
Ltac harmless_tac :=
  unfold backoffExtras, deadLetterExtras, qosExtras; cbn zeta;
  repeat match goal with |- harmless (if ?b then _ else _) => destruct b end;
  split; rewrite ?lookup_insert_ne by done; apply lookup_empty.
#[export] Hint Extern 1 (harmless _) => harmless_tac : facade.

Section clients_timeline.
Context {T : Type} `{QueueStore T}.
Implicit Types (s : Scheduler T) (ck : Clock).

Lemma emitRetry_timeline ck now r a s : timeline_ok s -> timeline_ok (emitRetry ck now r a s).
Proof.
  intros Hs. unfold emitRetry. destruct (tr_State r); try case_match; eauto with facade.
Qed.

Lemma emitLeaseExpired_timeline ck now s item :
  timeline_ok s -> timeline_ok (emitLeaseExpired ck now s item).
Proof. intros Hs. unfold emitLeaseExpired. apply emitRetry_timeline. eauto with facade. Qed.

Lemma emitReportExpired_timeline ck s item : timeline_ok s -> timeline_ok (emitReportExpired ck s item).
Proof. intros Hs. unfold emitReportExpired. case_match; eauto with facade. Qed.

Lemma FacadeEnqueue_timeline ck s task : timeline_ok s -> timeline_ok (FacadeEnqueue ck s task).1.
Proof.
  intros Hs. unfold FacadeEnqueue, onStore. destruct (Enqueue _ _ _ _) as [st [r|e]]; cbn; [|auto with facade].
  case_match; eauto 6 with facade.
Qed.

Lemma SpawnChild_timeline ck s req : timeline_ok s -> timeline_ok (SpawnChild ck s req).1.
Proof.
  intros Hs. unfold SpawnChild, rejectSpawn. do 2 (case_match; [cbn; eauto with facade|]).
  cbn zeta. case_match; [|cbn; eauto with facade].
  pose proof (FacadeEnqueue_timeline ck s (sp_Task (resolveChildTimeout req)) Hs) as He.
  destruct (FacadeEnqueue _ _ _) as [s' [r|e]]; cbn in *; eauto with facade.
Qed.

Lemma FacadeClaim_timeline ck s w : timeline_ok s -> timeline_ok (FacadeClaim ck s w).1.
Proof.
  intros Hs. unfold FacadeClaim, onStore.
  destruct (Claim _ _ _ _ _) as [st [[ct|]|e]]; cbn; [|auto with facade..].
  repeat case_match; eauto 8 with facade.
Qed.

Lemma FacadeExpireLeases_timeline ck s : timeline_ok s -> timeline_ok (FacadeExpireLeases ck s).1.
Proof.
  intros Hs. unfold FacadeExpireLeases, onStore.
  destruct (ExpireLeases _ _ _) as [st [l|e]]; cbn; [|auto with facade].
  assert (H1 : timeline_ok (foldl (emitLeaseExpired ck (ck_now ck)) (s <| sc_store := st |>) l)).
  { apply foldl_timeline; [intros; by apply emitLeaseExpired_timeline | auto with facade]. }
  destruct (ExpireAwaitingReports _ _ _) as [st' [l'|e]]; cbn; [|auto with facade].
  match goal with |- timeline_ok (match _ with [] => ?x | _ => _ end) => assert (H2 : timeline_ok x) end.
  { apply foldl_timeline; [intros; by apply emitReportExpired_timeline | auto with facade]. }
  case_match; auto with facade.
Qed.

Lemma joinCommit_timeline ck s c st : timeline_ok s -> timeline_ok (joinCommit ck s c st).1.
Proof.
  intros Hs. unfold joinCommit, onStore. destruct (CommitTerminal _ _ _) as [? [r|e]]; cbn; [|auto with facade].
  case_match; eauto with facade.
Qed.

Lemma FacadeControlTask_timeline ck s req : timeline_ok s -> timeline_ok (FacadeControlTask ck s req).1.
Proof.
  intros Hs. unfold FacadeControlTask, onStore. destruct (ControlTask _ _ _ _) as [? [r|e]]; cbn; [|auto with facade].
  repeat case_match; eauto with facade.
Qed.

Lemma fexec_timeline s cc : timeline_ok s -> timeline_ok (fexec s cc).
Proof.
  destruct cc as [ck c]. intros Hs. destruct c; cbn.
  - by apply FacadeEnqueue_timeline.
  - by apply SpawnChild_timeline.
  - by apply FacadeClaim_timeline.
  - unfold FacadeHeartbeat, onStore. destruct (Heartbeat _ _ _ _ _ _ _) as [? [r|e]]; cbn; eauto with facade.
  - by apply FacadeExpireLeases_timeline.
  - unfold FacadeMarkAwaitingReport, onStore.
    destruct (MarkAwaitingReport _ _ _ _ _ _ _) as [? [r|e]]; cbn; eauto with facade.
  - unfold FacadeRequeue, onStore. destruct (Requeue _ _ _ _ _) as [? [r|e]]; cbn; [|eauto with facade].
    apply emitRetry_timeline. auto with facade.
  - by apply FacadeControlTask_timeline.
  - unfold Complete. case_match; [done | by apply joinCommit_timeline].
  - unfold Fail. case_match; [done | by apply joinCommit_timeline].
  - unfold FacadeCommitAsyncReportTerminal, onStore.
    destruct (CommitAsyncReportTerminal _ _ _) as [? [r|e]]; cbn; [|auto with facade].
    repeat case_match; eauto with facade.
Qed.

Lemma foldl_options opts s :
  foldl (fun s (o : Scheduler T -> Scheduler T) => o s) s (option_of <$> opts)
  = foldl (fun s o => option_of o s) s opts.
Proof. revert s. induction opts as [|o opts IH]; intros s; cbn; [done | apply IH]. Qed.

Lemma options_events opts s : sc_events (foldl (fun s o => option_of o s) s opts) = sc_events s
  /\ sc_seq (foldl (fun s o => option_of o s) s opts) = sc_seq s.
Proof.
  revert s. induction opts as [|o opts IH]; intros s; cbn; [done|].
  destruct (IH (option_of o s)) as [-> ->].
  destruct o; try done. cbn. unfold WithLeaseTimeout. by case_match.
Qed.

(** The timeline of a scheduler, over any store and through any sequence of
    calls: the event in position [i] carries the sequence number [i + 1] of type
    [int64], and a reason of the canonical set; the extra fields of an event
    never overwrite either. *)
Theorem timeline_is_sequenced (store : T) (opts : list fopt) (s0 : Scheduler T)
    (calls : list (Clock * fcall)) :
  New store (option_of <$> opts) = Ok s0 ->
  forall i e, sc_events (fruns s0 calls) !! i = Some e -> numbered i e.
Proof.
  unfold New. cbn zeta. case_match; [|done]. intros [= <-].
  apply tl_events. unfold fruns. apply foldl_timeline; [apply fexec_timeline|].
  rewrite foldl_options. set (s1 := foldl _ _ _).
  assert (E : sc_events s1 = [] /\ sc_seq s1 = 0) by apply options_events.
  destruct E as [E1 E2]. split; cbn; [by rewrite E1, E2 | by rewrite E1].
Qed.
End clients_timeline.

Definition demoEnv : Env := mkEnv t0 t0 None.
Definition demoClock (now : Time) : Clock := mkClock now (fun _ => now) demoEnv.

(** A client of a memory store with a timeline and at most two child levels. *)
Definition demoOpts : list fopt := [OTimelineEmitter true; OGuardrails (mkGuardrails 2 3 0)].
Definition demoClient : Scheduler MemoryStore :=
  match New NewMemoryStore (option_of <$> demoOpts) with
  | Ok s => s
  | Err _ => mkScheduler NewMemoryStore 0 (mkGuardrails 0 0 0) defaultGovernanceConfig
               defaultAsyncAwaitConfig defaultTaskBoardControlConfig defaultRecoveryBoundaryConfig false [] 0 0 0 ∅
  end.

Lemma demoClient_new : New NewMemoryStore (option_of <$> demoOpts) = Ok demoClient.
Proof. reflexivity. Qed.

Definition demoCalls : list (Clock * fcall) :=
  [(demoClock t0, FEnqueue (demoTask "a" "high")); (demoClock t0, FClaim "w1");
   (demoClock t0, FComplete (demoCommit "a" "a-attempt-1" TaskStateSucceeded))].

Lemma timeline_is_sequenced_witness :
  length (sc_events (fruns demoClient demoCalls)) = 3%nat
  /\ forall i e, sc_events (fruns demoClient demoCalls) !! i = Some e -> numbered i e.
Proof.
  split; [vm_compute; reflexivity|].
  exact (timeline_is_sequenced NewMemoryStore demoOpts demoClient demoCalls demoClient_new).
Defined.

(** ** The store behind the facade *)

Section clients_store.
Context {T : Type} `{QueueStore T}.
Implicit Types (s : Scheduler T) (ck : Clock).

Lemma emit_store ck r a st reason extras s :
  sc_store (emitTimelineWithExtras ck r a st reason extras s) = sc_store s.
Proof. by destruct (emit_shape ck r a st reason extras s) as [->|(? & ? & _ & _ & ->)]. Qed.

Lemma FacadeEnqueue_store ck s task :
  sc_store (FacadeEnqueue ck s task).1 = (Enqueue (ck_env ck) (sc_store s) task (ck_now ck)).1.
Proof.
  unfold FacadeEnqueue, onStore, emitTimeline. destruct (Enqueue _ _ _ _) as [st [r|e]]; cbn; [|done].
  case_match; by rewrite ?emit_store.
Qed.

(** What a client is answered. *)
Inductive answer : Type :=
| ATask (r : TaskRecord)
| AClaimed (c : option ClaimedTask)
| ARenewed (c : ClaimedTask)
| AExpired (l : list ClaimedTask)
| AControlled (r : TaskBoardControlResult)
| ACommitted (r : CommitResult)
| ARestored.

Definition answered {E A} (f : A -> answer) (r : result E A) : result E answer :=
  match r with Ok a => Ok (f a) | Err e => Err e end.

Definition fanswer s (cc : Clock * fcall) : result FacadeError answer :=
  let ck := cc.1 in
  match cc.2 with
  | FEnqueue t => answered ATask (FacadeEnqueue ck s t).2
  | FSpawnChild req => answered ATask (SpawnChild ck s req).2
  | FClaim w => answered AClaimed (FacadeClaim ck s w).2
  | FHeartbeat t a k => answered ARenewed (FacadeHeartbeat ck s t a k).2
  | FExpireLeases => answered AExpired (FacadeExpireLeases ck s).2
  | FMarkAwaitingReport t a r => answered ATask (FacadeMarkAwaitingReport ck s t a r).2
  | FRequeue t why => answered ATask (FacadeRequeue ck s t why).2
  | FControlTask req => answered AControlled (FacadeControlTask ck s req).2
  | FComplete c => answered ACommitted (Complete ck s c).2
  | FFail c => answered ACommitted (Fail ck s c).2
  | FCommitAsyncReportTerminal c => answered ACommitted (FacadeCommitAsyncReportTerminal ck s c).2
  end.

(** The rules of the facade itself. *)
Definition refusal (g : Guardrails) (c : fcall) : option FacadeError :=
  match c with
  | FSpawnChild req =>
      if decide (sp_ParentRemainingBudget req <= 0) then Some (ErrBudget BudgetRejectParentBudgetExhausted)
      else if decide (sp_ChildTimeout req <= 0) then Some (ErrBudget BudgetRejectTimeout)
      else if decide (0 < gr_MaxDepth g < wrap_i64 (sp_ParentDepth req + 1)) then Some (ErrBudget BudgetRejectDepth)
      else if decide (0 < gr_MaxActiveChildren g <= sp_ParentActiveChildren req) then Some (ErrBudget BudgetRejectActiveChild)
      else None
  | FComplete commit => if decide (tc_Status commit = TaskStateSucceeded) then None else Some ErrCompleteRequiresSucceeded
  | FFail commit => if decide (tc_Status commit = TaskStateFailed) then None else Some ErrFailRequiresFailed
  | _ => None
  end.

(** The task of a spawned child: its timeout is the smaller of the requested one and the parent's budget. *)
Definition childTask (req : SpawnRequest) : Task :=
  sp_Task req <| tk_TimeoutResolution := sp_TimeoutResolution req
    <| tm_EffectiveOperationProfile ::= TrimSpace |> <| tm_Source ::= TrimSpace |> <| tm_Trace ::= TrimSpace |>
    <| tm_ResolvedTimeout := Z.min (sp_ChildTimeout req) (sp_ParentRemainingBudget req) |>
    <| tm_ParentBudgetClamped ::= fun b => b || (sp_ParentRemainingBudget req <? sp_ChildTimeout req) |> |>.

Lemma resolveChildTimeout_task req : sp_Task (resolveChildTimeout req) = childTask req.
Proof.
  unfold resolveChildTimeout, childTask. destruct req as [t d a pb ct [prof src tr rt cl]]. cbn.
  destruct (Z.ltb_spec pb ct) as [Hlt|Hle]; cbn.
  - rewrite Z.min_r by lia. by destruct cl.
  - rewrite Z.min_l by lia. by destruct cl.
Qed.

(** The calls of the store a call stands for, with their arguments and what they answer; the lease time and the
    report timeout are those of the scheduler [s0]. *)
Definition onStoreOnly {A} (f : A -> answer) (x : outcome T A) : T * result FacadeError answer :=
  (x.1, match x.2 with Ok a => Ok (f a) | Err e => Err (ErrStore e) end).

Definition fstore (s0 : Scheduler T) (st : T) ck (c : fcall) : T * result FacadeError answer :=
  let e := ck_env ck in let now := ck_now ck in
  match c with
  | FEnqueue t => onStoreOnly ATask (Enqueue e st t now)
  | FSpawnChild req => onStoreOnly ATask (Enqueue e st (childTask req) now)
  | FClaim w => onStoreOnly AClaimed (Claim e st w now (sc_leaseTimeout s0))
  | FHeartbeat t a k => onStoreOnly ARenewed (Heartbeat e st t a k now (sc_leaseTimeout s0))
  | FExpireLeases =>
      match ExpireLeases e st now with
      | (st, Err e) => (st, Err (ErrStore e))
      | (st, Ok expired) => onStoreOnly (fun late => AExpired (expired ++ late)) (ExpireAwaitingReports e st now)
      end
  | FMarkAwaitingReport t a r =>
      onStoreOnly ATask (MarkAwaitingReport e st t a (match r with [] => "" | x :: _ => TrimSpace x end) now
                           (aa_ReportTimeout (sc_asyncAwait s0)))
  | FRequeue t why => onStoreOnly ATask (Requeue e st t why now)
  | FControlTask req => onStoreOnly AControlled (ControlTask e st req now)
  | FComplete c | FFail c => onStoreOnly ACommitted (CommitTerminal e st c)
  | FCommitAsyncReportTerminal c => onStoreOnly ACommitted (CommitAsyncReportTerminal e st c)
  end.

Lemma onStoreOnly_state {A} (f : A -> answer) (x : outcome T A) : (onStoreOnly f x).1 = x.1.
Proof. done. Qed.

(** Events and the query cache are apart from these. *)
Definition core s : T * (Duration * Guardrails * AsyncAwaitConfig) :=
  (sc_store s, (sc_leaseTimeout s, sc_guardrails s, sc_asyncAwait s)).
#[local] Arguments core _ : simpl never.

Lemma emit_core ck r a st reason extras s : core (emitTimelineWithExtras ck r a st reason extras s) = core s.
Proof. by destruct (emit_shape ck r a st reason extras s) as [->|(? & ? & _ & _ & ->)]. Qed.

Lemma emitRetry_core ck now r a s : core (emitRetry ck now r a s) = core s.
Proof. unfold emitRetry, emitTimeline. destruct (tr_State r); try case_match; by rewrite ?emit_core. Qed.

Lemma emitLeaseExpired_core ck now s item : core (emitLeaseExpired ck now s item) = core s.
Proof. unfold emitLeaseExpired, emitTimeline. by rewrite emitRetry_core, emit_core. Qed.

Lemma emitReportExpired_core ck s item : core (emitReportExpired ck s item) = core s.
Proof. unfold emitReportExpired. case_match; by rewrite ?emit_core. Qed.

Lemma foldl_core {A} (f : Scheduler T -> A -> Scheduler T) s l :
  (forall s x, core (f s x) = core s) -> core (foldl f s l) = core s.
Proof. intros Hf. revert s. induction l as [|x l IH]; intros s; cbn; [done|]. by rewrite IH, Hf. Qed.

Lemma invalidate_core s : core (invalidateTaskBoardQueryCache s) = core s.
Proof. done. Qed.

(** The scheduler after a call of the store, but for the events and the cache. *)
Definition onCore s (x : T * result FacadeError answer) s' (r : result FacadeError answer) : Prop :=
  core s' = (x.1, (core s).2) /\ r = x.2.

Ltac on_core := unfold onCore, emitTimeline; cbn; rewrite ?emitRetry_core, ?emit_core, ?invalidate_core; by split.

Lemma FacadeEnqueue_core ck s task :
  onCore s (onStoreOnly ATask (Enqueue (ck_env ck) (sc_store s) task (ck_now ck)))
    (FacadeEnqueue ck s task).1 (answered ATask (FacadeEnqueue ck s task).2).
Proof.
  unfold FacadeEnqueue, onStore, onStoreOnly. destruct (Enqueue _ _ _ _) as [st [r|e]]; cbn; [|by split].
  case_match; on_core.
Qed.

Lemma FacadeExpireLeases_core ck s :
  onCore s (fstore s (sc_store s) ck FExpireLeases) (FacadeExpireLeases ck s).1 (answered AExpired (FacadeExpireLeases ck s).2).
Proof.
  unfold FacadeExpireLeases, onStore, fstore, onStoreOnly. destruct (ExpireLeases _ _ _) as [st [l|e]]; cbn; [|by split].
  pose proof (foldl_core (emitLeaseExpired ck (ck_now ck)) (s <| sc_store := st |>) l
    ltac:(intros; apply emitLeaseExpired_core)) as Hc.
  set (s1 := foldl _ _ l) in *. clearbody s1. unfold core in Hc. cbn in Hc. injection Hc as E1 E2 E3 E4. rewrite E1.
  destruct (ExpireAwaitingReports _ _ _) as [st' [l'|e]]; cbn; [|unfold onCore, core; cbn; by rewrite E2, E3, E4].
  unfold onCore. split; [|done].
  match goal with |- core (match _ with [] => ?x | _ => _ end) = _ => assert (core x = (st', (core s).2)) as Hx end.
  { rewrite foldl_core by (intros; apply emitReportExpired_core). unfold core. cbn. by rewrite E2, E3, E4. }
  case_match; done.
Qed.

Lemma spawn_refusal g req :
  refusal g (FSpawnChild req)
  = if sp_ParentRemainingBudget req <=? 0 then Some (ErrBudget BudgetRejectParentBudgetExhausted)
    else if sp_ChildTimeout req <=? 0 then Some (ErrBudget BudgetRejectTimeout)
    else match ValidateSpawn g (resolveChildTimeout req) with Err code => Some (ErrBudget code) | Ok _ => None end.
Proof.
  unfold refusal, ValidateSpawn.
  replace (sp_ParentDepth (resolveChildTimeout req)) with (sp_ParentDepth req)
    by (unfold resolveChildTimeout; by destruct (_ <? _)).
  replace (sp_ParentActiveChildren (resolveChildTimeout req)) with (sp_ParentActiveChildren req)
    by (unfold resolveChildTimeout; by destruct (_ <? _)).
  destruct (Z.leb_spec (sp_ParentRemainingBudget req) 0); case_decide; try lia; [done|].
  destruct (Z.leb_spec (sp_ChildTimeout req) 0); case_decide; try lia; [done|].
  destruct (Z.ltb_spec 0 (gr_MaxDepth g)), (Z.ltb_spec (gr_MaxDepth g) (wrap_i64 (sp_ParentDepth req + 1))),
    (Z.ltb_spec 0 (gr_MaxActiveChildren g)), (Z.leb_spec (gr_MaxActiveChildren g) (sp_ParentActiveChildren req));
    repeat case_decide; cbn; done || lia.
Qed.

(** A call is refused by the facade, or it is the calls of the store it stands for. *)
Lemma fexec_forwards s ck c :
  match refusal (sc_guardrails s) c with
  | Some e => core (fexec s (ck, c)) = core s /\ fanswer s (ck, c) = Err e
  | None => onCore s (fstore s (sc_store s) ck c) (fexec s (ck, c)) (fanswer s (ck, c))
  end.
Proof.
  destruct c; [| rewrite spawn_refusal | ..]; cbn [refusal fexec fanswer fst snd fstore].
  - apply FacadeEnqueue_core.
  - unfold SpawnChild, rejectSpawn, emitTimeline.
    destruct (sp_ParentRemainingBudget req <=? 0); [cbn; by rewrite emit_core|].
    destruct (sp_ChildTimeout req <=? 0); [cbn; by rewrite emit_core|]. cbn zeta.
    destruct (ValidateSpawn _ _); [|cbn; by rewrite emit_core]. rewrite <-resolveChildTimeout_task.
    destruct (FacadeEnqueue_core ck s (sp_Task (resolveChildTimeout req))) as [Hc Ha].
    destruct (FacadeEnqueue _ _ _) as [s' [r|e]]; cbn in *; split; rewrite ?emit_core; done.
  - unfold FacadeClaim, onStore, onStoreOnly.
    destruct (Claim _ _ _ _ _) as [st [[ct|]|e]]; cbn; [|by split..]. repeat case_match; on_core.
  - unfold FacadeHeartbeat, onStore, onStoreOnly. destruct (Heartbeat _ _ _ _ _ _ _) as [? [r|e]]; cbn; on_core.
  - apply FacadeExpireLeases_core.
  - unfold FacadeMarkAwaitingReport, onStore, onStoreOnly.
    destruct (MarkAwaitingReport _ _ _ _ _ _ _) as [? [r|e]]; cbn; on_core.
  - unfold FacadeRequeue, onStore, onStoreOnly. destruct (Requeue _ _ _ _ _) as [? [r|e]]; cbn; on_core.
  - unfold FacadeControlTask, onStore, onStoreOnly.
    destruct (ControlTask _ _ _ _) as [? [r|e]]; cbn; [|by split]. repeat case_match; on_core.
  - unfold Complete, joinCommit, onStore, onStoreOnly. case_decide as Hd; [rewrite bool_decide_eq_true_2 by done|by rewrite bool_decide_eq_false_2].
    cbn. destruct (CommitTerminal _ _ _) as [? [r|e]]; cbn; [|by split]. case_match; on_core.
  - unfold Fail, joinCommit, onStore, onStoreOnly. case_decide as Hd; [rewrite bool_decide_eq_true_2 by done|by rewrite bool_decide_eq_false_2].
    cbn. destruct (CommitTerminal _ _ _) as [? [r|e]]; cbn; [|by split]. case_match; on_core.
  - unfold FacadeCommitAsyncReportTerminal, onStore, onStoreOnly.
    destruct (CommitAsyncReportTerminal _ _ _) as [? [r|e]]; cbn; [|by split].
    repeat case_match; on_core.
Qed.

(** *** With [Restore] *)

Inductive client_call : Type :=
| Call (c : fcall)
| RestoreFrom (sn : StoreSnapshot).

Definition cexec s (cc : Clock * client_call) : Scheduler T :=
  match cc.2 with Call c => fexec s (cc.1, c) | RestoreFrom sn => (FacadeRestore cc.1 s sn).1 end.

Definition cruns s (l : list (Clock * client_call)) : Scheduler T := foldl cexec s l.

Definition canswer s (cc : Clock * client_call) : result FacadeError answer :=
  match cc.2 with Call c => fanswer s (cc.1, c) | RestoreFrom sn => answered (fun _ => ARestored) (FacadeRestore cc.1 s sn).2 end.

Definition crefusal (g : Guardrails) (c : client_call) : option FacadeError :=
  match c with Call c => refusal g c | RestoreFrom _ => None end.

Definition cstore (s0 : Scheduler T) (st : T) ck (c : client_call) : T * result FacadeError answer :=
  match c with
  | Call c => fstore s0 st ck c
  | RestoreFrom sn => onStoreOnly (fun _ => ARestored) (Restore (ck_env ck) st sn)
  end.

Lemma cexec_forwards s ck c :
  match crefusal (sc_guardrails s) c with
  | Some e => core (cexec s (ck, c)) = core s /\ canswer s (ck, c) = Err e
  | None => onCore s (cstore s (sc_store s) ck c) (cexec s (ck, c)) (canswer s (ck, c))
  end.
Proof.
  destruct c as [c|sn]; [apply fexec_forwards|]. unfold cexec, canswer, crefusal, cstore, FacadeRestore, onStore, onStoreOnly. cbn.
  destruct (Restore _ _ _) as [? [r|e]]; cbn; on_core.
Qed.

Lemma cexec_settings s cc : (core (cexec s cc)).2 = (core s).2.
Proof.
  destruct cc as [ck c]. pose proof (cexec_forwards s ck c) as H0. destruct (crefusal _ c); destruct H0 as [-> _]; done.
Qed.

Lemma cruns_settings s l : (core (cruns s l)).2 = (core s).2.
Proof. revert s. induction l as [|cc l IH]; intros s; [done|]. cbn. rewrite IH. apply cexec_settings. Qed.

Lemma cstore_settings s s0 st ck c : (core s).2 = (core s0).2 -> cstore s st ck c = cstore s0 st ck c.
Proof. unfold core. intros [= E1 E2 E3]. destruct c as [[]|]; cbn; congruence. Qed.

End clients_store.

(** Over the memory store, those operations are calls of the state machine. *)
Definition fcalls (ck : Clock) (s : Scheduler MemoryStore) (c : fcall) : list call :=
  let now := ck_now ck in
  match c with
  | FEnqueue t => [CallEnqueue t now]
  | FSpawnChild req => [CallEnqueue (childTask req) now]
  | FClaim w => [CallClaim (TrimSpace w) now (sc_leaseTimeout s)]
  | FHeartbeat t a k => [CallHeartbeat t a k now (sc_leaseTimeout s)]
  | FExpireLeases => [CallExpireLeases now; CallExpireAwaitingReports now]
  | FMarkAwaitingReport t a r =>
      [CallMarkAwaitingReport t a (match r with [] => "" | x :: _ => TrimSpace x end) now
         (aa_ReportTimeout (sc_asyncAwait s))]
  | FRequeue t _ => [CallRequeue t now]
  | FControlTask req => [CallControlTask req now]
  | FComplete c | FFail c => [CallCommitTerminal c]
  | FCommitAsyncReportTerminal c => [CallCommitAsyncReportTerminal c]
  end.

Lemma fstore_memory ck (s0 : Scheduler MemoryStore) st c :
  ms_state (fstore s0 st ck c).1 = runs (ms_state st) ((fun x => (env_wall (ck_env ck), x)) <$> fcalls ck s0 c).
Proof.
  unfold runs. destruct c; unfold fcalls; cbn [fmap list_fmap foldl fst snd]; unfold fstore; rewrite ?onStoreOnly_state;
    cbn [run]; unfold Enqueue, Claim, Heartbeat, ExpireLeases,
    ExpireAwaitingReports, MarkAwaitingReport, Requeue, ControlTask, CommitTerminal,
    CommitAsyncReportTerminal, MemoryStore_QueueStore, locked; cbn [ms_state fst snd]; try reflexivity.
  destruct (expireLeases _ _ _) as [s1 l1]. cbn [ms_state fst]. rewrite onStoreOnly_state.
  by destruct (expireAwaitingReports _ _ _) as [s2 l2].
Qed.

Lemma fcalls_admitted ctl ck s c w :
  Forall (fun wc : Time * call => admits ctl wc.2) ((fun x => (w, x)) <$> fcalls ck s c).
Proof. destruct c; by repeat constructor. Qed.

Lemma fexec_runs ctl s cc :
  exists l : list (Time * call), Forall (fun wc => admits ctl wc.2) l
    /\ ms_state (sc_store (fexec s cc)) = runs (ms_state (sc_store s)) l.
Proof.
  destruct cc as [ck c]. pose proof (fexec_forwards s ck c) as Hf. destruct (refusal _ c).
  - destruct Hf as [Hc _]. injection Hc as -> _ _ _. by exists [].
  - destruct Hf as [Hc _]. injection Hc as -> _ _ _. eexists. split; [|apply fstore_memory]. apply fcalls_admitted.
Qed.

(** Manual control is on only when an option switched it on. *)
Definition controlled (ctl : bool) (opts : list fopt) : Prop :=
  forall cfg, OTaskBoardControl cfg ∈ opts -> tb_Enabled cfg = true -> ctl = true.

Lemma options_store ctl opts (s : Scheduler MemoryStore) :
  controlled ctl opts -> (tb_Enabled (sc_taskBoardControl s) = true -> ctl = true) ->
  let s' := foldl (fun s o => option_of o s) s opts in
  sc_store s' = sc_store s /\ (tb_Enabled (sc_taskBoardControl s') = true -> ctl = true).
Proof.
  revert s. induction opts as [|o opts IH]; intros s Ho Hs; [done|]. cbn.
  assert (Hc : sc_store (option_of o s) = sc_store s
               /\ (tb_Enabled (sc_taskBoardControl (option_of o s)) = true -> ctl = true)).
  { destruct o; try done; cbn; [unfold WithLeaseTimeout; by case_match|].
    split; [done|]. apply Ho. by left. }
  destruct Hc as [Hc1 Hc2]. rewrite <-Hc1. apply IH; [|done]. intros cfg Hin. apply Ho. by right.
Qed.

Lemma New_reachable ctl opts s0 :
  controlled ctl opts -> New NewMemoryStore (option_of <$> opts) = Ok s0 ->
  reachable ctl (ms_state (sc_store s0)).
Proof.
  intros Ho. unfold New. cbn zeta. case_match; [|done]. intros [= <-]. rewrite foldl_options.
  match goal with |- context [foldl _ ?s opts] =>
    destruct (options_store ctl opts s Ho) as [E1 E2]; [done|] end.
  cbn. rewrite E1. cbn.
  eapply (Reach_call ctl _ 0 (CallSetTaskBoardControl _)); [|exact E2].
  eapply (Reach_call ctl _ 0 (CallSetAsyncAwait _)); [|done].
  eapply (Reach_call ctl _ 0 (CallSetRecoveryBoundary _)); [|done].
  eapply (Reach_call ctl _ 0 (CallSetGovernance _)); [|done]. apply Reach_new.
Qed.

(** What holds of a store from its creation on, and of one restored from a snapshot of such a store under the conditions
    for which a snapshot restores. *)
Definition consistent (ctl : bool) (st : schedulerState) : Prop :=
  sched_inv ctl st /\ map_Forall op_wf (s_ControlOps st).

Definition faithful_snapshot (ctl : bool) (sn : StoreSnapshot) : Prop :=
  exists st, consistent ctl st /\ NoDup (s_Queue st)
    /\ (forall id r, id ∈ s_Queue st -> s_Tasks st !! id = Some r -> tr_State r = TaskStateQueued)
    /\ map_Forall (fun _ => restorable) (s_Tasks st) /\ sn = snapshot st.

Definition sound_call (ctl : bool) (c : client_call) : Prop :=
  match c with Call _ => True | RestoreFrom sn => faithful_snapshot ctl sn end.

Lemma runs_consistent ctl (l : list (Time * call)) st :
  Forall (fun wc => admits ctl wc.2) l -> consistent ctl st -> consistent ctl (runs st l).
Proof.
  intros Hl. revert st. induction Hl as [|[w c] l Hc _ IH]; intros st [Hi Ho]; [done|]. apply IH.
  split; [by apply run_inv | by eapply run_ops].
Qed.

Lemma FacadeRestore_state ck (s : Scheduler MemoryStore) sn :
  ms_state (sc_store (cexec s (ck, RestoreFrom sn)))
  = match restore (ms_state (sc_store s)) sn with Ok st => st | Err _ => ms_state (sc_store s) end.
Proof.
  unfold cexec, FacadeRestore, onStore, Restore, MemoryStore_QueueStore, locked, restoreInto. cbn.
  by destruct (restore _ sn).
Qed.

Lemma cexec_consistent ctl (s : Scheduler MemoryStore) cc :
  sound_call ctl cc.2 -> consistent ctl (ms_state (sc_store s)) -> consistent ctl (ms_state (sc_store (cexec s cc))).
Proof.
  destruct cc as [ck [c|sn]]; cbn [sound_call snd]; intros Hsn Hs.
  - change (cexec s (ck, Call c)) with (fexec s (ck, c)). destruct (fexec_runs ctl s (ck, c)) as (l & Hl & ->). by apply runs_consistent.
  - rewrite FacadeRestore_state. destruct (restore _ sn) as [st'|e] eqn:E; [|done].
    destruct Hsn as (st & [Hi Ho] & Hnd & Hq & Hre & ->). eapply (restored_inv ctl st); [done..|apply Hs].
Qed.

Lemma cruns_consistent ctl (s : Scheduler MemoryStore) calls :
  Forall (fun cc => sound_call ctl cc.2) calls -> consistent ctl (ms_state (sc_store s)) ->
  consistent ctl (ms_state (sc_store (cruns s calls))).
Proof.
  intros Hl. revert s. induction Hl as [|cc calls Hc _ IH]; intros s Hs; [done|]. cbn. apply IH. by apply cexec_consistent.
Qed.


(** A scheduler restored from a snapshot of another one; a call to complete with a failed commit, and a sweep. *)
Definition demoClientCalls : list (Clock * client_call) :=
  ((fun cc => (cc.1, Call cc.2)) <$> demoCalls) ++ [(demoClock t0, RestoreFrom (snapshot demo))].

Lemma demo_faithful : faithful_snapshot false (snapshot demo).
Proof.
  exists demo. split_and!; [split | | | |]; [by apply reachable_inv, demo_reachable | by eapply reachable_ops, demo_reachable
    | rewrite demo_queue; apply NoDup_singleton | | exact demo_restorable | done].
  intros id r Hin Hr. rewrite demo_queue in Hin. apply list_elem_of_singleton in Hin as ->.
  rewrite demo_b in Hr. by injection Hr as <-.
Qed.


(** ** Spawning *)

Section spawning.
Context {T : Type} `{QueueStore T}.

Lemma emit_cache ck r a st reason extras (s : Scheduler T) :
  sc_queryCache (emitTimelineWithExtras ck r a st reason extras s) = sc_queryCache s.
Proof. by destruct (emit_shape ck r a st reason extras s) as [->|(? & ? & _ & _ & ->)]. Qed.

Lemma rejectSpawn_effect ck code task (s : Scheduler T) :
  let out := rejectSpawn ck code task s in
  out.2 = Err (ErrBudget code) /\ sc_store out.1 = sc_store s /\ sc_queryCache out.1 = sc_queryCache s.
Proof. cbn. unfold emitTimeline. by rewrite emit_store, emit_cache. Qed.
End spawning.

Lemma resolveChildTimeout_timeout req :
  tm_ResolvedTimeout (tk_TimeoutResolution (sp_Task (resolveChildTimeout req)))
  = Z.min (sp_ChildTimeout req) (sp_ParentRemainingBudget req).
Proof. unfold resolveChildTimeout. cbn zeta. destruct (Z.ltb_spec (sp_ParentRemainingBudget req) (sp_ChildTimeout req)); cbn; lia. Qed.

(** Clamping the timeout leaves what the guardrails look at. *)
Lemma ValidateSpawn_spec g req :
  min_i64 <= sp_ParentDepth req < max_i64 ->
  ValidateSpawn g (resolveChildTimeout req)
  = if decide (0 < gr_MaxDepth g < sp_ParentDepth req + 1) then Err BudgetRejectDepth
    else if decide (0 < gr_MaxActiveChildren g <= sp_ParentActiveChildren req)
    then Err BudgetRejectActiveChild else Ok tt.
Proof.
  intros Hd. unfold ValidateSpawn.
  replace (sp_ParentDepth (resolveChildTimeout req)) with (sp_ParentDepth req)
    by (unfold resolveChildTimeout; by destruct (_ <? _)).
  replace (sp_ParentActiveChildren (resolveChildTimeout req)) with (sp_ParentActiveChildren req)
    by (unfold resolveChildTimeout; by destruct (_ <? _)).
  rewrite wrap_i64_id by (unfold min_i64, max_i64 in *; lia).
  destruct (Z.ltb_spec 0 (gr_MaxDepth g)), (Z.ltb_spec (gr_MaxDepth g) (sp_ParentDepth req + 1)),
    (Z.ltb_spec 0 (gr_MaxActiveChildren g)), (Z.leb_spec (gr_MaxActiveChildren g) (sp_ParentActiveChildren req));
    repeat case_decide; cbn; done || lia.
Qed.

(** Spawning a child. A child whose parent has no budget left, whose timeout
    is not positive, that would be nested too deep or be one child too many is
    refused with the matching code and leaves the store and the query cache as
    they were. Any other child is enqueued, with the smaller of its own timeout
    and its parent's remaining budget as its resolved timeout. *)
Theorem spawn_respects_budget {T : Type} `{QueueStore T} (ck : Clock) (s : Scheduler T) (req : SpawnRequest) :
  min_i64 <= sp_ParentDepth req < max_i64 ->
  let out := SpawnChild ck s req in
  let tooDeep := 0 < gr_MaxDepth (sc_guardrails s) < sp_ParentDepth req + 1 in
  let tooMany := 0 < gr_MaxActiveChildren (sc_guardrails s) <= sp_ParentActiveChildren req in
  let refused code := out.2 = Err (ErrBudget code) /\ sc_store out.1 = sc_store s
                      /\ sc_queryCache out.1 = sc_queryCache s in
  (sp_ParentRemainingBudget req <= 0 -> refused BudgetRejectParentBudgetExhausted)
  /\ (0 < sp_ParentRemainingBudget req -> sp_ChildTimeout req <= 0 -> refused BudgetRejectTimeout)
  /\ (0 < sp_ParentRemainingBudget req -> 0 < sp_ChildTimeout req ->
      (tooDeep -> refused BudgetRejectDepth)
      /\ (~ tooDeep -> tooMany -> refused BudgetRejectActiveChild)
      /\ (~ tooDeep -> ~ tooMany ->
          exists task, tm_ResolvedTimeout (tk_TimeoutResolution task)
                       = Z.min (sp_ChildTimeout req) (sp_ParentRemainingBudget req)
            /\ tk_TaskID task = tk_TaskID (sp_Task req)
            /\ sc_store out.1 = (Enqueue (ck_env ck) (sc_store s) task (ck_now ck)).1
            /\ forall r, out.2 = Ok r <-> (Enqueue (ck_env ck) (sc_store s) task (ck_now ck)).2 = Ok r)).
Proof.
  intros Hd out tooDeep tooMany refused.
  assert (Hrej : forall code task, out = rejectSpawn ck code task s -> refused code).
  { intros code task E. unfold refused. rewrite E. apply rejectSpawn_effect. }
  unfold SpawnChild in out. split_and!.
  - intros Hb. eapply Hrej. unfold out. by rewrite (proj2 (Z.leb_le _ _) Hb).
  - intros Hb Ht. eapply Hrej. unfold out.
    by rewrite (proj2 (Z.leb_gt _ _) Hb), (proj2 (Z.leb_le _ _) Ht).
  - intros Hb Ht. unfold out in *. clear out.
    rewrite (proj2 (Z.leb_gt _ _) Hb), (proj2 (Z.leb_gt _ _) Ht) in *. cbn zeta in *.
    rewrite (ValidateSpawn_spec _ _ Hd) in *. unfold tooDeep, tooMany in *.
    case_decide as Hdeep; [split_and!; [intros _; by eapply Hrej | done..]|].
    case_decide as Hmany; [split_and!; [done | intros _ _; by eapply Hrej | done]|].
    split_and!; [done..|]. intros _ _. exists (sp_Task (resolveChildTimeout req)).
    split_and!; [apply resolveChildTimeout_timeout | by unfold resolveChildTimeout; destruct (_ <? _) | ..].
    + pose proof (FacadeEnqueue_store ck s (sp_Task (resolveChildTimeout req))) as He.
      destruct (FacadeEnqueue _ _ _) as [s' [r|e]]; cbn in *; unfold emitTimeline; by rewrite ?emit_store.
    + intros r. unfold FacadeEnqueue, onStore.
      destruct (Enqueue _ _ _ _) as [st [r'|e]]; cbn; [|by split].
      split; intros E; congruence.
Qed.

Lemma spawn_respects_budget_witness :
  let req := mkSpawnRequest (demoTask "child" "") 0 0 Second (2 * Second)
               (mkTimeoutResolutionMetadata "" "" "" 0 false) in
  exists task, tm_ResolvedTimeout (tk_TimeoutResolution task) = Second
    /\ sc_store (SpawnChild (demoClock t0) demoClient req).1
       = (Enqueue demoEnv (sc_store demoClient) task t0).1.
Proof.
  intros req.
  destruct (spawn_respects_budget (demoClock t0) demoClient req) as (_ & _ & H).
  - unfold min_i64, max_i64. cbn. lia.
  - destruct H as (_ & _ & H); [reflexivity..|].
    destruct H as (task & E1 & _ & E2 & _); [cbn; lia | cbn; lia|]. by exists task.
Defined.
