(* ===== verification/MailboxTypes.v ===== *)
(** * Mailbox: data model

    The types of [orchestration/mailbox/types.go], [history.go] and
    [continuation.go], the normalisation of envelopes, host-plan bindings,
    policies and worker configurations, the canonical lifecycle reasons, the
    outcome projection of [host_plan_binding.go] and the envelope constructors
    of [bridge.go]. Go string enumerations are inductive types with one more
    constructor for every other string. *)
From S2P Require Import Prelude GoStrings GoNum.
From Stdlib Require Import Ascii.

Local Open Scope bool_scope.
Local Open Scope string_scope.
Local Open Scope Z_scope.

(** ** Enumerations and constants *)

Inductive EnvelopeKind : Type :=
| KindCommand
| KindEvent
| KindResult
| KindOther (s : string).

#[export] Instance EnvelopeKind_eq_dec : EqDecision EnvelopeKind.
Proof. solve_decision. Defined.

Inductive MessageState : Type :=
| StateQueued
| StateInFlight
| StateAcked
| StateNacked
| StateDeadLetter
| StateExpired
| StateOther (s : string).

#[export] Instance MessageState_eq_dec : EqDecision MessageState.
Proof. solve_decision. Defined.

Inductive LifecycleTransition : Type :=
| TransitionConsume
| TransitionAck
| TransitionNack
| TransitionRequeue
| TransitionDeadLetter
| TransitionExpired.

#[export] Instance LifecycleTransition_eq_dec : EqDecision LifecycleTransition.
Proof. solve_decision. Defined.

Definition LifecycleTransition_string (t : LifecycleTransition) : string :=
  match t with
  | TransitionConsume => "consume"
  | TransitionAck => "ack"
  | TransitionNack => "nack"
  | TransitionRequeue => "requeue"
  | TransitionDeadLetter => "dead_letter"
  | TransitionExpired => "expired"
  end.

Definition WorkerHandlerErrorPolicyRequeue := "requeue".
Definition WorkerHandlerErrorPolicyNack := "nack".
Definition WorkerPanicPolicyFollowHandler := "follow_handler_error_policy".
Definition DefaultWorkerPollInterval : Duration := 100 * Millisecond.
Definition DefaultWorkerConsumerID := "mailbox-worker".
Definition DefaultWorkerInflightTimeout : Duration := 30 * Second.
Definition DefaultWorkerHeartbeatInterval : Duration := 5 * Second.
Definition DefaultWorkerReclaimOnConsume := true.

Definition LifecycleReasonRetryExhausted := "retry_exhausted".
Definition LifecycleReasonExpired := "expired".
Definition LifecycleReasonConsumerMismatch := "consumer_mismatch".
Definition LifecycleReasonMessageNotFound := "message_not_found".
Definition LifecycleReasonHandlerError := "handler_error".
Definition LifecycleReasonLeaseExpired := "lease_expired".

Definition HostPlanBindingContractVersion := "mailbox_host_plan_binding.v1".
Definition HistoryVersion := "mailbox.history.v1".
Definition HistoryRetentionEntries : nat := 1024.
Definition MaxHistoryReferenceBytes : nat := 1024.

(** ** Errors

    The sentinel errors of the package and its validation messages. *)
Inductive MailboxError : Type :=
| ErrDispatchBindingMismatch
| ErrHostPlanBindingConflict
| ErrMessageNotFound
| ErrMessageNotInflight
| ErrConsumerMismatch
| ErrSnapshotCorrupt
| ErrConsumerIDRequired
| ErrMessageIDRequired
| ErrIdempotencyKeyRequired
| ErrKindInvalid (got : EnvelopeKind)
| ErrHostPlanFields
| ErrHostPlanVersion (got : string)
| ErrHostPlanResourceLimit
| ErrReportKeyRequired
| ErrWorkerConfig (field : string)
| ErrFileBackend (why : string)
| ErrUnsupportedBackend (backend : string)
| ErrPageSize (got : Z)
| ErrSortField (got : string)
| ErrSortOrder (got : string)
| ErrKindFilter (got : string)
| ErrStateFilter (got : string)
| ErrTimeRange
| ErrQueryCursor
| ErrPublishKind (want : string)
| ErrCallback (why : string)
| ErrMailboxContinuationMalformed
| ErrMailboxContinuationCorrupt
| ErrMailboxContinuationForeign
| ErrMailboxContinuationExpired
| ErrMailboxContinuationUnavailable
| ErrMailboxContinuationConflict
| ErrMailboxContinuationInProgress
| ErrMailboxContinuationRecoveryRequired
| ErrMailboxContinuationLeaseLost
| ErrMailboxContinuationUnsupported.

#[export] Instance MailboxError_eq_dec : EqDecision MailboxError.
Proof. solve_decision. Defined.

(** ** Envelopes and records *)

Record HostPlanBinding : Type := mkHostPlanBinding {
  hb_ContractVersion : string;
  hb_MessageID : string;
  hb_IdempotencyKey : string;
  hb_RunID : string;
  hb_ParentRunID : string;
  hb_CausationID : string;
  hb_AuthorityDigest : string;
  hb_PlanDigest : string;
  hb_WriteScope : string;
  hb_EffectNamespace : string;
  hb_Occurrence : string;
  hb_HostCorrelation : string;
  hb_ResourceLimit : Z
}.
#[export] Instance HostPlanBinding_eq_dec : EqDecision HostPlanBinding.
Proof. solve_decision. Defined.

(** [HostPlanBinding{}]. *)
Definition zeroHostPlanBinding : HostPlanBinding :=
  mkHostPlanBinding "" "" "" "" "" "" "" "" "" "" "" "" 0.

Record HostPlanOutcome : Type := mkHostPlanOutcome {
  ho_MessageID : string;
  ho_RunID : string;
  ho_DeliveryID : string;
  ho_LeaseID : string;
  ho_DeliveryLeaseID : string;
  ho_AttemptCausation : string;
  ho_ParentRunID : string;
  ho_CausationID : string;
  ho_AuthorityDigest : string;
  ho_PlanDigest : string;
  ho_WriteScope : string;
  ho_EffectNamespace : string;
  ho_Occurrence : string;
  ho_HostCorrelation : string;
  ho_DeliveryAttempt : Z;
  ho_LifecycleState : MessageState;
  ho_LifecycleResult : string;
  ho_LifecycleReason : string;
  ho_TerminalOutcome : string;
  ho_Duplicate : bool
}.
#[export] Instance HostPlanOutcome_eq_dec : EqDecision HostPlanOutcome.
Proof. solve_decision. Defined.
#[export] Instance eta_HostPlanOutcome : Settable HostPlanOutcome := fun r =>
  mkHostPlanOutcome (ho_MessageID r) (ho_RunID r) (ho_DeliveryID r) (ho_LeaseID r)
    (ho_DeliveryLeaseID r) (ho_AttemptCausation r) (ho_ParentRunID r) (ho_CausationID r)
    (ho_AuthorityDigest r) (ho_PlanDigest r) (ho_WriteScope r) (ho_EffectNamespace r)
    (ho_Occurrence r) (ho_HostCorrelation r) (ho_DeliveryAttempt r) (ho_LifecycleState r)
    (ho_LifecycleResult r) (ho_LifecycleReason r) (ho_TerminalOutcome r) (ho_Duplicate r).

Record Envelope : Type := mkEnvelope {
  ev_DispatchBinding : string;
  ev_HostPlanBinding : option HostPlanBinding;
  ev_MessageID : string;
  ev_IdempotencyKey : string;
  ev_CorrelationID : string;
  ev_Kind : EnvelopeKind;
  ev_FromAgent : string;
  ev_ToAgent : string;
  ev_TaskID : string;
  ev_RunID : string;
  ev_WorkflowID : string;
  ev_TeamID : string;
  ev_Payload : any_map;
  ev_NotBefore : Time;
  ev_ExpireAt : Time;
  ev_Attempt : Z
}.
#[export] Instance Envelope_eq_dec : EqDecision Envelope.
Proof. solve_decision. Defined.
#[export] Instance eta_Envelope : Settable Envelope := fun r =>
  mkEnvelope (ev_DispatchBinding r) (ev_HostPlanBinding r) (ev_MessageID r) (ev_IdempotencyKey r)
    (ev_CorrelationID r) (ev_Kind r) (ev_FromAgent r) (ev_ToAgent r) (ev_TaskID r) (ev_RunID r)
    (ev_WorkflowID r) (ev_TeamID r) (ev_Payload r) (ev_NotBefore r) (ev_ExpireAt r) (ev_Attempt r).

(** [Record] of the source, a message with its delivery state. *)
Record MessageRecord : Type := mkMessageRecord {
  mr_Envelope : Envelope;
  mr_State : MessageState;
  mr_DeliveryID : string;
  mr_LeaseID : string;
  mr_ConsumerID : string;
  mr_DeliveryAttempt : Z;
  mr_AttemptCausation : string;
  mr_InFlightSince : Time;
  mr_LastHeartbeatAt : Time;
  mr_LeaseExpiresAt : Time;
  mr_NextEligibleAt : Time;
  mr_LastError : string;
  mr_DeadLetterReason : string;
  mr_CreatedAt : Time;
  mr_UpdatedAt : Time
}.
#[export] Instance MessageRecord_eq_dec : EqDecision MessageRecord.
Proof. solve_decision. Defined.
#[export] Instance eta_MessageRecord : Settable MessageRecord := fun r =>
  mkMessageRecord (mr_Envelope r) (mr_State r) (mr_DeliveryID r) (mr_LeaseID r) (mr_ConsumerID r)
    (mr_DeliveryAttempt r) (mr_AttemptCausation r) (mr_InFlightSince r) (mr_LastHeartbeatAt r)
    (mr_LeaseExpiresAt r) (mr_NextEligibleAt r) (mr_LastError r) (mr_DeadLetterReason r)
    (mr_CreatedAt r) (mr_UpdatedAt r).

(** [cloneRecord] copies the payload and the binding: the copy is equal to the
    original and shares nothing with it. *)
Definition cloneRecord (r : MessageRecord) : MessageRecord := r.

(** The counters are Go [int]s; they are unbounded here, since they count
    operations one by one. *)
Record Stats : Type := mkStats {
  ms_Backend : string;
  ms_BackendFallback : bool;
  ms_BackendFallbackReason : string;
  ms_QueueTotal : Z;
  ms_InFlightTotal : Z;
  ms_PublishedTotal : Z;
  ms_DuplicatePublishTotal : Z;
  ms_ConsumedTotal : Z;
  ms_AckTotal : Z;
  ms_NackTotal : Z;
  ms_RequeueTotal : Z;
  ms_ExpiredTotal : Z;
  ms_DeadLetterTotal : Z
}.
#[export] Instance eta_Stats : Settable Stats := fun r =>
  mkStats (ms_Backend r) (ms_BackendFallback r) (ms_BackendFallbackReason r) (ms_QueueTotal r)
    (ms_InFlightTotal r) (ms_PublishedTotal r) (ms_DuplicatePublishTotal r) (ms_ConsumedTotal r)
    (ms_AckTotal r) (ms_NackTotal r) (ms_RequeueTotal r) (ms_ExpiredTotal r)
    (ms_DeadLetterTotal r).

Record Policy : Type := mkPolicy {
  mp_MaxAttempts : Z;
  mp_BackoffInitial : Duration;
  mp_BackoffMax : Duration;
  mp_JitterRatio : f64;
  mp_TTL : Duration;
  mp_DLQEnabled : bool
}.

Record PublishResult : Type := mkPublishResult {
  pr_Record : MessageRecord;
  pr_Duplicate : bool
}.

Record ActionOptions : Type := mkActionOptions {
  ao_Reclaimed : bool;
  ao_PanicRecovered : bool
}.
Definition noOptions : ActionOptions := mkActionOptions false false.

Record LifecycleEvent : Type := mkLifecycleEvent {
  le_Time : Time;
  le_Transition : LifecycleTransition;
  le_Record : MessageRecord;
  le_ReasonCode : string;
  le_Reclaimed : bool;
  le_PanicRecovered : bool
}.

(** ** History journal *)

Record HistoryEntry : Type := mkHistoryEntry {
  he_Sequence : Z;
  he_Transition : string;
  he_Time : Time;
  he_Outcome : HostPlanOutcome;
  he_Reclaimed : bool
}.

Record HistoryJournal : Type := mkHistoryJournal {
  hj_Version : string;
  hj_SourceID : string;
  hj_Sequence : Z;
  hj_Floor : Z;
  hj_Entries : list HistoryEntry;
  hj_Unavailable : bool
}.
#[export] Instance eta_HistoryJournal : Settable HistoryJournal := fun r =>
  mkHistoryJournal (hj_Version r) (hj_SourceID r) (hj_Sequence r) (hj_Floor r) (hj_Entries r)
    (hj_Unavailable r).

(** [sourceID] is what [rand.Text] returns. *)
Definition newHistoryJournal (sourceID : string) : HistoryJournal :=
  mkHistoryJournal HistoryVersion sourceID 0 0 [] false.

(** ** Continuation checkpoints

    Kept in the state and in snapshots; the lifecycle operations carry them
    along unread. The enumerations of the deployment scope are strings. *)

Record DeploymentScope : Type := mkDeploymentScope {
  ds_Version : string;
  ds_Profile : string;
  ds_WriterScope : string;
  ds_FencingScope : string;
  ds_TransactionScope : string;
  ds_OwnerNamespace : string;
  ds_WriterFence : string;
  ds_EvidenceReference : string;
  ds_Supported : bool;
  ds_UnsupportedReason : string
}.
#[export] Instance DeploymentScope_eq_dec : EqDecision DeploymentScope.
Proof. solve_decision. Defined.

Record DeploymentRequest : Type := mkDeploymentRequest {
  dq_Profile : string;
  dq_WriterMode : string;
  dq_Fencing : string;
  dq_Transaction : string;
  dq_OwnerNamespace : string;
  dq_WriterFence : string
}.

Record MailboxContinuationRef : Type := mkMailboxContinuationRef {
  cf_SchemaVersion : string;
  cf_CheckpointID : string;
  cf_Digest : string;
  cf_OwnerNamespace : string;
  cf_MessageID : string;
  cf_DeliveryID : string;
  cf_LeaseID : string;
  cf_AttemptCausation : string;
  cf_RunID : string;
  cf_ParentRunID : string;
  cf_CausationID : string;
  cf_Deployment : DeploymentScope
}.
#[export] Instance eta_MailboxContinuationRef : Settable MailboxContinuationRef := fun r =>
  mkMailboxContinuationRef (cf_SchemaVersion r) (cf_CheckpointID r) (cf_Digest r) (cf_OwnerNamespace r)
    (cf_MessageID r) (cf_DeliveryID r) (cf_LeaseID r) (cf_AttemptCausation r) (cf_RunID r)
    (cf_ParentRunID r) (cf_CausationID r) (cf_Deployment r).

Record MailboxContinuation : Type := mkMailboxContinuation {
  cn_Ref : MailboxContinuationRef;
  cn_Binding : HostPlanBinding;
  cn_MessageID : string;
  cn_DeliveryID : string;
  cn_LeaseID : string;
  cn_ConsumerID : string;
  cn_AttemptCausation : string;
  cn_DeliveryAttempt : Z;
  cn_LifecycleState : MessageState;
  cn_ParentRunID : string;
  cn_RunID : string;
  cn_HostCorrelation : string;
  cn_AuthorityDigest : string;
  cn_PlanDigest : string;
  cn_WriteScope : string;
  cn_EffectNamespace : string;
  cn_Occurrence : string;
  cn_PauseReason : string;
  cn_PendingActionReference : string;
  cn_CompletedEffectRefs : list string;
  cn_HandlerCheckpointReference : string;
  cn_ConsumedBudget : Z;
  cn_OriginalDeadline : Time;
  cn_PredecessorCheckpointID : string;
  cn_SuccessorCheckpointID : string;
  cn_Generation : Z;
  cn_CreatedAt : Time;
  cn_ExpiresAt : Time
}.
#[export] Instance eta_MailboxContinuation : Settable MailboxContinuation := fun r =>
  mkMailboxContinuation (cn_Ref r) (cn_Binding r) (cn_MessageID r) (cn_DeliveryID r) (cn_LeaseID r)
    (cn_ConsumerID r) (cn_AttemptCausation r) (cn_DeliveryAttempt r) (cn_LifecycleState r)
    (cn_ParentRunID r) (cn_RunID r) (cn_HostCorrelation r) (cn_AuthorityDigest r) (cn_PlanDigest r)
    (cn_WriteScope r) (cn_EffectNamespace r) (cn_Occurrence r) (cn_PauseReason r)
    (cn_PendingActionReference r) (cn_CompletedEffectRefs r) (cn_HandlerCheckpointReference r)
    (cn_ConsumedBudget r) (cn_OriginalDeadline r) (cn_PredecessorCheckpointID r)
    (cn_SuccessorCheckpointID r) (cn_Generation r) (cn_CreatedAt r) (cn_ExpiresAt r).

Record MailboxResumeRequest : Type := mkMailboxResumeRequest {
  rr_Ref : MailboxContinuationRef;
  rr_Binding : HostPlanBinding;
  rr_IdempotencyKey : string;
  rr_Generation : Z;
  rr_PauseReason : string;
  rr_Deployment : DeploymentRequest
}.

Record MailboxResumeClaim : Type := mkMailboxResumeClaim {
  rc_Request : MailboxResumeRequest;
  rc_AttemptID : string;
  rc_Generation : Z;
  rc_State : string;
  rc_Duplicate : bool;
  rc_Result : option HostPlanOutcome
}.
#[export] Instance eta_MailboxResumeClaim : Settable MailboxResumeClaim := fun r =>
  mkMailboxResumeClaim (rc_Request r) (rc_AttemptID r) (rc_Generation r) (rc_State r) (rc_Duplicate r)
    (rc_Result r).

Record MailboxContinuationRecord : Type := mkMailboxContinuationRecord {
  cr_Continuation : MailboxContinuation;
  cr_Claim : option MailboxResumeClaim;
  cr_Identity : string;
  cr_Recovered : bool
}.
#[export] Instance eta_MailboxContinuationRecord : Settable MailboxContinuationRecord := fun r =>
  mkMailboxContinuationRecord (cr_Continuation r) (cr_Claim r) (cr_Identity r) (cr_Recovered r).

(** A nil idempotency or continuation map reads as an empty one. *)
Record Snapshot : Type := mkSnapshot {
  sn_History : option HistoryJournal;
  sn_Backend : string;
  sn_Records : list MessageRecord;
  sn_Queue : list string;
  sn_Idempotency : gmap string string;
  sn_Continuations : gmap string MailboxContinuationRecord;
  sn_Stats : Stats;
  sn_Policy : Policy
}.

(** ** Normalisation *)

Definition maxInt (a b : Z) : Z := if b <=? a then a else b.

(** The loop of [normalizeHostPlanBinding] over one field: trimmed, non-empty
    and of at most 1024 bytes. *)
Definition boundedField (s : string) : result MailboxError string :=
  let v := TrimSpace s in
  require negb ((v =s? "") || (1024 <? Z.of_nat (String.length v))) orelse ErrHostPlanFields;
  Ok v.

Definition normalizeHostPlanBinding (b : HostPlanBinding) : result MailboxError HostPlanBinding :=
  version ←ₑ boundedField (hb_ContractVersion b);
  message ←ₑ boundedField (hb_MessageID b);
  key ←ₑ boundedField (hb_IdempotencyKey b);
  run ←ₑ boundedField (hb_RunID b);
  parent ←ₑ boundedField (hb_ParentRunID b);
  causation ←ₑ boundedField (hb_CausationID b);
  authority ←ₑ boundedField (hb_AuthorityDigest b);
  plan ←ₑ boundedField (hb_PlanDigest b);
  scope ←ₑ boundedField (hb_WriteScope b);
  effect ←ₑ boundedField (hb_EffectNamespace b);
  occurrence ←ₑ boundedField (hb_Occurrence b);
  host ←ₑ boundedField (hb_HostCorrelation b);
  require version =s? HostPlanBindingContractVersion orelse ErrHostPlanVersion version;
  require negb ((hb_ResourceLimit b <=? 0) || (128 <? hb_ResourceLimit b))
    orelse ErrHostPlanResourceLimit;
  Ok (mkHostPlanBinding version message key run parent causation authority plan scope effect
        occurrence host (hb_ResourceLimit b)).

(** The trimming assignments of [normalizeEnvelope]; [UTC] is the identity on
    instants. *)
Definition trimEnvelope (e : Envelope) : Envelope :=
  mkEnvelope (TrimSpace (ev_DispatchBinding e)) (ev_HostPlanBinding e)
    (TrimSpace (ev_MessageID e)) (TrimSpace (ev_IdempotencyKey e))
    (TrimSpace (ev_CorrelationID e)) (ev_Kind e) (TrimSpace (ev_FromAgent e))
    (TrimSpace (ev_ToAgent e)) (TrimSpace (ev_TaskID e)) (TrimSpace (ev_RunID e))
    (TrimSpace (ev_WorkflowID e)) (TrimSpace (ev_TeamID e)) (ev_Payload e)
    (ev_NotBefore e) (ev_ExpireAt e) (maxInt (ev_Attempt e) 0).

Definition normalizeEnvelope (inp : Envelope) : result MailboxError Envelope :=
  let out := trimEnvelope inp in
  binding ←ₑ match ev_HostPlanBinding out with
             | Some b => (b' ←ₑ normalizeHostPlanBinding b; Ok (Some b'))
             | None => Ok None
             end;
  let out := out <| ev_HostPlanBinding := binding |> in
  require negb (ev_MessageID out =s? "") orelse ErrMessageIDRequired;
  require negb (ev_IdempotencyKey out =s? "") orelse ErrIdempotencyKeyRequired;
  match ev_Kind out with
  | KindOther _ => Err (ErrKindInvalid (ev_Kind out))
  | _ => Ok out
  end.

Definition normalizePolicy (p : Policy) : Policy :=
  let initial := if mp_BackoffInitial p <? 0 then 0 else mp_BackoffInitial p in
  let initial := if initial =? 0 then 50 * Millisecond else initial in
  let mx := if mp_BackoffMax p <? initial then initial else mp_BackoffMax p in
  let mx := if mx =? 0 then 500 * Millisecond else mx in
  let jitter := if f64_ltb (mp_JitterRatio p) f64_zero then f64_zero else mp_JitterRatio p in
  let jitter := if f64_ltb f64_one jitter then f64_one else jitter in
  mkPolicy (if mp_MaxAttempts p <=? 0 then 3 else mp_MaxAttempts p) initial mx jitter
    (if mp_TTL p <? 0 then 0 else mp_TTL p) (mp_DLQEnabled p).

Record WorkerConfig : Type := mkWorkerConfig {
  wc_Enabled : bool;
  wc_PollInterval : Duration;
  wc_HandlerErrorPolicy : string;
  wc_InflightTimeout : Duration;
  wc_HeartbeatInterval : Duration;
  wc_ReclaimOnConsume : bool;
  wc_PanicPolicy : string
}.

(** [if v == 0 { v = d }]. *)
Definition orDefault (d v : Z) : Z := if v =? 0 then d else v.
Definition orDefaultStr (d v : string) : string := if v =s? "" then d else v.

Definition NormalizeWorkerConfig (c : WorkerConfig) : result MailboxError WorkerConfig :=
  let poll := orDefault DefaultWorkerPollInterval (wc_PollInterval c) in
  require 0 <? poll orelse ErrWorkerConfig "poll_interval";
  let policy := orDefaultStr WorkerHandlerErrorPolicyRequeue (lower_trim (wc_HandlerErrorPolicy c)) in
  require (policy =s? WorkerHandlerErrorPolicyRequeue) || (policy =s? WorkerHandlerErrorPolicyNack)
    orelse ErrWorkerConfig "handler_error_policy";
  let inflight := orDefault DefaultWorkerInflightTimeout (wc_InflightTimeout c) in
  require 0 <? inflight orelse ErrWorkerConfig "inflight_timeout";
  let beat := orDefault DefaultWorkerHeartbeatInterval (wc_HeartbeatInterval c) in
  require 0 <? beat orelse ErrWorkerConfig "heartbeat_interval";
  require beat <? inflight orelse ErrWorkerConfig "heartbeat_interval";
  let panic := orDefaultStr WorkerPanicPolicyFollowHandler (lower_trim (wc_PanicPolicy c)) in
  require panic =s? WorkerPanicPolicyFollowHandler orelse ErrWorkerConfig "panic_policy";
  let reclaim :=
    if wc_ReclaimOnConsume c then true
    else if (wc_InflightTimeout c =? 0) && (wc_HeartbeatInterval c =? 0)
            && (TrimSpace (wc_PanicPolicy c) =s? "")
    then DefaultWorkerReclaimOnConsume else false in
  Ok (mkWorkerConfig (wc_Enabled c) poll policy inflight beat reclaim panic).

(** ** Lifecycle reasons *)

Definition LifecycleCanonicalReasons : list string :=
  [LifecycleReasonRetryExhausted; LifecycleReasonExpired; LifecycleReasonConsumerMismatch;
   LifecycleReasonMessageNotFound; LifecycleReasonHandlerError; LifecycleReasonLeaseExpired].

Definition NormalizeLifecycleReason (inp : string) : string :=
  let reason := lower_trim inp in
  if reason =s? "" then ""
  else match before_byte ":"%char reason with
  | Some cut => TrimSpace cut
  | None => reason
  end.

(** The switch of the source names the six reasons of [LifecycleCanonicalReasons]. *)
Definition IsCanonicalLifecycleReason (inp : string) : bool :=
  bool_decide (NormalizeLifecycleReason inp ∈ LifecycleCanonicalReasons).

Definition LifecycleReasonFromError (err : MailboxError) : string :=
  match err with
  | ErrConsumerMismatch => LifecycleReasonConsumerMismatch
  | ErrMessageNotFound => LifecycleReasonMessageNotFound
  | _ => LifecycleReasonHandlerError
  end.

Definition CanonicalizeLifecycleReason (inp fallback : string) : string :=
  let reason := NormalizeLifecycleReason inp in
  if IsCanonicalLifecycleReason reason then reason
  else let reason := NormalizeLifecycleReason fallback in
       if IsCanonicalLifecycleReason reason then reason
       else LifecycleReasonHandlerError.

Lemma NormalizeLifecycleReason_idemp r :
  NormalizeLifecycleReason (NormalizeLifecycleReason r) = NormalizeLifecycleReason r.
Proof.
  unfold NormalizeLifecycleReason. destruct (lower_trim r =s? "") eqn:E0; [done|].
  destruct (before_byte ":" (lower_trim r)) as [p|] eqn:Eb.
  - apply before_byte_Some in Eb as [Hc Hp].
    assert (Hx : lower_trim (TrimSpace p) = TrimSpace p).
    { unfold lower_trim. rewrite TrimSpace_idemp. apply ToLower_fixed.
      intros c ?%elem_of_TrimSpace%Hp. unfold lower_trim in *. by eapply elem_of_ToLower. }
    rewrite Hx. destruct (str_eqb_spec (TrimSpace p) "") as [->|_]; [done|].
    rewrite (proj2 (before_byte_None _ _)); [done|]. by intros ?%elem_of_TrimSpace.
  - by rewrite lower_trim_idemp, E0, Eb.
Qed.

(** Whatever reason a caller gives, the code that is recorded is one of the six
    canonical ones. *)
Lemma CanonicalizeLifecycleReason_canonical inp fallback :
  CanonicalizeLifecycleReason inp fallback ∈ LifecycleCanonicalReasons.
Proof.
  assert (H : forall r, IsCanonicalLifecycleReason (NormalizeLifecycleReason r) = true ->
                        NormalizeLifecycleReason r ∈ LifecycleCanonicalReasons).
  { intros r Hr%bool_decide_eq_true. by rewrite NormalizeLifecycleReason_idemp in Hr. }
  unfold CanonicalizeLifecycleReason. case_match; [by apply H|].
  case_match; [by apply H|]. set_solver.
Qed.

(** ** Outcome projection *)

Definition firstNonEmpty (a b : string) : string :=
  if negb (TrimSpace a =s? "") then a
  else if negb (TrimSpace b =s? "") then b
  else "".

(** The lifecycle result and the terminal outcome of a record. *)
Definition lifecycleProjection (r : MessageRecord) : string * string :=
  match mr_State r with
  | StateQueued =>
      if NormalizeLifecycleReason (mr_LastError r) =s? LifecycleReasonLeaseExpired
      then ("lease_lost", "")
      else if negb (TrimSpace (mr_LastError r) =s? "") then ("retry", "")
      else ("admitted", "")
  | StateInFlight => ("leased", "")
  | StateAcked => ("ack", "acked")
  | StateNacked =>
      if NormalizeLifecycleReason (mr_LastError r) =s? LifecycleReasonLeaseExpired
      then ("lease_lost", "") else ("nack", "")
  | StateDeadLetter => ("dlq", "dead_letter")
  | StateExpired => ("timeout", "expired")
  | StateOther _ => ("", "")
  end.

Definition hostPlanOutcome (b : HostPlanBinding) (published : PublishResult) : HostPlanOutcome :=
  let r := pr_Record published in
  let deliveryLeaseID :=
    if negb (mr_DeliveryID r =s? "") || negb (mr_LeaseID r =s? "")
    then mr_DeliveryID r +:+ ":" +:+ mr_LeaseID r else "" in
  mkHostPlanOutcome (ev_MessageID (mr_Envelope r)) (hb_RunID b) (mr_DeliveryID r) (mr_LeaseID r)
    deliveryLeaseID (mr_AttemptCausation r) (hb_ParentRunID b) (hb_CausationID b)
    (hb_AuthorityDigest b) (hb_PlanDigest b) (hb_WriteScope b) (hb_EffectNamespace b)
    (hb_Occurrence b) (hb_HostCorrelation b) (mr_DeliveryAttempt r) (mr_State r)
    (fst (lifecycleProjection r)) (firstNonEmpty (mr_DeadLetterReason r) (mr_LastError r))
    (snd (lifecycleProjection r)) (pr_Duplicate published).

Definition HostPlanOutcomeFromRecord (r : MessageRecord) : result MailboxError HostPlanOutcome :=
  match ev_HostPlanBinding (mr_Envelope r) with
  | None => Err ErrHostPlanBindingConflict
  | Some b => Ok (hostPlanOutcome b (mkPublishResult r false))
  end.

(** ** Envelope constructors ([bridge.go]) *)

Record Correlation : Type := mkCorrelation {
  cl_RunID : string;
  cl_TaskID : string;
  cl_WorkflowID : string;
  cl_TeamID : string
}.

Record AsyncReport : Type := mkAsyncReport {
  as_ReportKey : string;
  as_OutcomeKey : string;
  as_Correlation : Correlation;
  as_FromAgent : string;
  as_ToAgent : string;
  as_Payload : any_map
}.

Definition NewCommandEnvelope (messageID idempotencyKey : string) (c : Correlation)
    (fromAgent toAgent : string) (payload : any_map) (notBefore expireAt : Time) : Envelope :=
  mkEnvelope "" None (TrimSpace messageID) (TrimSpace idempotencyKey) (TrimSpace messageID)
    KindCommand (TrimSpace fromAgent) (TrimSpace toAgent) (TrimSpace (cl_TaskID c))
    (TrimSpace (cl_RunID c)) (TrimSpace (cl_WorkflowID c)) (TrimSpace (cl_TeamID c))
    payload notBefore expireAt 0.

Definition NewResultEnvelope (command : Envelope) (messageID idempotencyKey : string)
    (payload : any_map) : Envelope :=
  mkEnvelope "" None (TrimSpace messageID) (TrimSpace idempotencyKey)
    (TrimSpace (ev_MessageID command)) KindResult (TrimSpace (ev_ToAgent command))
    (TrimSpace (ev_FromAgent command)) (TrimSpace (ev_TaskID command))
    (TrimSpace (ev_RunID command)) (TrimSpace (ev_WorkflowID command))
    (TrimSpace (ev_TeamID command)) payload 0 0 0.

Definition NewAsyncResultEnvelope (report : AsyncReport) : result MailboxError Envelope :=
  let reportKey := TrimSpace (as_ReportKey report) in
  require negb (reportKey =s? "") orelse ErrReportKeyRequired;
  let outcomeKey := orDefaultStr "result" (TrimSpace (as_OutcomeKey report)) in
  let c := as_Correlation report in
  Ok (mkEnvelope "" None (reportKey +:+ ":" +:+ outcomeKey) reportKey (TrimSpace (cl_TaskID c))
        KindResult (TrimSpace (as_FromAgent report)) (TrimSpace (as_ToAgent report))
        (TrimSpace (cl_TaskID c)) (TrimSpace (cl_RunID c)) (TrimSpace (cl_WorkflowID c))
        (TrimSpace (cl_TeamID c)) (as_Payload report) 0 0 0).

#[global] Arguments normalizeHostPlanBinding _ : simpl never.
#[global] Arguments normalizeEnvelope _ : simpl never.
#[global] Arguments normalizePolicy _ : simpl never.
#[global] Arguments hostPlanOutcome _ _ : simpl never.
#[global] Arguments NormalizeLifecycleReason _ : simpl never.
#[global] Arguments CanonicalizeLifecycleReason _ _ : simpl never.
#[global] Arguments maxInt _ _ : simpl never.
