(* ===== verification/MailboxState.v ===== *)
(** * Mailbox: the state machine

    The operations of [orchestration/mailbox/state.go] on [mailboxState] with
    the lifecycle events they emit and the history they append
    ([history.go]): publish, consume with leases, heartbeat, ack, nack,
    requeue, expiry of queued messages, reclaim of stale deliveries. A method
    that mutates its receiver returns the new state beside its result; a
    method through a [*Record] of the map is an insertion under the key it
    looked up. [wall] is what [time.Now] reads during the call: it is used
    only when the caller passes the zero time. The unused [sequence] set of
    the source is left out. *)
From S2P Require Import Prelude GoStrings GoNum MailboxTypes.

Local Open Scope bool_scope.
Local Open Scope string_scope.
Local Open Scope list_scope.
Local Open Scope Z_scope.

Record mailboxState : Type := mkMailboxState {
  m_History : HistoryJournal;
  m_Records : gmap string MessageRecord;
  m_Queue : list string;
  m_Idempotency : gmap string string;
  m_Continuations : gmap string MailboxContinuationRecord;
  m_Stats : Stats;
  m_Policy : Policy;
  m_events : list LifecycleEvent;
  m_traceEvents : bool
}.
#[export] Instance eta_mailboxState : Settable mailboxState := fun r =>
  mkMailboxState (m_History r) (m_Records r) (m_Queue r) (m_Idempotency r) (m_Continuations r)
    (m_Stats r) (m_Policy r) (m_events r) (m_traceEvents r).

Definition newMailboxState (sourceID backend : string) (policy : Policy) : mailboxState :=
  mkMailboxState (newHistoryJournal sourceID) ∅ [] ∅ ∅
    (mkStats (TrimSpace backend) false "" 0 0 0 0 0 0 0 0 0 0) (normalizePolicy policy) [] false.

Definition setFallback (s : mailboxState) (reason : string) : mailboxState :=
  s <| m_Stats ::= fun st => st <| ms_BackendFallback := true |>
                                <| ms_BackendFallbackReason := TrimSpace reason |> |>.

(** [s.Records[id] = &rec], and a write through [rec := s.Records[id]]. *)
Definition putRecord (s : mailboxState) (id : string) (r : MessageRecord) : mailboxState :=
  s <| m_Records ::= <[id := r]> |>.

Definition updStats (s : mailboxState) (f : Stats -> Stats) : mailboxState :=
  s <| m_Stats ::= f |>.

(** ** History *)

(** The strings of an entry that [validHistoryEntry] checks. *)
Definition historyStrings (e : HistoryEntry) : list string :=
  let o := he_Outcome e in
  [he_Transition e; ho_MessageID o; ho_RunID o; ho_DeliveryID o; ho_LeaseID o;
   ho_DeliveryLeaseID o; ho_AttemptCausation o; ho_ParentRunID o; ho_CausationID o;
   ho_AuthorityDigest o; ho_PlanDigest o; ho_WriteScope o; ho_EffectNamespace o; ho_Occurrence o;
   ho_HostCorrelation o; ho_LifecycleResult o; ho_LifecycleReason o; ho_TerminalOutcome o].

Definition boundedString (v : string) : bool :=
  ValidString v && (Z.of_nat (String.length v) <=? Z.of_nat MaxHistoryReferenceBytes).

Definition validHistoryEntry (e : HistoryEntry) : bool :=
  forallb boundedString (historyStrings e)
  && negb (ho_MessageID (he_Outcome e) =s? "") && negb (IsZero (he_Time e)).

(** The outcome an entry records: the projection of the record, with the
    identities of the envelope where the binding names none. *)
Definition historyOutcome (transition : string) (rec : MessageRecord) (reason : string)
    : HostPlanOutcome :=
  let env := mr_Envelope rec in
  let binding := default zeroHostPlanBinding (ev_HostPlanBinding env) in
  let out := hostPlanOutcome binding (mkPublishResult rec false) in
  let canon r := CanonicalizeLifecycleReason r LifecycleReasonHandlerError in
  let lr := if negb (ho_LifecycleReason out =s? "") then canon (ho_LifecycleReason out)
            else ho_LifecycleReason out in
  out
    <| ho_MessageID := orDefaultStr (ev_MessageID env) (ho_MessageID out) |>
    <| ho_RunID := orDefaultStr (ev_RunID env) (ho_RunID out) |>
    <| ho_HostCorrelation := orDefaultStr (ev_CorrelationID env) (ho_HostCorrelation out) |>
    <| ho_LifecycleResult := if transition =s? "admit" then "admitted"
                             else ho_LifecycleResult out |>
    <| ho_LifecycleReason := if negb (reason =s? "") then canon reason else lr |>.

(** [s.History] after [appendHistory]. The sequence is a [uint64] that is
    incremented once per entry; it is unbounded here, as the counters are. *)
Definition appendEntry (h : HistoryJournal) (transition : string) (rec : MessageRecord)
    (reason : string) (opts : ActionOptions) : HistoryJournal :=
  if hj_Unavailable h then h
  else
    let seq := hj_Sequence h + 1 in
    let h := h <| hj_Sequence := seq |> in
    let entry := mkHistoryEntry seq transition (mr_UpdatedAt rec)
                   (historyOutcome transition rec reason) (ao_Reclaimed opts) in
    if negb (validHistoryEntry entry) then h <| hj_Unavailable := true |>
    else
      let entries := hj_Entries h ++ [entry] in
      match entries with
      | oldest :: rest =>
          if (HistoryRetentionEntries <? length entries)%nat
          then h <| hj_Floor := he_Sequence oldest |> <| hj_Entries := rest |>
          else h <| hj_Entries := entries |>
      | [] => h
      end.

Definition appendHistory (s : mailboxState) (transition : string) (rec : MessageRecord)
    (reason : string) (opts : ActionOptions) : mailboxState :=
  s <| m_History ::= fun h => appendEntry h transition rec reason opts |>.

(** The reason code of an event: the canonical reason of the transitions that
    have one. *)
Definition eventReason (transition : LifecycleTransition) (reason : string) : string :=
  let code :=
    match transition with
    | TransitionNack | TransitionRequeue | TransitionDeadLetter | TransitionExpired =>
        CanonicalizeLifecycleReason reason LifecycleReasonHandlerError
    | _ => ""
    end in
  let code := if bool_decide (transition = TransitionDeadLetter) && (TrimSpace code =s? "")
              then LifecycleReasonRetryExhausted else code in
  if bool_decide (transition = TransitionExpired) && (TrimSpace code =s? "")
  then LifecycleReasonExpired else code.

Definition emitLifecycleEvent (wall : Time) (s : mailboxState) (transition : LifecycleTransition)
    (rec : MessageRecord) (reason : string) (opts : ActionOptions) : mailboxState :=
  let s := appendHistory s (LifecycleTransition_string transition) rec reason opts in
  if negb (m_traceEvents s) then s
  else s <| m_events ::= fun l => l ++
         [mkLifecycleEvent (or_now wall (mr_UpdatedAt rec)) transition (cloneRecord rec)
            (eventReason transition reason) (ao_Reclaimed opts) (ao_PanicRecovered opts)] |>.

Definition drainLifecycleEvents (s : mailboxState) : mailboxState * list LifecycleEvent :=
  (s <| m_events := [] |>, m_events s).

Definition setTraceEvents (s : mailboxState) (enabled : bool) : mailboxState :=
  let s := s <| m_traceEvents := enabled |> in
  if enabled then s else s <| m_events := [] |>.

(** ** Publish *)

(** The record [publish] finds for an envelope: the one its idempotency key
    names, then the one of its message id. *)
Definition existingRecord (s : mailboxState) (e : Envelope) : option MessageRecord :=
  match (id ← m_Idempotency s !! ev_IdempotencyKey e; m_Records s !! id) with
  | Some r => Some r
  | None => m_Records s !! ev_MessageID e
  end.

Definition publishNew (s : mailboxState) (e : Envelope) (now : Time) : mailboxState * MessageRecord :=
  let e := if IsZero (ev_ExpireAt e) && (0 <? mp_TTL (m_Policy s))
           then e <| ev_ExpireAt := TimeAdd now (mp_TTL (m_Policy s)) |> else e in
  let rec := mkMessageRecord e StateQueued "" "" "" 0 "" 0 0 0 0 "" "" now now in
  let s := putRecord s (ev_MessageID e) rec in
  let s := s <| m_Queue ::= fun q => q ++ [ev_MessageID e] |>
             <| m_Idempotency ::= <[ev_IdempotencyKey e := ev_MessageID e]> |> in
  let s := updStats s (fun st => st <| ms_PublishedTotal ::= Z.succ |>
                                    <| ms_QueueTotal ::= Z.succ |>) in
  (appendHistory s "admit" rec "" noOptions, rec).

Definition publish (wall : Time) (s : mailboxState) (envelope : Envelope) (now : Time)
    : mailboxState * result MailboxError PublishResult :=
  match normalizeEnvelope envelope with
  | Err err => (s, Err err)
  | Ok e =>
      let now := or_now wall now in
      match existingRecord s e with
      | Some existing =>
          if negb (ev_DispatchBinding (mr_Envelope existing) =s? ev_DispatchBinding e)
          then (s, Err ErrDispatchBindingMismatch)
          else (updStats s (fun st => st <| ms_DuplicatePublishTotal ::= Z.succ |>),
                Ok (mkPublishResult (cloneRecord existing) true))
      | None =>
          let '(s, rec) := publishNew s e now in
          (s, Ok (mkPublishResult (cloneRecord rec) false))
      end
  end.

(** ** Leases *)

Definition clearLease (r : MessageRecord) : MessageRecord :=
  r <| mr_InFlightSince := 0 |> <| mr_LastHeartbeatAt := 0 |> <| mr_LeaseExpiresAt := 0 |>.

Definition isRecordExpired (r : MessageRecord) (now : Time) : bool :=
  if IsZero (ev_ExpireAt (mr_Envelope r)) then false
  else negb (After (ev_ExpireAt (mr_Envelope r)) now).

(** The instant a lease without a deadline is counted from. *)
Definition leaseBase (r : MessageRecord) : Time :=
  let base := mr_LastHeartbeatAt r in
  let base := if IsZero base then mr_InFlightSince r else base in
  if IsZero base then mr_UpdatedAt r else base.

Definition leaseExpired (r : MessageRecord) (now : Time) (inflightTimeout : Duration) : bool :=
  if negb (bool_decide (mr_State r = StateInFlight)) then false
  else if IsZero (mr_LeaseExpiresAt r) then
    (if IsZero (leaseBase r) then false
     else negb (After (TimeAdd (leaseBase r) inflightTimeout) now))
  else negb (After (mr_LeaseExpiresAt r) now).

Definition deadLetterReason (code reason : string) : string :=
  if TrimSpace reason =s? "" then TrimSpace code
  else TrimSpace code +:+ ":" +:+ TrimSpace reason.

(** ** Retry delay *)

Definition stableJitterSeed (messageID : string) (attempt : Z) : Z :=
  fnv_seed (TrimSpace messageID +:+ "|" +:+ itoa attempt).

(** The doubling loop: [n] rounds are left. *)
Fixpoint doubleDelay (n : nat) (mx delay : Z) : Z :=
  match n with
  | O => delay
  | S n =>
      let next := f64_to_i64 (f64_mul (f64_of_Z delay) f64_two) in
      if mx <? next then mx else doubleDelay n mx next
  end.

(** The additions are on [int64]. *)
Definition jitterDelay (mx delay window seed : Z) : Z :=
  let shifted := wrap_i64 (delay + (Z.rem seed (wrap_i64 (2 * window + 1)) - window)) in
  let shifted := if shifted <? 0 then 0 else shifted in
  if mx <? shifted then mx else shifted.

Definition retryDelay (s : mailboxState) (messageID : string) (attempt : Z) : Duration :=
  let policy := normalizePolicy (m_Policy s) in
  let delay := mp_BackoffInitial policy in
  if delay <=? 0 then 0
  else if attempt <=? 1 then delay
  else
    let delay := doubleDelay (Z.to_nat (attempt - 1)) (mp_BackoffMax policy) delay in
    if f64_leb (mp_JitterRatio policy) f64_zero then delay
    else
      let window := f64_to_i64 (f64_mul (f64_of_Z delay) (mp_JitterRatio policy)) in
      if window <=? 0 then delay
      else jitterDelay (mp_BackoffMax policy) delay window (stableJitterSeed messageID attempt).

(** ** Settling a delivery *)

(** The record, when there is one, beside the error. *)
Definition requireInflightRecord (s : mailboxState) (messageID consumerID : string)
    : option MessageRecord * option MailboxError :=
  let consumerID := TrimSpace consumerID in
  match m_Records s !! TrimSpace messageID with
  | None => (None, Some ErrMessageNotFound)
  | Some r =>
      if negb (bool_decide (mr_State r = StateInFlight)) then (Some r, Some ErrMessageNotInflight)
      else if negb (consumerID =s? "") && negb (mr_ConsumerID r =s? consumerID)
      then (Some r, Some ErrConsumerMismatch)
      else (Some r, None)
  end.

Definition heartbeat (wall : Time) (s : mailboxState) (messageID consumerID : string) (now : Time)
    (inflightTimeout : Duration) : mailboxState * result MailboxError MessageRecord :=
  match requireInflightRecord s messageID consumerID with
  | (Some rec, None) =>
      let now := or_now wall now in
      let rec := rec <| mr_LastHeartbeatAt := now |>
                     <| mr_InFlightSince ::= fun t => if IsZero t then now else t |>
                     <| mr_LeaseExpiresAt ::= fun t => if 0 <? inflightTimeout
                                                       then TimeAdd now inflightTimeout else t |>
                     <| mr_UpdatedAt := now |> in
      (putRecord s (TrimSpace messageID) rec, Ok (cloneRecord rec))
  | (_, Some err) => (s, Err err)
  | (None, None) => (s, Err ErrMessageNotFound)
  end.

Definition errorsIsAcked (r : option MessageRecord) : option MessageRecord :=
  r ← r; if bool_decide (mr_State r = StateAcked) then Some r else None.

Definition leaveInFlight (st : Stats) : Stats :=
  st <| ms_InFlightTotal ::= fun n => maxInt 0 (n - 1) |>.

Definition ack (wall : Time) (s : mailboxState) (messageID consumerID : string) (now : Time)
    : mailboxState * result MailboxError MessageRecord :=
  match requireInflightRecord s messageID consumerID with
  | (Some rec, None) =>
      let rec := clearLease (rec <| mr_State := StateAcked |>)
                   <| mr_UpdatedAt := or_now wall now |> in
      let s := putRecord s (TrimSpace messageID) rec in
      let s := updStats s (fun st => leaveInFlight (st <| ms_AckTotal ::= Z.succ |>)) in
      (emitLifecycleEvent wall s TransitionAck rec "" noOptions, Ok (cloneRecord rec))
  | (r, Some err) =>
      match errorsIsAcked r with
      | Some rec => (s, Ok (cloneRecord rec))
      | None => (s, Err err)
      end
  | (None, None) => (s, Err ErrMessageNotFound)
  end.

(** [rec.State = StateDeadLetter; rec.DeadLetterReason = ...] with its counter
    and event, on a record already stored under [id]. *)
Definition deadLetter (wall : Time) (s : mailboxState) (id : string) (rec : MessageRecord)
    (reasonCode : string) (opts : ActionOptions) : mailboxState * MessageRecord :=
  let rec := rec <| mr_State := StateDeadLetter |>
                 <| mr_DeadLetterReason := deadLetterReason LifecycleReasonRetryExhausted reasonCode |> in
  let s := putRecord s id rec in
  let s := updStats s (fun st => st <| ms_DeadLetterTotal ::= Z.succ |>) in
  (emitLifecycleEvent wall s TransitionDeadLetter rec LifecycleReasonRetryExhausted opts, rec).

Definition nack (wall : Time) (s : mailboxState) (messageID consumerID reason : string) (now : Time)
    (opts : ActionOptions) : mailboxState * result MailboxError MessageRecord :=
  match requireInflightRecord s messageID consumerID with
  | (Some rec, None) =>
      let id := TrimSpace messageID in
      let reasonCode := CanonicalizeLifecycleReason reason LifecycleReasonHandlerError in
      let rec := clearLease (rec <| mr_State := StateNacked |>)
                   <| mr_LastError := reasonCode |> <| mr_UpdatedAt := or_now wall now |> in
      let s := putRecord s id rec in
      let s := updStats s (fun st => leaveInFlight (st <| ms_NackTotal ::= Z.succ |>)) in
      let s := emitLifecycleEvent wall s TransitionNack rec reasonCode opts in
      if (mp_MaxAttempts (m_Policy s) <=? mr_DeliveryAttempt rec) && mp_DLQEnabled (m_Policy s) then
        let '(s, rec) := deadLetter wall s id rec reasonCode opts in (s, Ok (cloneRecord rec))
      else (s, Ok (cloneRecord rec))
  | (Some rec, Some err) =>
      if bool_decide (mr_State rec = StateNacked \/ mr_State rec = StateDeadLetter
                      \/ mr_State rec = StateExpired)
      then (s, Ok (cloneRecord rec)) else (s, Err err)
  | (None, Some err) => (s, Err err)
  | (None, None) => (s, Err ErrMessageNotFound)
  end.

(** The end of a requeue without attempts left and without a dead-letter
    queue. *)
Definition exhaust (wall : Time) (s : mailboxState) (id : string) (rec : MessageRecord)
    (reasonCode : string) (now : Time) (opts : ActionOptions) : mailboxState * MessageRecord :=
  let rec := rec <| mr_State := StateExpired |>
                 <| mr_DeadLetterReason := deadLetterReason LifecycleReasonRetryExhausted reasonCode |>
                 <| mr_UpdatedAt := or_now wall now |> in
  let s := putRecord s id rec in
  let s := updStats s (fun st => st <| ms_ExpiredTotal ::= Z.succ |>) in
  (emitLifecycleEvent wall s TransitionExpired rec LifecycleReasonRetryExhausted opts, rec).

(** The end of a requeue with attempts left. *)
Definition backToQueue (wall : Time) (s : mailboxState) (id : string) (rec : MessageRecord)
    (reasonCode : string) (now : Time) (opts : ActionOptions) : mailboxState * MessageRecord :=
  let mid := ev_MessageID (mr_Envelope rec) in
  let rec := clearLease (rec <| mr_State := StateQueued |>)
               <| mr_NextEligibleAt := TimeAdd (or_now wall now)
                                         (retryDelay s mid (mr_DeliveryAttempt rec)) |>
               <| mr_ConsumerID := "" |> <| mr_UpdatedAt := or_now wall now |> in
  let s := putRecord s id rec in
  let s := s <| m_Queue ::= fun q => q ++ [mid] |> in
  let s := updStats s (fun st => st <| ms_QueueTotal ::= Z.succ |> <| ms_RequeueTotal ::= Z.succ |>) in
  (emitLifecycleEvent wall s TransitionRequeue rec reasonCode opts, rec).

(** What [requeue] does once the delivery is nacked. *)
Definition requeueNacked (wall : Time) (s : mailboxState) (id : string) (rec : MessageRecord)
    (reasonCode : string) (now : Time) (opts : ActionOptions) : mailboxState * MessageRecord :=
  if mp_MaxAttempts (m_Policy s) <=? mr_DeliveryAttempt rec then
    if mp_DLQEnabled (m_Policy s)
    then deadLetter wall s id (rec <| mr_UpdatedAt := or_now wall now |>) reasonCode opts
    else exhaust wall s id rec reasonCode now opts
  else backToQueue wall s id rec reasonCode now opts.

(** [case StateInFlight] of [requeue]: the delivery is nacked first. *)
Definition nackInFlight (wall : Time) (s : mailboxState) (id : string) (rec : MessageRecord)
    (reasonCode : string) (opts : ActionOptions) : mailboxState * MessageRecord :=
  let rec := clearLease (rec <| mr_State := StateNacked |> <| mr_LastError := reasonCode |>) in
  let s := putRecord s id rec in
  let s := updStats s (fun st => leaveInFlight (st <| ms_NackTotal ::= Z.succ |>)) in
  (emitLifecycleEvent wall s TransitionNack rec reasonCode opts, rec).

Definition requeue (wall : Time) (s : mailboxState) (messageID consumerID reason : string)
    (now : Time) (opts : ActionOptions) : mailboxState * result MailboxError MessageRecord :=
  let id := TrimSpace messageID in
  let consumerID := TrimSpace consumerID in
  match m_Records s !! id with
  | None => (s, Err ErrMessageNotFound)
  | Some rec =>
      let reasonCode := CanonicalizeLifecycleReason reason LifecycleReasonHandlerError in
      match mr_State rec with
      | StateInFlight =>
          if negb (consumerID =s? "") && negb (mr_ConsumerID rec =s? consumerID)
          then (s, Err ErrConsumerMismatch)
          else
            let '(s, rec) := nackInFlight wall s id rec reasonCode opts in
            let '(s, rec) := requeueNacked wall s id rec reasonCode now opts in
            (s, Ok (cloneRecord rec))
      | StateNacked =>
          let '(s, rec) := requeueNacked wall s id rec reasonCode now opts in
          (s, Ok (cloneRecord rec))
      | _ => (s, Err ErrMessageNotInflight)
      end
  end.

(** ** Sweeps of [consume] *)

(** One expired queued record. With a dead-letter queue it gets both the
    dead-letter and the expired transition. *)
Definition expireRecord (wall : Time) (s : mailboxState) (id : string) (rec : MessageRecord)
    (now : Time) : mailboxState :=
  let rec := rec <| mr_UpdatedAt := now |> in
  let s := updStats s (fun st => st <| ms_QueueTotal ::= fun n => maxInt 0 (n - 1) |>
                                    <| ms_ExpiredTotal ::= Z.succ |>) in
  let '(s, rec) :=
    if mp_DLQEnabled (m_Policy s) then
      let rec := rec <| mr_State := StateDeadLetter |>
                     <| mr_DeadLetterReason := deadLetterReason LifecycleReasonExpired "" |> in
      let s := updStats s (fun st => st <| ms_DeadLetterTotal ::= Z.succ |>) in
      (emitLifecycleEvent wall s TransitionDeadLetter rec LifecycleReasonExpired noOptions, rec)
    else (s, rec <| mr_State := StateExpired |>) in
  let rec := clearLease rec in
  emitLifecycleEvent wall (putRecord s id rec) TransitionExpired rec LifecycleReasonExpired noOptions.

(** One round of the loop of [expireQueued]: the state, the kept queue and
    whether a record expired. *)
Definition expireStep (wall now : Time) (acc : mailboxState * list string * bool) (entry : string)
    : mailboxState * list string * bool :=
  let '(s, filtered, mutated) := acc in
  let id := TrimSpace entry in
  match m_Records s !! id with
  | None => acc
  | Some rec =>
      if negb (bool_decide (mr_State rec = StateQueued)) then acc
      else if negb (isRecordExpired rec now) then (s, filtered ++ [id], mutated)
      else (expireRecord wall s id rec now, filtered, true)
  end.

Definition expireQueued (wall : Time) (s : mailboxState) (now : Time) : mailboxState * bool :=
  match m_Queue s with
  | [] => (s, false)
  | _ =>
      let '(s, filtered, mutated) := foldl (expireStep wall now) (s, [], false) (m_Queue s) in
      (s <| m_Queue := filtered |>, mutated)
  end.

Definition staleIDs (s : mailboxState) (now : Time) (inflightTimeout : Duration) : list string :=
  sort_strings (map TrimSpace
    (filter (fun kv => leaseExpired kv.2 now inflightTimeout = true) (map_to_list (m_Records s))).*1).

Definition reclaimStep (wall now : Time) (acc : mailboxState * bool) (id : string)
    : mailboxState * bool :=
  let '(s, mutated) := acc in
  let '(s, r) := requeue wall s id "" LifecycleReasonLeaseExpired now (mkActionOptions true false) in
  (s, mutated || is_ok r).

Definition reclaimStaleInFlight (wall : Time) (s : mailboxState) (now : Time)
    (inflightTimeout : Duration) : mailboxState * bool :=
  if inflightTimeout <=? 0 then (s, false)
  else foldl (reclaimStep wall now) (s, false) (staleIDs s now inflightTimeout).

(** ** Consume *)

(** The tests of the selection loop on the record of a queue entry. *)
Definition deliverable (now : Time) (r : MessageRecord) : bool :=
  bool_decide (mr_State r = StateQueued)
  && negb (negb (IsZero (ev_NotBefore (mr_Envelope r))) && After (ev_NotBefore (mr_Envelope r)) now)
  && negb (negb (IsZero (mr_NextEligibleAt r)) && After (mr_NextEligibleAt r) now).

Definition entryDeliverable (s : mailboxState) (now : Time) (entry : string) : bool :=
  match m_Records s !! TrimSpace entry with
  | Some r => deliverable now r
  | None => false
  end.

(** The record of a delivery: the next attempt, its identifiers, the lease. *)
Definition deliveredRecord (r : MessageRecord) (consumerID : string) (now : Time)
    (inflightTimeout : Duration) : MessageRecord :=
  let n := mr_DeliveryAttempt r + 1 in
  let env := mr_Envelope r in
  let mid := ev_MessageID env in
  let base :=
    match ev_HostPlanBinding env with
    | Some b => if negb (TrimSpace (hb_CausationID b) =s? "") then hb_CausationID b else mid
    | None => mid
    end in
  mkMessageRecord (env <| ev_Attempt := n |>) StateInFlight
    (mid +:+ ":delivery:" +:+ itoa n) (mid +:+ ":lease:" +:+ itoa n) consumerID n
    (base +:+ ":attempt:" +:+ itoa n) now now
    (if 0 <? inflightTimeout then TimeAdd now inflightTimeout else 0) 0
    (mr_LastError r) (mr_DeadLetterReason r) (mr_CreatedAt r) now.

Definition deliver (wall : Time) (s : mailboxState) (entry : nat) (id consumerID : string)
    (rec : MessageRecord) (now : Time) (inflightTimeout : Duration) : mailboxState * MessageRecord :=
  let rec := deliveredRecord rec consumerID now inflightTimeout in
  let s := s <| m_Queue ::= delete entry |> in
  let s := putRecord s id rec in
  let s := updStats s (fun st => st <| ms_QueueTotal ::= fun n => maxInt 0 (n - 1) |>
                                    <| ms_InFlightTotal ::= Z.succ |>
                                    <| ms_ConsumedTotal ::= Z.succ |>) in
  (emitLifecycleEvent wall s TransitionConsume rec "" noOptions, rec).

(** The sweeps at the head of [consume]. *)
Definition consumeSweeps (wall : Time) (s : mailboxState) (now : Time) (inflightTimeout : Duration)
    (reclaimOnConsume : bool) : mailboxState * bool :=
  let '(s, mutated) := expireQueued wall s now in
  if reclaimOnConsume then
    let '(s, reclaimed) := reclaimStaleInFlight wall s now inflightTimeout in
    (s, mutated || reclaimed)
  else (s, mutated).

(** The delivered record, if any, and whether the state changed. *)
Definition consume (wall : Time) (s : mailboxState) (consumerID : string) (now : Time)
    (inflightTimeout : Duration) (reclaimOnConsume : bool)
    : mailboxState * result MailboxError (option MessageRecord * bool) :=
  let consumerID := TrimSpace consumerID in
  if consumerID =s? "" then (s, Err ErrConsumerIDRequired)
  else
    let now := or_now wall now in
    let '(s, mutated) := consumeSweeps wall s now inflightTimeout reclaimOnConsume in
    match list_find (fun e => entryDeliverable s now e = true) (m_Queue s) with
    | None => (s, Ok (None, mutated))
    | Some (i, entry) =>
        let id := TrimSpace entry in
        match m_Records s !! id with
        | None => (s <| m_Queue ::= delete i |>, Ok (None, mutated))
        | Some rec =>
            let '(s, rec) := deliver wall s i id consumerID rec now inflightTimeout in
            (s, Ok (Some (cloneRecord rec), true))
        end
    end.
