(* ===== verification/MailboxSnapshot.v ===== *)
(** * Mailbox: snapshots

    [snapshot], [restore] and [cloneMailboxState] of
    [orchestration/mailbox/state.go], [normalizeSnapshot] and
    [sortRecordsDeterministic] of [types.go], [validate] of [history.go], and
    [continuationMutate] of [store_memory.go]. The iteration order of a Go map is
    unspecified: where a result could depend on it the order is a parameter. *)
From S2P Require Import Prelude GoStrings GoNum MailboxTypes MailboxState.

Local Open Scope bool_scope.
Local Open Scope string_scope.
Local Open Scope list_scope.
Local Open Scope Z_scope.

(** ** Ordering *)

(** [a < b] on Go strings. *)
Definition strLess (a b : string) : bool := bool_decide (String.le a b) && negb (a =s? b).

Definition recordLess (l r : MessageRecord) : bool :=
  if TimeEqual (mr_UpdatedAt l) (mr_UpdatedAt r) then
    if TimeEqual (mr_CreatedAt l) (mr_CreatedAt r)
    then strLess (TrimSpace (ev_MessageID (mr_Envelope l))) (TrimSpace (ev_MessageID (mr_Envelope r)))
    else Before (mr_CreatedAt l) (mr_CreatedAt r)
  else Before (mr_UpdatedAt l) (mr_UpdatedAt r).

(** [sort.SliceStable] with [recordLess]: insertion before the first element
    that is greater. *)
Fixpoint insertRecord (x : MessageRecord) (l : list MessageRecord) : list MessageRecord :=
  match l with
  | [] => [x]
  | y :: l => if recordLess x y then x :: y :: l else y :: insertRecord x l
  end.

Definition sortRecordsDeterministic (l : list MessageRecord) : list MessageRecord :=
  foldl (fun acc x => insertRecord x acc) [] l.

Lemma insertRecord_perm x l : insertRecord x l ≡ₚ x :: l.
Proof.
  induction l as [|y l IH]; cbn; [done|]. case_match; [done|]. rewrite IH. apply Permutation_swap.
Qed.

Lemma sortRecordsDeterministic_perm l : sortRecordsDeterministic l ≡ₚ l.
Proof.
  unfold sortRecordsDeterministic.
  assert (H : forall acc, foldl (fun acc x => insertRecord x acc) acc l ≡ₚ acc ++ l).
  { induction l as [|x l IH]; intros acc; cbn; [by rewrite app_nil_r|].
    rewrite IH, insertRecord_perm. solve_Permutation. }
  apply (H []).
Qed.

(** ** Snapshot *)

(** The map yields the records in an unspecified order; the sort on distinct
    message ids does not depend on it. *)
Definition snapshot (s : mailboxState) : Snapshot :=
  mkSnapshot (Some (m_History s)) (ms_Backend (m_Stats s))
    (sortRecordsDeterministic (map_to_list (m_Records s)).*2)
    (m_Queue s) (m_Idempotency s) (m_Continuations s) (m_Stats s) (m_Policy s).

(** ** Restore *)

Definition sourceValid (namespace id : string) : bool :=
  forallb (fun v => ValidString v && negb (TrimSpace v =s? "")
                    && (Z.of_nat (String.length v) <=? Z.of_nat MaxHistoryReferenceBytes))
    [namespace; id].

(** The loop of [validate]: strictly increasing sequences between the floor
    and the journal's sequence. *)
Fixpoint entriesValid (sequence previous : Z) (l : list HistoryEntry) : bool :=
  match l with
  | [] => true
  | e :: l =>
      negb ((he_Sequence e <=? previous) || (sequence <? he_Sequence e) || negb (validHistoryEntry e))
      && entriesValid sequence (he_Sequence e) l
  end.

(** The source kind is the constant [mailbox], which [SourceRef.Validate]
    accepts. *)
Definition HistoryJournal_validate (h : HistoryJournal) : bool :=
  negb (negb (hj_Version h =s? HistoryVersion)
        || negb (sourceValid HistoryVersion (hj_SourceID h))
        || (hj_Sequence h <? hj_Floor h)
        || (HistoryRetentionEntries <? length (hj_Entries h))%nat)
  && entriesValid (hj_Sequence h) (hj_Floor h) (hj_Entries h).

Definition knownState (st : MessageState) : bool :=
  match st with StateOther _ => false | _ => true end.

(** One record of the snapshot; [seen] are the message ids before it. *)
Definition normalizeRecord (seen : gset string) (rec : MessageRecord)
    : result MailboxError MessageRecord :=
  match normalizeEnvelope (mr_Envelope rec) with
  | Err _ => Err ErrSnapshotCorrupt
  | Ok env =>
      require knownState (mr_State rec) orelse ErrSnapshotCorrupt;
      require negb (mr_DeliveryAttempt rec <? 0) orelse ErrSnapshotCorrupt;
      require negb (IsZero (mr_CreatedAt rec)) orelse ErrSnapshotCorrupt;
      require negb (bool_decide (ev_MessageID env ∈ seen)) orelse ErrSnapshotCorrupt;
      Ok (mkMessageRecord env (mr_State rec) (mr_DeliveryID rec) (mr_LeaseID rec)
            (TrimSpace (mr_ConsumerID rec)) (mr_DeliveryAttempt rec) (mr_AttemptCausation rec)
            (mr_InFlightSince rec) (mr_LastHeartbeatAt rec) (mr_LeaseExpiresAt rec)
            (mr_NextEligibleAt rec) (TrimSpace (mr_LastError rec))
            (TrimSpace (mr_DeadLetterReason rec)) (mr_CreatedAt rec)
            (if IsZero (mr_UpdatedAt rec) then mr_CreatedAt rec else mr_UpdatedAt rec))
  end.

Fixpoint normalizeRecords (seen : gset string) (l : list MessageRecord)
    : result MailboxError (list MessageRecord) :=
  match l with
  | [] => Ok []
  | rec :: l =>
      r ←ₑ normalizeRecord seen rec;
      rest ←ₑ normalizeRecords ({[ev_MessageID (mr_Envelope r)]} ∪ seen) l;
      Ok (r :: rest)
  end.

(** The queue with empty entries dropped; a repeated id is corrupt. *)
Fixpoint normalizeQueue (seen : gset string) (q : list string) : result MailboxError (list string) :=
  match q with
  | [] => Ok []
  | entry :: q =>
      let id := TrimSpace entry in
      if id =s? "" then normalizeQueue seen q
      else
        require negb (bool_decide (id ∈ seen)) orelse ErrSnapshotCorrupt;
        rest ←ₑ normalizeQueue ({[id]} ∪ seen) q;
        Ok (id :: rest)
  end.

(** [idSet]: the state of each message id. *)
Definition stateIndex (records : list MessageRecord) : gmap string MessageState :=
  list_to_map ((fun r => (ev_MessageID (mr_Envelope r), mr_State r)) <$> records).

Definition queueRefersQueued (idx : gmap string MessageState) (q : list string) : bool :=
  forallb (fun id => bool_decide (idx !! id = Some StateQueued)) q.

(** One visited key of the idempotency map, with the value it has when it is
    visited. An entry that is inserted during the iteration is trimmed and
    checked already, so visiting it or not is the same. *)
Definition normalizeIdempotencyEntry (idx : gmap string MessageState)
    (m : result MailboxError (gmap string string)) (key : string)
    : result MailboxError (gmap string string) :=
  m ←ₑ m;
  match m !! key with
  | None => Ok m
  | Some messageID =>
      let k := TrimSpace key in let v := TrimSpace messageID in
      require negb ((k =s? "") || (v =s? "")) orelse ErrSnapshotCorrupt;
      require bool_decide (is_Some (idx !! v)) orelse ErrSnapshotCorrupt;
      if negb (k =s? key) || negb (v =s? messageID) then Ok (<[k := v]> (delete key m)) else Ok m
  end.

Section restoring.
Context {order : RangeOrder}.

Definition normalizeSnapshot (inp : Snapshot) (fallbackBackend : string)
    : result MailboxError Snapshot :=
  let backend := TrimSpace (sn_Backend inp) in
  let backend := if backend =s? "" then TrimSpace fallbackBackend else backend in
  let backend := if backend =s? "" then "memory" else backend in
  records ←ₑ normalizeRecords ∅ (sn_Records inp);
  queue ←ₑ normalizeQueue ∅ (sn_Queue inp);
  let idx := stateIndex records in
  require queueRefersQueued idx queue orelse ErrSnapshotCorrupt;
  idempotency ←ₑ foldl (normalizeIdempotencyEntry idx) (Ok (sn_Idempotency inp))
                   (range_order (sn_Idempotency inp));
  Ok (mkSnapshot (sn_History inp) backend records queue idempotency (sn_Continuations inp)
        (sn_Stats inp <| ms_Backend := backend |>) (normalizePolicy (sn_Policy inp))).

(** [sourceID] is what [rand.Text] returns for a snapshot without history. *)
Definition restore (sourceID : string) (s : mailboxState) (inp : Snapshot)
    : result MailboxError mailboxState :=
  n ←ₑ normalizeSnapshot inp (ms_Backend (m_Stats s));
  history ←ₑ match sn_History n with
             | None => Ok (newHistoryJournal sourceID)
             | Some h => require HistoryJournal_validate h orelse ErrSnapshotCorrupt; Ok h
             end;
  let records : gmap string MessageRecord :=
    list_to_map ((fun r => (ev_MessageID (mr_Envelope r), r)) <$> sn_Records n) in
  let inFlight := length (filter (fun r => mr_State r = StateInFlight) (sn_Records n)) in
  Ok (mkMailboxState history records (sn_Queue n) (sn_Idempotency n) (sn_Continuations n)
        (sn_Stats n <| ms_QueueTotal := Z.of_nat (length (sn_Queue n)) |>
                    <| ms_InFlightTotal := Z.of_nat inFlight |>)
        (normalizePolicy (sn_Policy n)) (m_events s) (m_traceEvents s)).

(** The events and the tracing flag are not part of a snapshot. *)
Definition cloneMailboxState (sourceID : string) (source : mailboxState)
    : result MailboxError mailboxState :=
  restore sourceID (newMailboxState sourceID (ms_Backend (m_Stats source)) (m_Policy source))
    (snapshot source).

(** [MemoryStore.continuationMutate]: [fn] runs on a clone that replaces the
    state when it succeeds. *)
Definition continuationMutate (sourceID : string) (s : mailboxState)
    (fn : mailboxState -> result MailboxError mailboxState) : result MailboxError mailboxState :=
  candidate ←ₑ cloneMailboxState sourceID s;
  fn candidate.
End restoring.
