(* ===== verification/MailboxInv.v ===== *)
(** * Mailbox: invariant and lifecycle

    What every operation of [MailboxState] keeps: the queue lists exactly the
    queued messages, once each; the counters count the messages; delivery
    attempts stay within the policy; leases exist only in flight. Beside it,
    the lifecycle of one message as a step relation: every operation moves
    each message along it. The lemmas are about the part of the state the
    lifecycle lives in ([View]); events and history do not touch it. *)
From S2P Require Import Prelude GoStrings GoNum MailboxTypes MailboxState MailboxSnapshot.

Local Open Scope bool_scope.
Local Open Scope string_scope.
Local Open Scope list_scope.
Local Open Scope Z_scope.

(** ** Normal envelopes *)

Lemma boundedField_ok s v : boundedField s = Ok v -> v = TrimSpace s /\ boundedField v = Ok v.
Proof.
  unfold boundedField. case_match eqn:E; [|done]. intros [= <-].
  by rewrite TrimSpace_idemp, E.
Qed.

Lemma normalizeHostPlanBinding_idemp b b' :
  normalizeHostPlanBinding b = Ok b' -> normalizeHostPlanBinding b' = Ok b'.
Proof.
  unfold normalizeHostPlanBinding. intros H.
  repeat match goal with
  | H : result_bind (boundedField ?s) _ = Ok _ |- _ =>
      let v := fresh "v" in let Hv := fresh "Hv" in
      apply result_bind_ok in H as (v & Hv & H); apply boundedField_ok in Hv as [_ Hv]
  end.
  case_match eqn:E1; [|done]. case_match eqn:E2; [|done]. injection H as <-. cbn.
  repeat match goal with Hv : boundedField _ = Ok _ |- _ => rewrite Hv; clear Hv; cbn end.
  by rewrite E1, E2.
Qed.

(** The fixed points of [normalizeEnvelope]. *)
Record envelope_normal (e : Envelope) : Prop := {
  en_trim : trimEnvelope e = e;
  en_binding : forall b, ev_HostPlanBinding e = Some b -> normalizeHostPlanBinding b = Ok b;
  en_message : ev_MessageID e <> "";
  en_key : ev_IdempotencyKey e <> "";
  en_kind : forall k, ev_Kind e <> KindOther k
}.

Lemma maxInt_idemp z : maxInt (maxInt z 0) 0 = maxInt z 0.
Proof. unfold maxInt. destruct (Z.leb_spec 0 z) as [H|H]; [|done]. by apply Z.leb_le in H as ->. Qed.

Lemma trimEnvelope_set_binding e b :
  trimEnvelope (trimEnvelope e <| ev_HostPlanBinding := b |>)
  = trimEnvelope e <| ev_HostPlanBinding := b |>.
Proof. unfold trimEnvelope. cbn. by rewrite !TrimSpace_idemp, maxInt_idemp. Qed.

Lemma normalizeEnvelope_normal e e' : normalizeEnvelope e = Ok e' -> envelope_normal e'.
Proof.
  unfold normalizeEnvelope. intros H. apply result_bind_ok in H as (ob & Hb & H).
  case_match eqn:Em; [|done]. case_match eqn:Ek; [|done].
  apply negb_true_iff, str_eqb_neq in Em, Ek.
  assert (He : trimEnvelope e <| ev_HostPlanBinding := ob |> = e'
               /\ forall k, ev_Kind (trimEnvelope e) <> KindOther k)
    by (cbn in H |- *; destruct (ev_Kind e); by simplify_eq).
  destruct He as [<- Hk]. constructor; [apply trimEnvelope_set_binding| |done..].
  cbn. intros b ->. destruct (ev_HostPlanBinding (trimEnvelope e)) as [b0|]; [|done].
  apply result_bind_ok in Hb as (b1 & Hb1 & [= <-]).
  by apply normalizeHostPlanBinding_idemp in Hb1.
Qed.

Lemma envelope_normal_ok e : envelope_normal e -> normalizeEnvelope e = Ok e.
Proof.
  intros [Ht Hb Hm Hk Hkind]. unfold normalizeEnvelope. rewrite Ht.
  assert (Hob : match ev_HostPlanBinding e with
                | Some b => result_bind (normalizeHostPlanBinding b) (fun b' => Ok (Some b'))
                | None => Ok None
                end = Ok (ev_HostPlanBinding e) :> result MailboxError _).
  { destruct (ev_HostPlanBinding e) as [b|] eqn:E; [by rewrite (Hb b eq_refl) | done]. }
  rewrite Hob. cbn.
  assert (He : e <| ev_HostPlanBinding := ev_HostPlanBinding e |> = e) by (by destruct e).
  rewrite (proj2 (str_eqb_neq _ _) Hm), (proj2 (str_eqb_neq _ _) Hk).
  cbn. destruct (ev_Kind e) eqn:E; cbn; try by rewrite <-He at 2; destruct e.
  by destruct (Hkind s).
Qed.

Lemma envelope_normal_id e : envelope_normal e -> TrimSpace (ev_MessageID e) = ev_MessageID e.
Proof. intros [Ht _ _ _ _]. by rewrite <-Ht at 2. Qed.

Lemma envelope_normal_set_attempt e n : 0 <= n -> envelope_normal e -> envelope_normal (e <| ev_Attempt := n |>).
Proof.
  intros Hn [Ht Hb Hm Hk Hkind]. constructor; try done. destruct e. unfold trimEnvelope in *.
  cbn in *. unfold maxInt at 1. rewrite (proj2 (Z.leb_le 0 n) Hn). by injection Ht as -> -> -> -> -> -> -> -> -> -> _.
Qed.

Lemma envelope_normal_set_expire e t : envelope_normal e -> envelope_normal (e <| ev_ExpireAt := t |>).
Proof.
  intros [Ht Hb Hm Hk Hkind]. constructor; try done. destruct e. unfold trimEnvelope in *.
  cbn in *. injection Ht as -> -> -> -> -> -> -> -> -> -> Ha. by rewrite Ha.
Qed.

(** ** The lifecycle of a message *)

(** State and delivery attempts of one message, under a policy that allows
    [max] attempts. *)
Inductive lifecycle_step (max : Z) : MessageState * Z -> MessageState * Z -> Prop :=
| step_deliver n : n < max -> lifecycle_step max (StateQueued, n) (StateInFlight, n + 1)
| step_ack n : lifecycle_step max (StateInFlight, n) (StateAcked, n)
| step_nack n : lifecycle_step max (StateInFlight, n) (StateNacked, n)
| step_retry n : n < max -> lifecycle_step max (StateNacked, n) (StateQueued, n)
| step_dead n : max <= n -> lifecycle_step max (StateNacked, n) (StateDeadLetter, n)
| step_exhaust n : max <= n -> lifecycle_step max (StateNacked, n) (StateExpired, n)
| step_expire n : lifecycle_step max (StateQueued, n) (StateExpired, n)
| step_expire_dead n : lifecycle_step max (StateQueued, n) (StateDeadLetter, n).

Definition lifecycle (max : Z) : relation (MessageState * Z) := rtc (lifecycle_step max).

Definition phase (r : MessageRecord) : MessageState * Z := (mr_State r, mr_DeliveryAttempt r).

Definition settled (st : MessageState) : Prop :=
  st = StateAcked \/ st = StateDeadLetter \/ st = StateExpired.

Lemma settled_absorbing max p q : settled p.1 -> lifecycle max p q -> q = p.
Proof.
  intros Hp H. induction H as [|p q t Hpq _ _]; [done|]. exfalso.
  destruct Hpq; cbn in Hp; unfold settled in Hp; intuition discriminate.
Qed.

(** The message is the same: only the attempt number of its envelope moves. *)
Definition same_message (r r' : MessageRecord) : Prop :=
  mr_Envelope r' = mr_Envelope r <| ev_Attempt := ev_Attempt (mr_Envelope r') |>
  /\ mr_CreatedAt r' = mr_CreatedAt r.

Definition message_evolves (max : Z) (r r' : MessageRecord) : Prop :=
  lifecycle max (phase r) (phase r') /\ same_message r r'.

#[export] Instance message_evolves_preorder max : PreOrder (message_evolves max).
Proof.
  split.
  - intros r. split; [apply rtc_refl|]. split; [by destruct r as [[]] | done].
  - intros a b c [H1 [E1 C1]] [H2 [E2 C2]].
    split; [by etrans|]. split; [|by etrans].
    rewrite E2, E1. destruct a as [[]], b as [[]], c as [[]]; cbn in *. done.
Qed.

Lemma message_evolves_key max r r' :
  message_evolves max r r' -> ev_IdempotencyKey (mr_Envelope r') = ev_IdempotencyKey (mr_Envelope r).
Proof. intros [_ [-> _]]. by destruct r as [[]]. Qed.

Lemma message_evolves_still max r r' :
  phase r' = phase r -> mr_Envelope r' = mr_Envelope r -> mr_CreatedAt r' = mr_CreatedAt r ->
  message_evolves max r r'.
Proof.
  intros Hp He Hc. split; [rewrite Hp; apply rtc_refl|]. split; [|done].
  rewrite He. by destruct (mr_Envelope r).
Qed.

(** One step with an unchanged envelope. *)
Lemma message_evolves_step max r r' :
  lifecycle_step max (phase r) (phase r') -> mr_Envelope r' = mr_Envelope r ->
  mr_CreatedAt r' = mr_CreatedAt r -> message_evolves max r r'.
Proof.
  intros H He Hc. split; [by apply rtc_once|]. split; [|done].
  rewrite He. by destruct (mr_Envelope r).
Qed.

(** ** The invariant *)

Record View : Type := mkView {
  v_Records : gmap string MessageRecord;
  v_Queue : list string;
  v_Idempotency : gmap string string;
  v_Stats : Stats;
  v_Policy : Policy
}.

Definition view (s : mailboxState) : View :=
  mkView (m_Records s) (m_Queue s) (m_Idempotency s) (m_Stats s) (m_Policy s).

Record record_ok (p : Policy) (id : string) (r : MessageRecord) : Prop := {
  ok_envelope : envelope_normal (mr_Envelope r);
  ok_id : ev_MessageID (mr_Envelope r) = id;
  ok_attempts : 0 <= mr_DeliveryAttempt r <= mp_MaxAttempts p;
  ok_queued : mr_State r = StateQueued -> mr_DeliveryAttempt r < mp_MaxAttempts p;
  ok_inflight : mr_State r = StateInFlight -> 1 <= mr_DeliveryAttempt r /\ mr_ConsumerID r <> "";
  ok_lease : mr_State r <> StateInFlight ->
    mr_InFlightSince r = 0 /\ mr_LastHeartbeatAt r = 0 /\ mr_LeaseExpiresAt r = 0;
  ok_known : knownState (mr_State r) = true;
  ok_trimmed : TrimSpace (mr_ConsumerID r) = mr_ConsumerID r
    /\ TrimSpace (mr_LastError r) = mr_LastError r
    /\ TrimSpace (mr_DeadLetterReason r) = mr_DeadLetterReason r;
  ok_times : mr_CreatedAt r <> 0 /\ mr_UpdatedAt r <> 0
}.

Definition in_state (st : MessageState) (r : MessageRecord) : Z :=
  if decide (mr_State r = st) then 1 else 0.

(** The counters that are determined by the records: what a record counts for,
    and the counter. *)
Definition counted : list ((MessageRecord -> Z) * (Stats -> Z)) :=
  [(in_state StateInFlight, ms_InFlightTotal); (in_state StateAcked, ms_AckTotal);
   (in_state StateDeadLetter, ms_DeadLetterTotal); (fun _ => 1, ms_PublishedTotal);
   (mr_DeliveryAttempt, ms_ConsumedTotal)].

Record mailbox_inv (v : View) : Prop := {
  inv_policy : normalizePolicy (v_Policy v) = v_Policy v;
  inv_records : forall id r, v_Records v !! id = Some r -> record_ok (v_Policy v) id r;
  inv_nodup : NoDup (v_Queue v);
  inv_queue : forall id, id ∈ v_Queue v
    <-> exists r, v_Records v !! id = Some r /\ mr_State r = StateQueued;
  inv_queue_total : ms_QueueTotal (v_Stats v) = Z.of_nat (length (v_Queue v));
  inv_counts : Forall (fun fg => fg.2 (v_Stats v) = map_sum fg.1 (v_Records v)) counted;
  inv_keys : forall k id, v_Idempotency v !! k = Some id
    <-> exists r, v_Records v !! id = Some r /\ ev_IdempotencyKey (mr_Envelope r) = k
}.

(** Every message of [v] is still there in [v'], further along its
    lifecycle. *)
Definition evolves (v v' : View) : Prop :=
  v_Policy v' = v_Policy v
  /\ forall id r, v_Records v !! id = Some r ->
     exists r', v_Records v' !! id = Some r' /\ message_evolves (mp_MaxAttempts (v_Policy v)) r r'.

#[export] Instance evolves_preorder : PreOrder evolves.
Proof.
  split.
  - intros v. split; [done|]. intros id r H. by exists r.
  - intros a b c [Pb Hb] [Pc Hc]. split; [by etrans|]. intros id r H.
    destruct (Hb id r H) as (r1 & H1 & E1). destruct (Hc id r1 H1) as (r2 & H2 & E2).
    exists r2. split; [done|]. rewrite Pb in E2. by etrans.
Qed.

Lemma evolves_same_records v v' :
  v_Policy v' = v_Policy v -> v_Records v' = v_Records v -> evolves v v'.
Proof. intros Hp Hr. split; [done|]. intros id r H. exists r. by rewrite Hr. Qed.

Definition moves (v v' : View) : Prop := mailbox_inv v' /\ evolves v v'.

Lemma moves_trans a b c : moves a b -> (mailbox_inv b -> moves b c) -> moves a c.
Proof. intros [Hb Eb] H. destruct (H Hb) as [Hc Ec]. split; [done | by etrans]. Qed.

(** ** Writes to one record *)

Lemma moves_write v id r r' q st :
  mailbox_inv v -> v_Records v !! id = Some r -> record_ok (v_Policy v) id r' ->
  message_evolves (mp_MaxAttempts (v_Policy v)) r r' ->
  NoDup q ->
  (forall x, x ∈ q <-> (x <> id /\ x ∈ v_Queue v) \/ (x = id /\ mr_State r' = StateQueued)) ->
  ms_QueueTotal st = Z.of_nat (length q) ->
  Forall (fun fg => fg.2 st = fg.2 (v_Stats v) - fg.1 r + fg.1 r') counted ->
  moves v (mkView (<[id := r']> (v_Records v)) q (v_Idempotency v) st (v_Policy v)).
Proof.
  intros [Hp Hr Hn Hq Hqt Hc Hk] Hid Hok Hev Hnd Hqs Hqt' Hc'. split.
  - constructor; cbn; try done.
    + intros x rx [[<- <-]|[Hx Hl]]%lookup_insert_Some; [done | by apply Hr].
    + intros x. rewrite Hqs, Hq. split.
      * intros [[Hx (rx & Hl & Hs)]|[-> Hs]]; [exists rx; by rewrite lookup_insert_ne|].
        exists r'. by rewrite lookup_insert_eq.
      * intros (rx & [[<- <-]|[Hx Hl]]%lookup_insert_Some & Hs); [by right | left; eauto].
    + apply Forall_forall. intros fg Hfg.
      rewrite (map_sum_insert _ _ _ _ _ Hid).
      rewrite Forall_forall in Hc, Hc'. by rewrite (Hc' _ Hfg), (Hc _ Hfg).
    + pose proof (message_evolves_key _ _ _ Hev) as Hkey.
      intros k x. rewrite Hk. split.
      * intros (rx & Hl & Hkx). destruct (decide (x = id)) as [->|Hx];
          [exists r'; rewrite lookup_insert_eq; split; congruence | exists rx; by rewrite lookup_insert_ne].
      * intros (rx & [[<- <-]|[Hx Hl]]%lookup_insert_Some & Hkx); [exists r; split; congruence | eauto].
  - split; [done|]. intros x rx Hx. cbn. destruct (decide (x = id)) as [->|Hne].
    + exists r'. rewrite lookup_insert_eq. split; [done|]. by simplify_eq.
    + exists rx. by rewrite lookup_insert_ne.
Qed.

(** Neither state is queued: the queue stays. *)
Lemma moves_outside_queue v id r r' st :
  mailbox_inv v -> v_Records v !! id = Some r -> record_ok (v_Policy v) id r' ->
  message_evolves (mp_MaxAttempts (v_Policy v)) r r' ->
  mr_State r <> StateQueued -> mr_State r' <> StateQueued ->
  ms_QueueTotal st = ms_QueueTotal (v_Stats v) ->
  Forall (fun fg => fg.2 st = fg.2 (v_Stats v) - fg.1 r + fg.1 r') counted ->
  moves v (mkView (<[id := r']> (v_Records v)) (v_Queue v) (v_Idempotency v) st (v_Policy v)).
Proof.
  intros Hi Hid Hok Hev Hs Hs' Hqt Hc. eapply moves_write; try done.
  - apply Hi.
  - intros x. rewrite (inv_queue v Hi). split; [|naive_solver].
    intros (rx & Hx & Hsx). left. split; [|eauto]. intros ->. by simplify_eq.
  - rewrite Hqt. apply Hi.
Qed.

(** A message that was not queued joins the end of the queue. *)
Lemma moves_to_queue v id r r' st :
  mailbox_inv v -> v_Records v !! id = Some r -> record_ok (v_Policy v) id r' ->
  message_evolves (mp_MaxAttempts (v_Policy v)) r r' ->
  mr_State r <> StateQueued -> mr_State r' = StateQueued ->
  ms_QueueTotal st = ms_QueueTotal (v_Stats v) + 1 ->
  Forall (fun fg => fg.2 st = fg.2 (v_Stats v) - fg.1 r + fg.1 r') counted ->
  moves v (mkView (<[id := r']> (v_Records v)) (v_Queue v ++ [id]) (v_Idempotency v) st (v_Policy v)).
Proof.
  intros Hi Hid Hok Hev Hs Hs' Hqt Hc.
  assert (Hnin : id ∉ v_Queue v) by (intros (rx & Hx & Hsx)%(inv_queue v Hi); by simplify_eq).
  eapply moves_write; try done.
  - apply NoDup_app. split; [apply Hi|]. split; [|apply NoDup_singleton].
    intros x Hx ->%list_elem_of_singleton. done.
  - intros x. rewrite elem_of_app, list_elem_of_singleton. split.
    + intros [Hx| ->]; [left; split; [by intros ->|done] | by right].
    + naive_solver.
  - rewrite Hqt, (inv_queue_total v Hi), length_app. cbn. lia.
Qed.

(** A queued message leaves the queue. *)
Lemma moves_from_queue v id r r' a b st :
  mailbox_inv v -> v_Queue v = a ++ id :: b ->
  v_Records v !! id = Some r -> record_ok (v_Policy v) id r' ->
  message_evolves (mp_MaxAttempts (v_Policy v)) r r' ->
  mr_State r' <> StateQueued ->
  ms_QueueTotal st = maxInt 0 (ms_QueueTotal (v_Stats v) - 1) ->
  Forall (fun fg => fg.2 st = fg.2 (v_Stats v) - fg.1 r + fg.1 r') counted ->
  moves v (mkView (<[id := r']> (v_Records v)) (a ++ b) (v_Idempotency v) st (v_Policy v)).
Proof.
  intros Hi Hq Hid Hok Hev Hs' Hqt Hc.
  pose proof (inv_nodup v Hi) as Hnd. rewrite Hq in Hnd.
  assert (Hnd' : NoDup (id :: a ++ b)) by (by rewrite Permutation_middle).
  apply NoDup_cons in Hnd' as [Hnin Hnd']. eapply moves_write; try done.
  - intros x. rewrite Hq, !elem_of_app, elem_of_cons. split; [|naive_solver].
    intros Hx. left. split; [|tauto]. intros ->. apply Hnin. by rewrite elem_of_app.
  - rewrite Hqt, (inv_queue_total v Hi), Hq, !length_app. unfold maxInt. cbn.
    destruct (Z.leb_spec (Z.of_nat (length a + S (length b)) - 1) 0); lia.
Qed.

(** ** Events and history leave the view alone *)

Lemma view_appendHistory s t r reason o : view (appendHistory s t r reason o) = view s.
Proof. by destruct s. Qed.

Lemma view_emit wall s t r reason o : view (emitLifecycleEvent wall s t r reason o) = view s.
Proof. unfold emitLifecycleEvent. case_match; by destruct s. Qed.

Lemma emit_Records wall s t r reason o :
  m_Records (emitLifecycleEvent wall s t r reason o) = m_Records s.
Proof. apply (f_equal v_Records (view_emit wall s t r reason o)). Qed.

Lemma emit_Queue wall s t r reason o :
  m_Queue (emitLifecycleEvent wall s t r reason o) = m_Queue s.
Proof. apply (f_equal v_Queue (view_emit wall s t r reason o)). Qed.

Lemma emit_Idempotency wall s t r reason o :
  m_Idempotency (emitLifecycleEvent wall s t r reason o) = m_Idempotency s.
Proof. apply (f_equal v_Idempotency (view_emit wall s t r reason o)). Qed.

Lemma emit_Stats wall s t r reason o :
  m_Stats (emitLifecycleEvent wall s t r reason o) = m_Stats s.
Proof. apply (f_equal v_Stats (view_emit wall s t r reason o)). Qed.

Lemma emit_Policy wall s t r reason o :
  m_Policy (emitLifecycleEvent wall s t r reason o) = m_Policy s.
Proof. apply (f_equal v_Policy (view_emit wall s t r reason o)). Qed.

#[export] Hint Rewrite view_emit view_appendHistory emit_Records emit_Queue emit_Idempotency
  emit_Stats emit_Policy : go.

Lemma view_put s id r : view (putRecord s id r) = mkView (<[id := r]> (m_Records s)) (m_Queue s)
  (m_Idempotency s) (m_Stats s) (m_Policy s).
Proof. by destruct s. Qed.

Lemma view_stats s f : view (updStats s f) = mkView (m_Records s) (m_Queue s)
  (m_Idempotency s) (f (m_Stats s)) (m_Policy s).
Proof. by destruct s. Qed.

(** The projections of a state with a known view. *)
Lemma view_eq s R Q I St P : view s = mkView R Q I St P ->
  m_Records s = R /\ m_Queue s = Q /\ m_Idempotency s = I /\ m_Stats s = St /\ m_Policy s = P.
Proof. by intros [= <- <- <- <- <-]. Qed.

(** An in-flight message is counted, so the guarded decrement is exact. *)
Lemma inflight_decrement v id r :
  mailbox_inv v -> v_Records v !! id = Some r -> mr_State r = StateInFlight ->
  maxInt 0 (ms_InFlightTotal (v_Stats v) - 1) = ms_InFlightTotal (v_Stats v) - 1.
Proof.
  intros Hi Hr Hs. pose proof (inv_counts v Hi) as Hc.
  apply Forall_cons in Hc as [Hc _]. cbn in Hc. rewrite Hc.
  pose proof (map_sum_pos (in_state StateInFlight) (v_Records v) id r) as Hpos.
  assert (1 <= map_sum (in_state StateInFlight) (v_Records v)).
  { transitivity (in_state StateInFlight r); [unfold in_state; by rewrite decide_True|].
    apply Hpos; [|done]. intros b. unfold in_state. case_decide; lia. }
  unfold maxInt. destruct (Z.leb_spec (map_sum (in_state StateInFlight) (v_Records v) - 1) 0); lia.
Qed.

(** Closes the bookkeeping of the counters once the states are known. *)
Ltac count_tac :=
  repeat (apply Forall_cons; split); [..|apply Forall_nil; exact I];
  cbn; unfold in_state; cbn; repeat (case_decide; try congruence); lia.

Lemma clearLease_touch r : clearLease r <| mr_UpdatedAt := mr_UpdatedAt r |> = clearLease r.
Proof. by destruct r. Qed.

(** The canonical reasons carry no white space, and neither do the dead-letter
    reasons built from them. *)
Lemma canonical_trimmed reason fallback :
  TrimSpace (CanonicalizeLifecycleReason reason fallback) = CanonicalizeLifecycleReason reason fallback
  /\ TrimSpace (deadLetterReason LifecycleReasonRetryExhausted (CanonicalizeLifecycleReason reason fallback))
     = deadLetterReason LifecycleReasonRetryExhausted (CanonicalizeLifecycleReason reason fallback).
Proof.
  pose proof (CanonicalizeLifecycleReason_canonical reason fallback) as Hc. revert Hc.
  generalize (CanonicalizeLifecycleReason reason fallback). intros c Hc.
  unfold LifecycleCanonicalReasons in Hc. set_unfold in Hc. destruct_or! Hc; subst; done.
Qed.

(** ** Settling operations *)

Lemma requireInflightRecord_spec s mid cid rec :
  requireInflightRecord s mid cid = (Some rec, None) ->
  m_Records s !! TrimSpace mid = Some rec /\ mr_State rec = StateInFlight
  /\ (TrimSpace cid = "" \/ mr_ConsumerID rec = TrimSpace cid).
Proof.
  unfold requireInflightRecord. destruct (m_Records s !! TrimSpace mid) as [r|]; [|done].
  case_bool_decide as Hs; [|done]. cbn.
  destruct (str_eqb_spec (TrimSpace cid) ""), (str_eqb_spec (mr_ConsumerID r) (TrimSpace cid));
    cbn; intros [= <-]; auto.
Qed.

(** The fields a settling operation does not touch keep what [record_ok] says
    of them. *)
Lemma record_ok_settle p id r r' :
  record_ok p id r -> mr_Envelope r' = mr_Envelope r -> mr_DeliveryAttempt r' = mr_DeliveryAttempt r ->
  mr_State r' <> StateInFlight -> knownState (mr_State r') = true ->
  (mr_State r' = StateQueued -> mr_DeliveryAttempt r' < mp_MaxAttempts p) ->
  mr_InFlightSince r' = 0 /\ mr_LastHeartbeatAt r' = 0 /\ mr_LeaseExpiresAt r' = 0 ->
  TrimSpace (mr_ConsumerID r') = mr_ConsumerID r' ->
  TrimSpace (mr_LastError r') = mr_LastError r' ->
  TrimSpace (mr_DeadLetterReason r') = mr_DeadLetterReason r' ->
  mr_CreatedAt r' = mr_CreatedAt r -> mr_UpdatedAt r' <> 0 ->
  record_ok p id r'.
Proof.
  intros [He Hid Ha Hq Hf Hl Hk Ht [Hc Hu]] E1 E2 Hs Hk' Hq' Hl' T1 T2 T3 C U.
  constructor; rewrite ?E1, ?E2; rewrite ?E2 in *; try done. by rewrite C.
Qed.

Lemma record_ok_touch p id r t :
  record_ok p id r -> t <> 0 -> record_ok p id (r <| mr_UpdatedAt := t |>).
Proof. intros [He Hid Ha Hq Hf Hl Hk Ht [Hc Hu]] H. by constructor. Qed.

Section settling.
Context (wall : Time) (Hwall : wall <> 0).

Lemma heartbeat_moves s mid cid now d :
  mailbox_inv (view s) -> moves (view s) (view (heartbeat wall s mid cid now d).1).
Proof.
  intros Hi. unfold heartbeat.
  destruct (requireInflightRecord s mid cid) as [[rec|] [e|]] eqn:E; try by split.
  apply requireInflightRecord_spec in E as (Hr & Hs & _). cbn [fst]. rewrite view_put.
  pose proof (inv_records _ Hi _ _ Hr) as Hok. pose proof (or_now_nonzero wall now Hwall) as Hnz.
  eapply (moves_outside_queue (view s)); try done; cbn; try congruence.
  - destruct Hok as [He Hid Ha Hq Hf Hl Hk Ht [Hc Hu]]. by constructor.
  - by apply message_evolves_still.
  - count_tac.
Qed.

Lemma ack_moves s mid cid now :
  mailbox_inv (view s) -> moves (view s) (view (ack wall s mid cid now).1).
Proof.
  intros Hi. unfold ack.
  destruct (requireInflightRecord s mid cid) as [r [e|]] eqn:E;
    [destruct r; cbn; repeat case_match; by split|].
  destruct r as [rec|]; [|by split].
  apply requireInflightRecord_spec in E as (Hr & Hs & _). cbn [fst].
  rewrite view_emit, view_stats. pose proof (inv_records _ Hi _ _ Hr) as Hok.
  pose proof (or_now_nonzero wall now Hwall) as Hnz.
  eapply (moves_outside_queue (view s)); try done; cbn; try congruence.
  - apply (record_ok_settle _ _ rec); try done; apply Hok.
  - apply message_evolves_step; try done. unfold phase. cbn. rewrite Hs. constructor.
  - pose proof (inflight_decrement (view s) _ _ Hi Hr Hs) as Hd. cbn in Hd. rewrite ?Hd.
    count_tac.
Qed.

Variables (reason : string) (now : Time) (opts : ActionOptions).
Let code := CanonicalizeLifecycleReason reason LifecycleReasonHandlerError.

(** A nacked record of the map, up to its update time. *)
Definition nacked (s : mailboxState) (id : string) (rec : MessageRecord) : Prop :=
  exists r0, m_Records s !! id = Some r0 /\ mr_State r0 = StateNacked
  /\ record_ok (m_Policy s) id rec /\ phase rec = phase r0
  /\ mr_Envelope rec = mr_Envelope r0 /\ mr_CreatedAt rec = mr_CreatedAt r0.

Lemma deadLetter_moves s id rec :
  mailbox_inv (view s) -> nacked s id rec -> mp_MaxAttempts (m_Policy s) <= mr_DeliveryAttempt rec ->
  moves (view s) (view (deadLetter wall s id rec code opts).1).
Proof.
  intros Hi (r0 & Hr & Hs & Hok & Hph & He & Hc) Hmax. unfold deadLetter. cbn [fst].
  rewrite view_emit, view_stats. injection Hph as Hst Hat.
  pose proof (canonical_trimmed reason LifecycleReasonHandlerError) as [Hcode Hdl].
  pose proof (ok_lease _ _ _ Hok ltac:(congruence)) as Hl.
  eapply (moves_outside_queue (view s)); try done; cbn; try congruence.
  - apply (record_ok_settle _ _ rec); try done; apply Hok.
  - apply message_evolves_step; [|done..]. unfold phase. cbn. rewrite Hs, <-Hat.
    by constructor.
  - count_tac.
Qed.

Lemma exhaust_moves s id rec :
  mailbox_inv (view s) -> nacked s id rec -> mp_MaxAttempts (m_Policy s) <= mr_DeliveryAttempt rec ->
  moves (view s) (view (exhaust wall s id rec code now opts).1).
Proof.
  intros Hi (r0 & Hr & Hs & Hok & Hph & He & Hc) Hmax. unfold exhaust. cbn [fst].
  rewrite view_emit, view_stats. injection Hph as Hst Hat.
  pose proof (canonical_trimmed reason LifecycleReasonHandlerError) as [Hcode Hdl].
  pose proof (ok_lease _ _ _ Hok ltac:(congruence)) as Hl.
  pose proof (or_now_nonzero wall now Hwall) as Hnz.
  eapply (moves_outside_queue (view s)); try done; cbn; try congruence.
  - apply (record_ok_settle _ _ rec); try done; apply Hok.
  - apply message_evolves_step; [|done..]. unfold phase. cbn. rewrite Hs, <-Hat.
    by constructor.
  - count_tac.
Qed.

Lemma backToQueue_moves s id rec :
  mailbox_inv (view s) -> nacked s id rec -> mr_DeliveryAttempt rec < mp_MaxAttempts (m_Policy s) ->
  moves (view s) (view (backToQueue wall s id rec code now opts).1).
Proof.
  intros Hi (r0 & Hr & Hs & Hok & Hph & He & Hc) Hmax. unfold backToQueue. cbn [fst].
  rewrite view_emit, view_stats. injection Hph as Hst Hat.
  pose proof (or_now_nonzero wall now Hwall) as Hnz. cbn. rewrite (ok_id _ _ _ Hok).
  eapply (moves_to_queue (view s)); try done; cbn; try congruence; try lia.
  - apply (record_ok_settle _ _ rec); try done; apply Hok.
  - apply message_evolves_step; [|done..]. unfold phase. cbn. rewrite Hs, <-Hat.
    by constructor.
  - count_tac.
Qed.

Lemma requeueNacked_moves s id rec :
  mailbox_inv (view s) -> nacked s id rec ->
  moves (view s) (view (requeueNacked wall s id rec code now opts).1).
Proof.
  intros Hi Hn. unfold requeueNacked.
  destruct (Z.leb_spec (mp_MaxAttempts (m_Policy s)) (mr_DeliveryAttempt rec)); [|by apply backToQueue_moves].
  destruct (mp_DLQEnabled (m_Policy s)); [|by apply exhaust_moves].
  apply deadLetter_moves; [done| |done].
  destruct Hn as (r0 & Hr & Hs & Hok & Hph & He & Hc).
  exists r0. do 2 (split; [done|]). split; [|done].
  by apply record_ok_touch, or_now_nonzero.
Qed.

(** The two ways the source writes a nacked delivery: [nack] also sets the
    update time. *)
Lemma nack_write_moves s id r0 t :
  mailbox_inv (view s) -> m_Records s !! id = Some r0 -> mr_State r0 = StateInFlight -> t <> 0 ->
  let rec := clearLease (r0 <| mr_State := StateNacked |> <| mr_LastError := code |>)
               <| mr_UpdatedAt := t |> in
  let s' := emitLifecycleEvent wall
              (updStats (putRecord s id rec)
                 (fun st => leaveInFlight (st <| ms_NackTotal ::= Z.succ |>)))
              TransitionNack rec code opts in
  moves (view s) (view s') /\ nacked s' id rec.
Proof.
  intros Hi Hr Hs Ht rec s'.
  pose proof (canonical_trimmed reason LifecycleReasonHandlerError) as [Hcode _].
  pose proof (inv_records _ Hi _ _ Hr) as Hok.
  assert (Hok' : record_ok (m_Policy s) id rec)
    by (apply (record_ok_settle _ _ r0); try done; apply Hok).
  assert (Hv : view s' = mkView (<[id := rec]> (m_Records s)) (m_Queue s) (m_Idempotency s)
                 (leaveInFlight (m_Stats s <| ms_NackTotal ::= Z.succ |>)) (m_Policy s))
    by (unfold s'; by rewrite view_emit, view_stats).
  split.
  - rewrite Hv. eapply (moves_outside_queue (view s)); try done; cbn; try congruence.
    + apply message_evolves_step; [|done..]. unfold phase. cbn. rewrite Hs. constructor.
    + pose proof (inflight_decrement (view s) _ _ Hi Hr Hs) as Hd. cbn in Hd. rewrite ?Hd.
      count_tac.
  - apply view_eq in Hv as (Hr' & _ & _ & _ & Hp').
    exists rec. by rewrite Hr', Hp', lookup_insert_eq.
Qed.

Lemma requeue_moves s mid cid :
  mailbox_inv (view s) -> moves (view s) (view (requeue wall s mid cid reason now opts).1).
Proof.
  intros Hi. unfold requeue. destruct (m_Records s !! TrimSpace mid) as [r0|] eqn:Hr; [|by split].
  pose proof (inv_records _ Hi _ _ Hr) as Hok. destruct (mr_State r0) eqn:Hs; try by split.
  - case_match; [by split|].
    set (r1 := r0 <| mr_State := StateNacked |> <| mr_LastError := code |>).
    pose proof (nack_write_moves s _ r0 (mr_UpdatedAt r1) Hi Hr Hs (proj2 (ok_times _ _ _ Hok))) as H1.
    cbv zeta in H1. fold r1 in H1. rewrite clearLease_touch in H1.
    unfold nackInFlight. fold code. fold r1. destruct H1 as [H1 H2]. cbv beta zeta.
    destruct (requeueNacked _ _ _ _ _ _ _) as [s2 r2] eqn:E2. cbn [fst].
    eapply moves_trans; [exact H1|]. intros Hi1.
    pose proof (requeueNacked_moves _ _ _ Hi1 H2) as H3. unfold code in *. by rewrite E2 in H3.
  - destruct (requeueNacked _ _ _ _ _ _ _) as [s2 r2] eqn:E2. cbn [fst].
    pose proof (requeueNacked_moves s (TrimSpace mid) r0 Hi) as H3. unfold code in H3. rewrite E2 in H3.
    apply H3. by exists r0.
Qed.

Lemma nack_moves s mid cid :
  mailbox_inv (view s) -> moves (view s) (view (nack wall s mid cid reason now opts).1).
Proof.
  intros Hi. unfold nack.
  destruct (requireInflightRecord s mid cid) as [[r0|] [e|]] eqn:E; try by split.
  - case_match; by split.
  - apply requireInflightRecord_spec in E as (Hr & Hs & _).
    pose proof (nack_write_moves s _ r0 (or_now wall now) Hi Hr Hs (or_now_nonzero _ _ Hwall)) as [H1 H2].
    cbv zeta in H1, H2 |- *. fold code.
    match goal with |- context [mp_MaxAttempts (m_Policy ?x)] => set (s1 := x) in * end.
    set (rec := clearLease _ <| mr_LastError := code |> <| mr_UpdatedAt := _ |>) in *.
    case_match eqn:Eb; [|exact H1].
    apply andb_true_iff in Eb as [Emax _]. apply Z.leb_le in Emax.
    destruct (deadLetter _ _ _ _ _ _) as [s2 r2] eqn:E2. cbn [fst].
    eapply moves_trans; [exact H1|]. intros Hi1.
    pose proof (deadLetter_moves s1 (TrimSpace mid) rec Hi1 H2 Emax) as H3. by rewrite E2 in H3.
Qed.
End settling.

(** ** Publish *)

Lemma existingRecord_None s e :
  mailbox_inv (view s) -> existingRecord s e = None ->
  m_Records s !! ev_MessageID e = None /\ m_Idempotency s !! ev_IdempotencyKey e = None.
Proof.
  intros Hi. unfold existingRecord. destruct (m_Idempotency s !! ev_IdempotencyKey e) as [id|] eqn:Hk; [|done].
  apply (inv_keys _ Hi) in Hk as (r & Hr & _). cbn in Hr |- *. by rewrite Hr.
Qed.

Lemma moves_new v id key r st :
  mailbox_inv v -> v_Records v !! id = None -> v_Idempotency v !! key = None ->
  record_ok (v_Policy v) id r -> mr_State r = StateQueued -> mr_DeliveryAttempt r = 0 ->
  ev_IdempotencyKey (mr_Envelope r) = key ->
  ms_QueueTotal st = ms_QueueTotal (v_Stats v) + 1 ->
  Forall (fun fg => fg.2 st = fg.2 (v_Stats v) + fg.1 r) counted ->
  moves v (mkView (<[id := r]> (v_Records v)) (v_Queue v ++ [id]) (<[key := id]> (v_Idempotency v))
             st (v_Policy v)).
Proof.
  intros [Hp Hr Hn Hq Hqt Hc Hk] Hid Hkey Hok Hs Ha Hek Hqt' Hc'.
  assert (Hnin : id ∉ v_Queue v) by (intros (rx & Hx & _)%Hq; congruence).
  split.
  - constructor; cbn; try done.
    + intros x rx [[<- <-]|[Hx Hl]]%lookup_insert_Some; [done | by apply Hr].
    + apply NoDup_app. split; [done|]. split; [|apply NoDup_singleton].
      by intros x Hx ->%list_elem_of_singleton.
    + intros x. rewrite elem_of_app, list_elem_of_singleton, Hq. split.
      * intros [(rx & Hl & Hsx)| ->]; [|exists r; by rewrite lookup_insert_eq].
        exists rx. rewrite lookup_insert_ne; [done | congruence].
      * intros (rx & [[<- <-]|[Hx Hl]]%lookup_insert_Some & Hsx); [by right | left; eauto].
    + rewrite Hqt', Hqt, length_app. cbn. lia.
    + apply Forall_forall. intros fg Hfg. rewrite map_sum_insert_fresh by done.
      rewrite Forall_forall in Hc, Hc'. rewrite (Hc' _ Hfg), (Hc _ Hfg). lia.
    + intros k x. rewrite lookup_insert_Some, Hk. split.
      * intros [[<- <-]|[Hne (rx & Hl & Hkx)]]; [exists r; by rewrite lookup_insert_eq|].
        exists rx. rewrite lookup_insert_ne; [done | congruence].
      * intros (rx & [[<- <-]|[Hx Hl]]%lookup_insert_Some & Hkx); [by left; rewrite Hek in Hkx|].
        right. split; [|eauto]. intros ->.
        assert (v_Idempotency v !! k = Some x) by (apply Hk; eauto). congruence.
  - split; [done|]. intros x rx Hx. exists rx. cbn.
    rewrite lookup_insert_ne; [done | congruence].
Qed.

Section sweeps.
Context (wall : Time) (Hwall : wall <> 0).

Lemma policy_attempts s : mailbox_inv (view s) -> 1 <= mp_MaxAttempts (m_Policy s).
Proof.
  intros Hi. pose proof (inv_policy _ Hi) as Hp. cbn in Hp. rewrite <-Hp.
  unfold normalizePolicy. cbn. case_match; lia.
Qed.

Lemma publish_moves s e now :
  mailbox_inv (view s) -> moves (view s) (view (publish wall s e now).1).
Proof.
  intros Hi. unfold publish. destruct (normalizeEnvelope e) as [env|] eqn:He; [|by split].
  apply normalizeEnvelope_normal in He. pose proof (or_now_nonzero wall now Hwall) as Hnz.
  destruct (existingRecord s env) as [r|] eqn:Hex.
  - case_match; [by split|]. cbn [fst]. rewrite view_stats. split; [|by apply evolves_same_records].
    destruct Hi as [Hp Hr Hn Hq Hqt Hc Hk]. constructor; try done.
    unfold counted in *. by decompose_Forall_hyps; repeat constructor.
  - apply existingRecord_None in Hex as [Hid Hkey]; [|done]. unfold publishNew. cbn [fst].
    rewrite view_appendHistory, view_stats.
    match goal with |- context [if ?b then ?x else env] => set (env' := if b then x else env) end.
    assert (Henv : envelope_normal env' /\ ev_MessageID env' = ev_MessageID env
                   /\ ev_IdempotencyKey env' = ev_IdempotencyKey env).
    { unfold env'. case_match; [|done]. split; [by apply envelope_normal_set_expire | done]. }
    clearbody env'. destruct Henv as (Hn & Hm & Hk). rewrite <-Hm in Hid. rewrite <-Hk in Hkey.
    pose proof (policy_attempts s Hi) as Hmax.
    eapply (moves_new (view s)); try done; cbn; try lia; [|count_tac].
    by constructor; cbn; try done; lia.
Qed.

(** *** Expiry of queued messages *)

(** The view with another queue: what the loop of [expireQueued] will have
    when it stores the kept entries. *)
Definition withQueue (s : mailboxState) (q : list string) : View :=
  mkView (m_Records s) q (m_Idempotency s) (m_Stats s) (m_Policy s).

Definition expiredRecord (dlq : bool) (rec : MessageRecord) (now : Time) : MessageRecord :=
  clearLease
    (if dlq then rec <| mr_UpdatedAt := now |> <| mr_State := StateDeadLetter |>
                     <| mr_DeadLetterReason := deadLetterReason LifecycleReasonExpired "" |>
     else rec <| mr_UpdatedAt := now |> <| mr_State := StateExpired |>).

Definition expiredStats (dlq : bool) (st : Stats) : Stats :=
  let st := st <| ms_QueueTotal ::= fun n => maxInt 0 (n - 1) |> <| ms_ExpiredTotal ::= Z.succ |> in
  if dlq then st <| ms_DeadLetterTotal ::= Z.succ |> else st.

Lemma view_expireRecord s id rec now :
  let dlq := mp_DLQEnabled (m_Policy s) in
  view (expireRecord wall s id rec now)
  = mkView (<[id := expiredRecord dlq rec now]> (m_Records s)) (m_Queue s) (m_Idempotency s)
      (expiredStats dlq (m_Stats s)) (m_Policy s).
Proof.
  unfold expireRecord, expiredRecord, expiredStats. cbn [m_Policy updStats set_field].
  change (m_Policy (updStats s _)) with (m_Policy s).
  destruct (mp_DLQEnabled (m_Policy s)); cbv zeta; rewrite view_emit, view_put; [|done].
  by autorewrite with go.
Qed.

Lemma expireRecord_moves s id rec now a b :
  mailbox_inv (withQueue s (a ++ id :: b)) -> m_Records s !! id = Some rec ->
  mr_State rec = StateQueued -> now <> 0 ->
  moves (withQueue s (a ++ id :: b)) (withQueue (expireRecord wall s id rec now) (a ++ b)).
Proof.
  intros Hi Hr Hs Hnz. pose proof (inv_records _ Hi _ _ Hr) as Hok.
  pose proof (ok_lease _ _ _ Hok ltac:(congruence)) as Hl.
  pose proof (view_expireRecord s id rec now) as Hv. cbv zeta in Hv.
  apply view_eq in Hv as (HR & _ & HI & HS & HP).
  unfold withQueue at 2. rewrite HR, HI, HS, HP.
  eapply (moves_from_queue (withQueue s (a ++ id :: b))); try done;
    destruct (mp_DLQEnabled (m_Policy s)); try done.
  - apply (record_ok_settle _ _ rec); try done; apply Hok.
  - apply (record_ok_settle _ _ rec); try done; apply Hok.
  - apply message_evolves_step; [|done..]. unfold phase. cbn. rewrite Hs. constructor.
  - apply message_evolves_step; [|done..]. unfold phase. cbn. rewrite Hs. constructor.
  - count_tac.
  - count_tac.
Qed.

Lemma mailbox_queue_entry s q e :
  mailbox_inv (withQueue s q) -> e ∈ q ->
  exists r, m_Records s !! e = Some r /\ mr_State r = StateQueued /\ TrimSpace e = e.
Proof.
  intros Hi (r & Hr & Hs)%(inv_queue _ Hi). exists r. do 2 (split; [done|]).
  destruct (inv_records _ Hi _ _ Hr) as [He <- _ _ _ _ _ _ _]. by apply envelope_normal_id.
Qed.

Lemma expire_fold_moves now rest s f m :
  now <> 0 -> mailbox_inv (withQueue s (f ++ rest)) ->
  let acc := foldl (expireStep wall now) (s, f, m) rest in
  moves (withQueue s (f ++ rest)) (withQueue acc.1.1 acc.1.2).
Proof.
  intros Hnz. revert s f m. induction rest as [|e rest IH]; intros s f m Hi.
  { cbn. rewrite app_nil_r in *. by split. }
  destruct (mailbox_queue_entry s _ e Hi) as (r & Hr & Hs & He); [set_solver|].
  cbn [foldl]. unfold expireStep at 2 4. rewrite He, Hr, bool_decide_true by done. cbn [negb].
  destruct (isRecordExpired r now); cbn [negb].
  - eapply moves_trans; [by apply expireRecord_moves|]. intros Hi'. by apply IH.
  - assert (E : f ++ e :: rest = (f ++ [e]) ++ rest) by (by rewrite <-app_assoc).
    rewrite E in *. by apply IH.
Qed.

Lemma expireQueued_moves s now :
  now <> 0 -> mailbox_inv (view s) -> moves (view s) (view (expireQueued wall s now).1).
Proof.
  intros Hnz Hi. unfold expireQueued. destruct (m_Queue s) as [|e q] eqn:Hq; [by split|].
  rewrite <-Hq in *. pose proof (expire_fold_moves now (m_Queue s) s [] false Hnz Hi) as H.
  cbn zeta in H. destruct (foldl _ _ _) as [[s' f] m]. exact H.
Qed.

(** *** Reclaim of stale deliveries *)

Lemma reclaim_fold_moves now ids s m :
  mailbox_inv (view s) ->
  moves (view s) (view (foldl (reclaimStep wall now) (s, m) ids).1).
Proof.
  revert s m. induction ids as [|id ids IH]; intros s m Hi; [by split|]. cbn [foldl].
  unfold reclaimStep at 2. destruct (requeue _ _ _ _ _ _ _) as [s' r] eqn:E.
  pose proof (requeue_moves wall Hwall LifecycleReasonLeaseExpired now (mkActionOptions true false) s id "" Hi) as H.
  rewrite E in H. eapply moves_trans; [exact H|]. intros Hi'. by apply IH.
Qed.

Lemma reclaimStaleInFlight_moves s now d :
  mailbox_inv (view s) -> moves (view s) (view (reclaimStaleInFlight wall s now d).1).
Proof.
  intros Hi. unfold reclaimStaleInFlight. case_match; [by split|]. by apply reclaim_fold_moves.
Qed.

Lemma consumeSweeps_moves s now d reclaim :
  now <> 0 -> mailbox_inv (view s) -> moves (view s) (view (consumeSweeps wall s now d reclaim).1).
Proof.
  intros Hnz Hi. unfold consumeSweeps.
  pose proof (expireQueued_moves s now Hnz Hi) as H1.
  destruct (expireQueued wall s now) as [s1 m1]. destruct reclaim; [|done].
  pose proof (reclaimStaleInFlight_moves s1 now d) as H2.
  destruct (reclaimStaleInFlight wall s1 now d) as [s2 m2].
  by eapply moves_trans.
Qed.

(** *** Delivery *)

Lemma deliveredRecord_ok p id r cid now d :
  record_ok p id r -> mr_State r = StateQueued -> cid <> "" -> TrimSpace cid = cid -> now <> 0 ->
  record_ok p id (deliveredRecord r cid now d).
Proof.
  intros [He Hid Ha Hq Hf Hl Hk (T1 & T2 & T3) [Hc Hu]] Hs Hcid Ht Hnz. specialize (Hq Hs).
  constructor; cbn; try done; try lia.
  - apply envelope_normal_set_attempt; [lia|done].
  - split; [lia|done].
Qed.

Lemma deliver_moves s i id cid rec now d :
  mailbox_inv (view s) -> m_Queue s !! i = Some id -> m_Records s !! id = Some rec ->
  mr_State rec = StateQueued -> cid <> "" -> TrimSpace cid = cid -> now <> 0 ->
  moves (view s) (view (deliver wall s i id cid rec now d).1).
Proof.
  intros Hi Hq Hr Hs Hcid Ht Hnz. pose proof (inv_records _ Hi _ _ Hr) as Hok.
  unfold deliver. cbn [fst]. rewrite view_emit, view_stats. cbn. rewrite delete_take_drop.
  eapply (moves_from_queue (view s)); try done.
  - cbn. by apply take_drop_middle in Hq as ->.
  - by apply deliveredRecord_ok.
  - split; [|done]. apply rtc_once. unfold phase. cbn. rewrite Hs. constructor.
    by apply (ok_queued _ _ _ Hok).
  - count_tac.
Qed.

(** The entry [consume] selects: queued, and the first that is due. *)
Lemma consume_selects s now i e :
  mailbox_inv (view s) ->
  list_find (fun e => entryDeliverable s now e = true) (m_Queue s) = Some (i, e) ->
  m_Queue s !! i = Some e /\ TrimSpace e = e
  /\ (exists r, m_Records s !! e = Some r /\ mr_State r = StateQueued /\ deliverable now r = true)
  /\ forall j x, (j < i)%nat -> m_Queue s !! j = Some x -> entryDeliverable s now x = false.
Proof.
  intros Hi (Hq & Hd & Hmin)%list_find_Some.
  destruct (mailbox_queue_entry s (m_Queue s) e Hi) as (r & Hr & Hs & He); [by eapply list_elem_of_lookup_2|].
  split; [done|]. split; [done|]. split.
  - exists r. unfold entryDeliverable in Hd. by rewrite He, Hr in Hd.
  - intros j x Hj Hx. apply not_true_is_false. by eapply Hmin.
Qed.

Lemma consume_moves s cid now d reclaim :
  mailbox_inv (view s) -> moves (view s) (view (consume wall s cid now d reclaim).1).
Proof.
  intros Hi. unfold consume. destruct (str_eqb_spec (TrimSpace cid) "") as [|Hcid]; [by split|].
  pose proof (consumeSweeps_moves s (or_now wall now) d reclaim (or_now_nonzero _ _ Hwall) Hi) as H1.
  destruct (consumeSweeps wall s (or_now wall now) d reclaim) as [s1 m]. cbn [fst] in H1.
  eapply moves_trans; [exact H1|]. intros Hi1.
  destruct (list_find _ _) as [[i e]|] eqn:Ef; [|by split].
  apply consume_selects in Ef as (Hq & He & (r & Hr & Hs & _) & _); [|done].
  rewrite He, Hr.
  pose proof (deliver_moves s1 i e (TrimSpace cid) r (or_now wall now) d Hi1 Hq Hr Hs Hcid
                (TrimSpace_idemp _) (or_now_nonzero _ _ Hwall)) as H2.
  by destruct (deliver _ _ _ _ _ _ _ _).
Qed.
End sweeps.

(** ** Calls and reachable states *)

(** One call of the store; restoring is treated apart. *)
Inductive call : Type :=
| CallPublish (e : Envelope) (now : Time)
| CallConsume (consumerID : string) (now : Time) (inflightTimeout : Duration) (reclaim : bool)
| CallHeartbeat (messageID consumerID : string) (now : Time) (inflightTimeout : Duration)
| CallAck (messageID consumerID : string) (now : Time)
| CallNack (messageID consumerID reason : string) (now : Time) (opts : ActionOptions)
| CallRequeue (messageID consumerID reason : string) (now : Time) (opts : ActionOptions)
| CallDrain
| CallTrace (enabled : bool).

(** The state after a call during which [time.Now] reads [wall]. *)
Definition exec (s : mailboxState) (wc : Time * call) : mailboxState :=
  let wall := wc.1 in
  match wc.2 with
  | CallPublish e now => (publish wall s e now).1
  | CallConsume c now d b => (consume wall s c now d b).1
  | CallHeartbeat m c now d => (heartbeat wall s m c now d).1
  | CallAck m c now => (ack wall s m c now).1
  | CallNack m c r now o => (nack wall s m c r now o).1
  | CallRequeue m c r now o => (requeue wall s m c r now o).1
  | CallDrain => (drainLifecycleEvents s).1
  | CallTrace b => setTraceEvents s b
  end.

Definition run (s : mailboxState) (calls : list (Time * call)) : mailboxState := foldl exec s calls.

(** The clock never reads the zero time. *)
Definition clocked (calls : list (Time * call)) : Prop := Forall (fun wc => wc.1 <> 0) calls.

Lemma exec_moves s wc : wc.1 <> 0 -> mailbox_inv (view s) -> moves (view s) (view (exec s wc)).
Proof.
  destruct wc as [wall c]. cbn [fst]. intros Hw Hi. destruct c; cbn [exec fst snd].
  - by apply publish_moves.
  - by apply consume_moves.
  - by apply heartbeat_moves.
  - by apply ack_moves.
  - by apply nack_moves.
  - by apply requeue_moves.
  - by destruct s.
  - destruct enabled; by destruct s.
Qed.

Lemma run_moves s calls :
  clocked calls -> mailbox_inv (view s) -> moves (view s) (view (run s calls)).
Proof.
  intros Hc. revert s. induction Hc as [|c calls Hw _ IH]; intros s Hi; [by split|].
  eapply moves_trans; [by apply exec_moves|]. intros Hi'. by apply IH.
Qed.

Lemma normalizePolicy_idemp p : normalizePolicy (normalizePolicy p) = normalizePolicy p.
Proof.
  destruct p as [n i m j t d]. unfold normalizePolicy, Millisecond.
  cbn [mp_MaxAttempts mp_BackoffInitial mp_BackoffMax mp_JitterRatio mp_TTL mp_DLQEnabled].
  assert (Hz : f64_ltb f64_zero f64_zero = false /\ f64_ltb f64_one f64_zero = false
               /\ f64_ltb f64_one f64_one = false) by done.
  destruct Hz as (Z1 & Z2 & Z3). f_equal.
  - destruct (Z.leb_spec n 0); [done|]. case_match; lia.
  - repeat case_match; lia.
  - repeat case_match; lia.
  - destruct (f64_ltb j f64_zero) eqn:E1; rewrite ?Z1, ?Z2; [done|].
    destruct (f64_ltb f64_one j) eqn:E2; rewrite ?Z2, ?Z3; [done|]. by rewrite E1, E2.
  - repeat case_match; lia.
Qed.

Lemma newMailboxState_inv sid backend p : mailbox_inv (view (newMailboxState sid backend p)).
Proof.
  constructor; cbn; try done.
  - apply normalizePolicy_idemp.
  - constructor.
  - intros id. split; [by intros ?%elem_of_nil | by intros (r & ? & _)].
  - repeat constructor.
  - intros k id. split; [done | by intros (r & ? & _)].
Qed.
