(* ===== verification/MailboxSweeps.v ===== *)
(** * Mailbox: the sweeps and the settling operations as map updates

    What [expireQueued] and [reclaimStaleInFlight] do to the whole map of
    records, as one [fmap]; what [requeue] writes; which records [consume] can
    touch. *)
From S2P Require Import Prelude GoStrings GoNum MailboxTypes MailboxState MailboxSnapshot.
From S2P Require Import MailboxInv.

Local Open Scope bool_scope.
Local Open Scope string_scope.
Local Open Scope list_scope.
Local Open Scope Z_scope.

(** ** Expiry *)

(** What the expiry sweep makes of a record. *)
Definition afterExpiry (p : Policy) (now : Time) (r : MessageRecord) : MessageRecord :=
  if bool_decide (mr_State r = StateQueued) && isRecordExpired r now
  then expiredRecord (mp_DLQEnabled p) r now else r.

Definition stillQueued (R : gmap string MessageRecord) (now : Time) (id : string) : bool :=
  match R !! id with Some r => negb (isRecordExpired r now) | None => false end.

Section sweeps.
Context (wall : Time).

Lemma expireRecord_records s id rec now :
  m_Records (expireRecord wall s id rec now)
  = <[id := expiredRecord (mp_DLQEnabled (m_Policy s)) rec now]> (m_Records s).
Proof. apply (f_equal v_Records (view_expireRecord wall s id rec now)). Qed.

Lemma expireRecord_policy s id rec now : m_Policy (expireRecord wall s id rec now) = m_Policy s.
Proof. apply (f_equal v_Policy (view_expireRecord wall s id rec now)). Qed.

Lemma expire_fold_records now rest s f m :
  NoDup rest ->
  (forall e, e ∈ rest -> TrimSpace e = e
     /\ exists r, m_Records s !! e = Some r /\ mr_State r = StateQueued) ->
  let acc := foldl (expireStep wall now) (s, f, m) rest in
  (forall x, m_Records acc.1.1 !! x
             = if decide (x ∈ rest) then afterExpiry (m_Policy s) now <$> m_Records s !! x
               else m_Records s !! x)
  /\ acc.1.2 = f ++ filter (fun e => stillQueued (m_Records s) now e = true) rest.
Proof.
  intros Hnd. revert s f m. induction Hnd as [|e rest Hnin Hnd IH]; intros s f m Hq.
  { cbn. split; [done | by rewrite app_nil_r]. }
  destruct (Hq e) as (He & r & Hr & Hs); [set_solver|]. cbn [foldl].
  unfold expireStep at 2 4. rewrite He, Hr, bool_decide_true by done. cbn [negb].
  assert (Hst : stillQueued (m_Records s) now e = negb (isRecordExpired r now))
    by (unfold stillQueued; by rewrite Hr).
  rewrite filter_cons.
  destruct (isRecordExpired r now) eqn:Ex; cbn [negb] in *.
  - destruct (IH (expireRecord wall s e r now) f true) as [H1 H2].
    { intros x Hx. destruct (Hq x) as (Hx1 & rx & Hx2 & Hx3); [set_solver|]. split; [done|].
      exists rx. rewrite expireRecord_records, lookup_insert_ne; [done | by intros ->]. }
    split.
    + intros x. rewrite (H1 x), expireRecord_records, expireRecord_policy.
      destruct (decide (x = e)) as [->|Hx].
      * rewrite (decide_False (P := e ∈ rest)), decide_True by set_solver.
        rewrite lookup_insert_eq, Hr. cbn. unfold afterExpiry. by rewrite bool_decide_true, Ex.
      * rewrite lookup_insert_ne by done.
        destruct (decide (x ∈ rest)); [rewrite decide_True | rewrite decide_False]; set_solver.
    + rewrite H2. f_equal. rewrite decide_False by (by rewrite Hst).
      apply filter_ext_elem. intros x Hx. unfold stillQueued.
      rewrite expireRecord_records, lookup_insert_ne; [done | by intros ->].
  - destruct (IH s (f ++ [e]) m) as [H1 H2]; [set_solver|]. split.
    + intros x. rewrite (H1 x). destruct (decide (x = e)) as [->|Hx].
      * rewrite (decide_False (P := e ∈ rest)), decide_True by set_solver.
        rewrite Hr. cbn. unfold afterExpiry. by rewrite Ex, andb_false_r.
      * destruct (decide (x ∈ rest)); [rewrite decide_True | rewrite decide_False]; set_solver.
    + rewrite H2, decide_True, <-app_assoc by done. done.
Qed.

Lemma expireQueued_exact s now :
  mailbox_inv (view s) ->
  m_Records (expireQueued wall s now).1 = afterExpiry (m_Policy s) now <$> m_Records s
  /\ m_Queue (expireQueued wall s now).1
     = filter (fun e => stillQueued (m_Records s) now e = true) (m_Queue s).
Proof.
  intros Hi. unfold expireQueued. pose proof (inv_queue _ Hi) as Hq. cbn in Hq.
  assert (Hout : forall x r, x ∉ m_Queue s -> m_Records s !! x = Some r ->
                             afterExpiry (m_Policy s) now r = r).
  { intros x r Hx Hr. unfold afterExpiry. rewrite bool_decide_false; [done|].
    intros Hs. apply Hx, Hq. eauto. }
  assert (Hmap : forall R, (forall x, R !! x = if decide (x ∈ m_Queue s)
                                          then afterExpiry (m_Policy s) now <$> m_Records s !! x
                                          else m_Records s !! x) ->
                           R = afterExpiry (m_Policy s) now <$> m_Records s).
  { intros R HR. apply map_eq. intros x. rewrite HR, lookup_fmap. case_decide as Hx; [done|].
    destruct (m_Records s !! x) as [r|] eqn:Hr; [|done]. cbn. by rewrite (Hout x r). }
  destruct (m_Queue s) as [|e q] eqn:Eq; [split; [|cbn; by rewrite Eq]|].
  - apply Hmap. intros x. by rewrite decide_False by apply not_elem_of_nil.
  - rewrite <-Eq in *.
    destruct (expire_fold_records now (m_Queue s) s [] false) as [H1 H2].
    + apply Hi.
    + intros x Hx. destruct (mailbox_queue_entry s (m_Queue s) x Hi Hx) as (r & Hr & Hs & He). eauto.
    + destruct (foldl _ _ _) as [[s' f] m]. cbn in *. split; [by apply Hmap | done].
Qed.

(** ** Requeue *)

(** The record [requeue] leaves for a nacked one. *)
Definition requeuedNacked (s : mailboxState) (code : string) (now : Time) (r : MessageRecord)
    : MessageRecord :=
  let p := m_Policy s in
  let why := deadLetterReason LifecycleReasonRetryExhausted code in
  if mp_MaxAttempts p <=? mr_DeliveryAttempt r then
    if mp_DLQEnabled p
    then r <| mr_UpdatedAt := now |> <| mr_State := StateDeadLetter |> <| mr_DeadLetterReason := why |>
    else r <| mr_State := StateExpired |> <| mr_DeadLetterReason := why |> <| mr_UpdatedAt := now |>
  else
    clearLease (r <| mr_State := StateQueued |>)
      <| mr_NextEligibleAt := TimeAdd now (retryDelay s (ev_MessageID (mr_Envelope r)) (mr_DeliveryAttempt r)) |>
      <| mr_ConsumerID := "" |> <| mr_UpdatedAt := now |>.

(** The record [requeue] leaves for an in-flight delivery. *)
Definition requeuedRecord (s : mailboxState) (code : string) (now : Time) (r : MessageRecord)
    : MessageRecord :=
  requeuedNacked s code now (clearLease (r <| mr_State := StateNacked |> <| mr_LastError := code |>)).

Lemma requeuedNacked_policy s s' code now r :
  m_Policy s = m_Policy s' -> requeuedNacked s code now r = requeuedNacked s' code now r.
Proof. unfold requeuedNacked, retryDelay. by intros ->. Qed.

Lemma requeueNacked_records s id r code now opts :
  let s' := (requeueNacked wall s id r code now opts).1 in
  m_Records s' = <[id := requeuedNacked s code (or_now wall now) r]> (m_Records s)
  /\ m_Policy s' = m_Policy s.
Proof.
  unfold requeueNacked, deadLetter, exhaust, backToQueue, requeuedNacked. cbv zeta.
  destruct (mp_MaxAttempts (m_Policy s) <=? mr_DeliveryAttempt r);
    [destruct (mp_DLQEnabled (m_Policy s))|]; cbn [fst]; by rewrite emit_Records, emit_Policy.
Qed.

Lemma requeue_records s mid cid reason now opts r :
  m_Records s !! TrimSpace mid = Some r -> mr_State r = StateInFlight ->
  TrimSpace cid = "" \/ mr_ConsumerID r = TrimSpace cid ->
  let code := CanonicalizeLifecycleReason reason LifecycleReasonHandlerError in
  let s' := (requeue wall s mid cid reason now opts).1 in
  m_Records s' = <[TrimSpace mid := requeuedRecord s code (or_now wall now) r]> (m_Records s)
  /\ m_Policy s' = m_Policy s.
Proof.
  intros Hr Hs Hc code s'. unfold s', requeue. rewrite Hr, Hs. fold code.
  assert (Hg : negb (TrimSpace cid =s? "") && negb (mr_ConsumerID r =s? TrimSpace cid) = false).
  { destruct Hc as [-> | ->]; [done|]. by rewrite str_eqb_refl, andb_false_r. }
  rewrite Hg. unfold nackInFlight, requeuedRecord. cbv zeta.
  set (r1 := clearLease _).
  match goal with |- context [emitLifecycleEvent wall ?x ?t ?y ?c ?o] =>
    set (s1 := emitLifecycleEvent wall x t y c o) end.
  assert (H1 : m_Records s1 = <[TrimSpace mid := r1]> (m_Records s) /\ m_Policy s1 = m_Policy s)
    by (unfold s1; by rewrite emit_Records, emit_Policy).
  clearbody s1. destruct H1 as [HR HP].
  destruct (requeueNacked_records s1 (TrimSpace mid) r1 code now opts) as [HR' HP'].
  destruct (requeueNacked wall s1 (TrimSpace mid) r1 code now opts) as [s2 r2]. cbn [fst] in *.
  rewrite HR', HP', HR, HP, insert_insert_eq. by rewrite (requeuedNacked_policy s1 s) by done.
Qed.

(** ** Reclaim *)

(** What the reclaim sweep makes of a record. *)
Definition afterReclaim (s : mailboxState) (now : Time) (d : Duration) (r : MessageRecord) : MessageRecord :=
  if leaseExpired r now d then requeuedRecord s LifecycleReasonLeaseExpired now r else r.

Lemma leaseExpired_inflight r now d : leaseExpired r now d = true -> mr_State r = StateInFlight.
Proof. unfold leaseExpired. case_bool_decide; done. Qed.

Lemma reclaim_fold_records now ids s m p :
  now <> 0 -> NoDup ids -> m_Policy p = m_Policy s ->
  (forall e, e ∈ ids -> TrimSpace e = e
     /\ exists r, m_Records s !! e = Some r /\ mr_State r = StateInFlight) ->
  let acc := foldl (reclaimStep wall now) (s, m) ids in
  forall x, m_Records acc.1 !! x
            = if decide (x ∈ ids) then requeuedRecord p LifecycleReasonLeaseExpired now <$> m_Records s !! x
              else m_Records s !! x.
Proof.
  intros Hnz Hnd. revert s m. induction Hnd as [|e ids Hnin Hnd IH]; intros s m Hp Hq; [done|].
  destruct (Hq e) as (He & r & Hr & Hs); [set_solver|]. cbn [foldl]. intros x.
  unfold reclaimStep at 2.
  destruct (requeue_records s e "" LifecycleReasonLeaseExpired now (mkActionOptions true false) r)
    as [HR HP]; [by rewrite He | done | by left |].
  destruct (requeue _ _ _ _ _ _ _) as [s1 res]. cbn [fst] in HR, HP. rewrite He in HR.
  rewrite or_now_id in HR by done.
  change (CanonicalizeLifecycleReason _ _) with LifecycleReasonLeaseExpired in HR.
  rewrite IH; [|congruence|].
  - rewrite HR. destruct (decide (x = e)) as [->|Hx].
    + rewrite (decide_False (P := e ∈ ids)), decide_True, lookup_insert_eq, Hr by set_solver.
      cbn. unfold requeuedRecord. by rewrite (requeuedNacked_policy s p).
    + rewrite lookup_insert_ne by done.
      destruct (decide (x ∈ ids)); [rewrite decide_True | rewrite decide_False]; set_solver.
  - intros y Hy. destruct (Hq y) as (Hy1 & ry & Hy2 & Hy3); [set_solver|]. split; [done|].
    exists ry. rewrite HR, lookup_insert_ne; [done | by intros ->].
Qed.

Lemma record_key_trimmed s id r :
  mailbox_inv (view s) -> m_Records s !! id = Some r -> TrimSpace id = id.
Proof.
  intros Hi Hr. destruct (inv_records _ Hi _ _ Hr) as [He <- _ _ _ _ _ _ _].
  by apply envelope_normal_id.
Qed.

Lemma staleIDs_keys s now d :
  mailbox_inv (view s) ->
  staleIDs s now d ≡ₚ (filter (fun kv => leaseExpired kv.2 now d = true) (map_to_list (m_Records s))).*1.
Proof.
  intros Hi. unfold staleIDs. rewrite sort_strings_perm.
  match goal with |- _ ≡ₚ ?l => rewrite <-(map_id l) at 2 end. apply Permutation_refl', map_ext_in.
  intros x Hx%list_elem_of_In.
  apply list_elem_of_fmap in Hx as ([k r] & -> & [_ Hk%elem_of_map_to_list]%list_elem_of_filter).
  by eapply record_key_trimmed.
Qed.

Lemma elem_of_staleIDs s now d x :
  mailbox_inv (view s) ->
  x ∈ staleIDs s now d <-> exists r, m_Records s !! x = Some r /\ leaseExpired r now d = true.
Proof.
  intros Hi. rewrite staleIDs_keys, list_elem_of_fmap by done. split.
  - intros ([k r] & -> & [Hl Hk%elem_of_map_to_list]%list_elem_of_filter). eauto.
  - intros (r & Hr & Hl). exists (x, r). split; [done|].
    apply list_elem_of_filter. split; [done | by apply elem_of_map_to_list].
Qed.

Lemma NoDup_staleIDs s now d : mailbox_inv (view s) -> NoDup (staleIDs s now d).
Proof.
  intros Hi. rewrite staleIDs_keys by done.
  eapply (sublist_NoDup _ (map_to_list (m_Records s)).*1); [apply NoDup_fst_map_to_list|].
  apply fmap_sublist, sublist_filter.
Qed.

Lemma reclaim_exact s now d :
  mailbox_inv (view s) -> now <> 0 -> 0 < d ->
  m_Records (reclaimStaleInFlight wall s now d).1 = afterReclaim s now d <$> m_Records s.
Proof.
  intros Hi Hnz Hd. unfold reclaimStaleInFlight.
  destruct (Z.leb_spec d 0); [lia|]. apply map_eq. intros x.
  rewrite (reclaim_fold_records now (staleIDs s now d) s false s Hnz);
    [| by apply NoDup_staleIDs | done |].
  - rewrite lookup_fmap. unfold afterReclaim. case_decide as Hx.
    + apply elem_of_staleIDs in Hx as (r & -> & Hl); [|done]. cbn. by rewrite Hl.
    + destruct (m_Records s !! x) as [r|] eqn:Hr; [|done]. cbn. f_equal.
      destruct (leaseExpired r now d) eqn:Hl; [|done]. destruct Hx. apply elem_of_staleIDs; eauto.
  - intros e (r & Hr & Hl)%elem_of_staleIDs; [|done]. split; [by eapply record_key_trimmed|].
    eauto using leaseExpired_inflight.
Qed.

(** ** Consume leaves live deliveries alone *)

Lemma consumeSweeps_live s now d reclaim id r :
  wall <> 0 -> mailbox_inv (view s) -> now <> 0 -> m_Records s !! id = Some r ->
  mr_State r = StateInFlight -> (reclaim = true -> leaseExpired r now d = false) ->
  m_Records (consumeSweeps wall s now d reclaim).1 !! id = Some r.
Proof.
  intros Hw Hi Hnz Hr Hs Hl. unfold consumeSweeps.
  destruct (expireQueued_exact s now Hi) as [HR _].
  destruct (expireQueued_moves wall Hw s now Hnz Hi) as [Hi1 _].
  destruct (expireQueued wall s now) as [s1 m1]. cbn [fst] in *.
  assert (Hr1 : m_Records s1 !! id = Some r).
  { rewrite HR, lookup_fmap, Hr. cbn. unfold afterExpiry.
    rewrite bool_decide_false; [done | congruence]. }
  destruct reclaim; [|done].
  assert (H2 : m_Records (reclaimStaleInFlight wall s1 now d).1 !! id = Some r).
  { destruct (Z.leb_spec d 0) as [Hd|Hd].
    - unfold reclaimStaleInFlight. by rewrite (proj2 (Z.leb_le d 0) Hd).
    - rewrite reclaim_exact by done. rewrite lookup_fmap, Hr1. cbn. unfold afterReclaim.
      by rewrite Hl. }
  by destruct (reclaimStaleInFlight wall s1 now d).
Qed.

Lemma deliver_records s i id cid rec now d :
  m_Records (deliver wall s i id cid rec now d).1
  = <[id := deliveredRecord rec cid now d]> (m_Records s).
Proof. unfold deliver. cbn [fst]. by rewrite emit_Records. Qed.

Lemma consume_live s cid now d reclaim id r :
  wall <> 0 -> mailbox_inv (view s) -> m_Records s !! id = Some r -> mr_State r = StateInFlight ->
  (reclaim = true -> leaseExpired r (or_now wall now) d = false) ->
  m_Records (consume wall s cid now d reclaim).1 !! id = Some r.
Proof.
  intros Hw Hi Hr Hs Hl. unfold consume. case_match; [done|].
  pose proof (or_now_nonzero wall now Hw) as Hnz.
  pose proof (consumeSweeps_live s (or_now wall now) d reclaim id r Hw Hi Hnz Hr Hs Hl) as H1.
  destruct (consumeSweeps_moves wall Hw s (or_now wall now) d reclaim Hnz Hi) as [Hi1 _].
  destruct (consumeSweeps wall s (or_now wall now) d reclaim) as [s1 m]. cbn [fst] in *.
  destruct (list_find _ _) as [[i e]|] eqn:Ef; [|done].
  apply consume_selects in Ef as (Hq & He & (re & Hre & Hse & _) & _); [|done].
  rewrite He, Hre.
  pose proof (deliver_records s1 i e (TrimSpace cid) re (or_now wall now) d) as HR.
  destruct (deliver _ _ _ _ _ _ _ _) as [s2 r2]. cbn [fst] in *. rewrite HR.
  rewrite lookup_insert_ne; [done|]. intros ->. congruence.
Qed.
End sweeps.
