(* ===== verification/MailboxJournal.v ===== *)
(** * Mailbox: the history journal

    Every lifecycle transition appends one entry; the journal keeps the last
    1024 entries with consecutive sequence numbers, never rewrites a retained
    entry, and passes its own validation on restore. *)
From S2P Require Import Prelude GoStrings GoNum MailboxTypes MailboxState MailboxSnapshot.
From S2P Require Import MailboxInv.

Local Open Scope bool_scope.
Local Open Scope string_scope.
Local Open Scope list_scope.
Local Open Scope Z_scope.

Record journal_ok (h : HistoryJournal) : Prop := {
  jk_version : hj_Version h = HistoryVersion;
  jk_floor : 0 <= hj_Floor h;
  jk_sequences : he_Sequence <$> hj_Entries h = seqZ (hj_Floor h + 1) (Z.of_nat (length (hj_Entries h)));
  jk_retention : (length (hj_Entries h) <= HistoryRetentionEntries)%nat;
  jk_valid : Forall (fun e => validHistoryEntry e = true) (hj_Entries h);
  jk_sequence : hj_Sequence h
    = hj_Floor h + Z.of_nat (length (hj_Entries h)) + (if hj_Unavailable h then 1 else 0)
}.

(** [h'] is a later state of [h]: what it retains of the past is unchanged. *)
Definition journal_extends (h h' : HistoryJournal) : Prop :=
  hj_SourceID h' = hj_SourceID h /\ hj_Sequence h <= hj_Sequence h' /\ hj_Floor h <= hj_Floor h'
  /\ forall e, e ∈ hj_Entries h' -> he_Sequence e <= hj_Sequence h -> e ∈ hj_Entries h.

#[export] Instance journal_extends_preorder : PreOrder journal_extends.
Proof.
  split.
  - intros h. by repeat split.
  - intros a b c (S1 & Q1 & F1 & E1) (S2 & Q2 & F2 & E2).
    split; [congruence|]. split; [lia|]. split; [lia|]. intros e He Hs. apply E1; [|done].
    apply E2; [done | lia].
Qed.

Definition journal_step (h h' : HistoryJournal) : Prop :=
  journal_ok h -> journal_ok h' /\ journal_extends h h'.

#[export] Instance journal_step_preorder : PreOrder journal_step.
Proof.
  split.
  - intros h Hh. by split.
  - intros a b c H1 H2 Ha. destruct (H1 Ha) as [Hb E1]. destruct (H2 Hb) as [Hc E2].
    split; [done | by etrans].
Qed.

Lemma appendEntry_step h t r reason o : journal_step h (appendEntry h t r reason o).
Proof.
  intros Hok. pose proof Hok as [Hv Hf Hs Hr Hval Hq]. unfold appendEntry.
  destruct (hj_Unavailable h) eqn:Eu; [by split|]. cbv zeta.
  set (entry := mkHistoryEntry _ _ _ _ _).
  destruct (validHistoryEntry entry) eqn:Ev; cbn [negb].
  2:{ split; [constructor; cbn; try done; lia|]. split; [done|]. cbn. split; [lia|]. by split. }
  assert (Hs' : he_Sequence <$> (hj_Entries h ++ [entry])
                = seqZ (hj_Floor h + 1) (Z.of_nat (length (hj_Entries h ++ [entry])))).
  { rewrite fmap_app, Hs, length_app. cbn. rewrite Nat2Z.inj_add, seqZ_app by lia. f_equal.
    rewrite seqZ_cons, seqZ_nil by lia. f_equal. lia. }
  assert (Hval' : Forall (fun e => validHistoryEntry e = true) (hj_Entries h ++ [entry]))
    by (apply Forall_app; split; [done | by constructor]).
  assert (Hnew : forall e, e ∈ hj_Entries h ++ [entry] -> he_Sequence e <= hj_Sequence h -> e ∈ hj_Entries h).
  { intros e [He| ->%list_elem_of_singleton]%elem_of_app; [done|]. cbn. lia. }
  change (hj_Entries (h <| hj_Sequence := _ |>)) with (hj_Entries h).
  destruct (hj_Entries h ++ [entry]) as [|oldest rest] eqn:El; [by destruct (hj_Entries h)|].
  assert (Hlen : length (hj_Entries h) = length rest).
  { apply (f_equal length) in El. rewrite length_app in El. cbn in El. lia. }
  cbn [fmap list_fmap length] in Hs'. rewrite Nat2Z.inj_succ, seqZ_cons in Hs' by lia.
  injection Hs' as Ho Hrest.
  destruct (Nat.ltb_spec HistoryRetentionEntries (length (oldest :: rest))) as [Hl|Hl].
  - split.
    + constructor; cbn; try done; try lia.
      * rewrite Hrest, Ho. f_equal; lia.
      * by inversion Hval'.
      * rewrite Eu, Ho. lia.
    + split; [done|]. cbn. split; [lia|]. split; [lia|].
      intros e He. apply Hnew. by right.
  - split.
    + constructor; cbn; try done; try lia.
      * change (Z.pos (Pos.of_succ_nat (length rest))) with (Z.of_nat (S (length rest))).
        rewrite Ho, Hrest, Nat2Z.inj_succ. symmetry. apply seqZ_cons. lia.
      * rewrite Eu. lia.
    + split; [done|]. cbn. split; [lia|]. by split.
Qed.

(** ** Every call extends the journal *)

Lemma emit_History wall s t r reason o :
  m_History (emitLifecycleEvent wall s t r reason o)
  = appendEntry (m_History s) (LifecycleTransition_string t) r reason o.
Proof. unfold emitLifecycleEvent. case_match; by destruct s. Qed.

(** The journal grows, and the continuations stay. *)
Definition grows (s s' : mailboxState) : Prop :=
  journal_step (m_History s) (m_History s') /\ m_Continuations s' = m_Continuations s.

#[export] Instance grows_preorder : PreOrder grows.
Proof. split; [by intros s; split | intros a b c [H1 E1] [H2 E2]; split; [by etrans | congruence]]. Qed.

(** Writes that leave both alone. *)
Lemma mailbox_grows_same s s' : m_History s' = m_History s -> m_Continuations s' = m_Continuations s -> grows s s'.
Proof. intros E1 E2. split; [by rewrite E1 | done]. Qed.

Lemma emit_Continuations wall s t r reason o :
  m_Continuations (emitLifecycleEvent wall s t r reason o) = m_Continuations s.
Proof. unfold emitLifecycleEvent. case_match; by destruct s. Qed.

(** An emission after writes that leave both alone. *)
Lemma grows_emit wall s s1 t r reason o :
  m_History s1 = m_History s -> m_Continuations s1 = m_Continuations s ->
  grows s (emitLifecycleEvent wall s1 t r reason o).
Proof.
  intros E1 E2. split; [rewrite emit_History, E1; apply appendEntry_step | by rewrite emit_Continuations].
Qed.

Lemma grows_emit_after wall s s1 s2 t r reason o :
  grows s s1 -> m_History s2 = m_History s1 -> m_Continuations s2 = m_Continuations s1 ->
  grows s (emitLifecycleEvent wall s2 t r reason o).
Proof. intros H E1 E2. etrans; [exact H|]. by apply grows_emit. Qed.

Section calls.
Context (wall : Time).

Lemma publish_grows s e now : grows s (publish wall s e now).1.
Proof.
  unfold publish. destruct (normalizeEnvelope e) as [env|]; [|done].
  destruct (existingRecord s env); [case_match; done|].
  cbn [publishNew fst]. split; [apply (appendEntry_step (m_History s)) | done].
Qed.

Lemma heartbeat_grows s mid cid now d : grows s (heartbeat wall s mid cid now d).1.
Proof. unfold heartbeat. destruct (requireInflightRecord s mid cid) as [[r|] [e|]]; by apply mailbox_grows_same. Qed.

Lemma ack_grows s mid cid now : grows s (ack wall s mid cid now).1.
Proof.
  unfold ack. destruct (requireInflightRecord s mid cid) as [[r|] [e|]];
    [cbn; case_match; done | by apply grows_emit | done..].
Qed.

Lemma deadLetter_grows s id r code opts : grows s (deadLetter wall s id r code opts).1.
Proof. by apply grows_emit. Qed.

Lemma nack_grows s mid cid reason now opts : grows s (nack wall s mid cid reason now opts).1.
Proof.
  unfold nack. destruct (requireInflightRecord s mid cid) as [[r|] [e|]]; try done.
  - case_match; done.
  - cbv zeta. match goal with |- context [emitLifecycleEvent wall ?x ?t ?y ?c ?o] =>
      set (s1 := emitLifecycleEvent wall x t y c o) end.
    assert (H1 : grows s s1) by (by apply grows_emit). clearbody s1.
    case_match; [|done]. etrans; [exact H1|].
    destruct (deadLetter _ _ _ _ _ _) as [s2 r2] eqn:E.
    change s2 with (s2, r2).1. rewrite <-E. apply deadLetter_grows.
Qed.

Lemma requeueNacked_grows s id r code now opts : grows s (requeueNacked wall s id r code now opts).1.
Proof. unfold requeueNacked. repeat case_match; by apply grows_emit. Qed.

Lemma requeue_grows s mid cid reason now opts : grows s (requeue wall s mid cid reason now opts).1.
Proof.
  unfold requeue. destruct (m_Records s !! TrimSpace mid) as [r|]; [|done].
  set (code := CanonicalizeLifecycleReason _ _).
  assert (Hrq : forall s1 r1, grows s s1 ->
            grows s (let '(s2, r2) := requeueNacked wall s1 (TrimSpace mid) r1 code now opts in
                     (s2, Ok (cloneRecord r2) : result MailboxError MessageRecord)).1).
  { intros s1 r1 H1. etrans; [exact H1|].
    pose proof (requeueNacked_grows s1 (TrimSpace mid) r1 code now opts) as H2.
    by destruct (requeueNacked _ _ _ _ _ _ _). }
  destruct (mr_State r); try by apply Hrq. all: try done.
  case_match; [done|]. unfold nackInFlight. apply Hrq. by apply grows_emit.
Qed.

Lemma expireRecord_grows s id r now : grows s (expireRecord wall s id r now).
Proof.
  unfold expireRecord. cbv zeta. destruct (mp_DLQEnabled _); [|by apply grows_emit].
  eapply grows_emit_after; [|done..]. by apply grows_emit.
Qed.

Lemma expire_fold_grows now q s f m : grows s (foldl (expireStep wall now) (s, f, m) q).1.1.
Proof.
  revert s f m. induction q as [|e q IH]; intros s f m; [done|]. cbn [foldl].
  unfold expireStep at 2. destruct (m_Records s !! TrimSpace e) as [r|]; [|apply IH].
  case_match; [apply IH|]. case_match; [apply IH|].
  etrans; [apply expireRecord_grows | apply IH].
Qed.

Lemma reclaim_fold_grows now ids s m : grows s (foldl (reclaimStep wall now) (s, m) ids).1.
Proof.
  revert s m. induction ids as [|id ids IH]; intros s m; [done|]. cbn [foldl].
  unfold reclaimStep at 2.
  pose proof (requeue_grows s id "" LifecycleReasonLeaseExpired now (mkActionOptions true false)) as H.
  destruct (requeue _ _ _ _ _ _ _) as [s1 r]. etrans; [exact H | apply IH].
Qed.

Lemma expireQueued_grows s now : grows s (expireQueued wall s now).1.
Proof.
  unfold expireQueued. destruct (m_Queue s) as [|e q]; [done|].
  pose proof (expire_fold_grows now (e :: q) s [] false) as H.
  by destruct (foldl _ _ _) as [[s1 f] m].
Qed.

Lemma consumeSweeps_grows s now d b : grows s (consumeSweeps wall s now d b).1.
Proof.
  unfold consumeSweeps. pose proof (expireQueued_grows s now) as H1.
  destruct (expireQueued wall s now) as [s1 m1]. destruct b; [|done].
  unfold reclaimStaleInFlight. destruct (d <=? 0); [done|].
  pose proof (reclaim_fold_grows now (staleIDs s1 now d) s1 false) as H2.
  destruct (foldl _ _ _) as [s2 m2]. by etrans.
Qed.

Lemma consume_grows s cid now d b : grows s (consume wall s cid now d b).1.
Proof.
  unfold consume. case_match; [done|].
  pose proof (consumeSweeps_grows s (or_now wall now) d b) as H1.
  destruct (consumeSweeps wall s (or_now wall now) d b) as [s1 m]. cbn [fst] in H1.
  destruct (list_find _ _) as [[i e]|]; [|done].
  destruct (m_Records s1 !! TrimSpace e) as [r|]; [|done].
  etrans; [exact H1|]. cbn [deliver]. by apply grows_emit.
Qed.
End calls.

Lemma exec_grows s wc : grows s (exec s wc).
Proof.
  destruct wc as [wall []]; unfold exec; cbn [fst snd].
  - apply publish_grows.
  - apply consume_grows.
  - apply heartbeat_grows.
  - apply ack_grows.
  - apply nack_grows.
  - apply requeue_grows.
  - done.
  - by destruct enabled.
Qed.

Lemma run_grows s calls : grows s (run s calls).
Proof.
  revert s. induction calls as [|c calls IH]; intros s; [done|].
  etrans; [apply exec_grows | apply IH].
Qed.

Lemma newHistoryJournal_ok sid : journal_ok (newHistoryJournal sid).
Proof. constructor; cbn; try done; lia. Qed.

(** ** Validation *)

Lemma entriesValid_ok sequence l : forall previous,
  he_Sequence <$> l = seqZ (previous + 1) (Z.of_nat (length l)) ->
  previous + Z.of_nat (length l) <= sequence ->
  Forall (fun e => validHistoryEntry e = true) l -> entriesValid sequence previous l = true.
Proof.
  induction l as [|e l IH]; intros previous Hs Hq Hv; [done|].
  cbn [fmap list_fmap length] in Hs. rewrite Nat2Z.inj_succ, seqZ_cons in Hs by lia.
  injection Hs as He Hl. apply Forall_cons in Hv as [Hve Hvl]. cbn [entriesValid length] in *.
  rewrite Hve. destruct (Z.leb_spec (he_Sequence e) previous); [lia|].
  destruct (Z.ltb_spec sequence (he_Sequence e)); [lia|]. cbn. apply IH; [|lia|done].
  rewrite Hl, He. f_equal; lia.
Qed.

Lemma journal_validates h :
  journal_ok h -> sourceValid HistoryVersion (hj_SourceID h) = true ->
  HistoryJournal_validate h = true.
Proof.
  intros [Hv Hf Hs Hr Hval Hq] Hsrc. unfold HistoryJournal_validate. rewrite Hv, str_eqb_refl, Hsrc.
  destruct (Z.ltb_spec (hj_Sequence h) (hj_Floor h)); [destruct (hj_Unavailable h); lia|].
  destruct (Nat.ltb_spec HistoryRetentionEntries (length (hj_Entries h))); [lia|]. cbn.
  apply entriesValid_ok; try done. rewrite Hq. destruct (hj_Unavailable h); lia.
Qed.
