(* ===== verification/MailboxRoundTrip.v ===== *)
(** * Mailbox: restoring a snapshot

    A snapshot of a state that satisfies the invariant passes every check of
    [normalizeSnapshot] and [restore] and gives the state back. *)
From S2P Require Import Prelude GoStrings GoNum MailboxTypes MailboxState MailboxSnapshot.
From S2P Require Import MailboxInv MailboxJournal.

Local Open Scope bool_scope.
Local Open Scope string_scope.
Local Open Scope list_scope.
Local Open Scope Z_scope.

Definition recordID (r : MessageRecord) : string := ev_MessageID (mr_Envelope r).

(** ** Records *)

Lemma normalizeRecord_id p id r (seen : gset string) :
  record_ok p id r -> id ∉ seen -> normalizeRecord seen r = Ok r.
Proof.
  intros [He Hid Ha _ _ _ Hk (T1 & T2 & T3) [Hc Hu]] Hn. unfold normalizeRecord.
  rewrite (envelope_normal_ok _ He), Hk, Hid, bool_decide_false by done.
  destruct (Z.ltb_spec (mr_DeliveryAttempt r) 0); [lia|]. unfold IsZero.
  destruct (Z.eqb_spec (mr_CreatedAt r) 0), (Z.eqb_spec (mr_UpdatedAt r) 0); try done.
  cbn. rewrite T1, T2, T3. by destruct r.
Qed.

Lemma normalizeRecords_id p l (seen : gset string) :
  Forall (fun r => record_ok p (recordID r) r) l -> NoDup (recordID <$> l) ->
  (forall r, r ∈ l -> recordID r ∉ seen) -> normalizeRecords seen l = Ok l.
Proof.
  revert seen. induction l as [|r l IH]; intros seen Hok Hnd Hs; [done|].
  apply Forall_cons in Hok as [Hr Hl]. cbn in Hnd. apply NoDup_cons in Hnd as [Hnin Hnd].
  cbn [normalizeRecords]. rewrite (normalizeRecord_id p (recordID r)); [|done|apply Hs; by left].
  cbn [result_bind]. rewrite IH; [done..|]. intros x Hx. apply not_elem_of_union. split.
  - intros E%elem_of_singleton. apply Hnin, list_elem_of_fmap. by exists x.
  - apply Hs. by right.
Qed.

Section listing.
Context (R : gmap string MessageRecord).
Hypothesis Hids : forall id r, R !! id = Some r -> recordID r = id.

Lemma values_keys : (fun r => (recordID r, r)) <$> (map_to_list R).*2 = map_to_list R.
Proof.
  rewrite <-list_fmap_compose. transitivity (id <$> map_to_list R); [|apply list_fmap_id].
  apply list_fmap_ext. intros i [k r] Hi. cbn.
  by rewrite (Hids k r) by (by eapply elem_of_map_to_list, list_elem_of_lookup_2).
Qed.

Lemma listed_ids l : l ≡ₚ (map_to_list R).*2 -> NoDup (recordID <$> l).
Proof.
  intros ->. assert (E : recordID <$> (map_to_list R).*2 = (map_to_list R).*1).
  { transitivity (((fun r => (recordID r, r)) <$> (map_to_list R).*2).*1);
      [by rewrite <-(list_fmap_compose (fun r => (recordID r, r)) fst) | by rewrite values_keys]. }
  rewrite E. apply NoDup_fst_map_to_list.
Qed.

(** Indexing any listing of the records by message id gives the map back. *)
Lemma listed_map l :
  l ≡ₚ (map_to_list R).*2 ->
  (list_to_map ((fun r => (recordID r, r)) <$> l) : gmap string MessageRecord) = R.
Proof.
  intros Hl. transitivity (list_to_map (map_to_list R) : gmap string MessageRecord);
    [|apply list_to_map_to_list]. apply list_to_map_proper.
  - rewrite <-(list_fmap_compose (fun r => (recordID r, r)) fst). by apply listed_ids.
  - by rewrite Hl, values_keys.
Qed.

Lemma listed_states l :
  l ≡ₚ (map_to_list R).*2 -> stateIndex l = mr_State <$> R.
Proof.
  intros Hl. unfold stateIndex. rewrite <-(listed_map l Hl), <-list_to_map_fmap. f_equal.
  by rewrite <-list_fmap_compose.
Qed.

Lemma listed_count l st :
  l ≡ₚ (map_to_list R).*2 ->
  Z.of_nat (length (filter (fun r => mr_State r = st) l)) = map_sum (in_state st) R.
Proof.
  intros ->. unfold map_sum. rewrite map_fold_foldr.
  induction (map_to_list R) as [|[k r] kl IH]; [done|].
  change (((k, r) :: kl).*2) with (r :: kl.*2). rewrite filter_cons. cbn [foldr uncurry].
  unfold in_state at 1. case_decide; cbn [length]; lia.
Qed.
End listing.

(** ** Queue and idempotency *)

Lemma normalizeQueue_id q : forall seen : gset string,
  NoDup q -> (forall e, e ∈ q -> TrimSpace e = e /\ e <> "" /\ e ∉ seen) ->
  normalizeQueue seen q = Ok q.
Proof.
  induction q as [|e q IH]; intros seen Hnd Hq; [done|]. apply NoDup_cons in Hnd as [Hnin Hnd].
  destruct (Hq e ltac:(by left)) as (Ht & Hne & Hs). cbn [normalizeQueue].
  rewrite Ht, (proj2 (str_eqb_neq _ _) Hne), bool_decide_false by done. cbn [negb result_bind].
  rewrite IH; [done..|]. intros x Hx. destruct (Hq x ltac:(by right)) as (? & ? & ?).
  split; [done|]. split; [done|]. apply not_elem_of_union. split; [|done]. by intros ->%elem_of_singleton.
Qed.

Lemma normalizeIdempotency_id idx m keys :
  (forall k id, m !! k = Some id ->
     TrimSpace k = k /\ k <> "" /\ TrimSpace id = id /\ id <> "" /\ is_Some (idx !! id)) ->
  foldl (normalizeIdempotencyEntry idx) (Ok m) keys = Ok m.
Proof.
  intros Hm. induction keys as [|k keys IH]; [done|]. cbn [foldl].
  assert (E : normalizeIdempotencyEntry idx (Ok m) k = Ok m); [|by rewrite E].
  unfold normalizeIdempotencyEntry. cbn [result_bind]. destruct (m !! k) as [id|] eqn:Hk; [|done].
  destruct (Hm k id Hk) as (-> & Hk' & -> & Hi & Hx). cbv zeta.
  by rewrite (proj2 (str_eqb_neq k "") Hk'), (proj2 (str_eqb_neq id "") Hi), bool_decide_true,
    !str_eqb_refl by done.
Qed.

(** ** Restore *)

(** The backend name after a restore into [target]. *)
Definition restoredBackend (source target : mailboxState) : string :=
  let b := TrimSpace (ms_Backend (m_Stats source)) in
  let b := if b =s? "" then TrimSpace (ms_Backend (m_Stats target)) else b in
  if b =s? "" then "memory" else b.

Lemma envelope_normal_key e :
  envelope_normal e -> TrimSpace (ev_IdempotencyKey e) = ev_IdempotencyKey e.
Proof. intros [Ht _ _ _ _]. by rewrite <-Ht at 2. Qed.

Lemma restore_snapshot `{!RangeOrder} sid s target :
  mailbox_inv (view s) -> journal_ok (m_History s) ->
  sourceValid HistoryVersion (hj_SourceID (m_History s)) = true ->
  restore sid target (snapshot s)
  = Ok (s <| m_Stats ::= fun st => st <| ms_Backend := restoredBackend s target |> |>
          <| m_events := m_events target |> <| m_traceEvents := m_traceEvents target |>).
Proof.
  intros Hi Hj Hsrc. set (l := sortRecordsDeterministic (map_to_list (m_Records s)).*2).
  assert (Hl : l ≡ₚ (map_to_list (m_Records s)).*2) by apply sortRecordsDeterministic_perm.
  assert (Hids : forall id r, m_Records s !! id = Some r -> recordID r = id)
    by (intros id r Hr; apply (inv_records _ Hi _ _ Hr)).
  assert (Hrec : normalizeRecords ∅ l = Ok l).
  { apply (normalizeRecords_id (m_Policy s)); [|by eapply listed_ids|set_solver].
    rewrite Hl. apply Forall_fmap, Forall_forall. intros [id r] Hr%elem_of_map_to_list. cbn.
    rewrite (Hids id r Hr). by apply (inv_records _ Hi). }
  assert (Hq : normalizeQueue ∅ (m_Queue s) = Ok (m_Queue s)).
  { apply normalizeQueue_id; [apply Hi|]. intros e He.
    destruct (mailbox_queue_entry s (m_Queue s) e Hi He) as (r & Hr & _ & Ht).
    pose proof (inv_records _ Hi _ _ Hr) as Hok. split; [done|]. split; [|set_solver].
    rewrite <-(ok_id _ _ _ Hok). apply (ok_envelope _ _ _ Hok). }
  assert (Hqs : queueRefersQueued (mr_State <$> m_Records s) (m_Queue s) = true).
  { apply forallb_forall. intros e He%list_elem_of_In. apply bool_decide_eq_true.
    destruct (mailbox_queue_entry s (m_Queue s) e Hi He) as (r & Hr & Hs & _).
    by rewrite lookup_fmap, Hr, <-Hs. }
  assert (Hidem : foldl (normalizeIdempotencyEntry (mr_State <$> m_Records s)) (Ok (m_Idempotency s))
                    (range_order (m_Idempotency s)) = Ok (m_Idempotency s)).
  { apply normalizeIdempotency_id. intros k id (r & Hr & Hk)%(inv_keys _ Hi).
    pose proof (inv_records _ Hi _ _ Hr) as Hok. pose proof (ok_envelope _ _ _ Hok) as He.
    rewrite lookup_fmap, <-(ok_id _ _ _ Hok), <-Hk. split; [by apply envelope_normal_key|].
    split; [apply He|]. split; [by apply envelope_normal_id|]. split; [apply He|].
    cbn in Hr. rewrite (ok_id _ _ _ Hok), Hr. eauto. }
  unfold restore, normalizeSnapshot, snapshot. cbv zeta.
  cbn [sn_History sn_Backend sn_Records sn_Queue sn_Idempotency sn_Continuations sn_Stats sn_Policy].
  fold l. rewrite Hrec. cbn [result_bind]. rewrite Hq. cbn [result_bind].
  rewrite (listed_states _ Hids l Hl), Hqs, Hidem. cbn [result_bind sn_History].
  rewrite (journal_validates _ Hj Hsrc). cbn [result_bind]. f_equal.
  cbn [sn_Records sn_Queue sn_Idempotency sn_Continuations sn_Stats sn_Policy].
  pose proof (listed_map _ Hids l Hl) as Hmap. unfold recordID in Hmap.
  rewrite Hmap, (listed_count _ l _ Hl), normalizePolicy_idemp.
  pose proof (inv_policy _ Hi) as Hp. pose proof (inv_queue_total _ Hi) as Hqt.
  pose proof (inv_counts _ Hi) as Hc. apply Forall_cons in Hc as [Hc _].
  cbn in Hp, Hqt, Hc. rewrite Hp, <-Hqt, <-Hc. fold (restoredBackend s target).
  destruct s as [h R q i c [] p ev tr]. done.
Qed.
