(* ===== verification/MailboxProps.v ===== *)
(** * Mailbox: properties

    The theorems about the mailbox, with the inputs that show their hypotheses
    can hold. A reachable state is what any sequence of calls makes of a new
    mailbox; the clock may move in any way but never reads the zero time. *)
From S2P Require Import Prelude GoStrings GoNum MailboxTypes MailboxState MailboxSnapshot.
From S2P Require Import MailboxInv MailboxSweeps MailboxJournal MailboxRoundTrip.

Local Open Scope bool_scope.
Local Open Scope string_scope.
Local Open Scope list_scope.
Local Open Scope Z_scope.

Definition reachable (s : mailboxState) : Prop :=
  exists sid backend policy calls,
    clocked calls /\ s = run (newMailboxState sid backend policy) calls.

Lemma reachable_mailbox_inv s : reachable s -> mailbox_inv (view s).
Proof.
  intros (sid & b & p & calls & Hc & ->). by apply run_moves, newMailboxState_inv.
Qed.

Lemma reachable_journal s : reachable s -> journal_ok (m_History s).
Proof.
  intros (sid & b & p & calls & _ & ->). by apply (run_grows (newMailboxState sid b p)), newHistoryJournal_ok.
Qed.

Lemma map_sum_in_state st R :
  map_sum (in_state st) R = Z.of_nat (size (filter (fun kv => mr_State kv.2 = st) R)).
Proof.
  induction R as [|id r R Hid IH] using map_ind.
  { by rewrite map_sum_empty, map_filter_empty, map_size_empty. }
  rewrite map_sum_insert_fresh, IH by done. unfold in_state. case_decide as Hs.
  - rewrite map_filter_insert_True, map_size_insert_None by (done || by apply map_lookup_filter_None; left).
    lia.
  - rewrite map_filter_insert_False by done. by rewrite delete_id.
Qed.

Lemma map_sum_one (R : gmap string MessageRecord) : map_sum (fun _ => 1) R = Z.of_nat (size R).
Proof.
  induction R as [|id r R Hid IH] using map_ind; [by rewrite map_sum_empty, map_size_empty|].
  rewrite map_sum_insert_fresh, IH, map_size_insert_None by done. lia.
Qed.

(** A concrete mailbox: two messages, the first delivered to a worker under a
    30 s lease, three attempts, no dead-letter queue. *)
Definition t0 : Time := 63900000000 * Second.
Definition demoPolicy : Policy := mkPolicy 3 (50 * Millisecond) (500 * Millisecond) f64_zero 0 false.
Definition demoEnvelope (id : string) : Envelope :=
  NewCommandEnvelope id ("key-" +:+ id) (mkCorrelation "run" "task" "" "") "a" "b" ∅ 0 0.
Definition demoCalls : list (Time * call) :=
  [(t0, CallPublish (demoEnvelope "m1") 0); (t0, CallPublish (demoEnvelope "m2") 0);
   (t0 + Second, CallConsume "w1" 0 (30 * Second) true)].
Definition demo : mailboxState := run (newMailboxState "SRC" "memory" demoPolicy) demoCalls.

Lemma demoMailbox_reachable : reachable demo.
Proof. exists "SRC", "memory", demoPolicy, demoCalls. split; [by repeat constructor | done]. Qed.

(** ** The queue and the counters *)

(** C20: in every reachable state the queue lists exactly the queued messages,
    each once, and [Stats.QueueTotal] is its length: no message is lost from
    the queue, delivered twice from it, or left in it after it was settled. *)
Theorem mailbox_queue_is_exact (s : mailboxState) :
  reachable s ->
  NoDup (m_Queue s)
  /\ (forall id, id ∈ m_Queue s <-> exists r, m_Records s !! id = Some r /\ mr_State r = StateQueued)
  /\ ms_QueueTotal (m_Stats s) = Z.of_nat (length (m_Queue s)).
Proof. intros Hi%reachable_mailbox_inv. split; [apply Hi|]. split; apply Hi. Qed.

Lemma mailbox_queue_is_exact_witness :
  NoDup (m_Queue demo) /\ ms_QueueTotal (m_Stats demo) = Z.of_nat (length (m_Queue demo)).
Proof.
  destruct (mailbox_queue_is_exact demo demoMailbox_reachable) as (H1 & _ & H3). by split.
Defined.

(** The counters tell the truth about the records: the in-flight, acked and
    dead-lettered totals are the numbers of messages in those states (the
    guarded decrements never lose one), every published message still has its
    record, and the deliveries counted are the attempts the records show. *)
Theorem mailbox_counters_agree (s : mailboxState) :
  reachable s ->
  let count st := Z.of_nat (size (filter (fun kv => mr_State kv.2 = st) (m_Records s))) in
  ms_InFlightTotal (m_Stats s) = count StateInFlight
  /\ ms_AckTotal (m_Stats s) = count StateAcked
  /\ ms_DeadLetterTotal (m_Stats s) = count StateDeadLetter
  /\ ms_PublishedTotal (m_Stats s) = Z.of_nat (size (m_Records s))
  /\ ms_ConsumedTotal (m_Stats s) = map_sum mr_DeliveryAttempt (m_Records s).
Proof.
  intros Hi%reachable_mailbox_inv count. pose proof (inv_counts _ Hi) as Hc. unfold counted in Hc.
  decompose_Forall_hyps. unfold count. rewrite <- !map_sum_in_state, <-map_sum_one. done.
Qed.

Lemma mailbox_counters_agree_witness :
  ms_InFlightTotal (m_Stats demo)
  = Z.of_nat (size (filter (fun kv => mr_State kv.2 = StateInFlight) (m_Records demo)))
  /\ ms_InFlightTotal (m_Stats demo) = 1.
Proof.
  destruct (mailbox_counters_agree demo demoMailbox_reachable) as (H & _). split; [exact H | done].
Defined.

(** No message is delivered more often than the policy allows; a queued
    message always has an attempt left, and one in flight has a consumer and at
    least one attempt. *)
Theorem delivery_attempts_bounded (s : mailboxState) (id : string) (r : MessageRecord) :
  reachable s -> m_Records s !! id = Some r ->
  0 <= mr_DeliveryAttempt r <= mp_MaxAttempts (m_Policy s)
  /\ (mr_State r = StateQueued -> mr_DeliveryAttempt r < mp_MaxAttempts (m_Policy s))
  /\ (mr_State r = StateInFlight -> 1 <= mr_DeliveryAttempt r /\ mr_ConsumerID r <> "").
Proof.
  intros Hi%reachable_mailbox_inv Hr. pose proof (inv_records _ Hi _ _ Hr) as Hok.
  split; [apply Hok|]. split; apply Hok.
Qed.

Lemma delivery_attempts_bounded_witness :
  exists r, m_Records demo !! "m1" = Some r /\ 0 <= mr_DeliveryAttempt r <= 3.
Proof.
  destruct (m_Records demo !! "m1") as [r|] eqn:E; [|by vm_compute in E].
  exists r. split; [done|]. exact (proj1 (delivery_attempts_bounded demo "m1" r demoMailbox_reachable E)).
Defined.

(** ** Lifecycle *)

(** C3: whatever is called afterwards, a message stays in the mailbox, keeps its
    envelope up to the attempt number, and moves along the lifecycle relation;
    in particular a message that was acked, dead-lettered or expired is never
    delivered, requeued or settled again. *)
Theorem message_follows_lifecycle (s : mailboxState) (calls : list (Time * call)) (id : string)
    (r : MessageRecord) :
  reachable s -> clocked calls -> m_Records s !! id = Some r ->
  exists r', m_Records (run s calls) !! id = Some r'
  /\ lifecycle (mp_MaxAttempts (m_Policy s)) (phase r) (phase r')
  /\ same_message r r'
  /\ (settled (mr_State r) -> phase r' = phase r).
Proof.
  intros Hi%reachable_mailbox_inv Hc Hr. destruct (run_moves s calls Hc Hi) as [_ [_ He]].
  destruct (He id r Hr) as (r' & Hr' & Hl & Hm). exists r'. do 3 (split; [done|]).
  intros Hs. by apply (settled_absorbing _ (phase r) (phase r') Hs Hl).
Qed.

Definition demoAcked : mailboxState :=
  run demo [(t0 + 2 * Second, CallAck "m1" "w1" 0)].

Lemma demoAcked_reachable : reachable demoAcked.
Proof.
  exists "SRC", "memory", demoPolicy, (demoCalls ++ [(t0 + 2 * Second, CallAck "m1" "w1" 0)]).
  split; [by repeat constructor | reflexivity].
Qed.

Lemma message_follows_lifecycle_witness :
  exists r r', m_Records demoAcked !! "m1" = Some r
  /\ m_Records (run demoAcked [(t0 + 3 * Second, CallNack "m1" "w1" "late" 0 noOptions)]) !! "m1" = Some r'
  /\ phase r' = phase r.
Proof.
  destruct (m_Records demoAcked !! "m1") as [r|] eqn:E; [|by vm_compute in E].
  destruct (message_follows_lifecycle demoAcked
              [(t0 + 3 * Second, CallNack "m1" "w1" "late" 0 noOptions)] "m1" r demoAcked_reachable)
    as (r' & Hr' & _ & _ & Hs); [by repeat constructor | exact E |].
  exists r, r'. split; [done|]. split; [exact Hr'|]. apply Hs. left.
  revert E. vm_compute. by intros [= <-].
Defined.

(** ** Publish *)

Lemma publish_new_record wall s env now s1 r :
  mailbox_inv (view s) -> publish wall s env now = (s1, Ok (mkPublishResult r false)) ->
  m_Records s1 !! recordID r = Some r
  /\ ev_IdempotencyKey (mr_Envelope r) = TrimSpace (ev_IdempotencyKey env)
  /\ ev_DispatchBinding (mr_Envelope r) = TrimSpace (ev_DispatchBinding env).
Proof.
  intros Hi. unfold publish. destruct (normalizeEnvelope env) as [e|] eqn:He; [|done].
  assert (Hf : ev_IdempotencyKey e = TrimSpace (ev_IdempotencyKey env)
               /\ ev_DispatchBinding e = TrimSpace (ev_DispatchBinding env)).
  { unfold normalizeEnvelope in He. apply result_bind_ok in He as (ob & _ & He).
    do 2 (case_match; [|done]). cbn in He. destruct (ev_Kind env); by simplify_eq. }
  destruct (existingRecord s e) as [x|]; [case_match; congruence|].
  unfold publishNew. intros [= <- <-]. destruct Hf as [<- <-]. cbn.
  split; [apply lookup_insert_eq|]. case_match; done.
Qed.

(** C12: publishing is idempotent. Once an envelope has been published, any later
    envelope with the same idempotency key and dispatch binding is a duplicate,
    whatever happened to the message in between: the caller gets the record of
    the first publication in its current state, and nothing changes but the
    duplicate counter. With another dispatch binding it is refused and nothing
    changes at all. *)
Theorem publish_is_idempotent (s s1 : mailboxState) (wall wall' now now' : Time) (env env' e' : Envelope)
    (r : MessageRecord) (calls : list (Time * call)) :
  reachable s -> wall <> 0 -> clocked calls ->
  publish wall s env now = (s1, Ok (mkPublishResult r false)) ->
  normalizeEnvelope env' = Ok e' -> ev_IdempotencyKey e' = TrimSpace (ev_IdempotencyKey env) ->
  let s2 := run s1 calls in
  exists r', m_Records s2 !! recordID r = Some r' /\ same_message r r'
  /\ publish wall' s2 env' now'
     = if ev_DispatchBinding e' =s? TrimSpace (ev_DispatchBinding env)
       then (updStats s2 (fun st => st <| ms_DuplicatePublishTotal ::= Z.succ |>),
             Ok (mkPublishResult r' true))
       else (s2, Err ErrDispatchBindingMismatch).
Proof.
  intros Hi%reachable_mailbox_inv Hw Hc Hp He' Hk' s2.
  destruct (publish_moves wall Hw s env now Hi) as [Hi1 _]. rewrite Hp in Hi1.
  destruct (publish_new_record _ _ _ _ _ _ Hi Hp) as (Hr & Hk & Hd).
  destruct (run_moves s1 calls Hc Hi1) as [Hi2 [_ Hev]]. fold s2 in Hi2.
  destruct (Hev _ _ Hr) as (r' & Hr' & Hm). cbn in Hr'. fold s2 in Hr'.
  exists r'. split; [done|]. split; [apply Hm|]. unfold publish. rewrite He'.
  assert (Hidem : m_Idempotency s2 !! ev_IdempotencyKey e' = Some (recordID r)).
  { apply (inv_keys _ Hi2). exists r'. split; [done|]. rewrite Hk', <-Hk.
    by eapply message_evolves_key. }
  assert (Hx : existingRecord s2 e' = Some r')
    by (unfold existingRecord; rewrite Hidem; cbn; by rewrite Hr').
  rewrite Hx. assert (Hd' : ev_DispatchBinding (mr_Envelope r') = TrimSpace (ev_DispatchBinding env)).
  { destruct Hm as [_ [-> _]]. rewrite <-Hd. by destruct (mr_Envelope r). }
  rewrite Hd'. destruct (str_eqb_spec (ev_DispatchBinding e') (TrimSpace (ev_DispatchBinding env))) as [->|Hne].
  - by rewrite str_eqb_refl.
  - by rewrite (proj2 (str_eqb_neq _ _)) by congruence.
Qed.

Lemma publish_is_idempotent_witness :
  exists s2 r', publish t0 s2 (demoEnvelope "m1") 0
    = (updStats s2 (fun st => st <| ms_DuplicatePublishTotal ::= Z.succ |>), Ok (mkPublishResult r' true)).
Proof.
  destruct (publish t0 (newMailboxState "SRC" "memory" demoPolicy) (demoEnvelope "m1") 0) as [s1 [[r []]|e]]
    eqn:E; [by vm_compute in E | | by vm_compute in E].
  assert (Hreach : reachable (newMailboxState "SRC" "memory" demoPolicy)).
  { exists "SRC", "memory", demoPolicy, []. split; [constructor | done]. }
  destruct (publish_is_idempotent _ s1 t0 t0 0 0 (demoEnvelope "m1") (demoEnvelope "m1")
              (demoEnvelope "m1") r [(t0, CallConsume "w1" 0 0 false)] Hreach)
    as (r' & _ & _ & Hp); [done | by repeat constructor | exact E | reflexivity | reflexivity |].
  exists (run s1 [(t0, CallConsume "w1" 0 0 false)]), r'. exact Hp.
Defined.

(** ** Consume *)

(** [consume] with a consumer id never fails. After the expiry and reclaim
    sweeps it hands out the first message in queue order that is due, as the
    next attempt under a fresh lease, and takes exactly that entry out of the
    queue; it returns nothing only when no queued message is due. *)
Theorem consume_delivers_first_due (s : mailboxState) (wall now : Time) (cid : string) (d : Duration)
    (reclaim : bool) :
  reachable s -> wall <> 0 -> TrimSpace cid <> "" ->
  let now' := or_now wall now in
  let s1 := (consumeSweeps wall s now' d reclaim).1 in
  exists s' res mutated, consume wall s cid now d reclaim = (s', Ok (res, mutated))
  /\ match res with
     | None => s' = s1 /\ forall e, e ∈ m_Queue s1 -> entryDeliverable s1 now' e = false
     | Some r' => exists i id r,
         m_Queue s1 !! i = Some id /\ m_Records s1 !! id = Some r
         /\ mr_State r = StateQueued /\ deliverable now' r = true
         /\ (forall j e, (j < i)%nat -> m_Queue s1 !! j = Some e -> entryDeliverable s1 now' e = false)
         /\ r' = deliveredRecord r (TrimSpace cid) now' d
         /\ m_Records s' = <[id := r']> (m_Records s1) /\ m_Queue s' = delete i (m_Queue s1)
     end.
Proof.
  intros Hi%reachable_mailbox_inv Hw Hcid now' s1. unfold consume.
  rewrite (proj2 (str_eqb_neq _ _) Hcid). fold now'.
  destruct (consumeSweeps_moves wall Hw s now' d reclaim (or_now_nonzero _ _ Hw) Hi) as [Hi1 _].
  fold s1 in Hi1. unfold s1 in *. clear s1.
  destruct (consumeSweeps wall s now' d reclaim) as [s1 m]. cbn [fst] in *.
  destruct (list_find _ _) as [[i e]|] eqn:Ef.
  - apply consume_selects in Ef as (Hq & He & (r & Hr & Hs & Hd) & Hmin); [|done].
    rewrite He, Hr. cbn [deliver]. unfold deliver. do 3 eexists. split; [reflexivity|].
    exists i, e, r. by rewrite emit_Records, emit_Queue.
  - exists s1, None, m. split; [done|]. split; [done|]. intros e Hin. apply not_true_is_false.
    intros Ht. apply list_find_None in Ef. rewrite Forall_forall in Ef. by apply (Ef e).
Qed.

Lemma consume_delivers_first_due_witness :
  exists s' res m, consume (t0 + 2 * Second) demo "w2" 0 (30 * Second) true = (s', Ok (res, m)).
Proof.
  destruct (consume_delivers_first_due demo (t0 + 2 * Second) 0 "w2" (30 * Second) true demoMailbox_reachable)
    as (s' & res & m & H & _); [done | by vm_compute |].
  by exists s', res, m.
Defined.

(** The expiry sweep is exact: a queued message whose expiry time has passed
    becomes dead-lettered or expired and leaves the queue; every other message,
    and the order of the rest of the queue, is untouched. *)
Theorem expiry_sweep_is_exact (s : mailboxState) (wall now : Time) :
  reachable s ->
  m_Records (expireQueued wall s now).1 = afterExpiry (m_Policy s) now <$> m_Records s
  /\ m_Queue (expireQueued wall s now).1
     = filter (fun e => stillQueued (m_Records s) now e = true) (m_Queue s).
Proof. intros Hi%reachable_mailbox_inv. by apply expireQueued_exact. Qed.

Lemma expiry_sweep_is_exact_witness :
  m_Records (expireQueued t0 demo t0).1 = afterExpiry demoPolicy t0 <$> m_Records demo.
Proof. exact (proj1 (expiry_sweep_is_exact demo t0 t0 demoMailbox_reachable)). Defined.

(** The reclaim sweep is exact: precisely the deliveries whose lease has run
    out are given back, as if their consumers had requeued them with reason
    [lease_expired] (back to the queue with the retry delay, or dead-lettered or
    expired when no attempt is left); every other record is untouched. *)
Theorem reclaim_is_exact (s : mailboxState) (wall now : Time) (d : Duration) :
  reachable s -> now <> 0 -> 0 < d ->
  m_Records (reclaimStaleInFlight wall s now d).1 = afterReclaim s now d <$> m_Records s.
Proof. intros Hi%reachable_mailbox_inv Hn Hd. by apply reclaim_exact. Qed.

Lemma reclaim_is_exact_witness :
  m_Records (reclaimStaleInFlight t0 demo (t0 + Minute) (30 * Second)).1
  = afterReclaim demo (t0 + Minute) (30 * Second) <$> m_Records demo.
Proof. by apply (reclaim_is_exact demo t0 (t0 + Minute) (30 * Second) demoMailbox_reachable). Defined.

(** ** Leases *)

(** C35: a delivery is exclusive while its lease lives. Until the lease of an
    in-flight message runs out, no [consume] of anyone, with or without reclaim,
    changes its record; and as long as it is in flight, heartbeat, ack, nack and
    requeue by another consumer are refused without any effect. *)
Theorem live_delivery_is_exclusive (s : mailboxState) (wall now : Time) (id other reason : string)
    (r : MessageRecord) (d : Duration) (opts : ActionOptions) :
  reachable s -> wall <> 0 -> m_Records s !! id = Some r -> mr_State r = StateInFlight ->
  TrimSpace other <> "" -> TrimSpace other <> mr_ConsumerID r ->
  (forall reclaim cid, (reclaim = true -> leaseExpired r (or_now wall now) d = false) ->
     m_Records (consume wall s cid now d reclaim).1 !! id = Some r)
  /\ heartbeat wall s id other now d = (s, Err ErrConsumerMismatch)
  /\ ack wall s id other now = (s, Err ErrConsumerMismatch)
  /\ nack wall s id other reason now opts = (s, Err ErrConsumerMismatch)
  /\ requeue wall s id other reason now opts = (s, Err ErrConsumerMismatch).
Proof.
  intros Hi%reachable_mailbox_inv Hw Hr Hs Hne Ho. split; [intros; by apply consume_live|].
  pose proof (record_key_trimmed s id r Hi Hr) as Hid.
  assert (Hq : requireInflightRecord s id other = (Some r, Some ErrConsumerMismatch)).
  { unfold requireInflightRecord. rewrite Hid, Hr, bool_decide_true by done. cbn [negb].
    by rewrite (proj2 (str_eqb_neq _ _) Hne), (proj2 (str_eqb_neq (mr_ConsumerID r) (TrimSpace other)))
      by congruence. }
  unfold heartbeat, ack, nack, requeue. rewrite Hq, Hid, Hr, Hs. cbn [errorsIsAcked mbind option_bind].
  rewrite (proj2 (str_eqb_neq _ _) Hne), (proj2 (str_eqb_neq (mr_ConsumerID r) (TrimSpace other)))
    by congruence.
  rewrite !bool_decide_false by (rewrite Hs; intuition discriminate). done.
Qed.

Lemma live_delivery_is_exclusive_witness :
  ack (t0 + 2 * Second) demo "m1" "w2" 0 = (demo, Err ErrConsumerMismatch).
Proof.
  destruct (m_Records demo !! "m1") as [r|] eqn:E; [|by vm_compute in E].
  assert (Hr : mr_State r = StateInFlight /\ mr_ConsumerID r = "w1")
    by (revert E; vm_compute; by intros [= <-]).
  destruct (live_delivery_is_exclusive demo (t0 + 2 * Second) 0 "m1" "w2" "" r Second noOptions
              demoMailbox_reachable) as (_ & _ & H & _);
    [done | exact E | apply Hr | by vm_compute | by rewrite (proj2 Hr); vm_compute | exact H].
Defined.

(** ** Retry delay *)

Lemma double_exact d : 0 < d < 2 ^ 52 -> f64_to_i64 (f64_mul (f64_of_Z d) f64_two) = 2 * d.
Proof.
  intros Hd. rewrite f64_of_Z_exact by lia. unfold f64_mul, f64_two.
  rewrite f64_round_exact by lia.
  assert (Hv : f64_trunc (d * 2) (0 + 0) = 2 * d) by (change (d * 2 * 1 = 2 * d); lia).
  unfold f64_to_i64. rewrite Hv. unfold min_i64, max_i64.
  by rewrite (proj2 (Z.leb_le (- 2 ^ 63) (2 * d))), (proj2 (Z.leb_le (2 * d) (2 ^ 63 - 1))) by lia.
Qed.

Lemma doubleDelay_exact n mx d :
  0 < d <= mx -> mx < 2 ^ 52 -> doubleDelay n mx d = Z.min mx (d * 2 ^ Z.of_nat n).
Proof.
  revert d. induction n as [|n IH]; intros d Hd Hm.
  { cbn. lia. }
  cbn [doubleDelay]. rewrite double_exact by lia.
  assert (Hp : 0 < 2 ^ Z.of_nat n) by (apply Z.pow_pos_nonneg; lia).
  rewrite Nat2Z.inj_succ, Z.pow_succ_r by lia.
  destruct (Z.ltb_spec mx (2 * d)); [nia|]. rewrite IH by lia. f_equal. lia.
Qed.

Lemma jitterDelay_bounds mx delay w seed : 0 <= mx -> 0 <= jitterDelay mx delay w seed <= mx.
Proof. intros H. unfold jitterDelay. repeat case_match; lia. Qed.

Lemma policy_backoff p :
  let q := normalizePolicy p in 0 < mp_BackoffInitial q <= mp_BackoffMax q.
Proof. unfold normalizePolicy, Millisecond. cbn. repeat case_match; lia. Qed.

(** The retry delay is the exponential backoff. With a maximum below 2^52 ns
    (52 days), the delay after attempt n is the initial delay doubled n - 1
    times and capped at the maximum when there is no jitter (the float64
    doubling is exact), and with jitter it stays between zero and the maximum. *)
Theorem mailbox_retryDelay_is_backoff (s : mailboxState) (mid : string) (n : Z) :
  let p := normalizePolicy (m_Policy s) in
  1 <= n -> mp_BackoffMax p < 2 ^ 52 ->
  0 <= retryDelay s mid n <= mp_BackoffMax p
  /\ (f64_leb (mp_JitterRatio p) f64_zero = true ->
      retryDelay s mid n = Z.min (mp_BackoffMax p) (mp_BackoffInitial p * 2 ^ (n - 1))).
Proof.
  intros p Hn Hmax. pose proof (policy_backoff (m_Policy s)) as Hb. cbv zeta in Hb. fold p in Hb.
  unfold retryDelay. fold p. destruct (Z.leb_spec (mp_BackoffInitial p) 0); [lia|].
  destruct (Z.leb_spec n 1).
  { split; [lia|]. intros _. replace (n - 1) with 0 by lia. rewrite Z.pow_0_r. lia. }
  rewrite doubleDelay_exact by lia. rewrite Z2Nat.id by lia.
  assert (Hp : 0 < 2 ^ (n - 1)) by (apply Z.pow_pos_nonneg; lia).
  split; [|by intros ->]. destruct (f64_leb (mp_JitterRatio p) f64_zero); [nia|].
  case_match; [nia|]. apply jitterDelay_bounds. lia.
Qed.

Lemma mailbox_retryDelay_is_backoff_witness :
  retryDelay demo "m1" 3 = Z.min (500 * Millisecond) (50 * Millisecond * 2 ^ (3 - 1)).
Proof.
  apply (mailbox_retryDelay_is_backoff demo "m1" 3); [lia | by vm_compute | by vm_compute].
Defined.

(** ** History *)

(** The history journal has no gaps. While it is available, the retained
    entries of a reachable state carry the consecutive sequence numbers from
    just above the floor up to the journal's sequence, at most 1024 of them,
    each a valid entry; and after any further calls the entries that are still
    retained of that past are the same ones. *)
Theorem history_has_no_gaps (s : mailboxState) (calls : list (Time * call)) :
  reachable s ->
  let h := m_History s in let h' := m_History (run s calls) in
  (hj_Unavailable h = false ->
     he_Sequence <$> hj_Entries h = seqZ (hj_Floor h + 1) (hj_Sequence h - hj_Floor h))
  /\ (length (hj_Entries h) <= HistoryRetentionEntries)%nat
  /\ Forall (fun e => validHistoryEntry e = true) (hj_Entries h)
  /\ hj_SourceID h' = hj_SourceID h /\ hj_Sequence h <= hj_Sequence h' /\ hj_Floor h <= hj_Floor h'
  /\ (forall e, e ∈ hj_Entries h' -> he_Sequence e <= hj_Sequence h -> e ∈ hj_Entries h).
Proof.
  intros Hj%reachable_journal h h'. destruct (proj1 (run_grows s calls) Hj) as [_ Hext].
  split; [|split; [apply Hj|]; split; [apply Hj | exact Hext]].
  unfold h. intros Hu. rewrite (jk_sequences _ Hj). f_equal. rewrite (jk_sequence _ Hj), Hu. lia.
Qed.

Lemma history_has_no_gaps_witness :
  he_Sequence <$> hj_Entries (m_History demo) = seqZ (0 + 1) (3 - 0).
Proof. exact (proj1 (history_has_no_gaps demo [] demoMailbox_reachable) eq_refl). Defined.

(** ** Snapshots *)

(** A snapshot restores. For every reachable state whose journal has a valid
    source id, restoring its snapshot into any mailbox succeeds, in whatever
    order the idempotency map is visited, and gives back the same history,
    records, queue, idempotency index, continuations, policy and counters. *)
Theorem mailbox_snapshot_restores (order : RangeOrder) (sid : string) (s target : mailboxState) :
  reachable s -> sourceValid HistoryVersion (hj_SourceID (m_History s)) = true ->
  restore sid target (snapshot s)
  = Ok (s <| m_Stats ::= fun st => st <| ms_Backend := restoredBackend s target |> |>
          <| m_events := m_events target |> <| m_traceEvents := m_traceEvents target |>).
Proof.
  intros Hs Hsrc. apply restore_snapshot; [by apply reachable_mailbox_inv | by apply reachable_journal | done].
Qed.

Lemma mailbox_snapshot_restores_witness :
  is_ok (restore (order := listing_order) "X" (newMailboxState "Y" "file" demoPolicy) (snapshot demo)) = true.
Proof.
  rewrite (mailbox_snapshot_restores listing_order "X" demo (newMailboxState "Y" "file" demoPolicy)
             demoMailbox_reachable); [reflexivity | by vm_compute].
Defined.

(** A continuation mutation silences the lifecycle observers. It replaces the
    state by a clone restored from a snapshot, and a snapshot carries neither
    the tracing flag nor the pending events: after a mutation that changes
    nothing the records are the same, but tracing is off and the undelivered
    events are gone. *)
Theorem continuation_mutation_drops_tracing (order : RangeOrder) (sid : string) (s : mailboxState) :
  reachable s -> sourceValid HistoryVersion (hj_SourceID (m_History s)) = true ->
  exists s', continuationMutate sid s Ok = Ok s'
  /\ m_Records s' = m_Records s /\ m_Queue s' = m_Queue s /\ m_History s' = m_History s
  /\ m_traceEvents s' = false /\ m_events s' = [].
Proof.
  intros Hs Hsrc. unfold continuationMutate, cloneMailboxState.
  rewrite restore_snapshot; [| by apply reachable_mailbox_inv | by apply reachable_journal | done].
  eexists. split; [reflexivity|]. done.
Qed.

Definition demoTraced : mailboxState := run demo [(t0, CallTrace true); (t0 + 2 * Second, CallAck "m1" "w1" 0)].

Lemma demoTraced_reachable : reachable demoTraced.
Proof.
  exists "SRC", "memory", demoPolicy,
    (demoCalls ++ [(t0, CallTrace true); (t0 + 2 * Second, CallAck "m1" "w1" 0)]).
  split; [by repeat constructor | reflexivity].
Qed.

Lemma continuation_mutation_drops_tracing_witness :
  m_traceEvents demoTraced = true /\ length (m_events demoTraced) = 1%nat
  /\ exists s', continuationMutate (order := listing_order) "X" demoTraced Ok = Ok s'
     /\ m_traceEvents s' = false /\ m_events s' = [].
Proof.
  split; [reflexivity|]. split; [by vm_compute|].
  destruct (continuation_mutation_drops_tracing listing_order "X" demoTraced demoTraced_reachable)
    as (s' & H1 & _ & _ & _ & H2 & H3); [vm_compute; reflexivity|].
  exact (ex_intro _ s' (conj H1 (conj H2 H3))).
Defined.
