(* ===== verification/MailboxStore.v ===== *)
(** * Mailbox: the stores

    The [Store] interface of [orchestration/mailbox] and its two implementations: the
    memory store ([store_memory.go]), which is the state machine behind a mutex, and the
    file store ([store_file.go]), which writes a snapshot to a JSON file after
    mutations, at once or in batches. A mutex makes each operation one step. The
    contexts the methods take are used by [continuationMutate] only. *)
From S2P Require Import Prelude GoStrings GoNum MailboxTypes MailboxState MailboxSnapshot.

Local Open Scope bool_scope.
Local Open Scope string_scope.
Local Open Scope list_scope.
Local Open Scope Z_scope.

(** What an operation reads from its environment: the clock of the mailbox, two
    readings of [time.Now] (the second one for [time.Since]), the failure of the file
    system calls, if they fail, and what [rand.Text] returns. *)
Record MailboxEnv : Type := mkMailboxEnv {
  me_now : Time;
  me_wall : Time;
  me_later : Time;
  me_io : option string;
  me_rand : string
}.

Abbreviation moutcome T A := (T * result MailboxError A)%type.

(** ** The interface *)

Class MailboxStore (T : Type) : Type := {
  mb_Backend : T -> string;
  mb_Publish : MailboxEnv -> T -> Envelope -> Time -> moutcome T PublishResult;
  mb_Consume : MailboxEnv -> T -> string -> Time -> Duration -> bool -> moutcome T (option MessageRecord);
  mb_Heartbeat : MailboxEnv -> T -> string -> string -> Time -> Duration -> moutcome T MessageRecord;
  mb_Ack : MailboxEnv -> T -> string -> string -> Time -> moutcome T MessageRecord;
  mb_Nack : MailboxEnv -> T -> string -> string -> string -> Time -> ActionOptions -> moutcome T MessageRecord;
  mb_Requeue : MailboxEnv -> T -> string -> string -> string -> Time -> ActionOptions -> moutcome T MessageRecord;
  mb_Stats : T -> Stats;
  mb_Snapshot : T -> Snapshot;
  mb_Restore : MailboxEnv -> T -> Snapshot -> moutcome T unit;
  mb_DrainLifecycleEvents : T -> T * list LifecycleEvent;
  mb_SetLifecycleTracing : T -> bool -> T
}.

(** The delivery of a consume, without the flag that the state changed. *)
Definition delivered (x : mailboxState * result MailboxError (option MessageRecord * bool))
    : mailboxState * result MailboxError (option MessageRecord) :=
  (x.1, match x.2 with Ok (rec, _) => Ok rec | Err e => Err e end).

(** ** The memory store *)

Record MemoryStore : Type := mkMemoryStore { mm_state : mailboxState }.

Definition NewMemoryStore (sourceID : string) (policy : Policy) : MemoryStore :=
  mkMemoryStore (newMailboxState sourceID "memory" policy).

Definition MarkFallback (reason : string) (m : MemoryStore) : MemoryStore :=
  mkMemoryStore (setFallback (mm_state m) reason).

(** Runs an operation of the state machine under the lock. *)
Definition locked {A} (x : mailboxState * A) : MemoryStore * A := (mkMemoryStore x.1, x.2).

Section stores.
Context {order : RangeOrder}.

Definition restoreInto (sourceID : string) (s : mailboxState) (sn : Snapshot) : moutcome mailboxState unit :=
  match restore sourceID s sn with
  | Ok s' => (s', Ok tt)
  | Err e => (s, Err e)
  end.

#[export] Instance MemoryStore_MailboxStore : MailboxStore MemoryStore := {|
  mb_Backend _ := "memory";
  mb_Publish e m env now := locked (publish (me_wall e) (mm_state m) env now);
  mb_Consume e m c now d b := locked (delivered (consume (me_wall e) (mm_state m) c now d b));
  mb_Heartbeat e m id c now d := locked (heartbeat (me_wall e) (mm_state m) id c now d);
  mb_Ack e m id c now := locked (ack (me_wall e) (mm_state m) id c now);
  mb_Nack e m id c r now o := locked (nack (me_wall e) (mm_state m) id c r now o);
  mb_Requeue e m id c r now o := locked (requeue (me_wall e) (mm_state m) id c r now o);
  mb_Stats m := m_Stats (mm_state m);
  mb_Snapshot m := snapshot (mm_state m);
  mb_Restore e m sn := locked (restoreInto (me_rand e) (mm_state m) sn);
  mb_DrainLifecycleEvents m := locked (drainLifecycleEvents (mm_state m));
  mb_SetLifecycleTracing m b := mkMemoryStore (setTraceEvents (mm_state m) b)
|}.

(** ** The file store *)

(** [encoding/json] on snapshots: what is written, and what is read back. *)
Class SnapshotCodec : Type := {
  snap_Marshal : Snapshot -> string;
  snap_Unmarshal : string -> option Snapshot
}.

Record fileStoreOptions : Type := mkFileStoreOptions {
  mo_PersistDebounce : Duration;
  mo_PersistBatchSize : Z
}.

Definition WithPersistDebounce (d : Duration) (o : fileStoreOptions) : fileStoreOptions :=
  mkFileStoreOptions d (mo_PersistBatchSize o).

Definition WithPersistBatchSize (n : Z) (o : fileStoreOptions) : fileStoreOptions :=
  mkFileStoreOptions (mo_PersistDebounce o) n.

Definition normalizeFileStoreOptions (opts : list (fileStoreOptions -> fileStoreOptions)) : fileStoreOptions :=
  let n := foldl (fun o f => f o) (mkFileStoreOptions 0 1) opts in
  mkFileStoreOptions
    (if mo_PersistDebounce n <? 0 then 0 else mo_PersistDebounce n)
    (if mo_PersistBatchSize n <=? 0 then 1 else mo_PersistBatchSize n).

Definition batchingEnabled (o : fileStoreOptions) : bool :=
  (0 <? mo_PersistDebounce o) || (1 <? mo_PersistBatchSize o).

(** [mf_file] is the content of the file at [path], absent at first. *)
Record FileStore : Type := mkFileStore {
  mf_historyPersistFailed : bool;
  mf_historyCommitted : bool;
  mf_state : mailboxState;
  mf_persistOpts : fileStoreOptions;
  mf_pendingPersist : Z;
  mf_dirtySince : Time;
  mf_file : option string
}.
#[export] Instance eta_MailboxFileStore : Settable FileStore := fun r =>
  mkFileStore (mf_historyPersistFailed r) (mf_historyCommitted r) (mf_state r) (mf_persistOpts r)
    (mf_pendingPersist r) (mf_dirtySince r) (mf_file r).

Context {codec : SnapshotCodec}.

(** The file is replaced by renaming a complete temporary file: a failure leaves it as
    it was. *)
Definition persist (e : MailboxEnv) (fs : FileStore) : moutcome FileStore unit :=
  match me_io e with
  | Some why => (fs <| mf_historyPersistFailed := true |>, Err (ErrFileBackend why))
  | None =>
      (fs <| mf_file := Some (snap_Marshal (snapshot (mf_state fs))) |>
          <| mf_historyPersistFailed := false |> <| mf_historyCommitted := true |>, Ok tt)
  end.

Definition flushPersistLocked (e : MailboxEnv) (fs : FileStore) : moutcome FileStore unit :=
  if batchingEnabled (mf_persistOpts fs) && (mf_pendingPersist fs =? 0) then (fs, Ok tt)
  else match persist e fs with
  | (fs, Err er) => (fs, Err er)
  | (fs, Ok _) => (fs <| mf_pendingPersist := 0 |> <| mf_dirtySince := 0 |>, Ok tt)
  end.

Definition maybePersistLocked (e : MailboxEnv) (force : bool) (fs : FileStore) : moutcome FileStore unit :=
  if negb (batchingEnabled (mf_persistOpts fs)) then persist e fs
  else
    let fs := fs <| mf_pendingPersist ::= Z.succ |> in
    let fs := if IsZero (mf_dirtySince fs) then fs <| mf_dirtySince := me_wall e |> else fs in
    if force then flushPersistLocked e fs
    else if mo_PersistBatchSize (mf_persistOpts fs) <=? mf_pendingPersist fs then flushPersistLocked e fs
    else if (0 <? mo_PersistDebounce (mf_persistOpts fs))
            && (mo_PersistDebounce (mf_persistOpts fs) <=? TimeSub (me_later e) (mf_dirtySince fs))
    then flushPersistLocked e fs
    else (fs, Ok tt).

(** An operation of the state machine, persisted when it succeeds. *)
Definition persisted {A} (e : MailboxEnv) (force : bool) (fs : FileStore)
    (x : mailboxState * result MailboxError A) : moutcome FileStore A :=
  let fs := fs <| mf_state := x.1 |> in
  match x.2 with
  | Err er => (fs, Err er)
  | Ok a =>
      match maybePersistLocked e force fs with
      | (fs, Err er) => (fs, Err er)
      | (fs, Ok _) => (fs, Ok a)
      end
  end.

(** A consume that delivered nothing and changed nothing is not persisted. *)
Definition consumeFile (e : MailboxEnv) (fs : FileStore) (consumerID : string) (now : Time) (d : Duration)
    (reclaim : bool) : moutcome FileStore (option MessageRecord) :=
  match consume (me_wall e) (mf_state fs) consumerID now d reclaim with
  | (s, Ok (None, false)) => (fs <| mf_state := s |>, Ok None)
  | x => persisted e false fs (delivered x)
  end.

Definition Flush (e : MailboxEnv) (fs : FileStore) : moutcome FileStore unit := flushPersistLocked e fs.

Definition load (e : MailboxEnv) (fs : FileStore) : moutcome FileStore unit :=
  match me_io e with
  | Some why => (fs, Err (ErrFileBackend why))
  | None =>
      match mf_file fs with
      | None => (fs, Ok tt)
      | Some raw =>
          match snap_Unmarshal raw with
          | None => (fs, Err (ErrFileBackend "decode mailbox file backend"))
          | Some sn =>
              match restore (me_rand e) (mf_state fs) sn with
              | Ok s => (fs <| mf_state := s |> <| mf_historyCommitted := bool_decide (is_Some (sn_History sn)) |>,
                         Ok tt)
              | Err er => (fs, Err er)
              end
          end
      end
  end.

(** [file] is what the path holds when the store is opened. *)
Definition NewFileStore (e : MailboxEnv) (path : string) (policy : Policy)
    (opts : list (fileStoreOptions -> fileStoreOptions)) (file : option string) : result MailboxError FileStore :=
  if TrimSpace path =s? "" then Err (ErrFileBackend "mailbox file backend path is required")
  else
    let fs := mkFileStore false false (newMailboxState (me_rand e) "file" policy) (normalizeFileStoreOptions opts)
                0 0 file in
    match load e fs with
    | (fs, Ok _) => Ok fs
    | (_, Err er) => Err er
    end.

#[export] Instance FileStore_MailboxStore : MailboxStore FileStore := {|
  mb_Backend _ := "file";
  mb_Publish e fs env now := persisted e false fs (publish (me_wall e) (mf_state fs) env now);
  mb_Consume e fs c now d b := consumeFile e fs c now d b;
  mb_Heartbeat e fs id c now d := persisted e false fs (heartbeat (me_wall e) (mf_state fs) id c now d);
  mb_Ack e fs id c now := persisted e false fs (ack (me_wall e) (mf_state fs) id c now);
  mb_Nack e fs id c r now o := persisted e false fs (nack (me_wall e) (mf_state fs) id c r now o);
  mb_Requeue e fs id c r now o := persisted e false fs (requeue (me_wall e) (mf_state fs) id c r now o);
  mb_Stats fs := m_Stats (mf_state fs);
  mb_Snapshot fs := snapshot (mf_state fs);
  mb_Restore e fs sn := persisted e true fs (restoreInto (me_rand e) (mf_state fs) sn);
  mb_DrainLifecycleEvents fs :=
    let '(s, events) := drainLifecycleEvents (mf_state fs) in (fs <| mf_state := s |>, events);
  mb_SetLifecycleTracing fs b := fs <| mf_state ::= fun s => setTraceEvents s b |>
|}.

(** [FileStore.continuationMutate] with a live context: a clone is changed, takes the
    place of the state, and gives it back when it cannot be written. *)
Definition continuationMutateFile (e : MailboxEnv) (fs : FileStore)
    (fn : mailboxState -> result MailboxError mailboxState) : moutcome FileStore unit :=
  match continuationMutate (me_rand e) (mf_state fs) fn with
  | Err er => (fs, Err er)
  | Ok candidate =>
      match maybePersistLocked e true (fs <| mf_state := candidate |>) with
      | (fs', Err er) => (fs' <| mf_state := mf_state fs |>, Err er)
      | (fs', Ok _) => (fs', Ok tt)
      end
  end.

(** ** Choosing a store *)

Inductive AnyStore : Type :=
| UsesMemory (m : MemoryStore)
| UsesFile (fs : FileStore).

Record StoreInitResult : Type := mkStoreInitResult {
  si_Store : AnyStore;
  si_Requested : string;
  si_Backend : string;
  si_Fallback : bool;
  si_FallbackReason : string
}.

Definition newStoreWithFallback (e : MailboxEnv) (backend path : string) (policy : Policy)
    (opts : list (fileStoreOptions -> fileStoreOptions)) (file : option string)
    : result MailboxError StoreInitResult :=
  let normalizedBackend := lower_trim backend in
  if (normalizedBackend =s? "") || (normalizedBackend =s? "memory") then
    Ok (mkStoreInitResult (UsesMemory (NewMemoryStore (me_rand e) policy)) "" "memory" false "")
  else if normalizedBackend =s? "file" then
    match NewFileStore e path policy opts file with
    | Err _ =>
        Ok (mkStoreInitResult
              (UsesMemory (MarkFallback "mailbox.backend.file_init_failed" (NewMemoryStore (me_rand e) policy)))
              "file" "memory" true "mailbox.backend.file_init_failed")
    | Ok fs => Ok (mkStoreInitResult (UsesFile fs) "file" "file" false "")
    end
  else Err (ErrUnsupportedBackend backend).
End stores.
