(* ===== verification/MailboxFacade.v ===== *)
(** * Mailbox: the facade and its query

    [Mailbox] of [orchestration/mailbox/mailbox.go] over any store: the operations with
    their clock, the lifecycle events given to the observers, the query of
    [query.go] with its cache, and the synchronous invocation. The model is one
    goroutine's view: an operation of the facade is one step. *)
From S2P Require Import Prelude GoStrings GoNum Paging MailboxTypes MailboxState MailboxSnapshot.
From S2P Require Import MailboxStore.

Local Open Scope bool_scope.
Local Open Scope string_scope.
Local Open Scope list_scope.
Local Open Scope Z_scope.

Definition DefaultQueryPageSize : Z := 50.
Definition MaxQueryPageSize : Z := 200.

(** ** Queries *)

Record QueryTimeRange : Type := mkQueryTimeRange {
  qt_Start : Time;
  qt_End : Time
}.

Record QueryRequest : Type := mkQueryRequest {
  qr_MessageID : string;
  qr_IdempotencyKey : string;
  qr_CorrelationID : string;
  qr_Kind : string;
  qr_State : string;
  qr_FromAgent : string;
  qr_ToAgent : string;
  qr_TaskID : string;
  qr_RunID : string;
  qr_WorkflowID : string;
  qr_TeamID : string;
  qr_TimeRange : option QueryTimeRange;
  qr_PageSize : option Z;
  qr_SortField : string;
  qr_SortOrder : string;
  qr_Cursor : string
}.
#[export] Instance eta_QueryRequest : Settable QueryRequest := fun r =>
  mkQueryRequest (qr_MessageID r) (qr_IdempotencyKey r) (qr_CorrelationID r) (qr_Kind r) (qr_State r)
    (qr_FromAgent r) (qr_ToAgent r) (qr_TaskID r) (qr_RunID r) (qr_WorkflowID r) (qr_TeamID r)
    (qr_TimeRange r) (qr_PageSize r) (qr_SortField r) (qr_SortOrder r) (qr_Cursor r).

Record QueryResult : Type := mkQueryResult {
  qo_Items : list MessageRecord;
  qo_NextCursor : string;
  qo_PageSize : Z;
  qo_SortField : string;
  qo_SortOrder : string
}.

Record normalizedQuery : Type := mkNormalizedQuery {
  nq_MessageID : string;
  nq_IdempotencyKey : string;
  nq_CorrelationID : string;
  nq_Kind : string;
  nq_State : string;
  nq_FromAgent : string;
  nq_ToAgent : string;
  nq_TaskID : string;
  nq_RunID : string;
  nq_WorkflowID : string;
  nq_TeamID : string;
  nq_TimeRange : option QueryTimeRange;
  nq_PageSize : Z;
  nq_SortField : string;
  nq_SortOrder : string;
  nq_Cursor : string
}.

Definition EnvelopeKind_string (k : EnvelopeKind) : string :=
  match k with
  | KindCommand => "command"
  | KindEvent => "event"
  | KindResult => "result"
  | KindOther s => s
  end.

Definition MessageState_string (st : MessageState) : string :=
  match st with
  | StateQueued => "queued"
  | StateInFlight => "in_flight"
  | StateAcked => "acked"
  | StateNacked => "nacked"
  | StateDeadLetter => "dead_letter"
  | StateExpired => "expired"
  | StateOther s => s
  end.

Definition kindFilters : list string := EnvelopeKind_string <$> [KindCommand; KindEvent; KindResult].

Definition stateFilters : list string :=
  MessageState_string <$> [StateQueued; StateInFlight; StateAcked; StateNacked; StateDeadLetter; StateExpired].

(** [UTC] is the identity on instants. *)
Definition normalizeQuery (req : QueryRequest) : result MailboxError normalizedQuery :=
  let pageSize := default DefaultQueryPageSize (qr_PageSize req) in
  require match qr_PageSize req with
          | Some p => negb ((p <=? 0) || (MaxQueryPageSize <? p))
          | None => true
          end orelse ErrPageSize pageSize;
  let sortField := orDefaultStr "updated_at" (lower_trim (qr_SortField req)) in
  require (sortField =s? "updated_at") || (sortField =s? "created_at") orelse ErrSortField (qr_SortField req);
  let sortOrder := orDefaultStr "desc" (lower_trim (qr_SortOrder req)) in
  require (sortOrder =s? "asc") || (sortOrder =s? "desc") orelse ErrSortOrder (qr_SortOrder req);
  let kind := lower_trim (qr_Kind req) in
  require (kind =s? "") || bool_decide (kind ∈ kindFilters) orelse ErrKindFilter (qr_Kind req);
  let state := lower_trim (qr_State req) in
  require (state =s? "") || bool_decide (state ∈ stateFilters) orelse ErrStateFilter (qr_State req);
  require match qr_TimeRange req with
          | Some tr => negb (negb (IsZero (qt_Start tr)) && negb (IsZero (qt_End tr))
                             && After (qt_Start tr) (qt_End tr))
          | None => true
          end orelse ErrTimeRange;
  Ok (mkNormalizedQuery (TrimSpace (qr_MessageID req)) (TrimSpace (qr_IdempotencyKey req))
        (TrimSpace (qr_CorrelationID req)) kind state (TrimSpace (qr_FromAgent req))
        (TrimSpace (qr_ToAgent req)) (TrimSpace (qr_TaskID req)) (TrimSpace (qr_RunID req))
        (TrimSpace (qr_WorkflowID req)) (TrimSpace (qr_TeamID req)) (qr_TimeRange req) pageSize
        sortField sortOrder (TrimSpace (qr_Cursor req))).

(** [q != "" && strings.TrimSpace(v) != q] does not hold. *)
Definition matchField (q v : string) : bool := (q =s? "") || (TrimSpace v =s? q).

Definition matchTimeRange (tr : option QueryTimeRange) (ts : Time) : bool :=
  match tr with
  | None => true
  | Some tr =>
      (IsZero (qt_Start tr) || negb (IsZero ts || Before ts (qt_Start tr)))
      && (IsZero (qt_End tr) || negb (IsZero ts || After ts (qt_End tr)))
  end.

Definition matchesQuery (record : MessageRecord) (q : normalizedQuery) : bool :=
  let env := mr_Envelope record in
  matchField (nq_MessageID q) (ev_MessageID env)
  && matchField (nq_IdempotencyKey q) (ev_IdempotencyKey env)
  && matchField (nq_CorrelationID q) (ev_CorrelationID env)
  && matchField (nq_Kind q) (EnvelopeKind_string (ev_Kind env))
  && matchField (nq_State q) (MessageState_string (mr_State record))
  && matchField (nq_FromAgent q) (ev_FromAgent env) && matchField (nq_ToAgent q) (ev_ToAgent env)
  && matchField (nq_TaskID q) (ev_TaskID env) && matchField (nq_RunID q) (ev_RunID env)
  && matchField (nq_WorkflowID q) (ev_WorkflowID env) && matchField (nq_TeamID q) (ev_TeamID env)
  && matchTimeRange (nq_TimeRange q) (mr_UpdatedAt record).

Definition querySortTimestamp (record : MessageRecord) (field : string) : Time :=
  if lower_trim field =s? "created_at" then mr_CreatedAt record else mr_UpdatedAt record.

(** The comparison passed to [sort.SliceStable]. *)
Definition queryLess (field order : string) (left right : MessageRecord) : bool :=
  let desc := negb (lower_trim order =s? "asc") in
  let l := querySortTimestamp left field in
  let r := querySortTimestamp right field in
  if TimeEqual l r
  then str_ltb (TrimSpace (ev_MessageID (mr_Envelope left))) (TrimSpace (ev_MessageID (mr_Envelope right)))
  else if desc then After l r else Before l r.

Definition sortQuery (records : list MessageRecord) (field order : string) : list MessageRecord :=
  SliceStable (queryLess field order) records.

Definition filterQueryRecords (records : list MessageRecord) (q : normalizedQuery) : list MessageRecord :=
  sortQuery (cloneRecord <$> List.filter (fun r => matchesQuery r q) records) (nq_SortField q) (nq_SortOrder q).

(** ** The facade *)

(** The observers are numbered; [mx_observed] are their calls, in order. *)
Record Mailbox (T : Type) : Type := mkMailbox {
  mx_store : T;
  mx_observers : nat;
  mx_observed : list (nat * LifecycleEvent);
  mx_handlerContinuationConfigured : bool;
  mx_queryCacheEpoch : Z;
  mx_queryCache : gmap string (list MessageRecord)
}.
Arguments mkMailbox {T}.
Arguments mx_store {T}.
Arguments mx_observers {T}.
Arguments mx_observed {T}.
Arguments mx_handlerContinuationConfigured {T}.
Arguments mx_queryCacheEpoch {T}.
Arguments mx_queryCache {T}.
#[export] Instance eta_Mailbox T : Settable (Mailbox T) := fun r =>
  mkMailbox (mx_store r) (mx_observers r) (mx_observed r) (mx_handlerContinuationConfigured r)
    (mx_queryCacheEpoch r) (mx_queryCache r).

Section facade.
Context {T : Type} `{MailboxStore T}.

(** Tracing is on when there is an observer. *)
Definition New (store : T) (observers : nat) : Mailbox T :=
  mkMailbox (mb_SetLifecycleTracing store (0 <? observers)%nat) observers [] false 0 ∅.

Definition invalidateQueryCache (m : Mailbox T) : Mailbox T :=
  m <| mx_queryCacheEpoch ::= fun n => wrap_u64 (n + 1) |> <| mx_queryCache := ∅ |>.

(** Each event goes to each observer. *)
Definition emitLifecycle (e : MailboxEnv) (m : Mailbox T) : Mailbox T :=
  let '(store, events) := mb_DrainLifecycleEvents (mx_store m) in
  let stamped := (fun ev => if IsZero (le_Time ev)
                            then mkLifecycleEvent (me_now e) (le_Transition ev) (le_Record ev) (le_ReasonCode ev)
                                   (le_Reclaimed ev) (le_PanicRecovered ev)
                            else ev) <$> events in
  m <| mx_store := store |>
    <| mx_observed ::= fun l => l ++ (ev ← stamped; (fun i => (i, ev)) <$> seq 0 (mx_observers m)) |>.

(** A store operation: the cache is invalidated when it succeeds, then the observers
    get the events. *)
Definition settling {A} (e : MailboxEnv) (m : Mailbox T) (x : T * result MailboxError A)
    : Mailbox T * result MailboxError A :=
  let m := m <| mx_store := x.1 |> in
  let m := if is_ok x.2 then invalidateQueryCache m else m in
  (emitLifecycle e m, x.2).

Definition Publish (e : MailboxEnv) (m : Mailbox T) (envelope : Envelope)
    : Mailbox T * result MailboxError PublishResult :=
  let '(store, r) := mb_Publish e (mx_store m) envelope (me_now e) in
  let m := m <| mx_store := store |> in
  (if is_ok r then invalidateQueryCache m else m, r).

Definition ConsumeWithLease (e : MailboxEnv) (m : Mailbox T) (consumerID : string) (inflightTimeout : Duration)
    (reclaimOnConsume : bool) : Mailbox T * result MailboxError (option MessageRecord) :=
  settling e m (mb_Consume e (mx_store m) consumerID (me_now e) inflightTimeout reclaimOnConsume).

Definition Consume (e : MailboxEnv) (m : Mailbox T) (consumerID : string) :=
  ConsumeWithLease e m consumerID 0 false.

Definition Ack (e : MailboxEnv) (m : Mailbox T) (messageID consumerID : string) :=
  settling e m (mb_Ack e (mx_store m) messageID consumerID (me_now e)).

Definition NackWithOptions (e : MailboxEnv) (m : Mailbox T) (messageID consumerID reason : string)
    (opts : ActionOptions) :=
  settling e m (mb_Nack e (mx_store m) messageID consumerID reason (me_now e) opts).

Definition Nack (e : MailboxEnv) (m : Mailbox T) (messageID consumerID reason : string) :=
  NackWithOptions e m messageID consumerID reason noOptions.

Definition RequeueWithOptions (e : MailboxEnv) (m : Mailbox T) (messageID consumerID reason : string)
    (opts : ActionOptions) :=
  settling e m (mb_Requeue e (mx_store m) messageID consumerID reason (me_now e) opts).

Definition Requeue (e : MailboxEnv) (m : Mailbox T) (messageID consumerID reason : string) :=
  RequeueWithOptions e m messageID consumerID reason noOptions.

Definition Heartbeat (e : MailboxEnv) (m : Mailbox T) (messageID consumerID : string) (inflightTimeout : Duration) :=
  settling e m (mb_Heartbeat e (mx_store m) messageID consumerID (me_now e) inflightTimeout).

Definition FacadeStats (m : Mailbox T) : Stats := mb_Stats (mx_store m).

Definition FacadeSnapshot (m : Mailbox T) : Snapshot := mb_Snapshot (mx_store m).

Definition Restore (e : MailboxEnv) (m : Mailbox T) (sn : Snapshot) : Mailbox T * result MailboxError unit :=
  let '(store, r) := mb_Restore e (mx_store m) sn in
  let m := m <| mx_store := store |> in
  (if is_ok r then invalidateQueryCache m else m, r).

(** ** The cached query *)

Context {codec : QueryCodec}.

Definition queryRaw (q : normalizedQuery) : string :=
  let instant (t : Time) := if IsZero t then 0 else UnixNano t in
  let start := match nq_TimeRange q with Some tr => instant (qt_Start tr) | None => 0 end in
  let end_ := match nq_TimeRange q with Some tr => instant (qt_End tr) | None => 0 end in
  String.concat "|"
    [nq_MessageID q; nq_IdempotencyKey q; nq_CorrelationID q; nq_Kind q; nq_State q; nq_FromAgent q;
     nq_ToAgent q; nq_TaskID q; nq_RunID q; nq_WorkflowID q; nq_TeamID q; itoa start; itoa end_;
     nq_SortField q; nq_SortOrder q; itoa (nq_PageSize q)].

Definition queryHash (q : normalizedQuery) : string := sha1Hex (queryRaw q).

Definition buildQueryResult (filtered : list MessageRecord) (q : normalizedQuery) (start : Z) (hash : string)
    : result MailboxError QueryResult :=
  match pageOf filtered start (nq_PageSize q) hash with
  | None => Err ErrQueryCursor
  | Some (items, nextCursor) =>
      Ok (mkQueryResult items nextCursor (nq_PageSize q) (nq_SortField q) (nq_SortOrder q))
  end.

Definition readQueryCache (m : Mailbox T) (epoch : Z) (key : string) : option (list MessageRecord) :=
  if TrimSpace key =s? "" then None
  else if negb (mx_queryCacheEpoch m =? epoch) then None
  else mx_queryCache m !! key.

Definition maxEntries : nat := 32.

Definition writeQueryCache (m : Mailbox T) (epoch : Z) (key : string) (items : list MessageRecord) : Mailbox T :=
  if TrimSpace key =s? "" then m
  else if negb (mx_queryCacheEpoch m =? epoch) then m
  else
    let cache := if (maxEntries <=? size (mx_queryCache m))%nat then ∅ else mx_queryCache m in
    m <| mx_queryCache := <[key := items]> cache |>.

Definition Query (m : Mailbox T) (req : QueryRequest) : Mailbox T * result MailboxError QueryResult :=
  match normalizeQuery req with
  | Err e => (m, Err e)
  | Ok q =>
      let key := queryHash q in
      match decodeCursor (nq_Cursor q) key with
      | None => (m, Err ErrQueryCursor)
      | Some start =>
          let epoch := mx_queryCacheEpoch m in
          match readQueryCache m epoch key with
          | Some filtered => (m, buildQueryResult filtered q start key)
          | None =>
              let filtered := filterQueryRecords (sn_Records (mb_Snapshot (mx_store m))) q in
              (writeQueryCache m epoch key filtered, buildQueryResult filtered q start key)
          end
      end
  end.

(** ** Invocation *)

Definition PublishCommand (e : MailboxEnv) (m : Mailbox T) (envelope : Envelope) :=
  if bool_decide (ev_Kind envelope = KindCommand) then Publish e m envelope else (m, Err (ErrPublishKind "command")).

Definition PublishTerminal (e : MailboxEnv) (m : Mailbox T) (envelope : Envelope) :=
  if bool_decide (ev_Kind envelope = KindResult) then Publish e m envelope else (m, Err (ErrPublishKind "result")).

Definition orElse (v fallback : string) : string := if TrimSpace v =s? "" then fallback else v.

(** The result of a command, with the identities of the command where it has none. *)
Definition terminalFor (command terminal : Envelope) : Envelope :=
  terminal <| ev_Kind := KindResult |>
           <| ev_CorrelationID ::= fun v => orElse v (ev_MessageID command) |>
           <| ev_RunID ::= fun v => orElse v (ev_RunID command) |>
           <| ev_TaskID ::= fun v => orElse v (ev_TaskID command) |>
           <| ev_WorkflowID ::= fun v => orElse v (ev_WorkflowID command) |>
           <| ev_TeamID ::= fun v => orElse v (ev_TeamID command) |>.

(** [InvokeSync]: [waitTerminal] is what the callback answers for the published
    command, and [between] what others do meanwhile; also the publications made. *)
Definition InvokeSync (e e' : MailboxEnv) (m : Mailbox T) (command : Envelope)
    (waitTerminal : option (Envelope -> result string Envelope)) (between : Mailbox T -> Mailbox T)
    : Mailbox T * option PublishResult * result MailboxError PublishResult :=
  match waitTerminal with
  | None => (m, None, Err (ErrCallback "waitTerminal callback is required"))
  | Some wait =>
      match PublishCommand e m (command <| ev_Kind := KindCommand |>) with
      | (m, Err er) => (m, None, Err er)
      | (m, Ok published) =>
          let sent := mr_Envelope (pr_Record published) in
          let m := between m in
          match wait sent with
          | Err why => (m, Some published, Err (ErrCallback why))
          | Ok terminal =>
              match PublishTerminal e' m (terminalFor sent terminal) with
              | (m, Err er) => (m, Some published, Err er)
              | (m, Ok result) => (m, Some published, Ok result)
              end
          end
      end
  end.
End facade.
