(* ===== verification/MailboxWorker.v ===== *)
(** * Mailbox: the worker

    [Worker] of [orchestration/mailbox/worker.go] with an ordinary handler: it consumes a
    message under a lease, renews the lease while the handler runs, and settles the
    message by what the handler answered. What happens between the consume and the
    settlement is a list of moments: ticks of the heartbeat goroutine and steps of
    others. A worker with a continuation handler pauses messages instead of settling
    them; it is not modelled. *)
From S2P Require Import Prelude GoStrings GoNum MailboxTypes MailboxState MailboxSnapshot.
From S2P Require Import MailboxStore MailboxFacade.

Local Open Scope bool_scope.
Local Open Scope string_scope.
Local Open Scope list_scope.
Local Open Scope Z_scope.

Record Worker : Type := mkWorker {
  wk_config : WorkerConfig;
  wk_consumerID : string
}.

Definition NewWorker (cfg : WorkerConfig) (consumerID : string) : result MailboxError Worker :=
  normalized ←ₑ NormalizeWorkerConfig cfg;
  let resolvedConsumer := TrimSpace consumerID in
  Ok (mkWorker normalized (if resolvedConsumer =s? "" then DefaultWorkerConsumerID else resolvedConsumer)).

(** What the handler did: returned nil, returned an error with that text, or panicked
    with a value that prints as that text. *)
Inductive HandlerAnswer : Type :=
| HandlerDone
| HandlerFailed (text : string)
| HandlerPanicked (value : string).

(** [invokeWorkerHandler]: whether a panic was recovered, and the text of the error. *)
Definition invokeWorkerHandler (a : HandlerAnswer) : bool * option string :=
  match a with
  | HandlerDone => (false, None)
  | HandlerFailed text => (false, Some text)
  | HandlerPanicked v => (true, Some ("worker handler panic recovered: " +:+ v))
  end.

(** The text of an error of a heartbeat. *)
Definition heartbeatErrorText (err : MailboxError) : string :=
  match err with
  | ErrMessageNotFound => "mailbox message not found"
  | ErrMessageNotInflight => "mailbox message is not in-flight"
  | ErrConsumerMismatch => "mailbox consumer mismatch"
  | ErrFileBackend why => why
  | _ => ""
  end.

Section worker.
Context {T : Type} `{MailboxStore T}.

(** A tick of the heartbeat goroutine, or a step of somebody else. *)
Inductive moment : Type :=
| Tick (e : MailboxEnv)
| Others (step : Mailbox T -> Mailbox T).

(** The moments during the handler; the goroutine ends at its first error. *)
Fixpoint whileHandling (w : Worker) (messageID : string) (during : list moment) (failed : option MailboxError)
    (m : Mailbox T) : Mailbox T * option MailboxError :=
  match during with
  | [] => (m, failed)
  | Others step :: during => whileHandling w messageID during failed (step m)
  | Tick e :: during =>
      match failed with
      | Some _ => whileHandling w messageID during failed m
      | None =>
          match Heartbeat e m messageID (wk_consumerID w) (wc_InflightTimeout (wk_config w)) with
          | (m, Ok _) => whileHandling w messageID during None m
          | (m, Err er) => whileHandling w messageID during (Some er) m
          end
      end
  end.

(** The settlement of a claimed message. *)
Definition settle (e : MailboxEnv) (w : Worker) (m : Mailbox T) (messageID : string) (answer : HandlerAnswer)
    (beat : option MailboxError) : Mailbox T * option MailboxError :=
  let '(panicRecovered, handlerErr) := invokeWorkerHandler answer in
  let handlerErr := match handlerErr with Some t => Some t | None => heartbeatErrorText <$> beat end in
  let '(m, r) :=
    match handlerErr with
    | Some text =>
        let reason := if panicRecovered then LifecycleReasonHandlerError
                      else CanonicalizeLifecycleReason text LifecycleReasonHandlerError in
        let opts := mkActionOptions false panicRecovered in
        if wc_HandlerErrorPolicy (wk_config w) =s? WorkerHandlerErrorPolicyNack
        then NackWithOptions e m messageID (wk_consumerID w) reason opts
        else RequeueWithOptions e m messageID (wk_consumerID w) reason opts
    | None => Ack e m messageID (wk_consumerID w)
    end in
  (m, match r with Ok _ => None | Err er => Some er end).

(** What one round of the worker finds: the clocks of the consume and of the
    settlement, the moments between, and the handler. *)
Record Round : Type := mkRound {
  rd_begin : MailboxEnv;
  rd_during : list moment;
  rd_end : MailboxEnv;
  rd_handler : MessageRecord -> HandlerAnswer
}.

(** [RunOnce]: whether a message was processed, and the error. *)
Definition RunOnce (w : Worker) (r : Round) (m : Mailbox T) : Mailbox T * (bool * option MailboxError) :=
  let cfg := wk_config w in
  match ConsumeWithLease (rd_begin r) m (wk_consumerID w) (wc_InflightTimeout cfg) (wc_ReclaimOnConsume cfg) with
  | (m, Err er) => (m, (false, Some er))
  | (m, Ok None) => (m, (false, None))
  | (m, Ok (Some claimed)) =>
      let id := ev_MessageID (mr_Envelope claimed) in
      let '(m, beat) := whileHandling w id (rd_during r) None m in
      let '(m, err) := settle (rd_end r) w m id (rd_handler r claimed) beat in
      (m, (true, err))
  end.

(** [Run]: the rounds until the context ends, or until one fails; the flags say which
    rounds processed a message (a round that did not is followed by the poll timer). *)
Fixpoint runRounds (w : Worker) (rounds : list Round) (m : Mailbox T) : Mailbox T * (list bool * option MailboxError) :=
  match rounds with
  | [] => (m, ([], None))
  | r :: rounds =>
      match RunOnce w r m with
      | (m, (processed, Some er)) => (m, ([processed], Some er))
      | (m, (processed, None)) =>
          let '(m, (flags, err)) := runRounds w rounds m in (m, (processed :: flags, err))
      end
  end.

Definition Run (w : Worker) (rounds : list Round) (m : Mailbox T) : Mailbox T * (list bool * option MailboxError) :=
  if wc_Enabled (wk_config w) then runRounds w rounds m else (m, ([], None)).
End worker.

Arguments Round T : clear implicits.
Arguments moment T : clear implicits.
