(* ===== verification/MailboxContinuation.v ===== *)
(** * Mailbox: continuations of host plans

    [orchestration/mailbox/continuation.go] and [host_plan_binding.go]: a delivery in
    flight can be saved as a sealed continuation; later one resume request claims it,
    marks it running and commits a result. The operations go through the store's
    [continuationMutate], which runs them on a clone of the state. The deployment scopes
    of [core/types/deployment_scope.go] decide who may resume. JSON, [%q] and SHA-256 are
    functions of the class [ContinuationCodec]; the contexts of the calls are live. *)
From S2P Require Import Prelude GoStrings GoNum CoreTypes MailboxTypes MailboxState MailboxSnapshot.
From S2P Require Import Paging MailboxStore MailboxFacade.

Local Open Scope bool_scope.
Local Open Scope string_scope.
Local Open Scope list_scope.
Local Open Scope Z_scope.

(** ** Deployment scopes *)

Definition DeploymentScopeVersion := "deployment_scope.v1".
Definition DeploymentProfileSameHost := "same_host_single_writer_sequential_reopen".
Definition DeploymentProfileMultiInstance := "multi_instance".
Definition WriterScopeSingleWriter := "single_writer".
Definition WriterScopeMultiWriter := "multi_writer".
Definition FencingScopeSourceOwner := "source_owner".
Definition FencingScopeDistributed := "distributed".
Definition TransactionScopeSequentialReopen := "sequential_reopen".
Definition TransactionScopeMultiWriterCAS := "multi_writer_cas".

Inductive DeploymentError : Type :=
| ErrDeploymentUnsupported
| ErrForeignWriter
| ErrStaleWriter
| ErrDeploymentConflict.

(** [DeploymentScope{}]. *)
Definition noScope : DeploymentScope := mkDeploymentScope "" "" "" "" "" "" "" "" false "".

Definition scopeOwner (owner : string) : string :=
  let owner := TrimSpace owner in if owner =s? "" then "source-owner" else owner.

Definition SameHostSingleWriterScope (owner evidence : string) : DeploymentScope :=
  let owner := scopeOwner owner in
  mkDeploymentScope DeploymentScopeVersion DeploymentProfileSameHost WriterScopeSingleWriter
    FencingScopeSourceOwner TransactionScopeSequentialReopen owner ("fence:" +:+ owner) (TrimSpace evidence) true "".

Definition CoordinatedMultiWriterScope (owner evidence : string) : DeploymentScope :=
  let owner := scopeOwner owner in
  mkDeploymentScope DeploymentScopeVersion DeploymentProfileMultiInstance WriterScopeMultiWriter
    FencingScopeDistributed TransactionScopeMultiWriterCAS owner ("coordinator:" +:+ owner) (TrimSpace evidence)
    true "".

Definition DefaultDeploymentScope (owner reason : string) : DeploymentScope :=
  let s := SameHostSingleWriterScope owner "fixture:deployment-scope.v1" in
  let reason := TrimSpace reason in
  mkDeploymentScope (ds_Version s) (ds_Profile s) (ds_WriterScope s) (ds_FencingScope s) (ds_TransactionScope s)
    (ds_OwnerNamespace s) (ds_WriterFence s) (ds_EvidenceReference s) false
    (if reason =s? "" then "source deployment evidence is unavailable" else reason).

Definition scopeReference (v : string) : bool :=
  ValidString v && negb (TrimSpace v =s? "") && (String.length v <=? MaxHistoryReferenceBytes)%nat.

(** [DeploymentScope.Validate]; the loop over the references fails with one error
    whatever its order. *)
Definition validateScope (s : DeploymentScope) : result DeploymentError unit :=
  require ds_Version s =s? DeploymentScopeVersion orelse ErrDeploymentUnsupported;
  require forallb scopeReference [ds_OwnerNamespace s; ds_WriterFence s; ds_EvidenceReference s]
    orelse ErrDeploymentConflict;
  require negb (ds_Profile s =s? "") && negb (ds_WriterScope s =s? "") && negb (ds_FencingScope s =s? "")
    && negb (ds_TransactionScope s =s? "") orelse ErrDeploymentConflict;
  if negb (ds_Supported s) then
    require negb (TrimSpace (ds_UnsupportedReason s) =s? "")
      && (String.length (ds_UnsupportedReason s) <=? MaxHistoryReferenceBytes)%nat orelse ErrDeploymentUnsupported;
    Ok tt
  else
    let local := (ds_Profile s =s? DeploymentProfileSameHost) && (ds_WriterScope s =s? WriterScopeSingleWriter)
                 && (ds_FencingScope s =s? FencingScopeSourceOwner)
                 && (ds_TransactionScope s =s? TransactionScopeSequentialReopen) in
    let coordinated := (ds_Profile s =s? DeploymentProfileMultiInstance)
                       && (ds_WriterScope s =s? WriterScopeMultiWriter)
                       && (ds_FencingScope s =s? FencingScopeDistributed)
                       && (ds_TransactionScope s =s? TransactionScopeMultiWriterCAS) in
    require local || coordinated orelse ErrDeploymentUnsupported;
    Ok tt.

Definition ValidateWriter (s : DeploymentScope) (owner fence : string) : result DeploymentError unit :=
  _ ←ₑ validateScope s;
  require TrimSpace owner =s? ds_OwnerNamespace s orelse ErrForeignWriter;
  require TrimSpace fence =s? ds_WriterFence s orelse ErrStaleWriter;
  Ok tt.

(** [DeploymentScope.Check]: an empty dimension of the request asks for nothing. *)
Definition checkScope (s : DeploymentScope) (q : DeploymentRequest) : result DeploymentError unit :=
  let asks v have := (v =s? "") || (v =s? have) in
  _ ←ₑ validateScope s;
  require ds_Supported s orelse ErrDeploymentUnsupported;
  require asks (dq_Profile q) (ds_Profile s) orelse ErrDeploymentUnsupported;
  require asks (dq_WriterMode q) (ds_WriterScope s) orelse ErrDeploymentUnsupported;
  require asks (dq_Fencing q) (ds_FencingScope s) orelse ErrDeploymentUnsupported;
  require asks (dq_Transaction q) (ds_TransactionScope s) orelse ErrDeploymentUnsupported;
  if negb (dq_OwnerNamespace q =s? "") || negb (dq_WriterFence q =s? "")
  then ValidateWriter s (dq_OwnerNamespace q) (dq_WriterFence q)
  else Ok tt.

(** A scope that is attached and does not admit the request. *)
Definition scopeRefuses (s : DeploymentScope) (q : DeploymentRequest) : bool :=
  negb (bool_decide (s = noScope)) && negb (is_ok (checkScope s q)).

(** ** Capabilities ([core/types/continuation_capabilities.go]) *)

Definition NativeContinuationVersion := "native_continuation.v1".
Definition UnsupportedReasonMailboxHandlerSafePoint := "mailbox_handler_safe_point_unsupported".

Record PauseReasonCapability : Type := mkPauseReasonCapability {
  pc_Supported : bool;
  pc_EvidenceReference : string;
  pc_UnsupportedReason : string
}.

(** A nil map reads as an empty one. *)
Record ContinuationCapabilities : Type := mkContinuationCapabilities {
  ca_ProfileVersion : string;
  ca_SourceNamespace : string;
  ca_ContractVersion : string;
  ca_ModuleRevision : string;
  ca_APIVersion : string;
  ca_RetentionPolicy : string;
  ca_ExpiryPolicy : string;
  ca_CheckpointCreation : bool;
  ca_CrossProcessRestore : bool;
  ca_HandlerExecutionSafePoint : bool;
  ca_PauseReasons : list string;
  ca_EvidenceReferences : gmap string string;
  ca_UnsupportedReasons : gmap string string;
  ca_PauseReasonEvidence : gmap string PauseReasonCapability;
  ca_Deployment : DeploymentScope
}.

(** ** Sealed continuations *)

Definition MailboxContinuationVersion := "mailbox_continuation.v1".
Definition MailboxPauseInputRequired := "input_required".
Definition MailboxPauseApprovalRequired := "approval_required".
Definition MailboxPauseBudgetExhausted := "budget_exhausted".

Definition validMailboxPauseReason (r : string) : bool :=
  (r =s? MailboxPauseInputRequired) || (r =s? MailboxPauseApprovalRequired) || (r =s? MailboxPauseBudgetExhausted).

(** [json.Marshal], which may fail, [strconv.Quote] and the hexadecimal SHA-256. *)
Class ContinuationCodec : Type := {
  mailboxContinuationJSON : MailboxContinuation -> option string;
  resumeRequestJSON : MailboxResumeRequest -> option string;
  quoted : string -> string;
  sum256Hex : string -> string
}.

(** [MailboxContinuationRef.Validate]. *)
Definition validateContinuationRef (r : MailboxContinuationRef) : result MailboxError unit :=
  require (cf_SchemaVersion r =s? MailboxContinuationVersion)
    && forallb (fun v => negb (v =s? ""))
         [cf_CheckpointID r; cf_Digest r; cf_OwnerNamespace r; cf_MessageID r; cf_DeliveryID r; cf_LeaseID r;
          cf_AttemptCausation r; cf_RunID r]
    orelse ErrMailboxContinuationMalformed;
  Ok tt.

Definition normalizeHostPlanBindingCheck (b : HostPlanBinding) : result MailboxError unit :=
  _ ←ₑ normalizeHostPlanBinding b; Ok tt.

Definition Day : Duration := 24 * 60 * Minute.

Section continuations.
Context {codec : ContinuationCodec}.

Definition validateContinuationShape (c : MailboxContinuation) : result MailboxError unit :=
  let r := cn_Ref c in
  _ ←ₑ validateContinuationRef r;
  _ ←ₑ normalizeHostPlanBindingCheck (cn_Binding c);
  require forallb (fun v => negb (v =s? ""))
      [cn_MessageID c; cn_DeliveryID c; cn_LeaseID c; cn_AttemptCausation c; cn_RunID c; cn_ParentRunID c;
       cn_HostCorrelation c; cn_AuthorityDigest c; cn_PlanDigest c; cn_WriteScope c; cn_EffectNamespace c;
       cn_Occurrence c]
    && validMailboxPauseReason (cn_PauseReason c) && negb (cn_Generation c =? 0) && negb (IsZero (cn_CreatedAt c))
    && After (cn_ExpiresAt c) (cn_CreatedAt c) && (TimeSub (cn_ExpiresAt c) (cn_CreatedAt c) <=? Day)
    orelse ErrMailboxContinuationMalformed;
  require (cf_MessageID r =s? cn_MessageID c) && (cf_DeliveryID r =s? cn_DeliveryID c)
    && (cf_LeaseID r =s? cn_LeaseID c) && (cf_AttemptCausation r =s? cn_AttemptCausation c)
    && (cf_RunID r =s? cn_RunID c) && (cf_ParentRunID r =s? cn_ParentRunID c)
    orelse ErrMailboxContinuationForeign;
  require (cn_HandlerCheckpointReference c =s? "") || negb (TrimSpace (cn_ConsumerID c) =s? "")
    orelse ErrMailboxContinuationMalformed;
  require (String.length (cn_HandlerCheckpointReference c) <=? 1024)%nat orelse ErrMailboxContinuationMalformed;
  require match mailboxContinuationJSON c with
          | Some b => Z.of_nat (String.length b) <=? 64 * 1024
          | None => false
          end orelse ErrMailboxContinuationMalformed;
  Ok tt.

(** The checkpoint id and the digest of a continuation, over its encoding without
    them; the encoding of what cannot be encoded is empty. *)
Definition continuationSeal (c : MailboxContinuation) : string * string :=
  let x := c <| cn_Ref ::= fun r => r <| cf_CheckpointID := "" |> <| cf_Digest := "" |> |> in
  let h := sum256Hex (default "" (mailboxContinuationJSON x)) in
  ("mailbox-" +:+ String.substring 0 32 h, "sha256:" +:+ h).

(** [MailboxContinuation.Validate]. *)
Definition validateContinuation (c : MailboxContinuation) : result MailboxError unit :=
  _ ←ₑ validateContinuationShape c;
  require (cf_CheckpointID (cn_Ref c) =s? (continuationSeal c).1) && (cf_Digest (cn_Ref c) =s? (continuationSeal c).2)
    orelse ErrMailboxContinuationCorrupt;
  Ok tt.

Definition SealMailboxContinuation (c : MailboxContinuation) : result MailboxError MailboxContinuation :=
  let c := c <| cn_Ref ::= fun r =>
    mkMailboxContinuationRef MailboxContinuationVersion "pending" "pending" (cf_OwnerNamespace r) (cn_MessageID c)
      (cn_DeliveryID c) (cn_LeaseID c) (cn_AttemptCausation c) (cn_RunID c) (cn_ParentRunID c)
      (hb_CausationID (cn_Binding c)) (cf_Deployment r) |> in
  _ ←ₑ validateContinuationShape c;
  let '(id, digest) := continuationSeal c in
  let c := c <| cn_Ref ::= fun r => r <| cf_CheckpointID := id |> <| cf_Digest := digest |> |> in
  _ ←ₑ validateContinuation c;
  Ok c.

(** [MailboxResumeRequest.Validate] and [identity]. *)
Definition validateResumeRequest (q : MailboxResumeRequest) : result MailboxError unit :=
  _ ←ₑ validateContinuationRef (rr_Ref q);
  _ ←ₑ normalizeHostPlanBindingCheck (rr_Binding q);
  require negb (rr_IdempotencyKey q =s? "") && negb (rr_Generation q =? 0)
    && validMailboxPauseReason (rr_PauseReason q) orelse ErrMailboxContinuationMalformed;
  Ok tt.

Definition requestIdentity (q : MailboxResumeRequest) : string := sum256Hex (default "" (resumeRequestJSON q)).

(** ** The operations on the state *)

(** [snapshotRecord] of [state.snapshot()]. *)
Definition snapshotRecord (sn : Snapshot) (id : string) : option MessageRecord :=
  List.find (fun r => ev_MessageID (mr_Envelope r) =s? id) (sn_Records sn).

(** The delivery the continuation was taken from is still in flight. *)
Definition sameDelivery (current : MessageRecord) (c : MailboxContinuation) : bool :=
  (mr_DeliveryID current =s? cn_DeliveryID c) && (mr_LeaseID current =s? cn_LeaseID c)
  && (mr_AttemptCausation current =s? cn_AttemptCausation c) && bool_decide (mr_State current = StateInFlight).

(** The lease of a message that pauses in its handler lasts as long as the checkpoint. *)
Definition extendLease (clock : nat -> Time) (c : MailboxContinuation) (r : MessageRecord) : MessageRecord :=
  r <| mr_LeaseExpiresAt := cn_ExpiresAt c |> <| mr_LastHeartbeatAt := clock 2%nat |> <| mr_UpdatedAt := clock 3%nat |>.

(** The closure of [SaveHostPlanContinuation]; [clock i] is what its [i]-th call of
    [nowTime] reads. *)
Definition saveContinuation (clock : nat -> Time) (c : MailboxContinuation) (state : mailboxState)
    : result MailboxError mailboxState :=
  let id := cf_CheckpointID (cn_Ref c) in
  let handler := negb (cn_HandlerCheckpointReference c =s? "") in
  match m_Continuations state !! id with
  | Some old =>
      if cf_Digest (cn_Ref (cr_Continuation old)) =s? cf_Digest (cn_Ref c) then Ok state
      else Err ErrMailboxContinuationConflict
  | None =>
      match snapshotRecord (snapshot state) (cn_MessageID c) with
      | None => Err ErrMailboxContinuationUnavailable
      | Some current =>
          require sameDelivery current c && negb (handler && negb (mr_ConsumerID current =s? cn_ConsumerID c))
            orelse ErrMailboxContinuationLeaseLost;
          require negb (isRecordExpired current (clock 0%nat)) orelse ErrMailboxContinuationExpired;
          require negb (IsZero (mr_LeaseExpiresAt current)) && After (mr_LeaseExpiresAt current) (clock 1%nat)
            orelse ErrMailboxContinuationLeaseLost;
          let state := if handler then state <| m_Records ::= alter (extendLease clock c) (cn_MessageID c) |>
                       else state in
          Ok (state <| m_Continuations ::= <[id := mkMailboxContinuationRecord c None "" false]> |>)
      end
  end.

(** The claim that holds a committed result. *)
Definition finishedClaim (record : MailboxContinuationRecord) : option MailboxResumeClaim :=
  match cr_Claim record with
  | Some held => if bool_decide (is_Some (rc_Result held)) then Some held else None
  | None => None
  end.

Definition newClaim (req : MailboxResumeRequest) (c : MailboxContinuation) : MailboxResumeClaim :=
  mkMailboxResumeClaim req (cf_CheckpointID (rr_Ref req) +:+ ":attempt") (wrap_u64 (cn_Generation c + 1)) "claimed"
    false None.

(** The closure of [ClaimHostPlanResume], with the variable [claim] it leaves. *)
Definition claimResume (clock : nat -> Time) (req : MailboxResumeRequest) (state : mailboxState)
    : option MailboxResumeClaim * result MailboxError mailboxState :=
  let id := cf_CheckpointID (rr_Ref req) in
  match m_Continuations state !! id with
  | None => (None, Err ErrMailboxContinuationUnavailable)
  | Some record =>
      let c := cr_Continuation record in
      let same := cr_Identity record =s? requestIdentity req in
      if negb (cf_Digest (cn_Ref c) =s? cf_Digest (rr_Ref req)) || negb (bool_decide (cn_Binding c = rr_Binding req))
         || negb (cn_Generation c =? rr_Generation req) || negb (cn_PauseReason c =s? rr_PauseReason req)
      then (None, Err ErrMailboxContinuationConflict)
      else if scopeRefuses (cf_Deployment (cn_Ref c)) (rr_Deployment req)
      then (None, Err ErrMailboxContinuationUnavailable)
      else match finishedClaim record with
      | Some held =>
          if negb same then (None, Err ErrMailboxContinuationConflict)
          else (Some (held <| rc_Duplicate := true |>), Ok state)
      | None =>
          if negb (Before (clock 0%nat) (cn_ExpiresAt c)) then (None, Err ErrMailboxContinuationExpired)
          else if negb (IsZero (cn_OriginalDeadline c)) && negb (Before (clock 1%nat) (cn_OriginalDeadline c))
          then (None, Err ErrMailboxContinuationRecoveryRequired)
          else match snapshotRecord (snapshot state) (cn_MessageID c) with
          | None => (None, Err ErrMailboxContinuationUnavailable)
          | Some current =>
              if negb (sameDelivery current c) then (None, Err ErrMailboxContinuationLeaseLost)
              else match cr_Claim record with
              | Some held =>
                  if negb same then (None, Err ErrMailboxContinuationConflict)
                  else (Some (held <| rc_Duplicate := true |>),
                        Err (if cr_Recovered record then ErrMailboxContinuationRecoveryRequired
                             else ErrMailboxContinuationInProgress))
              | None =>
                  let claim := newClaim req c in
                  (Some claim,
                   Ok (state <| m_Continuations ::=
                         <[id := record <| cr_Claim := Some claim |> <| cr_Identity := requestIdentity req |>]> |>))
              end
          end
      end
  end.

(** The closure of [mutateHostPlanClaim], with the variable [updated] it leaves. *)
Definition updateClaim (claim : MailboxResumeClaim)
    (mutate : bool -> MailboxResumeClaim -> result MailboxError MailboxResumeClaim) (state : mailboxState)
    : option MailboxResumeClaim * result MailboxError mailboxState :=
  let id := cf_CheckpointID (rr_Ref (rc_Request claim)) in
  let conflict := (None, Err ErrMailboxContinuationConflict) in
  match m_Continuations state !! id with
  | None => conflict
  | Some record =>
      match cr_Claim record with
      | None => conflict
      | Some held =>
          if negb (cr_Identity record =s? requestIdentity (rc_Request claim))
             || negb (rc_AttemptID held =s? rc_AttemptID claim)
          then conflict
          else match mutate (cr_Recovered record) held with
          | Err er => (None, Err er)
          | Ok held' => (Some held', Ok (state <| m_Continuations ::= <[id := record <| cr_Claim := Some held' |>]> |>))
          end
      end
  end.

Definition markRunning (recovered : bool) (held : MailboxResumeClaim) : result MailboxError MailboxResumeClaim :=
  require negb recovered orelse ErrMailboxContinuationRecoveryRequired;
  if rc_State held =s? "running" then Ok held
  else
    require rc_State held =s? "claimed" orelse ErrMailboxContinuationConflict;
    Ok (held <| rc_State := "running" |>).

Definition commitResult (res : HostPlanOutcome) (recovered : bool) (held : MailboxResumeClaim)
    : result MailboxError MailboxResumeClaim :=
  match rc_Result held with
  | Some saved =>
      require bool_decide (saved = res) orelse ErrMailboxContinuationConflict;
      Ok held
  | None =>
      require negb recovered orelse ErrMailboxContinuationRecoveryRequired;
      require (rc_State held =s? "claimed") || (rc_State held =s? "running") orelse ErrMailboxContinuationConflict;
      Ok (held <| rc_Result := Some res |> <| rc_State := "completed" |>)
  end.
End continuations.

(** ** The interface to the stores *)

(** [continuationMutate]: the closure runs on a clone of the state, which replaces the
    state when it succeeds; [A] is what it leaves in a variable, [zero] at first. *)
Class ContinuationStore (T : Type) : Type := {
  ct_Mutate : forall A : Type, MailboxEnv -> T -> A -> (mailboxState -> A * result MailboxError mailboxState) ->
    T * A * result MailboxError unit;
  ct_Durable : T -> bool
}.
Arguments ct_Mutate {T _ A}.

Section stores.
Context {order : RangeOrder}.

(** The variable after the closure ran, if the clone could be made. *)
Definition captured {A} (sourceID : string) (s : mailboxState) (zero : A)
    (fn : mailboxState -> A * result MailboxError mailboxState) : A :=
  match cloneMailboxState sourceID s with Ok candidate => (fn candidate).1 | Err _ => zero end.

#[export] Instance MemoryStore_ContinuationStore : ContinuationStore MemoryStore := {|
  ct_Mutate A e m zero fn :=
    let a := captured (me_rand e) (mm_state m) zero fn in
    match continuationMutate (me_rand e) (mm_state m) (fun s => (fn s).2) with
    | Ok s => (mkMemoryStore s, a, Ok tt)
    | Err er => (m, a, Err er)
    end;
  ct_Durable _ := false
|}.

#[export] Instance FileStore_ContinuationStore {codec : SnapshotCodec} : ContinuationStore FileStore := {|
  ct_Mutate A e fs zero fn :=
    let a := captured (me_rand e) (mf_state fs) zero fn in
    let '(fs, r) := continuationMutateFile e fs (fun s => (fn s).2) in (fs, a, r);
  ct_Durable _ := true
|}.
End stores.

(** ** The operations of the mailbox *)

Section mailbox.
Context {T : Type} `{MailboxStore T, ContinuationStore T} {codec : ContinuationCodec} {qcodec : QueryCodec}.

Definition enableHandlerContinuation (m : Mailbox T) : Mailbox T := m <| mx_handlerContinuationConfigured := true |>.

Definition SaveHostPlanContinuation (e : MailboxEnv) (clock : nat -> Time) (m : Mailbox T) (c : MailboxContinuation)
    : Mailbox T * result MailboxError unit :=
  match validateContinuation c with
  | Err er => (m, Err er)
  | Ok _ =>
      let '(store, _, r) := ct_Mutate e (mx_store m) tt (fun s => (tt, saveContinuation clock c s)) in
      (m <| mx_store := store |>, r)
  end.

Definition LoadHostPlanContinuation (now : Time) (m : Mailbox T) (ref : MailboxContinuationRef)
    : result MailboxError MailboxContinuation :=
  _ ←ₑ validateContinuationRef ref;
  match sn_Continuations (mb_Snapshot (mx_store m)) !! cf_CheckpointID ref with
  | None => Err ErrMailboxContinuationUnavailable
  | Some record =>
      let c := cr_Continuation record in
      require cf_Digest (cn_Ref c) =s? cf_Digest ref orelse ErrMailboxContinuationForeign;
      require Before now (cn_ExpiresAt c) orelse ErrMailboxContinuationExpired;
      _ ←ₑ validateContinuation c;
      Ok c
  end.

(** The claim may come with an error; [None] is the zero value. *)
Definition ClaimHostPlanResume (e : MailboxEnv) (clock : nat -> Time) (m : Mailbox T) (req : MailboxResumeRequest)
    : Mailbox T * option MailboxResumeClaim * result MailboxError unit :=
  match validateResumeRequest req with
  | Err er => (m, None, Err er)
  | Ok _ =>
      if scopeRefuses (cf_Deployment (rr_Ref req)) (rr_Deployment req)
      then (m, None, Err ErrMailboxContinuationUnavailable)
      else
        let '(store, claim, r) := ct_Mutate e (mx_store m) None (claimResume clock req) in
        (m <| mx_store := store |>, claim, r)
  end.

Definition mutateHostPlanClaim (e : MailboxEnv) (m : Mailbox T) (claim : MailboxResumeClaim)
    (mutate : bool -> MailboxResumeClaim -> result MailboxError MailboxResumeClaim)
    : Mailbox T * option MailboxResumeClaim * result MailboxError unit :=
  let '(store, updated, r) := ct_Mutate e (mx_store m) None (updateClaim claim mutate) in
  (m <| mx_store := store |>, updated, r).

Definition MarkHostPlanResumeRunning (e : MailboxEnv) (m : Mailbox T) (claim : MailboxResumeClaim) :=
  mutateHostPlanClaim e m claim markRunning.

Definition CommitHostPlanResumeResult (e : MailboxEnv) (m : Mailbox T) (claim : MailboxResumeClaim)
    (res : HostPlanOutcome) :=
  mutateHostPlanClaim e m claim (commitResult res).

(** [QueryRequest{MessageID: id}], and the one record it finds. *)
Definition byMessageID (id : string) : QueryRequest :=
  mkQueryRequest id "" "" "" "" "" "" "" "" "" "" None None "" "" "".

Definition queryMessage (m : Mailbox T) (id : string) : Mailbox T * result MailboxError MessageRecord :=
  match Query m (byMessageID id) with
  | (m, Err er) => (m, Err er)
  | (m, Ok page) =>
      match qo_Items page with
      | [r] => (m, Ok r)
      | _ => (m, Err ErrMailboxContinuationUnavailable)
      end
  end.
(** What a call that takes several steps finds: the environment of each step, the
    readings of the clock in its claim, and what other callers do before a step. *)
Record Schedule : Type := mkSchedule {
  su_env : nat -> MailboxEnv;
  su_clock : nat -> Time;
  su_others : nat -> Mailbox T -> Mailbox T
}.

(** The end of a resumption: the message as it is now is committed as the result. *)
Definition commitOutcome (u : Schedule) (k : nat) (m : Mailbox T) (claim : MailboxResumeClaim) (id : string)
    : Mailbox T * result MailboxError HostPlanOutcome :=
  match queryMessage (su_others u k m) id with
  | (m, Err er) => (m, Err er)
  | (m, Ok record) =>
      match HostPlanOutcomeFromRecord record with
      | Err er => (m, Err er)
      | Ok outcome =>
          match CommitHostPlanResumeResult (su_env u (S k)) (su_others u (S k) m) claim outcome with
          | (m, _, Err er) => (m, Err er)
          | (m, _, Ok _) => (m, Ok outcome)
          end
      end
  end.

(** The claim of a resumption: a result that is there already, or a claim to go on with.
    Success comes with a claim; the zero claim would be refused by the next step. *)
Definition claimForResume (u : Schedule) (m : Mailbox T) (req : MailboxResumeRequest)
    : Mailbox T * result MailboxError (HostPlanOutcome + MailboxResumeClaim) :=
  let '(m, claim, r) := ClaimHostPlanResume (su_env u 0%nat) (su_clock u) (su_others u 0%nat m) req in
  let finished := claim ≫= rc_Result in
  match r with
  | Err er => (m, match finished with Some res => Ok (inl res) | None => Err er end)
  | Ok _ =>
      match claim with
      | None => (m, Err ErrMailboxContinuationConflict)
      | Some held =>
          match finished with
          | Some res => if rc_Duplicate held then (m, Ok (inl res)) else (m, Ok (inr held))
          | None => (m, Ok (inr held))
          end
      end
  end.

Definition ResumeHostPlanContinuation (u : Schedule) (m : Mailbox T) (req : MailboxResumeRequest)
    : Mailbox T * result MailboxError HostPlanOutcome :=
  match claimForResume u m req with
  | (m, Err er) => (m, Err er)
  | (m, Ok (inl res)) => (m, Ok res)
  | (m, Ok (inr claim)) =>
      match MarkHostPlanResumeRunning (su_env u 1%nat) (su_others u 1%nat m) claim with
      | (m, _, Err er) => (m, Err er)
      | (m, _, Ok _) => commitOutcome u 2 m claim (cf_MessageID (rr_Ref req))
      end
  end.

(** ** Admission of host plans *)

Definition hostPlanDispatchBinding (b : HostPlanBinding) : string :=
  let raw := String.concat "|"
    ((quoted <$> [hb_ContractVersion b; hb_MessageID b; hb_IdempotencyKey b; hb_ParentRunID b; hb_RunID b;
                  hb_CausationID b; hb_AuthorityDigest b; hb_PlanDigest b; hb_WriteScope b; hb_EffectNamespace b;
                  hb_Occurrence b; hb_HostCorrelation b]) ++ [itoa (hb_ResourceLimit b)]) in
  "sha256:" +:+ sum256Hex raw.

Definition hostPlanEnvelope (b : HostPlanBinding) : Envelope :=
  mkEnvelope (hostPlanDispatchBinding b) (Some b) (hb_MessageID b) (hb_IdempotencyKey b) (hb_HostCorrelation b)
    KindCommand "" "" "" (hb_RunID b) "" "" ∅ 0 0 0.

Definition AdmitHostPlan (e : MailboxEnv) (m : Mailbox T) (binding : HostPlanBinding)
    : Mailbox T * result MailboxError HostPlanOutcome :=
  match normalizeHostPlanBinding binding with
  | Err er => (m, Err er)
  | Ok normalized =>
      match Publish e m (hostPlanEnvelope normalized) with
      | (m, Err ErrDispatchBindingMismatch) => (m, Err ErrHostPlanBindingConflict)
      | (m, Err er) => (m, Err er)
      | (m, Ok published) => (m, Ok (hostPlanOutcome normalized published))
      end
  end.

(** ** Capabilities *)

Definition mailboxCapabilities (m : Mailbox T) : ContinuationCapabilities :=
  let durable := ct_Durable (mx_store m) in
  let safePoint := mx_handlerContinuationConfigured m && durable in
  let reason := if safePoint then mkPauseReasonCapability true "fixture:mailbox-handler-continuation.v1" ""
                else mkPauseReasonCapability false "" UnsupportedReasonMailboxHandlerSafePoint in
  mkContinuationCapabilities NativeContinuationVersion "mailbox" "baymax.runtime.contract.v1" "baymax"
    "host_runtime_capability_manifest.v1" "source-owned-mailbox-checkpoint" "checkpoint-expiry" true durable safePoint []
    {["checkpoint_creation" := "fixture:mailbox-continuation.v1";
      "cross_process_restore" := "fixture:mailbox-continuation.v1"]}
    (if durable then ∅ else {["cross_process_restore" := "mailbox continuation store is process-local"]})
    {[MailboxPauseInputRequired := reason; MailboxPauseApprovalRequired := reason;
      MailboxPauseBudgetExhausted := reason]}
    (if durable then SameHostSingleWriterScope "mailbox" "fixture:mailbox-continuation.v1"
     else DefaultDeploymentScope "mailbox" "mailbox continuation store is process-local").
End mailbox.

Arguments Schedule T : clear implicits.
