(* ===== verification/MailboxHandlerResume.v ===== *)
(** * Mailbox: workers that pause and resume handlers

    The continuation side of [orchestration/mailbox/worker.go]: a handler may answer
    with a pause, which saves a continuation of the delivery instead of settling it, and
    [ResumeHandlerContinuation] lets one request run the handler from that point and
    settle the same delivery. *)
From S2P Require Import Prelude GoStrings GoNum MailboxTypes MailboxState MailboxSnapshot.
From S2P Require Import Paging MailboxStore MailboxFacade MailboxWorker MailboxContinuation.

Local Open Scope bool_scope.
Local Open Scope string_scope.
Local Open Scope list_scope.
Local Open Scope Z_scope.

Record HandlerPause : Type := mkHandlerPause {
  hp_Reason : string;
  hp_PendingActionReference : string;
  hp_CompletedEffectRefs : list string;
  hp_ConsumedBudget : Z;
  hp_OriginalDeadline : Time;
  hp_ExpiresAt : Time;
  hp_CheckpointReference : string
}.

(** What a continuation handler did: returned a pause or none with an error or none, or
    panicked with a value that prints as that text. *)
Inductive ContinuationAnswer : Type :=
| HandlerReturned (pause : option HandlerPause) (err : option string)
| HandlerCrashed (value : string).

(** [invokeContinuationWorkerHandler] and [invokeContinuationWorkerResumer]: the pause,
    and the rest of the answer as that of an ordinary handler. A panic of a resumer is
    not marked as one. *)
Definition invokeContinuationWorkerHandler (a : ContinuationAnswer) : option HandlerPause * HandlerAnswer :=
  match a with
  | HandlerReturned pause None => (pause, HandlerDone)
  | HandlerReturned pause (Some text) => (pause, HandlerFailed text)
  | HandlerCrashed v => (None, HandlerPanicked v)
  end.

Definition invokeContinuationWorkerResumer (a : ContinuationAnswer) : option HandlerPause * HandlerAnswer :=
  match a with
  | HandlerCrashed v => (None, HandlerFailed ("worker continuation resumer panic recovered: " +:+ v))
  | _ => invokeContinuationWorkerHandler a
  end.

Section resume.
Context {T : Type} `{MailboxStore T, ContinuationStore T} {codec : ContinuationCodec} {qcodec : QueryCodec}.

Definition NewContinuationWorker (m : Mailbox T) (cfg : WorkerConfig) (consumerID : string)
    : Mailbox T * result MailboxError Worker :=
  if negb (ca_CrossProcessRestore (mailboxCapabilities m)) then (m, Err ErrMailboxContinuationUnsupported)
  else match NewWorker cfg consumerID with
  | Err er => (m, Err er)
  | Ok w => (enableHandlerContinuation m, Ok w)
  end.

(** ** Pausing *)

Definition pausedContinuation (scope : DeploymentScope) (claimed : MessageRecord) (binding : HostPlanBinding)
    (pause : HandlerPause) (now : Time) : MailboxContinuation :=
  mkMailboxContinuation
    (mkMailboxContinuationRef "" "" "" "mailbox" "" "" "" "" "" "" "" scope)
    binding (ev_MessageID (mr_Envelope claimed)) (mr_DeliveryID claimed) (mr_LeaseID claimed) (mr_ConsumerID claimed)
    (mr_AttemptCausation claimed) (mr_DeliveryAttempt claimed) (mr_State claimed) (hb_ParentRunID binding)
    (hb_RunID binding) (hb_HostCorrelation binding) (hb_AuthorityDigest binding) (hb_PlanDigest binding)
    (hb_WriteScope binding) (hb_EffectNamespace binding) (hb_Occurrence binding) (hp_Reason pause)
    (TrimSpace (hp_PendingActionReference pause)) (hp_CompletedEffectRefs pause)
    (TrimSpace (hp_CheckpointReference pause)) (hp_ConsumedBudget pause) (hp_OriginalDeadline pause) "" "" 1 now
    (hp_ExpiresAt pause).

Definition pauseHandler (e : MailboxEnv) (clock : nat -> Time) (m : Mailbox T) (claimed : MessageRecord)
    (pause : HandlerPause) : Mailbox T * result MailboxError unit :=
  match ev_HostPlanBinding (mr_Envelope claimed) with
  | None => (m, Err ErrMailboxContinuationUnsupported)
  | Some binding =>
      let now := me_now e in
      if negb (validMailboxPauseReason (hp_Reason pause)) || (TrimSpace (hp_CheckpointReference pause) =s? "")
         || (1024 <? String.length (hp_CheckpointReference pause))%nat || IsZero (hp_ExpiresAt pause)
      then (m, Err ErrMailboxContinuationMalformed)
      else if negb (After (hp_ExpiresAt pause) now) || (Day <? TimeSub (hp_ExpiresAt pause) now)
              || (negb (IsZero (hp_OriginalDeadline pause)) && negb (After (hp_OriginalDeadline pause) now))
      then (m, Err ErrMailboxContinuationExpired)
      else match SealMailboxContinuation
                   (pausedContinuation (ca_Deployment (mailboxCapabilities m)) claimed binding pause now) with
      | Err er => (m, Err er)
      | Ok c => SaveHostPlanContinuation e clock m c
      end
  end.

(** One round of a continuation worker, as [Round]; [pr_clock] are the readings of the
    clock while a pause is saved. *)
Record PauseRound : Type := mkPauseRound {
  pr_begin : MailboxEnv;
  pr_during : list (moment T);
  pr_end : MailboxEnv;
  pr_clock : nat -> Time;
  pr_handler : MessageRecord -> ContinuationAnswer
}.

(** [RunOnce] of a worker with a continuation handler: a pause counts when neither the
    handler nor the heartbeat failed. *)
Definition RunOnceContinuation (w : Worker) (r : PauseRound) (m : Mailbox T) : Mailbox T * (bool * option MailboxError) :=
  let cfg := wk_config w in
  match ConsumeWithLease (pr_begin r) m (wk_consumerID w) (wc_InflightTimeout cfg) (wc_ReclaimOnConsume cfg) with
  | (m, Err er) => (m, (false, Some er))
  | (m, Ok None) => (m, (false, None))
  | (m, Ok (Some claimed)) =>
      let id := ev_MessageID (mr_Envelope claimed) in
      let '(m, beat) := whileHandling w id (pr_during r) None m in
      match invokeContinuationWorkerHandler (pr_handler r claimed), beat with
      | (Some pause, HandlerDone), None =>
          let '(m, res) := pauseHandler (pr_end r) (pr_clock r) m claimed pause in
          (m, (true, match res with Ok _ => None | Err er => Some er end))
      | (_, answer), _ =>
          let '(m, err) := settle (pr_end r) w m id answer beat in (m, (true, err))
      end
  end.

(** ** Resuming *)

(** The record is the delivery the continuation was taken from, held by this worker. *)
Definition resumable (w : Worker) (c : MailboxContinuation) (record : MessageRecord) : bool :=
  sameDelivery record c && (mr_ConsumerID record =s? cn_ConsumerID c) && (mr_ConsumerID record =s? wk_consumerID w).

(** The resumption after its claim is running: the lease is renewed, the handler
    resumes, the delivery is settled and its record committed. Also whether the
    resumer ran. *)
Definition resumeClaimed (w : Worker) (u : Schedule T) (during : list (moment T))
    (resumer : MailboxContinuation -> MessageRecord -> ContinuationAnswer) (c : MailboxContinuation)
    (claim : MailboxResumeClaim) (m : Mailbox T) : Mailbox T * bool * result MailboxError HostPlanOutcome :=
  let id := cn_MessageID c in
  match queryMessage (su_others u 2%nat m) id with
  | (m, Err er) => (m, false, Err er)
  | (m, Ok record) =>
      if negb (resumable w c record) then (m, false, Err ErrMailboxContinuationLeaseLost)
      else match Heartbeat (su_env u 3%nat) (su_others u 3%nat m) id (wk_consumerID w)
                   (wc_InflightTimeout (wk_config w)) with
      | (m, Err _) => (m, false, Err ErrMailboxContinuationLeaseLost)
      | (m, Ok _) =>
          let '(m, beat) := whileHandling w id during None m in
          match invokeContinuationWorkerResumer (resumer c (cloneRecord record)), beat with
          | (Some _, HandlerDone), None => (m, true, Err ErrMailboxContinuationRecoveryRequired)
          | (_, answer), _ =>
              match settle (su_env u 4%nat) w m id answer beat with
              | (m, Some er) => (m, true, Err er)
              | (m, None) => let '(m, res) := commitOutcome u 5 m claim id in (m, true, res)
              end
          end
      end
  end.

(** [ResumeHandlerContinuation]: [loadedAt] is the clock of the load, [revalidate] the
    text of the error of the callback. *)
Definition ResumeHandlerContinuation (w : Worker) (u : Schedule T) (during : list (moment T)) (loadedAt : Time)
    (revalidate : MailboxContinuation -> option string)
    (resumer : MailboxContinuation -> MessageRecord -> ContinuationAnswer) (m : Mailbox T) (req : MailboxResumeRequest)
    : Mailbox T * bool * result MailboxError HostPlanOutcome :=
  match LoadHostPlanContinuation loadedAt m (rr_Ref req) with
  | Err er =>
      let '(m, claim, r) := ClaimHostPlanResume (su_env u 0%nat) (su_clock u) (su_others u 0%nat m) req in
      match r, claim with
      | Ok _, Some (mkMailboxResumeClaim _ _ _ _ true (Some res)) => (m, false, Ok res)
      | _, _ => (m, false, Err er)
      end
  | Ok c =>
      if TrimSpace (cn_HandlerCheckpointReference c) =s? "" then (m, false, Err ErrMailboxContinuationUnsupported)
      else match revalidate c with
      | Some text => (m, false, Err (ErrCallback text))
      | None =>
          match claimForResume u m req with
          | (m, Err er) => (m, false, Err er)
          | (m, Ok (inl res)) => (m, false, Ok res)
          | (m, Ok (inr claim)) =>
              match MarkHostPlanResumeRunning (su_env u 1%nat) (su_others u 1%nat m) claim with
              | (m, _, Err er) => (m, false, Err er)
              | (m, _, Ok _) => resumeClaimed w u during resumer c claim m
              end
          end
      end
  end.
End resume.

Arguments PauseRound T : clear implicits.
