(* ===== verification/MailboxStoreProps.v ===== *)
(** * Mailbox: what the stores promise

    [StoreLaws] is what the facade and the worker rely on: a store holds a state of the
    mailbox state machine, each operation moves it as the machine does, and the answer
    is that of the machine unless a file system call failed. Both stores are shown to
    keep it; a file store without batching has written what it answered, and reopening
    its file restores the mailbox. *)
From S2P Require Import Prelude GoStrings GoNum MailboxTypes MailboxState MailboxSnapshot.
From S2P Require Import MailboxInv MailboxJournal MailboxRoundTrip MailboxProps MailboxStore.

Local Open Scope bool_scope.
Local Open Scope string_scope.
Local Open Scope list_scope.
Local Open Scope Z_scope.

(** ** The interface *)

(** The state a store holds. *)
Class Abstracts (T : Type) : Type := abs : T -> mailboxState.

(** A store operation and the operation of the state machine. *)
Definition agrees {T A} `{Abstracts T} (e : MailboxEnv) (x : T * result MailboxError A)
    (y : mailboxState * result MailboxError A) : Prop :=
  abs x.1 = y.1
  /\ (x.2 = y.2 \/ exists why, me_io e = Some why /\ x.2 = Err (ErrFileBackend why) /\ is_ok y.2 = true).

Class StoreLaws (T : Type) {order : RangeOrder} `{MailboxStore T, Abstracts T} : Prop := {
  law_publish e t env now :
    agrees e (mb_Publish e t env now) (publish (me_wall e) (abs t) env now);
  law_consume e t c now d b :
    agrees e (mb_Consume e t c now d b) (delivered (consume (me_wall e) (abs t) c now d b));
  law_heartbeat e t id c now d :
    agrees e (mb_Heartbeat e t id c now d) (heartbeat (me_wall e) (abs t) id c now d);
  law_ack e t id c now :
    agrees e (mb_Ack e t id c now) (ack (me_wall e) (abs t) id c now);
  law_nack e t id c r now o :
    agrees e (mb_Nack e t id c r now o) (nack (me_wall e) (abs t) id c r now o);
  law_requeue e t id c r now o :
    agrees e (mb_Requeue e t id c r now o) (requeue (me_wall e) (abs t) id c r now o);
  law_restore e t sn :
    agrees e (mb_Restore e t sn) (restoreInto (me_rand e) (abs t) sn);
  law_snapshot t : mb_Snapshot t = snapshot (abs t);
  law_stats t : mb_Stats t = m_Stats (abs t);
  law_drain t :
    abs (mb_DrainLifecycleEvents t).1 = (drainLifecycleEvents (abs t)).1
    /\ (mb_DrainLifecycleEvents t).2 = (drainLifecycleEvents (abs t)).2;
  law_tracing t b : abs (mb_SetLifecycleTracing t b) = setTraceEvents (abs t) b
}.

(** ** The memory store *)

#[export] Instance MemoryStore_Abstracts : Abstracts MemoryStore := mm_state.

#[export] Instance MemoryStore_laws {order : RangeOrder} : StoreLaws MemoryStore.
Proof. split; intros; first [done | by split; [|left]]. Qed.

(** ** The file store *)

#[export] Instance FileStore_Abstracts : Abstracts FileStore := mf_state.

Section file.
Context {order : RangeOrder} {codec : SnapshotCodec}.

(** Writing never changes the state, and fails only with the file system. *)
Definition writes (e : MailboxEnv) (fs : FileStore) (x : moutcome FileStore unit) : Prop :=
  mf_state x.1 = mf_state fs
  /\ (x.2 = Ok tt \/ exists why, me_io e = Some why /\ x.2 = Err (ErrFileBackend why)).

Lemma persist_writes e fs : writes e fs (persist e fs).
Proof. unfold persist. destruct (me_io e) as [why|] eqn:E; (split; [done|]); [right; eauto | by left]. Qed.

Lemma flush_writes e fs : writes e fs (flushPersistLocked e fs).
Proof.
  unfold flushPersistLocked. case_match; [by split; [|left]|].
  pose proof (persist_writes e fs) as [Hs Hr]. destruct (persist e fs) as [fs' [[]|er]]; cbn in *; [by split; [|left]|].
  split; [done|]. destruct Hr as [|(why & Hw & Hr)]; [done|]. right. eauto.
Qed.

Lemma maybePersist_writes e force fs : writes e fs (maybePersistLocked e force fs).
Proof.
  unfold maybePersistLocked. case_match; [apply persist_writes|].
  set (fs1 := fs <| mf_pendingPersist ::= Z.succ |>).
  set (fs2 := if IsZero (mf_dirtySince fs1) then _ else fs1).
  assert (E : mf_state fs2 = mf_state fs) by (unfold fs2; by case_match).
  assert (HF : writes e fs (flushPersistLocked e fs2)).
  { destruct (flush_writes e fs2) as [Hs Hr]. split; [by rewrite Hs | exact Hr]. }
  repeat case_match; try exact HF. by split; [|left].
Qed.

Lemma persisted_agrees {A} e force fs (x : mailboxState * result MailboxError A) :
  agrees e (persisted e force fs x) x.
Proof.
  destruct x as [s [a|er]]; unfold persisted; cbn [fst snd]; [|by split; [|left]].
  destruct (maybePersist_writes e force (fs <| mf_state := s |>)) as [Hs Hr].
  destruct (maybePersistLocked e force _) as [fs' [[]|er]]; cbn [fst snd] in *; (split; [exact Hs|]); [by left|].
  right. destruct Hr as [|(why & Hw & [= ->])]; [done|]. eauto.
Qed.

Lemma consumeFile_agrees e fs c now d b :
  agrees e (consumeFile e fs c now d b) (delivered (consume (me_wall e) (mf_state fs) c now d b)).
Proof.
  unfold consumeFile. destruct (consume _ _ _ _ _ _) as [s [[[rec|] []]|er]]; try apply persisted_agrees.
  by split; [|left].
Qed.

#[export] Instance FileStore_laws : StoreLaws FileStore.
Proof.
  split; intros; try (apply persisted_agrees || apply consumeFile_agrees || reflexivity).
  by unfold mb_DrainLifecycleEvents.
Qed.

(** ** Durability *)

(** What a store without batching answered with success is in the file. *)
Lemma persisted_durable {A} e force fs (x : mailboxState * result MailboxError A) fs' a :
  batchingEnabled (mf_persistOpts fs) = false -> persisted e force fs x = (fs', Ok a) ->
  mf_file fs' = Some (snap_Marshal (snapshot (mf_state fs'))).
Proof.
  intros Hb. destruct x as [s [b|er]]; unfold persisted; cbn [fst snd]; [|done].
  unfold maybePersistLocked, persist. cbn. rewrite Hb. cbn. destruct (me_io e); [done|]. by intros [= <- <-].
Qed.
End file.

(** ** Calls *)

(** A call on a store, and whether it succeeded. *)
Definition storeExec {T} `{MailboxStore T} (e : MailboxEnv) (t : T) (c : call) : T * bool :=
  let answer {A} (x : T * result MailboxError A) := (x.1, is_ok x.2) in
  match c with
  | CallPublish env now => answer (mb_Publish e t env now)
  | CallConsume c now d b => answer (mb_Consume e t c now d b)
  | CallHeartbeat id c now d => answer (mb_Heartbeat e t id c now d)
  | CallAck id c now => answer (mb_Ack e t id c now)
  | CallNack id c r now o => answer (mb_Nack e t id c r now o)
  | CallRequeue id c r now o => answer (mb_Requeue e t id c r now o)
  | CallDrain => ((mb_DrainLifecycleEvents t).1, true)
  | CallTrace b => (mb_SetLifecycleTracing t b, true)
  end.

Lemma storeExec_abs {order : RangeOrder} {T} `{StoreLaws T} e t c :
  abs (storeExec e t c).1 = exec (abs t) (me_wall e, c).
Proof.
  destruct c; cbn [storeExec exec fst snd];
    [rewrite (proj1 (law_publish e t _ _)) | rewrite (proj1 (law_consume e t _ _ _ _))
    | rewrite (proj1 (law_heartbeat e t _ _ _ _)) | rewrite (proj1 (law_ack e t _ _ _))
    | rewrite (proj1 (law_nack e t _ _ _ _ _)) | rewrite (proj1 (law_requeue e t _ _ _ _ _))
    | rewrite (proj1 (law_drain t)) | rewrite law_tracing]; done.
Qed.

Lemma reachable_exec s wc : wc.1 <> 0 -> reachable s -> reachable (exec s wc).
Proof.
  intros Hw (sid & backend & p & calls & Hc & ->). exists sid, backend, p, (calls ++ [wc]).
  split; [apply Forall_app; split; [exact Hc | by repeat constructor]|]. unfold run. by rewrite foldl_app.
Qed.

(** The calls that settle or change a message the caller names. *)
Definition mutating (c : call) : bool :=
  match c with
  | CallPublish _ _ | CallHeartbeat _ _ _ _ | CallAck _ _ _ | CallNack _ _ _ _ _ | CallRequeue _ _ _ _ _ => true
  | _ => false
  end.

Lemma mutating_durable {order : RangeOrder} {codec : SnapshotCodec} e fs c fs' :
  batchingEnabled (mf_persistOpts fs) = false -> mutating c = true -> storeExec e fs c = (fs', true) ->
  mf_file fs' = Some (snap_Marshal (snapshot (mf_state fs'))).
Proof.
  intros Hb Hm Hc. destruct c; try done; cbn [storeExec] in Hc;
    match type of Hc with
    | (?x.1, is_ok ?x.2) = _ => destruct x as [fs1 [a|er]] eqn:E; cbn in Hc; [injection Hc as <- | done]
    end; by apply (persisted_durable _ _ _ _ _ _ Hb E).
Qed.

(** C34: what a file store without batching has accepted survives a restart: after a
    publish, heartbeat, ack, nack or requeue that succeeded, opening the file gives a
    store with the records, queue, idempotency index, history, continuations and policy
    that the state machine has after that call, when the codec reads back the
    snapshot that was written. *)
Theorem accepted_call_survives_restart {order : RangeOrder} {codec : SnapshotCodec}
    (e e' : MailboxEnv) (fs fs' : FileStore) (c : call) (path : string) (p : Policy)
    (opts : list (fileStoreOptions -> fileStoreOptions))
    (Hreach : reachable (mf_state fs)) (Hwall : me_wall e <> 0)
    (Hbatch : batchingEnabled (mf_persistOpts fs) = false)
    (Hmut : mutating c = true) (Hcall : storeExec e fs c = (fs', true))
    (Hsource : sourceValid HistoryVersion (hj_SourceID (m_History (mf_state fs'))) = true)
    (Hcodec : snap_Unmarshal (snap_Marshal (snapshot (mf_state fs'))) = Some (snapshot (mf_state fs')))
    (Hio : me_io e' = None) (Hpath : TrimSpace path <> "") :
  let after := exec (mf_state fs) (me_wall e, c) in
  exists opened, NewFileStore e' path p opts (mf_file fs') = Ok opened
  /\ m_Records (mf_state opened) = m_Records after /\ m_Queue (mf_state opened) = m_Queue after
  /\ m_Idempotency (mf_state opened) = m_Idempotency after /\ m_History (mf_state opened) = m_History after
  /\ m_Continuations (mf_state opened) = m_Continuations after /\ m_Policy (mf_state opened) = m_Policy after.
Proof.
  intros after. assert (Hst : mf_state fs' = after).
  { pose proof (storeExec_abs e fs c) as Hs. by rewrite Hcall in Hs. }
  assert (Hr : reachable (mf_state fs')) by (rewrite Hst; by apply reachable_exec).
  rewrite (mutating_durable _ _ _ _ Hbatch Hmut Hcall). unfold NewFileStore, load.
  apply str_eqb_neq in Hpath. rewrite Hpath, Hio. cbn [mf_file]. rewrite Hcodec.
  rewrite restore_snapshot; [|by apply reachable_mailbox_inv | by apply reachable_journal | done].
  rewrite <-Hst. eexists. split; [done|]. done.
Qed.

(** A codec that knows one snapshot. *)
Definition codecFor (sn : Snapshot) : SnapshotCodec := {| snap_Marshal _ := "{}"; snap_Unmarshal _ := Some sn |}.

Definition demoMailboxEnv (now : Time) : MailboxEnv := mkMailboxEnv now now now None "RND".

Definition demoPublish : call := CallPublish (demoEnvelope "m9") (t0 + 5 * Second).

Definition demoFileStore : FileStore := mkFileStore false false demo (mkFileStoreOptions 0 1) 0 0 None.

#[local] Instance demoOrder : RangeOrder := listing_order.
#[local] Instance demoSnapshotCodec : SnapshotCodec := codecFor (snapshot (exec demo (t0, demoPublish))).

Lemma accepted_call_survives_restart_witness :
  let fs' := (storeExec (demoMailboxEnv t0) demoFileStore demoPublish).1 in
  exists opened, NewFileStore (demoMailboxEnv t0) "/tmp/mailbox.json" demoPolicy [] (mf_file fs') = Ok opened
  /\ m_Queue (mf_state opened) = m_Queue (exec demo (t0, demoPublish)).
Proof.
  destruct (accepted_call_survives_restart (demoMailboxEnv t0) (demoMailboxEnv t0) demoFileStore
    (storeExec (demoMailboxEnv t0) demoFileStore demoPublish).1 demoPublish "/tmp/mailbox.json" demoPolicy []
    demoMailbox_reachable) as (opened & H1 & _ & H2 & _).
  - done.
  - reflexivity.
  - reflexivity.
  - vm_compute. reflexivity.
  - vm_compute. reflexivity.
  - vm_compute. reflexivity.
  - reflexivity.
  - vm_compute. congruence.
  - exists opened. exact (conj H1 H2).
Defined.
