(* ===== verification/MailboxFacadeProps.v ===== *)
(** * Mailbox: the facade, the properties

    Proved against the interface of the stores ([StoreLaws]): two mailboxes whose stores
    hold the same state, but for the name of the backend, answer alike, a cached query is never stale while the store's
    writes succeed, and cursors enumerate the matching messages. *)
From Stdlib Require Import Ascii.
From S2P Require Import Prelude GoStrings GoNum Paging MailboxTypes MailboxState MailboxSnapshot.
From S2P Require Import MailboxInv MailboxProps MailboxStore MailboxFacade MailboxStoreProps.

Local Open Scope bool_scope.
Local Open Scope string_scope.
Local Open Scope list_scope.
Local Open Scope Z_scope.

(** ** The name of the backend *)

(** A state and a snapshot without it. *)
Definition namelessStats (st : Stats) : Stats := st <| ms_Backend := "" |>.
Definition nameless (s : mailboxState) : mailboxState := s <| m_Stats ::= namelessStats |>.
Definition namelessSnapshot (sn : Snapshot) : Snapshot :=
  mkSnapshot (sn_History sn) "" (sn_Records sn) (sn_Queue sn) (sn_Idempotency sn) (sn_Continuations sn)
    (namelessStats (sn_Stats sn)) (sn_Policy sn).

Definition namelessResult {E} (r : result E mailboxState) : result E mailboxState :=
  match r with Ok s => Ok (nameless s) | Err e => Err e end.

(** An operation of the state machine that does not read the name. *)
Definition blind {A} (op : mailboxState -> mailboxState * A) : Prop :=
  forall s, op (nameless s) = (nameless (op s).1, (op s).2).

Section blind.
Context (wall : Time).

Lemma nameless_emit s t r reason o :
  emitLifecycleEvent wall (nameless s) t r reason o = nameless (emitLifecycleEvent wall s t r reason o).
Proof. unfold emitLifecycleEvent, appendHistory. cbn. by destruct (m_traceEvents s). Qed.

Lemma publish_blind env now : blind (fun s => publish wall s env now).
Proof.
  intros s. unfold publish. destruct (normalizeEnvelope env) as [e|]; [|done].
  change (existingRecord (nameless s) e) with (existingRecord s e). destruct (existingRecord s e); [by case_match|].
  unfold publishNew. cbn. by destruct (_ && _).
Qed.

Lemma heartbeat_blind id c now d : blind (fun s => heartbeat wall s id c now d).
Proof.
  intros s. unfold heartbeat. change (requireInflightRecord (nameless s) id c) with (requireInflightRecord s id c).
  by destruct (requireInflightRecord s id c) as [[r|] [e|]].
Qed.

Lemma ack_blind id c now : blind (fun s => ack wall s id c now).
Proof.
  intros s. unfold ack. change (requireInflightRecord (nameless s) id c) with (requireInflightRecord s id c).
  destruct (requireInflightRecord s id c) as [[r|] [e|]]; try done; [by destruct (errorsIsAcked _)|].
  cbn [fst snd]. by rewrite <-nameless_emit.
Qed.

Lemma deadLetter_nameless s id rec code o :
  deadLetter wall (nameless s) id rec code o = (nameless (deadLetter wall s id rec code o).1, (deadLetter wall s id rec code o).2).
Proof. unfold deadLetter. cbn [fst snd]. by rewrite <-nameless_emit. Qed.

Lemma requeueNacked_nameless s id rec code now o :
  requeueNacked wall (nameless s) id rec code now o
  = (nameless (requeueNacked wall s id rec code now o).1, (requeueNacked wall s id rec code now o).2).
Proof.
  unfold requeueNacked. change (m_Policy (nameless s)) with (m_Policy s). case_match.
  - case_match; [apply deadLetter_nameless|]. unfold exhaust. cbn [fst snd]. by rewrite <-nameless_emit.
  - unfold backToQueue. cbn [fst snd]. by rewrite <-nameless_emit.
Qed.

Lemma nack_blind id c reason now o : blind (fun s => nack wall s id c reason now o).
Proof.
  intros s. unfold nack. change (requireInflightRecord (nameless s) id c) with (requireInflightRecord s id c).
  destruct (requireInflightRecord s id c) as [[r|] [e|]]; try done; [by case_match|]. cbn zeta.
  set (s1 := emitLifecycleEvent wall (updStats (putRecord s _ _) _) _ _ _ _).
  set (s2 := emitLifecycleEvent wall (updStats (putRecord (nameless s) _ _) _) _ _ _ _).
  assert (E : s2 = nameless s1) by (unfold s1, s2; by rewrite <-nameless_emit). rewrite E. clearbody s1. clear s2 E.
  change (m_Policy (nameless s1)) with (m_Policy s1). case_match; [|done].
  rewrite deadLetter_nameless. by destruct (deadLetter wall s1 _ _ _ _).
Qed.

Lemma requeue_blind id c reason now o : blind (fun s => requeue wall s id c reason now o).
Proof.
  intros s. unfold requeue. change (m_Records (nameless s)) with (m_Records s).
  destruct (m_Records s !! TrimSpace id) as [r|]; [|done]. destruct (mr_State r); try done.
  - case_match; [done|]. unfold nackInFlight. cbn zeta. set (s1 := emitLifecycleEvent wall (updStats (putRecord s _ _) _) _ _ _ _).
    set (s2 := emitLifecycleEvent wall (updStats (putRecord (nameless s) _ _) _) _ _ _ _).
    assert (E : s2 = nameless s1) by (unfold s1, s2; by rewrite <-nameless_emit). rewrite E. clearbody s1. clear s2 E.
    rewrite requeueNacked_nameless. by destruct (requeueNacked wall s1 _ _ _ _ _).
  - rewrite requeueNacked_nameless. by destruct (requeueNacked wall s _ _ _ _ _).
Qed.

Lemma expireRecord_nameless s id rec now : expireRecord wall (nameless s) id rec now = nameless (expireRecord wall s id rec now).
Proof.
  unfold expireRecord. cbn zeta. change (m_Policy (updStats (nameless s) _)) with (m_Policy s).
  change (m_Policy (updStats s _)) with (m_Policy s). destruct (mp_DLQEnabled (m_Policy s)); rewrite <-nameless_emit; [|done].
  f_equal. unfold putRecord. set (s1 := emitLifecycleEvent wall (updStats (updStats s _) _) _ _ _ _).
  set (s2 := emitLifecycleEvent wall (updStats (updStats (nameless s) _) _) _ _ _ _).
  assert (E : s2 = nameless s1) by (unfold s1, s2; by rewrite <-nameless_emit). by rewrite E.
Qed.

Lemma expireQueued_blind now : blind (fun s => expireQueued wall s now).
Proof.
  intros s. unfold expireQueued. change (m_Queue (nameless s)) with (m_Queue s).
  assert (H : forall l s f b, foldl (expireStep wall now) (nameless s, f, b) l
    = (nameless (foldl (expireStep wall now) (s, f, b) l).1.1, (foldl (expireStep wall now) (s, f, b) l).1.2,
       (foldl (expireStep wall now) (s, f, b) l).2)).
  { induction l as [|x l IH]; intros s0 f b; [done|]. cbn [foldl]. unfold expireStep at 2 4 6 8.
    change (m_Records (nameless s0)) with (m_Records s0). destruct (m_Records s0 !! TrimSpace x) as [r|]; [|apply IH].
    case_match; [apply IH|]. case_match; [apply IH|]. rewrite expireRecord_nameless. apply IH. }
  destruct (m_Queue s) as [|x l] eqn:E; [done|]. rewrite H. by destruct (foldl _ _ _) as [[s1 f] b].
Qed.

Lemma reclaim_blind now d : blind (fun s => reclaimStaleInFlight wall s now d).
Proof.
  intros s. unfold reclaimStaleInFlight. case_match; [done|].
  change (staleIDs (nameless s) now d) with (staleIDs s now d). generalize (staleIDs s now d) as l.
  intros l. generalize false as b. revert s. induction l as [|id l IH]; intros s b; [done|]. cbn [foldl].
  unfold reclaimStep at 2 4 6. rewrite (requeue_blind id "" _ now _ s).
  destruct (requeue wall s id "" _ now _) as [s1 r]. cbn [fst snd]. apply IH.
Qed.

Lemma consume_blind c now d b : blind (fun s => delivered (consume wall s c now d b)).
Proof.
  intros s. unfold consume. case_match; [done|].
  assert (E : consumeSweeps wall (nameless s) (or_now wall now) d b
    = (nameless (consumeSweeps wall s (or_now wall now) d b).1, (consumeSweeps wall s (or_now wall now) d b).2)).
  { unfold consumeSweeps. rewrite (expireQueued_blind (or_now wall now) s). destruct (expireQueued wall s _) as [s1 m1]. cbn [fst snd].
    destruct b; [|done]. rewrite (reclaim_blind (or_now wall now) d s1). by destruct (reclaimStaleInFlight _ _ _ _). }
  rewrite E. destruct (consumeSweeps wall s _ d b) as [s1 m1]. cbn [fst snd]. change (m_Queue (nameless s1)) with (m_Queue s1).
  change (fun e => entryDeliverable (nameless s1) (or_now wall now) e = true) with (fun e => entryDeliverable s1 (or_now wall now) e = true).
  destruct (list_find _ (m_Queue s1)) as [[i entry]|]; [|done]. change (m_Records (nameless s1)) with (m_Records s1).
  destruct (m_Records s1 !! TrimSpace entry) as [r|]; [|done]. unfold deliver, delivered. cbn [fst snd]. by rewrite <-nameless_emit.
Qed.

Lemma drain_blind : blind drainLifecycleEvents.
Proof. done. Qed.
End blind.

Section restoring.
Context {order : RangeOrder}.

Lemma restore_nameless sid s sn :
  namelessResult (restore sid s sn) = namelessResult (restore sid (nameless s) (namelessSnapshot sn)).
Proof.
  unfold restore, normalizeSnapshot. cbn [sn_Records sn_Queue sn_Idempotency sn_History sn_Policy namelessSnapshot].
  destruct (normalizeRecords ∅ (sn_Records sn)) as [records|]; [|done]. cbn [result_bind].
  destruct (normalizeQueue ∅ (sn_Queue sn)) as [queue|]; [|done]. cbn [result_bind].
  destruct (queueRefersQueued _ queue); [|done].
  destruct (foldl _ _ _) as [ix|]; [|done]. cbn [result_bind sn_History].
  destruct (sn_History sn) as [h|]; [destruct (HistoryJournal_validate h); [|done]|]; done.
Qed.

Lemma clone_nameless sid s :
  namelessResult (cloneMailboxState sid s) = namelessResult (cloneMailboxState sid (nameless s)).
Proof. unfold cloneMailboxState. rewrite restore_nameless. symmetry. by rewrite restore_nameless. Qed.
End restoring.

(** ** Calls of the facade *)

Inductive fcall : Type :=
| FPublish (env : Envelope)
| FConsume (consumerID : string) (d : Duration) (reclaim : bool)
| FHeartbeat (id consumerID : string) (d : Duration)
| FAck (id consumerID : string)
| FNack (id consumerID reason : string) (o : ActionOptions)
| FRequeue (id consumerID reason : string) (o : ActionOptions)
| FQuery (req : QueryRequest).

Inductive fanswer : Type :=
| APublished (r : result MailboxError PublishResult)
| ADelivered (r : result MailboxError (option MessageRecord))
| ARecord (r : result MailboxError MessageRecord)
| APage (r : result MailboxError QueryResult).

Section calls.
Context {order : RangeOrder} {codec : QueryCodec}.

Definition facadeStep {T} `{MailboxStore T} (e : MailboxEnv) (m : Mailbox T) (c : fcall) : Mailbox T * fanswer :=
  match c with
  | FPublish env => let '(m, r) := Publish e m env in (m, APublished r)
  | FConsume c d b => let '(m, r) := ConsumeWithLease e m c d b in (m, ADelivered r)
  | FHeartbeat id c d => let '(m, r) := Heartbeat e m id c d in (m, ARecord r)
  | FAck id c => let '(m, r) := Ack e m id c in (m, ARecord r)
  | FNack id c reason o => let '(m, r) := NackWithOptions e m id c reason o in (m, ARecord r)
  | FRequeue id c reason o => let '(m, r) := RequeueWithOptions e m id c reason o in (m, ARecord r)
  | FQuery req => let '(m, r) := Query m req in (m, APage r)
  end.

Fixpoint facadeRun {T} `{MailboxStore T} (m : Mailbox T) (calls : list (MailboxEnv * fcall))
    : Mailbox T * list fanswer :=
  match calls with
  | [] => (m, [])
  | (e, c) :: calls =>
      let '(m, a) := facadeStep e m c in
      let '(m, l) := facadeRun m calls in (m, a :: l)
  end.

(** ** Any two stores with the same state *)

(** Two mailboxes that differ in their stores only, which hold the same state but for the name of the backend. *)
Record alike {T1 T2} `{Abstracts T1, Abstracts T2} (m1 : Mailbox T1) (m2 : Mailbox T2) : Prop := {
  al_state : nameless (abs (mx_store m1)) = nameless (abs (mx_store m2));
  al_observers : mx_observers m1 = mx_observers m2;
  al_observed : mx_observed m1 = mx_observed m2;
  al_epoch : mx_queryCacheEpoch m1 = mx_queryCacheEpoch m2;
  al_cache : mx_queryCache m1 = mx_queryCache m2
}.

Section two_stores.
Context {T1 T2 : Type} {MS1 : MailboxStore T1} {AB1 : Abstracts T1} {L1 : StoreLaws T1}.
Context {MS2 : MailboxStore T2} {AB2 : Abstracts T2} {L2 : StoreLaws T2}.

(** An operation that does not read the name, on two such states. *)
Lemma blind_alike {A} (op : mailboxState -> mailboxState * A) s1 s2 :
  blind op -> nameless s1 = nameless s2 -> (op s1).2 = (op s2).2 /\ nameless (op s1).1 = nameless (op s2).1.
Proof.
  intros Hb E. pose proof (Hb s1) as E1. pose proof (Hb s2) as E2. rewrite E, E2 in E1.
  split; [exact (eq_sym (f_equal snd E1)) | exact (eq_sym (f_equal fst E1))].
Qed.

Lemma emitLifecycle_alike e (m1 : Mailbox T1) (m2 : Mailbox T2) :
  alike m1 m2 -> alike (emitLifecycle e m1) (emitLifecycle e m2).
Proof.
  intros [Hs Ho Hd He Hc]. unfold emitLifecycle.
  destruct (law_drain (mx_store m1)) as [D1 E1], (law_drain (mx_store m2)) as [D2 E2].
  destruct (mb_DrainLifecycleEvents (mx_store m1)) as [t1 ev1], (mb_DrainLifecycleEvents (mx_store m2)) as [t2 ev2].
  destruct (blind_alike _ _ _ drain_blind Hs) as [B1 B2].
  cbn [fst snd] in *. subst ev1 ev2. cbn in B1.
  split; [|cbn; rewrite ?Ho, ?Hd, ?B1; done..].
  change (nameless (abs t1) = nameless (abs t2)). by rewrite D1, D2.
Qed.

(** What two stores make of one operation of the state machine. *)
Lemma agrees_alike {A} e (x1 : T1 * result MailboxError A) (x2 : T2 * result MailboxError A) op s1 s2 :
  me_io e = None -> blind op -> nameless s1 = nameless s2 -> agrees e x1 (op s1) -> agrees e x2 (op s2) ->
  x1.2 = x2.2 /\ nameless (abs x1.1) = nameless (abs x2.1).
Proof.
  intros Hio Hb E [A1 R1] [A2 R2]. destruct (blind_alike op s1 s2 Hb E) as [B1 B2]. rewrite A1, A2. split; [|done].
  destruct R1 as [|(? & ? & _)], R2 as [|(? & ? & _)]; congruence.
Qed.

Lemma settling_alike {A} e (m1 : Mailbox T1) (m2 : Mailbox T2) (x1 : T1 * result MailboxError A) x2 :
  alike m1 m2 -> x1.2 = x2.2 -> nameless (abs x1.1) = nameless (abs x2.1) ->
  (settling e m1 x1).2 = (settling e m2 x2).2 /\ alike (settling e m1 x1).1 (settling e m2 x2).1.
Proof.
  intros [Hs Ho Hd He Hc] E1 E2. unfold settling. cbn [fst snd]. rewrite E1. split; [done|]. apply emitLifecycle_alike.
  destruct (is_ok x2.2); (split; [exact E2 | cbn; congruence..]).
Qed.

(** A call that replaces the store and drops the cache when it succeeds. *)
Definition storing {T A} (m : Mailbox T) (x : T * result MailboxError A) : Mailbox T :=
  let m := m <| mx_store := x.1 |> in if is_ok x.2 then invalidateQueryCache m else m.

Lemma storing_alike {A} (m1 : Mailbox T1) (m2 : Mailbox T2) (x1 : T1 * result MailboxError A) x2 :
  alike m1 m2 -> x1.2 = x2.2 -> nameless (abs x1.1) = nameless (abs x2.1) -> alike (storing m1 x1) (storing m2 x2).
Proof.
  intros [Hs Ho Hd He Hc] E1 E2. unfold storing. rewrite E1. destruct (is_ok x2.2); (split; [exact E2 | cbn; congruence..]).
Qed.

Lemma snapshot_alike (s1 s2 : mailboxState) :
  nameless s1 = nameless s2 -> namelessSnapshot (snapshot s1) = namelessSnapshot (snapshot s2).
Proof.
  intros E. change (snapshot (nameless s1) = snapshot (nameless s2)). by rewrite E.
Qed.

Lemma Query_alike (m1 : Mailbox T1) (m2 : Mailbox T2) req :
  alike m1 m2 -> (Query m1 req).2 = (Query m2 req).2 /\ alike (Query m1 req).1 (Query m2 req).1.
Proof.
  intros Ha. pose proof Ha as [Hs Ho Hd He Hc]. unfold Query, readQueryCache, writeQueryCache.
  assert (E : sn_Records (mb_Snapshot (mx_store m1)) = sn_Records (mb_Snapshot (mx_store m2))).
  { rewrite !law_snapshot. apply snapshot_alike in Hs. exact (f_equal sn_Records Hs). }
  rewrite He, Hc, E. destruct (normalizeQuery req) as [q|]; [|done].
  destruct (decodeCursor (nq_Cursor q) (queryHash q)) as [start|]; [|done].
  destruct (TrimSpace (queryHash q) =s? ""); [done|]. rewrite Z.eqb_refl. cbn [negb].
  destruct (mx_queryCache m2 !! queryHash q); [done|]. split; [done|]. split; [exact Hs | cbn; congruence..].
Qed.

Lemma facadeStep_alike e (m1 : Mailbox T1) (m2 : Mailbox T2) c :
  me_io e = None -> alike m1 m2 ->
  (facadeStep e m1 c).2 = (facadeStep e m2 c).2 /\ alike (facadeStep e m1 c).1 (facadeStep e m2 c).1.
Proof.
  intros Hio Ha. pose proof (al_state _ _ Ha) as Hs.
  assert (settle_case : forall (A : Type) (x1 : T1 * result MailboxError A) x2 op (f : result MailboxError A -> fanswer),
    blind op -> agrees e x1 (op (abs (mx_store m1))) -> agrees e x2 (op (abs (mx_store m2))) ->
    (let '(m, r) := settling e m1 x1 in (m, f r)).2 = (let '(m, r) := settling e m2 x2 in (m, f r)).2
    /\ alike (let '(m, r) := settling e m1 x1 in (m, f r)).1 (let '(m, r) := settling e m2 x2 in (m, f r)).1).
  { intros A x1 x2 op f Hb H1 H2. destruct (agrees_alike e x1 x2 op _ _ Hio Hb Hs H1 H2) as [E1 E2].
    destruct (settling_alike e m1 m2 x1 x2 Ha E1 E2) as [E3 E4].
    destruct (settling e m1 x1), (settling e m2 x2). cbn in *. by subst. }
  destruct c; cbn [facadeStep].
  - destruct (agrees_alike e _ _ (fun s => publish (me_wall e) s env (me_now e)) _ _ Hio (publish_blind _ _ _) Hs
      (law_publish e (mx_store m1) env (me_now e)) (law_publish e (mx_store m2) env (me_now e))) as [E1 E2].
    pose proof (storing_alike m1 m2 _ _ Ha E1 E2) as E3. unfold Publish, storing in *.
    destruct (mb_Publish e (mx_store m1) env _) as [t1 r1], (mb_Publish e (mx_store m2) env _) as [t2 r2]. cbn in *. by subst.
  - eapply (settle_case _ _ _ _ ADelivered); [apply consume_blind | apply law_consume | apply law_consume].
  - eapply (settle_case _ _ _ _ ARecord); [apply heartbeat_blind | apply law_heartbeat | apply law_heartbeat].
  - eapply (settle_case _ _ _ _ ARecord); [apply ack_blind | apply law_ack | apply law_ack].
  - eapply (settle_case _ _ _ _ ARecord); [apply nack_blind | apply law_nack | apply law_nack].
  - eapply (settle_case _ _ _ _ ARecord); [apply requeue_blind | apply law_requeue | apply law_requeue].
  - destruct (Query_alike m1 m2 req Ha) as [E1 E2]. destruct (Query m1 req), (Query m2 req). cbn in *. by subst.
Qed.

Lemma Restore_alike e (m1 : Mailbox T1) (m2 : Mailbox T2) sn :
  me_io e = None -> alike m1 m2 -> (Restore e m1 sn).2 = (Restore e m2 sn).2 /\ alike (Restore e m1 sn).1 (Restore e m2 sn).1.
Proof.
  intros Hio Ha. pose proof (al_state _ _ Ha) as Hs.
  destruct (law_restore e (mx_store m1) sn) as [A1 R1], (law_restore e (mx_store m2) sn) as [A2 R2].
  assert (E : (mb_Restore e (mx_store m1) sn).2 = (mb_Restore e (mx_store m2) sn).2
    /\ nameless (abs (mb_Restore e (mx_store m1) sn).1) = nameless (abs (mb_Restore e (mx_store m2) sn).1)).
  { rewrite A1, A2. destruct R1 as [->|(? & ? & _)]; [|congruence]. destruct R2 as [->|(? & ? & _)]; [|congruence].
    unfold restoreInto. pose proof (restore_nameless (me_rand e) (abs (mx_store m1)) sn) as E1.
    rewrite Hs, <-restore_nameless in E1. destruct (restore _ (abs (mx_store m1)) sn), (restore _ (abs (mx_store m2)) sn);
      cbn [namelessResult fst snd] in *; (split; [congruence|]); try done; congruence. }
  destruct E as [E1 E2]. pose proof (storing_alike m1 m2 _ _ Ha E1 E2) as E3. unfold Restore, storing in *.
  destruct (mb_Restore e (mx_store m1) sn) as [t1 r1], (mb_Restore e (mx_store m2) sn) as [t2 r2]. cbn in *. by subst.
Qed.
End two_stores.
End calls.

#[local] Instance demoOrder : RangeOrder := listing_order.
#[local] Instance demoSnapshotCodec : SnapshotCodec := codecFor (snapshot demo).

(** A codec for the examples: one digest for all, offsets in unary. *)
#[local] Instance demoQueryCodec : QueryCodec := {|
  sha1Hex _ := "d";
  cursor_Encode c := of_bytes ("c"%char :: replicate (Z.to_nat (cu_Offset c)) "x"%char);
  cursor_Decode x := match bytes x with
                     | [] => None
                     | _ :: l => Some (mkCursor (Z.of_nat (length l)) "d")
                     end
|}.

#[local] Instance demoQueryCodec_laws : QueryCodecLaws.
Proof.
  split; cbn [sha1Hex cursor_Encode cursor_Decode demoQueryCodec cu_Offset].
  - intros _. by vm_compute.
  - intros n _ _. split; [|done]. apply TrimSpace_id, ascii_trimmed. rewrite bytes_of_bytes.
    constructor; [done | by apply Forall_replicate].
  - intros n _ Hn. rewrite bytes_of_bytes, length_replicate, Z2Nat.id by done. done.
Qed.

Definition everything : QueryRequest := mkQueryRequest "" "" "" "" "" "" "" "" "" "" "" None (Some 1) "" "" "".

Definition demoFacadeCalls : list (MailboxEnv * fcall) :=
  [(demoMailboxEnv (t0 + 5 * Second), FPublish (demoEnvelope "m9"));
   (demoMailboxEnv (t0 + 6 * Second), FConsume "w7" (10 * Second) false);
   (demoMailboxEnv (t0 + 7 * Second), FQuery everything)].

(** ** Fresh answers *)

(** A call that fails leaves the state as it was. *)
Lemma failed_calls_change_nothing wall s :
  (forall env now er, (publish wall s env now).2 = Err er -> (publish wall s env now).1 = s)
  /\ (forall c now d b er, (delivered (consume wall s c now d b)).2 = Err er ->
        (delivered (consume wall s c now d b)).1 = s)
  /\ (forall id c now d er, (heartbeat wall s id c now d).2 = Err er -> (heartbeat wall s id c now d).1 = s)
  /\ (forall id c now er, (ack wall s id c now).2 = Err er -> (ack wall s id c now).1 = s)
  /\ (forall id c r now o er, (nack wall s id c r now o).2 = Err er -> (nack wall s id c r now o).1 = s)
  /\ (forall id c r now o er, (requeue wall s id c r now o).2 = Err er -> (requeue wall s id c r now o).1 = s).
Proof.
  split_and!; intros *.
  - unfold publish. repeat (case_match; try done).
  - unfold consume. case_match; [done|]. destruct (consumeSweeps _ _ _ _ _) as [s' mutated].
    destruct (list_find _ _) as [[i entry]|]; [|done]. destruct (m_Records s' !! TrimSpace entry); [|done].
    by destruct (deliver _ _ _ _ _ _ _ _).
  - unfold heartbeat. repeat (case_match; try done).
  - unfold ack. repeat (case_match; try done).
  - unfold nack. repeat (case_match; try done).
  - unfold requeue. repeat (case_match; try done).
Qed.

Section fresh.
Context {order : RangeOrder} {codec : QueryCodec} {T : Type} {MS : MailboxStore T} {AB : Abstracts T}.
Context {L : StoreLaws T}.

Definition stored (m : Mailbox T) : list MessageRecord := sn_Records (mb_Snapshot (mx_store m)).

(** The queries that were made. *)
Variable made : normalizedQuery -> Prop.

(** Every cached list is the answer of a query that was made, on the stored records. *)
Definition fresh (m : Mailbox T) : Prop :=
  forall key items, mx_queryCache m !! key = Some items ->
    exists q, made q /\ queryHash q = key /\ items = filterQueryRecords (stored m) q.

Lemma fresh_state (m m' : Mailbox T) :
  sn_Records (snapshot (abs (mx_store m'))) = sn_Records (snapshot (abs (mx_store m))) ->
  mx_queryCache m' = mx_queryCache m -> fresh m -> fresh m'.
Proof.
  intros Hs Hc Hf key items. rewrite Hc. intros Hk. destruct (Hf key items Hk) as (q & Hi & Hq & ->).
  exists q. split; [done|]. split; [done|]. unfold stored. rewrite !law_snapshot. by rewrite Hs.
Qed.

Lemma fresh_invalidated (m : Mailbox T) : fresh (invalidateQueryCache m).
Proof. intros key items. cbn. by rewrite lookup_empty. Qed.

Lemma emitLifecycle_fresh e m : fresh m -> fresh (emitLifecycle e m).
Proof.
  intros Hf. unfold emitLifecycle. destruct (law_drain (mx_store m)) as [D _].
  destruct (mb_DrainLifecycleEvents (mx_store m)) as [t ev]. cbn [fst] in D.
  apply (fresh_state m); [|done|done]. cbn. by rewrite D.
Qed.

Lemma settling_fresh {A} e m (x : T * result MailboxError A) y :
  me_io e = None -> agrees e x y -> (forall er, y.2 = Err er -> y.1 = abs (mx_store m)) ->
  fresh m -> fresh (settling e m x).1.
Proof.
  intros Hio [Ha Hr] Herr Hf. unfold settling. cbn [fst]. apply emitLifecycle_fresh.
  destruct Hr as [E|(? & ? & _)]; [|congruence].
  destruct x as [t [a|er]]; cbn [fst snd is_ok] in *; [apply fresh_invalidated|].
  apply (fresh_state m); [|done|done]. cbn. by rewrite Ha, (Herr er).
Qed.

Lemma Query_fresh m req : (forall q, normalizeQuery req = Ok q -> made q) -> fresh m -> fresh (Query m req).1.
Proof.
  intros Hi Hf. unfold Query. destruct (normalizeQuery req) as [q|]; [|done]. specialize (Hi q eq_refl).
  destruct (decodeCursor _ _); [|done]. destruct (readQueryCache _ _ _); [done|]. cbn [fst].
  unfold writeQueryCache. destruct (_ =s? _); [done|]. destruct (negb _); [done|].
  intros key items. cbn. rewrite lookup_insert_Some. intros [[<- <-]|[_ Hk]]; [by exists q|].
  case_match; [done|]. by apply Hf.
Qed.

(** The query of a call, if it is one. *)
Definition queryOf (c : fcall) : option normalizedQuery :=
  match c with
  | FQuery req => match normalizeQuery req with Ok q => Some q | Err _ => None end
  | _ => None
  end.

Lemma facadeStep_fresh e m c :
  me_io e = None -> (forall q, queryOf c = Some q -> made q) -> fresh m -> fresh (facadeStep e m c).1.
Proof.
  intros Hio Hi Hf.
  assert (settle_case : forall (A : Type) (x : T * result MailboxError A) y (f : result MailboxError A -> fanswer),
    agrees e x y -> (forall er, y.2 = Err er -> y.1 = abs (mx_store m)) ->
    fresh (let '(m, r) := settling e m x in (m, f r)).1).
  { intros A x y f Hx Hy. pose proof (settling_fresh e m x y Hio Hx Hy Hf).
    by destruct (settling e m x). }
  destruct (failed_calls_change_nothing (me_wall e) (abs (mx_store m))) as (F1 & F2 & F3 & F4 & F5 & F6).
  destruct c; cbn [facadeStep].
  - pose proof (law_publish e (mx_store m) env (me_now e)) as P. unfold Publish.
    destruct (mb_Publish e (mx_store m) env _) as [t r]. destruct P as [A1 R1]. cbn [fst snd] in *.
    destruct R1 as [E|(? & ? & _)]; [|congruence]. destruct r as [a|er]; cbn [is_ok]; [apply fresh_invalidated|].
    apply (fresh_state m); [|done|done]. cbn. by rewrite A1, (F1 _ _ er).
  - eapply (settle_case _ _ _ ADelivered); [apply law_consume | apply F2].
  - eapply (settle_case _ _ _ ARecord); [apply law_heartbeat | apply F3].
  - eapply (settle_case _ _ _ ARecord); [apply law_ack | apply F4].
  - eapply (settle_case _ _ _ ARecord); [apply law_nack | apply F5].
  - eapply (settle_case _ _ _ ARecord); [apply law_requeue | apply F6].
  - assert (Hm : forall q, normalizeQuery req = Ok q -> made q) by (intros q Hq; apply Hi; cbn; by rewrite Hq).
    pose proof (Query_fresh m req Hm Hf). by destruct (Query m req).
Qed.

Lemma facadeRun_fresh calls : forall m,
  Forall (fun c => me_io c.1 = None /\ forall q, queryOf c.2 = Some q -> made q) calls ->
  fresh m -> fresh (facadeRun m calls).1.
Proof.
  induction calls as [|[e c] calls IH]; intros m HF Hf; [done|].
  apply Forall_cons in HF as [[Hio Hi] HF]. pose proof (facadeStep_fresh e m c Hio Hi Hf) as Hs. cbn [facadeRun].
  destruct (facadeStep e m c) as [m' a]. pose proof (IH m' HF Hs). by destruct (facadeRun m' calls).
Qed.
End fresh.

(** ** Pages *)

Lemma queryLess_asym field order a b : queryLess field order a b = true -> queryLess field order b a = false.
Proof.
  unfold queryLess, TimeEqual, After, Before. cbn zeta.
  set (ta := querySortTimestamp a field). set (tb := querySortTimestamp b field).
  rewrite (Z.eqb_sym tb ta). destruct (Z.eqb_spec ta tb); [apply str_ltb_asym|].
  destruct (negb _); rewrite ?Z.ltb_lt, ?Z.ltb_ge; lia.
Qed.

(** The records a query ranges over. *)
Lemma filterQueryRecords_spec records q :
  filterQueryRecords records q ≡ₚ List.filter (fun r => matchesQuery r q) records
  /\ Sorted (fun a b => queryLess (nq_SortField q) (nq_SortOrder q) b a = false) (filterQueryRecords records q).
Proof.
  unfold filterQueryRecords, sortQuery. split.
  - rewrite SliceStable_perm. unfold cloneRecord. by rewrite list_fmap_id.
  - apply SliceStable_sorted, queryLess_asym.
Qed.

(** The checks of [normalizeQuery] do not read the cursor. *)
Lemma normalizeQuery_inv req q : normalizeQuery req = Ok q ->
  0 < nq_PageSize q /\ nq_Cursor q = TrimSpace (qr_Cursor req)
  /\ forall c, normalizeQuery (req <| qr_Cursor := c |>)
     = Ok (mkNormalizedQuery (nq_MessageID q) (nq_IdempotencyKey q) (nq_CorrelationID q) (nq_Kind q) (nq_State q)
             (nq_FromAgent q) (nq_ToAgent q) (nq_TaskID q) (nq_RunID q) (nq_WorkflowID q) (nq_TeamID q)
             (nq_TimeRange q) (nq_PageSize q) (nq_SortField q) (nq_SortOrder q) (TrimSpace c)).
Proof.
  destruct req as [? ? ? ? ? ? ? ? ? ? ? tr page ? ? ?]. unfold normalizeQuery. cbn.
  destruct page as [p|]; cbn; [destruct (Z.leb_spec p 0); cbn; [done|]; destruct (_ <? p); cbn; [done|]|];
    do 5 (match goal with |- (if ?b then _ else _) = _ -> _ => destruct b; [|done] end);
    intros [= <-]; cbn; (split; [unfold DefaultQueryPageSize; lia | done]).
Qed.

Section pages.
Context {order : RangeOrder} {codec : QueryCodec} {laws : QueryCodecLaws}.
Context {T : Type} {MS : MailboxStore T} {AB : Abstracts T} {L : StoreLaws T}.

(** One page, for a client that follows the cursors of a request. *)
Definition askPage (req : QueryRequest) (m : Mailbox T) (cursor : string) : Mailbox T * option (list MessageRecord * string) :=
  match Query m (req <| qr_Cursor := cursor |>) with
  | (m, Ok res) => (m, Some (qo_Items res, qo_NextCursor res))
  | (m, Err _) => (m, None)
  end.

Definition followCursors (fuel : nat) (m : Mailbox T) (req : QueryRequest) : list MessageRecord :=
  followPages (askPage req) fuel m (qr_Cursor req).

(** The queries with the digest of [q] that were made match what [q] matches. *)
Definition distinguished (made : normalizedQuery -> Prop) (records : list MessageRecord) (q : normalizedQuery) : Prop :=
  forall q', made q' -> queryHash q' = queryHash q -> filterQueryRecords records q' = filterQueryRecords records q.

(** Made by the calls before, or a page of [q] itself. *)
Definition madeOrPage (made : normalizedQuery -> Prop) (q q' : normalizedQuery) : Prop :=
  made q' \/ forall records, filterQueryRecords records q' = filterQueryRecords records q.

Lemma mailboxPage_page made m req q cursor start :
  normalizeQuery req = Ok q -> fresh (madeOrPage made q) m -> distinguished made (stored m) q ->
  decodeCursor cursor (queryHash q) = Some start ->
  exists m', askPage req m cursor = (m', pageOf (filterQueryRecords (stored m) q) start (nq_PageSize q) (queryHash q))
    /\ mx_store m' = mx_store m /\ fresh (madeOrPage made q) m'.
Proof.
  intros Hq Hf Hd Hc. destruct (normalizeQuery_inv _ _ Hq) as (_ & _ & Hn).
  assert (Hf' : fresh (madeOrPage made q) (Query m (req <| qr_Cursor := cursor |>)).1).
  { apply Query_fresh; [|done]. intros q'. rewrite Hn. intros [= <-]. by right. }
  unfold askPage. unfold Query in *. rewrite (Hn cursor) in *.
  set (q1 := mkNormalizedQuery _ _ _ _ _ _ _ _ _ _ _ _ _ _ _ _) in *. cbn [nq_Cursor q1] in *.
  change (queryHash q1) with (queryHash q) in *. change (filterQueryRecords ?r q1) with (filterQueryRecords r q) in *.
  assert (Hc' : decodeCursor (TrimSpace cursor) (queryHash q) = Some start)
    by (unfold decodeCursor in *; by rewrite TrimSpace_idemp).
  rewrite Hc' in *. unfold buildQueryResult in *. change (nq_PageSize q1) with (nq_PageSize q) in *.
  destruct (readQueryCache m _ _) as [items|] eqn:Hr.
  - assert (items = filterQueryRecords (stored m) q) as ->.
    { unfold readQueryCache in Hr. destruct (_ =s? _); [done|]. destruct (negb _); [done|].
      destruct (Hf _ _ Hr) as (q' & [Hm|Hp] & Hq' & ->); [by apply Hd | by apply Hp]. }
    exists m. split; [|done]. by destruct (pageOf _ start _ _) as [[]|].
  - eexists (writeQueryCache m _ _ _). split; [by destruct (pageOf _ start _ _) as [[]|]|].
    split; [|exact Hf']. unfold writeQueryCache. repeat (case_match; try done).
Qed.
End pages.

(** Paginated queries are complete and up to date. After any sequence of calls
    whose writes succeed, on either store, a client that starts without a cursor and
    follows the returned ones gets the messages that now match its filters, every one
    once, in the requested order, whatever the page size and whatever earlier queries
    have left in the cache, when no earlier query with other matches shares its digest;
    as many pages as there are matches are enough. *)
Theorem mailbox_pages_enumerate_matches {order : RangeOrder} {codec : QueryCodec} {laws : QueryCodecLaws}
    {T : Type} {MS : MailboxStore T} {AB : Abstracts T} {L : StoreLaws T}
    (store : T) (observers : nat) (calls : list (MailboxEnv * fcall)) (req : QueryRequest) (q : normalizedQuery)
    (fuel : nat) (Hio : Forall (fun c => me_io c.1 = None) calls)
    (Hq : normalizeQuery req = Ok q) (Hcursor : nq_Cursor q = "") :
  let m := (facadeRun (New store observers) calls).1 in
  let matching := List.filter (fun r => matchesQuery r q) (stored m) in
  distinguished (fun q' => exists c, c ∈ calls /\ queryOf c.2 = Some q') (stored m) q ->
  (length matching < fuel)%nat ->
  followCursors fuel m req ≡ₚ matching
  /\ Sorted (fun a b => queryLess (nq_SortField q) (nq_SortOrder q) b a = false) (followCursors fuel m req).
Proof.
  intros m matching Hd Hfuel. destruct (filterQueryRecords_spec (stored m) q) as [Hp Hs].
  set (made := fun q' => _) in Hd. assert (Hf : fresh (madeOrPage made q) m).
  { apply facadeRun_fresh; [|intros key items; cbn; by rewrite lookup_empty]. rewrite Forall_forall in *.
    intros c Hc. split; [by apply Hio|]. intros q' Hq'. left. exists c. done. }
  assert (E : followCursors fuel m req = filterQueryRecords (stored m) q); [|by rewrite E].
  destruct (normalizeQuery_inv _ _ Hq) as (Hsize & Hcur & _).
  unfold followCursors. rewrite <-(drop_0 (filterQueryRecords (stored m) q)).
  apply (followPages_from _ (fun m' => mx_store m' = mx_store m /\ fresh (madeOrPage made q) m') _ (nq_PageSize q) (queryRaw q));
    [done| |by split| |lia|rewrite Hp; fold matching; lia].
  - intros m1 cursor start [Hst Hf1] Hc.
    assert (Est : stored m1 = stored m) by (unfold stored; by rewrite Hst).
    destruct (mailboxPage_page made m1 req q cursor start Hq Hf1) as (m' & E & Hst' & Hf'); [by rewrite Est | done|].
    rewrite Est in E. exists m'. split; [exact E|]. split; [congruence | done].
  - unfold decodeCursor. rewrite <-Hcur, Hcursor. done.
Qed.

Lemma mailbox_pages_enumerate_matches_witness :
  length (followCursors 4 (facadeRun (New (mkMemoryStore demo) 0) demoFacadeCalls).1 everything) = 3%nat.
Proof.
  destruct (mailbox_pages_enumerate_matches (mkMemoryStore demo) 0 demoFacadeCalls everything
    (mkNormalizedQuery "" "" "" "" "" "" "" "" "" "" "" None 1 "updated_at" "desc" "") 4) as [Hp _].
  - repeat constructor.
  - vm_compute. reflexivity.
  - reflexivity.
  - intros q' (c & Hc & Hq) _. unfold demoFacadeCalls in Hc.
    repeat (apply elem_of_cons in Hc as [->|Hc]; [try discriminate Hq|]); [|by apply elem_of_nil in Hc].
    vm_compute in Hq. by injection Hq as <-.
  - vm_compute. lia.
  - rewrite Hp. vm_compute. reflexivity.
Defined.

(** ** Where a failed write shows *)

Definition emptyFileStore : FileStore :=
  mkFileStore false false (newMailboxState "SRC" "file" demoPolicy) (mkFileStoreOptions 0 1) 0 0 None.

Definition failingEnv (now : Time) : MailboxEnv := mkMailboxEnv now now now (Some "disk full") "RND".

(** A publish that could not be written reports an error, but the message stays in the
    store: the next consumer gets it. The query cache is not invalidated, so that a
    query answers from before it. *)
Example failed_publish_is_delivered :
  let q0 := Query (New emptyFileStore 0) everything in
  let p := Publish (failingEnv t0) q0.1 (demoEnvelope "m1") in
  let q1 := Query p.1 everything in
  let c := Consume (demoMailboxEnv (t0 + Second)) q1.1 "w" in
  p.2 = Err (ErrFileBackend "disk full")
  /\ (match q1.2 with Ok res => length (qo_Items res) | Err _ => 9%nat end) = 0%nat
  /\ length (stored p.1) = 1%nat
  /\ (match c.2 with Ok (Some r) => ev_MessageID (mr_Envelope r) | _ => "" end) = "m1".
Proof. vm_compute. split_and!; reflexivity. Qed.
