(* ===== verification/MailboxWorkerProps.v ===== *)
(** * Mailbox: the worker, the properties

    Proved against the interface of the stores: a round of a worker settles the message
    it took as the configured policy says, as long as nobody takes the message away, and
    a worker whose mailbox gets no new messages comes to rest whatever its handler does. *)
From S2P Require Import Prelude GoStrings GoNum MailboxTypes MailboxState MailboxSnapshot.
From S2P Require Import MailboxInv MailboxSweeps MailboxProps MailboxStore MailboxFacade.
From S2P Require Import MailboxStoreProps MailboxWorker.

Local Open Scope bool_scope.
Local Open Scope string_scope.
Local Open Scope list_scope.
Local Open Scope Z_scope.

(** ** Holding a message *)

(** The consumer [c] has the message [id] in flight. *)
Record holds (s : mailboxState) (id c : string) (r : MessageRecord) : Prop := {
  hd_record : m_Records s !! id = Some r;
  hd_state : mr_State r = StateInFlight;
  hd_consumer : mr_ConsumerID r = c;
  hd_id : TrimSpace id = id;
  hd_trimmed : TrimSpace c = c
}.

(** What a worker measures: the policy, the number of messages, the deliveries made. *)
Definition load (s : mailboxState) : Policy * nat * Z :=
  (m_Policy s, size (m_Records s), map_sum mr_DeliveryAttempt (m_Records s)).

(** A step that rewrites one record and leaves its deliveries. *)
Definition rewrites (s s' : mailboxState) (id : string) (r r' : MessageRecord) : Prop :=
  m_Records s' = <[id := r']> (m_Records s) /\ m_Policy s' = m_Policy s
  /\ mr_DeliveryAttempt r' = mr_DeliveryAttempt r.

Lemma rewrites_load s s' id r r' : m_Records s !! id = Some r -> rewrites s s' id r r' -> load s' = load s.
Proof.
  intros Hr (HR & HP & Ha). unfold load. rewrite HR, HP, map_size_insert_Some by (rewrite Hr; eauto).
  rewrite (map_sum_insert _ _ _ r) by done. by rewrite Ha, Z.sub_add.
Qed.

Lemma holds_inflight s id c r : holds s id c r -> requireInflightRecord s id c = (Some r, None).
Proof.
  intros [Hr Hs Hc Hi Ht]. unfold requireInflightRecord. rewrite Hi, Hr, Ht, bool_decide_true by done.
  cbn. by rewrite Hc, str_eqb_refl, andb_false_r.
Qed.

Section steps.
Context (wall : Time).

Lemma heartbeat_holds s id c r now d : holds s id c r ->
  exists s' r', heartbeat wall s id c now d = (s', Ok r') /\ holds s' id c r' /\ rewrites s s' id r r'.
Proof.
  intros Hh. unfold heartbeat. rewrite (holds_inflight _ _ _ _ Hh). destruct Hh as [Hr Hs Hc Hi Ht].
  eexists _, _. split; [done|]. rewrite Hi. split; [|by split]. split; cbn; try done. apply lookup_insert_eq.
Qed.

Lemma ack_holds s id c r now : holds s id c r ->
  exists s' r', ack wall s id c now = (s', Ok r') /\ rewrites s s' id r r' /\ mr_State r' = StateAcked.
Proof.
  intros Hh. unfold ack. rewrite (holds_inflight _ _ _ _ Hh). destruct Hh as [Hr Hs Hc Hi Ht].
  eexists _, _. split; [done|]. rewrite Hi. split; [|done]. split; [by rewrite emit_Records|]. by rewrite emit_Policy.
Qed.

(** The state [nack] leaves. *)
Definition nackedState (p : Policy) (n : Z) : MessageState :=
  if (mp_MaxAttempts p <=? n) && mp_DLQEnabled p then StateDeadLetter else StateNacked.

Lemma nack_holds s id c r reason now o : holds s id c r ->
  exists s' r', nack wall s id c reason now o = (s', Ok r') /\ rewrites s s' id r r'
  /\ mr_State r' = nackedState (m_Policy s) (mr_DeliveryAttempt r).
Proof.
  intros Hh. unfold nack. rewrite (holds_inflight _ _ _ _ Hh). destruct Hh as [Hr Hs Hc Hi Ht].
  rewrite emit_Policy. cbn. unfold nackedState. destruct ((_ <=? _) && _).
  - unfold deadLetter. eexists _, _. split; [done|]. rewrite Hi. split; [|done].
    split; [|by rewrite emit_Policy; cbn; rewrite emit_Policy].
    rewrite emit_Records. cbn. rewrite emit_Records. cbn. by rewrite insert_insert_eq.
  - eexists _, _. split; [done|]. rewrite Hi. split; [|done]. split; [by rewrite emit_Records|]. by rewrite emit_Policy.
Qed.

(** The state [requeue] leaves. *)
Definition requeuedState (p : Policy) (n : Z) : MessageState :=
  if mp_MaxAttempts p <=? n then (if mp_DLQEnabled p then StateDeadLetter else StateExpired) else StateQueued.

Lemma requeue_holds s id c r reason now o : holds s id c r ->
  exists s' r' a, requeue wall s id c reason now o = (s', Ok a) /\ rewrites s s' id r r'
  /\ mr_State r' = requeuedState (m_Policy s) (mr_DeliveryAttempt r).
Proof.
  intros [Hr Hs Hc Hi Ht].
  destruct (requeue_records wall s id c reason now o r) as [HR HP]; [by rewrite Hi | done | right; by rewrite Ht|].
  assert (exists s' a, requeue wall s id c reason now o = (s', Ok a)) as (s' & a & E).
  { unfold requeue. rewrite Hi, Hr, Hs, Ht, Hc, str_eqb_refl, andb_false_r.
    destruct (nackInFlight _ _ _ _ _ _). destruct (requeueNacked _ _ _ _ _ _ _). eauto. }
  rewrite E in HR, HP. cbn [fst] in *. rewrite Hi in HR. exists s', (requeuedRecord s
    (CanonicalizeLifecycleReason reason LifecycleReasonHandlerError) (or_now wall now) r), a.
  split; [done|]. unfold rewrites, requeuedState, requeuedRecord, requeuedNacked in *. cbn in *.
  destruct (_ <=? _); [destruct (mp_DLQEnabled _)|]; (split; [by split|done]).
Qed.

Lemma map_sum_fmap_eq {A} (f : A -> Z) (g : A -> A) (m : gmap string A) :
  (forall a, f (g a) = f a) -> map_sum f (g <$> m) = map_sum f m.
Proof.
  intros Hg. induction m as [|k a m Hk IH] using map_ind; [done|].
  rewrite fmap_insert, !map_sum_insert_fresh by (rewrite ?lookup_fmap, ?Hk; done). by rewrite Hg, IH.
Qed.

(** The sweeps of a consume make no deliveries. *)
Lemma consumeSweeps_load s now d reclaim :
  wall <> 0 -> mailbox_inv (view s) -> now <> 0 -> load (consumeSweeps wall s now d reclaim).1 = load s.
Proof.
  intros Hw Hi Hnz. unfold consumeSweeps, load.
  destruct (expireQueued_exact wall s now Hi) as [HR _].
  destruct (expireQueued_moves wall Hw s now Hnz Hi) as [Hi1 [HP _]].
  destruct (expireQueued wall s now) as [s1 m1]. cbn [fst] in *. cbn in HP.
  assert (E1 : size (m_Records s1) = size (m_Records s)
               /\ map_sum mr_DeliveryAttempt (m_Records s1) = map_sum mr_DeliveryAttempt (m_Records s)).
  { rewrite HR, map_size_fmap. split; [done|]. apply map_sum_fmap_eq. intros r. unfold afterExpiry, expiredRecord.
    repeat (case_match; try done). }
  destruct E1 as [E1 E2]. destruct reclaim; [|cbn; by rewrite HP, E1, E2].
  destruct (Z.leb_spec d 0) as [Hd|Hd].
  { unfold reclaimStaleInFlight. rewrite (proj2 (Z.leb_le d 0) Hd). cbn. by rewrite HP, E1, E2. }
  pose proof (reclaim_exact wall s1 now d Hi1 Hnz Hd) as HR2.
  destruct (reclaimStaleInFlight_moves wall Hw s1 now d Hi1) as [_ [HP2 _]].
  destruct (reclaimStaleInFlight wall s1 now d) as [s2 m2]. cbn [fst] in *. cbn in HP2.
  rewrite HP2, HP, HR2, map_size_fmap, E1. f_equal. rewrite <-E2. apply map_sum_fmap_eq.
  intros r. unfold afterReclaim, requeuedRecord, requeuedNacked. repeat (case_match; try done).
Qed.

(** A consume delivers one message to the caller, or nothing. *)
Lemma consume_result s c now d reclaim :
  wall <> 0 -> mailbox_inv (view s) -> TrimSpace c = c -> c <> "" ->
  exists s' res mutated, consume wall s c now d reclaim = (s', Ok (res, mutated))
  /\ match res with
     | None => load s' = load s
     | Some r => holds s' (ev_MessageID (mr_Envelope r)) c r /\ load s' = ((load s).1, (load s).2 + 1)
     end.
Proof.
  intros Hw Hi Ht Hne. pose proof (or_now_nonzero wall now Hw) as Hnz. unfold consume.
  rewrite Ht, (proj2 (str_eqb_neq _ _) Hne).
  pose proof (consumeSweeps_load s (or_now wall now) d reclaim Hw Hi Hnz) as HL.
  destruct (consumeSweeps_moves wall Hw s (or_now wall now) d reclaim Hnz Hi) as [Hi1 _].
  destruct (consumeSweeps wall s (or_now wall now) d reclaim) as [s1 m]. cbn [fst] in *.
  destruct (list_find _ _) as [[i e]|] eqn:Ef; [|by eexists _, _, _].
  apply consume_selects in Ef as (_ & He & (r & Hr & Hs & _) & _); [|done]. rewrite He, Hr.
  pose proof (deliver_records wall s1 i e c r (or_now wall now) d) as HR.
  assert (HP : m_Policy (deliver wall s1 i e c r (or_now wall now) d).1 = m_Policy s1)
    by (unfold deliver; cbn [fst]; by rewrite emit_Policy).
  assert (Hid : ev_MessageID (mr_Envelope r) = e) by (apply (ok_id _ _ _ (inv_records _ Hi1 _ _ Hr))).
  assert (E : (deliver wall s1 i e c r (or_now wall now) d).2 = deliveredRecord r c (or_now wall now) d) by done.
  destruct (deliver wall s1 i e c r (or_now wall now) d) as [s2 r2]. cbn [fst snd] in *. subst r2.
  eexists s2, (Some _), true. split; [done|].
  change (ev_MessageID (mr_Envelope (cloneRecord (deliveredRecord r c (or_now wall now) d))))
    with (ev_MessageID (mr_Envelope r)). rewrite Hid. split.
  - split; try done. rewrite HR. apply lookup_insert_eq.
  - rewrite <-HL. unfold load. rewrite HR, HP, map_size_insert_Some by (rewrite Hr; eauto).
    rewrite (map_sum_insert _ _ _ r) by done. cbn [fst snd]. f_equal.
    change (mr_DeliveryAttempt (deliveredRecord r c (or_now wall now) d)) with (mr_DeliveryAttempt r + 1). lia.
Qed.
End steps.

(** ** The facade *)

Section facade.
Context {order : RangeOrder} {T : Type} {MS : MailboxStore T} {AB : Abstracts T} {L : StoreLaws T}.

Definition stateOf (m : Mailbox T) : mailboxState := abs (mx_store m).

Lemma settling_state {A} e m (x : T * result MailboxError A) s r :
  me_io e = None -> agrees e x (s, r) ->
  exists m', settling e m x = (m', r) /\ stateOf m' = (drainLifecycleEvents s).1.
Proof.
  intros Hio [Ha Hr]. unfold settling. cbn [fst snd] in *.
  destruct Hr as [E|(? & ? & _)]; [|congruence]. rewrite E. eexists. split; [done|]. unfold emitLifecycle.
  set (m1 := if is_ok r then _ else _).
  assert (E1 : stateOf m1 = s) by (unfold m1, stateOf; by destruct (is_ok r)).
  destruct (law_drain (mx_store m1)) as [D _]. destruct (mb_DrainLifecycleEvents (mx_store m1)) as [t ev].
  cbn [fst] in D. unfold stateOf in *. cbn. by rewrite D, E1.
Qed.

Lemma drain_holds s id c r : holds s id c r -> holds (drainLifecycleEvents s).1 id c r.
Proof. by intros []. Qed.

(** A moment that leaves the message with its consumer. *)
Definition harmless (id c : string) (x : moment T) : Prop :=
  match x with
  | Tick e => me_io e = None /\ me_wall e <> 0
  | Others step => forall m r, mailbox_inv (view (stateOf m)) -> holds (stateOf m) id c r ->
      mailbox_inv (view (stateOf (step m))) /\ exists r', holds (stateOf (step m)) id c r'
  end.

Lemma whileHandling_holds w id during : forall m r,
  Forall (harmless id (wk_consumerID w)) during -> mailbox_inv (view (stateOf m)) ->
  holds (stateOf m) id (wk_consumerID w) r ->
  exists m' r', whileHandling w id during None m = (m', None)
  /\ mailbox_inv (view (stateOf m')) /\ holds (stateOf m') id (wk_consumerID w) r'.
Proof.
  induction during as [|x during IH]; intros m r HF Hi Hh; [by exists m, r|].
  apply Forall_cons in HF as [Hx HF]. destruct x as [e|step]; cbn [whileHandling].
  - destruct Hx as [Hio Hw]. set (d := wc_InflightTimeout (wk_config w)). unfold Heartbeat.
    pose proof (law_heartbeat e (mx_store m) id (wk_consumerID w) (me_now e) d) as HA.
    pose proof (heartbeat_moves (me_wall e) Hw (stateOf m) id (wk_consumerID w) (me_now e) d Hi) as [Hi' _].
    destruct (heartbeat_holds (me_wall e) (stateOf m) id _ r (me_now e) d Hh) as (s' & r' & E & Hh' & _).
    unfold stateOf in *. rewrite E in HA, Hi'. destruct (settling_state e m _ _ _ Hio HA) as (m' & -> & Hs').
    unfold stateOf in Hs'. apply (IH m' r' HF); rewrite Hs'; [done | by apply drain_holds].
  - destruct (Hx m r Hi Hh) as (Hi' & r' & Hh'). by apply (IH (step m) r' HF).
Qed.

(** What the settlement of a message makes of it. *)
Definition settlement (p : Policy) (w : Worker) (answer : HandlerAnswer) (attempts : Z) : MessageState :=
  match answer with
  | HandlerDone => StateAcked
  | _ => if wc_HandlerErrorPolicy (wk_config w) =s? WorkerHandlerErrorPolicyNack
         then nackedState p attempts else requeuedState p attempts
  end.

Lemma settle_settles e w m id answer r :
  me_io e = None -> holds (stateOf m) id (wk_consumerID w) r ->
  exists m' r', settle e w m id answer None = (m', None)
  /\ rewrites (stateOf m) (stateOf m') id r r'
  /\ mr_State r' = settlement (m_Policy (stateOf m)) w answer (mr_DeliveryAttempt r).
Proof.
  intros Hio Hh. unfold settle.
  assert (failed : forall reason o, exists m' a r', (if wc_HandlerErrorPolicy (wk_config w) =s? WorkerHandlerErrorPolicyNack
      then NackWithOptions e m id (wk_consumerID w) reason o
      else RequeueWithOptions e m id (wk_consumerID w) reason o) = (m', Ok a)
    /\ rewrites (stateOf m) (stateOf m') id r r'
    /\ mr_State r' = if wc_HandlerErrorPolicy (wk_config w) =s? WorkerHandlerErrorPolicyNack
         then nackedState (m_Policy (stateOf m)) (mr_DeliveryAttempt r)
         else requeuedState (m_Policy (stateOf m)) (mr_DeliveryAttempt r)).
  { intros reason o. destruct (_ =s? _); unfold NackWithOptions, RequeueWithOptions.
    - pose proof (law_nack e (mx_store m) id (wk_consumerID w) reason (me_now e) o) as HA.
      destruct (nack_holds (me_wall e) (stateOf m) id _ r reason (me_now e) o Hh) as (s' & r' & E & Hrw & Hst).
      unfold stateOf in *. rewrite E in HA. destruct (settling_state e m _ _ _ Hio HA) as (m' & -> & Hs').
      exists m', r', r'. split; [done|]. unfold stateOf in Hs'. by rewrite Hs'.
    - pose proof (law_requeue e (mx_store m) id (wk_consumerID w) reason (me_now e) o) as HA.
      destruct (requeue_holds (me_wall e) (stateOf m) id _ r reason (me_now e) o Hh) as (s' & r' & a & E & Hrw & Hst).
      unfold stateOf in *. rewrite E in HA. destruct (settling_state e m _ _ _ Hio HA) as (m' & -> & Hs').
      exists m', a, r'. split; [done|]. unfold stateOf in Hs'. by rewrite Hs'. }
  destruct answer as [|text|v]; cbn [invokeWorkerHandler option_fmap option_map fmap settlement].
  - unfold Ack. pose proof (law_ack e (mx_store m) id (wk_consumerID w) (me_now e)) as HA.
    destruct (ack_holds (me_wall e) (stateOf m) id _ r (me_now e) Hh) as (s' & r' & E & Hrw & Hst).
    unfold stateOf in *. rewrite E in HA. destruct (settling_state e m _ _ _ Hio HA) as (m' & -> & Hs').
    exists m', r'. split; [done|]. unfold stateOf in Hs'. by rewrite Hs'.
  - destruct (failed (CanonicalizeLifecycleReason text LifecycleReasonHandlerError) (mkActionOptions false false))
      as (m' & a & r' & -> & Hrw & Hst). exists m', r'. done.
  - destruct (failed LifecycleReasonHandlerError (mkActionOptions false true)) as (m' & a & r' & -> & Hrw & Hst).
    exists m', r'. done.
Qed.

(** The settlement keeps the invariant of the mailbox. *)
Lemma settle_inv e w m id answer :
  me_wall e <> 0 -> me_io e = None -> mailbox_inv (view (stateOf m)) ->
  mailbox_inv (view (stateOf (settle e w m id answer None).1)).
Proof.
  intros Hw Hio Hi.
  assert (H : forall A (x : T * result MailboxError A) y, agrees e x y -> mailbox_inv (view y.1) ->
    mailbox_inv (view (stateOf (settling e m x).1))).
  { intros A x [s' a] HA Hy. destruct (settling_state e m x s' a Hio HA) as (m' & -> & Hs'). cbn [fst].
    by rewrite Hs'. }
  unfold settle.
  assert (split_let : forall A (p : Mailbox T * result MailboxError A),
    (let '(m, r) := p in (m, match r with Ok _ => None | Err er => Some er end)).1 = p.1) by (by intros A []).
  destruct (invokeWorkerHandler answer) as [panic [text|]]; cbn [option_fmap option_map fmap];
    rewrite split_let; unfold NackWithOptions, RequeueWithOptions, Ack.
  - case_match; (eapply H; [apply law_nack || apply law_requeue|]); [by apply nack_moves | by apply requeue_moves].
  - eapply H; [apply law_ack|]. by apply ack_moves.
Qed.

(** ** Rounds *)

(** The clocks run and the writes succeed. *)
Definition calm (e : MailboxEnv) : Prop := me_io e = None /\ me_wall e <> 0.

Lemma consume_step w (r : Round T) m :
  calm (rd_begin r) -> TrimSpace (wk_consumerID w) = wk_consumerID w -> wk_consumerID w <> "" ->
  mailbox_inv (view (stateOf m)) ->
  exists m1 res, ConsumeWithLease (rd_begin r) m (wk_consumerID w) (wc_InflightTimeout (wk_config w))
                   (wc_ReclaimOnConsume (wk_config w)) = (m1, Ok res)
  /\ mailbox_inv (view (stateOf m1))
  /\ match res with
     | None => load (stateOf m1) = load (stateOf m)
     | Some rec => holds (stateOf m1) (ev_MessageID (mr_Envelope rec)) (wk_consumerID w) rec
                   /\ load (stateOf m1) = ((load (stateOf m)).1, (load (stateOf m)).2 + 1)
     end.
Proof.
  intros [Hio Hw] Ht Hne Hi. unfold ConsumeWithLease. set (e := rd_begin r) in *. set (c := wk_consumerID w) in *.
  set (d := wc_InflightTimeout _). set (b := wc_ReclaimOnConsume _).
  pose proof (law_consume e (mx_store m) c (me_now e) d b) as HA.
  destruct (consume_result (me_wall e) (stateOf m) c (me_now e) d b Hw Hi Ht Hne) as (s' & res & mut & E & Hres).
  pose proof (consume_moves (me_wall e) Hw (stateOf m) c (me_now e) d b Hi) as [Hi' _].
  unfold stateOf in *. rewrite E in HA, Hi'. cbn [delivered fst snd] in *.
  destruct (settling_state e m _ _ _ Hio HA) as (m1 & -> & Hs). exists m1, res. split; [done|].
  unfold stateOf in Hs. rewrite Hs. split; [done|]. destruct res; [|done]. destruct Hres. split; [by apply drain_holds | done].
Qed.

(** A round: nothing to do, or a message that is settled. *)
Lemma round_step w (r : Round T) m :
  calm (rd_begin r) -> calm (rd_end r) ->
  TrimSpace (wk_consumerID w) = wk_consumerID w -> wk_consumerID w <> "" -> mailbox_inv (view (stateOf m)) ->
  (forall id, Forall (harmless id (wk_consumerID w)) (rd_during r)) ->
  exists m' processed, RunOnce w r m = (m', (processed, None))
  /\ if processed then exists m1 rec rec',
         ConsumeWithLease (rd_begin r) m (wk_consumerID w) (wc_InflightTimeout (wk_config w))
           (wc_ReclaimOnConsume (wk_config w)) = (m1, Ok (Some rec))
         /\ m_Records (stateOf m') !! ev_MessageID (mr_Envelope rec) = Some rec'
         /\ mr_State rec' = settlement (m_Policy (stateOf m')) w (rd_handler r rec) (mr_DeliveryAttempt rec')
     else exists m1, ConsumeWithLease (rd_begin r) m (wk_consumerID w) (wc_InflightTimeout (wk_config w))
                       (wc_ReclaimOnConsume (wk_config w)) = (m1, Ok None) /\ m' = m1.
Proof.
  intros Hb He Ht Hne Hi Hd. destruct (consume_step w r m Hb Ht Hne Hi) as (m1 & res & E & Hi1 & Hres).
  unfold RunOnce. rewrite E. destruct res as [rec|]; [|by exists m1, false; split; [done|]; exists m1].
  destruct Hres as [Hh _]. set (id := ev_MessageID (mr_Envelope rec)) in *.
  destruct (whileHandling_holds w id (rd_during r) m1 rec (Hd id) Hi1 Hh) as (m2 & r2 & -> & Hi2 & Hh2).
  destruct (settle_settles (rd_end r) w m2 id (rd_handler r rec) r2 (proj1 He) Hh2) as (m3 & r3 & -> & (HR & HP & Ha) & Hst).
  exists m3, true. split; [done|]. exists m1, rec, r3. split; [done|].
  split; [rewrite HR; apply lookup_insert_eq|]. by rewrite Hst, HP, Ha.
Qed.

(** The ticks of a round, without other steps. *)
Definition onlyTicks (x : moment T) : Prop := match x with Tick e => calm e | Others _ => False end.

Lemma ticks_load w id during : forall m r,
  Forall onlyTicks during -> mailbox_inv (view (stateOf m)) -> holds (stateOf m) id (wk_consumerID w) r ->
  exists m' r', whileHandling w id during None m = (m', None) /\ load (stateOf m') = load (stateOf m)
  /\ mailbox_inv (view (stateOf m')) /\ holds (stateOf m') id (wk_consumerID w) r'.
Proof.
  induction during as [|x during IH]; intros m r HF Hi Hh; [by exists m, r|].
  apply Forall_cons in HF as [Hx HF]. destruct x as [e|]; [|done]. destruct Hx as [Hio Hw]. cbn [whileHandling].
  set (d := wc_InflightTimeout (wk_config w)). unfold Heartbeat.
  pose proof (law_heartbeat e (mx_store m) id (wk_consumerID w) (me_now e) d) as HA.
  pose proof (heartbeat_moves (me_wall e) Hw (stateOf m) id (wk_consumerID w) (me_now e) d Hi) as [Hi' _].
  destruct (heartbeat_holds (me_wall e) (stateOf m) id _ r (me_now e) d Hh) as (s' & r' & E & Hh' & Hrw).
  pose proof (rewrites_load _ _ _ _ _ (hd_record _ _ _ _ Hh) Hrw) as Hl.
  unfold stateOf in *. rewrite E in HA, Hi'. destruct (settling_state e m _ _ _ Hio HA) as (m' & -> & Hs').
  unfold stateOf in Hs'. destruct (IH m' r' HF) as (m2 & r2 & E2 & Hl2 & H2); [by rewrite Hs' | rewrite Hs'; by apply drain_holds|].
  exists m2, r2. split; [done|]. split; [|done]. rewrite Hl2, Hs'. exact Hl.
Qed.

(** A quiet round: nobody else acts. *)
Definition quiet (r : Round T) : Prop := calm (rd_begin r) /\ calm (rd_end r) /\ Forall onlyTicks (rd_during r).

(** A round that processed a message made one delivery. *)
Lemma quiet_round w r m :
  quiet r -> TrimSpace (wk_consumerID w) = wk_consumerID w -> wk_consumerID w <> "" -> mailbox_inv (view (stateOf m)) ->
  exists m' (processed : bool), RunOnce w r m = (m', (processed, None)) /\ mailbox_inv (view (stateOf m'))
  /\ load (stateOf m') = ((load (stateOf m)).1, (load (stateOf m)).2 + if processed then 1 else 0).
Proof.
  intros (Hb & He & Hd) Ht Hne Hi. destruct (consume_step w r m Hb Ht Hne Hi) as (m1 & res & E & Hi1 & Hres).
  unfold RunOnce. rewrite E. destruct res as [rec|].
  - destruct Hres as [Hh Hl]. set (id := ev_MessageID (mr_Envelope rec)) in *.
    destruct (ticks_load w id (rd_during r) m1 rec Hd Hi1 Hh) as (m2 & r2 & -> & Hl2 & Hi2 & Hh2).
    destruct (settle_settles (rd_end r) w m2 id (rd_handler r rec) r2 (proj1 He) Hh2) as (m3 & r3 & E3 & Hrw & _).
    pose proof (settle_inv (rd_end r) w m2 id (rd_handler r rec) (proj2 He) (proj1 He) Hi2) as Hi3.
    rewrite E3 in *. exists m3, true. split; [done|]. split; [exact Hi3|].
    rewrite (rewrites_load _ _ _ _ _ (hd_record _ _ _ _ Hh2) Hrw), Hl2, Hl. done.
  - exists m1, false. split; [done|]. split; [done|]. rewrite Hres. by destruct (load (stateOf m)); rewrite Z.add_0_r.
Qed.
End facade.

(** ** The theorems *)

Lemma NewWorker_consumer cfg c w : NewWorker cfg c = Ok w ->
  TrimSpace (wk_consumerID w) = wk_consumerID w /\ wk_consumerID w <> "".
Proof.
  unfold NewWorker. rewrite result_bind_ok. intros (n & _ & [= <-]). cbn.
  destruct (str_eqb_spec (TrimSpace c) ""); [by vm_compute|]. by rewrite TrimSpace_idemp.
Qed.

Lemma map_sum_bound {A} (f : A -> Z) (b : Z) (m : gmap string A) :
  (forall k a, m !! k = Some a -> f a <= b) -> map_sum f m <= b * Z.of_nat (size m).
Proof.
  induction m as [|k a m Hk IH] using map_ind; intros Hb; [rewrite map_sum_empty, map_size_empty; lia|].
  rewrite map_sum_insert_fresh, map_size_insert_None by done.
  pose proof (Hb k a (lookup_insert_eq _ _ _)). assert (map_sum f m <= b * Z.of_nat (size m)); [|lia].
  apply IH. intros j x Hj. apply (Hb j x). rewrite lookup_insert_ne; [done|]. by intros ->; rewrite Hk in Hj.
Qed.

(** Deliveries are bounded by the policy. *)
Lemma deliveries_bounded s : mailbox_inv (view s) ->
  0 <= (load s).2 <= mp_MaxAttempts (load s).1.1 * Z.of_nat (load s).1.2.
Proof.
  intros Hi. unfold load. cbn [fst snd]. split.
  - pose proof (map_sum_bound (fun r => - mr_DeliveryAttempt r) 0 (m_Records s)) as H.
    assert (E : map_sum (fun r => - mr_DeliveryAttempt r) (m_Records s) = - map_sum mr_DeliveryAttempt (m_Records s)).
    { generalize (m_Records s). intros R. induction R as [|k a R Hk IH] using map_ind; [done|].
      rewrite !map_sum_insert_fresh by done. lia. }
    rewrite E in H. assert (- map_sum mr_DeliveryAttempt (m_Records s) <= 0); [|lia].
    etrans; [apply H|lia]. intros k a Hk. pose proof (ok_attempts _ _ _ (inv_records _ Hi k a Hk)). lia.
  - apply map_sum_bound. intros k a Hk. pose proof (ok_attempts _ _ _ (inv_records _ Hi k a Hk)) as Ha. cbn in Ha. lia.
Qed.

Section theorems.
Context {order : RangeOrder} {T : Type} {MS : MailboxStore T} {AB : Abstracts T} {L : StoreLaws T}.

(** Each round that processed a message has made a delivery. *)
Lemma runRounds_quiet w rounds : forall (m : Mailbox T),
  Forall quiet rounds -> TrimSpace (wk_consumerID w) = wk_consumerID w -> wk_consumerID w <> "" ->
  mailbox_inv (view (stateOf m)) ->
  exists m' flags, runRounds w rounds m = (m', (flags, None)) /\ length flags = length rounds
  /\ mailbox_inv (view (stateOf m'))
  /\ load (stateOf m') = ((load (stateOf m)).1, (load (stateOf m)).2 + Z.of_nat (length (filter (fun b => b = true) flags))).
Proof.
  induction rounds as [|r rounds IH]; intros m HF Ht Hne Hi; cbn [runRounds].
  - exists m, []. split; [done|]. split; [done|]. split; [done|]. cbn [filter length]. rewrite Z.add_0_r. by destruct (load (stateOf m)).
  - apply Forall_cons in HF as [Hr HF]. destruct (quiet_round w r m Hr Ht Hne Hi) as (m1 & p & -> & Hi1 & Hl1).
    destruct (IH m1 HF Ht Hne Hi1) as (m' & flags & -> & Hlen & Hi' & Hl). exists m', (p :: flags).
    split; [done|]. split; [cbn; by rewrite Hlen|]. split; [done|]. rewrite Hl, Hl1. cbn [fst snd]. f_equal.
    rewrite filter_cons. destruct p; [rewrite decide_True by done | rewrite decide_False by done]; cbn [length]; lia.
Qed.
End theorems.

(** C26: a worker settles what it takes: with a clock that runs, writes that succeed and
    nobody taking the message away meanwhile, a round never fails; it finds nothing
    due, or the message it was handed ends acknowledged when the handler succeeded,
    and otherwise, by an error or a panic, nacked or requeued as configured, dead
    lettered or expired when its attempts are used up. *)
Theorem worker_settles_delivery {order : RangeOrder} {T : Type} {MS : MailboxStore T} {AB : Abstracts T}
    {L : StoreLaws T} (cfg : WorkerConfig) (c : string) (w : Worker) (r : Round T) (m : Mailbox T)
    (Hnew : NewWorker cfg c = Ok w) (Hreach : reachable (abs (mx_store m)))
    (Hbegin : calm (rd_begin r)) (Hend : calm (rd_end r))
    (Hduring : forall id, Forall (harmless id (wk_consumerID w)) (rd_during r)) :
  exists m' processed, RunOnce w r m = (m', (processed, None))
  /\ if processed then exists m1 rec rec',
         ConsumeWithLease (rd_begin r) m (wk_consumerID w) (wc_InflightTimeout (wk_config w))
           (wc_ReclaimOnConsume (wk_config w)) = (m1, Ok (Some rec))
         /\ m_Records (abs (mx_store m')) !! ev_MessageID (mr_Envelope rec) = Some rec'
         /\ mr_State rec' = settlement (m_Policy (abs (mx_store m'))) w (rd_handler r rec) (mr_DeliveryAttempt rec')
     else exists m1, ConsumeWithLease (rd_begin r) m (wk_consumerID w) (wc_InflightTimeout (wk_config w))
                       (wc_ReclaimOnConsume (wk_config w)) = (m1, Ok None) /\ m' = m1.
Proof.
  destruct (NewWorker_consumer _ _ _ Hnew) as [Ht Hne].
  by apply (round_step w r m Hbegin Hend Ht Hne (reachable_mailbox_inv _ Hreach)).
Qed.

(** A worker comes to rest: when nobody publishes, among any more rounds than
    the messages of the mailbox have attempts in all, one finds nothing due, so that
    the loop waits for its poll timer, whatever the handler answered: a message that
    always fails cannot keep it busy. *)
Theorem worker_comes_to_rest {order : RangeOrder} {T : Type} {MS : MailboxStore T} {AB : Abstracts T}
    {L : StoreLaws T} (cfg : WorkerConfig) (c : string) (w : Worker) (rounds : list (Round T)) (m : Mailbox T)
    (Hnew : NewWorker cfg c = Ok w) (Henabled : wc_Enabled (wk_config w) = true)
    (Hreach : reachable (abs (mx_store m))) (Hquiet : Forall quiet rounds)
    (Hmany : mp_MaxAttempts (m_Policy (abs (mx_store m))) * Z.of_nat (size (m_Records (abs (mx_store m))))
             < Z.of_nat (length rounds)) :
  exists m' flags, Run w rounds m = (m', (flags, None)) /\ length flags = length rounds /\ false ∈ flags.
Proof.
  destruct (NewWorker_consumer _ _ _ Hnew) as [Ht Hne]. pose proof (reachable_mailbox_inv _ Hreach) as Hi.
  destruct (runRounds_quiet w rounds m Hquiet Ht Hne Hi) as (m' & flags & E & Hlen & Hi' & Hl).
  exists m', flags. unfold Run. rewrite Henabled. split; [done|]. split; [done|].
  destruct (decide (false ∈ flags)) as [|Hno]; [done|]. exfalso.
  assert (Hall : filter (fun b => b = true) flags = flags).
  { apply filter_all. intros [] Hb; [done|]. by destruct Hno. }
  pose proof (deliveries_bounded _ Hi') as Hb. pose proof (deliveries_bounded _ Hi) as Hb0. rewrite Hl, Hall, Hlen in Hb.
  unfold load in Hb, Hb0. unfold stateOf in *. cbn [fst snd] in *. lia.
Qed.

(** ** Examples *)

#[local] Instance demoOrder : RangeOrder := listing_order.

Definition demoBox : Mailbox MemoryStore := mkMailbox (mkMemoryStore demo) 0 [] false 0 ∅.

Lemma demoBox_reachable : reachable (abs (mx_store demoBox)).
Proof.
  unfold demoBox, abs, MemoryStore_Abstracts. cbn [mx_store mm_state]. apply demoMailbox_reachable.
Qed.

Definition demoConfig (policy : string) : WorkerConfig := mkWorkerConfig true 0 policy 0 0 false "".

Definition demoWorker (policy : string) (c : string) : Worker :=
  mkWorker (mkWorkerConfig true DefaultWorkerPollInterval policy DefaultWorkerInflightTimeout
              DefaultWorkerHeartbeatInterval true WorkerPanicPolicyFollowHandler) c.

(** A round that begins at [now], with one tick, whose handler answers [a]. *)
Definition demoRound (now : Time) (a : HandlerAnswer) : Round MemoryStore :=
  mkRound (demoMailboxEnv now) [Tick (demoMailboxEnv (now + 5 * Second))] (demoMailboxEnv (now + 6 * Second)) (fun _ => a).

Lemma demo_calm n : t0 + n * Second <> 0 -> calm (demoMailboxEnv (t0 + n * Second)).
Proof. intros H. split; [reflexivity | exact H]. Qed.

Lemma demo_workers policy : policy = "nack" \/ policy = "requeue" ->
  NewWorker (demoConfig policy) "w5" = Ok (demoWorker policy "w5").
Proof. intros [-> | ->]; vm_compute; reflexivity. Qed.

Lemma worker_settles_delivery_witness :
  exists m' processed, RunOnce (demoWorker "nack" "w5") (demoRound (t0 + 2 * Second) (HandlerFailed "boom")) demoBox
    = (m', (processed, None)).
Proof.
  destruct (worker_settles_delivery (demoConfig "nack") "w5" (demoWorker "nack" "w5")
    (demoRound (t0 + 2 * Second) (HandlerFailed "boom")) demoBox (demo_workers "nack" (or_introl eq_refl))
    demoBox_reachable) as (m' & p & H & _).
  - apply (demo_calm 2). vm_compute. discriminate.
  - split; [reflexivity | vm_compute; discriminate].
  - intros id. constructor; [|constructor]. split; [reflexivity | vm_compute; discriminate].
  - exact (ex_intro _ m' (ex_intro _ p H)).
Defined.

Lemma worker_comes_to_rest_witness :
  exists m' flags,
    Run (demoWorker "requeue" "w5")
      (replicate 10 (demoRound (t0 + 60 * Second) (HandlerPanicked "nil map"))) demoBox = (m', (flags, None))
    /\ false ∈ flags.
Proof.
  destruct (worker_comes_to_rest (demoConfig "requeue") "w5" (demoWorker "requeue" "w5")
    (replicate 10 (demoRound (t0 + 60 * Second) (HandlerPanicked "nil map"))) demoBox
    (demo_workers "requeue" (or_intror eq_refl)) eq_refl demoBox_reachable) as (m' & flags & H & _ & Hin).
  - apply Forall_replicate. split; [|split; [|constructor; [|constructor]]];
      (split; [reflexivity | vm_compute; discriminate]).
  - vm_compute. reflexivity.
  - exact (ex_intro _ m' (ex_intro _ flags (conj H Hin))).
Defined.

(** The lease of a worker without heartbeats runs out and the consume of another worker
    puts the message back into the queue; the acknowledgement is then refused, and the
    refusal ends the loop of the first worker. *)
Definition slowRound : Round MemoryStore :=
  mkRound (demoMailboxEnv (t0 + 2 * Second))
    [Others (fun m => (ConsumeWithLease (demoMailboxEnv (t0 + 60 * Second)) m "w6" (30 * Second) true).1)]
    (demoMailboxEnv (t0 + 61 * Second)) (fun _ => HandlerDone).

Example lost_lease_ends_worker :
  let box := (Publish (demoMailboxEnv (t0 + Second)) (New (NewMemoryStore "SRC" demoPolicy) 0) (demoEnvelope "m1")).1 in
  let box := (Publish (demoMailboxEnv (t0 + Second)) box (demoEnvelope "m2")).1 in
  let result := Run (demoWorker "requeue" "w5") [slowRound; demoRound (t0 + 70 * Second) HandlerDone] box in
  result.2 = ([true], Some ErrMessageNotInflight).
Proof. vm_compute. reflexivity. Qed.
