(* ===== verification/MailboxContinuationProps.v ===== *)
(** * Mailbox: continuations, the properties

    Proved against the interface of the stores. Every continuation follows a protocol,
    saved, claimed by one request, running, finished with one result, whatever the
    callers of the mailbox do; so a resume is granted once, and its result is the answer
    to every repetition of the request. The two stores answer all calls of a mailbox
    alike. *)
From S2P Require Import Prelude GoStrings GoNum Paging MailboxTypes MailboxState MailboxSnapshot.
From S2P Require Import MailboxInv MailboxJournal MailboxRoundTrip MailboxProps MailboxStore MailboxFacade.
From S2P Require Import MailboxStoreProps MailboxFacadeProps MailboxWorker MailboxWorkerProps.
From S2P Require Import MailboxContinuation MailboxHandlerResume.

Local Open Scope bool_scope.
Local Open Scope string_scope.
Local Open Scope list_scope.
Local Open Scope Z_scope.

(** ** What the stores promise *)

(** A mutation of the state [s]: the closure ran on a clone, and its state took the
    place of [s] unless it failed or could not be written. *)
Definition mutated {T A} {order : RangeOrder} `{Abstracts T} (e : MailboxEnv) (s : mailboxState) (zero : A)
    (fn : mailboxState -> A * result MailboxError mailboxState) (x : T * A * result MailboxError unit) : Prop :=
  let '(t, a, r) := x in
  match cloneMailboxState (me_rand e) s with
  | Err er => abs t = s /\ a = zero /\ r = Err er
  | Ok s1 =>
      match fn s1 with
      | (v, Err er) => abs t = s /\ a = v /\ r = Err er
      | (v, Ok s2) => a = v /\ ((abs t = s2 /\ r = Ok tt)
                                \/ (abs t = s /\ exists why, me_io e = Some why /\ r = Err (ErrFileBackend why)))
      end
  end.

Class ContinuationLaws (T : Type) {order : RangeOrder} `{ContinuationStore T, Abstracts T} : Prop :=
  law_mutate : forall A e (t : T) (zero : A) fn, mutated e (abs t) zero fn (ct_Mutate e t zero fn).

#[export] Instance MemoryStore_continuation_laws {order : RangeOrder} : ContinuationLaws MemoryStore.
Proof.
  intros A e [s] zero fn. unfold mutated, ct_Mutate, MemoryStore_ContinuationStore, captured, continuationMutate, abs.
  cbn. destruct (cloneMailboxState _ _) as [s1|er]; cbn; [|done]. destruct (fn s1) as [v [s2|er]]; cbn; [|done].
  split; [done|]. by left.
Qed.

#[export] Instance FileStore_continuation_laws {order : RangeOrder} {codec : SnapshotCodec} : ContinuationLaws FileStore.
Proof.
  intros A e fs zero fn. unfold mutated, ct_Mutate, FileStore_ContinuationStore, captured, continuationMutateFile,
    continuationMutate, abs, FileStore_Abstracts.
  destruct (cloneMailboxState _ _) as [s1|er]; cbn; [|done]. destruct (fn s1) as [v [s2|er]]; cbn; [|done].
  destruct (maybePersist_writes e true (fs <| mf_state := s2 |>)) as [Hs Hr].
  destruct (maybePersistLocked e true _) as [fs' [[]|er]]; cbn in *; (split; [done|]); [by left|].
  right. split; [done|]. destruct Hr as [|(why & Hw & [= ->])]; [done|]. eauto.
Qed.

(** The clone has the continuations of the state. *)
Lemma clone_continuations {order : RangeOrder} sid s s1 :
  cloneMailboxState sid s = Ok s1 -> m_Continuations s1 = m_Continuations s.
Proof.
  unfold cloneMailboxState, restore, normalizeSnapshot. intros (n & Hn & H)%result_bind_ok.
  apply result_bind_ok in Hn as (records & _ & Hn). apply result_bind_ok in Hn as (queue & _ & Hn).
  destruct (queueRefersQueued _ _); [|done]. apply result_bind_ok in Hn as (ix & _ & [= <-]).
  apply result_bind_ok in H as (h & _ & [= <-]). done.
Qed.

(** ** The protocol *)

Inductive resumePhase : Type :=
| Absent
| Saved (c : MailboxContinuation)
| Claimed (c : MailboxContinuation) (who state : string)
| Finished (c : MailboxContinuation) (who : string) (res : HostPlanOutcome).

Inductive protocol_step : resumePhase -> resumePhase -> Prop :=
| step_save c : protocol_step Absent (Saved c)
| step_claim c who : protocol_step (Saved c) (Claimed c who "claimed")
| step_run c who : protocol_step (Claimed c who "claimed") (Claimed c who "running")
| step_finish c who state res :
    state = "claimed" \/ state = "running" -> protocol_step (Claimed c who state) (Finished c who res).

Definition phaseOf (r : option MailboxContinuationRecord) : resumePhase :=
  match r with
  | None => Absent
  | Some r =>
      match cr_Claim r with
      | None => Saved (cr_Continuation r)
      | Some held =>
          match rc_Result held with
          | None => Claimed (cr_Continuation r) (cr_Identity r) (rc_State held)
          | Some res => Finished (cr_Continuation r) (cr_Identity r) res
          end
      end
  end.

(** The phase of a checkpoint. *)
Definition phaseIn (s : mailboxState) (id : string) : resumePhase := phaseOf (m_Continuations s !! id).

(** Who resumed, once somebody did. *)
Definition resumedBy (p : resumePhase) : option string :=
  match p with Claimed _ who _ | Finished _ who _ => Some who | _ => None end.

Lemma protocol_resumedBy p q who : rtc protocol_step p q -> resumedBy p = Some who -> resumedBy q = Some who.
Proof. intros H. induction H as [|p q t Hpq _ IH]; [done|]. intros Hw. apply IH. by destruct Hpq. Qed.

Lemma protocol_finished c who res q : rtc protocol_step (Finished c who res) q -> q = Finished c who res.
Proof. intros H. inversion H as [|? p ? Hp]; [done | inversion Hp]. Qed.

(** A write that moves one checkpoint by one step. *)
Lemma write_moves (K : gmap string MailboxContinuationRecord) id r id' :
  rtc protocol_step (phaseOf (K !! id)) (phaseOf (Some r)) ->
  rtc protocol_step (phaseOf (K !! id')) (phaseOf (<[id := r]> K !! id')).
Proof.
  intros H. destruct (decide (id' = id)) as [->|Hne]; [by rewrite lookup_insert_eq | by rewrite lookup_insert_ne].
Qed.

Section closures.
Context {codec : ContinuationCodec}.

Lemma saveContinuation_moves clock c s s' id :
  saveContinuation clock c s = Ok s' -> rtc protocol_step (phaseIn s id) (phaseIn s' id).
Proof.
  unfold saveContinuation. destruct (m_Continuations s !! cf_CheckpointID (cn_Ref c)) as [old|] eqn:Hold.
  { case_match; [|done]. by intros [= <-]. }
  destruct (snapshotRecord _ _) as [cur|]; [|done]. rewrite !require_ok. intros (_ & _ & _ & [= <-]).
  unfold phaseIn. assert (E : forall st f, m_Continuations (st <| m_Continuations ::= f |>) = f (m_Continuations st)) by done.
  rewrite E.
  assert (E2 : m_Continuations (if negb (cn_HandlerCheckpointReference c =s? "")
    then s <| m_Records ::= alter (extendLease clock c) (cn_MessageID c) |> else s) = m_Continuations s) by (by case_match).
  rewrite E2. apply write_moves. rewrite Hold. apply rtc_once. constructor.
Qed.

(** A claim is granted on a saved continuation, or repeats a finished one. *)
Lemma claimResume_Ok clock req s claim s' :
  claimResume clock req s = (claim, Ok s') ->
  let id := cf_CheckpointID (rr_Ref req) in
  (exists c, phaseIn s id = Saved c /\ phaseIn s' id = Claimed c (requestIdentity req) "claimed"
     /\ claim = Some (newClaim req c)
     /\ exists r, s' = s <| m_Continuations ::= <[id := r]> |>)
  \/ (exists c held res, phaseIn s id = Finished c (requestIdentity req) res /\ s' = s
     /\ claim = Some (held <| rc_Duplicate := true |>) /\ rc_Result held = Some res).
Proof.
  unfold claimResume, phaseIn. cbn zeta. destruct (m_Continuations s !! _) as [r|] eqn:Hr; [|done].
  destruct (_ || _ || _ || _); [done|]. destruct (scopeRefuses _ _); [done|]. unfold finishedClaim, phaseOf.
  destruct (cr_Claim r) as [held|] eqn:Hc.
  - destruct (rc_Result held) as [res|] eqn:Hres.
    + rewrite bool_decide_true by eauto. destruct (str_eqb_spec (cr_Identity r) (requestIdentity req)) as [Ei|]; [|done].
      intros [= <- <-]. right. exists (cr_Continuation r), held, res. by rewrite Ei.
    + rewrite bool_decide_false by (by intros []). do 2 (case_match; [done|]). destruct (snapshotRecord _ _); [|done].
      by repeat (case_match; [done|]).
  - do 2 (case_match; [done|]). destruct (snapshotRecord _ _) as [cur|]; [|done]. case_match; [done|].
    intros [= <- <-]. left. exists (cr_Continuation r). split; [done|]. split; [|eauto].
    cbn. by rewrite lookup_insert_eq.
Qed.

Lemma claimResume_moves clock req s claim s' id :
  claimResume clock req s = (claim, Ok s') -> rtc protocol_step (phaseIn s id) (phaseIn s' id).
Proof.
  intros [(c & H1 & H2 & _ & r & ->)|(_ & _ & _ & _ & -> & _)]%claimResume_Ok; [|done].
  unfold phaseIn in *. cbn in *. apply write_moves. rewrite lookup_insert_eq in H2. rewrite H1, H2.
  apply rtc_once. constructor.
Qed.

(** What a mutation of a held claim may do to its phase. *)
Definition advances (mutate : bool -> MailboxResumeClaim -> result MailboxError MailboxResumeClaim) : Prop :=
  forall b held held' c who, mutate b held = Ok held' ->
    rtc protocol_step (phaseOf (Some (mkMailboxContinuationRecord c (Some held) who b)))
      (phaseOf (Some (mkMailboxContinuationRecord c (Some held') who b))).

Lemma updateClaim_moves claim mutate s v s' id :
  advances mutate -> updateClaim claim mutate s = (v, Ok s') -> rtc protocol_step (phaseIn s id) (phaseIn s' id).
Proof.
  intros Ha. unfold updateClaim. cbn zeta. destruct (m_Continuations s !! _) as [r|] eqn:Hr; [|done].
  destruct (cr_Claim r) as [held|] eqn:Hc; [|done]. case_match; [done|].
  destruct (mutate _ held) as [held'|] eqn:Hm; [|done]. intros [= <- <-]. unfold phaseIn. cbn.
  apply write_moves. rewrite Hr. destruct r as [c cl who b]. cbn in *. subst cl. by apply (Ha b held held' c who).
Qed.

Lemma markRunning_advances : advances markRunning.
Proof.
  intros b held held' c who. unfold markRunning. rewrite require_ok. intros [_ H]. destruct (str_eqb_spec (rc_State held) "running").
  { by injection H as <-. }
  rewrite require_ok in H. destruct H as [E%str_eqb_eq [= <-]]. cbn. destruct (rc_Result held); [done|]. rewrite E.
  apply rtc_once. constructor.
Qed.

Lemma commitResult_advances res : advances (commitResult res).
Proof.
  intros b held held' c who. unfold commitResult. cbn. destruct (rc_Result held) as [saved|] eqn:Hres.
  - rewrite require_ok. intros [_ [= <-]]. by rewrite Hres.
  - rewrite !require_ok. intros (_ & Hst & [= <-]). cbn. apply rtc_once. constructor.
    apply orb_true_iff in Hst as [H%str_eqb_eq|H%str_eqb_eq]; auto.
Qed.
End closures.

(** ** Calls *)

(** What the callers of a mailbox do, [Restore] apart. *)
Inductive ccall : Type :=
| OnMessage (c : fcall)
| OnSave (clock : nat -> Time) (c : MailboxContinuation)
| OnClaim (clock : nat -> Time) (req : MailboxResumeRequest)
| OnRunning (claim : MailboxResumeClaim)
| OnCommit (claim : MailboxResumeClaim) (res : HostPlanOutcome).

Section calls.
Context {order : RangeOrder} {codec : ContinuationCodec} {qcodec : QueryCodec}.
Context {T : Type} {MS : MailboxStore T} {CS : ContinuationStore T} {AB : Abstracts T}.
Context {L : StoreLaws T} {CL : ContinuationLaws T}.

Definition continuationCall (e : MailboxEnv) (m : Mailbox T) (c : ccall) : Mailbox T :=
  match c with
  | OnMessage c => (facadeStep e m c).1
  | OnSave clock c => (SaveHostPlanContinuation e clock m c).1
  | OnClaim clock req => (ClaimHostPlanResume e clock m req).1.1
  | OnRunning claim => (MarkHostPlanResumeRunning e m claim).1.1
  | OnCommit claim res => (CommitHostPlanResumeResult e m claim res).1.1
  end.

Definition continuationCalls (m : Mailbox T) (calls : list (MailboxEnv * ccall)) : Mailbox T :=
  foldl (fun m c => continuationCall c.1 m c.2) m calls.

(** The operations on messages leave the continuations. *)
Lemma settling_continuations {A} e m (x : T * result MailboxError A) y :
  agrees e x y -> m_Continuations y.1 = m_Continuations (stateOf m) ->
  m_Continuations (stateOf (settling e m x).1) = m_Continuations (stateOf m).
Proof.
  intros [Ha _] Hy. rewrite <-Hy, <-Ha. unfold settling, emitLifecycle. cbn [fst].
  set (m1 := if is_ok x.2 then _ else _). assert (E : mx_store m1 = x.1) by (unfold m1; by destruct (is_ok x.2)).
  destruct (law_drain (mx_store m1)) as [D _]. destruct (mb_DrainLifecycleEvents (mx_store m1)) as [t ev].
  unfold stateOf. cbn in *. by rewrite D, E.
Qed.

Lemma facadeStep_continuations e m c :
  m_Continuations (stateOf (facadeStep e m c).1) = m_Continuations (stateOf m).
Proof.
  assert (settle_case : forall (A : Type) (x : T * result MailboxError A) y (f : result MailboxError A -> fanswer),
    agrees e x y -> grows (stateOf m) y.1 ->
    m_Continuations (stateOf (let '(m, r) := settling e m x in (m, f r)).1) = m_Continuations (stateOf m)).
  { intros A x y f Hx [_ Hy]. pose proof (settling_continuations e m x y Hx Hy). by destruct (settling e m x). }
  destruct c; cbn [facadeStep].
  - unfold Publish. pose proof (law_publish e (mx_store m) env (me_now e)) as [Ha _].
    destruct (publish_grows (me_wall e) (stateOf m) env (me_now e)) as [_ Hg].
    destruct (mb_Publish e (mx_store m) env _) as [t r]. unfold stateOf in *. cbn [fst] in *.
    transitivity (m_Continuations (abs t)); [by destruct (is_ok r) | by rewrite Ha].
  - eapply (settle_case _ _ _ ADelivered); [apply law_consume | apply consume_grows].
  - eapply (settle_case _ _ _ ARecord); [apply law_heartbeat | apply heartbeat_grows].
  - eapply (settle_case _ _ _ ARecord); [apply law_ack | apply ack_grows].
  - eapply (settle_case _ _ _ ARecord); [apply law_nack | apply nack_grows].
  - eapply (settle_case _ _ _ ARecord); [apply law_requeue | apply requeue_grows].
  - assert (E : mx_store (Query m req).1 = mx_store m).
    { unfold Query, writeQueryCache. repeat (case_match; try done). }
    unfold stateOf. destruct (Query m req). cbn in *. by rewrite E.
Qed.

(** A mutation moves every checkpoint along the protocol when its closure does. *)
Lemma mutate_moves {A} e (t : T) (zero : A) fn id :
  (forall s v s', fn s = (v, Ok s') -> rtc protocol_step (phaseIn s id) (phaseIn s' id)) ->
  rtc protocol_step (phaseIn (abs t) id) (phaseIn (abs (ct_Mutate e t zero fn).1.1) id).
Proof.
  intros Hfn. pose proof (law_mutate A e t zero fn) as Hm. destruct (ct_Mutate e t zero fn) as [[t' a] r]. cbn [fst].
  unfold mutated in Hm. destruct (cloneMailboxState _ _) as [s1|er] eqn:Hc; [|by destruct Hm as [-> _]].
  apply clone_continuations in Hc. destruct (fn s1) as [v [s2|er]] eqn:Hf; [|by destruct Hm as [-> _]].
  destruct Hm as [_ [[-> _]|[-> _]]]; [|done]. apply Hfn in Hf. unfold phaseIn in *. by rewrite <-Hc.
Qed.

Lemma updateClaim_call_moves e m claim mutate id :
  advances mutate ->
  rtc protocol_step (phaseIn (stateOf m) id) (phaseIn (stateOf (mutateHostPlanClaim e m claim mutate).1.1) id).
Proof.
  intros Ha. unfold mutateHostPlanClaim.
  pose proof (mutate_moves e (mx_store m) None (updateClaim claim mutate) id) as H.
  destruct (ct_Mutate e (mx_store m) None _) as [[t v0] r]. apply H. intros s v s'. by apply updateClaim_moves.
Qed.

Lemma continuationCall_moves e m c id :
  rtc protocol_step (phaseIn (stateOf m) id) (phaseIn (stateOf (continuationCall e m c)) id).
Proof.
  destruct c as [c|clock c|clock req|claim|claim res]; cbn [continuationCall].
  - unfold phaseIn. by rewrite facadeStep_continuations.
  - unfold SaveHostPlanContinuation. destruct (validateContinuation c); [|done].
    pose proof (mutate_moves e (mx_store m) tt (fun s => (tt, saveContinuation clock c s)) id) as H.
    destruct (ct_Mutate e (mx_store m) tt _) as [[t v0] r]. apply H.
    intros s v s' [= _ Hs]. by apply (saveContinuation_moves clock c).
  - unfold ClaimHostPlanResume. destruct (validateResumeRequest req); [|done]. destruct (scopeRefuses _ _); [done|].
    pose proof (mutate_moves e (mx_store m) None (claimResume clock req) id) as H.
    destruct (ct_Mutate e (mx_store m) None _) as [[t v0] r]. apply H. intros s v s'. by apply claimResume_moves.
  - by apply updateClaim_call_moves, markRunning_advances.
  - by apply updateClaim_call_moves, commitResult_advances.
Qed.

Lemma continuationCalls_moves calls : forall m id,
  rtc protocol_step (phaseIn (stateOf m) id) (phaseIn (stateOf (continuationCalls m calls)) id).
Proof.
  induction calls as [|[e c] calls IH]; intros m id; [done|].
  etrans; [apply (continuationCall_moves e m c) | apply IH].
Qed.

(** ** Claims *)

(** The answer of a claim, by the phase it found. *)
Lemma ClaimHostPlanResume_Ok e clock m req m' claim :
  ClaimHostPlanResume e clock m req = (m', claim, Ok tt) ->
  let id := cf_CheckpointID (rr_Ref req) in
  (exists c, phaseIn (stateOf m) id = Saved c /\ phaseIn (stateOf m') id = Claimed c (requestIdentity req) "claimed"
     /\ claim = Some (newClaim req c))
  \/ (exists c held res, phaseIn (stateOf m) id = Finished c (requestIdentity req) res
     /\ claim = Some (held <| rc_Duplicate := true |>) /\ rc_Result held = Some res).
Proof.
  unfold ClaimHostPlanResume. destruct (validateResumeRequest req); [|done]. destruct (scopeRefuses _ _); [done|].
  pose proof (law_mutate _ e (mx_store m) None (claimResume clock req)) as Hm.
  destruct (ct_Mutate e (mx_store m) None _) as [[t v0] r]. intros [= <- <- ->]. unfold mutated in Hm.
  destruct (cloneMailboxState _ _) as [s1|er] eqn:Hc; [|by destruct Hm as (_ & _ & [=])].
  apply clone_continuations in Hc. destruct (claimResume clock req s1) as [v [s2|er]] eqn:Hf; [|by destruct Hm as (_ & _ & [=])].
  destruct Hm as [-> [[Hs _]|[_ (? & _ & [=])]]]. cbn zeta. unfold stateOf. cbn [mx_store]. change (mx_store (m <| mx_store := t |>)) with t.
  apply claimResume_Ok in Hf as [(c & H1 & H2 & -> & _)|(c & held & res & H1 & _ & -> & H2)].
  - left. exists c. unfold phaseIn in *. rewrite Hc in H1. rewrite Hs. done.
  - right. exists c, held, res. unfold phaseIn in *. by rewrite Hc in H1.
Qed.
End calls.

(** C21: a resume is granted once. After a request was granted the claim on a checkpoint,
    and whatever the callers of the mailbox did since, a claim on that checkpoint that
    succeeds is a repetition of the same request, marked as a duplicate, and carries
    the result that was committed; each later one carries the same result. *)
Theorem resume_granted_once {order : RangeOrder} {codec : ContinuationCodec} {qcodec : QueryCodec}
    {T : Type} {MS : MailboxStore T} {CS : ContinuationStore T} {AB : Abstracts T}
    {L : StoreLaws T} {CL : ContinuationLaws T}
    (m m1 m2 m3 : Mailbox T) (e1 e2 e3 : MailboxEnv) (clock1 clock2 clock3 : nat -> Time)
    (req1 req2 req3 : MailboxResumeRequest) (claim1 claim2 claim3 : MailboxResumeClaim)
    (calls2 calls3 : list (MailboxEnv * ccall))
    (Hgrant : ClaimHostPlanResume e1 clock1 m req1 = (m1, Some claim1, Ok tt)) (Hfresh : rc_Duplicate claim1 = false)
    (H2 : ClaimHostPlanResume e2 clock2 (continuationCalls m1 calls2) req2 = (m2, Some claim2, Ok tt))
    (H3 : ClaimHostPlanResume e3 clock3 (continuationCalls m2 calls3) req3 = (m3, Some claim3, Ok tt))
    (Hid2 : cf_CheckpointID (rr_Ref req2) = cf_CheckpointID (rr_Ref req1))
    (Hid3 : cf_CheckpointID (rr_Ref req3) = cf_CheckpointID (rr_Ref req1)) :
  rc_Duplicate claim2 = true /\ requestIdentity req2 = requestIdentity req1
  /\ exists res, rc_Result claim2 = Some res
     /\ rc_Duplicate claim3 = true /\ requestIdentity req3 = requestIdentity req1 /\ rc_Result claim3 = Some res.
Proof.
  destruct (ClaimHostPlanResume_Ok _ _ _ _ _ _ Hgrant) as [(c & _ & Hp1 & _)|(c & held & res & _ & [= ->] & _)]; [|done].
  set (id := cf_CheckpointID (rr_Ref req1)) in *.
  pose proof (continuationCalls_moves calls2 m1 id) as Hmv2.
  assert (Hw2 : resumedBy (phaseIn (stateOf (continuationCalls m1 calls2)) id) = Some (requestIdentity req1))
    by (apply (protocol_resumedBy _ _ _ Hmv2); by rewrite Hp1).
  destruct (ClaimHostPlanResume_Ok _ _ _ _ _ _ H2) as [(c2 & Hp2 & _)|(c2 & held2 & res & Hp2 & [= ->] & Hr2)];
    rewrite Hid2 in Hp2; rewrite Hp2 in Hw2; [done|]. injection Hw2 as Ei. cbn.
  assert (Hp2' : phaseIn (stateOf m2) id = Finished c2 (requestIdentity req2) res).
  { apply protocol_finished. rewrite <-Hp2. pose proof (continuationCall_moves e2 (continuationCalls m1 calls2) (OnClaim clock2 req2) id) as Hs.
    cbn [continuationCall] in Hs. by rewrite H2 in Hs. }
  split; [done|]. split; [done|]. exists res. split; [done|].
  pose proof (continuationCalls_moves calls3 m2 id) as Hmv3. rewrite Hp2' in Hmv3. apply protocol_finished in Hmv3.
  destruct (ClaimHostPlanResume_Ok _ _ _ _ _ _ H3) as [(c3 & Hp3 & _)|(c3 & held3 & res3 & Hp3 & [= ->] & Hr3)];
    rewrite Hid3 in Hp3; rewrite Hp3 in Hmv3; [done|]. injection Hmv3 as -> Ei3 ->. cbn. split_and!; congruence.
Qed.

(** ** Two stores *)

(** Every call of a mailbox that reads or writes its store, the journal of history apart: it tells how durable a store is. *)
Inductive mcall : Type :=
| ToMessages (c : fcall)
| ToSave (clock : nat -> Time) (c : MailboxContinuation)
| ToLoad (now : Time) (ref : MailboxContinuationRef)
| ToClaim (clock : nat -> Time) (req : MailboxResumeRequest)
| ToRunning (claim : MailboxResumeClaim)
| ToCommit (claim : MailboxResumeClaim) (res : HostPlanOutcome)
| ToStats
| ToSnapshot
| ToRestore (sn : Snapshot).

Inductive manswer : Type :=
| OfMessages (a : fanswer)
| OfContinuation (c : option MailboxResumeClaim) (r : result MailboxError unit)
| OfLoad (r : result MailboxError MailboxContinuation)
| OfStats (st : Stats)
| OfSnapshot (sn : Snapshot)
| OfRestore (r : result MailboxError unit).

(** The answer without the name of the backend. *)
Definition namelessAnswer (a : manswer) : manswer :=
  match a with
  | OfStats st => OfStats (namelessStats st)
  | OfSnapshot sn => OfSnapshot (namelessSnapshot sn)
  | a => a
  end.

Section mailbox_calls.
Context {order : RangeOrder} {codec : ContinuationCodec} {qcodec : QueryCodec}.

Definition mailboxStep {T} `{MailboxStore T, ContinuationStore T} (e : MailboxEnv) (m : Mailbox T) (c : mcall)
    : Mailbox T * manswer :=
  match c with
  | ToMessages c => let '(m, a) := facadeStep e m c in (m, OfMessages a)
  | ToSave clock c => let '(m, r) := SaveHostPlanContinuation e clock m c in (m, OfContinuation None r)
  | ToLoad now ref => (m, OfLoad (LoadHostPlanContinuation now m ref))
  | ToClaim clock req => let '(m, claim, r) := ClaimHostPlanResume e clock m req in (m, OfContinuation claim r)
  | ToRunning claim => let '(m, updated, r) := MarkHostPlanResumeRunning e m claim in (m, OfContinuation updated r)
  | ToCommit claim res => let '(m, updated, r) := CommitHostPlanResumeResult e m claim res in (m, OfContinuation updated r)
  | ToStats => (m, OfStats (FacadeStats m))
  | ToSnapshot => (m, OfSnapshot (FacadeSnapshot m))
  | ToRestore sn => let '(m, r) := Restore e m sn in (m, OfRestore r)
  end.

Fixpoint mailboxRun {T} `{MailboxStore T, ContinuationStore T} (m : Mailbox T) (calls : list (MailboxEnv * mcall))
    : Mailbox T * list manswer :=
  match calls with
  | [] => (m, [])
  | (e, c) :: calls =>
      let '(m, a) := mailboxStep e m c in
      let '(m, l) := mailboxRun m calls in (m, a :: l)
  end.

(** A closure that does not read the name of the backend. *)
Definition blindClosure {A} (fn : mailboxState -> A * result MailboxError mailboxState) : Prop :=
  forall s, fn (nameless s) = ((fn s).1, namelessResult (fn s).2).

Lemma save_blind clock c : blindClosure (fun s => (tt, saveContinuation clock c s)).
Proof.
  intros s. unfold saveContinuation. change (m_Continuations (nameless s)) with (m_Continuations s).
  change (snapshotRecord (snapshot (nameless s)) (cn_MessageID c)) with (snapshotRecord (snapshot s) (cn_MessageID c)).
  destruct (m_Continuations s !! _); [by case_match|]. destruct (snapshotRecord _ _); [|done].
  destruct (_ && negb (_ && _)); [|done]. destruct (negb (isRecordExpired _ _)); [|done].
  destruct (_ && After _ _); [|done]. cbn. by case_match.
Qed.

Lemma claim_blind clock req : blindClosure (claimResume clock req).
Proof.
  intros s. unfold claimResume. change (m_Continuations (nameless s)) with (m_Continuations s).
  change (snapshot (nameless s)) with (namelessSnapshot (snapshot s)).
  change (snapshotRecord (namelessSnapshot (snapshot s))) with (snapshotRecord (snapshot s)).
  destruct (m_Continuations s !! _) as [r|]; [|done]. destruct (_ || _ || _ || _); [done|]. destruct (scopeRefuses _ _); [done|].
  destruct (finishedClaim r); [by case_match|]. do 2 (case_match; [done|]). destruct (snapshotRecord _ _); [|done].
  case_match; [done|]. destruct (cr_Claim r); [by case_match | done].
Qed.

Lemma update_blind claim mutate : blindClosure (updateClaim claim mutate).
Proof.
  intros s. unfold updateClaim. change (m_Continuations (nameless s)) with (m_Continuations s).
  destruct (m_Continuations s !! _) as [r|]; [|done]. destruct (cr_Claim r); [|done]. case_match; [done|].
  by destruct (mutate _ _).
Qed.

Section two_stores.
Context {T1 T2 : Type} {MS1 : MailboxStore T1} {CS1 : ContinuationStore T1} {AB1 : Abstracts T1}.
Context {L1 : StoreLaws T1} {CL1 : ContinuationLaws T1}.
Context {MS2 : MailboxStore T2} {CS2 : ContinuationStore T2} {AB2 : Abstracts T2}.
Context {L2 : StoreLaws T2} {CL2 : ContinuationLaws T2}.

Lemma mutate_alike {A} e (t1 : T1) (t2 : T2) (zero : A) fn :
  me_io e = None -> nameless (abs t1) = nameless (abs t2) -> blindClosure fn ->
  let x1 := ct_Mutate e t1 zero fn in
  let x2 := ct_Mutate e t2 zero fn in
  x1.1.2 = x2.1.2 /\ x1.2 = x2.2 /\ nameless (abs x1.1.1) = nameless (abs x2.1.1).
Proof.
  intros Hio Hs Hb. pose proof (law_mutate A e t1 zero fn) as M1. pose proof (law_mutate A e t2 zero fn) as M2. cbn zeta.
  destruct (ct_Mutate e t1 zero fn) as [[u1 a1] r1], (ct_Mutate e t2 zero fn) as [[u2 a2] r2]. unfold mutated in M1, M2. cbn [fst snd].
  pose proof (clone_nameless (me_rand e) (abs t1)) as E. rewrite Hs, <-clone_nameless in E.
  destruct (cloneMailboxState _ (abs t1)) as [c1|], (cloneMailboxState _ (abs t2)) as [c2|]; cbn [namelessResult] in E; try done.
  2:{ destruct M1 as (-> & -> & ->), M2 as (-> & -> & ->). split_and!; [done | congruence | done]. }
  assert (Ec : nameless c1 = nameless c2) by congruence. pose proof (Hb c1) as F1. pose proof (Hb c2) as F2. rewrite Ec, F2 in F1.
  destruct (fn c1) as [v1 [s1|e1]], (fn c2) as [v2 [s2|e2]]; cbn [fst snd namelessResult] in F1; try done.
  - destruct M1 as [-> [[-> ->]|[_ (? & ? & _)]]]; [|congruence]. destruct M2 as [-> [[-> ->]|[_ (? & ? & _)]]]; [|congruence].
    split_and!; congruence.
  - destruct M1 as (-> & -> & ->), M2 as (-> & -> & ->). split_and!; congruence.
Qed.

(** A call on continuations leaves all but the store. *)
Lemma continuation_alike {A} e (m1 : Mailbox T1) (m2 : Mailbox T2) (zero : A) fn (f : A -> option MailboxResumeClaim) :
  me_io e = None -> alike m1 m2 -> blindClosure fn ->
  let run {T} `{ContinuationStore T} (m : Mailbox T) :=
    let '(store, a, r) := ct_Mutate e (mx_store m) zero fn in (m <| mx_store := store |>, OfContinuation (f a) r) in
  (run m1).2 = (run m2).2 /\ alike (run m1).1 (run m2).1.
Proof.
  intros Hio [Hs Ho Hd He Hc] Hb. cbn zeta. destruct (mutate_alike e (mx_store m1) (mx_store m2) zero fn Hio Hs Hb) as (E1 & E2 & E3).
  destruct (ct_Mutate e (mx_store m1) zero fn) as [[t1 a1] r1], (ct_Mutate e (mx_store m2) zero fn) as [[t2 a2] r2].
  cbn [fst snd] in *. subst. split; [done|]. by split.
Qed.
Lemma load_alike now (m1 : Mailbox T1) (m2 : Mailbox T2) ref :
  alike m1 m2 -> LoadHostPlanContinuation now m1 ref = LoadHostPlanContinuation now m2 ref.
Proof.
  intros Ha. unfold LoadHostPlanContinuation.
  assert (E : sn_Continuations (mb_Snapshot (mx_store m1)) = sn_Continuations (mb_Snapshot (mx_store m2))).
  { rewrite !law_snapshot. exact (f_equal sn_Continuations (snapshot_alike _ _ (al_state _ _ Ha))). }
  by rewrite E.
Qed.

(** What the two stores make of one closure. *)
Ltac on_both_stores H :=
  let E := fresh "E" in
  pose proof H as E; cbv beta zeta in E; revert E;
  repeat match goal with |- context [ct_Mutate ?e ?t ?z ?f] => destruct (ct_Mutate e t z f) as [[? ?] ?] end;
  intros [E ?]; cbn in *; by rewrite E.

Lemma mailboxStep_alike e (m1 : Mailbox T1) (m2 : Mailbox T2) c :
  me_io e = None -> alike m1 m2 ->
  namelessAnswer (mailboxStep e m1 c).2 = namelessAnswer (mailboxStep e m2 c).2
  /\ alike (mailboxStep e m1 c).1 (mailboxStep e m2 c).1.
Proof.
  intros Hio Ha. pose proof (al_state _ _ Ha) as Hs. destruct c; cbn [mailboxStep].
  - destruct (facadeStep_alike e m1 m2 c Hio Ha) as [E1 E2].
    destruct (facadeStep e m1 c), (facadeStep e m2 c). cbn in *. by subst.
  - unfold SaveHostPlanContinuation. destruct (validateContinuation c); [|done].
    on_both_stores (continuation_alike e m1 m2 tt _ (fun _ => None) Hio Ha (save_blind clock c)).
  - by rewrite (load_alike now m1 m2 ref Ha).
  - unfold ClaimHostPlanResume. destruct (validateResumeRequest req); [|done]. destruct (scopeRefuses _ _); [done|].
    on_both_stores (continuation_alike e m1 m2 None _ id Hio Ha (claim_blind clock req)).
  - unfold MarkHostPlanResumeRunning, mutateHostPlanClaim.
    on_both_stores (continuation_alike e m1 m2 None _ id Hio Ha (update_blind claim markRunning)).
  - unfold CommitHostPlanResumeResult, mutateHostPlanClaim.
    on_both_stores (continuation_alike e m1 m2 None _ id Hio Ha (update_blind claim (commitResult res))).
  - split; [|done]. cbn. unfold FacadeStats. rewrite !law_stats. f_equal. exact (f_equal m_Stats Hs).
  - split; [|done]. cbn. unfold FacadeSnapshot. rewrite !law_snapshot. f_equal. by apply snapshot_alike.
  - destruct (Restore_alike e m1 m2 sn Hio Ha) as [E1 E2]. destruct (Restore e m1 sn), (Restore e m2 sn). cbn in *. by subst.
Qed.

Lemma mailboxRun_alike calls : forall (m1 : Mailbox T1) (m2 : Mailbox T2),
  Forall (fun c => me_io c.1 = None) calls -> alike m1 m2 ->
  namelessAnswer <$> (mailboxRun m1 calls).2 = namelessAnswer <$> (mailboxRun m2 calls).2
  /\ alike (mailboxRun m1 calls).1 (mailboxRun m2 calls).1.
Proof.
  induction calls as [|[e c] calls IH]; intros m1 m2 HF Ha; [done|].
  apply Forall_cons in HF as [Hio HF]. destruct (mailboxStep_alike e m1 m2 c Hio Ha) as [E1 E2]. cbn [mailboxRun].
  destruct (mailboxStep e m1 c) as [m1' a1], (mailboxStep e m2 c) as [m2' a2]. cbn [fst snd] in *.
  destruct (IH m1' m2' HF E2) as [E3 E4]. destruct (mailboxRun m1' calls), (mailboxRun m2' calls). cbn in *. by rewrite E1, E3.
Qed.
End two_stores.
End mailbox_calls.


(** ** An example *)

#[local] Instance demoOrder : RangeOrder := listing_order.

(** Encodings for the examples; a request is known by its idempotency key. *)
#[export] Instance demoContinuationCodec : ContinuationCodec := {|
  mailboxContinuationJSON c := Some (cn_MessageID c);
  resumeRequestJSON q := Some (rr_IdempotencyKey q);
  quoted s := s;
  sum256Hex s := s
|}.

#[export] Instance demoPlanQueryCodec : QueryCodec := {|
  sha1Hex s := s;
  cursor_Encode c := "c";
  cursor_Decode x := None
|}.

#[export] Instance demoPlanSnapshotCodec : SnapshotCodec := codecFor (snapshot demo).

Definition demoPlan (id : string) : HostPlanBinding :=
  mkHostPlanBinding HostPlanBindingContractVersion id ("key-" +:+ id) "run" "parent" "cause" "auth" "plan" "scope"
    "effect" "occurrence" "host" 1.

(** A mailbox on a file store with two admitted plans. *)
Definition demoPlans : Mailbox FileStore :=
  let m := New (mkFileStore false false (newMailboxState "SRC" "file" demoPolicy) (mkFileStoreOptions 0 1) 0 0 None) 0 in
  let m := (AdmitHostPlan (demoMailboxEnv t0) m (demoPlan "m1")).1 in
  (AdmitHostPlan (demoMailboxEnv t0) m (demoPlan "m2")).1.

(** The handler of the first message pauses for an hour. *)
Definition demoPause : HandlerPause :=
  mkHandlerPause MailboxPauseApprovalRequired "approve" [] 0 0 (t0 + 3600 * Second) "handler-checkpoint-1".

Definition demoPausing : PauseRound FileStore :=
  mkPauseRound (demoMailboxEnv (t0 + Second)) [Tick (demoMailboxEnv (t0 + 6 * Second))]
    (demoMailboxEnv (t0 + 7 * Second)) (fun _ => t0 + 7 * Second)
    (fun _ => HandlerReturned (Some demoPause) None).

Definition demoPaused : Mailbox FileStore := (RunOnceContinuation (demoWorker "nack" "w5") demoPausing demoPlans).1.

Definition demoSaved : MailboxContinuation :=
  match m_Continuations (stateOf demoPaused) !! "mailbox-m1" with
  | Some r => cr_Continuation r
  | None => pausedContinuation noScope (mkMessageRecord (demoEnvelope "") StateQueued "" "" "" 0 "" 0 0 0 0 "" "" 0 0)
              (demoPlan "") demoPause 0
  end.

Definition demoResume (key : string) : MailboxResumeRequest :=
  mkMailboxResumeRequest (cn_Ref demoSaved) (cn_Binding demoSaved) key (cn_Generation demoSaved)
    (cn_PauseReason demoSaved) (mkDeploymentRequest "" "" "" "" "mailbox" "fence:mailbox").

Definition demoClock (n : Z) : nat -> Time := fun _ => t0 + n * Second.

Definition demoClaimed : Mailbox FileStore * option MailboxResumeClaim * result MailboxError unit :=
  ClaimHostPlanResume (demoMailboxEnv (t0 + 60 * Second)) (demoClock 60) demoPaused (demoResume "k1").

Definition demoOutcome : HostPlanOutcome :=
  match m_Records (stateOf demoPaused) !! "m1" with
  | Some r => hostPlanOutcome (demoPlan "m1") (mkPublishResult r false)
  | None => hostPlanOutcome (demoPlan "") (mkPublishResult
      (mkMessageRecord (demoEnvelope "") StateQueued "" "" "" 0 "" 0 0 0 0 "" "" 0 0) false)
  end.

(** The calls of the first holder: it runs, acknowledges and commits. *)
Definition demoCommit : list (MailboxEnv * ccall) :=
  [(demoMailboxEnv (t0 + 61 * Second), OnRunning (newClaim (demoResume "k1") demoSaved));
   (demoMailboxEnv (t0 + 62 * Second), OnMessage (FAck "m1" "w5"));
   (demoMailboxEnv (t0 + 63 * Second), OnCommit (newClaim (demoResume "k1") demoSaved) demoOutcome)].

Definition demoRepeated : Mailbox FileStore * option MailboxResumeClaim * result MailboxError unit :=
  ClaimHostPlanResume (demoMailboxEnv (t0 + 64 * Second)) (demoClock 64) (continuationCalls demoClaimed.1.1 demoCommit)
    (demoResume "k1").

(** The claim the example leaves. *)
Definition demoHeld : MailboxResumeClaim := default (newClaim (demoResume "k1") demoSaved) demoRepeated.1.2.

Lemma resume_granted_once_witness :
  rc_Duplicate demoHeld = true
  /\ exists res, rc_Result demoHeld = Some res.
Proof.
  destruct (resume_granted_once demoPaused demoClaimed.1.1 demoRepeated.1.1 demoRepeated.1.1
    (demoMailboxEnv (t0 + 60 * Second)) (demoMailboxEnv (t0 + 64 * Second)) (demoMailboxEnv (t0 + 64 * Second))
    (demoClock 60) (demoClock 64) (demoClock 64)
    (demoResume "k1") (demoResume "k1") (demoResume "k1") (newClaim (demoResume "k1") demoSaved) demoHeld demoHeld
    demoCommit []) as (H1 & _ & res & H2 & _).
  - vm_compute. reflexivity.
  - reflexivity.
  - vm_compute. reflexivity.
  - vm_compute. reflexivity.
  - reflexivity.
  - reflexivity.
  - exact (conj H1 (ex_intro _ res H2)).
Defined.

(** Another request is refused while the first one is running, and gets no result
    after it. *)
Example other_request_conflicts :
  (ClaimHostPlanResume (demoMailboxEnv (t0 + 61 * Second)) (demoClock 61) demoClaimed.1.1 (demoResume "k2")).2
    = Err ErrMailboxContinuationConflict
  /\ (ClaimHostPlanResume (demoMailboxEnv (t0 + 64 * Second)) (demoClock 64)
        (continuationCalls demoClaimed.1.1 demoCommit) (demoResume "k2")).2
    = Err ErrMailboxContinuationConflict.
Proof. vm_compute. split; reflexivity. Qed.

(** Two fresh stores of one policy and source id, and a sequence of calls: two plans are
    admitted, the first is consumed, paused, resumed, acknowledged and committed, and a
    snapshot taken before that is restored. *)
Definition openedFile : FileStore :=
  match NewFileStore (demoMailboxEnv t0) "mailbox.json" demoPolicy [WithPersistBatchSize 4] None with
  | Ok fs => fs
  | Err _ => mkFileStore false false (newMailboxState "" "" demoPolicy) (mkFileStoreOptions 0 1) 0 0 None
  end.

Definition openedMemory : MemoryStore := NewMemoryStore (me_rand (demoMailboxEnv t0)) demoPolicy.

Definition at_ (n : Z) (c : mcall) : MailboxEnv * mcall := (demoMailboxEnv (t0 + n * Second), c).

Definition demoMailboxCalls : list (MailboxEnv * mcall) :=
  [at_ 0 (ToMessages (FPublish (hostPlanEnvelope (demoPlan "m1"))));
   at_ 0 (ToMessages (FPublish (hostPlanEnvelope (demoPlan "m2"))));
   at_ 1 (ToMessages (FConsume "w5" (10 * Second) false));
   at_ 6 (ToMessages (FHeartbeat "m1" "w5" (10 * Second)));
   at_ 7 (ToSave (demoClock 7) demoSaved);
   at_ 8 ToSnapshot; at_ 8 ToStats;
   at_ 60 (ToLoad (t0 + 60 * Second) (cn_Ref demoSaved));
   at_ 60 (ToClaim (demoClock 60) (demoResume "k1"));
   at_ 61 (ToRunning (newClaim (demoResume "k1") demoSaved));
   at_ 62 (ToMessages (FAck "m1" "w5"));
   at_ 63 (ToCommit (newClaim (demoResume "k1") demoSaved) demoOutcome);
   at_ 64 (ToMessages (FQuery (byMessageID "m1")));
   at_ 65 (ToRestore (snapshot (stateOf demoPlans)));
   at_ 66 ToStats; at_ 66 ToSnapshot].

(** The calls on the message and the continuation are accepted. *)
Example demo_mailbox_calls_accepted :
  (fun a => match a with
            | OfMessages (APublished (Ok _)) | OfMessages (ADelivered (Ok (Some _))) | OfMessages (ARecord (Ok _))
            | OfMessages (APage (Ok _)) | OfContinuation _ (Ok _) | OfLoad (Ok _) | OfRestore (Ok _)
            | OfStats _ | OfSnapshot _ => true
            | _ => false
            end) <$> (mailboxRun (New openedFile 1) demoMailboxCalls).2 = replicate 16 true.
Proof. vm_compute. reflexivity. Qed.

(** Without the name put aside the statistics do tell the stores apart. *)
Example statistics_name_the_backend :
  (ms_Backend (FacadeStats (New openedFile 0)), ms_Backend (FacadeStats (New openedMemory 0))) = ("file", "memory").
Proof. vm_compute. reflexivity. Qed.


(** [ResumeHostPlanContinuation] takes the message from the request and compares only
    the checkpoint id and the digest of its reference: a request that names another
    message commits the state of that message as the result of the checkpoint. *)
Example resume_projects_foreign_message :
  let req := demoResume "k1" in
  let forged := mkMailboxResumeRequest (rr_Ref req <| cf_MessageID := "m2" |>) (rr_Binding req)
    (rr_IdempotencyKey req) (rr_Generation req) (rr_PauseReason req) (rr_Deployment req) in
  let u := mkSchedule (fun _ => demoMailboxEnv (t0 + 60 * Second)) (demoClock 60) (fun _ m => m) in
  match (ResumeHostPlanContinuation u demoPaused forged).2 with
  | Ok outcome => ho_MessageID outcome = "m2" /\ ho_LifecycleState outcome = StateQueued
  | Err _ => False
  end.
Proof. vm_compute. split; reflexivity. Qed.
