(* ===== verification/MailboxResumeProps.v ===== *)
(** * Mailbox: resuming a paused handler, the properties

    Worker, facade, stores and continuations together: a delivery that a handler paused
    is resumed by one request; the handler runs again, the delivery is settled as the
    worker is configured, and its record is committed as the result of the checkpoint. *)
From S2P Require Import Prelude GoStrings GoNum Paging MailboxTypes MailboxState MailboxSnapshot.
From S2P Require Import MailboxInv MailboxJournal MailboxRoundTrip MailboxProps MailboxStore MailboxFacade.
From S2P Require Import MailboxStoreProps MailboxFacadeProps MailboxWorker MailboxWorkerProps.
From S2P Require Import MailboxContinuation MailboxHandlerResume MailboxContinuationProps.

Local Open Scope bool_scope.
Local Open Scope string_scope.
Local Open Scope list_scope.
Local Open Scope Z_scope.

(** ** Sound states *)

(** What makes a snapshot of the state restorable. *)
Record sound (s : mailboxState) : Prop := {
  so_inv : mailbox_inv (view s);
  so_journal : journal_ok (m_History s);
  so_source : sourceValid HistoryVersion (hj_SourceID (m_History s)) = true
}.

(** A step that keeps the state sound, the continuations, and every message. *)
Record keeps (s s' : mailboxState) : Prop := {
  ke_sound : sound s';
  ke_continuations : m_Continuations s' = m_Continuations s;
  ke_evolves : evolves (view s) (view s')
}.

Lemma keeps_of s s' : sound s -> moves (view s) (view s') -> grows s s' -> keeps s s'.
Proof.
  intros [Hi Hj Hs] [Hi' He] [Hg Hc]. destruct (Hg Hj) as [Hj' (Hsrc & _)].
  split; [split; [done..|by rewrite Hsrc] | done | done].
Qed.

Lemma keeps_trans a b c : keeps a b -> keeps b c -> keeps a c.
Proof. intros [S1 C1 E1] [S2 C2 E2]. split; [done | congruence | by etrans]. Qed.

Lemma keeps_refl s : sound s -> keeps s s.
Proof. intros H. by split. Qed.

Lemma drain_keeps s s' : keeps s s' -> keeps s (drainLifecycleEvents s').1.
Proof. intros [[] ? ?]. by split. Qed.

(** A host-plan binding is never changed. *)
Lemma evolves_binding s s' id r r' :
  evolves (view s) (view s') -> m_Records s !! id = Some r -> m_Records s' !! id = Some r' ->
  ev_HostPlanBinding (mr_Envelope r') = ev_HostPlanBinding (mr_Envelope r).
Proof.
  intros [_ He] Hr Hr'. destruct (He id r Hr) as (r2 & Hr2 & _ & [E _]). cbn in Hr2. rewrite Hr' in Hr2.
  injection Hr2 as <-. rewrite E. by destruct (mr_Envelope r).
Qed.

(** ** The clone *)

(** The invariant does not read the name of the backend. *)
Lemma inv_backend v b : mailbox_inv v -> mailbox_inv (mkView (v_Records v) (v_Queue v) (v_Idempotency v)
  (v_Stats v <| ms_Backend := b |>) (v_Policy v)).
Proof.
  intros [Hp Hr Hn Hq Hqt Hc Hk]. split; try done. cbn. unfold counted in *. decompose_Forall_hyps.
  repeat (constructor; [done|]). constructor.
Qed.

(** The messages and continuations of two states are the same. *)
Record sameContent (s s' : mailboxState) : Prop := {
  sc_records : m_Records s' = m_Records s;
  sc_continuations : m_Continuations s' = m_Continuations s;
  sc_policy : m_Policy s' = m_Policy s
}.

Lemma clone_sound {order : RangeOrder} sid s : sound s ->
  exists s1, cloneMailboxState sid s = Ok s1 /\ sound s1 /\ sameContent s s1.
Proof.
  intros [Hi Hj Hs]. unfold cloneMailboxState. rewrite restore_snapshot by done. eexists. split; [done|].
  split; [|done]. split; [|done..]. exact (inv_backend (view s) _ Hi).
Qed.

(** [snapshotRecord] finds the record of a message. *)
Lemma snapshotRecord_lookup s id r :
  mailbox_inv (view s) -> m_Records s !! id = Some r -> snapshotRecord (snapshot s) id = Some r.
Proof.
  intros Hi Hr. unfold snapshotRecord, snapshot. cbn [sn_Records].
  set (l := sortRecordsDeterministic _).
  assert (Hl : forall x, x ∈ l <-> exists k, m_Records s !! k = Some x).
  { intros x. unfold l. rewrite sortRecordsDeterministic_perm, list_elem_of_fmap. split.
    - intros ([k y] & -> & Hy%elem_of_map_to_list). by exists k.
    - intros (k & Hk). exists (k, x). split; [done|]. by apply elem_of_map_to_list. }
  destruct (List.find _ l) as [x|] eqn:Hf.
  - apply List.find_some in Hf as [Hin Hx%str_eqb_eq]. apply list_elem_of_In, Hl in Hin as (k & Hk).
    rewrite (ok_id _ _ _ (inv_records _ Hi k x Hk)) in Hx. by simplify_eq.
  - apply List.find_none with (x := r) in Hf; [|apply list_elem_of_In, Hl; by exists id].
    rewrite (ok_id _ _ _ (inv_records _ Hi id r Hr)), str_eqb_refl in Hf. done.
Qed.

Section resume.
Context {order : RangeOrder} {codec : ContinuationCodec} {qcodec : QueryCodec}.
Context {T : Type} {MS : MailboxStore T} {CS : ContinuationStore T} {AB : Abstracts T}.
Context {L : StoreLaws T} {CL : ContinuationLaws T}.

(** A mutation of a sound state that can be written. *)
Lemma mutate_calm {A} e (t : T) (zero : A) fn (good : A -> mailboxState -> Prop) :
  me_io e = None -> sound (abs t) ->
  (forall s1, sound s1 -> sameContent (abs t) s1 -> exists v s2, fn s1 = (v, Ok s2) /\ good v s2) ->
  exists t' v, ct_Mutate e t zero fn = (t', v, Ok tt) /\ good v (abs t').
Proof.
  intros Hio Hs Hfn. destruct (clone_sound (me_rand e) (abs t) Hs) as (s1 & Hc & Hs1 & Hsame).
  destruct (Hfn s1 Hs1 Hsame) as (v & s2 & Hf & Hg). pose proof (law_mutate A e t zero fn) as Hm.
  destruct (ct_Mutate e t zero fn) as [[t' a] r]. unfold mutated in Hm. rewrite Hc, Hf in Hm.
  destruct Hm as [-> [[Ht ->]|(_ & why & Hw & _)]]; [|congruence]. exists t', v. split; [done|]. by rewrite Ht.
Qed.

(** ** The claim *)

(** The request asks for the continuation. *)
Record requests (req : MailboxResumeRequest) (c : MailboxContinuation) : Prop := {
  rq_ref : rr_Ref req = cn_Ref c;
  rq_binding : rr_Binding req = cn_Binding c;
  rq_generation : rr_Generation req = cn_Generation c;
  rq_reason : rr_PauseReason req = cn_PauseReason c;
  rq_valid : validateResumeRequest req = Ok tt;
  rq_scope : scopeRefuses (cf_Deployment (cn_Ref c)) (rr_Deployment req) = false
}.

(** The continuation can be resumed at the times of a claim. *)
Definition inTime (clock : nat -> Time) (c : MailboxContinuation) : Prop :=
  clock 0%nat < cn_ExpiresAt c /\ (cn_OriginalDeadline c = 0 \/ clock 1%nat < cn_OriginalDeadline c).

(** A step on the continuations: everything else of the mailbox is as before. *)
Record onlyContinuations (m m' : Mailbox T) : Prop := {
  oc_sound : sound (stateOf m');
  oc_records : m_Records (stateOf m') = m_Records (stateOf m);
  oc_policy : m_Policy (stateOf m') = m_Policy (stateOf m);
  oc_cache : mx_queryCache m' = mx_queryCache m
}.

Lemma sound_continuations s f : sound s -> sound (s <| m_Continuations ::= f |>).
Proof. intros []. by split. Qed.

(** Writes to the continuations, through the store. *)
Lemma write_calm {A} e (m : Mailbox T) (zero : A) fn id record v :
  me_io e = None -> sound (stateOf m) ->
  (forall s1, sound s1 -> sameContent (stateOf m) s1 ->
     fn s1 = (v, Ok (s1 <| m_Continuations ::= <[id := record]> |>))) ->
  exists t', ct_Mutate e (mx_store m) zero fn = (t', v, Ok tt)
  /\ onlyContinuations m (m <| mx_store := t' |>) /\ m_Continuations (abs t') !! id = Some record.
Proof.
  intros Hio Hs Hfn.
  destruct (mutate_calm e (mx_store m) zero fn (fun v' s2 => v' = v /\ sound s2 /\ m_Records s2 = m_Records (stateOf m)
    /\ m_Policy s2 = m_Policy (stateOf m) /\ m_Continuations s2 !! id = Some record) Hio Hs)
    as (t' & v' & E & -> & H1 & H2 & H3 & H4).
  - intros s1 Hs1 Hsame. eexists _, _. split; [by apply Hfn|]. split; [done|]. split; [by apply sound_continuations|].
    destruct Hsame as [E1 _ E3]. cbn. split; [done|]. split; [done|]. apply lookup_insert_eq.
  - exists t'. split; [done|]. split; [by split | done].
Qed.

Section request.
Context (req : MailboxResumeRequest) (c : MailboxContinuation) (rec : MessageRecord).
Hypothesis Hreq : requests req c.

(** The record of the checkpoint while it is claimed. *)
Definition heldRecord (state : string) : MailboxContinuationRecord :=
  mkMailboxContinuationRecord c (Some (newClaim req c <| rc_State := state |>)) (requestIdentity req) false.

Lemma Claim_granted e clock m :
  me_io e = None -> sound (stateOf m) -> inTime clock c ->
  m_Continuations (stateOf m) !! cf_CheckpointID (cn_Ref c) = Some (mkMailboxContinuationRecord c None "" false) ->
  m_Records (stateOf m) !! cn_MessageID c = Some rec -> sameDelivery rec c = true ->
  exists m', ClaimHostPlanResume e clock m req = (m', Some (newClaim req c), Ok tt) /\ onlyContinuations m m'
  /\ m_Continuations (stateOf m') !! cf_CheckpointID (cn_Ref c) = Some (heldRecord "claimed").
Proof.
  intros Hio Hs [Ht Hd] Hsaved Hrec Hsame. destruct Hreq as [E1 E2 E3 E4 Hv Hsc].
  destruct (write_calm e m None (claimResume clock req) (cf_CheckpointID (cn_Ref c)) (heldRecord "claimed")
    (Some (newClaim req c)) Hio Hs) as (t' & Hm & Ho & Hk).
  - intros s1 Hs1 [Sr Sc Sp]. unfold claimResume. rewrite E1, Sc, Hsaved. cbn [cr_Continuation cr_Claim cr_Identity].
    rewrite E2, E3, E4, !str_eqb_refl, bool_decide_true, Z.eqb_refl, Hsc by done. cbn [negb orb finishedClaim cr_Claim].
    unfold Before. apply Z.ltb_lt in Ht as ->. cbn [negb].
    assert (negb (IsZero (cn_OriginalDeadline c)) && negb (clock 1%nat <? cn_OriginalDeadline c) = false) as ->.
    { unfold IsZero. destruct Hd as [->|Hd%Z.ltb_lt]; [done | by rewrite Hd, andb_false_r]. }
    rewrite (snapshotRecord_lookup s1 (cn_MessageID c) rec); [|apply Hs1|by rewrite Sr]. by rewrite Hsame.
  - unfold ClaimHostPlanResume. rewrite Hv, E1, Hsc, Hm. eexists. split; [done|]. split; [exact Ho | exact Hk].
Qed.

(** The request repeats: the claim was granted by the phase it is in. *)
Lemma Mark_running e m :
  me_io e = None -> sound (stateOf m) ->
  m_Continuations (stateOf m) !! cf_CheckpointID (cn_Ref c) = Some (heldRecord "claimed") ->
  exists m' v, MarkHostPlanResumeRunning e m (newClaim req c) = (m', v, Ok tt) /\ onlyContinuations m m'
  /\ m_Continuations (stateOf m') !! cf_CheckpointID (cn_Ref c) = Some (heldRecord "running").
Proof.
  intros Hio Hs Hheld. destruct Hreq as [E1 _ _ _ _ _].
  destruct (write_calm e m None (updateClaim (newClaim req c) markRunning) (cf_CheckpointID (cn_Ref c))
    (heldRecord "running") (Some (newClaim req c <| rc_State := "running" |>)) Hio Hs) as (t' & Hm & Ho & Hk).
  - intros s1 Hs1 [Sr Sc Sp]. unfold updateClaim. cbn [newClaim rc_Request]. rewrite E1, Sc, Hheld.
    cbn [heldRecord cr_Claim cr_Identity cr_Recovered]. rewrite str_eqb_refl. cbn. by rewrite str_eqb_refl.
  - unfold MarkHostPlanResumeRunning, mutateHostPlanClaim. rewrite Hm. eexists _, _. split; [done|]. split; [exact Ho | exact Hk].
Qed.

Lemma Commit_finishes e m res :
  me_io e = None -> sound (stateOf m) ->
  m_Continuations (stateOf m) !! cf_CheckpointID (cn_Ref c) = Some (heldRecord "running") ->
  exists m' v, CommitHostPlanResumeResult e m (newClaim req c) res = (m', v, Ok tt) /\ onlyContinuations m m'
  /\ phaseIn (stateOf m') (cf_CheckpointID (cn_Ref c)) = Finished c (requestIdentity req) res.
Proof.
  intros Hio Hs Hheld. destruct Hreq as [E1 _ _ _ _ _].
  set (done_ := newClaim req c <| rc_State := "running" |> <| rc_Result := Some res |> <| rc_State := "completed" |>).
  destruct (write_calm e m None (updateClaim (newClaim req c) (commitResult res)) (cf_CheckpointID (cn_Ref c))
    (mkMailboxContinuationRecord c (Some done_) (requestIdentity req) false) (Some done_) Hio Hs) as (t' & Hm & Ho & Hk).
  - intros s1 Hs1 [Sr Sc Sp]. unfold updateClaim. cbn [newClaim rc_Request]. rewrite E1, Sc, Hheld.
    cbn [heldRecord cr_Claim cr_Identity cr_Recovered]. rewrite str_eqb_refl. cbn. by rewrite str_eqb_refl.
  - unfold CommitHostPlanResumeResult, mutateHostPlanClaim. rewrite Hm. eexists _, _. split; [done|]. split; [exact Ho|].
    unfold phaseIn. change (stateOf (m <| mx_store := t' |>)) with (abs t'). by rewrite Hk.
Qed.
End request.

(** ** Finding the message *)

(** What a query by message id is normalised to. *)
Definition messageQuery (id : string) : normalizedQuery :=
  mkNormalizedQuery (TrimSpace id) "" "" "" "" "" "" "" "" "" "" None DefaultQueryPageSize "updated_at" "desc" "".

Lemma normalizeQuery_message id : normalizeQuery (byMessageID id) = Ok (messageQuery id).
Proof.
  assert (E : lower_trim "" = "") by reflexivity. unfold normalizeQuery, byMessageID, messageQuery. cbn. rewrite !E.
  reflexivity.
Qed.

(** The records of a snapshot are those of the state, once each. *)
Lemma snapshot_records s x : mailbox_inv (view s) ->
  x ∈ sn_Records (snapshot s) <-> m_Records s !! ev_MessageID (mr_Envelope x) = Some x.
Proof.
  intros Hi. unfold snapshot. cbn [sn_Records]. rewrite sortRecordsDeterministic_perm, list_elem_of_fmap. split.
  - intros ([k y] & -> & Hy%elem_of_map_to_list). cbn in *. by rewrite (ok_id _ _ _ (inv_records _ Hi k y Hy)).
  - intros Hx. exists (ev_MessageID (mr_Envelope x), x). split; [done|]. by apply elem_of_map_to_list.
Qed.

Lemma snapshot_records_NoDup s : mailbox_inv (view s) -> NoDup (sn_Records (snapshot s)).
Proof.
  intros Hi. eapply (NoDup_fmap_1 recordID), listed_ids; [|apply sortRecordsDeterministic_perm].
  intros id r Hr. apply (ok_id _ _ _ (inv_records _ Hi id r Hr)).
Qed.

(** The query by the id of a message matches that message only. *)
Lemma filter_message s id r : mailbox_inv (view s) -> m_Records s !! id = Some r ->
  filterQueryRecords (sn_Records (snapshot s)) (messageQuery id) = [r].
Proof.
  intros Hi Hr. pose proof (inv_records _ Hi id r Hr) as Hok. pose proof (ok_id _ _ _ Hok) as Eid.
  assert (Htrim : TrimSpace id = id) by (rewrite <-Eid; apply envelope_normal_id, Hok).
  assert (Hne : id <> "") by (rewrite <-Eid; apply (en_message _ (ok_envelope _ _ _ Hok))).
  assert (Hmatch : forall x, x ∈ sn_Records (snapshot s) -> matchesQuery x (messageQuery id) = true -> x = r).
  { intros x Hx Hm. apply (snapshot_records s x Hi) in Hx. unfold matchesQuery, matchField, messageQuery in Hm. cbn in Hm.
    rewrite Htrim, (proj2 (str_eqb_neq _ _) Hne), !andb_true_r in Hm. cbn in Hm. apply str_eqb_eq in Hm.
    rewrite envelope_normal_id in Hm by apply (inv_records _ Hi _ _ Hx). rewrite Hm in Hx. by simplify_eq. }
  assert (Hself : matchesQuery r (messageQuery id) = true).
  { unfold matchesQuery, matchField, messageQuery. cbn. rewrite Htrim, Eid, Htrim, str_eqb_refl, orb_true_r. done. }
  destruct (filterQueryRecords_spec (sn_Records (snapshot s)) (messageQuery id)) as [Hp _].
  apply Permutation_singleton_r. rewrite Hp. symmetry. apply NoDup_Permutation.
  - apply NoDup_singleton.
  - apply NoDup_ListNoDup, List.NoDup_filter, NoDup_ListNoDup, (snapshot_records_NoDup s Hi).
  - intros x. rewrite list_elem_of_singleton, list_elem_of_In, List.filter_In, <-list_elem_of_In. split.
    + intros ->. split; [|done]. apply (snapshot_records s r Hi). by rewrite Eid.
    + intros [Hx Hm]. by apply Hmatch.
Qed.

(** What the cache holds for the query of a message is what the store holds. *)
Definition honest (m : Mailbox T) (id : string) : Prop :=
  forall items, mx_queryCache m !! queryHash (messageQuery id) = Some items ->
    items = filterQueryRecords (sn_Records (snapshot (stateOf m))) (messageQuery id).

Lemma queryMessage_finds m id r :
  sound (stateOf m) -> m_Records (stateOf m) !! id = Some r -> honest m id ->
  exists m', queryMessage m id = (m', Ok r) /\ mx_store m' = mx_store m.
Proof.
  intros Hs Hr Hh. pose proof (filter_message (stateOf m) id r (so_inv _ Hs) Hr) as Hf. unfold honest in Hh. rewrite Hf in Hh.
  unfold queryMessage, Query. rewrite normalizeQuery_message. cbn [nq_Cursor messageQuery].
  change (decodeCursor "" (queryHash (messageQuery id))) with (Some 0). rewrite law_snapshot.
  change (abs (mx_store m)) with (stateOf m). rewrite Hf.
  assert (Hb : buildQueryResult [r] (messageQuery id) 0 (queryHash (messageQuery id))
               = Ok (mkQueryResult [r] "" DefaultQueryPageSize "updated_at" "desc")) by reflexivity.
  assert (Hread : readQueryCache m (mx_queryCacheEpoch m) (queryHash (messageQuery id)) = None
                  \/ readQueryCache m (mx_queryCacheEpoch m) (queryHash (messageQuery id)) = Some [r]).
  { unfold readQueryCache. destruct (_ =s? _); [by left|]. rewrite Z.eqb_refl. cbn.
    destruct (mx_queryCache m !! _) as [items|] eqn:Hk; [|by left]. right. by rewrite (Hh items eq_refl). }
  destruct Hread as [-> | ->]; rewrite Hb; cbn [qo_Items]; eexists; (split; [done|]); [|done].
  unfold writeQueryCache. repeat (case_match; try done).
Qed.

(** ** Settling *)

Lemma settling_keeps {A} e m (x : T * result MailboxError A) y :
  me_io e = None -> agrees e x y -> keeps (stateOf m) y.1 -> keeps (stateOf m) (stateOf (settling e m x).1).
Proof.
  destruct y as [s r]. intros Hio Ha Hk. destruct (settling_state e m x s r Hio Ha) as (m' & -> & E).
  cbn [fst] in *. rewrite E. by apply drain_keeps.
Qed.

(** A store operation that succeeded has emptied the query cache. *)
Lemma settling_cache {A} e m (x : T * result MailboxError A) m' a :
  settling e m x = (m', Ok a) -> mx_queryCache m' = ∅.
Proof.
  unfold settling. intros [= <- Hr]. rewrite Hr. cbn [is_ok]. unfold emitLifecycle.
  by destruct (mb_DrainLifecycleEvents _).
Qed.

Lemma Heartbeat_keeps e m id c d r :
  calm e -> sound (stateOf m) -> holds (stateOf m) id c r ->
  exists m' r', Heartbeat e m id c d = (m', Ok r') /\ keeps (stateOf m) (stateOf m') /\ holds (stateOf m') id c r'.
Proof.
  intros [Hio Hw] Hs Hh. unfold Heartbeat. pose proof (law_heartbeat e (mx_store m) id c (me_now e) d) as Ha.
  destruct (heartbeat_holds (me_wall e) (stateOf m) id c r (me_now e) d Hh) as (s' & r' & E & Hh' & _).
  assert (Hk : keeps (stateOf m) (heartbeat (me_wall e) (stateOf m) id c (me_now e) d).1).
  { apply keeps_of; [done | by apply heartbeat_moves, Hs | apply heartbeat_grows]. }
  change (abs (mx_store m)) with (stateOf m) in Ha. rewrite E in Ha, Hk.
  destruct (settling_state e m _ _ _ Hio Ha) as (m' & -> & Es).
  exists m', r'. split; [done|]. rewrite Es. split; [by apply drain_keeps | by apply drain_holds].
Qed.

Lemma ticks_keep w id during : forall m r,
  Forall onlyTicks during -> sound (stateOf m) -> holds (stateOf m) id (wk_consumerID w) r ->
  exists m' r', whileHandling w id during None m = (m', None) /\ keeps (stateOf m) (stateOf m')
  /\ holds (stateOf m') id (wk_consumerID w) r'.
Proof.
  induction during as [|x during IH]; intros m r HF Hs Hh; [exists m, r; split; [done|]; split; [by apply keeps_refl | done]|].
  apply Forall_cons in HF as [Hx HF]. destruct x as [e|]; [|done]. cbn [whileHandling].
  destruct (Heartbeat_keeps e m id (wk_consumerID w) (wc_InflightTimeout (wk_config w)) r Hx Hs Hh) as (m1 & r1 & -> & Hk & Hh1).
  destruct (IH m1 r1 HF (ke_sound _ _ Hk) Hh1) as (m2 & r2 & -> & Hk2 & Hh2).
  exists m2, r2. split; [done|]. split; [by eapply keeps_trans | done].
Qed.

Lemma settle_keeps e w m id answer r :
  calm e -> sound (stateOf m) -> holds (stateOf m) id (wk_consumerID w) r ->
  exists m' r', settle e w m id answer None = (m', None) /\ keeps (stateOf m) (stateOf m') /\ mx_queryCache m' = ∅
  /\ m_Records (stateOf m') !! id = Some r' /\ mr_DeliveryAttempt r' = mr_DeliveryAttempt r
  /\ mr_State r' = settlement (m_Policy (stateOf m')) w answer (mr_DeliveryAttempt r').
Proof.
  intros [Hio Hw] Hs Hh. destruct (settle_settles e w m id answer r Hio Hh) as (m' & r' & E & (HR & HP & Ha) & Hst).
  exists m', r'. split; [done|].
  assert (H : keeps (stateOf m) (stateOf (settle e w m id answer None).1)
              /\ mx_queryCache (settle e w m id answer None).1 = ∅).
  { assert (case : forall A (x : T * result MailboxError A) y, agrees e x y -> moves (view (stateOf m)) (view y.1) ->
      grows (stateOf m) y.1 ->
      (let '(m, r) := settling e m x in (m, match r with Ok _ => None | Err er => Some er end)) = (m', None) ->
      keeps (stateOf m) (stateOf m') /\ mx_queryCache m' = ∅).
    { intros A x y Hx Hm Hg Hset. destruct (settling e m x) as [m1 [a|]] eqn:Es; [|done]. injection Hset as <-.
      split; [|by eapply settling_cache]. change m1 with (m1, Ok a : result MailboxError A).1. rewrite <-Es.
      apply (settling_keeps e m x y Hio Hx). by apply keeps_of. }
    rewrite E. cbn [fst]. unfold settle in E.
    destruct (invokeWorkerHandler answer) as [panic [text|]]; cbn [option_fmap option_map fmap] in E.
    - destruct (_ =s? _); unfold NackWithOptions, RequeueWithOptions in E.
      + eapply (case _ _ _ (law_nack _ _ _ _ _ _ _)); [|apply nack_grows|exact E]. by apply nack_moves, Hs.
      + eapply (case _ _ _ (law_requeue _ _ _ _ _ _ _)); [|apply requeue_grows|exact E]. by apply requeue_moves, Hs.
    - eapply (case _ _ _ (law_ack _ _ _ _ _)); [|apply ack_grows|exact E]. by apply ack_moves, Hs. }
  rewrite E in H. destruct H as [Hk Hc]. split; [done|]. split; [done|].
  split; [rewrite HR; apply lookup_insert_eq|]. split; [done|]. by rewrite Hst, HP, Ha.
Qed.

(** ** The resumption *)

(** Nobody else acts, the clocks run and the writes succeed. *)
Definition alone (u : Schedule T) : Prop := forall k, calm (su_env u k) /\ forall m, su_others u k m = m.

(** The worker holds the delivery the continuation was taken from. *)
Lemma resumable_holds w c s r :
  sound s -> TrimSpace (wk_consumerID w) = wk_consumerID w -> m_Records s !! cn_MessageID c = Some r ->
  resumable w c r = true -> sameDelivery r c = true /\ holds s (cn_MessageID c) (wk_consumerID w) r.
Proof.
  intros Hs Ht Hr H. unfold resumable in H. rewrite !andb_true_iff in H. destruct H as [[Hd _] Hw%str_eqb_eq].
  split; [done|]. unfold sameDelivery in Hd. rewrite !andb_true_iff in Hd. destruct Hd as [_ Hst%bool_decide_eq_true].
  pose proof (inv_records _ (so_inv _ Hs) _ _ Hr) as Hok.
  split; [done | done | by symmetry | | done]. rewrite <-(ok_id _ _ _ Hok). apply envelope_normal_id, Hok.
Qed.

Lemma commitOutcome_finishes u k m req c r :
  alone u -> requests req c -> sound (stateOf m) -> honest m (cn_MessageID c) ->
  m_Continuations (stateOf m) !! cf_CheckpointID (cn_Ref c) = Some (heldRecord req c "running") ->
  m_Records (stateOf m) !! cn_MessageID c = Some r -> is_Some (ev_HostPlanBinding (mr_Envelope r)) ->
  exists m' outcome, commitOutcome u k m (newClaim req c) (cn_MessageID c) = (m', Ok outcome)
  /\ HostPlanOutcomeFromRecord r = Ok outcome
  /\ m_Records (stateOf m') = m_Records (stateOf m) /\ m_Policy (stateOf m') = m_Policy (stateOf m)
  /\ phaseIn (stateOf m') (cf_CheckpointID (cn_Ref c)) = Finished c (requestIdentity req) outcome.
Proof.
  intros Hu Hreq Hs Hh Hheld Hr [b Hb]. unfold commitOutcome. rewrite (proj2 (Hu k)).
  destruct (queryMessage_finds m (cn_MessageID c) r Hs Hr Hh) as (m1 & -> & Est).
  destruct (HostPlanOutcomeFromRecord r) as [outcome|] eqn:Ho; [|unfold HostPlanOutcomeFromRecord in Ho; by rewrite Hb in Ho].
  rewrite (proj2 (Hu (S k))). assert (E1 : stateOf m1 = stateOf m) by (unfold stateOf; by rewrite Est).
  destruct (Commit_finishes req c Hreq (su_env u (S k)) m1 outcome) as (m2 & v & -> & [O1 O2 O3 _] & Hp);
    [apply Hu | by rewrite E1 | by rewrite E1|].
  rewrite E1 in *. exists m2, outcome. done.
Qed.

Lemma resumeClaimed_settles w u during resumer m req c rec answer :
  alone u -> Forall onlyTicks during -> TrimSpace (wk_consumerID w) = wk_consumerID w -> requests req c ->
  sound (stateOf m) -> honest m (cn_MessageID c) ->
  m_Continuations (stateOf m) !! cf_CheckpointID (cn_Ref c) = Some (heldRecord req c "running") ->
  m_Records (stateOf m) !! cn_MessageID c = Some rec -> resumable w c rec = true ->
  is_Some (ev_HostPlanBinding (mr_Envelope rec)) ->
  invokeContinuationWorkerResumer (resumer c (cloneRecord rec)) = (None, answer) ->
  exists m' outcome rec', resumeClaimed w u during resumer c (newClaim req c) m = (m', true, Ok outcome)
  /\ m_Records (stateOf m') !! cn_MessageID c = Some rec'
  /\ mr_State rec' = settlement (m_Policy (stateOf m')) w answer (mr_DeliveryAttempt rec')
  /\ HostPlanOutcomeFromRecord rec' = Ok outcome
  /\ phaseIn (stateOf m') (cf_CheckpointID (cn_Ref c)) = Finished c (requestIdentity req) outcome.
Proof.
  intros Hu Hd Ht Hreq Hs Hh Hheld Hr Hres [b Hb] Hans. unfold resumeClaimed. rewrite (proj2 (Hu 2%nat)).
  destruct (queryMessage_finds m (cn_MessageID c) rec Hs Hr Hh) as (m1 & -> & Est).
  rewrite Hres. cbn [negb]. rewrite (proj2 (Hu 3%nat)).
  destruct (resumable_holds w c (stateOf m) rec Hs Ht Hr Hres) as [_ Hho].
  assert (E1 : stateOf m1 = stateOf m) by (unfold stateOf; by rewrite Est). rewrite <-E1 in *.
  destruct (Heartbeat_keeps (su_env u 3%nat) m1 (cn_MessageID c) (wk_consumerID w) (wc_InflightTimeout (wk_config w)) rec
    (proj1 (Hu 3%nat)) Hs Hho) as (m2 & r2 & -> & Hk2 & Hh2).
  destruct (ticks_keep w (cn_MessageID c) during m2 r2 Hd (ke_sound _ _ Hk2) Hh2) as (m3 & r3 & -> & Hk3 & Hh3).
  rewrite Hans. destruct (settle_keeps (su_env u 4%nat) w m3 (cn_MessageID c) answer r3 (proj1 (Hu 4%nat))
    (ke_sound _ _ Hk3) Hh3) as (m4 & r4 & E4 & Hk4 & Hc4 & Hr4 & _ & Hst). rewrite E4.
  pose proof (keeps_trans _ _ _ (keeps_trans _ _ _ Hk2 Hk3) Hk4) as [Hs4 Hcn Hev].
  destruct (commitOutcome_finishes u 5 m4 req c r4 Hu Hreq Hs4) as (m5 & outcome & -> & Ho & HR & HP & Hph).
  - intros items. by rewrite Hc4, lookup_empty.
  - by rewrite Hcn.
  - done.
  - rewrite (evolves_binding _ _ _ _ _ Hev Hr Hr4). eauto.
  - exists m5, outcome, r4. rewrite HR, HP. done.
Qed.
End resume.

(** ** Every call keeps the mailbox sound *)

Lemma alter_present {A} (R : gmap string A) id r f : R !! id = Some r -> alter f id R = <[id := f r]> R.
Proof.
  intros Hr. apply map_eq. intros j. destruct (decide (j = id)) as [->|Hne].
  - by rewrite lookup_alter_eq, lookup_insert_eq, Hr.
  - by rewrite lookup_alter_ne, lookup_insert_ne.
Qed.

(** The readings of the clock while a continuation is saved are set. *)
Definition clockRuns (c : ccall) : Prop :=
  match c with OnSave clock _ => forall i, clock i <> 0 | _ => True end.

Section calls.
Context {order : RangeOrder} {codec : ContinuationCodec} {qcodec : QueryCodec}.

Lemma extendLease_sound clock c s r :
  clock 3%nat <> 0 -> sound s -> m_Records s !! cn_MessageID c = Some r -> mr_State r = StateInFlight ->
  sound (s <| m_Records ::= alter (extendLease clock c) (cn_MessageID c) |>).
Proof.
  intros Hclock [Hi Hj Hs] Hr Hst. split; [|done..]. pose proof (inv_records _ Hi _ _ Hr) as Hok.
  unfold view. cbn. rewrite (alter_present _ _ r) by done.
  eapply (moves_outside_queue (view s)); try done; cbn; try congruence.
  - destruct Hok as [He Hid Ha Hq Hf Hl Hk Ht [Hc Hu]]. by constructor.
  - by apply message_evolves_still.
  - count_tac.
Qed.

Lemma saveContinuation_sound clock c s s' :
  (forall i, clock i <> 0) -> sound s -> saveContinuation clock c s = Ok s' -> sound s'.
Proof.
  intros Hclock Hs. unfold saveContinuation. destruct (m_Continuations s !! _) as [old|].
  { case_match; [|done]. by intros [= <-]. }
  destruct (snapshotRecord _ _) as [cur|] eqn:Hcur; [|done]. rewrite !require_ok.
  intros ((Hd & _)%andb_true_iff & _ & _ & [= <-]). apply sound_continuations. case_match; [|done].
  unfold snapshotRecord in Hcur. apply List.find_some in Hcur as [Hin Hid%str_eqb_eq].
  apply list_elem_of_In, (snapshot_records s cur (so_inv _ Hs)) in Hin. rewrite Hid in Hin.
  apply (extendLease_sound clock c s cur); [done..|]. unfold sameDelivery in Hd. rewrite !andb_true_iff in Hd.
  by destruct Hd as [_ Hst%bool_decide_eq_true].
Qed.

Lemma claimResume_sound clock req s v s' : sound s -> claimResume clock req s = (v, Ok s') -> sound s'.
Proof.
  intros Hs [(c & _ & _ & _ & r & ->)|(_ & _ & _ & _ & -> & _)]%claimResume_Ok; [by apply sound_continuations | done].
Qed.

Lemma updateClaim_sound claim mutate s v s' : sound s -> updateClaim claim mutate s = (v, Ok s') -> sound s'.
Proof.
  intros Hs. unfold updateClaim. cbn zeta. repeat (case_match; try done). intros [= _ <-]. by apply sound_continuations.
Qed.

Context {T : Type} {MS : MailboxStore T} {CS : ContinuationStore T} {AB : Abstracts T}.
Context {L : StoreLaws T} {CL : ContinuationLaws T}.

Lemma mutate_sound {A} e (t : T) (zero : A) fn :
  (forall s1 v s2, sound s1 -> fn s1 = (v, Ok s2) -> sound s2) -> sound (abs t) ->
  sound (abs (ct_Mutate e t zero fn).1.1).
Proof.
  intros Hfn Hs. destruct (clone_sound (me_rand e) (abs t) Hs) as (s1 & Hc & Hs1 & _).
  pose proof (law_mutate A e t zero fn) as Hm. destruct (ct_Mutate e t zero fn) as [[t' a] r]. unfold mutated in Hm.
  rewrite Hc in Hm. cbn [fst]. destruct (fn s1) as [v [s2|er]] eqn:Hf; [|by destruct Hm as [-> _]].
  destruct Hm as [_ [[-> _]|[-> _]]]; [by eapply Hfn | done].
Qed.

Lemma facadeStep_sound e (m : Mailbox T) c :
  me_wall e <> 0 -> sound (stateOf m) -> sound (stateOf (facadeStep e m c).1).
Proof.
  intros Hw Hs.
  assert (settle_case : forall (A : Type) (x : T * result MailboxError A) y (f : result MailboxError A -> fanswer),
    agrees e x y -> moves (view (stateOf m)) (view y.1) -> grows (stateOf m) y.1 ->
    sound (stateOf (let '(m, r) := settling e m x in (m, f r)).1)).
  { intros A x y f [Ha _] Hm Hg. destruct (drain_keeps _ _ (keeps_of _ _ Hs Hm Hg)) as [Hsd _ _]. unfold settling, emitLifecycle.
    set (m1 := if is_ok x.2 then _ else _). assert (E : mx_store m1 = x.1) by (unfold m1; by destruct (is_ok x.2)).
    destruct (law_drain (mx_store m1)) as [D _]. destruct (mb_DrainLifecycleEvents (mx_store m1)) as [t ev].
    unfold stateOf. cbn in *. by rewrite D, E, Ha. }
  destruct c; cbn [facadeStep].
  - unfold Publish. pose proof (law_publish e (mx_store m) env (me_now e)) as [Ha _].
    destruct (keeps_of _ _ Hs (publish_moves (me_wall e) Hw (stateOf m) env (me_now e) (so_inv _ Hs))
      (publish_grows _ _ _ _)) as [Hsd _ _].
    destruct (mb_Publish e (mx_store m) env _) as [t r]. unfold stateOf in *. cbn [fst] in *. rewrite <-Ha in Hsd.
    by destruct (is_ok r).
  - eapply (settle_case _ _ _ ADelivered); [apply law_consume | by apply consume_moves, Hs | apply consume_grows].
  - eapply (settle_case _ _ _ ARecord); [apply law_heartbeat | by apply heartbeat_moves, Hs | apply heartbeat_grows].
  - eapply (settle_case _ _ _ ARecord); [apply law_ack | by apply ack_moves, Hs | apply ack_grows].
  - eapply (settle_case _ _ _ ARecord); [apply law_nack | by apply nack_moves, Hs | apply nack_grows].
  - eapply (settle_case _ _ _ ARecord); [apply law_requeue | by apply requeue_moves, Hs | apply requeue_grows].
  - assert (E : mx_store (Query m req).1 = mx_store m).
    { unfold Query, writeQueryCache. repeat (case_match; try done). }
    unfold stateOf in *. destruct (Query m req). cbn in *. by rewrite E.
Qed.

Lemma continuationCall_sound e (m : Mailbox T) c :
  me_wall e <> 0 -> clockRuns c -> sound (stateOf m) -> sound (stateOf (continuationCall e m c)).
Proof.
  intros Hw Hclock Hs.
  assert (write : forall A (zero : A) fn, (forall s1 v s2, sound s1 -> fn s1 = (v, Ok s2) -> sound s2) ->
    sound (abs (ct_Mutate e (mx_store m) zero fn).1.1)) by (intros A zero fn Hfn; by apply mutate_sound).
  destruct c as [c|clock c|clock req|claim|claim res]; cbn [continuationCall].
  - by apply facadeStep_sound.
  - unfold SaveHostPlanContinuation. destruct (validateContinuation c); [|done].
    pose proof (write _ tt (fun s => (tt, saveContinuation clock c s))) as H.
    destruct (ct_Mutate e (mx_store m) tt _) as [[t v0] r]. apply H.
    intros s v s' H1 [= _ H2]. by eapply saveContinuation_sound.
  - unfold ClaimHostPlanResume. destruct (validateResumeRequest req); [|done]. destruct (scopeRefuses _ _); [done|].
    pose proof (write _ None (claimResume clock req)) as H.
    destruct (ct_Mutate e (mx_store m) None _) as [[t v0] r]. apply H. intros s v s'. apply claimResume_sound.
  - unfold MarkHostPlanResumeRunning, mutateHostPlanClaim. pose proof (write _ None (updateClaim claim markRunning)) as H.
    destruct (ct_Mutate e (mx_store m) None _) as [[t v0] r]. apply H. intros s v s'. apply updateClaim_sound.
  - unfold CommitHostPlanResumeResult, mutateHostPlanClaim.
    pose proof (write _ None (updateClaim claim (commitResult res))) as H.
    destruct (ct_Mutate e (mx_store m) None _) as [[t v0] r]. apply H. intros s v s'. apply updateClaim_sound.
Qed.

Lemma continuationCalls_sound calls : forall (m : Mailbox T),
  Forall (fun c => me_wall c.1 <> 0 /\ clockRuns c.2) calls -> sound (stateOf m) -> sound (stateOf (continuationCalls m calls)).
Proof.
  induction calls as [|[e c] calls IH]; intros m HF Hs; [done|].
  apply Forall_cons in HF as [[Hw Hc] HF]. by apply IH, continuationCall_sound.
Qed.
End calls.

(** C22: a paused delivery is resumed. When a saved continuation is asked for in time by
    the worker that holds its delivery, with nobody else acting and writes that succeed,
    [ResumeHandlerContinuation] runs the resumer, and the message ends as the answer of
    the resumer says: acknowledged, or nacked or requeued as configured, dead lettered
    or expired when its attempts are used up. The outcome it returns is the projection
    of that record, and it is the committed result of the checkpoint. *)
Theorem paused_delivery_resumes {order : RangeOrder} {codec : ContinuationCodec} {qcodec : QueryCodec}
    {T : Type} {MS : MailboxStore T} {CS : ContinuationStore T} {AB : Abstracts T}
    {L : StoreLaws T} {CL : ContinuationLaws T}
    (cfg : WorkerConfig) (cid : string) (w : Worker) (u : Schedule T) (during : list (moment T)) (loadedAt : Time)
    (revalidate : MailboxContinuation -> option string)
    (resumer : MailboxContinuation -> MessageRecord -> ContinuationAnswer) (m : Mailbox T)
    (req : MailboxResumeRequest) (c : MailboxContinuation) (rec : MessageRecord) (answer : HandlerAnswer)
    (Hworker : NewWorker cfg cid = Ok w) (Hsound : sound (stateOf m))
    (Hsaved : m_Continuations (stateOf m) !! cf_CheckpointID (cn_Ref c)
              = Some (mkMailboxContinuationRecord c None "" false))
    (Hvalid : validateContinuation c = Ok tt) (Hhandler : TrimSpace (cn_HandlerCheckpointReference c) <> "")
    (Hrec : m_Records (stateOf m) !! cn_MessageID c = Some rec) (Hheld : resumable w c rec = true)
    (Hplan : is_Some (ev_HostPlanBinding (mr_Envelope rec)))
    (Hreq : requests req c) (Hload : loadedAt < cn_ExpiresAt c) (Htime : inTime (su_clock u) c)
    (Hcache : honest m (cn_MessageID c)) (Halone : alone u) (Hduring : Forall onlyTicks during)
    (Hrevalidate : revalidate c = None)
    (Hanswer : invokeContinuationWorkerResumer (resumer c (cloneRecord rec)) = (None, answer)) :
  exists m' outcome rec',
    ResumeHandlerContinuation w u during loadedAt revalidate resumer m req = (m', true, Ok outcome)
    /\ m_Records (stateOf m') !! cn_MessageID c = Some rec'
    /\ mr_State rec' = settlement (m_Policy (stateOf m')) w answer (mr_DeliveryAttempt rec')
    /\ HostPlanOutcomeFromRecord rec' = Ok outcome
    /\ phaseIn (stateOf m') (cf_CheckpointID (cn_Ref c)) = Finished c (requestIdentity req) outcome.
Proof.
  destruct (NewWorker_consumer _ _ _ Hworker) as [Ht _].
  destruct (resumable_holds w c (stateOf m) rec Hsound Ht Hrec Hheld) as [Hsame _].
  assert (Hl : LoadHostPlanContinuation loadedAt m (rr_Ref req) = Ok c).
  { unfold LoadHostPlanContinuation. rewrite law_snapshot. change (abs (mx_store m)) with (stateOf m).
    pose proof (rq_valid _ _ Hreq) as Hv. unfold validateResumeRequest in Hv. apply bind_unit_ok in Hv as [-> _].
    cbn [result_bind snapshot sn_Continuations]. rewrite (rq_ref _ _ Hreq), Hsaved. cbn. rewrite str_eqb_refl.
    unfold Before. apply Z.ltb_lt in Hload as ->. by rewrite Hvalid. }
  unfold ResumeHandlerContinuation. rewrite Hl, (proj2 (str_eqb_neq _ _) Hhandler), Hrevalidate.
  unfold claimForResume. rewrite (proj2 (Halone 0%nat)).
  destruct (Claim_granted req c rec Hreq (su_env u 0%nat) (su_clock u) m) as (m1 & -> & [S1 R1 P1 C1] & H1);
    [apply Halone | done..|]. cbn [option_bind mbind newClaim rc_Result]. rewrite (proj2 (Halone 1%nat)).
  fold (newClaim req c).
  destruct (Mark_running req c Hreq (su_env u 1%nat) m1) as (m2 & v & -> & [S2 R2 P2 C2] & H2); [apply Halone | done..|].
  apply (resumeClaimed_settles w u during resumer m2 req c rec answer); try done.
  - intros items. rewrite C2, C1. intros Hi. apply Hcache in Hi as ->. unfold snapshot. cbn [sn_Records]. by rewrite R2, R1.
  - by rewrite R2, R1.
Qed.

(** C23: whatever happened to a mailbox, its snapshot restores: after any calls on messages
    and continuations, with writes that fail or succeed, restoring the snapshot into any
    store is accepted and gives the same records, queue, idempotency index, history,
    continuations and policy. In particular the clone that every operation on
    continuations begins with is never refused. *)
Theorem every_snapshot_restores {order : RangeOrder} {codec : ContinuationCodec} {qcodec : QueryCodec}
    {T : Type} {MS : MailboxStore T} {CS : ContinuationStore T} {AB : Abstracts T}
    {L : StoreLaws T} {CL : ContinuationLaws T}
    (store : T) (observers : nat) (sid backend : string) (p : Policy) (calls : list (MailboxEnv * ccall))
    (Hnew : abs store = newMailboxState sid backend p) (Hsource : sourceValid HistoryVersion sid = true)
    (Hclock : Forall (fun c => me_wall c.1 <> 0 /\ clockRuns c.2) calls) :
  let s := stateOf (continuationCalls (New store observers) calls) in
  forall (sid' : string) (target : mailboxState),
  exists s', restore sid' target (snapshot s) = Ok s'
  /\ m_Records s' = m_Records s /\ m_Queue s' = m_Queue s /\ m_Idempotency s' = m_Idempotency s
  /\ m_History s' = m_History s /\ m_Continuations s' = m_Continuations s /\ m_Policy s' = m_Policy s.
Proof.
  intros s sid' target. assert (Hs : sound s).
  { apply continuationCalls_sound; [done|]. unfold stateOf, New. cbn [mx_store]. rewrite law_tracing, Hnew.
    destruct (_ <? _)%nat; (split; [apply newMailboxState_inv | apply newHistoryJournal_ok | exact Hsource]). }
  rewrite restore_snapshot by apply Hs. eexists. split; [done|]. done.
Qed.

(** ** Witnesses *)

#[local] Instance demoOrder : RangeOrder := listing_order.

Definition demoEmpty : FileStore :=
  mkFileStore false false (newMailboxState "SRC" "file" demoPolicy) (mkFileStoreOptions 0 1) 0 0 None.

(** The calls that lead to [demoPaused], one by one. *)
Definition demoPausingCalls : list (MailboxEnv * ccall) :=
  [(demoMailboxEnv t0, OnMessage (FPublish (hostPlanEnvelope (demoPlan "m1"))));
   (demoMailboxEnv t0, OnMessage (FPublish (hostPlanEnvelope (demoPlan "m2"))));
   (demoMailboxEnv (t0 + Second), OnMessage (FConsume "w5" DefaultWorkerInflightTimeout true));
   (demoMailboxEnv (t0 + 6 * Second), OnMessage (FHeartbeat "m1" "w5" DefaultWorkerInflightTimeout));
   (demoMailboxEnv (t0 + 7 * Second), OnSave (demoClock 7) demoSaved)].

Lemma demoPausingCalls_run : Forall (fun c => me_wall c.1 <> 0 /\ clockRuns c.2) demoPausingCalls.
Proof. repeat (constructor; [split; [vm_compute; discriminate | try exact I; intros i; vm_compute; discriminate]|]). constructor. Qed.

Lemma every_snapshot_restores_witness :
  exists s', restore "RND" (newMailboxState "SRC" "memory" demoPolicy)
               (snapshot (stateOf (continuationCalls (New demoEmpty 0) demoPausingCalls))) = Ok s'
  /\ m_Continuations s' = m_Continuations (stateOf (continuationCalls (New demoEmpty 0) demoPausingCalls)).
Proof.
  destruct (every_snapshot_restores demoEmpty 0 "SRC" "file" demoPolicy demoPausingCalls eq_refl
    ltac:(vm_compute; reflexivity) demoPausingCalls_run "RND" (newMailboxState "SRC" "memory" demoPolicy))
    as (s' & H1 & _ & _ & _ & _ & H2 & _).
  exact (ex_intro _ s' (conj H1 H2)).
Defined.

Lemma demoPaused_sound : sound (stateOf demoPaused).
Proof.
  assert (E : stateOf demoPaused = stateOf (continuationCalls (New demoEmpty 0) demoPausingCalls))
    by (vm_compute; reflexivity).
  rewrite E. apply continuationCalls_sound; [apply demoPausingCalls_run|].
  split; [apply newMailboxState_inv | apply newHistoryJournal_ok | vm_compute; reflexivity].
Qed.

(** The resumption at [t0 + 60s]; the resumer succeeds. *)
Definition demoSchedule : Schedule FileStore :=
  mkSchedule (fun _ => demoMailboxEnv (t0 + 60 * Second)) (demoClock 60) (fun _ m => m).

Definition demoRecord : MessageRecord :=
  default (mkMessageRecord (demoEnvelope "") StateQueued "" "" "" 0 "" 0 0 0 0 "" "" 0 0)
    (m_Records (stateOf demoPaused) !! "m1").

Lemma demoResume_requests : requests (demoResume "k1") demoSaved.
Proof. split; try reflexivity; vm_compute; reflexivity. Qed.

Lemma paused_delivery_resumes_witness :
  exists m' outcome,
    ResumeHandlerContinuation (demoWorker "nack" "w5") demoSchedule [Tick (demoMailboxEnv (t0 + 65 * Second))]
      (t0 + 60 * Second) (fun _ => None) (fun _ _ => HandlerReturned None None) demoPaused (demoResume "k1")
    = (m', true, Ok outcome).
Proof.
  destruct (paused_delivery_resumes (demoConfig "nack") "w5" (demoWorker "nack" "w5") demoSchedule
    [Tick (demoMailboxEnv (t0 + 65 * Second))] (t0 + 60 * Second) (fun _ => None)
    (fun _ _ => HandlerReturned None None) demoPaused (demoResume "k1") demoSaved demoRecord HandlerDone
    (demo_workers "nack" (or_introl eq_refl)) demoPaused_sound) as (m' & outcome & _ & H & _).
  - vm_compute. reflexivity.
  - vm_compute. reflexivity.
  - vm_compute. discriminate.
  - vm_compute. reflexivity.
  - vm_compute. reflexivity.
  - exists (demoPlan "m1"). vm_compute. reflexivity.
  - exact demoResume_requests.
  - vm_compute. reflexivity.
  - split; [vm_compute; reflexivity | left; vm_compute; reflexivity].
  - intros items. vm_compute. discriminate.
  - intros k. split; [split; [reflexivity | vm_compute; discriminate] | reflexivity].
  - constructor; [|constructor]. split; [reflexivity | vm_compute; discriminate].
  - reflexivity.
  - reflexivity.
  - exact (ex_intro _ m' (ex_intro _ outcome H)).
Defined.
