(* ===== verification/TopoSort.v ===== *)
(** * Topological orders

    A reference for the planners: always take the smallest node whose
    dependencies are all taken. The order it gives puts dependencies first, and
    it is complete exactly when the dependencies have no cycle. Also what one
    round of Kahn's algorithm changes, for any implementation of it. *)
From S2P Require Import Prelude GoStrings.

Local Open Scope list_scope.

(** ** Counters *)

(** One less for every node of the list. *)
Definition decrement (deg : gmap string Z) (l : list string) : gmap string Z :=
  foldl (fun deg to => <[to := (default 0 (deg !! to) - 1)%Z]> deg) deg l.

Lemma decrement_lookup deg l x :
  NoDup l ->
  decrement deg l !! x = if decide (x ∈ l) then Some (default 0 (deg !! x) - 1)%Z else deg !! x.
Proof.
  revert deg. induction l as [|y l IH]; intros deg Hnd; cbn.
  - by rewrite decide_False by apply not_elem_of_nil.
  - apply NoDup_cons in Hnd as [Hy Hnd]. unfold decrement in IH. rewrite (IH _ Hnd).
    destruct (decide (x = y)) as [->|Hne].
    + rewrite decide_False by done. rewrite decide_True by (by left). apply lookup_insert_eq.
    + rewrite lookup_insert_ne by done. destruct (decide (x ∈ l)), (decide (x ∈ y :: l)); set_solver.
Qed.

Lemma released_others (deg : gmap string Z) x n (next : list string) :
  x ∉ next ->
  filter (fun y => default 0 (<[x := n]> deg !! y) = 1)%Z next = filter (fun y => default 0 (deg !! y) = 1)%Z next.
Proof. intros Hx. apply filter_ext_elem. intros y Hy. by rewrite lookup_insert_ne by (by intros ->). Qed.

(** ** Edges

    The edges of a list of nodes with ids and dependencies. *)
Section edges.
Context {A : Type} (idOf : A -> string) (depsOfA : A -> list string).

Definition edgesOf (l : list A) : list (string * string) := s ← l; (fun d => (d, idOf s)) <$> depsOfA s.

Lemma edgesOf_targets l id :
  NoDup (idOf <$> l) -> (forall s, s ∈ l -> NoDup (depsOfA s)) ->
  NoDup (filter (fun e => e.1 = id) (edgesOf l)).*2 /\
  forall x, x ∈ (filter (fun e => e.1 = id) (edgesOf l)).*2 <-> exists s, s ∈ l /\ idOf s = x /\ id ∈ depsOfA s.
Proof.
  intros Hids Hd.
  assert (Hin : forall l x, x ∈ (filter (fun e => e.1 = id) (edgesOf l)).*2
                       <-> exists s, s ∈ l /\ idOf s = x /\ id ∈ depsOfA s).
  { clear. intros l x. unfold edgesOf. rewrite list_elem_of_fmap. split.
    - intros ([d y] & -> & [Hd (s & Hy & Hs)%list_elem_of_bind]%list_elem_of_filter). cbn in *. subst d.
      apply list_elem_of_fmap in Hy as (d & [= -> ->] & Hd). eauto.
    - intros (s & Hs & <- & Hd). exists (id, idOf s). split; [done|]. apply list_elem_of_filter. split; [done|].
      apply list_elem_of_bind. exists s. split; [|done]. apply list_elem_of_fmap. eauto. }
  split; [|apply Hin]. unfold edgesOf in *. induction l as [|s l IH]; cbn; [apply NoDup_nil_2|].
  apply NoDup_cons in Hids as [Hs Hids]. rewrite filter_app, fmap_app. apply NoDup_app. split_and!.
  - specialize (Hd s ltac:(by left)). clear -Hd. induction (depsOfA s) as [|d ds IH]; [apply NoDup_nil_2|].
    apply NoDup_cons in Hd as [Hd Hds]. rewrite fmap_cons, filter_cons. cbn [fst]. destruct (decide (d = id)) as [->|]; [|by apply IH].
    cbn. apply NoDup_cons. split; [|by apply IH].
    intros ([d y] & -> & [Hd1 (d2 & [= ->] & Hd2)%list_elem_of_fmap]%list_elem_of_filter)%list_elem_of_fmap.
    cbn in *. by subst.
  - intros x ([d y] & -> & [_ (d2 & [= -> ->] & _)%list_elem_of_fmap]%list_elem_of_filter)%list_elem_of_fmap.
    cbn. intros (s' & Hs' & He & _)%Hin. apply Hs. rewrite <-He. by apply list_elem_of_fmap_2.
  - apply IH; [done|]. intros s' Hs'. apply Hd. by right.
Qed.

Lemma edgesOf_count l s :
  NoDup (idOf <$> l) -> s ∈ l -> length (filter (fun e => e.2 = idOf s) (edgesOf l)) = length (depsOfA s).
Proof.
  intros Hids Hs. unfold edgesOf. induction l as [|s' l IH]; cbn; [by apply not_elem_of_nil in Hs|].
  apply NoDup_cons in Hids as [Hs' Hids]. rewrite filter_app, length_app.
  assert (Hall : forall x ds, length (filter (fun e : string * string => e.2 = x) ((fun d => (d, x)) <$> ds)) = length ds).
  { intros x ds. induction ds as [|d ds IHd]; [done|]. rewrite fmap_cons, filter_cons, decide_True by done. cbn. by rewrite IHd. }
  assert (Hnone : forall x y ds, x <> y -> filter (fun e : string * string => e.2 = x) ((fun d => (d, y)) <$> ds) = []).
  { intros x y ds Hne. induction ds as [|d ds IHd]; [done|]. by rewrite fmap_cons, filter_cons, decide_False by done. }
  apply elem_of_cons in Hs as [->|Hs].
  - rewrite Hall. assert (E : filter (fun e : string * string => e.2 = idOf s') (l ≫= fun s => (fun d => (d, idOf s)) <$> depsOfA s) = []).
    { apply filter_none. intros [d y] (s & Hy & Hsl)%list_elem_of_bind.
      apply list_elem_of_fmap in Hy as (d' & [= -> ->] & _). cbn. intros He. apply Hs'. rewrite <-He.
      by apply list_elem_of_fmap_2. }
    rewrite E. cbn. lia.
  - rewrite Hnone, IH by (try done; intros He; apply Hs'; rewrite <-He; by apply list_elem_of_fmap_2). done.
Qed.
End edges.

Section topo.
Context (ids : list string) (deps : string -> list string).

(** ** The reference *)

Definition available (order : list string) (x : string) : Prop :=
  (x ∉ order) /\ Forall (fun d => d ∈ order) (deps x).

#[export] Instance available_dec order x : Decision (available order x).
Proof. unfold available. apply _. Defined.

Definition readyOf (order : list string) : list string := sort_strings (filter (available order) ids).

Fixpoint greedy (fuel : nat) (order : list string) : list string :=
  match fuel, readyOf order with
  | S fuel, x :: _ => greedy fuel (order ++ [x])
  | _, _ => order
  end.

Definition topoOrder : list string := greedy (length ids) [].

(** ** Soundness *)

(** Every node comes after its dependencies, and once. *)
Definition layered (order : list string) : Prop :=
  forall l1 x l2, order = l1 ++ x :: l2 -> x ∈ ids /\ (x ∉ l1) /\ Forall (fun d => d ∈ l1) (deps x).

Lemma layered_nil : layered [].
Proof. by intros [|? ?] x l2. Qed.

Lemma layered_snoc order x :
  layered order -> x ∈ ids -> available order x -> layered (order ++ [x]).
Proof.
  intros Ho Hx [Hn Hd] l1 y l2 E.
  destruct l2 as [|z l2 _] using rev_ind.
  - apply app_inj_tail in E as [-> ->]. auto.
  - rewrite app_comm_cons, app_assoc in E. apply app_inj_tail in E as [-> ->]. by eapply Ho.
Qed.

Lemma layered_elem order x : layered order -> x ∈ order -> x ∈ ids /\ Forall (fun d => d ∈ order) (deps x).
Proof.
  intros Ho (l1 & l2 & ->)%list_elem_of_split. destruct (Ho l1 x l2 eq_refl) as (Hx & _ & Hd).
  split; [done|]. eapply Forall_impl; [exact Hd|]. set_solver.
Qed.

Lemma layered_NoDup order : layered order -> NoDup order.
Proof.
  induction order as [|x order IH] using rev_ind; intros Ho; [apply NoDup_nil_2|].
  destruct (Ho order x [] eq_refl) as (_ & Hn & _). apply NoDup_app. split_and!.
  - apply IH. intros l1 y l2 ->. apply (Ho l1 y (l2 ++ [x])). by rewrite <-app_assoc.
  - intros y Hy ->%list_elem_of_singleton. done.
  - apply NoDup_singleton.
Qed.

Lemma elem_of_readyOf order x : x ∈ readyOf order <-> x ∈ ids /\ available order x.
Proof. unfold readyOf. rewrite elem_of_sort_strings, list_elem_of_filter. tauto. Qed.

Lemma readyOf_cons order x l : readyOf order = x :: l -> x ∈ ids /\ available order x.
Proof. intros E. apply elem_of_readyOf. rewrite E. by left. Qed.

Lemma greedy_layered fuel order : layered order -> layered (greedy fuel order).
Proof.
  revert order. induction fuel as [|fuel IH]; intros order Ho; cbn; [done|].
  destruct (readyOf order) as [|x l] eqn:E; [done|].
  apply IH. destruct (readyOf_cons _ _ _ E). by apply layered_snoc.
Qed.

Lemma topoOrder_layered : layered topoOrder.
Proof. apply greedy_layered, layered_nil. Qed.

(** ** Completeness *)

(** No infinite descent through dependencies, hence no cycle. *)
Definition grounded (x : string) : Prop := Acc (fun d y => d ∈ deps y) x.

Section complete.
Hypothesis closed : forall x d, x ∈ ids -> d ∈ deps x -> d ∈ ids.

Lemma grounded_available order x :
  grounded x -> x ∈ ids -> x ∉ order -> exists y, y ∈ ids /\ available order y.
Proof.
  induction 1 as [x _ IH]. intros Hx Hn.
  destruct (decide (Forall (fun d => d ∈ order) (deps x))) as [Hd|Hd]; [by exists x|].
  apply not_Forall_Exists in Hd; [|apply _]. apply Exists_exists in Hd as (d & Hd & Hnd).
  apply (IH d Hd); [by eapply closed | done].
Qed.

Lemma greedy_complete fuel order :
  (forall x, x ∈ ids -> grounded x) -> layered order -> NoDup ids ->
  (length ids <= fuel + length order)%nat -> greedy fuel order ≡ₚ ids.
Proof.
  intros Hg. revert order. induction fuel as [|fuel IH]; intros order Ho Hnd Hf.
  - apply submseteq_length_Permutation; [|cbn in *; lia].
    apply NoDup_submseteq; [by apply layered_NoDup|]. intros x Hx. by apply (layered_elem order).
  - cbn. destruct (readyOf order) as [|x l] eqn:E.
    + apply NoDup_Permutation; [by apply layered_NoDup | done|]. intros x. split.
      * intros Hx. by apply (layered_elem order).
      * intros Hx. destruct (decide (x ∈ order)) as [|Hn]; [done|].
        destruct (grounded_available order x (Hg x Hx) Hx Hn) as (y & Hy & Ha).
        assert (Hin : y ∈ readyOf order) by (by apply elem_of_readyOf). rewrite E in Hin.
        by apply not_elem_of_nil in Hin.
    + destruct (readyOf_cons _ _ _ E). apply IH; [by apply layered_snoc | done|].
      rewrite length_app. cbn. lia.
Qed.

Lemma layered_grounded order x : layered order -> x ∈ order -> grounded x.
Proof.
  intros Ho. revert x. induction order as [|y order IH] using rev_ind; intros x Hx.
  - by apply not_elem_of_nil in Hx.
  - assert (Ho' : layered order).
    { intros l1 z l2 ->. apply (Ho l1 z (l2 ++ [y])). by rewrite <-app_assoc. }
    apply elem_of_app in Hx as [Hx | ->%list_elem_of_singleton]; [by apply IH|].
    destruct (Ho order y [] eq_refl) as (_ & _ & Hd). constructor. intros d Hdd.
    apply IH; [done|]. rewrite Forall_forall in Hd. by apply Hd.
Qed.

Lemma layered_full order :
  NoDup ids -> layered order -> length order = length ids -> order ≡ₚ ids.
Proof.
  intros Hnd Ho Hl. apply submseteq_length_Permutation; [|lia].
  apply NoDup_submseteq; [by apply layered_NoDup|]. intros x Hx. by apply (layered_elem order).
Qed.

(** The reference takes every node exactly when there is no cycle. *)
Lemma topoOrder_complete :
  NoDup ids -> (length topoOrder = length ids <-> forall x, x ∈ ids -> grounded x).
Proof.
  intros Hnd. split.
  - intros Hl x Hx. apply (layered_grounded topoOrder); [apply topoOrder_layered|].
    by rewrite (layered_full _ Hnd topoOrder_layered Hl).
  - intros Hg. by rewrite (greedy_complete (length ids) [] Hg layered_nil Hnd) by (cbn; lia).
Qed.

End complete.

(** ** One round of Kahn's algorithm *)

Hypothesis unique : forall x, x ∈ ids -> NoDup (deps x).

(** The dependencies of a node that are not taken yet. *)
Definition missing (order : list string) (x : string) : nat :=
  length (filter (fun d => d ∉ order) (deps x)).

Lemma missing_zero order x : missing order x = 0%nat <-> Forall (fun d => d ∈ order) (deps x).
Proof.
  unfold missing. induction (deps x) as [|d l IH]; [by rewrite Forall_nil|].
  rewrite Forall_cons, filter_cons, <-IH. destruct (decide (d ∉ order)) as [Hd|Hd]; cbn.
  - split; [done|]. by intros [? _].
  - apply dec_stable in Hd. tauto.
Qed.

(** Taking [id] leaves its dependents one dependency less. *)
Lemma missing_snoc order id x :
  x ∈ ids -> id ∉ order ->
  missing order x = (missing (order ++ [id]) x + if decide (id ∈ deps x) then 1 else 0)%nat.
Proof.
  intros Hx Hid. pose proof (unique x Hx) as Hnd. unfold missing.
  induction (deps x) as [|d l IH]; [done|]. apply NoDup_cons in Hnd as [Hdl Hnd].
  specialize (IH Hnd). rewrite !filter_cons.
  destruct (decide (d = id)) as [->|Hne].
  - rewrite (decide_True (P := id ∉ order)) by done.
    rewrite (decide_False (P := id ∉ order ++ [id])) by set_solver.
    rewrite (decide_True (P := id ∈ id :: l)) by set_solver.
    rewrite (decide_False (P := id ∈ l)) in IH by done. cbn. lia.
  - assert (E : d ∉ order ++ [id] <-> d ∉ order).
    { rewrite elem_of_app, list_elem_of_singleton. tauto. }
    destruct (decide (d ∉ order)) as [Hd|Hd].
    + rewrite (decide_True (P := d ∉ order ++ [id])) by tauto. cbn.
      rewrite IH. destruct (decide (id ∈ l)), (decide (id ∈ d :: l)); cbn; first [lia | set_solver].
    + rewrite (decide_False (P := d ∉ order ++ [id])) by tauto.
      rewrite IH. destruct (decide (id ∈ l)), (decide (id ∈ d :: l)); cbn; first [lia | set_solver].
Qed.

(** The ready nodes after [id] was taken: the others, and the dependents of [id]
    that missed nothing else. *)
Lemma ready_round order id rest next :
  NoDup ids -> layered order -> readyOf order = id :: rest -> NoDup next ->
  (forall x, x ∈ next <-> x ∈ ids /\ id ∈ deps x) ->
  readyOf (order ++ [id]) = sort_strings (rest ++ filter (fun x => missing order x = 1%nat) next).
Proof.
  intros Hids Ho Hr Hnext Hin. unfold readyOf at 1. apply sort_strings_order_irrelevant.
  destruct (readyOf_cons _ _ _ Hr) as [Hid [Hno Hdid]].
  assert (Hrnd : NoDup (id :: rest)).
  { rewrite <-Hr. apply NoDup_sort_strings, NoDup_filter, Hids. }
  apply NoDup_cons in Hrnd as [Hidr Hrnd].
  assert (Hrest : forall x, x ∈ rest <-> x <> id /\ x ∈ ids /\ available order x).
  { intros x. rewrite <-elem_of_readyOf, Hr, elem_of_cons. split; [|tauto].
    intros Hx. split; [|by right]. by intros ->. }
  assert (Hdep : forall x, id ∈ deps x -> (x ∉ order) /\ ~ Forall (fun d => d ∈ order) (deps x)).
  { intros x Hd. split.
    - intros Hx. apply (layered_elem order) in Hx as [_ Hx]; [|done]. rewrite Forall_forall in Hx. auto.
    - intros Hx. rewrite Forall_forall in Hx. auto. }
  apply NoDup_Permutation.
  - by apply NoDup_filter.
  - apply NoDup_app. split_and!; [done| |by apply NoDup_filter].
    intros x [_ [_ [_ Hx]]]%Hrest [_ [_ Hd]%Hin]%list_elem_of_filter. by destruct (Hdep x Hd).
  - intros x. rewrite list_elem_of_filter, elem_of_app, Hrest, list_elem_of_filter, Hin.
    unfold available. rewrite elem_of_app, list_elem_of_singleton, <-!missing_zero.
    destruct (decide (x ∈ ids)) as [Hx|]; [|tauto].
    rewrite (missing_snoc order id x Hx Hno). destruct (decide (id ∈ deps x)) as [Hd|Hd].
    + destruct (Hdep x Hd) as [Hxo _].
      assert (Hxid : x <> id) by (intros ->; by destruct (Hdep id Hd)).
      split; [intros [[H1 H2] _]; right; split; [lia|tauto] | ].
      intros [[_ [_ [_ H]]]|[H _]]; [lia|]. split_and!; [tauto | lia | done].
    + rewrite Nat.add_0_r. tauto.
Qed.

(** ** The state of Kahn's algorithm *)

(** The counters of the nodes not taken yet. *)
Definition counts (deg : gmap string Z) (order : list string) : Prop :=
  forall x, x ∈ ids -> x ∉ order -> deg !! x = Some (Z.of_nat (missing order x)).

(** The map of the dependents of each node. *)
Definition edges_to (edges : gmap string (list string)) : Prop :=
  forall id, NoDup (default [] (edges !! id)) /\
    forall x, x ∈ default [] (edges !! id) <-> x ∈ ids /\ id ∈ deps x.

Lemma kahn_round deg order id rest next :
  NoDup ids -> layered order -> counts deg order -> readyOf order = id :: rest -> NoDup next ->
  (forall x, x ∈ next <-> x ∈ ids /\ id ∈ deps x) ->
  counts (decrement deg next) (order ++ [id])
  /\ readyOf (order ++ [id]) = sort_strings (rest ++ filter (fun x => default 0%Z (deg !! x) = 1%Z) next).
Proof.
  intros Hids Ho Hc Hr Hnext Hin. destruct (readyOf_cons _ _ _ Hr) as [Hid [Hno _]]. split.
  - intros x Hx Hxo. rewrite elem_of_app, list_elem_of_singleton in Hxo. rewrite decrement_lookup by done.
    assert (Hxo' : x ∉ order) by tauto. specialize (Hc x Hx Hxo'). rewrite (missing_snoc order id x Hx Hno) in Hc.
    destruct (decide (id ∈ deps x)) as [Hd|Hd].
    + rewrite decide_True by (by apply Hin). rewrite Hc. cbn. f_equal. lia.
    + rewrite decide_False by (rewrite Hin; tauto). rewrite Hc. f_equal. lia.
  - rewrite (ready_round order id rest next) by done. do 2 f_equal. apply filter_ext_elem.
    intros x [Hx Hd]%Hin. rewrite Hc; [cbn; lia | done|].
    intros Hxo. apply (layered_elem order) in Hxo as [_ Hxo]; [|done]. rewrite Forall_forall in Hxo. auto.
Qed.

Lemma kahn_start deg :
  NoDup ids -> (forall x, is_Some (deg !! x) <-> x ∈ ids) -> counts deg [] ->
  sort_strings (map_to_list (filter (fun kv => kv.2 = 0%Z) deg)).*1 = readyOf [].
Proof.
  intros Hids Hdom Hc. apply sort_strings_order_irrelevant, NoDup_Permutation.
  - apply NoDup_fst_map_to_list.
  - by apply NoDup_filter.
  - intros x. rewrite list_elem_of_fmap, list_elem_of_filter. unfold available. split.
    + intros ([y n] & -> & Hy%elem_of_map_to_list). apply map_lookup_filter_Some in Hy as [Hy Hz]. cbn in *.
      assert (Hx : y ∈ ids) by (apply Hdom; eauto).
      rewrite Hc in Hy by (done || apply not_elem_of_nil). split; [|done]. split; [apply not_elem_of_nil|].
      apply missing_zero. simplify_eq. lia.
    + intros [[_ Hd] Hx]. apply missing_zero in Hd. exists (x, 0%Z). split; [done|].
      apply elem_of_map_to_list, map_lookup_filter_Some. split; [|done].
      rewrite Hc by (done || apply not_elem_of_nil). by rewrite Hd.
Qed.

(** The reference has no node left to take once it took all of them. *)
Lemma readyOf_full order :
  NoDup ids -> layered order -> (length ids <= length order)%nat -> readyOf order = [].
Proof.
  intros Hids Ho Hl. destruct (readyOf order) as [|x l] eqn:E; [done|].
  apply readyOf_cons in E as [Hx [Hn _]]. exfalso.
  assert (Hle : (length order <= length ids)%nat).
  { apply submseteq_length, NoDup_submseteq; [by apply layered_NoDup|]. intros y Hy. by apply (layered_elem order). }
  apply Hn. by rewrite (layered_full order Hids Ho ltac:(lia)).
Qed.

End topo.

(** The reference only reads the set of nodes and the sets of dependencies. *)
Lemma greedy_ext ids1 ids2 deps1 deps2 fuel order :
  ids1 ≡ₚ ids2 -> (forall x d, x ∈ ids1 -> d ∈ deps1 x <-> d ∈ deps2 x) ->
  greedy ids1 deps1 fuel order = greedy ids2 deps2 fuel order.
Proof.
  intros Hids Hdeps. revert order. induction fuel as [|fuel IH]; intros order; [done|]. cbn.
  assert (E : readyOf ids1 deps1 order = readyOf ids2 deps2 order).
  { apply sort_strings_order_irrelevant. rewrite <-Hids. apply reflexive_eq, filter_ext_elem.
    intros x Hx. unfold available. rewrite !Forall_forall. apply and_iff_compat_l, forall_proper. intros d.
    by rewrite Hdeps. }
  rewrite E. destruct (readyOf ids2 deps2 order); [done | apply IH].
Qed.

Lemma topoOrder_ext ids1 ids2 deps1 deps2 :
  ids1 ≡ₚ ids2 -> (forall x d, x ∈ ids1 -> d ∈ deps1 x <-> d ∈ deps2 x) ->
  topoOrder ids1 deps1 = topoOrder ids2 deps2.
Proof.
  intros Hids Hdeps. unfold topoOrder. rewrite (Permutation_length Hids). by apply greedy_ext.
Qed.
