(* ===== verification/WorkflowTypes.v ===== *)
(** * Workflow: data and normalisation

    The types of [orchestration/workflow/engine.go] and
    [legacy_checkpoint.go], and the normalisation of a definition. A step kind
    and a condition are open strings in the source, checked by
    [ValidateDefinition]. The [range] order of the maps is a parameter, since
    two keys that differ by surrounding spaces compete for one entry. *)
From S2P Require Import Prelude GoStrings GoNum CoreTypes.

Local Open Scope bool_scope.
Local Open Scope string_scope.
Local Open Scope list_scope.
Local Open Scope Z_scope.

Definition ReasonSchedule := "workflow.schedule".
Definition ReasonRetry := "workflow.retry".
Definition ReasonResume := "workflow.resume".
Definition ReasonDispatchA2A := "workflow.dispatch_a2a".
Definition ReasonHandoff := "workflow.handoff".
Definition ReasonDelegation := "workflow.delegation".
Definition ReasonAggregation := "workflow.aggregation".

Inductive StepStatus : Type :=
| StepStatusPending
| StepStatusRunning
| StepStatusSucceeded
| StepStatusFailed
| StepStatusSkipped
| StepStatusCanceled
| StepStatusOther (s : string).

#[export] Instance StepStatus_eq_dec : EqDecision StepStatus.
Proof. solve_decision. Defined.

Definition StepStatus_string (st : StepStatus) : string :=
  match st with
  | StepStatusPending => "pending"
  | StepStatusRunning => "running"
  | StepStatusSucceeded => "succeeded"
  | StepStatusFailed => "failed"
  | StepStatusSkipped => "skipped"
  | StepStatusCanceled => "canceled"
  | StepStatusOther s => s
  end.

Definition StepKindRunner := "runner".
Definition StepKindTool := "tool".
Definition StepKindMCP := "mcp".
Definition StepKindSkill := "skill".
Definition StepKindA2A := "a2a".
Definition stepKinds : list string :=
  [StepKindRunner; StepKindTool; StepKindMCP; StepKindSkill; StepKindA2A].

Definition ConditionAlways := "always".
Definition ConditionOnSuccess := "on_success".
Definition ConditionOnFailure := "on_failure".
Definition stepConditions : list string := [ConditionAlways; ConditionOnSuccess; ConditionOnFailure].

Inductive ValidationErrorCode : Type :=
| ErrCodeWorkflowIDRequired
| ErrCodeStepIDRequired
| ErrCodeDuplicateStepID
| ErrCodeMissingDependency
| ErrCodeDependencyCycle
| ErrCodeUnsupportedCondition
| ErrCodeUnsupportedStepKind
| ErrCodeInvalidRetryMaxAttempts
| ErrCodeInvalidRetryBackoff
| ErrCodeInvalidStepTimeout
| ErrCodeA2AAgentIDRequired
| ErrCodeA2APeerIDRequired
| ErrCodeNoSteps
| ErrCodeGraphComposabilityDisabled
| ErrCodeSubgraphNotFound
| ErrCodeSubgraphDepthExceeded
| ErrCodeSubgraphCycle
| ErrCodeSubgraphAliasCollision
| ErrCodeExpandedStepIDCollision
| ErrCodeConditionTemplateNotFound
| ErrCodeConditionTemplateVarMissing
| ErrCodeConditionTemplateScope
| ErrCodeSubgraphOverrideForbidden
| ErrCodeSubgraphOverrideStepMissing.

#[export] Instance ValidationErrorCode_eq_dec : EqDecision ValidationErrorCode.
Proof. solve_decision. Defined.

(** The message, a rendering of the other fields, is left out. *)
Record ValidationError : Type := mkValidationError {
  ve_Code : ValidationErrorCode;
  ve_StepID : string;
  ve_Field : string
}.

#[export] Instance ValidationError_eq_dec : EqDecision ValidationError.
Proof. solve_decision. Defined.

Abbreviation ValidationErrors := (list ValidationError).

Record Retry : Type := mkRetry {
  re_MaxAttempts : Z;
  re_Backoff : Duration
}.

Record StepOverride : Type := mkStepOverride {
  so_Retry : option Retry;
  so_Timeout : option Duration;
  so_Kind : option string
}.

Record Step : Type := mkStep {
  sp_StepID : string;
  sp_Step : string;
  sp_TaskID : string;
  sp_TeamID : string;
  sp_AgentID : string;
  sp_PeerID : string;
  sp_Kind : string;
  sp_DependsOn : list string;
  sp_Condition : string;
  sp_Retry : Retry;
  sp_Timeout : Duration;
  sp_Payload : any_map;
  sp_CollabPrimitive : string;
  sp_UseSubgraph : string;
  sp_Alias : string;
  sp_ConditionTemplate : string;
  sp_TemplateVars : gmap string string;
  sp_Overrides : gmap string StepOverride
}.
#[export] Instance eta_Step : Settable Step := fun r =>
  mkStep (sp_StepID r) (sp_Step r) (sp_TaskID r) (sp_TeamID r) (sp_AgentID r) (sp_PeerID r)
    (sp_Kind r) (sp_DependsOn r) (sp_Condition r) (sp_Retry r) (sp_Timeout r) (sp_Payload r)
    (sp_CollabPrimitive r) (sp_UseSubgraph r) (sp_Alias r) (sp_ConditionTemplate r)
    (sp_TemplateVars r) (sp_Overrides r).

(** [Definition]; a [Subgraph] is its list of steps. *)
Record WorkflowDefinition : Type := mkWorkflowDefinition {
  wd_WorkflowID : string;
  wd_Steps : list Step;
  wd_Subgraphs : gmap string (list Step);
  wd_ConditionTemplates : gmap string string
}.
#[export] Instance eta_WorkflowDefinition : Settable WorkflowDefinition := fun r =>
  mkWorkflowDefinition (wd_WorkflowID r) (wd_Steps r) (wd_Subgraphs r) (wd_ConditionTemplates r).

(** The payload is a map that may be nil. *)
Record StepOutput : Type := mkStepOutput {
  ou_Payload : option any_map;
  ou_EffectReference : string
}.
Definition zeroStepOutput : StepOutput := mkStepOutput None "".

Record StepResult : Type := mkStepResult {
  sr_StepID : string;
  sr_TaskID : string;
  sr_Status : StepStatus;
  sr_Attempts : Z;
  sr_Reason : string;
  sr_Error : string;
  sr_Output : StepOutput
}.
#[export] Instance eta_StepResult : Settable StepResult := fun r =>
  mkStepResult (sr_StepID r) (sr_TaskID r) (sr_Status r) (sr_Attempts r) (sr_Reason r)
    (sr_Error r) (sr_Output r).

Record CheckpointStep : Type := mkCheckpointStep {
  cs_Status : StepStatus;
  cs_Attempts : Z
}.

Record Checkpoint : Type := mkCheckpoint {
  cp_WorkflowID : string;
  cp_RunID : string;
  cp_Status : string;
  cp_ResumeCount : Z;
  cp_Steps : gmap string CheckpointStep;
  cp_UpdatedAt : Time
}.

(** ** Continuations

    [WorkflowPauseReason] is an open string in the source. *)
Definition PauseInputRequired := "input_required".
Definition PauseApprovalRequired := "approval_required".
Definition PauseBudgetExhausted := "budget_exhausted".
Definition pauseReasons : list string := [PauseInputRequired; PauseApprovalRequired; PauseBudgetExhausted].

Record PauseError : Type := mkPauseError {
  pe_Reason : string;
  pe_PendingActionReference : string;
  pe_ConsumedBudget : Z;
  pe_OriginalDeadline : Time
}.

Record WorkflowContinuationRef : Type := mkWorkflowContinuationRef {
  wr_SchemaVersion : string;
  wr_CheckpointID : string;
  wr_Digest : string;
  wr_OwnerNamespace : string;
  wr_GraphID : string;
  wr_GraphVersion : string;
  wr_RunID : string;
  wr_SessionID : string;
  wr_ParentRunID : string;
  wr_CausationID : string;
  wr_AuthorityDigest : string;
  wr_PlanDigest : string;
  wr_WriteScopeDigest : string;
  wr_EffectNamespace : string;
  wr_OccurrenceID : string;
  wr_PauseReason : string;
  wr_CreatedAt : Time;
  wr_ExpiresAt : Time
}.
#[export] Instance eta_WorkflowContinuationRef : Settable WorkflowContinuationRef := fun r =>
  mkWorkflowContinuationRef (wr_SchemaVersion r) (wr_CheckpointID r) (wr_Digest r) (wr_OwnerNamespace r)
    (wr_GraphID r) (wr_GraphVersion r) (wr_RunID r) (wr_SessionID r) (wr_ParentRunID r) (wr_CausationID r)
    (wr_AuthorityDigest r) (wr_PlanDigest r) (wr_WriteScopeDigest r) (wr_EffectNamespace r)
    (wr_OccurrenceID r) (wr_PauseReason r) (wr_CreatedAt r) (wr_ExpiresAt r).

Record WorkflowStepContinuation : Type := mkWorkflowStepContinuation {
  wc_StepID : string;
  wc_Status : StepStatus;
  wc_Attempts : Z;
  wc_ConsumedBudget : Z;
  wc_EffectReference : string;
  wc_OutputDigest : string
}.

(** [hostprojection.SourceBinding]. *)
Record SourceBinding : Type := mkSourceBinding {
  sb_Form : string;
  sb_OwnerNamespace : string;
  sb_SourceID : string;
  sb_NodeID : string;
  sb_ContinuationID : string;
  sb_ContinuationDigest : string;
  sb_Generation : Z
}.
Definition SourceFormWorkflow := "workflow".

#[export] Instance SourceBinding_eq_dec : EqDecision SourceBinding.
Proof. solve_decision. Defined.

Record WorkflowContinuation : Type := mkWorkflowContinuation {
  wf_Ref : WorkflowContinuationRef;
  wf_GraphID : string;
  wf_GraphVersion : string;
  wf_GraphDigest : string;
  wf_ParentRunID : string;
  wf_RunID : string;
  wf_SessionID : string;
  wf_CausationID : string;
  wf_AuthorityDigest : string;
  wf_PlanDigest : string;
  wf_WriteScopeDigest : string;
  wf_EffectNamespace : string;
  wf_OccurrenceID : string;
  wf_PauseReason : string;
  wf_Definition : WorkflowDefinition;
  wf_Steps : list WorkflowStepContinuation;
  wf_PendingStep : string;
  wf_PendingActionReference : string;
  wf_ConsumedBudget : Z;
  wf_OriginalDeadline : Time;
  wf_TerminalArbitrationReference : string;
  wf_PredecessorCheckpointID : string;
  wf_SuccessorCheckpointID : string;
  wf_Generation : Z;
  wf_CreatedAt : Time;
  wf_ExpiresAt : Time;
  wf_HostContextBinding : option SourceBinding
}.
#[export] Instance eta_WorkflowContinuation : Settable WorkflowContinuation := fun r =>
  mkWorkflowContinuation (wf_Ref r) (wf_GraphID r) (wf_GraphVersion r) (wf_GraphDigest r) (wf_ParentRunID r)
    (wf_RunID r) (wf_SessionID r) (wf_CausationID r) (wf_AuthorityDigest r) (wf_PlanDigest r)
    (wf_WriteScopeDigest r) (wf_EffectNamespace r) (wf_OccurrenceID r) (wf_PauseReason r) (wf_Definition r)
    (wf_Steps r) (wf_PendingStep r) (wf_PendingActionReference r) (wf_ConsumedBudget r) (wf_OriginalDeadline r)
    (wf_TerminalArbitrationReference r) (wf_PredecessorCheckpointID r) (wf_SuccessorCheckpointID r)
    (wf_Generation r) (wf_CreatedAt r) (wf_ExpiresAt r) (wf_HostContextBinding r).

Record RunResult : Type := mkRunResult {
  rr_RunID : string;
  rr_WorkflowID : string;
  rr_WorkflowStatus : string;
  rr_WorkflowStepTotal : Z;
  rr_WorkflowStepFailed : Z;
  rr_WorkflowRemoteTotal : Z;
  rr_WorkflowRemoteFailed : Z;
  rr_WorkflowSubgraphExpansionTotal : Z;
  rr_WorkflowConditionTemplateTotal : Z;
  rr_WorkflowGraphCompileFailed : bool;
  rr_WorkflowResumeCount : Z;
  rr_Steps : list StepResult;
  rr_ExecutionOrder : list string;
  rr_WorkflowCheckpoint : option WorkflowContinuationRef;
  rr_WorkflowCheckpointGeneration : Z;
  rr_WorkflowGraphDigest : string;
  rr_workflowSuccessor : option WorkflowContinuation
}.
#[export] Instance eta_RunResult : Settable RunResult := fun r =>
  mkRunResult (rr_RunID r) (rr_WorkflowID r) (rr_WorkflowStatus r) (rr_WorkflowStepTotal r)
    (rr_WorkflowStepFailed r) (rr_WorkflowRemoteTotal r) (rr_WorkflowRemoteFailed r)
    (rr_WorkflowSubgraphExpansionTotal r) (rr_WorkflowConditionTemplateTotal r)
    (rr_WorkflowGraphCompileFailed r) (rr_WorkflowResumeCount r) (rr_Steps r) (rr_ExecutionOrder r)
    (rr_WorkflowCheckpoint r) (rr_WorkflowCheckpointGeneration r) (rr_WorkflowGraphDigest r)
    (rr_workflowSuccessor r).
Definition zeroRunResult : RunResult :=
  mkRunResult "" "" "" 0 0 0 0 0 0 false 0 [] [] None 0 "" None.

Record graphCompileSummary : Type := mkGraphCompileSummary {
  gs_SubgraphExpansionTotal : Z;
  gs_ConditionTemplateTotal : Z;
  gs_GraphCompileFailed : bool
}.
#[export] Instance eta_graphCompileSummary : Settable graphCompileSummary := fun r =>
  mkGraphCompileSummary (gs_SubgraphExpansionTotal r) (gs_ConditionTemplateTotal r)
    (gs_GraphCompileFailed r).

(** ** Normalisation *)

Definition normalizeStepKind (kind : string) : string :=
  let k := lower_trim kind in if k =s? "" then StepKindRunner else k.

Definition normalizeCondition (condition : string) : string :=
  let c := lower_trim condition in if c =s? "" then ConditionAlways else c.

(** The trimmed items that are not empty, each at its first occurrence: the
    loop of [normalizeDependsOn] and both loops of [appendUniqueStrings]. *)
Definition uniqueTrimmed (out : list string) (items : list string) : list string :=
  foldl (fun out item =>
           let key := TrimSpace item in
           if key =s? "" then out
           else if bool_decide (key ∈ out) then out else out ++ [key]) out items.

Definition normalizeDependsOn (items : list string) : list string := uniqueTrimmed [] items.

(** A map rebuilt under its trimmed keys, without the empty one. *)
Definition trimKeys `{RangeOrder} {A B} (f : A -> B) (m : gmap string A) : gmap string B :=
  foldl (fun next name =>
           let key := TrimSpace name in
           if key =s? "" then next
           else match m !! name with Some v => <[key := f v]> next | None => next end)
    ∅ (range_order m).

Definition normalizeStringMap `{RangeOrder} (m : gmap string string) : gmap string string :=
  trimKeys TrimSpace m.

Definition normalizeOverrideMap `{RangeOrder} (m : gmap string StepOverride) : gmap string StepOverride :=
  trimKeys (fun o => mkStepOverride (so_Retry o) (so_Timeout o) (normalizeStepKind <$> so_Kind o)) m.

(** The id of a step: its own, else the short form, else the alias, else the
    subgraph it uses. *)
Definition resolvedStepID (s : Step) : string :=
  let id := if TrimSpace (sp_StepID s) =s? "" then TrimSpace (sp_Step s) else sp_StepID s in
  let id := TrimSpace id in
  if id =s? "" then
    if negb (TrimSpace (sp_Alias s) =s? "") then TrimSpace (sp_Alias s)
    else if negb (TrimSpace (sp_UseSubgraph s) =s? "") then TrimSpace (sp_UseSubgraph s)
    else ""
  else id.

Definition normalizeStep `{RangeOrder} (s : Step) : Step :=
  let id := resolvedStepID s in
  let task := TrimSpace (sp_TaskID s) in
  s <| sp_StepID := id |>
    <| sp_UseSubgraph ::= TrimSpace |>
    <| sp_Alias ::= TrimSpace |>
    <| sp_TaskID := if task =s? "" then id else task |>
    <| sp_TeamID ::= TrimSpace |>
    <| sp_AgentID ::= TrimSpace |>
    <| sp_PeerID ::= TrimSpace |>
    <| sp_Kind ::= normalizeStepKind |>
    <| sp_Condition ::= normalizeCondition |>
    <| sp_DependsOn ::= normalizeDependsOn |>
    <| sp_CollabPrimitive ::= lower_trim |>
    <| sp_ConditionTemplate ::= TrimSpace |>
    <| sp_TemplateVars ::= normalizeStringMap |>
    <| sp_Overrides ::= normalizeOverrideMap |>.

Definition normalizeSteps `{RangeOrder} (l : list Step) : list Step := normalizeStep <$> l.

Definition normalizeDefinition `{RangeOrder} (def : WorkflowDefinition) : WorkflowDefinition :=
  mkWorkflowDefinition (TrimSpace (wd_WorkflowID def)) (normalizeSteps (wd_Steps def))
    (trimKeys normalizeSteps (wd_Subgraphs def))
    (trimKeys TrimSpace (wd_ConditionTemplates def)).

(** [collab.ParsePrimitive] succeeds on these, up to case and spaces. *)
Definition PrimitiveHandoff := "handoff".
Definition PrimitiveDelegation := "delegation".
Definition PrimitiveAggregation := "aggregation".

Definition ParsePrimitive (v : string) : option string :=
  let p := lower_trim v in
  if bool_decide (p ∈ [PrimitiveHandoff; PrimitiveDelegation; PrimitiveAggregation])
  then Some p else None.

Definition reasonForStepDispatch (s : Step) : string :=
  let p := lower_trim (sp_CollabPrimitive s) in
  if p =s? PrimitiveHandoff then ReasonHandoff
  else if p =s? PrimitiveDelegation then ReasonDelegation
  else if p =s? PrimitiveAggregation then ReasonAggregation
  else if normalizeStepKind (sp_Kind s) =s? StepKindA2A then ReasonDispatchA2A
  else ReasonSchedule.
