(* ===== verification/WorkflowCompose.v ===== *)
(** * Workflow: composable graphs

    [orchestration/workflow/composability.go]: the expansion of subgraph
    references into concrete steps, with prefixed ids, overrides, condition
    templates and the dependencies rewired from a subgraph to its entry and exit
    steps. The expansion counts what it did in a summary. *)
From Stdlib Require Import Ascii.
From S2P Require Import Prelude GoStrings GoNum WorkflowTypes.

Local Open Scope bool_scope.
Local Open Scope string_scope.
Local Open Scope list_scope.
Local Open Scope Z_scope.

Definition maxSubgraphDepth : nat := 3.

(** What a compilation may end in beside its result: the violations it reports,
    or the panic of an index out of range. *)
Inductive WorkflowError : Type :=
| ErrValidation (violations : ValidationErrors)
| ErrPanic.

Definition violation (code : ValidationErrorCode) (step field : string) : WorkflowError :=
  ErrValidation [mkValidationError code step field].

Abbreviation compiling A := (graphCompileSummary * result WorkflowError A)%type.

(** ** Condition templates *)

(** A piece of a template: literal text, or a token that
    [conditionTemplateVarPattern] matches, with the name it captures. *)
Inductive piece : Type :=
| Literal (c : ascii)
| Placeholder (name : string).

(** The classes [\s] and [[a-zA-Z0-9_.-]] of the pattern. *)
Definition re_space (c : ascii) : bool :=
  let n := byte_of c in ((n =? 9) || (n =? 10) || (n =? 12) || (n =? 13) || (n =? 32))%N.

Definition re_name (c : ascii) : bool :=
  let n := byte_of c in
  (((97 <=? n) && (n <=? 122)) || ((65 <=? n) && (n <=? 90)) || ((48 <=? n) && (n <=? 57))
   || (n =? 95) || (n =? 46) || (n =? 45))%N.

(** A match of the pattern at the start of [l]: the captured name and the rest
    after the token. The classes and the braces exclude each other, so that the
    greedy match never needs to give back. *)
Definition matchToken (l : list ascii) : option (string * list ascii) :=
  match l with
  | "{"%char :: "{"%char :: r =>
      let '(_, r) := spanWhile re_space r in
      let '(name, r) := spanWhile re_name r in
      match name with
      | [] => None
      | _ =>
          match (spanWhile re_space r).2 with
          | "}"%char :: "}"%char :: r => Some (of_bytes name, r)
          | _ => None
          end
      end
  | _ => None
  end.

(** The template cut at its leftmost matches, which do not overlap. *)
Fixpoint piecesOf (fuel : nat) (l : list ascii) : list piece :=
  match fuel, l with
  | S fuel, c :: r =>
      match matchToken l with
      | Some (name, rest) => Placeholder name :: piecesOf fuel rest
      | None => Literal c :: piecesOf fuel r
      end
  | _, _ => []
  end.

Definition templatePieces (template : string) : list piece :=
  piecesOf (length (bytes template)) (bytes template).

Definition renderPiece (vars : gmap string string) (p : piece) : list ascii :=
  match p with
  | Literal c => [c]
  | Placeholder name => bytes (TrimSpace (default "" (vars !! TrimSpace name)))
  end.

Definition missingVariable (vars : gmap string string) (p : piece) : bool :=
  match p with
  | Literal _ => false
  | Placeholder name => bool_decide (vars !! TrimSpace name = None)
  end.

(** The template with its variables replaced; [None] when one is missing. *)
Definition resolveConditionTemplate (template : string) (vars : gmap string string) : option string :=
  let pieces := templatePieces template in
  if existsb (missingVariable vars) pieces then None
  else Some (TrimSpace (of_bytes (mjoin (renderPiece vars <$> pieces)))).

Definition applyConditionTemplate (def : WorkflowDefinition) (step : Step) (summary : graphCompileSummary)
  : compiling Step :=
  let id := TrimSpace (sp_StepID step) in
  if TrimSpace (sp_ConditionTemplate step) =s? "" then
    if negb (bool_decide (sp_TemplateVars step = ∅))
    then (summary, Err (violation ErrCodeConditionTemplateScope id "steps.template_vars"))
    else (summary, Ok step)
  else match wd_ConditionTemplates def !! TrimSpace (sp_ConditionTemplate step) with
  | None => (summary, Err (violation ErrCodeConditionTemplateNotFound id "steps.condition_template"))
  | Some template =>
      match resolveConditionTemplate template (sp_TemplateVars step) with
      | None => (summary, Err (violation ErrCodeConditionTemplateVarMissing id "steps.template_vars"))
      | Some resolved =>
          let condition := normalizeCondition resolved in
          if bool_decide (condition ∈ stepConditions)
          then (summary <| gs_ConditionTemplateTotal ::= Z.succ |>, Ok (step <| sp_Condition := condition |>))
          else (summary, Err (violation ErrCodeConditionTemplateScope id "steps.condition_template"))
      end
  end.

Definition compileConcreteStep (def : WorkflowDefinition) (step : Step) (prefix : string)
    (summary : graphCompileSummary) : compiling Step :=
  let rawID := TrimSpace (sp_StepID step) in
  let fullID := if prefix =s? "" then rawID else prefix +:+ "/" +:+ rawID in
  let task := TrimSpace (sp_TaskID step) in
  let step := step
    <| sp_StepID := fullID |>
    <| sp_TaskID := if (task =s? "") || (task =s? rawID) then fullID else task |>
    <| sp_DependsOn := [] |> in
  match applyConditionTemplate def step summary with
  | (summary, Err e) => (summary, Err e)
  | (summary, Ok step) =>
      (summary, Ok (step <| sp_UseSubgraph := "" |> <| sp_Alias := "" |> <| sp_ConditionTemplate := "" |>
                         <| sp_TemplateVars := ∅ |> <| sp_Overrides := ∅ |>))
  end.

(** ** Overrides *)

(** The index of the last step with the id. *)
Definition stepIndex (l : list Step) : gmap string nat :=
  list_to_map (rev (imap (fun i s => (TrimSpace (sp_StepID s), i)) l)).

Definition overrideStep (o : StepOverride) (s : Step) : Step :=
  let s := match so_Retry o with Some r => s <| sp_Retry := r |> | None => s end in
  match so_Timeout o with Some t => s <| sp_Timeout := t |> | None => s end.

Definition applySubgraphOverrides `{RangeOrder} (instance_ : Step) (steps : list Step)
  : result WorkflowError (list Step) :=
  let index := stepIndex steps in
  let id := TrimSpace (sp_StepID instance_) in
  foldl (fun acc target =>
           out ←ₑ acc;
           match sp_Overrides instance_ !! target with
           | None => Ok out
           | Some override =>
               match index !! TrimSpace target with
               | None => Err (violation ErrCodeSubgraphOverrideStepMissing id "steps.overrides")
               | Some idx =>
                   match so_Kind override with
                   | Some k =>
                       if negb (TrimSpace k =s? "")
                       then Err (violation ErrCodeSubgraphOverrideForbidden id "steps.overrides.kind")
                       else Ok (alter (overrideStep override) idx out)
                   | None => Ok (alter (overrideStep override) idx out)
                   end
               end
           end)
    (Ok steps) (range_order (sp_Overrides instance_)).

(** ** Entry and exit steps *)

Definition appendUniqueStrings (base extra : list string) : list string :=
  uniqueTrimmed (uniqueTrimmed [] base) extra.

Definition scopeIDs (steps : list Step) : gset string :=
  list_to_set (filter (fun id => id <> "") ((fun s => TrimSpace (sp_StepID s)) <$> steps)).

(** The edges inside the scope, from a step to a dependency, by trimmed ids. *)
Definition scopeEdges (steps : list Step) : list (string * string) :=
  filter (fun e => e.1 <> "" /\ e.2 ∈ scopeIDs steps)
    (s ← steps; (fun d => (TrimSpace (sp_StepID s), TrimSpace d)) <$> sp_DependsOn s).

(** The steps without a dependency in the scope, and those nothing depends
    on. *)
Definition inferEntryAndExit (steps : list Step) : list string * list string :=
  let ids := elements (scopeIDs steps) in
  let edges := scopeEdges steps in
  (sort_strings (filter (fun id => id ∉ edges.*1) ids),
   sort_strings (filter (fun id => id ∉ edges.*2) ids)).

Definition resolveSubgraphAlias (step : Step) : string :=
  let alias := TrimSpace (sp_Alias step) in
  if negb (alias =s? "") then alias
  else
    let alias := TrimSpace (sp_StepID step) in
    if negb (alias =s? "") then alias else TrimSpace (sp_UseSubgraph step).

(** [strings.Contains(alias, "/")]. *)
Definition containsSlash (s : string) : bool := bool_decide ("/"%char ∈ bytes s).

Definition containsString (items : list string) (key : string) : bool :=
  existsb (fun item => TrimSpace item =s? TrimSpace key) items.

(** ** Scopes *)

Record compiledNode : Type := mkCompiledNode {
  cn_rawID : string;
  cn_steps : list Step;
  cn_entryIDs : list string;
  cn_exitIDs : list string;
  cn_rawDeps : list string
}.
#[export] Instance eta_compiledNode : Settable compiledNode := fun r =>
  mkCompiledNode (cn_rawID r) (cn_steps r) (cn_entryIDs r) (cn_exitIDs r) (cn_rawDeps r).

(** The exit steps that the raw dependencies of a node stand for. *)
Definition resolveDeps (nodes : list compiledNode) (node : compiledNode)
  : result WorkflowError (list string) :=
  foldl (fun acc dep =>
           resolved ←ₑ acc;
           let depID := TrimSpace dep in
           if depID =s? "" then Ok resolved
           else match List.find (fun n => cn_rawID n =s? depID) nodes with
           | None => Err (violation ErrCodeMissingDependency (cn_rawID node) "steps.depends_on")
           | Some target => Ok (appendUniqueStrings resolved (cn_exitIDs target))
           end)
    (Ok []) (cn_rawDeps node).

(** The entry steps of a node get its dependencies. The code reads the first
    entry id of a node with one step, which need not have one: the only step of a
    subgraph may depend on itself. *)
Definition rewireNode (resolved : list string) (node : compiledNode) : result WorkflowError (list Step) :=
  require negb (bool_decide (length (cn_steps node) = 1%nat /\ cn_entryIDs node = [])) orelse ErrPanic;
  Ok ((fun s => if bool_decide (sp_StepID s ∈ cn_entryIDs node)
            then s <| sp_DependsOn ::= fun d => appendUniqueStrings d resolved |> else s)
      <$> cn_steps node).

(** The steps of all nodes, if no id occurs twice. *)
Definition flattenNodes (l : list (list Step)) : result WorkflowError (list Step) :=
  foldl (fun acc s =>
           out ←ₑ acc;
           if bool_decide (sp_StepID s ∈ sp_StepID <$> out)
           then Err (violation ErrCodeExpandedStepIDCollision (sp_StepID s) "steps.step_id")
           else Ok (out ++ [s]))
    (Ok []) (mjoin l).

Definition linkNodes (nodes : list compiledNode) : result WorkflowError (list Step) :=
  linked ←ₑ foldl (fun acc node =>
                     done ←ₑ acc;
                     resolved ←ₑ resolveDeps nodes node;
                     steps ←ₑ rewireNode resolved node;
                     Ok (done ++ [steps])) (Ok []) nodes;
  flattenNodes linked.

(** What the loop over the raw steps has collected. *)
Record scope : Type := mkScope {
  sco_nodes : list compiledNode;
  sco_aliases : list string;
  sco_summary : graphCompileSummary
}.
#[export] Instance eta_scope : Settable scope := fun r =>
  mkScope (sco_nodes r) (sco_aliases r) (sco_summary r).

Section compile.
Context `{RangeOrder} (def : WorkflowDefinition).

(** One raw step; [expand] compiles the steps of a subgraph. *)
Definition compileNode
    (expand : list Step -> string -> list string -> graphCompileSummary -> compiling (list Step))
    (exceeded : bool) (prefix : string) (stack : list string) (sc : scope) (step : Step)
  : graphCompileSummary * result WorkflowError scope :=
  let rawID := TrimSpace (sp_StepID step) in
  let refName := TrimSpace (sp_UseSubgraph step) in
  let fail code field := (sco_summary sc, Err (violation code rawID field)) in
  if rawID =s? "" then (sco_summary sc, Err (violation ErrCodeStepIDRequired "" "steps.step_id"))
  else if bool_decide (rawID ∈ cn_rawID <$> sco_nodes sc) then fail ErrCodeDuplicateStepID "steps.step_id"
  else if refName =s? "" then
    match compileConcreteStep def step prefix (sco_summary sc) with
    | (summary, Err e) => (summary, Err e)
    | (summary, Ok s) =>
        let node := mkCompiledNode rawID [s] [sp_StepID s] [sp_StepID s] (sp_DependsOn step) in
        (summary, Ok (sc <| sco_nodes ::= fun l => l ++ [node] |> <| sco_summary := summary |>))
    end
  else match wd_Subgraphs def !! refName with
  | None => fail ErrCodeSubgraphNotFound "steps.use_subgraph"
  | Some sub =>
      let alias := resolveSubgraphAlias step in
      if exceeded then fail ErrCodeSubgraphDepthExceeded "steps.use_subgraph"
      else if containsString stack refName then fail ErrCodeSubgraphCycle "steps.use_subgraph"
      else if containsSlash alias then fail ErrCodeSubgraphAliasCollision "steps.alias"
      else if bool_decide (alias ∈ sco_aliases sc) then fail ErrCodeSubgraphAliasCollision "steps.alias"
      else
        let nextPrefix := if prefix =s? "" then alias else prefix +:+ "/" +:+ alias in
        match applySubgraphOverrides step sub with
        | Err e => (sco_summary sc, Err e)
        | Ok subSteps =>
            match expand subSteps nextPrefix (stack ++ [refName]) (sco_summary sc) with
            | (summary, Err e) => (summary, Err e)
            | (summary, Ok childSteps) =>
                let '(entryIDs, exitIDs) := inferEntryAndExit childSteps in
                let summary := summary <| gs_SubgraphExpansionTotal ::= Z.add (Z.of_nat (length childSteps)) |> in
                let node := mkCompiledNode rawID childSteps entryIDs exitIDs (sp_DependsOn step) in
                (summary, Ok (sc <| sco_nodes ::= fun l => l ++ [node] |> <| sco_aliases ::= cons alias |>
                                 <| sco_summary := summary |>))
            end
        end
  end.

(** The loop over the raw steps. *)
Fixpoint compileNodes
    (expand : list Step -> string -> list string -> graphCompileSummary -> compiling (list Step))
    (exceeded : bool) (prefix : string) (stack : list string) (sc : scope) (rawSteps : list Step)
  : graphCompileSummary * result WorkflowError scope :=
  match rawSteps with
  | [] => (sco_summary sc, Ok sc)
  | step :: rest =>
      match compileNode expand exceeded prefix stack sc step with
      | (summary, Err e) => (summary, Err e)
      | (_, Ok sc) => compileNodes expand exceeded prefix stack sc rest
      end
  end.

(** [compileScope] at depth [maxSubgraphDepth - levels]. *)
Fixpoint compileScope (levels : nat) (rawSteps : list Step) (prefix : string) (stack : list string)
    (summary : graphCompileSummary) : compiling (list Step) :=
  let out :=
    match levels with
    | O => compileNodes (fun _ _ _ su => (su, Ok [])) true prefix stack (mkScope [] [] summary) rawSteps
    | S levels => compileNodes (compileScope levels) false prefix stack (mkScope [] [] summary) rawSteps
    end in
  match out with
  | (summary, Err e) => (summary, Err e)
  | (summary, Ok sc) => (summary, linkNodes (sco_nodes sc))
  end.
End compile.

Definition stepUsesGraphComposability (s : Step) : bool :=
  negb (TrimSpace (sp_UseSubgraph s) =s? "") || negb (TrimSpace (sp_Alias s) =s? "")
  || negb (TrimSpace (sp_ConditionTemplate s) =s? "") || negb (bool_decide (sp_TemplateVars s = ∅))
  || negb (bool_decide (dom (sp_Overrides s) = ∅)).

Definition hasGraphComposabilitySyntax (def : WorkflowDefinition) : bool :=
  negb (bool_decide (dom (wd_Subgraphs def) = ∅)) || negb (bool_decide (wd_ConditionTemplates def = ∅))
  || existsb stepUsesGraphComposability (wd_Steps def).

(** Some id occurs twice; steps without one are not looked at. *)
Fixpoint ensureExpandedStepIDUniqueness (seen : gset string) (l : list Step)
  : result WorkflowError unit :=
  match l with
  | [] => Ok tt
  | s :: l =>
      let id := TrimSpace (sp_StepID s) in
      if id =s? "" then ensureExpandedStepIDUniqueness seen l
      else if bool_decide (id ∈ seen)
      then Err (violation ErrCodeExpandedStepIDCollision id "steps.step_id")
      else ensureExpandedStepIDUniqueness ({[id]} ∪ seen) l
  end.

Definition compileDefinition `{RangeOrder} (enabled : bool) (def : WorkflowDefinition)
  : compiling WorkflowDefinition :=
  let summary := mkGraphCompileSummary 0 0 false in
  let failed (su : graphCompileSummary) := su <| gs_GraphCompileFailed := true |> in
  if negb enabled then
    if hasGraphComposabilitySyntax def
    then (failed summary, Err (violation ErrCodeGraphComposabilityDisabled ""
                                 "workflow.graph_composability.enabled"))
    else (summary, Ok def)
  else if negb (hasGraphComposabilitySyntax def) then (summary, Ok def)
  else match compileScope def maxSubgraphDepth (wd_Steps def) "" [] summary with
  | (summary, Err e) => (failed summary, Err e)
  | (summary, Ok steps) =>
      match ensureExpandedStepIDUniqueness ∅ steps with
      | Err e => (failed summary, Err e)
      | Ok _ => (summary, Ok (mkWorkflowDefinition (wd_WorkflowID def) steps ∅ ∅))
      end
  end.
