(* ===== verification/ExecutionGraph.v ===== *)
(** * Execution graphs

    [orchestration/graph/graph.go]: validation, canonical form and stable
    topological order of a bounded execution topology. The JSON encoding and
    the SHA-256 digest of the canonical form are parameters. *)
From S2P Require Import Prelude GoStrings GoNum.

Local Open Scope bool_scope.
Local Open Scope string_scope.
Local Open Scope list_scope.
Local Open Scope Z_scope.

Definition MaxGraphIDBytes : nat := 128.
Definition MaxVersionBytes : nat := 32.
Definition MaxNodeIDBytes : nat := 128.
Definition MaxNodes : nat := 1024.
Definition MaxEdges : nat := 1024 * 8.
Definition MaxCanonicalBytes : Z := 2 ^ 20.
Definition TopologySchemaV1 := "execution_graph.v1".

Record Node : Type := mkNode {
  nd_ID : string;
  nd_DependsOn : list string
}.

(** [Definition]. *)
Record GraphDefinition : Type := mkGraphDefinition {
  gd_GraphID : string;
  gd_Version : string;
  gd_Nodes : list Node
}.

Record Identity : Type := mkIdentity {
  gi_GraphID : string;
  gi_Version : string;
  gi_TopologyDigest : string
}.

Record Compiled : Type := mkCompiled {
  gc_Definition : GraphDefinition;
  gc_Identity : Identity;
  gc_Order : list string
}.

Inductive ErrorCode : Type :=
| CodeGraphIDRequired
| CodeGraphIDTooLong
| CodeVersionRequired
| CodeVersionTooLong
| CodeNoNodes
| CodeInvalidUTF8
| CodeNodeLimitExceeded
| CodeEdgeLimitExceeded
| CodeCanonicalTooLarge
| CodeNodeIDRequired
| CodeNodeIDTooLong
| CodeDuplicateNodeID
| CodeDependencyRequired
| CodeDependencyNotFound
| CodeDependencyCycle.

(** [ValidationError]. *)
Record GraphError : Type := mkGraphError {
  ge_Code : ErrorCode;
  ge_Field : string;
  ge_NodeID : string;
  ge_Value : string
}.

Definition graphErr (code : ErrorCode) (field node value : string) : GraphError :=
  mkGraphError code field node value.

Definition byteLen (s : string) : nat := length (bytes s).

(** [json.Marshal] of the canonical form, and the hexadecimal SHA-256 digest. *)
Class GraphCodec : Type := {
  canonicalJSON : string -> GraphDefinition -> string;
  sha256Hex : string -> string
}.

(** ** Validation *)

(** An identifier: present, valid and short enough. *)
Definition checkID (id : string) (mx : nat) (required tooLong : ErrorCode) (field : string)
  : result GraphError unit :=
  require negb (id =s? "") orelse graphErr required field "" "";
  require ValidString id orelse graphErr CodeInvalidUTF8 field "" "";
  require (byteLen id <=? mx)%nat orelse graphErr tooLong field "" "";
  Ok tt.

(** One dependency of a node: the distinct ones so far and the number of edges
    so far. *)
Definition addDependency (node : string) (acc : result GraphError (list string * nat)) (raw : string)
  : result GraphError (list string * nat) :=
  st ←ₑ acc;
  let '(deps, edgeCount) := st in
  let d := TrimSpace raw in
  require negb (d =s? "") orelse graphErr CodeDependencyRequired "nodes.depends_on" node "";
  require ValidString d orelse graphErr CodeInvalidUTF8 "nodes.depends_on" node "";
  require (byteLen d <=? MaxNodeIDBytes)%nat orelse graphErr CodeNodeIDTooLong "nodes.depends_on" node d;
  if bool_decide (d ∈ deps) then Ok (deps, edgeCount)
  else
    require (S edgeCount <=? MaxEdges)%nat orelse graphErr CodeEdgeLimitExceeded "nodes.depends_on" "" "";
    Ok (deps ++ [d], S edgeCount).

(** The nodes read so far, the edges and the raw dependencies counted. *)
Record reading : Type := mkReading {
  rd_nodes : gmap string Node;
  rd_edges : nat;
  rd_raw : nat
}.

Definition readNode (acc : result GraphError reading) (inp : Node) : result GraphError reading :=
  r ←ₑ acc;
  let id := TrimSpace (nd_ID inp) in
  require negb (id =s? "") orelse graphErr CodeNodeIDRequired "nodes.id" "" "";
  require ValidString id orelse graphErr CodeInvalidUTF8 "nodes.id" id "";
  require (byteLen id <=? MaxNodeIDBytes)%nat orelse graphErr CodeNodeIDTooLong "nodes.id" id "";
  require bool_decide (rd_nodes r !! id = None) orelse graphErr CodeDuplicateNodeID "nodes.id" id "";
  require (length (nd_DependsOn inp) <=? MaxEdges - rd_raw r)%nat
    orelse graphErr CodeEdgeLimitExceeded "nodes.depends_on" "" "";
  st ←ₑ foldl (addDependency id) (Ok ([], rd_edges r)) (nd_DependsOn inp);
  Ok (mkReading (<[id := mkNode id (sort_strings st.1)]> (rd_nodes r)) st.2
        (rd_raw r + length (nd_DependsOn inp))).

(** The nodes by ascending id. *)
Definition sortedNodes (m : gmap string Node) : list Node :=
  omap (fun id => m !! id) (sort_strings (map_to_list m).*1).

(** A dependency on oneself or on an unknown node. *)
Definition checkEdge (m : gmap string Node) (node : string) (d : string) : result GraphError unit :=
  require negb (d =s? node) orelse graphErr CodeDependencyCycle "nodes.depends_on" node "";
  require bool_decide (is_Some (m !! d)) orelse graphErr CodeDependencyNotFound "nodes.depends_on" node d;
  Ok tt.

Definition checkEdges (m : gmap string Node) (nodes : list Node) : result GraphError unit :=
  foldl (fun acc n => foldl (fun acc d => _ ←ₑ acc; checkEdge m (nd_ID n) d) acc (nd_DependsOn n))
    (Ok tt) nodes.

(** ** Stable topological order *)

(** [sort.SearchStrings]: binary search for the first index whose element is not
    below [x]. *)
Fixpoint searchStrings (fuel : nat) (a : list string) (x : string) (i j : nat) : nat :=
  match fuel with
  | O => i
  | S fuel =>
      if (i <? j)%nat then
        let h := ((i + j) / 2)%nat in
        if bool_decide (String.le x (default "" (a !! h)))
        then searchStrings fuel a x i h
        else searchStrings fuel a x (S h) j
      else i
  end.

Definition SearchStrings (a : list string) (x : string) : nat :=
  searchStrings (length a) a x 0 (length a).

(** The element is moved in at the index found. *)
Definition insertReady (ready : list string) (x : string) : list string :=
  let index := SearchStrings ready x in
  take index ready ++ x :: drop index ready.

Definition indegrees (nodes : list Node) : gmap string Z :=
  foldl (fun deg n => <[nd_ID n := Z.of_nat (length (nd_DependsOn n))]> deg) ∅ nodes.

Definition dependents (nodes : list Node) : gmap string (list string) :=
  foldl (fun m (e : string * string) => <[e.1 := default [] (m !! e.1) ++ [e.2]]> m) ∅
    (n ← nodes; (fun d => (d, nd_ID n)) <$> nd_DependsOn n).

Definition releaseNode (acc : gmap string Z * list string) (to : string) : gmap string Z * list string :=
  let '(deg, ready) := acc in
  let n := default 0 (deg !! to) - 1 in
  (<[to := n]> deg, if n =? 0 then insertReady ready to else ready).

Fixpoint orderLoop (fuel : nat) (deps : gmap string (list string)) (deg : gmap string Z)
    (ready order : list string) : list string :=
  match fuel, ready with
  | S fuel, id :: ready =>
      let '(deg, ready) := foldl releaseNode (deg, ready) (default [] (deps !! id)) in
      orderLoop fuel deps deg ready (order ++ [id])
  | _, _ => order
  end.

Definition stableTopologicalOrder (nodes : list Node) : result GraphError (list string) :=
  let deg := indegrees nodes in
  let ready := sort_strings (map_to_list (filter (fun kv => kv.2 = 0) deg)).*1 in
  let order := orderLoop (length nodes) (dependents nodes) deg ready [] in
  require bool_decide (length order = length nodes)
    orelse graphErr CodeDependencyCycle "nodes.depends_on" "" "";
  Ok order.

(** ** Compile *)

(** The part of [Compile] after the nodes are read. *)
Definition compileTopology `{GraphCodec} (graphID version : string) (m : gmap string Node)
  : result GraphError Compiled :=
  let nodes := sortedNodes m in
  _ ←ₑ checkEdges m nodes;
  order ←ₑ stableTopologicalOrder nodes;
  let def := mkGraphDefinition graphID version nodes in
  let canonical := canonicalJSON TopologySchemaV1 def in
  require Z.of_nat (byteLen canonical) <=? MaxCanonicalBytes
    orelse graphErr CodeCanonicalTooLarge "definition" "" "";
  Ok (mkCompiled def (mkIdentity graphID version ("sha256:" +:+ sha256Hex canonical)) order).

Definition Compile `{GraphCodec} (inp : GraphDefinition) : result GraphError Compiled :=
  let graphID := TrimSpace (gd_GraphID inp) in
  let version := TrimSpace (gd_Version inp) in
  _ ←ₑ checkID graphID MaxGraphIDBytes CodeGraphIDRequired CodeGraphIDTooLong "graph_id";
  _ ←ₑ checkID version MaxVersionBytes CodeVersionRequired CodeVersionTooLong "version";
  require negb (bool_decide (length (gd_Nodes inp) = 0%nat)) orelse graphErr CodeNoNodes "nodes" "" "";
  require (length (gd_Nodes inp) <=? MaxNodes)%nat orelse graphErr CodeNodeLimitExceeded "nodes" "" "";
  r ←ₑ foldl readNode (Ok (mkReading ∅ 0 0)) (gd_Nodes inp);
  compileTopology graphID version (rd_nodes r).
