(* ===== verification/WorkflowPlan.v ===== *)
(** * Workflow: validation and planning

    [ValidateDefinition], [hasCycle], [PreflightDefinition] and [Plan] of
    [orchestration/workflow/engine.go]. The depth-first search recurses under a
    bound on its depth, and the loop of [Plan] runs under a bound on its rounds;
    the theorems show that neither bound is reached. Also the projection of a
    definition to an execution graph, [graph_projection.go]. *)
From S2P Require Import Prelude GoStrings GoNum WorkflowTypes WorkflowCompose ExecutionGraph.

Local Open Scope bool_scope.
Local Open Scope string_scope.
Local Open Scope list_scope.
Local Open Scope Z_scope.

(** ** Cycles *)

(** [adj], built in the order of the steps. *)
Definition adjacency (steps : list Step) : gmap string (list string) :=
  foldl (fun adj s => <[sp_StepID s := sp_DependsOn s]> adj) ∅ steps.

(** The loop over the dependencies of a node: [f] is the search from one. *)
Fixpoint searchDeps (f : gmap string Z -> string -> gmap string Z * bool) (visited : gmap string Z)
    (deps : list string) : gmap string Z * bool :=
  match deps with
  | [] => (visited, false)
  | d :: deps =>
      let '(visited, found) := f visited d in
      if found then (visited, true) else searchDeps f visited deps
  end.

(** The search: a node is unseen, on the path (1) or done (2). *)
Fixpoint dfs (fuel : nat) (adj : gmap string (list string)) (visited : gmap string Z) (id : string)
  : gmap string Z * bool :=
  match visited !! id with
  | Some 1 => (visited, true)
  | Some 2 => (visited, false)
  | _ =>
      match fuel with
      | O => (visited, true)
      | S fuel =>
          match searchDeps (dfs fuel adj) (<[id := 1]> visited) (default [] (adj !! id)) with
          | (visited, true) => (visited, true)
          | (visited, false) => (<[id := 2]> visited, false)
          end
      end
  end.

(** Every node on the path is a different one: a step or a dependency. *)
Definition dfsFuel (steps : list Step) : nat :=
  length (s ← steps; sp_StepID s :: sp_DependsOn s).

Definition hasCycle (steps : list Step) : bool :=
  let adj := adjacency steps in
  (searchDeps (dfs (dfsFuel steps) adj) ∅ (sort_strings (elements (dom adj)))).2.

(** ** Validation *)

Definition check (b : bool) (code : ValidationErrorCode) (step field : string) : ValidationErrors :=
  if b then [mkValidationError code step field] else [].

(** The violations of one step with an id of its own. *)
Definition stepViolations (s : Step) : ValidationErrors :=
  let id := sp_StepID s in
  check (negb (bool_decide (sp_Kind s ∈ stepKinds))) ErrCodeUnsupportedStepKind id "steps.kind"
  ++ (if sp_Kind s =s? StepKindA2A then
        check (TrimSpace (sp_AgentID s) =s? "") ErrCodeA2AAgentIDRequired id "steps.agent_id"
        ++ check (TrimSpace (sp_PeerID s) =s? "") ErrCodeA2APeerIDRequired id "steps.peer_id"
      else [])
  ++ (if negb (sp_CollabPrimitive s =s? "")
      then check (bool_decide (ParsePrimitive (sp_CollabPrimitive s) = None)) ErrCodeUnsupportedCondition id
             "steps.collab_primitive"
      else [])
  ++ check (negb (bool_decide (sp_Condition s ∈ stepConditions))) ErrCodeUnsupportedCondition id "steps.condition"
  ++ check (re_MaxAttempts (sp_Retry s) <? 0) ErrCodeInvalidRetryMaxAttempts id "steps.retry.max_attempts"
  ++ check (re_Backoff (sp_Retry s) <? 0) ErrCodeInvalidRetryBackoff id "steps.retry.backoff"
  ++ check (sp_Timeout s <? 0) ErrCodeInvalidStepTimeout id "steps.timeout".

(** The first loop: the violations and the ids seen. *)
Fixpoint scanSteps (seen : gset string) (steps : list Step) : ValidationErrors * gset string :=
  match steps with
  | [] => ([], seen)
  | s :: rest =>
      if TrimSpace (sp_StepID s) =s? "" then
        let '(v, ids) := scanSteps seen rest in
        (mkValidationError ErrCodeStepIDRequired "" "steps.step" :: v, ids)
      else if bool_decide (sp_StepID s ∈ seen) then
        let '(v, ids) := scanSteps seen rest in
        (mkValidationError ErrCodeDuplicateStepID (sp_StepID s) "steps.step" :: v, ids)
      else
        let '(v, ids) := scanSteps ({[sp_StepID s]} ∪ seen) rest in
        (stepViolations s ++ v, ids)
  end.

(** The second loop: dependencies on oneself and on unknown steps. *)
Definition dependencyViolations (ids : gset string) (s : Step) : ValidationErrors :=
  if TrimSpace (sp_StepID s) =s? "" then []
  else
    d ← sp_DependsOn s;
    if d =s? sp_StepID s
    then [mkValidationError ErrCodeDependencyCycle (sp_StepID s) "steps.depends_on"]
    else check (negb (bool_decide (d ∈ ids))) ErrCodeMissingDependency (sp_StepID s) "steps.depends_on".

Definition ValidateDefinition (def : WorkflowDefinition) : ValidationErrors :=
  let v0 := check (TrimSpace (wd_WorkflowID def) =s? "") ErrCodeWorkflowIDRequired "" "workflow_id" in
  match wd_Steps def with
  | [] => v0 ++ [mkValidationError ErrCodeNoSteps "" "steps"]
  | steps =>
      let '(v1, ids) := scanSteps ∅ steps in
      match v0 ++ v1 ++ (s ← steps; dependencyViolations ids s) with
      | [] => check (hasCycle steps) ErrCodeDependencyCycle "" "steps.depends_on"
      | violations => violations
      end
  end.

Definition PreflightDefinition `{RangeOrder} (defaultStepTimeout : Duration) (def : WorkflowDefinition)
  : result WorkflowError WorkflowDefinition :=
  let def := normalizeDefinition def in
  match ValidateDefinition def with
  | [] => Ok (def <| wd_Steps ::= fmap (fun s =>
                 if sp_Timeout s <=? 0 then s <| sp_Timeout := defaultStepTimeout |> else s) |>)
  | errs => Err (ErrValidation errs)
  end.

(** ** The plan *)

Definition initialDegrees (steps : list Step) : gmap string Z :=
  foldl (fun deg s => <[sp_StepID s := 0]> deg) ∅ steps.

(** One dependency: an edge to the step and one more predecessor of it. *)
Definition addEdge (acc : gmap string (list string) * gmap string Z) (e : string * string)
  : gmap string (list string) * gmap string Z :=
  let '(edges, deg) := acc in
  let '(dep, id) := e in
  (<[dep := default [] (edges !! dep) ++ [id]]> edges, <[id := default 0 (deg !! id) + 1]> deg).

Definition planEdges (steps : list Step) : list (string * string) :=
  s ← steps; (fun d => (d, sp_StepID s)) <$> sp_DependsOn s.

(** [inDegree[to]--], and [to] becomes ready at zero. *)
Definition release (acc : gmap string Z * list string) (to : string) : gmap string Z * list string :=
  let '(deg, ready) := acc in
  let n := default 0 (deg !! to) - 1 in
  (<[to := n]> deg, if n =? 0 then ready ++ [to] else ready).

Fixpoint planLoop (fuel : nat) (edges : gmap string (list string)) (deg : gmap string Z)
    (ready order : list string) : list string :=
  match fuel, ready with
  | S fuel, id :: ready =>
      let next := sort_strings (default [] (edges !! id)) in
      let '(deg, ready) := foldl release (deg, ready) next in
      planLoop fuel edges deg (sort_strings ready) (order ++ [id])
  | _, _ => order
  end.

Definition planOrder (steps : list Step) : list string :=
  let '(edges, deg) := foldl addEdge (∅, initialDegrees steps) (planEdges steps) in
  let ready := sort_strings (map_to_list (filter (fun kv => kv.2 = 0) deg)).*1 in
  planLoop (length steps) edges deg ready [].

Definition Plan `{RangeOrder} (enabled : bool) (def : WorkflowDefinition) : result WorkflowError (list string) :=
  match (compileDefinition enabled (normalizeDefinition def)).2 with
  | Err e => Err e
  | Ok def =>
      match ValidateDefinition def with
      | [] =>
          let order := planOrder (wd_Steps def) in
          require bool_decide (length order = length (wd_Steps def))
            orelse violation ErrCodeDependencyCycle "" "";
          Ok order
      | errs => Err (ErrValidation errs)
      end
  end.

(** ** Projection to an execution graph *)

Inductive ProjectionError : Type :=
| ProjectionWorkflow (e : WorkflowError)
| ProjectionGraph (e : GraphError).

Definition projectNode (s : Step) : Node := mkNode (sp_StepID s) (sp_DependsOn s).

Definition ProjectExecutionGraph `{RangeOrder} `{GraphCodec} (enabled : bool) (def : WorkflowDefinition)
  : result ProjectionError Compiled :=
  match (compileDefinition enabled (normalizeDefinition def)).2 with
  | Err e => Err (ProjectionWorkflow e)
  | Ok compiled =>
      let def := normalizeDefinition compiled in
      match ValidateDefinition def with
      | [] =>
          match Compile (mkGraphDefinition (wd_WorkflowID def) "v1" (projectNode <$> wd_Steps def)) with
          | Err e => Err (ProjectionGraph e)
          | Ok c => Ok c
          end
      | errs => Err (ProjectionWorkflow (ErrValidation errs))
      end
  end.
