(* ===== verification/WorkflowContinuation.v ===== *)
(** * Workflow: continuations

    [orchestration/workflow/continuation.go]: the sealed record of a paused
    workflow, its validation, and the memory store with its protocol of resume
    claims. A claim is an object behind a pointer, which copies of a record share;
    the store keeps the claims in a heap of its own. The JSON encodings and SHA-256
    are parameters. A host context projection of a resume request is not
    modelled: requests carry none. The contexts of the calls are live. *)
From Stdlib Require Import Ascii.
From S2P Require Import Prelude GoStrings GoNum WorkflowTypes.

Local Open Scope bool_scope.
Local Open Scope string_scope.
Local Open Scope list_scope.
Local Open Scope Z_scope.

Definition WorkflowContinuationVersion := "workflow_continuation.v1".
Definition WorkflowContinuationMaxBytes : Z := 64 * 1024.
Definition WorkflowContinuationMaxEntries : nat := 1024.
Definition continuationTTL : Duration := 24 * 60 * Minute.

Inductive ContinuationError : Type :=
| ErrWorkflowContinuationMalformed
| ErrWorkflowContinuationCorrupt
| ErrWorkflowContinuationForeign
| ErrWorkflowContinuationExpired
| ErrWorkflowContinuationUnavailable
| ErrWorkflowContinuationConflict
| ErrWorkflowContinuationInProgress
| ErrWorkflowContinuationRecoveryRequired
| ErrWorkflowContinuationUnsupported.

#[export] Instance ContinuationError_eq_dec : EqDecision ContinuationError.
Proof. solve_decision. Defined.

Record WorkflowResumeRequest : Type := mkWorkflowResumeRequest {
  rq_Ref : WorkflowContinuationRef;
  rq_GraphDigest : string;
  rq_Generation : Z;
  rq_IdempotencyKey : string;
  rq_AuthorityDigest : string;
  rq_PlanDigest : string;
  rq_WriteScopeDigest : string;
  rq_EffectNamespace : string;
  rq_OccurrenceID : string
}.

(** [json.Marshal], which may fail, and the hexadecimal SHA-256 digest. *)
Class WorkflowCodec : Type := {
  continuationJSON : WorkflowContinuation -> option string;
  definitionJSON : WorkflowDefinition -> option string;
  payloadJSON : any_map -> option string;
  runResultJSON : RunResult -> option string;
  identityJSON : WorkflowResumeRequest -> option string;
  digestHex : string -> string
}.

(** ** Validation *)

(** [strings.ContainsAny(value, "\r\n\t")]. *)
Definition containsControl (v : string) : bool :=
  existsb (fun c => let n := byte_of c in ((n =? 13) || (n =? 10) || (n =? 9))%N) (bytes v).

Definition cleanValue (v : string) : bool :=
  (length (bytes v) <=? 256)%nat && (TrimSpace v =s? v) && negb (containsControl v).

(** The life of a continuation: created, and at most a day long. *)
Definition validLifetime (created expires : Time) : bool :=
  negb (IsZero created) && After expires created && (TimeSub expires created <=? continuationTTL).

Definition refValues (r : WorkflowContinuationRef) : list string :=
  [wr_CheckpointID r; wr_OwnerNamespace r; wr_GraphID r; wr_GraphVersion r; wr_RunID r; wr_SessionID r;
   wr_ParentRunID r; wr_CausationID r; wr_AuthorityDigest r; wr_PlanDigest r; wr_WriteScopeDigest r;
   wr_EffectNamespace r; wr_OccurrenceID r].

(** [WorkflowContinuationRef.Validate]. *)
Definition validateRef (r : WorkflowContinuationRef) : result ContinuationError unit :=
  require (wr_SchemaVersion r =s? WorkflowContinuationVersion) && negb (TrimSpace (wr_CheckpointID r) =s? "")
    && (negb (TrimSpace (wr_Digest r) =s? "") || (wr_Digest r =s? "pending"))
    && negb (TrimSpace (wr_OwnerNamespace r) =s? "") && negb (TrimSpace (wr_GraphID r) =s? "")
    && negb (TrimSpace (wr_GraphVersion r) =s? "") && negb (TrimSpace (wr_RunID r) =s? "")
    && negb (TrimSpace (wr_SessionID r) =s? "") orelse ErrWorkflowContinuationMalformed;
  require bool_decide (wr_PauseReason r ∈ pauseReasons) orelse ErrWorkflowContinuationUnsupported;
  require validLifetime (wr_CreatedAt r) (wr_ExpiresAt r) orelse ErrWorkflowContinuationMalformed;
  require forallb cleanValue (refValues r) orelse ErrWorkflowContinuationMalformed;
  Ok tt.

Definition continuationValues (c : WorkflowContinuation) : list string :=
  [wf_GraphID c; wf_GraphVersion c; wf_GraphDigest c; wf_ParentRunID c; wf_RunID c; wf_SessionID c;
   wf_CausationID c; wf_AuthorityDigest c; wf_PlanDigest c; wf_WriteScopeDigest c; wf_EffectNamespace c;
   wf_OccurrenceID c; wf_PendingStep c; wf_PendingActionReference c; wf_TerminalArbitrationReference c;
   wf_PredecessorCheckpointID c; wf_SuccessorCheckpointID c].

Definition orElse (a b : string) : string := if a =s? "" then b else a.

(** The reference completed with what the continuation repeats. *)
Definition completedRef (c : WorkflowContinuation) : WorkflowContinuationRef :=
  wf_Ref c
    <| wr_GraphID ::= fun x => orElse x (wf_GraphID c) |>
    <| wr_GraphVersion ::= fun x => orElse x (wf_GraphVersion c) |>
    <| wr_RunID ::= fun x => orElse x (wf_RunID c) |>
    <| wr_SessionID ::= fun x => orElse x (wf_SessionID c) |>
    <| wr_PauseReason ::= fun x => orElse x (wf_PauseReason c) |>
    <| wr_CreatedAt ::= fun t => if IsZero t then wf_CreatedAt c else t |>
    <| wr_ExpiresAt ::= fun t => if IsZero t then wf_ExpiresAt c else t |>.

(** A host context is bound to this very pause. *)
Definition boundHere (c : WorkflowContinuation) (b : SourceBinding) : bool :=
  (sb_Form b =s? SourceFormWorkflow) && (sb_OwnerNamespace b =s? wr_OwnerNamespace (wf_Ref c))
  && (sb_SourceID b =s? wf_RunID c) && (sb_NodeID b =s? wf_PendingStep c)
  && (sb_ContinuationID b =s? wf_GraphID c) && (sb_ContinuationDigest b =s? wf_GraphDigest c)
  && (sb_Generation b =? wf_Generation c).

Section codec.
Context `{WorkflowCodec}.

Definition validateShape (c : WorkflowContinuation) : result ContinuationError unit :=
  require negb (wf_GraphID c =s? "") && negb (wf_GraphVersion c =s? "") && negb (wf_GraphDigest c =s? "")
    && negb (wf_RunID c =s? "") && negb (wf_SessionID c =s? "") && negb (wf_Generation c =? 0)
    && (0 <=? wf_ConsumedBudget c) && (length (wf_Steps c) <=? WorkflowContinuationMaxEntries)%nat
    && ((wd_WorkflowID (wf_Definition c) =s? "") || (wd_WorkflowID (wf_Definition c) =s? wf_GraphID c))
    orelse ErrWorkflowContinuationMalformed;
  require forallb cleanValue (continuationValues c) orelse ErrWorkflowContinuationMalformed;
  require negb (wr_OwnerNamespace (wf_Ref c) =s? "") orelse ErrWorkflowContinuationMalformed;
  require bool_decide (wf_PauseReason c ∈ pauseReasons) orelse ErrWorkflowContinuationUnsupported;
  require negb ((wf_PauseReason c =s? PauseBudgetExhausted) && IsZero (wf_OriginalDeadline c))
    orelse ErrWorkflowContinuationMalformed;
  require validLifetime (wf_CreatedAt c) (wf_ExpiresAt c) orelse ErrWorkflowContinuationMalformed;
  require forallb (fun s => negb (wc_StepID s =s? "") && (0 <=? wc_Attempts s) && (0 <=? wc_ConsumedBudget s))
    (wf_Steps c) orelse ErrWorkflowContinuationMalformed;
  require match wf_HostContextBinding c with Some b => boundHere c b | None => true end
    orelse ErrWorkflowContinuationForeign;
  _ ←ₑ validateRef (completedRef c);
  require match continuationJSON c with
          | Some envelope => Z.of_nat (length (bytes envelope)) <=? WorkflowContinuationMaxBytes
          | None => false
          end orelse ErrWorkflowContinuationMalformed;
  Ok tt.

(** The digest of the continuation without its digest; a failed encoding is
    empty. *)
Definition workflowDigest (c : WorkflowContinuation) : string :=
  digestHex (default "" (continuationJSON (c <| wf_Ref ::= fun r => r <| wr_Digest := "" |> |>))).

Definition validateContinuation (c : WorkflowContinuation) : result ContinuationError unit :=
  _ ←ₑ validateShape c;
  require wr_Digest (wf_Ref c) =s? workflowDigest c orelse ErrWorkflowContinuationCorrupt;
  Ok tt.

(** The reference of a continuation about to be sealed. *)
Definition sealedRef (c : WorkflowContinuation) : WorkflowContinuationRef :=
  let r := wf_Ref c in
  mkWorkflowContinuationRef
    (orElse (wr_SchemaVersion r) WorkflowContinuationVersion)
    (orElse (wr_CheckpointID r)
       (wf_GraphID c +:+ ":" +:+ wf_RunID c +:+ ":" +:+ itoa (wf_Generation c)))
    "pending"
    (wr_OwnerNamespace r)
    (orElse (wr_GraphID r) (wf_GraphID c))
    (orElse (wr_GraphVersion r) (wf_GraphVersion c))
    (orElse (wr_RunID r) (wf_RunID c))
    (orElse (wr_SessionID r) (wf_SessionID c))
    (orElse (wr_ParentRunID r) (wf_ParentRunID c))
    (orElse (wr_CausationID r) (wf_CausationID c))
    (orElse (wr_AuthorityDigest r) (wf_AuthorityDigest c))
    (orElse (wr_PlanDigest r) (wf_PlanDigest c))
    (orElse (wr_WriteScopeDigest r) (wf_WriteScopeDigest c))
    (orElse (wr_EffectNamespace r) (wf_EffectNamespace c))
    (orElse (wr_OccurrenceID r) (wf_OccurrenceID c))
    (orElse (wr_PauseReason r) (wf_PauseReason c))
    (if IsZero (wr_CreatedAt r) then wf_CreatedAt c else wr_CreatedAt r)
    (if IsZero (wr_ExpiresAt r) then wf_ExpiresAt c else wr_ExpiresAt r).

Definition SealWorkflowContinuation (c : WorkflowContinuation) : result ContinuationError WorkflowContinuation :=
  let c := c <| wf_Ref := sealedRef c |> in
  _ ←ₑ validateShape c;
  Ok (c <| wf_Ref ::= fun r => r <| wr_Digest := workflowDigest c |> |>).

(** [WorkflowResumeRequest.Validate]. *)
Definition validateRequest (r : WorkflowResumeRequest) : result ContinuationError unit :=
  _ ←ₑ validateRef (rq_Ref r);
  require negb (rq_GraphDigest r =s? "") && negb (rq_Generation r =? 0) && negb (rq_IdempotencyKey r =s? "")
    orelse ErrWorkflowContinuationMalformed;
  require forallb cleanValue [rq_AuthorityDigest r; rq_PlanDigest r; rq_WriteScopeDigest r;
                              rq_EffectNamespace r; rq_OccurrenceID r]
    orelse ErrWorkflowContinuationMalformed;
  Ok tt.

Definition identity (r : WorkflowResumeRequest) : string := digestHex (default "" (identityJSON r)).

Definition sameWorkflowRunResult (a b : RunResult) : bool :=
  match runResultJSON a, runResultJSON b with
  | Some x, Some y => x =s? y
  | _, _ => false
  end.

(** ** The memory store *)

Inductive WorkflowResumeClaimState : Type :=
| WorkflowResumeClaimClaimed
| WorkflowResumeClaimRunning
| WorkflowResumeClaimCompleted
| WorkflowResumeClaimRecoveryRequired.

#[export] Instance WorkflowResumeClaimState_eq_dec : EqDecision WorkflowResumeClaimState.
Proof. solve_decision. Defined.

Record WorkflowResumeClaim : Type := mkWorkflowResumeClaim {
  wl_Request : WorkflowResumeRequest;
  wl_AttemptID : string;
  wl_Generation : Z;
  wl_State : WorkflowResumeClaimState;
  wl_Duplicate : bool;
  wl_Result : option RunResult
}.
#[export] Instance eta_WorkflowResumeClaim : Settable WorkflowResumeClaim := fun r =>
  mkWorkflowResumeClaim (wl_Request r) (wl_AttemptID r) (wl_Generation r) (wl_State r) (wl_Duplicate r)
    (wl_Result r).

(** The claim is a pointer. *)
Record workflowRecord : Type := mkWorkflowRecord {
  wo_Continuation : WorkflowContinuation;
  wo_Claim : option nat;
  wo_Identity : string;
  wo_Successor : option WorkflowContinuation
}.
#[export] Instance eta_workflowRecord : Settable workflowRecord := fun r =>
  mkWorkflowRecord (wo_Continuation r) (wo_Claim r) (wo_Identity r) (wo_Successor r).

Record MemoryWorkflowContinuationStore : Type := mkMemoryWorkflowContinuationStore {
  mw_namespace : string;
  mw_records : gmap string workflowRecord;
  mw_heap : gmap nat WorkflowResumeClaim;
  mw_next : nat
}.
#[export] Instance eta_MemoryWorkflowContinuationStore : Settable MemoryWorkflowContinuationStore := fun s =>
  mkMemoryWorkflowContinuationStore (mw_namespace s) (mw_records s) (mw_heap s) (mw_next s).

Abbreviation cstore := MemoryWorkflowContinuationStore.

Definition NewMemoryWorkflowContinuationStore (namespace : string) : cstore :=
  mkMemoryWorkflowContinuationStore (TrimSpace namespace) ∅ ∅ 0.

Definition memSave (c : WorkflowContinuation) (s : cstore) : cstore * result ContinuationError unit :=
  if mw_namespace s =s? "" then (s, Err ErrWorkflowContinuationUnavailable)
  else match validateContinuation c with
  | Err e => (s, Err e)
  | Ok _ =>
      if negb (wr_OwnerNamespace (wf_Ref c) =s? mw_namespace s) then (s, Err ErrWorkflowContinuationForeign)
      else match mw_records s !! wr_CheckpointID (wf_Ref c) with
      | Some old =>
          if wr_Digest (wf_Ref (wo_Continuation old)) =s? wr_Digest (wf_Ref c) then (s, Ok tt)
          else (s, Err ErrWorkflowContinuationConflict)
      | None =>
          (s <| mw_records ::= <[wr_CheckpointID (wf_Ref c) := mkWorkflowRecord c None "" None]> |>, Ok tt)
      end
  end.

Definition memLoad (now : Time) (ref : WorkflowContinuationRef) (s : cstore)
  : result ContinuationError WorkflowContinuation :=
  require negb (mw_namespace s =s? "") orelse ErrWorkflowContinuationUnavailable;
  _ ←ₑ validateRef ref;
  require wr_OwnerNamespace ref =s? mw_namespace s orelse ErrWorkflowContinuationForeign;
  match mw_records s !! wr_CheckpointID ref with
  | None => Err ErrWorkflowContinuationUnavailable
  | Some r =>
      require wr_Digest (wf_Ref (wo_Continuation r)) =s? wr_Digest ref orelse ErrWorkflowContinuationForeign;
      require Before now (wf_ExpiresAt (wo_Continuation r)) orelse ErrWorkflowContinuationExpired;
      _ ←ₑ validateContinuation (wo_Continuation r);
      Ok (wo_Continuation r)
  end.

(** A claim is returned beside some errors. *)
Abbreviation claiming := (cstore * (option WorkflowResumeClaim * option ContinuationError))%type.

(** The object behind the claim pointer of a record. *)
Definition claimOf (s : cstore) (r : workflowRecord) : option WorkflowResumeClaim :=
  p ← wo_Claim r; mw_heap s !! p.

Definition memClaimResume (now : Time) (req : WorkflowResumeRequest) (s : cstore) : claiming :=
  let fail e := (s, (None, Some e)) in
  let id := wr_CheckpointID (rq_Ref req) in
  if mw_namespace s =s? "" then fail ErrWorkflowContinuationUnavailable
  else match validateRequest req with
  | Err e => fail e
  | Ok _ =>
      if negb (wr_OwnerNamespace (rq_Ref req) =s? mw_namespace s) then fail ErrWorkflowContinuationForeign
      else match mw_records s !! id with
      | None => fail ErrWorkflowContinuationUnavailable
      | Some r =>
          match validateContinuation (wo_Continuation r) with
          | Err e => fail e
          | Ok _ =>
              let c := wo_Continuation r in
              if negb (wr_Digest (wf_Ref c) =s? wr_Digest (rq_Ref req))
                 || negb (wf_GraphDigest c =s? rq_GraphDigest req) || negb (wf_Generation c =? rq_Generation req)
              then fail ErrWorkflowContinuationConflict
              else if negb (Before now (wf_ExpiresAt c)) then fail ErrWorkflowContinuationExpired
              else match claimOf s r with
              | Some held =>
                  if negb (wo_Identity r =s? identity req) then fail ErrWorkflowContinuationConflict
                  else
                    let duplicate := held <| wl_Duplicate := true |> in
                    match wl_Result held with
                    | None =>
                        if bool_decide (wl_State held = WorkflowResumeClaimRecoveryRequired)
                        then (s, (Some duplicate, Some ErrWorkflowContinuationRecoveryRequired))
                        else (s, (Some duplicate, Some ErrWorkflowContinuationInProgress))
                    | Some _ => (s, (Some duplicate, None))
                    end
              | None =>
                  let claim := mkWorkflowResumeClaim req (id +:+ ":attempt") (wrap_u64 (rq_Generation req + 1))
                                 WorkflowResumeClaimClaimed false None in
                  (s <| mw_heap ::= <[mw_next s := claim]> |>
                     <| mw_records ::= <[id := r <| wo_Claim := Some (mw_next s) |> <| wo_Identity := identity req |>]> |>
                     <| mw_next ::= S |>,
                   (Some claim, None))
              end
          end
      end
  end.

(** The record of a claim, with the object behind its pointer, when the claim is
    the one the record holds. *)
Definition heldClaim (s : cstore) (claim : WorkflowResumeClaim) : option (workflowRecord * nat * WorkflowResumeClaim) :=
  r ← mw_records s !! wr_CheckpointID (rq_Ref (wl_Request claim));
  p ← wo_Claim r;
  held ← mw_heap s !! p;
  if (wo_Identity r =s? identity (wl_Request claim)) && (wl_AttemptID held =s? wl_AttemptID claim)
  then Some (r, p, held) else None.

Definition memMarkResumeRunning (claim : WorkflowResumeClaim) (s : cstore) : claiming :=
  let fail e := (s, (None, Some e)) in
  if mw_namespace s =s? "" then fail ErrWorkflowContinuationUnavailable
  else match heldClaim s claim with
  | None => fail ErrWorkflowContinuationConflict
  | Some (r, p, held) =>
      if bool_decide (is_Some (wl_Result held)) || bool_decide (wl_State held = WorkflowResumeClaimCompleted)
      then fail ErrWorkflowContinuationConflict
      else if bool_decide (wl_State held = WorkflowResumeClaimRecoveryRequired)
      then fail ErrWorkflowContinuationRecoveryRequired
      else
        let running := held <| wl_State := WorkflowResumeClaimRunning |> in
        (s <| mw_heap ::= <[p := running]> |>, (Some running, None))
  end.

Definition sameLineage (predecessor successor : WorkflowContinuation) : bool :=
  (wr_OwnerNamespace (wf_Ref successor) =s? wr_OwnerNamespace (wf_Ref predecessor))
  && (wf_PredecessorCheckpointID successor =s? wr_CheckpointID (wf_Ref predecessor))
  && (wf_Generation successor =? wrap_u64 (wf_Generation predecessor + 1))
  && (wf_GraphID successor =s? wf_GraphID predecessor) && (wf_GraphVersion successor =s? wf_GraphVersion predecessor)
  && (wf_GraphDigest successor =s? wf_GraphDigest predecessor)
  && (wf_ParentRunID successor =s? wf_ParentRunID predecessor) && (wf_RunID successor =s? wf_RunID predecessor)
  && (wf_SessionID successor =s? wf_SessionID predecessor) && (wf_CausationID successor =s? wf_CausationID predecessor)
  && (wf_AuthorityDigest successor =s? wf_AuthorityDigest predecessor)
  && (wf_PlanDigest successor =s? wf_PlanDigest predecessor)
  && (wf_WriteScopeDigest successor =s? wf_WriteScopeDigest predecessor)
  && (wf_EffectNamespace successor =s? wf_EffectNamespace predecessor)
  && (wf_OccurrenceID successor =s? wf_OccurrenceID predecessor).

Definition validateWorkflowSuccessor (predecessor successor : WorkflowContinuation) (res : RunResult)
  : result ContinuationError unit :=
  _ ←ₑ validateContinuation successor;
  require match rr_WorkflowCheckpoint res with
          | Some ref => (wr_CheckpointID ref =s? wr_CheckpointID (wf_Ref successor))
                        && (wr_Digest ref =s? wr_Digest (wf_Ref successor))
          | None => false
          end && sameLineage predecessor successor orelse ErrWorkflowContinuationConflict;
  Ok tt.

(** The end of a commit: the result is written behind the pointer, the record is
    stored last. *)
Definition commitClaim (id : string) (r : workflowRecord) (p : nat) (held : WorkflowResumeClaim) (res : RunResult)
    (s : cstore) : claiming :=
  let done := held <| wl_Result := Some res |> <| wl_State := WorkflowResumeClaimCompleted |> in
  (s <| mw_heap ::= <[p := done]> |> <| mw_records ::= <[id := r]> |>, (Some done, None)).

Definition memCommitResumeResultWithSuccessor (claim : WorkflowResumeClaim) (res : RunResult)
    (successor : option WorkflowContinuation) (s : cstore) : claiming :=
  let fail e := (s, (None, Some e)) in
  let id := wr_CheckpointID (rq_Ref (wl_Request claim)) in
  match heldClaim s claim with
  | None => fail ErrWorkflowContinuationConflict
  | Some (r, p, held) =>
      match wl_Result held with
      | Some old => if sameWorkflowRunResult old res then (s, (Some held, None))
                    else fail ErrWorkflowContinuationConflict
      | None =>
          if negb (bool_decide (wl_State claim = WorkflowResumeClaimClaimed
                                \/ wl_State claim = WorkflowResumeClaimRunning))
          then fail ErrWorkflowContinuationRecoveryRequired
          else match successor with
          | Some next =>
              match validateWorkflowSuccessor (wo_Continuation r) next res with
              | Err e => fail e
              | Ok _ =>
                  let nid := wr_CheckpointID (wf_Ref next) in
                  if match mw_records s !! nid with
                     | Some existing => negb (wr_Digest (wf_Ref (wo_Continuation existing)) =s? wr_Digest (wf_Ref next))
                     | None => false
                     end
                  then fail ErrWorkflowContinuationConflict
                  else commitClaim id (r <| wo_Successor := Some next |>) p held res
                         (s <| mw_records ::= <[nid := mkWorkflowRecord next None "" None]> |>)
              end
          | None =>
              if bool_decide (is_Some (rr_WorkflowCheckpoint res)) then fail ErrWorkflowContinuationUnsupported
              else commitClaim id r p held res s
          end
      end
  end.

Definition memCommitResumeResult (claim : WorkflowResumeClaim) (res : RunResult) : cstore -> claiming :=
  memCommitResumeResultWithSuccessor claim res None.
End codec.
