(* ===== verification/WorkflowEngine.v ===== *)
(** * Workflow: execution

    [execute] of [orchestration/workflow/engine.go] with what it calls, and the
    pause and resume of [continuation.go]. Adapters, pause controllers, event
    consumers, the context and the clock are an environment that answers from the
    history of the calls made so far; checkpoint stores and continuation stores are
    interfaces. Not modelled: the native history journal, and the host context of a
    resumed step. *)
From S2P Require Import Prelude GoStrings GoNum CoreTypes WorkflowTypes WorkflowCompose.
From S2P Require Import ExecutionGraph WorkflowPlan WorkflowContinuation.

Local Open Scope bool_scope.
Local Open Scope string_scope.
Local Open Scope list_scope.
Local Open Scope Z_scope.

(** ** Checkpoint stores *)

(** [CheckpointStore]. *)
Class CheckpointStore (S : Type) : Type := {
  cpLoad : S -> string -> result string (option Checkpoint);
  cpSave : S -> Checkpoint -> result string S
}.

(** [MemoryCheckpointStore]. *)
Definition MemoryCheckpointStore : Type := gmap string Checkpoint.

Definition memCpLoad (s : MemoryCheckpointStore) (workflowID : string) : result string (option Checkpoint) :=
  Ok (s !! TrimSpace workflowID).

Definition memCpSave (s : MemoryCheckpointStore) (cp : Checkpoint) : result string MemoryCheckpointStore :=
  let key := TrimSpace (cp_WorkflowID cp) in
  require negb (key =s? "") orelse "workflow checkpoint requires workflow_id";
  Ok (<[key := cp]> s).

#[export] Instance memory_checkpoints : CheckpointStore MemoryCheckpointStore :=
  {| cpLoad := memCpLoad; cpSave := memCpSave |}.

(** What the engine relies on: a load returns what the last save of the workflow
    stored. *)
Class CheckpointStoreLaws (S : Type) `{CheckpointStore S} : Prop := {
  cp_load_saved : forall (s s' : S) cp, cpSave s cp = Ok s' -> cpLoad s' (cp_WorkflowID cp) = Ok (Some cp)
}.

#[export] Instance memory_checkpoints_laws : CheckpointStoreLaws MemoryCheckpointStore.
Proof.
  constructor. intros s s' cp. cbn. unfold memCpSave, memCpLoad.
  destruct (negb _); [|done]. intros [= <-]. f_equal. apply (lookup_insert_eq (M := gmap string)).
Qed.

(** ** The environment *)

Inductive CtxError : Type := CtxCanceled | CtxDeadlineExceeded.

(** What an adapter fails with. *)
Inductive StepError : Type :=
| StepPaused (p : PauseError)
| StepDeadline (msg : string)
| StepFailed (msg : string).

Definition StepError_msg (e : StepError) : string :=
  match e with
  | StepPaused p => pe_Reason p +:+ ": workflow paused"
  | StepDeadline msg | StepFailed msg => msg
  end.

(** What a pause controller answers, beside going on. *)
Inductive PauseDecision : Type :=
| PauseNow (p : PauseError)
| PauseFailed (msg : string).

Record WorkflowPauseBoundary : Type := mkWorkflowPauseBoundary {
  pb_WorkflowID : string;
  pb_RunID : string;
  pb_SessionID : string;
  pb_ParentRunID : string;
  pb_CausationID : string;
  pb_Step : Step;
  pb_Attempt : Z
}.

(** [StreamEvent], by its kinds. *)
Inductive StreamEvent : Type :=
| EventResumedStep (r : StepResult)
| EventStep (r : StepResult)
| EventPaused (r : RunResult)
| EventCompleted (r : RunResult).

(** A call of the engine to the outside. *)
Inductive Call : Type :=
| CallTimeline (e : Event)
| CallBeforeDispatch (b : WorkflowPauseBoundary)
| CallExecute (workflowID : string) (step : Step) (attempt : Z) (timeout : Duration)
| CallBackoff (d : Duration)
| CallEvent (e : StreamEvent).

(** The calls, the latest first. *)
Abbreviation history := (list Call).

Record Environment : Type := mkEnvironment {
  env_timeline : bool;
  env_pause : option (history -> WorkflowPauseBoundary -> option PauseDecision);
  env_execute : history -> string -> Step -> Z -> Duration -> result StepError StepOutput;
  env_onEvent : option (history -> StreamEvent -> option string);
  env_ctxErr : history -> option CtxError;
  env_backoff : history -> Duration -> bool;
  env_clock : history -> Time
}.

(** ** Dispatch by kind *)

Abbreviation StepFunc := (history -> string -> Step -> Z -> Duration -> result StepError StepOutput).

Record DispatchAdapter : Type := mkDispatchAdapter {
  da_Runner : option StepFunc;
  da_Tool : option StepFunc;
  da_MCP : option StepFunc;
  da_Skill : option StepFunc;
  da_A2A : option StepFunc
}.

Definition dispatchTo (f : option StepFunc) (name : string) : StepFunc :=
  match f with
  | Some f => f
  | None => fun _ _ _ _ _ => Err (StepFailed ("workflow " +:+ name +:+ " adapter is missing"))
  end.

(** [DispatchAdapter.Execute]. *)
Definition dispatchExecute (a : DispatchAdapter) : StepFunc := fun h workflowID step attempt timeout =>
  let kind := normalizeStepKind (sp_Kind step) in
  if kind =s? StepKindRunner then dispatchTo (da_Runner a) "runner" h workflowID step attempt timeout
  else if kind =s? StepKindTool then dispatchTo (da_Tool a) "tool" h workflowID step attempt timeout
  else if kind =s? StepKindMCP then dispatchTo (da_MCP a) "mcp" h workflowID step attempt timeout
  else if kind =s? StepKindSkill then dispatchTo (da_Skill a) "skill" h workflowID step attempt timeout
  else if kind =s? StepKindA2A then dispatchTo (da_A2A a) "a2a" h workflowID step attempt timeout
  else Err (StepFailed ("unsupported workflow step kind " +:+ sp_Kind step)).

(** ** Requests *)

Record RunRequest : Type := mkRunRequest {
  rn_RunID : string;
  rn_SessionID : string;
  rn_ParentRunID : string;
  rn_CausationID : string;
  rn_AuthorityDigest : string;
  rn_PlanDigest : string;
  rn_WriteScopeDigest : string;
  rn_EffectNamespace : string;
  rn_OccurrenceID : string;
  rn_Resume : bool;
  rn_DSL : WorkflowDefinition;
  rn_HostContextBinding : option SourceBinding;
  rn_continuationPredecessor : string;
  rn_continuationGeneration : Z;
  rn_continuationSteps : gmap string CheckpointStep;
  rn_sourceContinuation : bool
}.

(** The error beside the result. *)
Inductive RunError : Type :=
| RunInvalid (e : WorkflowError)
| RunStore (msg : string)
| RunEvent (msg : string)
| RunPauseController (msg : string)
| RunPaused
| RunContinuation (e : ContinuationError)
| RunContext (e : CtxError).

(** ** Pure parts of the loop *)

Definition isTerminal (status : StepStatus) : bool :=
  match status with
  | StepStatusSucceeded | StepStatusFailed | StepStatusSkipped | StepStatusCanceled => true
  | _ => false
  end.

Abbreviation results_t := (gmap string StepResult).

Definition statusOf (results : results_t) (id : string) : option StepStatus := sr_Status <$> results !! id.

Definition isPending (results : results_t) (step : Step) : bool :=
  bool_decide (statusOf results (sp_StepID step) = Some StepStatusPending).

Definition depTerminal (results : results_t) (d : string) : bool :=
  match results !! d with Some r => isTerminal (sr_Status r) | None => false end.

Definition stepReady (results : results_t) (step : Step) : bool :=
  isPending results step && forallb (depTerminal results) (sp_DependsOn step).

(** Steps by id; the ids are distinct. *)
Definition stepLe (a b : Step) : Prop := String.le (sp_StepID a) (sp_StepID b).

#[export] Instance stepLe_dec a b : Decision (stepLe a b).
Proof. unfold stepLe. apply _. Defined.

Definition readySteps (steps : list Step) (results : results_t) : list Step :=
  merge_sort stepLe (filter (fun s => stepReady results s = true) steps).

Definition conditionMatched (step : Step) (results : results_t) : bool :=
  let failed d := match statusOf results d with
                  | Some StepStatusFailed | Some StepStatusCanceled => true
                  | _ => false
                  end in
  if sp_Condition step =s? ConditionOnSuccess then
    forallb (fun d => bool_decide (statusOf results d = Some StepStatusSucceeded)) (sp_DependsOn step)
  else if sp_Condition step =s? ConditionOnFailure then
    existsb failed (sp_DependsOn step)
  else true.

Definition isA2AStepByID (steps : list Step) (stepID : string) : bool :=
  let id := TrimSpace stepID in
  if id =s? "" then false
  else match List.find (fun s => TrimSpace (sp_StepID s) =s? id) steps with
  | Some s => normalizeStepKind (sp_Kind s) =s? StepKindA2A
  | None => false
  end.

(** The first failed step decides; else the last canceled one. *)
Fixpoint finalStatus (status : string) (l : list StepResult) : string :=
  match l with
  | [] => status
  | r :: l =>
      match sr_Status r with
      | StepStatusFailed => "failed"
      | StepStatusCanceled => finalStatus "canceled" l
      | _ => finalStatus status l
      end
  end.

Definition countIf {A} (p : A -> bool) (l : list A) : Z := Z.of_nat (length (filter (fun x => p x = true) l)).

Definition isFailed (r : StepResult) : bool := bool_decide (sr_Status r = StepStatusFailed).

Definition buildResult (runID workflowID : string) (resumeCount : Z) (steps : list Step) (results : results_t)
    (executionOrder : list string) (summary : graphCompileSummary) : RunResult :=
  let items := omap (fun id => results !! id) (sort_strings (map_to_list results).*1) in
  let remote r := isA2AStepByID steps (sr_StepID r) in
  mkRunResult (TrimSpace runID) workflowID (finalStatus "succeeded" items) (Z.of_nat (length steps))
    (countIf isFailed items) (countIf remote items) (countIf (fun r => isFailed r && remote r) items)
    (gs_SubgraphExpansionTotal summary) (gs_ConditionTemplateTotal summary) (gs_GraphCompileFailed summary)
    resumeCount items executionOrder None 0 "" None.

(** [RunResult.RunFinishedPayload]. *)
Definition RunFinishedPayload (r : RunResult) : any_map :=
  list_to_map [
    ("workflow_id", AnyString (rr_WorkflowID r));
    ("workflow_status", AnyString (rr_WorkflowStatus r));
    ("workflow_step_total", AnyInt (rr_WorkflowStepTotal r));
    ("workflow_step_failed", AnyInt (rr_WorkflowStepFailed r));
    ("workflow_remote_step_total", AnyInt (rr_WorkflowRemoteTotal r));
    ("workflow_remote_step_failed", AnyInt (rr_WorkflowRemoteFailed r));
    ("workflow_subgraph_expansion_total", AnyInt (rr_WorkflowSubgraphExpansionTotal r));
    ("workflow_condition_template_total", AnyInt (rr_WorkflowConditionTemplateTotal r));
    ("workflow_graph_compile_failed", AnyBool (rr_WorkflowGraphCompileFailed r));
    ("workflow_resume_count", AnyInt (rr_WorkflowResumeCount r))].

(** One more attempt than retries, in the width of the machine. *)
Definition maxAttempts (step : Step) : Z :=
  let n := wrap_i64 (re_MaxAttempts (sp_Retry step) + 1) in
  if n <=? 0 then 1 else n.

Definition stepTimeout (defaultStepTimeout : Duration) (step : Step) : Duration :=
  let t := if sp_Timeout step <=? 0 then defaultStepTimeout else sp_Timeout step in
  if t <=? 0 then 3 * Second else t.

(** ** Timeline *)

Record workflowStepTimelineContext : Type := mkWorkflowStepTimelineContext {
  wt_stepID : string;
  wt_taskID : string;
  wt_teamID : string;
  wt_agentID : string;
  wt_peerID : string;
  wt_dispatchReason : string
}.

Definition newWorkflowStepTimelineContext (step : Step) : workflowStepTimelineContext :=
  let id := TrimSpace (sp_StepID step) in
  mkWorkflowStepTimelineContext id (orElse (TrimSpace (sp_TaskID step)) id) (TrimSpace (sp_TeamID step))
    (TrimSpace (sp_AgentID step)) (TrimSpace (sp_PeerID step)) (reasonForStepDispatch step).

(** A payload entry that is left out when empty. *)
Definition optionalEntry (k v : string) : list (string * any_value) :=
  if v =s? "" then [] else [(k, AnyString v)].

Definition timelinePayload (workflowID : string) (m : workflowStepTimelineContext) (status : StepStatus)
    (reason : string) (seq : Z) : any_map :=
  list_to_map ([
    ("phase", AnyString "run");
    ("status", AnyString (StepStatus_string status));
    ("sequence", AnyInt seq);
    ("reason", AnyString reason);
    ("workflow_id", AnyString (TrimSpace workflowID))]
    ++ optionalEntry "step_id" (wt_stepID m) ++ optionalEntry "task_id" (wt_taskID m)
    ++ optionalEntry "team_id" (wt_teamID m) ++ optionalEntry "agent_id" (wt_agentID m)
    ++ optionalEntry "peer_id" (wt_peerID m)).

(** ** The run *)

Record RunState (CP CS : Type) : Type := mkRunState {
  rs_results : results_t;
  rs_seq : Z;
  rs_history : history;
  rs_order : list string;
  rs_checkpoints : option CP;
  rs_continuations : option CS
}.
Arguments mkRunState {CP CS}.
Arguments rs_results {CP CS}.
Arguments rs_seq {CP CS}.
Arguments rs_history {CP CS}.
Arguments rs_order {CP CS}.
Arguments rs_checkpoints {CP CS}.
Arguments rs_continuations {CP CS}.
#[export] Instance eta_RunState CP CS : Settable (RunState CP CS) := fun r =>
  mkRunState (rs_results r) (rs_seq r) (rs_history r) (rs_order r) (rs_checkpoints r) (rs_continuations r).

(** A part of the run: it goes on with a value, or the run returns. *)
Inductive step_outcome (A : Type) : Type :=
| Continue (a : A)
| Return (r : RunResult) (e : RunError).
Arguments Continue {A}.
Arguments Return {A}.

(** The store of continuations, as the engine uses it: with its clock. *)
Class ContinuationStore (T : Type) : Type := {
  csSave : WorkflowContinuation -> T -> T * result ContinuationError unit;
  csLoad : Time -> WorkflowContinuationRef -> T -> T * result ContinuationError WorkflowContinuation;
  csClaimResume : Time -> WorkflowResumeRequest -> T -> T * (option WorkflowResumeClaim * option ContinuationError);
  csMarkResumeRunning : WorkflowResumeClaim -> T -> T * (option WorkflowResumeClaim * option ContinuationError);
  csCommit : WorkflowResumeClaim -> RunResult -> option WorkflowContinuation -> T ->
             T * (option WorkflowResumeClaim * option ContinuationError)
}.

#[export] Instance memory_continuations `{WorkflowCodec} : ContinuationStore MemoryWorkflowContinuationStore :=
  {| csSave := memSave;
     csLoad now ref s := (s, memLoad now ref s);
     csClaimResume := memClaimResume;
     csMarkResumeRunning := memMarkResumeRunning;
     csCommit := memCommitResumeResultWithSuccessor |}.

Section engine.
Context `{RangeOrder} `{WorkflowCodec} {CP CS : Type} `{CheckpointStore CP} `{ContinuationStore CS}.
Context (env : Environment) (defaultStepTimeout : Duration) (namespace : string).

Abbreviation run A := (RunState CP CS -> RunState CP CS * step_outcome A).

Definition ret {A} (a : A) : run A := fun st => (st, Continue a).
Definition stop {A} (r : RunResult) (e : RunError) : run A := fun st => (st, Return r e).
Definition then_ {A B} (m : run A) (k : A -> run B) : run B := fun st =>
  match m st with
  | (st, Continue a) => k a st
  | (st, Return r e) => (st, Return r e)
  end.
Definition get : run (RunState CP CS) := fun st => (st, Continue st).
Definition modify (f : RunState CP CS -> RunState CP CS) : run unit := fun st => (f st, Continue tt).

#[local] Notation "x '<~' m ';;' k" := (then_ m (fun x => k)) (at level 100, m at next level, right associativity).
#[local] Notation "m '>>' k" := (then_ m (fun _ => k)) (at level 100, k at level 200, only parsing).

Definition record (c : Call) : run unit := modify (fun st => st <| rs_history ::= cons c |>).

(** [results[id]] updated in place. *)
Definition update (id : string) (f : StepResult -> StepResult) : run unit :=
  modify (fun st => st <| rs_results ::= alter f id |>).

Section request.
Context (req : RunRequest) (def : WorkflowDefinition) (summary : graphCompileSummary).

(** [emitTimeline], without a native history. *)
Definition emitTimeline (m : workflowStepTimelineContext) (status : StepStatus) (reason : string) : run unit :=
  fun st =>
    if env_timeline env then
      let seq := wrap_i64 (rs_seq st + 1) in
      let event := mkEvent "v1" "action.timeline" (TrimSpace (rn_RunID req)) (env_clock env (rs_history st))
                     (timelinePayload (wd_WorkflowID def) m status reason seq) in
      (st <| rs_seq := seq |> <| rs_history ::= cons (CallTimeline event) |>, Continue tt)
    else (st, Continue tt).

(** The consumer of the stream, when there is one. *)
Definition notify (e : StreamEvent) : run unit := fun st =>
  match env_onEvent env with
  | None => (st, Continue tt)
  | Some f =>
      let st' := st <| rs_history ::= cons (CallEvent e) |> in
      match f (rs_history st) e with
      | None => (st', Continue tt)
      | Some msg => (st', Return zeroRunResult (RunEvent msg))
      end
  end.

Definition checkpointSteps (results : results_t) : gmap string CheckpointStep :=
  (fun r => mkCheckpointStep (sr_Status r) (sr_Attempts r)) <$> results.

Definition saveCheckpoint (status : string) (resumeCount : Z) : run unit := fun st =>
  match rs_checkpoints st with
  | None => (st, Continue tt)
  | Some s =>
      let cp := mkCheckpoint (wd_WorkflowID def) (TrimSpace (rn_RunID req)) (TrimSpace status) resumeCount
                  (checkpointSteps (rs_results st)) (env_clock env (rs_history st)) in
      match cpSave s cp with
      | Ok s => (st <| rs_checkpoints := Some s |>, Continue tt)
      | Err msg => (st, Return zeroRunResult (RunStore msg))
      end
  end.

(** Not for a run that resumes a continuation. *)
Definition saveUnlessContinuation (status : string) (resumeCount : Z) : run unit :=
  if rn_sourceContinuation req then ret tt else saveCheckpoint status resumeCount.

(** *** Pausing *)

Definition workflowDefinitionDigest (d : WorkflowDefinition) : string :=
  digestHex (default "" (definitionJSON (normalizeDefinition d))).

Definition workflowHostContextBinding (pendingStep graphDigest : string) (generation : Z) : option SourceBinding :=
  match rn_HostContextBinding req with
  | None => None
  | Some _ => Some (mkSourceBinding SourceFormWorkflow namespace (rn_RunID req) pendingStep (wd_WorkflowID def)
                      graphDigest generation)
  end.

(** The state of a step in a continuation; the encoding of its output may
    fail. *)
Definition stepContinuation (id : string) (r : StepResult) : option WorkflowStepContinuation :=
  digest ← match ou_Payload (sr_Output r) with
           | None => Some ""
           | Some payload => digestHex <$> payloadJSON payload
           end;
  Some (mkWorkflowStepContinuation id (sr_Status r) (sr_Attempts r) 0
          (TrimSpace (ou_EffectReference (sr_Output r))) digest).

(** The steps by ascending id. *)
Definition stepContinuations (results : results_t) : option (list WorkflowStepContinuation) :=
  mapM (fun id => r ← results !! id; stepContinuation id r) (sort_strings (map_to_list results).*1).

Definition pausedContinuation (now : Time) (pendingStep : string) (pause : PauseError)
    (steps : list WorkflowStepContinuation) : WorkflowContinuation :=
  let deadline := if (pe_Reason pause =s? PauseBudgetExhausted) && IsZero (pe_OriginalDeadline pause)
                  then TimeAdd now continuationTTL else pe_OriginalDeadline pause in
  let generation := wrap_u64 (rn_continuationGeneration req + 1) in
  mkWorkflowContinuation
    (mkWorkflowContinuationRef "" "" "" namespace "" "" "" "" "" "" "" "" "" "" "" "" 0 0)
    (wd_WorkflowID def) "v1" (workflowDefinitionDigest def) (TrimSpace (rn_ParentRunID req))
    (TrimSpace (rn_RunID req)) (TrimSpace (rn_SessionID req)) (TrimSpace (rn_CausationID req))
    (TrimSpace (rn_AuthorityDigest req)) (TrimSpace (rn_PlanDigest req)) (TrimSpace (rn_WriteScopeDigest req))
    (TrimSpace (rn_EffectNamespace req)) (TrimSpace (rn_OccurrenceID req)) (pe_Reason pause) def steps
    pendingStep (TrimSpace (pe_PendingActionReference pause)) (pe_ConsumedBudget pause) deadline ""
    (rn_continuationPredecessor req) "" generation now (TimeAdd now continuationTTL)
    (workflowHostContextBinding pendingStep (workflowDefinitionDigest def) generation).

Definition persistContinuation (pendingStep : string) (pause : PauseError) : run WorkflowContinuation := fun st =>
  let fail e := (st, Return zeroRunResult (RunContinuation e)) in
  match rs_continuations st with
  | None => fail ErrWorkflowContinuationUnsupported
  | Some store =>
      if TrimSpace namespace =s? "" then fail ErrWorkflowContinuationUnsupported
      else match stepContinuations (rs_results st) with
      | None => fail ErrWorkflowContinuationMalformed
      | Some steps =>
          match SealWorkflowContinuation
                  (pausedContinuation (env_clock env (rs_history st)) pendingStep pause steps) with
          | Err e => fail e
          | Ok c =>
              if rn_sourceContinuation req then (st, Continue c)
              else match csSave c store with
              | (store, Ok _) => (st <| rs_continuations := Some store |>, Continue c)
              | (store, Err e) => (st <| rs_continuations := Some store |>,
                                   Return zeroRunResult (RunContinuation e))
              end
          end
      end
  end.

Definition persistPausedResult (pendingStep : string) (pause : PauseError) (resumeCount : Z) : run unit :=
  paused <~ persistContinuation pendingStep pause;;
  st <~ get;;
  let out := buildResult (rn_RunID req) (wd_WorkflowID def) resumeCount (wd_Steps def) (rs_results st)
               (rs_order st) summary in
  let out := out <| rr_WorkflowStatus := pe_Reason pause |>
                 <| rr_WorkflowCheckpoint := Some (wf_Ref paused) |>
                 <| rr_WorkflowCheckpointGeneration := wf_Generation paused |>
                 <| rr_WorkflowGraphDigest := wf_GraphDigest paused |>
                 <| rr_workflowSuccessor := if rn_sourceContinuation req then Some paused else None |> in
  _ <~ notify (EventPaused out);;
  stop out RunPaused.

(** The step goes back to pending before the pause is persisted. *)
Definition pauseAt (step : Step) (attempt : Z) (pause : PauseError) (resumeCount : Z) : run unit :=
  _ <~ update (sp_StepID step) (fun r => r <| sr_Status := StepStatusPending |> <| sr_Attempts := attempt - 1 |>);;
  persistPausedResult (sp_StepID step) pause resumeCount.

(** *** Attempts *)

(** The pause controller, when there is one. *)
Definition beforeDispatch (step : Step) (attempt : Z) : run (option PauseError) := fun st =>
  match env_pause env with
  | None => (st, Continue None)
  | Some f =>
      let b := mkWorkflowPauseBoundary (wd_WorkflowID def) (rn_RunID req) (rn_SessionID req)
                 (rn_ParentRunID req) (rn_CausationID req) step attempt in
      let st' := st <| rs_history ::= cons (CallBeforeDispatch b) |> in
      match f (rs_history st) b with
      | None => (st', Continue None)
      | Some (PauseNow p) => (st', Continue (Some p))
      | Some (PauseFailed msg) => (st', Return zeroRunResult (RunPauseController msg))
      end
  end.

Definition callAdapter (step : Step) (attempt : Z) : run (result StepError StepOutput) := fun st =>
  let timeout := stepTimeout defaultStepTimeout step in
  (st <| rs_history ::= cons (CallExecute (wd_WorkflowID def) step attempt timeout) |>,
   Continue (env_execute env (rs_history st) (wd_WorkflowID def) step attempt timeout)).

Definition ctxErr : run (option CtxError) := fun st => (st, Continue (env_ctxErr env (rs_history st))).

(** The wait between two attempts: did the context end it? *)
Definition waitBackoff (d : Duration) : run bool := fun st =>
  (st <| rs_history ::= cons (CallBackoff d) |>, Continue (env_backoff env (rs_history st) d)).

Definition setStatus (status : StepStatus) (reason : string) (r : StepResult) : StepResult :=
  r <| sr_Status := status |> <| sr_Reason := reason |>.

(** The wait before the next attempt. *)
Definition backoff (step : Step) : run unit :=
  if 0 <? re_Backoff (sp_Retry step) then
    ended <~ waitBackoff (re_Backoff (sp_Retry step));;
    if ended : bool then update (sp_StepID step) (setStatus StepStatusCanceled "cancel.propagated") else ret tt
  else ret tt.

(** After the adapter failed: cancel, give up after the last attempt, or try
    again. *)
Definition afterFailure (step : Step) (m : workflowStepTimelineContext) (dispatchReason : string) (e : StepError)
    (last : bool) (again : run unit) : run unit :=
  let id := sp_StepID step in
  _ <~ update id (fun r => r <| sr_Output := zeroStepOutput |> <| sr_Error := StepError_msg e |>);;
  canceled <~ ctxErr;;
  match canceled with
  | Some _ =>
      _ <~ update id (setStatus StepStatusCanceled "cancel.propagated");;
      emitTimeline m StepStatusCanceled dispatchReason
  | None =>
      _ <~ update id (setStatus StepStatusFailed
                        match e with StepDeadline _ => "step.timeout" | _ => "step.error" end);;
      if last then emitTimeline m StepStatusFailed dispatchReason
      else
        _ <~ emitTimeline m StepStatusPending ReasonRetry;;
        _ <~ backoff step;;
        again
  end.

(** The attempts of one step: [remaining] of them, the first being number
    [attempt]. *)
Fixpoint attempts (step : Step) (m : workflowStepTimelineContext) (dispatchReason : string) (resumeCount : Z)
    (remaining : nat) (attempt : Z) : run unit :=
  match remaining with
  | O => ret tt
  | S remaining =>
      let id := sp_StepID step in
      _ <~ update id (fun r => r <| sr_Attempts := attempt |> <| sr_Status := StepStatusRunning |>);;
      _ <~ emitTimeline m StepStatusRunning dispatchReason;;
      pause <~ beforeDispatch step attempt;;
      match pause with
      | Some p => pauseAt step attempt p resumeCount
      | None =>
          res <~ callAdapter step attempt;;
          match res with
          | Ok output =>
              _ <~ update id (fun r => setStatus StepStatusSucceeded "" r <| sr_Error := "" |> <| sr_Output := output |>);;
              emitTimeline m StepStatusSucceeded dispatchReason
          | Err (StepPaused p) => pauseAt step attempt p resumeCount
          | Err e =>
              afterFailure step m dispatchReason e (bool_decide (remaining = 0%nat))
                (attempts step m dispatchReason resumeCount remaining (attempt + 1))
          end
      end
  end.

(** *** Steps *)

Definition notifyStep (id : string) : run unit :=
  st <~ get;;
  match rs_results st !! id with
  | Some r => notify (EventStep r)
  | None => ret tt
  end.

(** One step of a round. *)
Definition processStep (resumeCount : Z) (step : Step) : run unit :=
  let id := sp_StepID step in
  st <~ get;;
  if negb (isPending (rs_results st) step) then ret tt
  else
    let m := newWorkflowStepTimelineContext step in
    let dispatchReason := orElse (wt_dispatchReason m) (reasonForStepDispatch step) in
    _ <~ modify (fun st => st <| rs_order ::= fun o => o ++ [id] |>);;
    _ <~ (if negb (conditionMatched step (rs_results st)) then
            _ <~ update id (setStatus StepStatusSkipped "condition.not_matched");;
            emitTimeline m StepStatusSkipped dispatchReason
          else attempts step m dispatchReason resumeCount (Z.to_nat (maxAttempts step)) 1);;
    _ <~ notifyStep id;;
    saveUnlessContinuation "running" resumeCount.

Fixpoint processSteps (resumeCount : Z) (l : list Step) : run unit :=
  match l with
  | [] => ret tt
  | s :: l => _ <~ processStep resumeCount s;; processSteps resumeCount l
  end.

(** The rounds, until no step is ready. *)
Fixpoint rounds (fuel : nat) (resumeCount : Z) : run unit :=
  match fuel with
  | O => ret tt
  | S fuel =>
      st <~ get;;
      match readySteps (wd_Steps def) (rs_results st) with
      | [] => ret tt
      | ready => _ <~ processSteps resumeCount ready;; rounds fuel resumeCount
      end
  end.

(** *** Restoring *)

(** One entry of a checkpoint or of a continuation. *)
Definition restoreStep (steps : gmap string CheckpointStep) (id : string) : run unit :=
  st <~ get;;
  match steps !! id, rs_results st !! id with
  | Some saved, Some _ =>
      match cs_Status saved with
      | StepStatusSucceeded | StepStatusSkipped =>
          let restore r := r <| sr_Status := cs_Status saved |> <| sr_Attempts := cs_Attempts saved |> in
          _ <~ update id restore;;
          _ <~ match List.find (fun s => sp_StepID s =s? id) (rev (wd_Steps def)) with
               | Some s => emitTimeline (newWorkflowStepTimelineContext s) (cs_Status saved) ReasonResume
               | None => ret tt
               end;;
          st <~ get;;
          match rs_results st !! id with
          | Some r => notify (EventResumedStep r)
          | None => ret tt
          end
      | _ => update id (fun r => r <| sr_Status := StepStatusPending |> <| sr_Attempts := 0 |>)
      end
  | _, _ => ret tt
  end.

Fixpoint restoreSteps (steps : gmap string CheckpointStep) (l : list string) : run unit :=
  match l with
  | [] => ret tt
  | id :: l => _ <~ restoreStep steps id;; restoreSteps steps l
  end.

(** Resume from a continuation or from a checkpoint; the number of resumes. *)
Definition restore : run Z :=
  if rn_sourceContinuation req then
    _ <~ restoreSteps (rn_continuationSteps req) (range_order (rn_continuationSteps req));; ret 1
  else if rn_Resume req then
    st <~ get;;
    match rs_checkpoints st with
    | None => ret 0
    | Some s =>
        match cpLoad s (wd_WorkflowID def) with
        | Err msg => stop zeroRunResult (RunStore msg)
        | Ok None => ret 0
        | Ok (Some cp) =>
            _ <~ restoreSteps (cp_Steps cp) (range_order (cp_Steps cp));;
            ret (wrap_i64 (cp_ResumeCount cp + 1))
        end
    end
  else ret 0.

(** The records a run starts from. *)
Definition initialResults : results_t :=
  foldl (fun m s => <[sp_StepID s := mkStepResult (sp_StepID s) (sp_TaskID s) StepStatusPending 0 "" "" zeroStepOutput]> m)
    ∅ (wd_Steps def).

(** Every round with a ready step finishes one, so that the rounds are at most the
    steps, and one that finds none. *)
Definition runFuel : nat := S (length (wd_Steps def)).

Definition runSteps : run RunResult :=
  resumeCount <~ restore;;
  _ <~ rounds runFuel resumeCount;;
  st <~ get;;
  let out := buildResult (rn_RunID req) (wd_WorkflowID def) resumeCount (wd_Steps def) (rs_results st)
               (rs_order st) summary in
  _ <~ saveUnlessContinuation (rr_WorkflowStatus out) resumeCount;;
  _ <~ notify (EventCompleted out);;
  ret out.
End request.

(** [Run] and [Stream]: the state at the end, with the calls that were made, and
    the result with its error. *)
Definition execute (enabled : bool) (req : RunRequest) (checkpoints : option CP) (continuations : option CS)
  : RunState CP CS * (RunResult * option RunError) :=
  let start results := mkRunState results 0 [] [] checkpoints continuations in
  match compileDefinition enabled (normalizeDefinition (rn_DSL req)) with
  | (_, Err e) => (start ∅, (zeroRunResult, Some (RunInvalid e)))
  | (summary, Ok def) =>
      match ValidateDefinition def with
      | [] =>
          match runSteps req def summary (start (initialResults def)) with
          | (st, Return r e) => (st, (r, Some e))
          | (st, Continue out) => (st, (out, RunContext <$> env_ctxErr env (rs_history st)))
          end
      | errs => (start ∅, (zeroRunResult, Some (RunInvalid (ErrValidation errs))))
      end
  end.

(** ** Resuming a continuation *)

(** What a resume ends with: the stores, the calls, the result and its error. *)
Record Resumed : Type := mkResumed {
  re_store : CS;
  re_checkpoints : option CP;
  re_calls : history;
  re_result : RunResult;
  re_error : option RunError
}.

Definition continuationRequest (c : WorkflowContinuation) : RunRequest :=
  mkRunRequest (wf_RunID c) (wf_SessionID c) (wf_ParentRunID c) (wf_CausationID c) (wf_AuthorityDigest c)
    (wf_PlanDigest c) (wf_WriteScopeDigest c) (wf_EffectNamespace c) (wf_OccurrenceID c) true (wf_Definition c)
    (wf_HostContextBinding c) (wr_CheckpointID (wf_Ref c)) (wf_Generation c)
    (foldl (fun m s => <[wc_StepID s := mkCheckpointStep (wc_Status s) (wc_Attempts s)]> m) ∅ (wf_Steps c)) true.

(** [executeFromContinuation], of a continuation whose definition is intact. *)
Definition executeFromContinuation (enabled : bool) (c : WorkflowContinuation) (checkpoints : option CP) (store : CS)
  : Resumed :=
  if negb (wd_WorkflowID (wf_Definition c) =s? wf_GraphID c)
     || negb (workflowDefinitionDigest (wf_Definition c) =s? wf_GraphDigest c)
  then mkResumed store checkpoints [] zeroRunResult (Some (RunContinuation ErrWorkflowContinuationCorrupt))
  else
    let '(st, (out, err)) := execute enabled (continuationRequest c) checkpoints (Some store) in
    mkResumed (default store (rs_continuations st)) (rs_checkpoints st) (rs_history st) out err.

(** The request resumes this very continuation. *)
Definition sameAuthority (request : WorkflowResumeRequest) (c : WorkflowContinuation) : bool :=
  (rq_AuthorityDigest request =s? wf_AuthorityDigest c) && (rq_PlanDigest request =s? wf_PlanDigest c)
  && (rq_WriteScopeDigest request =s? wf_WriteScopeDigest c) && (rq_EffectNamespace request =s? wf_EffectNamespace c)
  && (rq_OccurrenceID request =s? wf_OccurrenceID c).

(** A run that paused again or was canceled is committed as well. *)
Definition commits (err : option RunError) : bool :=
  match err with
  | None | Some RunPaused | Some (RunContext _) => true
  | _ => false
  end.

(** The end of a resume: the result is committed, with the next continuation. *)
Definition commitResumed (claim : WorkflowResumeClaim) (r : Resumed) : Resumed :=
  let fail store e res := mkResumed store (re_checkpoints r) (re_calls r) res (Some (RunContinuation e)) in
  if negb (commits (re_error r)) then r
  else
    match rr_WorkflowCheckpoint (re_result r), rr_workflowSuccessor (re_result r) with
    | Some _, None => fail (re_store r) ErrWorkflowContinuationUnsupported (re_result r)
    | checkpoint, successor =>
        let next := match checkpoint with Some _ => successor | None => None end in
        match csCommit claim (re_result r) next (re_store r) with
        | (store, (_, Some e)) => fail store e zeroRunResult
        | (store, (_, None)) => mkResumed store (re_checkpoints r) (re_calls r) (re_result r) (re_error r)
        end
    end.

Definition ResumeContinuation (enabled : bool) (request : WorkflowResumeRequest) (checkpoints : option CP) (store : CS)
  : Resumed :=
  let now := env_clock env [] in
  let fail store e := mkResumed store checkpoints [] zeroRunResult (Some (RunContinuation e)) in
  match csLoad now (rq_Ref request) store with
  | (store, Err e) => fail store e
  | (store, Ok c) =>
      if negb (rq_GraphDigest request =s? wf_GraphDigest c) || negb (rq_Generation request =? wf_Generation c)
      then fail store ErrWorkflowContinuationConflict
      else if negb (sameAuthority request c) then fail store ErrWorkflowContinuationForeign
      else if (wf_PauseReason c =s? PauseBudgetExhausted) && negb (IsZero (wf_OriginalDeadline c))
              && negb (Before now (wf_OriginalDeadline c))
      then fail store ErrWorkflowContinuationExpired
      else match csClaimResume now request store with
      | (store, (_, Some e)) => fail store e
      | (store, (None, None)) => fail store ErrWorkflowContinuationUnavailable
      | (store, (Some claim, None)) =>
          match wl_Duplicate claim, wl_Result claim with
          | true, Some res => mkResumed store checkpoints [] res None
          | _, _ =>
              match csMarkResumeRunning claim store with
              | (store, (_, Some e)) => fail store e
              | (store, (None, None)) => fail store ErrWorkflowContinuationUnavailable
              | (store, (Some running, None)) =>
                  commitResumed running (executeFromContinuation enabled c checkpoints store)
              end
          end
      end
  end.
End engine.
