(* ===== verification/WorkflowDemo.v ===== *)
(** * Workflow: a worked example

    A small deployment workflow and an environment, on which the theorems about
    the workflow engine are applied to concrete runs. *)
From S2P Require Import Prelude GoStrings GoNum CoreTypes WorkflowTypes WorkflowCompose.
From S2P Require Import ExecutionGraph WorkflowPlan WorkflowContinuation WorkflowEngine.

Local Open Scope bool_scope.
Local Open Scope string_scope.
Local Open Scope list_scope.
Local Open Scope Z_scope.

Definition demoStep (id : string) (deps : list string) (condition : string) (retries : Z) : Step :=
  mkStep id "" "" "" "" "" "" deps condition (mkRetry retries 0) 0 ∅ "" "" "" "" ∅ ∅.

(** Build, then deploy if it succeeded or roll back if it failed, then report. *)
Definition demoSteps : list Step :=
  [demoStep "report" ["deploy"; "rollback"] "" 0;
   demoStep "deploy" ["build"] "on_success" 1;
   demoStep "rollback" ["build"] "on_failure" 0;
   demoStep "build" [] "" 2].

Definition demoDefinition : WorkflowDefinition := mkWorkflowDefinition "release" demoSteps ∅ ∅.

(** The same with the deployment as a subgraph of two steps. *)
Definition demoComposed : WorkflowDefinition :=
  mkWorkflowDefinition "release"
    [demoStep "build" [] "" 0;
     demoStep "" ["build"] "on_success" 0 <| sp_UseSubgraph := "ship" |> <| sp_Alias := "eu" |>;
     demoStep "report" ["eu"] "" 0]
    {[ "ship" := [demoStep "push" [] "" 0; demoStep "verify" ["push"] "" 0] ]} ∅.

#[export] Instance demoGraphCodec : GraphCodec :=
  {| canonicalJSON schema d := schema; sha256Hex s := s |}.

(** A digest of 64 hexadecimal digits, the same for every text. *)
Definition demoDigest : string := "0123456789abcdef0123456789abcdef0123456789abcdef0123456789abcdef".

#[export] Instance demoWorkflowCodec : WorkflowCodec :=
  {| continuationJSON c := Some (wf_RunID c);
     definitionJSON d := Some (wd_WorkflowID d);
     payloadJSON p := Some "";
     runResultJSON r := Some (rr_WorkflowStatus r);
     identityJSON r := Some (rq_IdempotencyKey r);
     digestHex s := demoDigest |}.

(** The adapter fails the first attempt of a build and every deployment. *)
Definition demoEnvironment (deployable : bool) : Environment :=
  {| env_timeline := true;
     env_pause := None;
     env_execute h w s attempt timeout :=
       if (sp_StepID s =s? "build") && (attempt =? 1) then Err (StepFailed "flaky")
       else if (sp_StepID s =s? "deploy") && negb deployable then Err (StepDeadline "deadline")
       else Ok (mkStepOutput None "");
     env_onEvent := Some (fun h e => None);
     env_ctxErr h := None;
     env_backoff h d := false;
     env_clock h := 1000 |}.

Definition demoRequest (resume : bool) : RunRequest :=
  mkRunRequest "run-1" "session-1" "" "" "" "" "" "" "" resume demoDefinition None "" 0 ∅ false.

(** The normalised definition. *)
Definition demoNormal : WorkflowDefinition := @normalizeDefinition listing_order demoDefinition.

Definition demoExecute (deployable resume : bool) (store : MemoryCheckpointStore)
  : RunState MemoryCheckpointStore MemoryWorkflowContinuationStore * (RunResult * option RunError) :=
  @execute listing_order _ _ MemoryWorkflowContinuationStore _ _ (demoEnvironment deployable) Second "demo" false (demoRequest resume) (Some store) None.

(** The checkpoint of a run that failed to deploy. *)
Definition demoStore : MemoryCheckpointStore := default ∅ (rs_checkpoints (demoExecute false false ∅).1).

(** The rounds of a run without a checkpoint. *)
Definition demoStart : RunState MemoryCheckpointStore MemoryWorkflowContinuationStore :=
  mkRunState (initialResults demoNormal) 0 [] [] (Some (∅ : gmap string Checkpoint)) None.

Definition demoRounds (fuel : nat) :=
  @rounds listing_order _ MemoryCheckpointStore MemoryWorkflowContinuationStore _ _ (demoEnvironment false) Second "demo"
    (demoRequest false) demoNormal (mkGraphCompileSummary 0 0 false) fuel 0 demoStart.

(** ** A run that pauses for an approval and is resumed *)

Definition demoPausing : Environment :=
  mkEnvironment true
    (Some (fun h b => if sp_StepID (pb_Step b) =s? "deploy"
                      then Some (PauseNow (mkPauseError PauseApprovalRequired "" 0 0)) else None))
    (env_execute (demoEnvironment true)) None (fun h => None) (fun h d => false) (fun h => 1000).

Definition demoPaused : RunState MemoryCheckpointStore MemoryWorkflowContinuationStore * (RunResult * option RunError) :=
  @execute listing_order _ _ _ _ _ demoPausing Second "demo" false (demoRequest false)
    (Some (∅ : gmap string Checkpoint)) (Some (NewMemoryWorkflowContinuationStore "demo")).

Definition demoPausedStore : MemoryWorkflowContinuationStore :=
  default (NewMemoryWorkflowContinuationStore "demo") (rs_continuations demoPaused.1).

Definition demoEmptyRef : WorkflowContinuationRef :=
  mkWorkflowContinuationRef "" "" "" "" "" "" "" "" "" "" "" "" "" "" "" "" 0 0.

Definition demoResumeRequest : WorkflowResumeRequest :=
  let out := demoPaused.2.1 in
  mkWorkflowResumeRequest (default demoEmptyRef (rr_WorkflowCheckpoint out)) (rr_WorkflowGraphDigest out)
    (rr_WorkflowCheckpointGeneration out) "key" "" "" "" "" "".

Definition demoResume (s : MemoryWorkflowContinuationStore) : Resumed :=
  @ResumeContinuation listing_order _ MemoryCheckpointStore _ _ _ (demoEnvironment true) Second "demo" false
    demoResumeRequest None s.

(** The continuation the paused run stored. *)
Definition demoContinuation : WorkflowContinuation :=
  match mw_records demoPausedStore !! wr_CheckpointID (rq_Ref demoResumeRequest) with
  | Some r => wo_Continuation r
  | None => mkWorkflowContinuation demoEmptyRef "" "" "" "" "" "" "" "" "" "" "" "" "" demoDefinition [] "" "" 0 0 "" "" ""
              0 0 0 None
  end.

(** A claim of it, and its commit. *)
Definition demoClaimed : MemoryWorkflowContinuationStore * (option WorkflowResumeClaim * option ContinuationError) :=
  memClaimResume 2000 demoResumeRequest demoPausedStore.

Definition demoClaim : WorkflowResumeClaim :=
  default (mkWorkflowResumeClaim demoResumeRequest "" 0 WorkflowResumeClaimClaimed false None) demoClaimed.2.1.

Definition demoResult : RunResult := zeroRunResult <| rr_WorkflowStatus := "succeeded" |>.

Definition demoCommitted : MemoryWorkflowContinuationStore * (option WorkflowResumeClaim * option ContinuationError) :=
  memCommitResumeResult demoClaim demoResult demoClaimed.1.

(** The object behind the claim after the commit. *)
Definition demoDone : WorkflowResumeClaim :=
  demoClaim <| wl_Result := Some demoResult |> <| wl_State := WorkflowResumeClaimCompleted |>.
