(* ===== verification/WorkflowComposeProps.v ===== *)
(** * Workflow: composable graphs, the properties

    A definition that compiles has steps with distinct, trimmed ids whose
    dependencies are distinct ids of the expanded steps. The expansion terminates
    because its depth is bounded; one input makes it panic. *)
From S2P Require Import Prelude GoStrings GoNum WorkflowTypes WorkflowCompose WorkflowDemo.

Local Open Scope bool_scope.
Local Open Scope string_scope.
Local Open Scope list_scope.
Local Open Scope Z_scope.

(** ** Distinct trimmed names *)

Lemma uniqueTrimmed_spec items out :
  NoDup out ->
  NoDup (uniqueTrimmed out items)
  /\ forall x, x ∈ uniqueTrimmed out items <-> x ∈ out \/ (x <> "" /\ x ∈ TrimSpace <$> items).
Proof.
  unfold uniqueTrimmed. revert out. induction items as [|i items IH]; intros out Hnd; cbn; [set_solver|].
  assert (Hskip : forall out', NoDup out' ->
    (forall x, x ∈ out' <-> x ∈ out \/ (x <> "" /\ x = TrimSpace i)) ->
    NoDup (uniqueTrimmed out' items) /\
    forall x, x ∈ uniqueTrimmed out' items <-> x ∈ out \/ (x <> "" /\ x ∈ TrimSpace i :: (TrimSpace <$> items))).
  { intros out' Hnd' Hin. destruct (IH out' Hnd') as [H1 H2]. split; [done|]. intros x.
    unfold uniqueTrimmed. rewrite H2, Hin, elem_of_cons. tauto. }
  destruct (str_eqb_spec (TrimSpace i) "") as [E|E]; [apply Hskip; [done | naive_solver]|].
  case_bool_decide as Hi; [apply Hskip; [done | naive_solver]|]. apply Hskip.
  - apply NoDup_app. split_and!; [done | set_solver | apply NoDup_singleton].
  - intros x. rewrite elem_of_app, list_elem_of_singleton. naive_solver.
Qed.

(** A name: trimmed and not empty. *)
Definition is_name (x : string) : Prop := trimmed x /\ x <> "".

Lemma TrimSpace_name x : TrimSpace x <> "" -> is_name (TrimSpace x).
Proof. split; [apply TrimSpace_trimmed | done]. Qed.

Lemma normalizeDependsOn_clean l : NoDup (normalizeDependsOn l) /\ Forall is_name (normalizeDependsOn l).
Proof.
  unfold normalizeDependsOn. destruct (uniqueTrimmed_spec l [] NoDup_nil_2) as [H1 H2]. split; [done|].
  apply Forall_forall. intros x [Hx|[Hx (y & -> & _)%list_elem_of_fmap]]%H2; [by apply not_elem_of_nil in Hx|].
  by apply TrimSpace_name.
Qed.

(** Adding names to names. *)
Lemma appendUniqueStrings_spec base extra :
  NoDup (appendUniqueStrings base extra)
  /\ (Forall is_name base -> Forall is_name extra ->
      forall x, x ∈ appendUniqueStrings base extra <-> x ∈ base \/ x ∈ extra).
Proof.
  unfold appendUniqueStrings.
  destruct (uniqueTrimmed_spec base [] NoDup_nil_2) as [H1 H2].
  destruct (uniqueTrimmed_spec extra _ H1) as [H3 H4]. split; [done|].
  assert (Hn : forall l x, Forall is_name l -> (x <> "" /\ x ∈ TrimSpace <$> l) <-> x ∈ l).
  { intros l x Hl. rewrite Forall_forall in Hl. rewrite list_elem_of_fmap. split.
    - intros [_ (y & -> & Hy)]. by rewrite TrimSpace_id by apply Hl, Hy.
    - intros Hx. destruct (Hl x Hx). split; [done|]. exists x. by rewrite TrimSpace_id. }
  intros Hb He x. rewrite H4, H2, !Hn by done. set_solver.
Qed.

(** ** Compiled steps *)

(** Steps of a scope: named, without repetition, and closed under
    dependencies. *)
Record scope_ok (steps : list Step) : Prop := {
  sk_names : Forall (fun s => is_name (sp_StepID s)) steps;
  sk_unique : NoDup (sp_StepID <$> steps);
  sk_deps : Forall (fun s => NoDup (sp_DependsOn s)) steps;
  sk_closed : forall s d, s ∈ steps -> d ∈ sp_DependsOn s -> d ∈ sp_StepID <$> steps;
  sk_concrete : Forall (fun s => stepUsesGraphComposability s = false) steps
}.

Record node_closed (n : compiledNode) : Prop := {
  nc_scope : scope_ok (cn_steps n);
  nc_exit : forall x, x ∈ cn_exitIDs n -> x ∈ sp_StepID <$> cn_steps n
}.

Lemma scope_names steps x : scope_ok steps -> x ∈ sp_StepID <$> steps -> is_name x.
Proof.
  intros [Hn _ _ _ _] (s & -> & Hs)%list_elem_of_fmap. rewrite Forall_forall in Hn. by apply Hn.
Qed.

Lemma elem_of_scopeIDs steps id : scope_ok steps -> id ∈ scopeIDs steps <-> id ∈ sp_StepID <$> steps.
Proof.
  intros Hs. unfold scopeIDs. rewrite elem_of_list_to_set, list_elem_of_filter, !list_elem_of_fmap.
  pose proof (sk_names _ Hs) as Hn. rewrite Forall_forall in Hn. split.
  - intros [_ (s & -> & Hin)]. exists s. split; [|done]. apply TrimSpace_id, Hn, Hin.
  - intros (s & -> & Hin). destruct (Hn s Hin). split; [done|]. exists s. by rewrite TrimSpace_id.
Qed.

Lemma inferEntryAndExit_in steps entry exit x :
  scope_ok steps -> inferEntryAndExit steps = (entry, exit) -> x ∈ exit -> x ∈ sp_StepID <$> steps.
Proof.
  intros Hs [= <- <-]. rewrite elem_of_sort_strings, list_elem_of_filter, elem_of_elements.
  intros [_ Hx]. by apply elem_of_scopeIDs.
Qed.

(** ** Linking *)

Lemma resolveDeps_spec nodes node resolved :
  Forall node_closed nodes -> resolveDeps nodes node = Ok resolved ->
  NoDup resolved /\ forall x, x ∈ resolved -> exists n, n ∈ nodes /\ x ∈ sp_StepID <$> cn_steps n.
Proof.
  intros Hn. unfold resolveDeps. revert resolved.
  induction (cn_rawDeps node) as [|d ds IH] using rev_ind; intros resolved.
  { intros [= <-]. split; [apply NoDup_nil_2 | by intros x ?%not_elem_of_nil]. }
  rewrite foldl_app. cbn. intros (acc & Hacc & H)%result_bind_ok.
  destruct (IH acc Hacc) as [Hnd Hin]. destruct (_ =s? ""); [by simplify_eq|].
  destruct (List.find _ nodes) as [t|] eqn:Ef; [|done]. injection H as <-.
  apply find_some in Ef as [Ht%list_elem_of_In _]. rewrite Forall_forall in Hn.
  destruct (appendUniqueStrings_spec acc (cn_exitIDs t)) as [H1 H2]. split; [done|].
  intros x Hx. apply H2 in Hx as [Hx|Hx].
  - by apply Hin.
  - exists t. split; [done|]. by apply (nc_exit _ (Hn t Ht)).
  - apply Forall_forall. intros y Hy. destruct (Hin y Hy) as (n & Hnn & Hy').
    by apply (scope_names (cn_steps n)); [apply Hn|].
  - apply Forall_forall. intros y Hy. apply (scope_names (cn_steps t)); [by apply Hn|].
    by apply (nc_exit _ (Hn t Ht)).
Qed.

Lemma rewireNode_ids resolved node steps :
  rewireNode resolved node = Ok steps -> sp_StepID <$> steps = sp_StepID <$> cn_steps node.
Proof.
  unfold rewireNode. destruct (negb _); [|done]. intros [= <-]. rewrite <-list_fmap_compose.
  apply list_fmap_ext. intros i s _. cbn. by case_bool_decide.
Qed.

Lemma rewireNode_deps resolved node steps s d :
  rewireNode resolved node = Ok steps -> scope_ok (cn_steps node) -> Forall is_name resolved -> s ∈ steps ->
  NoDup (sp_DependsOn s) /\ (d ∈ sp_DependsOn s -> d ∈ sp_StepID <$> cn_steps node \/ d ∈ resolved).
Proof.
  unfold rewireNode. destruct (negb _); [|done]. intros [= <-] Hs Hr (s0 & -> & Hin)%list_elem_of_fmap.
  pose proof (sk_deps _ Hs) as Hd. rewrite Forall_forall in Hd.
  case_bool_decide; cbn; [|split; [by apply Hd | left; by apply (sk_closed _ Hs s0)]].
  destruct (appendUniqueStrings_spec (sp_DependsOn s0) resolved) as [H1 H2]. split; [done|].
  intros [Hx|Hx]%H2; [left; by apply (sk_closed _ Hs s0) | by right | | done].
  apply Forall_forall. intros y Hy. apply (scope_names (cn_steps node)); [done|]. by apply (sk_closed _ Hs s0).
Qed.

Lemma rewireNode_concrete resolved node steps s :
  rewireNode resolved node = Ok steps -> scope_ok (cn_steps node) -> s ∈ steps ->
  stepUsesGraphComposability s = false.
Proof.
  unfold rewireNode. destruct (negb _); [|done]. intros [= <-] Hs (s0 & -> & Hin)%list_elem_of_fmap.
  pose proof (sk_concrete _ Hs) as Hc. rewrite Forall_forall in Hc. specialize (Hc s0 Hin).
  by case_bool_decide.
Qed.

(** The flattening keeps the steps, and their ids are distinct. *)
Lemma flattenNodes_spec l out : flattenNodes l = Ok out -> out = mjoin l /\ NoDup (sp_StepID <$> out).
Proof.
  unfold flattenNodes. revert out. induction (mjoin l) as [|s steps IH] using rev_ind; intros out.
  { intros [= <-]. split; [done | apply NoDup_nil_2]. }
  rewrite foldl_app. cbn. intros (acc & Hacc & H)%result_bind_ok. destruct (IH acc Hacc) as [-> Hnd].
  case_bool_decide as Hs; [done|]. injection H as <-. split; [done|].
  rewrite fmap_app. apply NoDup_app. split_and!; [done | set_solver | apply NoDup_singleton].
Qed.

Lemma linked_Err nodes rest e :
  foldl (fun acc node =>
           done ←ₑ acc;
           resolved ←ₑ resolveDeps nodes node;
           steps ←ₑ rewireNode resolved node;
           Ok (done ++ [steps])) (Err e) rest = Err e.
Proof. by induction rest. Qed.

(** Every node was rewired, in order. *)
Lemma linked_spec nodes rest acc linked :
  foldl (fun acc node =>
           done ←ₑ acc;
           resolved ←ₑ resolveDeps nodes node;
           steps ←ₑ rewireNode resolved node;
           Ok (done ++ [steps])) (Ok acc) rest = Ok linked ->
  exists tail, linked = acc ++ tail /\
    Forall2 (fun n steps => exists resolved, resolveDeps nodes n = Ok resolved /\ rewireNode resolved n = Ok steps)
      rest tail.
Proof.
  revert acc. induction rest as [|n rest IH]; intros acc; cbn [foldl].
  { intros [= <-]. exists []. by rewrite app_nil_r. }
  cbn [result_bind]. destruct (resolveDeps nodes n) as [r|e] eqn:Er; cbn [result_bind]; [|by rewrite linked_Err].
  destruct (rewireNode r n) as [s|e] eqn:Ew; cbn [result_bind]; [|by rewrite linked_Err].
  intros (tail & -> & HF)%IH. exists (s :: tail). rewrite <-app_assoc. split; [done|]. constructor; eauto.
Qed.

Lemma linkNodes_ok nodes out : Forall node_closed nodes -> linkNodes nodes = Ok out -> scope_ok out.
Proof.
  intros Hn. unfold linkNodes. intros (linked & Hl & [-> Hnd]%flattenNodes_spec)%result_bind_ok.
  apply linked_spec in Hl as (tail & Ht & HF). cbn in Ht. subst tail.
  assert (Hin : forall s, s ∈ mjoin linked -> exists n steps, n ∈ nodes /\ s ∈ steps
    /\ exists resolved, resolveDeps nodes n = Ok resolved /\ rewireNode resolved n = Ok steps).
  { intros s (steps & Hs & Hst)%list_elem_of_join. apply list_elem_of_lookup in Hst as [i Hi].
    destruct (Forall2_lookup_r _ _ _ _ _ HF Hi) as (n & Hni & Hr). exists n, steps.
    split; [by eapply list_elem_of_lookup_2 | done]. }
  assert (Hids : forall x, x ∈ sp_StepID <$> mjoin linked <-> exists n, n ∈ nodes /\ x ∈ sp_StepID <$> cn_steps n).
  { intros x. split.
    - intros (s & -> & Hs)%list_elem_of_fmap. destruct (Hin s Hs) as (n & steps & Hnn & Hst & r & _ & Hw).
      exists n. split; [done|]. rewrite <-(rewireNode_ids _ _ _ Hw). by apply list_elem_of_fmap_2.
    - intros (n & Hnn & Hx). apply list_elem_of_lookup in Hnn as [i Hi].
      destruct (Forall2_lookup_l _ _ _ _ _ HF Hi) as (steps & Hsi & r & _ & Hw).
      rewrite <-(rewireNode_ids _ _ _ Hw) in Hx. apply list_elem_of_fmap in Hx as (s & -> & Hs).
      apply list_elem_of_fmap_2, list_elem_of_join. exists steps. split; [done|]. by eapply list_elem_of_lookup_2. }
  assert (Hfacts : forall s d, s ∈ mjoin linked -> NoDup (sp_DependsOn s)
    /\ (d ∈ sp_DependsOn s -> d ∈ sp_StepID <$> mjoin linked)).
  { intros s d Hs. destruct (Hin s Hs) as (n & steps & Hnn & Hst & r & Hr & Hw).
    destruct (resolveDeps_spec nodes n r Hn Hr) as [_ Hres].
    pose proof (proj1 (Forall_forall _ _) Hn) as Hn'.
    destruct (rewireNode_deps r n steps s d Hw (nc_scope _ (Hn' n Hnn))) as [H1 H2]; [|done|].
    - apply Forall_forall. intros x (n' & Hn1 & Hx)%Hres. by apply (scope_names (cn_steps n')); [apply Hn'|].
    - split; [done|]. intros [Hd|Hd]%H2; apply Hids; [eauto | by apply Hres]. }
  split; [|done|..].
  - apply Forall_forall. intros s Hs. assert (Hx : sp_StepID s ∈ sp_StepID <$> mjoin linked) by (by apply list_elem_of_fmap_2).
    apply Hids in Hx as (n & Hnn & Hx). rewrite Forall_forall in Hn. by apply (scope_names (cn_steps n)); [apply Hn|].
  - apply Forall_forall. intros s Hs. by apply (Hfacts s "").
  - intros s d Hs. by apply Hfacts.
  - apply Forall_forall. intros s Hs. destruct (Hin s Hs) as (n & steps & Hnn & Hst & r & _ & Hw).
    rewrite Forall_forall in Hn. eapply rewireNode_concrete; [exact Hw | apply Hn, Hnn | done].
Qed.

(** ** Scopes *)

Definition prefix_ok (prefix : string) : Prop := prefix = "" \/ is_name prefix.

Lemma prefixed_name prefix x :
  prefix_ok prefix -> is_name x -> is_name (if prefix =s? "" then x else prefix +:+ "/" +:+ x).
Proof.
  intros Hp [Hx1 Hx2]. destruct (str_eqb_spec prefix "") as [E|E]; [done|].
  destruct Hp as [?|[Hp _]]; [done|]. split; [by apply trimmed_join|]. by destruct prefix.
Qed.

Lemma applyConditionTemplate_keeps def step summary summary' s :
  applyConditionTemplate def step summary = (summary', Ok s) ->
  sp_StepID s = sp_StepID step /\ sp_DependsOn s = sp_DependsOn step.
Proof.
  unfold applyConditionTemplate. repeat case_match; intros; simplify_eq; done.
Qed.

Lemma compileConcreteStep_spec def step prefix summary summary' s :
  compileConcreteStep def step prefix summary = (summary', Ok s) ->
  sp_DependsOn s = [] /\ stepUsesGraphComposability s = false /\
  sp_StepID s = (let x := TrimSpace (sp_StepID step) in if prefix =s? "" then x else prefix +:+ "/" +:+ x).
Proof.
  unfold compileConcreteStep. destruct (applyConditionTemplate _ _ _) as [su [s'|e]] eqn:E; [|done].
  intros [= <- <-]. apply applyConditionTemplate_keeps in E as [E1 E2]. cbn in *. by rewrite E1, E2.
Qed.

Lemma alias_name step : TrimSpace (sp_StepID step) <> "" -> is_name (resolveSubgraphAlias step).
Proof.
  intros H. unfold resolveSubgraphAlias.
  destruct (str_eqb_spec (TrimSpace (sp_Alias step)) "") as [E|E]; cbn; [|by apply TrimSpace_name].
  destruct (str_eqb_spec (TrimSpace (sp_StepID step)) "") as [E'|E']; cbn; [done | by apply TrimSpace_name].
Qed.

Lemma scope_singleton s :
  is_name (sp_StepID s) -> sp_DependsOn s = [] -> stepUsesGraphComposability s = false -> scope_ok [s].
Proof.
  intros Hn Hd Hc. split.
  - by apply Forall_singleton.
  - apply NoDup_singleton.
  - apply Forall_singleton. rewrite Hd. apply NoDup_nil_2.
  - intros s' d ->%list_elem_of_singleton. rewrite Hd. by intros ?%not_elem_of_nil.
  - by apply Forall_singleton.
Qed.

Section scopes.
Context `{RangeOrder} (def : WorkflowDefinition).

(** What a compilation of the steps of a subgraph promises. *)
Definition expands
    (expand : list Step -> string -> list string -> graphCompileSummary -> compiling (list Step)) : Prop :=
  forall steps prefix stack summary summary' out,
    is_name prefix -> expand steps prefix stack summary = (summary', Ok out) -> scope_ok out.

Lemma compileNode_ok expand exceeded prefix stack sc step summary sc' :
  expands expand -> prefix_ok prefix -> Forall node_closed (sco_nodes sc) ->
  compileNode def expand exceeded prefix stack sc step = (summary, Ok sc') -> Forall node_closed (sco_nodes sc').
Proof.
  intros He Hp Hn. unfold compileNode. cbn zeta.
  destruct (str_eqb_spec (TrimSpace (sp_StepID step)) "") as [E|E]; [done|].
  case_bool_decide; [done|].
  destruct (str_eqb_spec (TrimSpace (sp_UseSubgraph step)) "") as [E'|E'].
  - destruct (compileConcreteStep _ _ _ _) as [su [s|e]] eqn:Ec; [|done]. intros [= <- <-]. cbn.
    apply compileConcreteStep_spec in Ec as (Ed & Eu & Ei). apply Forall_app. split; [done|]. apply Forall_singleton.
    assert (Hname : is_name (sp_StepID s)) by (rewrite Ei; by apply prefixed_name, TrimSpace_name).
    split; cbn; [by apply scope_singleton | done].
  - destruct (wd_Subgraphs def !! _) as [sub|]; [|done].
    destruct exceeded; [done|]. destruct (containsString _ _); [done|]. destruct (containsSlash _); [done|].
    case_bool_decide; [done|]. destruct (applySubgraphOverrides _ _) as [subSteps|e]; [|done].
    destruct (expand subSteps _ _ _) as [su [child|e]] eqn:Ee; [|done].
    apply He in Ee; [|by apply prefixed_name, alias_name].
    destruct (inferEntryAndExit child) as [entry exit] eqn:Ei. intros [= <- <-]. cbn.
    apply Forall_app. split; [done|]. apply Forall_singleton. split; cbn; [done|].
    intros x. by eapply inferEntryAndExit_in.
Qed.

Lemma compileNodes_ok expand exceeded prefix stack rawSteps sc summary sc' :
  expands expand -> prefix_ok prefix -> Forall node_closed (sco_nodes sc) ->
  compileNodes def expand exceeded prefix stack sc rawSteps = (summary, Ok sc') ->
  Forall node_closed (sco_nodes sc').
Proof.
  intros He Hp. revert sc. induction rawSteps as [|s rest IH]; intros sc Hn; cbn; [by intros [= _ <-]|].
  destruct (compileNode _ _ _ _ _ _ _) as [su [sc1|e]] eqn:E; [|done]. apply IH.
  by eapply compileNode_ok.
Qed.

Lemma compileScope_ok levels rawSteps prefix stack summary summary' out :
  prefix_ok prefix -> compileScope def levels rawSteps prefix stack summary = (summary', Ok out) -> scope_ok out.
Proof.
  revert rawSteps prefix stack summary summary' out.
  induction levels as [|levels IH]; intros rawSteps prefix stack summary summary' out Hp; cbn [compileScope].
  - destruct (compileNodes _ _ _ _ _ _ _) as [su [sc|e]] eqn:E; [|done]. intros [= _ Hl].
    eapply linkNodes_ok; [|exact Hl]. eapply compileNodes_ok; [|done| |exact E]; [|by constructor].
    intros ? ? ? ? ? ? _ [= _ <-]. split; try constructor. by intros ? ? ?%not_elem_of_nil.
  - destruct (compileNodes _ _ _ _ _ _ _) as [su [sc|e]] eqn:E; [|done]. intros [= _ Hl].
    eapply linkNodes_ok; [|exact Hl]. eapply compileNodes_ok; [|done| |exact E]; [|by constructor].
    intros ? ? ? ? ? ? Hpre. apply IH. by right.
Qed.
End scopes.

(** Normal steps: what normalisation gives every step. *)
Definition normal_step (s : Step) : Prop :=
  TrimSpace (sp_StepID s) = sp_StepID s /\ NoDup (sp_DependsOn s) /\ Forall is_name (sp_DependsOn s).

Lemma resolvedStepID_trim s : TrimSpace (resolvedStepID s) = resolvedStepID s.
Proof. unfold resolvedStepID. repeat case_match; by rewrite ?TrimSpace_idemp. Qed.

Lemma normalizeStep_normal `{RangeOrder} s : normal_step (normalizeStep s).
Proof. split; [apply resolvedStepID_trim | apply normalizeDependsOn_clean]. Qed.

(** What a compiled definition keeps or gets: its own id, normal steps. *)
Lemma compileDefinition_ok `{RangeOrder} enabled def summary out :
  compileDefinition enabled (normalizeDefinition def) = (summary, Ok out) ->
  wd_WorkflowID out = TrimSpace (wd_WorkflowID def) /\ Forall normal_step (wd_Steps out).
Proof.
  assert (Hn : Forall normal_step (wd_Steps (normalizeDefinition def))).
  { apply Forall_fmap, Forall_true. intros s. apply normalizeStep_normal. }
  unfold compileDefinition. destruct enabled; cbn [negb].
  - destruct (hasGraphComposabilitySyntax _); cbn [negb]; [|by intros [= _ <-]].
    destruct (compileScope _ _ _ _ _ _) as [su [steps|e]] eqn:E; [|done].
    destruct (ensureExpandedStepIDUniqueness _ _); [|done]. intros [= _ <-]. cbn. split; [done|].
    apply compileScope_ok in E; [|by left]. apply Forall_forall. intros s Hs.
    pose proof (sk_names _ E) as H1. pose proof (sk_deps _ E) as H2. rewrite Forall_forall in H1, H2.
    split_and!; [apply TrimSpace_id, H1, Hs | by apply H2|].
    apply Forall_forall. intros d Hd. apply (scope_names steps); [done|]. by apply (sk_closed _ E s).
  - destruct (hasGraphComposabilitySyntax _); [done|]. by intros [= _ <-].
Qed.

(** ** Flat definitions *)

Lemma flat_syntax id steps :
  Forall (fun s => stepUsesGraphComposability s = false) steps ->
  hasGraphComposabilitySyntax (mkWorkflowDefinition id steps ∅ ∅) = false.
Proof.
  intros Hs. unfold hasGraphComposabilitySyntax. cbn [wd_Subgraphs wd_ConditionTemplates wd_Steps].
  rewrite !bool_decide_eq_true_2 by (done || apply dom_empty_L). cbn. apply not_true_iff_false. intros He%existsb_exists.
  destruct He as (s & Hin%list_elem_of_In & Ht). rewrite Forall_forall in Hs. specialize (Hs s Hin). congruence.
Qed.

(** A definition that compiles becomes flat: no subgraph, template, alias or override
    is left in it and compiling it again changes nothing; when it used any, the
    ids of the expanded steps are distinct and not empty, and every dependency is one
    of those steps, listed once. *)
Theorem compiled_definition_is_flat `{RangeOrder} enabled def summary out :
  compileDefinition enabled def = (summary, Ok out) ->
  hasGraphComposabilitySyntax out = false
  /\ (forall enabled', compileDefinition enabled' out = (mkGraphCompileSummary 0 0 false, Ok out))
  /\ (hasGraphComposabilitySyntax def = true -> scope_ok (wd_Steps out)).
Proof.
  intros E. cut (hasGraphComposabilitySyntax out = false /\ (hasGraphComposabilitySyntax def = true -> scope_ok (wd_Steps out))).
  { intros [Hf Hs]. split_and!; [done | | done]. intros []; unfold compileDefinition; by rewrite Hf. }
  unfold compileDefinition in E. destruct enabled; cbn [negb] in E;
    destruct (hasGraphComposabilitySyntax def) eqn:Ed; cbn [negb] in E; simplify_eq; try done.
  destruct (compileScope _ _ _ _ _ _) as [su [steps|e]] eqn:Es; [|done].
  destruct (ensureExpandedStepIDUniqueness _ _); [|done]. injection E as <- <-.
  apply compileScope_ok in Es; [|by left]. split; [|done]. apply flat_syntax, Es.
Qed.

Lemma compiled_definition_is_flat_witness :
  match @compileDefinition listing_order true (@normalizeDefinition listing_order demoComposed) with
  | (_, Ok out) => hasGraphComposabilitySyntax out = false
  | _ => False
  end.
Proof.
  destruct (@compileDefinition listing_order true _) as [su [out|e]] eqn:E; [|vm_compute in E; discriminate].
  exact (proj1 (compiled_definition_is_flat (H := listing_order) true _ su out E)).
Defined.

(** The only step of a subgraph depends on itself: no entry step to read. *)
Example self_dependent_subgraph_panics :
  (@compileDefinition listing_order true
     (@normalizeDefinition listing_order
        (mkWorkflowDefinition "w" [demoStep "a" [] "" 0 <| sp_UseSubgraph := "s" |>]
           {[ "s" := [demoStep "x" ["x"] "" 0] ]} ∅))).2 = Err ErrPanic.
Proof. vm_compute. reflexivity. Qed.
