(* ===== verification/ExecutionGraphProps.v ===== *)
(** * Execution graphs: the properties

    The stable order is the reference order of TopoSort; a graph compiles exactly
    when it is well formed, and the result does not depend on the order in which
    the nodes and their dependencies are written; compiling a canonical form
    gives it back. *)
From S2P Require Import Prelude GoStrings GoNum TopoSort ExecutionGraph WorkflowDemo.

Local Open Scope bool_scope.
Local Open Scope string_scope.
Local Open Scope list_scope.
Local Open Scope Z_scope.

(** ** Binary search *)

Section search.
Context (a : list string) (x : string).
Hypothesis sorted : StronglySorted String.le a.

Lemma sorted_lookup i j y z : a !! i = Some y -> a !! j = Some z -> (i <= j)%nat -> String.le y z.
Proof.
  intros Hi Hj Hle. destruct (decide (i = j)) as [->|Hne]; [simplify_eq; reflexivity|].
  rewrite <-(take_drop j a) in sorted. eapply StronglySorted_app_1_elem_of; [exact sorted| |].
  - apply list_elem_of_lookup. exists i. by rewrite lookup_take_lt by lia.
  - apply list_elem_of_lookup. exists 0%nat. by rewrite lookup_drop, Nat.add_0_r.
Qed.

(** Everything before [i] is below [x], nothing from [j] on is. *)
Definition bracketed (i j : nat) : Prop :=
  (forall k y, a !! k = Some y -> (k < i)%nat -> ~ String.le x y)
  /\ (forall k y, a !! k = Some y -> (j <= k)%nat -> String.le x y).

Lemma searchStrings_spec fuel i j :
  (i <= j)%nat -> (j <= length a)%nat -> (j - i <= fuel)%nat -> bracketed i j ->
  let r := searchStrings fuel a x i j in (r <= length a)%nat /\ bracketed r r.
Proof.
  revert i j. induction fuel as [|fuel IH]; intros i j Hij Hj Hf [Hlo Hhi]; cbn [searchStrings].
  - assert (i = j) as -> by lia. by repeat split.
  - destruct (Nat.ltb_spec i j) as [Hlt|Hge]; [|assert (i = j) as -> by lia; by repeat split].
    assert (Hh : (i <= (i + j) / 2 < j)%nat).
    { split; [apply Nat.div_le_lower_bound; lia | apply Nat.Div0.div_lt_upper_bound; lia]. }
    cbn zeta. set (h := ((i + j) / 2)%nat) in *.
    destruct (lookup_lt_is_Some_2 a h) as [y Hy]; [lia|]. rewrite Hy. cbn [default].
    case_bool_decide as Hle; apply IH; try lia; split; try done.
    + intros k z Hk Hkh. transitivity y; [exact Hle | by eapply (sorted_lookup h k)].
    + intros k z Hk Hkh Hxz. apply Hle. transitivity z; [done|]. eapply (sorted_lookup k h); eauto; lia.
Qed.

Lemma insertReady_sorted : insertReady a x = sort_strings (a ++ [x]).
Proof.
  unfold insertReady, SearchStrings. cbn zeta.
  destruct (searchStrings_spec (length a) 0 (length a)) as [Hr [Hlo Hhi]]; try lia.
  { split; [lia|]. intros k y Hk%lookup_lt_Some. lia. }
  set (r := searchStrings (length a) a x 0 (length a)) in *.
  assert (Hperm : take r a ++ x :: drop r a ≡ₚ a ++ [x]).
  { rewrite <-Permutation_middle. rewrite take_drop. apply Permutation_cons_append. }
  apply (StronglySorted_unique String.le).
  - apply StronglySorted_app. split_and!.
    + intros y z Hy Hz. apply list_elem_of_lookup in Hy as [k Hk].
      assert (Hkr : (k < r)%nat) by (apply lookup_lt_Some in Hk; rewrite length_take in Hk; lia).
      rewrite lookup_take_lt in Hk by done.
      assert (Hyx : String.le y x).
      { destruct (total String.le x y) as [Hxy|]; [|done]. by destruct (Hlo k y Hk Hkr). }
      apply elem_of_cons in Hz as [->|Hz]; [done|].
      rewrite <-(take_drop r a) in sorted. eapply StronglySorted_app_1_elem_of; [exact sorted| |done].
      apply list_elem_of_lookup. exists k. by rewrite lookup_take_lt.
    + rewrite <-(take_drop r a) in sorted. by eapply StronglySorted_app_1_l.
    + apply StronglySorted_cons. split.
      * apply Forall_forall. intros y [k Hk]%list_elem_of_lookup. rewrite lookup_drop in Hk.
        apply (Hhi _ _ Hk). lia.
      * rewrite <-(take_drop r a) in sorted. by eapply StronglySorted_app_1_r.
  - apply Sorted_StronglySorted; [apply _ | apply sort_strings_sorted].
  - by rewrite sort_strings_perm.
Qed.
End search.

Lemma sort_strings_strong l : StronglySorted String.le (sort_strings l).
Proof. apply Sorted_StronglySorted; [apply _ | apply sort_strings_sorted]. Qed.

Lemma sort_strings_id l : StronglySorted String.le l -> sort_strings l = l.
Proof.
  intros Hl. apply (StronglySorted_unique String.le); [apply sort_strings_strong | done | apply sort_strings_perm].
Qed.

(** Moving elements in one by one is sorting. *)
Lemma insertReady_foldl l ready :
  StronglySorted String.le ready -> foldl insertReady ready l = sort_strings (ready ++ l).
Proof.
  revert ready. induction l as [|x l IH]; intros ready Hr; cbn.
  - by rewrite app_nil_r, sort_strings_id.
  - rewrite IH; rewrite insertReady_sorted by done; [|apply sort_strings_strong].
    apply sort_strings_order_irrelevant. rewrite sort_strings_perm. by rewrite <-app_assoc.
Qed.

Lemma releaseNode_foldl next deg ready :
  NoDup next -> StronglySorted String.le ready ->
  foldl releaseNode (deg, ready) next
  = (decrement deg next, sort_strings (ready ++ filter (fun x => default 0 (deg !! x) = 1) next)).
Proof.
  intros Hnd Hr. rewrite <-insertReady_foldl by done. clear Hr. revert deg ready.
  induction next as [|x next IH]; intros deg ready; [done|].
  apply NoDup_cons in Hnd as [Hx Hnd]. rewrite filter_cons. cbn [foldl releaseNode]. rewrite (IH Hnd).
  f_equal.
  rewrite released_others by done. destruct (Z.eqb_spec (default 0 (deg !! x) - 1) 0).
  - by rewrite decide_True by lia.
  - by rewrite decide_False by lia.
Qed.

(** ** The stable order is the reference order *)

(** The dependencies of the node with an id. *)
Definition nodeDeps (nodes : list Node) (id : string) : list string :=
  match List.find (fun n => nd_ID n =s? id) nodes with
  | Some n => nd_DependsOn n
  | None => []
  end.

Definition nodeIDs (nodes : list Node) : list string := nd_ID <$> nodes.

(** Unique ids, and dependencies that are unique and known. *)
Record nodes_ok (nodes : list Node) : Prop := {
  no_ids : NoDup (nodeIDs nodes);
  no_deps : forall n, n ∈ nodes -> NoDup (nd_DependsOn n);
  no_known : forall n d, n ∈ nodes -> d ∈ nd_DependsOn n -> d ∈ nodeIDs nodes
}.

Lemma nodeDeps_node nodes n :
  NoDup (nodeIDs nodes) -> n ∈ nodes -> nodeDeps nodes (nd_ID n) = nd_DependsOn n.
Proof.
  intros Hnd Hn. unfold nodeDeps. destruct (List.find _ nodes) as [n'|] eqn:E.
  - apply find_some in E as [Hin%list_elem_of_In He%str_eqb_eq].
    f_equal. apply (NoDup_fmap_eq nd_ID nodes); auto.
  - exfalso. apply list_elem_of_In in Hn. apply (find_none _ _ E) in Hn. by rewrite str_eqb_refl in Hn.
Qed.

Lemma dependents_lookup l id :
  default [] (foldl (fun (m : gmap string (list string)) (e : string * string) =>
                       <[e.1 := default [] (m !! e.1) ++ [e.2]]> m) ∅ l !! id)
  = (filter (fun e => e.1 = id) l).*2.
Proof.
  induction l as [|[d x] l IH] using rev_ind; [done|].
  rewrite foldl_app, filter_app, fmap_app, <-IH, filter_cons. cbn [foldl fst snd].
  destruct (decide (d = id)) as [->|Hne].
  - by rewrite lookup_insert_eq.
  - rewrite lookup_insert_ne by done. by rewrite app_nil_r.
Qed.

Lemma indegrees_lookup nodes id :
  NoDup (nodeIDs nodes) ->
  indegrees nodes !! id
  = if decide (id ∈ nodeIDs nodes) then Some (Z.of_nat (length (nodeDeps nodes id))) else None.
Proof.
  intros Hnd. assert (Hk : forall n, n ∈ nodes -> indegrees nodes !! nd_ID n = Some (Z.of_nat (length (nd_DependsOn n)))).
  { unfold indegrees, nodeIDs in *. induction nodes as [|m nodes IH] using rev_ind; [by intros ? ?%not_elem_of_nil|].
    rewrite fmap_app in Hnd. apply NoDup_app in Hnd as (Hnd & Hdis & _). intros n Hn.
    rewrite foldl_app. cbn. apply elem_of_app in Hn as [Hn | ->%list_elem_of_singleton]; [|apply lookup_insert_eq].
    rewrite lookup_insert_ne; [by apply IH|]. intros He.
    apply (Hdis (nd_ID n)); [by apply list_elem_of_fmap_2|]. rewrite <-He. by left. }
  case_decide as Hin.
  - apply list_elem_of_fmap in Hin as (n & -> & Hn). by rewrite nodeDeps_node, Hk.
  - clear Hk Hnd. unfold indegrees, nodeIDs in *. induction nodes as [|m nodes IH] using rev_ind; [done|].
    rewrite fmap_app, elem_of_app in Hin. rewrite foldl_app. cbn.
    rewrite lookup_insert_ne; [apply IH; tauto|]. intros He. apply Hin. right. rewrite <-He. by left.
Qed.

Section order.
Context (nodes : list Node).
Hypothesis ok : nodes_ok nodes.

Lemma nodeDeps_NoDup x : x ∈ nodeIDs nodes -> NoDup (nodeDeps nodes x).
Proof.
  intros (n & -> & Hn)%list_elem_of_fmap. rewrite nodeDeps_node by (done || apply ok).
  by apply (no_deps _ ok).
Qed.

Lemma nodeDeps_closed x d : x ∈ nodeIDs nodes -> d ∈ nodeDeps nodes x -> d ∈ nodeIDs nodes.
Proof.
  intros (n & -> & Hn)%list_elem_of_fmap. rewrite nodeDeps_node by (done || apply ok).
  by apply (no_known _ ok).
Qed.

Lemma dependents_edges : edges_to (nodeIDs nodes) (nodeDeps nodes) (dependents nodes).
Proof.
  intros id. unfold dependents. rewrite dependents_lookup.
  destruct (edgesOf_targets nd_ID nd_DependsOn nodes id (no_ids _ ok) (no_deps _ ok)) as [Hnd Hin].
  split; [exact Hnd|]. intros x. unfold edgesOf in Hin. rewrite Hin. unfold nodeIDs. rewrite list_elem_of_fmap. split.
  - intros (n & Hn & <- & Hd). split; [eauto|]. by rewrite nodeDeps_node by (done || apply ok).
  - intros [(n & -> & Hn) Hd]. rewrite nodeDeps_node in Hd by (done || apply ok). eauto.
Qed.

Lemma orderLoop_greedy fuel deg order :
  layered (nodeIDs nodes) (nodeDeps nodes) order -> counts (nodeIDs nodes) (nodeDeps nodes) deg order ->
  orderLoop fuel (dependents nodes) deg (readyOf (nodeIDs nodes) (nodeDeps nodes) order) order
  = greedy (nodeIDs nodes) (nodeDeps nodes) fuel order.
Proof.
  revert deg order. induction fuel as [|fuel IH]; intros deg order Ho Hc; [done|].
  cbn. destruct (readyOf _ _ order) as [|id rest] eqn:E; [done|].
  destruct (dependents_edges id) as [Hnd Hin].
  destruct (kahn_round _ _ nodeDeps_NoDup deg order id rest _ (no_ids _ ok) Ho Hc E Hnd Hin) as [Hc' Hr].
  assert (Hrest : StronglySorted String.le rest).
  { pose proof (sort_strings_strong (filter (available (nodeDeps nodes) order) (nodeIDs nodes))) as Hs.
    fold (readyOf (nodeIDs nodes) (nodeDeps nodes) order) in Hs. rewrite E in Hs.
    by apply StronglySorted_cons in Hs as [_ ?]. }
  rewrite releaseNode_foldl, <-Hr by done. apply IH; [|done].
  destruct (readyOf_cons _ _ _ _ _ E). by apply layered_snoc.
Qed.

Lemma stableTopologicalOrder_spec :
  stableTopologicalOrder nodes
  = let order := topoOrder (nodeIDs nodes) (nodeDeps nodes) in
    if bool_decide (length order = length nodes) then Ok order
    else Err (graphErr CodeDependencyCycle "nodes.depends_on" "" "").
Proof.
  unfold stableTopologicalOrder. cbn zeta.
  assert (Hc : counts (nodeIDs nodes) (nodeDeps nodes) (indegrees nodes) []).
  { intros x Hx _. rewrite indegrees_lookup, decide_True by (done || apply ok). unfold missing.
    by rewrite filter_all by (intros ? ?; apply not_elem_of_nil). }
  rewrite (kahn_start (nodeIDs nodes) (nodeDeps nodes)); [|apply ok| |done].
  - rewrite orderLoop_greedy by (done || apply layered_nil). unfold topoOrder.
    by replace (length (nodeIDs nodes)) with (length nodes) by (unfold nodeIDs; by rewrite length_fmap).
  - intros x. rewrite indegrees_lookup by apply ok. case_decide; [naive_solver|]. by split; [intros [? ?]|].
Qed.
End order.

(** ** Reading the nodes *)

Definition id_ok (mx : nat) (id : string) : Prop :=
  id <> "" /\ ValidString id = true /\ (byteLen id <= mx)%nat.

(** Every name of the node is present, valid and short enough. *)
Definition node_ok (n : Node) : Prop :=
  id_ok MaxNodeIDBytes (TrimSpace (nd_ID n))
  /\ Forall (fun d => id_ok MaxNodeIDBytes (TrimSpace d)) (nd_DependsOn n).

(** The canonical form: trimmed, every dependency once, in order. *)
Definition canonNode (n : Node) : Node :=
  mkNode (TrimSpace (nd_ID n)) (sort_strings (remove_dups (TrimSpace <$> nd_DependsOn n))).

Definition rawEdges (nodes : list Node) : nat := sum_list_with (fun n => length (nd_DependsOn n)) nodes.

Definition readable (nodes : list Node) : Prop :=
  Forall node_ok nodes /\ NoDup ((fun n => TrimSpace (nd_ID n)) <$> nodes) /\ (rawEdges nodes <= MaxEdges)%nat.

Definition canonMap (nodes : list Node) : gmap string Node :=
  list_to_map ((fun n => (TrimSpace (nd_ID n), canonNode n)) <$> nodes).

Lemma addDependency_Err node e raws : foldl (addDependency node) (Err e) raws = Err e.
Proof. by induction raws. Qed.

(** The dependencies are collected without repetition; the limit on the edges is
    never reached before the limit on what is written. *)
Lemma addDependency_spec node raws acc e :
  NoDup acc -> (e + length raws <= MaxEdges)%nat ->
  match foldl (addDependency node) (Ok (acc, e)) raws with
  | Ok (acc', e') =>
      Forall (fun d => id_ok MaxNodeIDBytes (TrimSpace d)) raws /\ NoDup acc'
      /\ (forall x, x ∈ acc' <-> x ∈ acc \/ x ∈ TrimSpace <$> raws) /\ (e' <= e + length raws)%nat
  | Err _ => ~ Forall (fun d => id_ok MaxNodeIDBytes (TrimSpace d)) raws
  end.
Proof.
  revert acc e. induction raws as [|d raws IH]; intros acc e Hnd He.
  { cbn. split_and!; [done..| |lia]. set_solver. }
  assert (Hlast : forall acc' e', NoDup acc' -> (e' <= S e)%nat ->
    (forall x, x ∈ acc' <-> x ∈ acc \/ x = TrimSpace d) -> id_ok MaxNodeIDBytes (TrimSpace d) ->
    match foldl (addDependency node) (Ok (acc', e')) raws with
    | Ok (acc'', e'') =>
        Forall (fun d => id_ok MaxNodeIDBytes (TrimSpace d)) (d :: raws) /\ NoDup acc''
        /\ (forall x, x ∈ acc'' <-> x ∈ acc \/ x ∈ TrimSpace <$> d :: raws) /\ (e'' <= e + length (d :: raws))%nat
    | Err _ => ~ Forall (fun d => id_ok MaxNodeIDBytes (TrimSpace d)) (d :: raws)
    end).
  { intros acc' e' Hnd' He' Hin Hok. cbn [length] in *. specialize (IH acc' e' Hnd' ltac:(lia)).
    destruct (foldl _ _ raws) as [[acc'' e'']|err].
    - destruct IH as (Hall & Hnd'' & Hin'' & He''). split_and!; [by constructor | done| |lia].
      intros x. rewrite Hin'', Hin, fmap_cons, elem_of_cons. tauto.
    - intros [_ H]%Forall_cons. done. }
  unfold id_ok in Hlast. cbn [foldl]. unfold addDependency at 2. cbn [result_bind].
  destruct (str_eqb_spec (TrimSpace d) "") as [E|E]; cbn [negb].
  { rewrite addDependency_Err. intros [[? _] _]%Forall_cons. done. }
  destruct (ValidString (TrimSpace d)) eqn:Ev; [|rewrite addDependency_Err; intros [(_ & ? & _) _]%Forall_cons; congruence].
  destruct (Nat.leb_spec (byteLen (TrimSpace d)) MaxNodeIDBytes) as [Hl|Hl];
    [|rewrite addDependency_Err; intros [(_ & _ & ?) _]%Forall_cons; lia].
  case_bool_decide as Hd; [apply Hlast; [done | lia | set_solver | done]|].
  cbn [length] in He. destruct (Nat.leb_spec (S e) MaxEdges); [|lia].
  apply Hlast; [|lia | set_solver | done].
  apply NoDup_app. split_and!; [done | set_solver | apply NoDup_singleton].
Qed.

Lemma sort_remove_dups l k :
  NoDup k -> (forall x, x ∈ k <-> x ∈ l) -> sort_strings k = sort_strings (remove_dups l).
Proof.
  intros Hk Hin. apply sort_strings_order_irrelevant, NoDup_Permutation; [done | apply NoDup_remove_dups|].
  intros x. by rewrite elem_of_remove_dups.
Qed.

Lemma canonMap_None nodes id :
  canonMap nodes !! id = None <-> id ∉ (fun n => TrimSpace (nd_ID n)) <$> nodes.
Proof.
  unfold canonMap. rewrite <-not_elem_of_list_to_map.
  by rewrite <-list_fmap_compose.
Qed.

Lemma canonMap_snoc nodes n :
  TrimSpace (nd_ID n) ∉ (fun n => TrimSpace (nd_ID n)) <$> nodes ->
  canonMap (nodes ++ [n]) = <[TrimSpace (nd_ID n) := canonNode n]> (canonMap nodes).
Proof.
  intros Hn. unfold canonMap. rewrite fmap_app, list_to_map_app. cbn.
  rewrite insert_empty. symmetry. apply insert_union_singleton_r. by apply canonMap_None.
Qed.

(** Reading succeeds exactly on readable nodes, and collects the canonical
    forms. *)
Lemma readNodes_spec nodes :
  match foldl readNode (Ok (mkReading ∅ 0 0)) nodes with
  | Ok r => readable nodes /\ rd_nodes r = canonMap nodes /\ rd_raw r = rawEdges nodes
            /\ (rd_edges r <= rd_raw r)%nat
  | Err _ => ~ readable nodes
  end.
Proof.
  induction nodes as [|n nodes IH] using rev_ind.
  { cbn. split_and!; [|done..|lia]. split_and!; [done | apply NoDup_nil_2 | cbn; lia]. }
  rewrite foldl_app. cbn [foldl].
  assert (Hraw : rawEdges (nodes ++ [n]) = (rawEdges nodes + length (nd_DependsOn n))%nat).
  { unfold rawEdges. rewrite sum_list_with_app. cbn. lia. }
  assert (Hrd : readable (nodes ++ [n]) <->
    readable nodes /\ node_ok n /\ (TrimSpace (nd_ID n) ∉ (fun n => TrimSpace (nd_ID n)) <$> nodes)
    /\ (rawEdges nodes + length (nd_DependsOn n) <= MaxEdges)%nat).
  { unfold readable. rewrite Forall_app, Forall_singleton, fmap_app, NoDup_app, Hraw. cbn. split.
    - intros ((? & ?) & (? & Hd & _) & ?). split_and!; try done; [lia|]. intros Hin. by apply (Hd _ Hin); left.
    - intros ((? & ? & ?) & ? & ? & ?). split_and!; try done; [|apply NoDup_singleton].
      intros x Hx ->%list_elem_of_singleton. done. }
  destruct (foldl readNode _ nodes) as [r|err]; cbn [readNode result_bind];
    [|by intros [? _]%Hrd].
  destruct IH as (Hrn & Hm & Hr & He). unfold readNode. cbn [result_bind]. unfold node_ok, id_ok at 1 in Hrd.
  destruct (str_eqb_spec (TrimSpace (nd_ID n)) "") as [E|E]; cbn [negb]; [by intros (_ & [[? _] _] & _)%Hrd|].
  destruct (ValidString (TrimSpace (nd_ID n))) eqn:Ev; [|intros (_ & [(_ & ? & _) _] & _)%Hrd; congruence].
  destruct (Nat.leb_spec (byteLen (TrimSpace (nd_ID n))) MaxNodeIDBytes) as [Hl|Hl];
    [|intros (_ & [(_ & _ & ?) _] & _)%Hrd; lia].
  case_bool_decide as Hfresh; [|intros (_ & _ & Hn & _)%Hrd; apply Hfresh; rewrite Hm; by apply canonMap_None].
  rewrite Hm in Hfresh. apply canonMap_None in Hfresh. rewrite Hr in *.
  destruct (Nat.leb_spec (length (nd_DependsOn n)) (MaxEdges - rawEdges nodes)) as [Hraws|Hraws];
    [|intros (_ & _ & _ & ?)%Hrd; lia].
  destruct Hrn as (Hall & Hnd & Hsum).
  pose proof (addDependency_spec (TrimSpace (nd_ID n)) (nd_DependsOn n) [] (rd_edges r) NoDup_nil_2 ltac:(lia)) as Hadd.
  destruct (foldl (addDependency _) _ _) as [[deps e']|err]; cbn [result_bind fst snd];
    [|by intros (_ & [_ ?] & _)%Hrd].
  destruct Hadd as (Hok & Hdnd & Hin & He'). cbn [rd_nodes rd_raw rd_edges]. split_and!.
  - apply Hrd. split_and!; done || lia.
  - rewrite canonMap_snoc, Hm by done. f_equal. unfold canonNode. f_equal. apply sort_remove_dups; [done|]. intros x.
    rewrite Hin. set_solver.
  - lia.
  - lia.
Qed.

(** ** The canonical graph *)

Definition canonGraph (inp : GraphDefinition) : GraphDefinition :=
  mkGraphDefinition (TrimSpace (gd_GraphID inp)) (TrimSpace (gd_Version inp))
    (sortedNodes (canonMap (gd_Nodes inp))).

Lemma canonMap_lookup nodes id n :
  NoDup ((fun n => TrimSpace (nd_ID n)) <$> nodes) ->
  canonMap nodes !! id = Some n <-> exists m, m ∈ nodes /\ n = canonNode m /\ id = TrimSpace (nd_ID m).
Proof.
  intros Hnd. unfold canonMap. rewrite <-elem_of_list_to_map by (by rewrite <-list_fmap_compose).
  rewrite list_elem_of_fmap. split; [intros (m & [= -> ->] & Hm) | intros (m & Hm & -> & ->)]; eauto.
Qed.

(** Nodes stored under their ids. *)
Definition keyed (m : gmap string Node) : Prop := forall id n, m !! id = Some n -> nd_ID n = id.

Lemma canonMap_keyed nodes : NoDup ((fun n => TrimSpace (nd_ID n)) <$> nodes) -> keyed (canonMap nodes).
Proof. intros Hnd id n (m & _ & -> & ->)%canonMap_lookup; done. Qed.

Lemma elem_of_sortedNodes m n : keyed m -> n ∈ sortedNodes m <-> m !! nd_ID n = Some n.
Proof.
  intros Hk. unfold sortedNodes. rewrite list_elem_of_omap. split.
  - intros (id & _ & Hid). by rewrite (Hk _ _ Hid).
  - intros Hn. exists (nd_ID n). split; [|done]. rewrite elem_of_sort_strings, list_elem_of_fmap.
    exists (nd_ID n, n). split; [done|]. by apply elem_of_map_to_list.
Qed.

Lemma sortedNodes_ids m : keyed m -> nodeIDs (sortedNodes m) = sort_strings (map_to_list m).*1.
Proof.
  intros Hk. unfold nodeIDs, sortedNodes.
  assert (Hl : Forall (fun id => is_Some (m !! id)) (sort_strings (map_to_list m).*1)).
  { apply Forall_forall. intros id. rewrite elem_of_sort_strings, list_elem_of_fmap.
    intros ([k n] & -> & Hkn%elem_of_map_to_list). by eexists. }
  induction Hl as [|id l [n Hn] _ IH]; [done|]. cbn. rewrite Hn, fmap_cons. f_equal; [by apply Hk | done].
Qed.

Lemma sortedNodes_NoDup m : keyed m -> NoDup (nodeIDs (sortedNodes m)).
Proof. intros Hk. rewrite sortedNodes_ids, NoDup_sort_strings by done. apply NoDup_fst_map_to_list. Qed.

Lemma elem_of_canonNodes nodes n :
  NoDup ((fun n => TrimSpace (nd_ID n)) <$> nodes) ->
  n ∈ sortedNodes (canonMap nodes) <-> n ∈ canonNode <$> nodes.
Proof.
  intros Hnd. rewrite elem_of_sortedNodes, canonMap_lookup, list_elem_of_fmap by (by try apply canonMap_keyed).
  split; [intros (m & Hm & -> & _); eauto | intros (m & -> & Hm); exists m; eauto].
Qed.

Lemma canonNodes_perm nodes :
  NoDup ((fun n => TrimSpace (nd_ID n)) <$> nodes) -> sortedNodes (canonMap nodes) ≡ₚ canonNode <$> nodes.
Proof.
  intros Hnd. apply NoDup_Permutation.
  - eapply NoDup_fmap_1, sortedNodes_NoDup, canonMap_keyed, Hnd.
  - apply (NoDup_fmap_1 nd_ID). rewrite <-list_fmap_compose. exact Hnd.
  - intros n. by apply elem_of_canonNodes.
Qed.

(** ** Edges *)

Definition edges_known (nodes : list Node) : Prop :=
  forall n d, n ∈ nodes -> d ∈ nd_DependsOn n -> d <> nd_ID n /\ d ∈ nodeIDs nodes.

Lemma checkEdges_foldl m nodes acc :
  foldl (fun acc n => foldl (fun acc d => _ ←ₑ acc; checkEdge m (nd_ID n) d) acc (nd_DependsOn n)) acc nodes = Ok tt
  <-> acc = Ok tt /\ forall n d, n ∈ nodes -> d ∈ nd_DependsOn n -> checkEdge m (nd_ID n) d = Ok tt.
Proof.
  assert (Hin : forall id ds acc, foldl (fun acc d => _ ←ₑ acc; checkEdge m id d) acc ds = Ok tt
    <-> acc = Ok tt /\ forall d, d ∈ ds -> checkEdge m id d = Ok tt).
  { intros id ds. induction ds as [|d ds IH]; intros acc'; cbn; [set_solver|]. rewrite IH.
    destruct acc' as [[]|e]; cbn; [|naive_solver]. split.
    - intros [H1 H2]. split; [done|]. intros d' [->|Hd]%elem_of_cons; auto.
    - intros [_ H]. split; [apply H; by left|]. intros d' Hd. apply H. by right. }
  revert acc. induction nodes as [|n nodes IH]; intros acc; cbn; [set_solver|]. rewrite IH, Hin. split.
  - intros [[-> H1] H2]. split; [done|]. intros n' d [->|Hn]%elem_of_cons; eauto.
  - intros [-> H]. split; [split; [done|]; intros d Hd; apply H; [by left | done]|].
    intros n' d Hn. apply H. by right.
Qed.

Lemma checkEdges_iff m : keyed m -> checkEdges m (sortedNodes m) = Ok tt <-> edges_known (sortedNodes m).
Proof.
  intros Hk. unfold checkEdges. rewrite checkEdges_foldl. unfold edges_known.
  assert (He : forall id d, checkEdge m id d = Ok tt <-> d <> id /\ d ∈ nodeIDs (sortedNodes m)).
  { intros id d. unfold checkEdge. rewrite sortedNodes_ids, elem_of_sort_strings by done.
    assert (Hd : d ∈ (map_to_list m).*1 <-> is_Some (m !! d)).
    { rewrite list_elem_of_fmap. split.
      - intros ([k n] & -> & Hkn%elem_of_map_to_list). eauto.
      - intros [n Hn]. exists (d, n). split; [done|]. by apply elem_of_map_to_list. }
    rewrite Hd. destruct (str_eqb_spec d id); cbn; [naive_solver|]. case_bool_decide; naive_solver. }
  split; [intros [_ H] n d Hn Hd; by apply He, H | intros H; split; [done|]; intros n d Hn Hd; by apply He, H].
Qed.

(** ** What compiles *)

(** The topology has no cycle. *)
Definition acyclic (nodes : list Node) : Prop :=
  forall x, x ∈ nodeIDs nodes -> grounded (nodeDeps nodes) x.

Lemma canon_nodes_ok nodes :
  NoDup ((fun n => TrimSpace (nd_ID n)) <$> nodes) -> edges_known (sortedNodes (canonMap nodes)) ->
  nodes_ok (sortedNodes (canonMap nodes)).
Proof.
  intros Hnd Hk. split.
  - by apply sortedNodes_NoDup, canonMap_keyed.
  - intros n (m & -> & _)%elem_of_canonNodes%list_elem_of_fmap; [|done]. cbn.
    apply NoDup_sort_strings, NoDup_remove_dups.
  - intros n d Hn Hd. by apply (Hk n d).
Qed.

Record graph_ok `{GraphCodec} (inp : GraphDefinition) : Prop := {
  gk_id : id_ok MaxGraphIDBytes (TrimSpace (gd_GraphID inp));
  gk_version : id_ok MaxVersionBytes (TrimSpace (gd_Version inp));
  gk_count : (1 <= length (gd_Nodes inp) <= MaxNodes)%nat;
  gk_readable : readable (gd_Nodes inp);
  gk_known : edges_known (gd_Nodes (canonGraph inp));
  gk_acyclic : acyclic (gd_Nodes (canonGraph inp));
  gk_size : Z.of_nat (byteLen (canonicalJSON TopologySchemaV1 (canonGraph inp))) <= MaxCanonicalBytes
}.

(** What a well-formed graph compiles to. *)
Definition compiledForm `{GraphCodec} (inp : GraphDefinition) : Compiled :=
  let def := canonGraph inp in
  mkCompiled def
    (mkIdentity (gd_GraphID def) (gd_Version def) ("sha256:" +:+ sha256Hex (canonicalJSON TopologySchemaV1 def)))
    (topoOrder (nodeIDs (gd_Nodes def)) (nodeDeps (gd_Nodes def))).

Lemma checkID_iff id mx c1 c2 f : checkID id mx c1 c2 f = Ok tt <-> id_ok mx id.
Proof.
  unfold checkID, id_ok. destruct (str_eqb_spec id ""); cbn; [naive_solver|].
  destruct (ValidString id); [|naive_solver]. destruct (Nat.leb_spec (byteLen id) mx); [naive_solver|].
  split; [done|]. lia.
Qed.

Section compile.
Context `{GraphCodec}.

Lemma order_iff nodes order :
  nodes_ok nodes ->
  stableTopologicalOrder nodes = Ok order
  <-> acyclic nodes /\ order = topoOrder (nodeIDs nodes) (nodeDeps nodes).
Proof.
  intros Hok. rewrite stableTopologicalOrder_spec by done. cbn zeta.
  assert (Hl : length (nodeIDs nodes) = length nodes) by (unfold nodeIDs; by rewrite length_fmap).
  pose proof (topoOrder_complete (nodeIDs nodes) (nodeDeps nodes) (nodeDeps_closed nodes Hok) (no_ids _ Hok)) as Hc.
  rewrite Hl in Hc. unfold acyclic. rewrite <-Hc. case_bool_decide; naive_solver.
Qed.

Lemma compileTopology_iff graphID version m c :
  keyed m -> (edges_known (sortedNodes m) -> nodes_ok (sortedNodes m)) ->
  let def := mkGraphDefinition graphID version (sortedNodes m) in
  compileTopology graphID version m = Ok c
  <-> (edges_known (sortedNodes m) /\ acyclic (sortedNodes m)
       /\ Z.of_nat (byteLen (canonicalJSON TopologySchemaV1 def)) <= MaxCanonicalBytes)
      /\ c = mkCompiled def
               (mkIdentity graphID version ("sha256:" +:+ sha256Hex (canonicalJSON TopologySchemaV1 def)))
               (topoOrder (nodeIDs (sortedNodes m)) (nodeDeps (sortedNodes m))).
Proof.
  intros Hk Hok. cbn zeta. unfold compileTopology. rewrite bind_unit_ok, checkEdges_iff, result_bind_ok by done. split.
  - intros (He & order & Ho & [Hs [= <-]]%require_ok). apply order_iff in Ho as [Ha ->]; [|by apply Hok].
    split; [|done]. split_and!; [done..|lia].
  - intros [(He & Ha & Hs) ->]. split; [done|]. eexists. split; [apply order_iff; [by apply Hok | done]|].
    apply require_ok. split; [by apply Z.leb_le | done].
Qed.

Lemma Compile_iff inp c : Compile inp = Ok c <-> graph_ok inp /\ c = compiledForm inp.
Proof.
  unfold Compile. cbn zeta. rewrite !bind_unit_ok, !checkID_iff, !require_ok, negb_true_iff, bool_decide_eq_false.
  rewrite Nat.leb_le. rewrite result_bind_ok.
  pose proof (readNodes_spec (gd_Nodes inp)) as Hr.
  destruct (foldl readNode _ _) as [r|err]; [|split; [naive_solver | by intros [[] _]]].
  destruct Hr as (Hrd & Hm & _ & _). pose proof Hrd as (_ & Hnd & _).
  pose proof (compileTopology_iff (TrimSpace (gd_GraphID inp)) (TrimSpace (gd_Version inp)) (canonMap (gd_Nodes inp)) c
    (canonMap_keyed _ Hnd) (canon_nodes_ok _ Hnd)) as Ht. cbn zeta in Ht. rewrite <-Hm in Ht. split.
  - intros (? & ? & ? & ? & r' & [= <-] & [(? & ? & ?) ->]%Ht). rewrite Hm in *.
    split; [|done]. split; try done. lia.
  - intros [[? ? ? ? ? ? ?] ->]. split_and!; try done; [lia..|]. exists r. split; [done|].
    apply Ht. rewrite Hm. done.
Qed.
End compile.

(** ** Independence of the way it is written *)

(** The same node with its dependencies in any order. *)
Definition same_node (n m : Node) : Prop := nd_ID n = nd_ID m /\ nd_DependsOn n ≡ₚ nd_DependsOn m.

Definition same_graph (a b : GraphDefinition) : Prop :=
  TrimSpace (gd_GraphID a) = TrimSpace (gd_GraphID b) /\ TrimSpace (gd_Version a) = TrimSpace (gd_Version b)
  /\ exists l, gd_Nodes a ≡ₚ l /\ Forall2 same_node l (gd_Nodes b).

Lemma canonNode_same n m : same_node n m -> canonNode n = canonNode m.
Proof.
  intros [E1 E2]. unfold canonNode. rewrite E1. f_equal. apply sort_remove_dups; [apply NoDup_remove_dups|].
  intros x. by rewrite elem_of_remove_dups, E2.
Qed.

Lemma same_nodes_fmap {A} (f : Node -> A) l k :
  (forall n m, same_node n m -> f n = f m) -> Forall2 same_node l k -> f <$> l = f <$> k.
Proof. intros Hf. induction 1; cbn; [done|]. f_equal; auto. Qed.

Lemma readable_perm nodes l : nodes ≡ₚ l -> readable nodes <-> readable l.
Proof.
  intros Hp. assert (E : rawEdges nodes = rawEdges l) by (unfold rawEdges; by rewrite Hp).
  assert (Ef : Forall node_ok nodes <-> Forall node_ok l) by (by rewrite Hp).
  assert (En : NoDup ((fun n => TrimSpace (nd_ID n)) <$> nodes) <-> NoDup ((fun n => TrimSpace (nd_ID n)) <$> l)) by (by rewrite Hp).
  unfold readable. rewrite E. tauto.
Qed.

Lemma readable_same l nodes k : nodes ≡ₚ l -> Forall2 same_node l k -> readable nodes <-> readable k.
Proof.
  intros Hp Hf. rewrite (readable_perm _ _ Hp). clear Hp nodes. unfold readable, rawEdges.
  rewrite (same_nodes_fmap (fun n => TrimSpace (nd_ID n)) l k) by (done || by intros n m [-> _]).
  assert (Hs : sum_list_with (fun n => length (nd_DependsOn n)) l = sum_list_with (fun n => length (nd_DependsOn n)) k
               /\ (Forall node_ok l <-> Forall node_ok k)); [|destruct Hs as [-> ->]; done].
  induction Hf as [|n m l k [E1 E2] Hf [IH1 IH2]]; [done|]. cbn. rewrite IH1, E2, !Forall_cons, IH2.
  unfold node_ok. by rewrite E1, E2.
Qed.

Lemma canonMap_same l nodes k :
  NoDup ((fun n => TrimSpace (nd_ID n)) <$> nodes) -> nodes ≡ₚ l -> Forall2 same_node l k ->
  canonMap nodes = canonMap k.
Proof.
  intros Hnd Hp Hf. unfold canonMap.
  rewrite <-(same_nodes_fmap (fun n => (TrimSpace (nd_ID n), canonNode n)) l k); [|by intros n m Hs;
    rewrite (canonNode_same n m Hs); destruct Hs as [-> _] | done].
  apply list_to_map_proper; [by rewrite <-list_fmap_compose | by rewrite Hp].
Qed.

Lemma canonGraph_same a b : readable (gd_Nodes a) -> same_graph a b -> canonGraph a = canonGraph b.
Proof.
  intros (_ & Hnd & _) (E1 & E2 & l & Hp & Hf). unfold canonGraph.
  by rewrite E1, E2, (canonMap_same l (gd_Nodes a) (gd_Nodes b)).
Qed.

(** ** The canonical form *)

Lemma canonNode_idemp n : canonNode (canonNode n) = canonNode n.
Proof.
  unfold canonNode. cbn [nd_ID nd_DependsOn]. rewrite TrimSpace_idemp. f_equal. symmetry. apply sort_remove_dups.
  - apply NoDup_remove_dups.
  - intros x. rewrite elem_of_remove_dups, !list_elem_of_fmap. split.
    + intros (d & -> & Hd). exists (TrimSpace d). split; [by rewrite TrimSpace_idemp|].
      rewrite elem_of_sort_strings, elem_of_remove_dups. by apply list_elem_of_fmap_2.
    + intros (d & -> & Hd). rewrite elem_of_sort_strings, elem_of_remove_dups in Hd.
      apply list_elem_of_fmap in Hd as (d' & -> & Hd'). exists d'. by rewrite TrimSpace_idemp.
Qed.

Lemma canonNode_ok n : node_ok n -> node_ok (canonNode n).
Proof.
  unfold node_ok. cbn. rewrite TrimSpace_idemp. intros [Hid Hd]. split; [done|].
  apply Forall_forall. intros d. rewrite elem_of_sort_strings, elem_of_remove_dups.
  intros (d' & -> & Hd')%list_elem_of_fmap. rewrite TrimSpace_idemp. rewrite Forall_forall in Hd. by apply Hd.
Qed.

Lemma length_remove_dups (l : list string) : (length (remove_dups l) <= length l)%nat.
Proof. induction l as [|x l IH]; cbn; [lia|]. case_decide; cbn; lia. Qed.

Lemma canon_readable nodes : readable nodes -> readable (sortedNodes (canonMap nodes)).
Proof.
  intros (Hall & Hnd & Hsum). apply (readable_perm _ _ (canonNodes_perm nodes Hnd)).
  unfold readable, rawEdges in *. split_and!.
  - apply Forall_fmap. eapply Forall_impl; [exact Hall|]. apply canonNode_ok.
  - rewrite <-list_fmap_compose. unfold compose. cbn.
    rewrite (list_fmap_ext _ (fun n => TrimSpace (nd_ID n)) nodes); [done|]. intros ? ? _. by rewrite TrimSpace_idemp.
  - etransitivity; [|exact Hsum]. clear. induction nodes as [|n nodes IH]; cbn; [lia|].
    rewrite (Permutation_length (sort_strings_perm _)).
    pose proof (length_remove_dups (TrimSpace <$> nd_DependsOn n)) as Hl. rewrite length_fmap in Hl. lia.
Qed.

Lemma canonGraph_idemp a : readable (gd_Nodes a) -> canonGraph (canonGraph a) = canonGraph a.
Proof.
  intros Hr. pose proof (canon_readable _ Hr) as (_ & Hnd' & _). destruct Hr as (_ & Hnd & _).
  unfold canonGraph. cbn [gd_Nodes gd_GraphID gd_Version]. rewrite !TrimSpace_idemp. do 2 f_equal.
  apply map_eq. intros id. apply option_eq. intros n.
  rewrite (canonMap_lookup (sortedNodes _)), (canonMap_lookup (gd_Nodes a)) by done. split.
  - intros (m & Hm & -> & ->). apply elem_of_canonNodes, list_elem_of_fmap in Hm as (k & -> & Hk); [|done].
    exists k. split_and!; [done | apply canonNode_idemp | apply TrimSpace_idemp].
  - intros (k & Hk & -> & ->). exists (canonNode k). split_and!; [|by rewrite canonNode_idemp | cbn; by rewrite TrimSpace_idemp].
    apply elem_of_canonNodes; [done|]. by apply list_elem_of_fmap_2.
Qed.

(** ** Theorems *)

Section theorems.
Context `{GraphCodec}.

(** The order in which a graph is written does not matter: when one text
    compiles, every text with the same nodes and dependencies in another order
    compiles as well, and to the same canonical form, identity, digest and
    execution order. *)
Theorem graph_compile_order_independent a b c :
  same_graph a b -> Compile a = Ok c -> Compile b = Ok c.
Proof.
  intros Hs [Hok ->]%Compile_iff. apply Compile_iff.
  pose proof (canonGraph_same a b (gk_readable _ Hok) Hs) as E.
  destruct Hok as [H1 H2 H3 H4 H5 H6 H7]. destruct Hs as (E1 & E2 & l & Hp & Hf). rewrite E in *.
  split; [|unfold compiledForm; by rewrite E]. split; try done; try congruence.
  - by rewrite <-(Forall2_length _ _ _ Hf), <-Hp.
  - by rewrite <-(readable_same l (gd_Nodes a) (gd_Nodes b)).
Qed.

(** Compiling the canonical form that a compilation returned gives the same
    compiled graph: canonical forms are fixed points, so an identity can be
    recomputed from what is stored. *)
Theorem graph_canonical_fixpoint a c : Compile a = Ok c -> Compile (gc_Definition c) = Ok c.
Proof.
  intros [Hok ->]%Compile_iff. apply Compile_iff. cbn [gc_Definition compiledForm].
  pose proof (canonGraph_idemp a (gk_readable _ Hok)) as E.
  destruct Hok as [H1 H2 H3 H4 H5 H6 H7].
  split; [|unfold compiledForm; by rewrite E]. split; rewrite ?E; try done.
  - cbn. by rewrite TrimSpace_idemp.
  - cbn. by rewrite TrimSpace_idemp.
  - cbn [canonGraph gd_Nodes]. rewrite canonNodes_perm, length_fmap by apply H4. done.
  - by apply canon_readable.
Qed.

(** C19: the order of a compiled graph is a permutation of its nodes in which every
    node comes after all its dependencies, and the graph is within its limits: at
    most 1024 nodes, 8192 dependencies, and 128 bytes for every name. *)
Theorem graph_compile_sound a c :
  Compile a = Ok c ->
  let nodes := gd_Nodes (gc_Definition c) in
  gc_Order c ≡ₚ nodeIDs nodes /\ layered (nodeIDs nodes) (nodeDeps nodes) (gc_Order c)
  /\ (1 <= length nodes <= MaxNodes)%nat /\ (rawEdges nodes <= MaxEdges)%nat /\ Forall node_ok nodes.
Proof.
  intros [[H1 H2 H3 H4 H5 H6 H7] ->]%Compile_iff. cbn zeta. cbn [gc_Order gc_Definition compiledForm].
  pose proof (canon_readable _ H4) as (R1 & _ & R3). pose proof H4 as (_ & Hnd & _).
  pose proof (canon_nodes_ok _ Hnd H5) as Hok. split_and!; try done.
  - apply greedy_complete; [by apply nodeDeps_closed | done | apply layered_nil | apply Hok | cbn; lia].
  - apply topoOrder_layered.
  - cbn [canonGraph gd_Nodes]. rewrite canonNodes_perm, length_fmap by done. lia.
  - cbn [canonGraph gd_Nodes]. rewrite canonNodes_perm, length_fmap by done. lia.
Qed.
End theorems.

(** ** The example *)

Definition demoGraph : GraphDefinition :=
  mkGraphDefinition "release" "v1" [mkNode "test" ["build"; "lint"]; mkNode "lint" []; mkNode " build" []].

Definition demoGraphReordered : GraphDefinition :=
  mkGraphDefinition " release" "v1" [mkNode " build" []; mkNode "lint" []; mkNode "test" ["lint"; "build"]].

Definition demoCompiled : Compiled :=
  mkCompiled (mkGraphDefinition "release" "v1" [mkNode "build" []; mkNode "lint" []; mkNode "test" ["build"; "lint"]])
    (mkIdentity "release" "v1" "sha256:execution_graph.v1") ["build"; "lint"; "test"].

Lemma graph_compile_order_independent_witness : Compile demoGraphReordered = Ok demoCompiled.
Proof.
  apply (graph_compile_order_independent demoGraph); [|vm_compute; reflexivity].
  split; [vm_compute; reflexivity|]. split; [vm_compute; reflexivity|].
  exists [mkNode " build" []; mkNode "lint" []; mkNode "test" ["build"; "lint"]]. split.
  - apply (Permutation_rev (gd_Nodes demoGraph)).
  - repeat constructor.
Defined.

Lemma graph_canonical_fixpoint_witness : Compile (gc_Definition demoCompiled) = Ok demoCompiled.
Proof. apply (graph_canonical_fixpoint demoGraph). vm_compute. reflexivity. Defined.

Lemma graph_compile_sound_witness :
  gc_Order demoCompiled ≡ₚ nodeIDs (gd_Nodes (gc_Definition demoCompiled)).
Proof.
  assert (E : Compile demoGraph = Ok demoCompiled) by (vm_compute; reflexivity).
  pose proof (graph_compile_sound demoGraph demoCompiled E) as Hs. cbn zeta in Hs. destruct Hs as [Hp _]. exact Hp.
Defined.
