(* ===== verification/WorkflowPlanProps.v ===== *)
(** * Workflow: planning, the properties

    The search for cycles finds one exactly when there is one; the plan of a
    valid definition exists, and it is the reference order of TopoSort; the
    stable order of an execution graph is the same reference order. *)
From S2P Require Import Prelude GoStrings GoNum TopoSort WorkflowTypes WorkflowCompose.
From S2P Require Import ExecutionGraph ExecutionGraphProps WorkflowComposeProps WorkflowPlan WorkflowDemo.

Local Open Scope bool_scope.
Local Open Scope string_scope.
Local Open Scope list_scope.
Local Open Scope Z_scope.

(** ** The search for cycles *)

Section search.
Context (adj : gmap string (list string)) (U : gset string).

Definition out (x : string) : list string := default [] (adj !! x).

Hypothesis out_in : forall x d, d ∈ out x -> d ∈ U.

(** [x] depends on [d]. *)
Definition dep (x d : string) : Prop := d ∈ out x.

Definition cyclic : Prop := exists x, tc dep x x.

(** A state of the search: marks are 1 or 2, nodes that are done are
    grounded. *)
Record search_ok (v : gmap string Z) : Prop := {
  so_marks : forall x n, v !! x = Some n -> n = 1 \/ n = 2;
  so_done : forall x, v !! x = Some 2 -> grounded out x
}.

(** The search moved on: the path is the same, more nodes are done. *)
Record search_grows (v v' : gmap string Z) : Prop := {
  sg_ok : search_ok v';
  sg_path : forall x, v' !! x = Some 1 <-> v !! x = Some 1;
  sg_done : forall x, v !! x = Some 2 -> v' !! x = Some 2
}.

Definition unseen (v : gmap string Z) : nat := size (U ∖ dom v).

Lemma search_grows_unseen v v' : search_ok v -> search_grows v v' -> (unseen v' <= unseen v)%nat.
Proof.
  intros Hv [Hok Hp Hd]. unfold unseen. apply subseteq_size. intros x. rewrite !elem_of_difference, !not_elem_of_dom.
  intros [HU Hx]. split; [done|]. destruct (v !! x) as [n|] eqn:E; [|done].
  destruct (so_marks v Hv x n E) as [-> | ->].
  - apply Hp in E. congruence.
  - apply Hd in E. congruence.
Qed.

(** What a search from a node that every node on the path reaches gives. *)
Definition searches (f : gmap string Z -> string -> gmap string Z * bool) (n : nat) : Prop :=
  forall v id, search_ok v -> id ∈ U -> (unseen v <= n)%nat ->
    (forall g, v !! g = Some 1 -> tc dep g id) ->
    match f v id with
    | (_, true) => cyclic
    | (v', false) => search_grows v v' /\ v' !! id = Some 2
    end.

Lemma searchDeps_spec f n v deps :
  searches f n -> search_ok v -> (unseen v <= n)%nat -> Forall (fun d => d ∈ U) deps ->
  (forall g, v !! g = Some 1 -> Forall (tc dep g) deps) ->
  match searchDeps f v deps with
  | (_, true) => cyclic
  | (v', false) => search_grows v v' /\ Forall (fun d => v' !! d = Some 2) deps
  end.
Proof.
  intros Hf. revert v. induction deps as [|d deps IH]; intros v Hv Hn HU Hg; cbn.
  - split; [by split | done].
  - apply Forall_cons in HU as [HUd HU].
    pose proof (Hf v d Hv HUd Hn) as Hd.
    destruct (f v d) as [v1 [|]].
    { apply Hd. intros g Hgg. by apply Hg, Forall_cons in Hgg as [? _]. }
    destruct Hd as [Hgr Hd2].
    { intros g Hgg. by apply Hg, Forall_cons in Hgg as [? _]. }
    specialize (IH v1 (sg_ok _ _ Hgr)).
    pose proof (search_grows_unseen _ _ Hv Hgr).
    destruct (searchDeps f v1 deps) as [v2 [|]].
    { apply IH; [lia | done|]. intros g Hgg%(sg_path _ _ Hgr). by apply Hg, Forall_cons in Hgg as [_ ?]. }
    destruct IH as [Hgr2 Hds]; [lia | done| |].
    { intros g Hgg%(sg_path _ _ Hgr). by apply Hg, Forall_cons in Hgg as [_ ?]. }
    split.
    + destruct Hgr as [? Hp1 Hd1], Hgr2 as [? Hp2 Hdd2]. split; [done| |auto].
      intros x. by rewrite Hp2.
    + constructor; [by apply (sg_done _ _ Hgr2) | done].
Qed.

Lemma dfs_searches n : searches (dfs n adj) n.
Proof.
  induction n as [|n IH]; intros v id Hv HU Hn Hg; cbn [dfs];
    destruct (v !! id) as [m|] eqn:E.
  1,3: destruct (so_marks v Hv id m E) as [-> | ->]; [exists id; by apply Hg | by split].
  - exfalso. assert (HH : id ∈ U ∖ dom v) by (apply elem_of_difference; split; [done | by apply not_elem_of_dom]).
    unfold unseen in Hn. assert (Hz : size (U ∖ dom v) = 0%nat) by lia.
    apply size_empty_inv in Hz. set_solver.
  - set (v1 := <[id := 1]> v).
    assert (Hv1 : search_ok v1).
    { split; intros x.
      - intros k [[<- <-]|[_ Hx]]%lookup_insert_Some; [by left | by eapply so_marks].
      - intros [[_ ?]|[_ Hx]]%lookup_insert_Some; [done | by eapply so_done]. }
    assert (Hn1 : (unseen v1 <= n)%nat).
    { unfold unseen, v1 in *. rewrite dom_insert_L.
      assert (Hlt : (size (U ∖ ({[id]} ∪ dom v)) < size (U ∖ dom v))%nat); [|lia].
      apply subset_size. apply not_elem_of_dom in E. set_solver. }
    assert (Hreach : forall g, v1 !! g = Some 1 -> Forall (tc dep g) (out id)).
    { intros g. unfold v1. intros [[<- _]|[Hne Hgg]]%lookup_insert_Some; apply Forall_forall; intros d Hd.
      - by apply tc_once.
      - eapply tc_r; [by apply Hg | done]. }
    pose proof (searchDeps_spec _ n v1 (out id) IH Hv1 Hn1 (proj2 (Forall_forall _ _) (out_in id)) Hreach) as Hs.
    unfold out in Hs at 1. destruct (searchDeps (dfs n adj) v1 (default [] (adj !! id))) as [v2 [|]]; [done|].
    destruct Hs as [[Hok2 Hp2 Hd2] Hall]. split; [|apply lookup_insert_eq].
    split.
    + split; intros x.
      * intros k [[_ <-]|[_ Hx]]%lookup_insert_Some; [by right | by eapply so_marks].
      * intros [[<- _]|[_ Hx]]%lookup_insert_Some; [|by eapply so_done].
        constructor. intros d Hd. apply (so_done v2 Hok2). rewrite Forall_forall in Hall. by apply Hall.
    + intros x. destruct (decide (x = id)) as [->|Hne].
      * rewrite lookup_insert_eq, E. done.
      * rewrite lookup_insert_ne, Hp2 by done. unfold v1. by rewrite lookup_insert_ne.
    + intros x Hx. destruct (decide (x = id)) as [->|Hne]; [congruence|].
      rewrite lookup_insert_ne by done. apply Hd2. unfold v1. by rewrite lookup_insert_ne.
Qed.

Lemma grounded_acyclic x : grounded out x -> ~ tc dep x x.
Proof.
  assert (Hind : forall y, grounded out y -> forall z, tc dep y z -> grounded out z).
  { intros y Hy z Hyz. induction Hyz as [y z Hd | y w z Hd _ IH]; [by apply Hy|]. apply IH. by apply Hy. }
  induction 1 as [x _ IH]. intros Hx.
  assert (Hd : exists d, dep x d /\ (d = x \/ tc dep d x)).
  { inversion Hx as [? ? H1|? y ? H1 H2]; subst; eauto. }
  destruct Hd as (d & Hd & [->|Hdx]); [by apply (IH x Hd)|].
  apply (IH d Hd). eapply tc_r; [exact Hdx | exact Hd].
Qed.

Lemma search_all n keys :
  (size U <= n)%nat -> Forall (fun k => k ∈ U) keys ->
  match searchDeps (dfs n adj) ∅ keys with
  | (_, true) => cyclic
  | (_, false) => Forall (grounded out) keys
  end.
Proof.
  intros Hn HU. assert (Hok : search_ok ∅) by (split; intros x; by rewrite lookup_empty).
  pose proof (searchDeps_spec _ n ∅ keys (dfs_searches n) Hok) as Hs.
  destruct (searchDeps _ ∅ keys) as [v [|]].
  - apply Hs; [unfold unseen; rewrite dom_empty_L, difference_empty_L; done | done|].
    intros g. by rewrite lookup_empty.
  - destruct Hs as [Hg Hd].
    + unfold unseen. by rewrite dom_empty_L, difference_empty_L.
    + done.
    + intros g. by rewrite lookup_empty.
    + eapply Forall_impl; [exact Hd|]. intros x. apply (so_done v), Hg.
Qed.
End search.

(** ** Valid definitions *)

Definition stepIDs (steps : list Step) : list string := sp_StepID <$> steps.

(** The dependencies of the step with an id. *)
Definition depsOf (steps : list Step) (id : string) : list string := out (adjacency steps) id.

Lemma adjacency_foldl steps (adj : gmap string (list string)) id :
  foldl (fun (adj : gmap string (list string)) s => <[sp_StepID s := sp_DependsOn s]> adj) adj steps !! id
  = match List.find (fun s => sp_StepID s =s? id) (rev steps) with
    | Some s => Some (sp_DependsOn s)
    | None => adj !! id
    end.
Proof.
  revert adj. induction steps as [|s steps IH] using rev_ind; intros adj; [done|].
  rewrite foldl_app, rev_app_distr. cbn. destruct (str_eqb_spec (sp_StepID s) id) as [<-|Hne].
  - apply lookup_insert_eq.
  - rewrite lookup_insert_ne by done. apply IH.
Qed.

Lemma adjacency_lookup steps s :
  NoDup (stepIDs steps) -> s ∈ steps -> adjacency steps !! sp_StepID s = Some (sp_DependsOn s).
Proof.
  intros Hnd Hs. unfold adjacency. rewrite adjacency_foldl.
  destruct (List.find _ (rev steps)) as [s'|] eqn:E.
  - apply find_some in E as [Hin He]. apply in_rev, list_elem_of_In in Hin. apply str_eqb_eq in He.
    do 2 f_equal. by apply (NoDup_fmap_eq sp_StepID steps).
  - exfalso. apply find_none with (x := s) in E; [by rewrite str_eqb_refl in E|].
    by apply in_rev, list_elem_of_In; rewrite rev_involutive.
Qed.

Lemma adjacency_dom steps : dom (adjacency steps) = list_to_set (stepIDs steps) :> gset string.
Proof.
  apply set_eq. intros id. rewrite elem_of_dom, elem_of_list_to_set. unfold adjacency, stepIDs.
  rewrite adjacency_foldl, list_elem_of_fmap. split.
  - destruct (List.find _ _) as [s|] eqn:E; [|intros [? H]; by rewrite lookup_empty in H].
    intros _. apply find_some in E as [Hin He%str_eqb_eq]. apply in_rev, list_elem_of_In in Hin. eauto.
  - intros (s & -> & Hs). destruct (List.find _ _) as [s'|] eqn:E; [done|]. exfalso.
    apply find_none with (x := s) in E; [by rewrite str_eqb_refl in E|].
    by apply in_rev, list_elem_of_In; rewrite rev_involutive.
Qed.

Lemma depsOf_step steps s :
  NoDup (stepIDs steps) -> s ∈ steps -> depsOf steps (sp_StepID s) = sp_DependsOn s.
Proof. intros Hnd Hs. unfold depsOf, out. by rewrite adjacency_lookup. Qed.

Lemma depsOf_inv steps id d :
  d ∈ depsOf steps id -> exists s, s ∈ steps /\ sp_StepID s = id /\ d ∈ sp_DependsOn s.
Proof.
  unfold depsOf, out, adjacency. rewrite adjacency_foldl.
  destruct (List.find _ _) as [s|] eqn:E; cbn; [|by rewrite lookup_empty; intros ?%not_elem_of_nil].
  apply find_some in E as [Hin He%str_eqb_eq]. apply in_rev, list_elem_of_In in Hin. eauto.
Qed.

(** The dependency relation of the steps has a cycle. *)
Definition cyclicSteps (steps : list Step) : Prop := cyclic (adjacency steps).

Lemma hasCycle_search steps :
  if hasCycle steps then cyclicSteps steps
  else forall id, id ∈ stepIDs steps -> grounded (depsOf steps) id.
Proof.
  unfold hasCycle. cbn zeta.
  set (U := list_to_set (s ← steps; sp_StepID s :: sp_DependsOn s) : gset string).
  assert (Hout : forall x d, d ∈ out (adjacency steps) x -> d ∈ U).
  { intros x d (s & Hs & _ & Hd)%depsOf_inv. unfold U. apply elem_of_list_to_set, list_elem_of_bind.
    exists s. split; [by right | done]. }
  assert (Hkeys : Forall (fun k => k ∈ U) (sort_strings (elements (dom (adjacency steps))))).
  { apply Forall_forall. intros k Hk. rewrite elem_of_sort_strings, elem_of_elements, adjacency_dom in Hk.
    apply elem_of_list_to_set, list_elem_of_fmap in Hk as (s & -> & Hs).
    unfold U. apply elem_of_list_to_set, list_elem_of_bind. exists s. split; [by left | done]. }
  assert (Hsize : (size U <= dfsFuel steps)%nat).
  { unfold U, dfsFuel. apply size_list_to_set_le. }
  pose proof (search_all (adjacency steps) U Hout _ _ Hsize Hkeys) as Hs.
  destruct (searchDeps _ _ _) as [v [|]]; cbn; [done|].
  intros id Hid. rewrite Forall_forall in Hs. apply Hs.
  by rewrite elem_of_sort_strings, elem_of_elements, adjacency_dom, elem_of_list_to_set.
Qed.

(** The search answers for every step: there is a cycle through it or through
    what it depends on, or there is none. *)
Lemma hasCycle_iff steps :
  (forall s d, s ∈ steps -> d ∈ sp_DependsOn s -> d ∈ stepIDs steps) ->
  hasCycle steps = true <-> cyclicSteps steps.
Proof.
  intros Hclosed. pose proof (hasCycle_search steps) as Hs. destruct (hasCycle steps); [done|].
  split; [done|]. intros [x Hx]. exfalso.
  destruct (decide (x ∈ stepIDs steps)) as [Hid|Hid].
  - by apply (grounded_acyclic _ x (Hs x Hid)).
  - assert (Hd : exists d, dep (adjacency steps) x d).
    { inversion Hx as [? ? H1|? y ? H1 H2]; subst; eauto. }
    destruct Hd as (d & (s & Hin & <- & _)%depsOf_inv). apply Hid. unfold stepIDs.
    by apply list_elem_of_fmap_2.
Qed.

(** ** What validation establishes *)

Definition step_ok (s : Step) : Prop :=
  sp_Kind s ∈ stepKinds
  /\ (sp_Kind s = StepKindA2A -> TrimSpace (sp_AgentID s) <> "" /\ TrimSpace (sp_PeerID s) <> "")
  /\ (sp_CollabPrimitive s <> "" -> is_Some (ParsePrimitive (sp_CollabPrimitive s)))
  /\ sp_Condition s ∈ stepConditions
  /\ 0 <= re_MaxAttempts (sp_Retry s) /\ 0 <= re_Backoff (sp_Retry s) /\ 0 <= sp_Timeout s.

Record valid_def (def : WorkflowDefinition) : Prop := {
  vd_id : TrimSpace (wd_WorkflowID def) <> "";
  vd_steps : wd_Steps def <> [];
  vd_named : Forall (fun s => TrimSpace (sp_StepID s) <> "") (wd_Steps def);
  vd_unique : NoDup (stepIDs (wd_Steps def));
  vd_ok : Forall step_ok (wd_Steps def);
  vd_known : forall s d, s ∈ wd_Steps def -> d ∈ sp_DependsOn s -> d ∈ stepIDs (wd_Steps def);
  vd_acyclic : ~ cyclicSteps (wd_Steps def)
}.

Lemma check_nil b code step field : check b code step field = [] <-> b = false.
Proof. by destruct b. Qed.

Lemma stepViolations_nil s : stepViolations s = [] <-> step_ok s.
Proof.
  unfold stepViolations, step_ok. cbn zeta. rewrite !app_nil, !check_nil, !Z.ltb_ge.
  rewrite !negb_false_iff, !bool_decide_eq_true.
  assert (HA : (if sp_Kind s =s? StepKindA2A then
        check (TrimSpace (sp_AgentID s) =s? "") ErrCodeA2AAgentIDRequired (sp_StepID s) "steps.agent_id"
        ++ check (TrimSpace (sp_PeerID s) =s? "") ErrCodeA2APeerIDRequired (sp_StepID s) "steps.peer_id"
      else []) = [] <-> (sp_Kind s = StepKindA2A -> TrimSpace (sp_AgentID s) <> "" /\ TrimSpace (sp_PeerID s) <> "")).
  { destruct (str_eqb_spec (sp_Kind s) StepKindA2A) as [E|E]; [|tauto].
    rewrite app_nil, !check_nil, !str_eqb_neq. tauto. }
  assert (HB : (if negb (sp_CollabPrimitive s =s? "")
      then check (bool_decide (ParsePrimitive (sp_CollabPrimitive s) = None)) ErrCodeUnsupportedCondition
             (sp_StepID s) "steps.collab_primitive"
      else []) = [] <-> (sp_CollabPrimitive s <> "" -> is_Some (ParsePrimitive (sp_CollabPrimitive s)))).
  { destruct (str_eqb_spec (sp_CollabPrimitive s) "") as [E|E]; cbn; [tauto|].
    rewrite check_nil, bool_decide_eq_false, <-not_eq_None_Some. tauto. }
  tauto.
Qed.

(** The first loop reports nothing exactly when the ids are there, new, unique,
    and the steps are in order; it then saw these ids. *)
Lemma scanSteps_spec steps seen v ids :
  scanSteps seen steps = (v, ids) ->
  (v = [] <-> Forall (fun s => TrimSpace (sp_StepID s) <> "") steps /\ NoDup (stepIDs steps)
             /\ (forall id, id ∈ stepIDs steps -> id ∉ seen) /\ Forall step_ok steps)
  /\ (v = [] -> ids = list_to_set (stepIDs steps) ∪ seen).
Proof.
  revert seen v ids. induction steps as [|s steps IH]; intros seen v ids; cbn.
  - intros [= <- <-]. rewrite union_empty_l_L. split; [|done]. split; [|done]. intros _.
    split_and!; [done | apply NoDup_nil_2 | by intros id Hid%not_elem_of_nil | done].
  - destruct (str_eqb_spec (TrimSpace (sp_StepID s)) "") as [E|E].
    { destruct (scanSteps seen steps) as [v' ids']. intros [= <- <-]. split; [|done].
      split; [done|]. intros [[? _]%Forall_cons _]. done. }
    case_bool_decide as Hs.
    { destruct (scanSteps seen steps) as [v' ids']. intros [= <- <-]. split; [|done].
      split; [done|]. intros (_ & _ & Hn & _). exfalso. by apply (Hn (sp_StepID s)); [left|]. }
    destruct (scanSteps _ steps) as [v' ids'] eqn:R. intros [= <- <-].
    destruct (IH _ _ _ R) as [Hv Hids]. rewrite app_nil, stepViolations_nil, Hv. split.
    + rewrite !Forall_cons, NoDup_cons. split.
      * intros (Hok & Hn & Hnd & Hseen & Hall). split_and!; try done.
        -- intros Hin. apply (Hseen _ Hin). set_solver.
        -- intros id [->|Hid]%elem_of_cons; [done|]. intros Hi. apply (Hseen _ Hid). set_solver.
      * intros ((_ & Hn) & (Hni & Hnd) & Hseen & Hok & Hall). split_and!; try done.
        intros id Hid. rewrite not_elem_of_union, not_elem_of_singleton. split; [by intros ->|].
        apply Hseen. by right.
    + intros [_ H]. rewrite Hids; [set_solver | by apply Hv].
Qed.

Lemma bind_nil {A B} (f : A -> list B) (l : list A) : l ≫= f = [] <-> Forall (fun x => f x = []) l.
Proof. induction l as [|x l IH]; cbn; [by rewrite Forall_nil|]. by rewrite app_nil, Forall_cons, IH. Qed.

Lemma dependencyViolations_nil ids s :
  TrimSpace (sp_StepID s) <> "" ->
  dependencyViolations ids s = [] <-> forall d, d ∈ sp_DependsOn s -> d <> sp_StepID s /\ d ∈ ids.
Proof.
  intros Hn. unfold dependencyViolations. apply str_eqb_neq in Hn as ->.
  rewrite bind_nil, Forall_forall. apply forall_proper. intros d.
  destruct (str_eqb_spec d (sp_StepID s)) as [E|E].
  - split; [|intros H Hd; destruct (H Hd); done]. intros H Hd. by specialize (H Hd).
  - rewrite check_nil, negb_false_iff, bool_decide_eq_true. tauto.
Qed.

Lemma cyclic_self s steps :
  NoDup (stepIDs steps) -> s ∈ steps -> sp_StepID s ∈ sp_DependsOn s -> cyclicSteps steps.
Proof.
  intros Hnd Hs Hd. exists (sp_StepID s). apply tc_once. unfold dep.
  fold (depsOf steps (sp_StepID s)). by rewrite depsOf_step.
Qed.

Lemma ValidateDefinition_iff def : ValidateDefinition def = [] <-> valid_def def.
Proof.
  unfold ValidateDefinition. destruct (wd_Steps def) as [|s0 steps0] eqn:Es.
  { cbn zeta. rewrite app_nil. split; [intros [_ ?]; done | by intros [_ ? _ _ _ _ _]]. }
  rewrite <-Es. destruct (scanSteps ∅ (wd_Steps def)) as [v1 ids] eqn:Ev.
  destruct (scanSteps_spec _ _ _ _ Ev) as [Hv1 Hids].
  assert (Hiff : check (TrimSpace (wd_WorkflowID def) =s? "") ErrCodeWorkflowIDRequired "" "workflow_id"
      ++ v1 ++ (s ← wd_Steps def; dependencyViolations ids s) = []
    <-> TrimSpace (wd_WorkflowID def) <> "" /\ v1 = []
        /\ forall s d, s ∈ wd_Steps def -> d ∈ sp_DependsOn s -> d <> sp_StepID s /\ d ∈ stepIDs (wd_Steps def)).
  { rewrite !app_nil, check_nil, str_eqb_neq, bind_nil, Forall_forall. split.
    - intros (H1 & H2 & H3). split_and!; [done..|]. intros s d Hs Hd. specialize (H3 s Hs).
      rewrite dependencyViolations_nil in H3; [|apply Hv1 in H2 as [H2 _]; rewrite Forall_forall in H2; auto].
      apply H3 in Hd as [? Hd]. split; [done|]. rewrite (Hids H2) in Hd. set_solver.
    - intros (H1 & H2 & H3). split_and!; [done..|]. intros s Hs.
      rewrite dependencyViolations_nil; [|apply Hv1 in H2 as [H2 _]; rewrite Forall_forall in H2; auto].
      intros d Hd. rewrite (Hids H2). destruct (H3 s d Hs Hd). set_solver. }
  destruct (check _ _ _ _ ++ _) as [|e v] eqn:Evs; cycle 1.
  { split; [done|]. intros [H1 H2 H3 H4 H5 H6 H7]. exfalso. destruct Hiff as [_ Hiff].
    enough (e :: v = []) by done. apply Hiff. split; [exact H1|]. split.
    - apply Hv1. split_and!; try done.
    - intros s d Hs Hd. split; [|by eapply H6]. intros ->. apply H7. by eapply cyclic_self. }
  destruct Hiff as [(H1 & H2 & H3) _]; [done|]. apply Hv1 in H2 as (H4 & H5 & _ & H6).
  assert (H7 : forall s d, s ∈ wd_Steps def -> d ∈ sp_DependsOn s -> d ∈ stepIDs (wd_Steps def)) by naive_solver.
  rewrite check_nil, <-not_true_iff_false, (hasCycle_iff _ H7). split; [|by intros []].
  intros H8. split; try done. by rewrite Es.
Qed.

(** ** Edges and counters *)

(** The edges that start, or end, at a node. *)
Lemma addEdge_edges l edges deg id :
  default [] ((foldl addEdge (edges, deg) l).1 !! id)
  = default [] (edges !! id) ++ (filter (fun e => e.1 = id) l).*2.
Proof.
  revert edges deg. induction l as [|[d x] l IH]; intros edges deg; [by rewrite app_nil_r|].
  rewrite filter_cons. cbn [foldl addEdge fst]. rewrite IH. destruct (decide (d = id)) as [->|Hne].
  - rewrite lookup_insert_eq, fmap_cons. cbn. by rewrite <-app_assoc.
  - by rewrite lookup_insert_ne by done.
Qed.

Lemma addEdge_degrees l edges deg x n :
  deg !! x = Some n ->
  (foldl addEdge (edges, deg) l).2 !! x = Some (n + Z.of_nat (length (filter (fun e => e.2 = x) l))).
Proof.
  revert edges deg n. induction l as [|[d y] l IH]; intros edges deg n Hn.
  - cbn. rewrite Hn. f_equal. lia.
  - rewrite filter_cons. cbn [foldl addEdge snd]. destruct (decide (y = x)) as [->|Hne].
    + rewrite (IH _ _ (n + 1)); [f_equal; cbn [length]; lia|]. rewrite lookup_insert_eq, Hn. done.
    + apply IH. by rewrite lookup_insert_ne.
Qed.

Lemma addEdge_dom l edges deg :
  Forall (fun e => e.2 ∈ dom deg) l -> dom (foldl addEdge (edges, deg) l).2 = dom deg.
Proof.
  revert edges deg. induction l as [|[d y] l IH]; intros edges deg Hl; [done|].
  apply Forall_cons in Hl as [Hy Hl]. cbn in *.
  assert (E : dom (<[y := default 0 (deg !! y) + 1]> deg) = dom deg) by (rewrite dom_insert_L; set_solver).
  rewrite IH by (by rewrite E). done.
Qed.

Lemma initialDegrees_lookup steps id :
  initialDegrees steps !! id = if decide (id ∈ stepIDs steps) then Some 0 else None.
Proof.
  unfold initialDegrees, stepIDs. induction steps as [|s steps IH] using rev_ind; [done|].
  rewrite foldl_app, fmap_app. cbn. destruct (decide (sp_StepID s = id)) as [<-|Hne].
  - rewrite lookup_insert_eq, decide_True; [done|]. set_solver.
  - rewrite lookup_insert_ne, IH by done.
    destruct (decide (id ∈ sp_StepID <$> steps)), (decide (id ∈ (sp_StepID <$> steps) ++ [sp_StepID s]));
      set_solver.
Qed.

(** ** The plan is the reference order *)

Lemma release_foldl next deg ready :
  NoDup next ->
  foldl release (deg, ready) next
  = (decrement deg next, ready ++ filter (fun x => default 0 (deg !! x) = 1) next).
Proof.
  revert deg ready. induction next as [|x next IH]; intros deg ready Hnd; [by rewrite app_nil_r|].
  apply NoDup_cons in Hnd as [Hx Hnd]. rewrite filter_cons. cbn [foldl release]. rewrite (IH _ _ Hnd).
  f_equal.
  rewrite released_others by done. destruct (Z.eqb_spec (default 0 (deg !! x) - 1) 0).
  - rewrite decide_True by lia. by rewrite <-app_assoc.
  - by rewrite decide_False by lia.
Qed.

Section plan.
Context (ids : list string) (deps : string -> list string).
Hypothesis ids_unique : NoDup ids.
Hypothesis deps_unique : forall x, x ∈ ids -> NoDup (deps x).

Lemma planLoop_greedy fuel edges deg order :
  edges_to ids deps edges -> layered ids deps order -> counts ids deps deg order ->
  planLoop fuel edges deg (readyOf ids deps order) order = greedy ids deps fuel order.
Proof.
  intros Hedges. revert deg order. induction fuel as [|fuel IH]; intros deg order Ho Hc; [done|].
  cbn. destruct (readyOf ids deps order) as [|id rest] eqn:E; [done|].
  destruct (Hedges id) as [Hnd Hin].
  set (next := sort_strings (default [] (edges !! id))).
  assert (Hnext : NoDup next) by (by apply NoDup_sort_strings).
  assert (Hnin : forall x, x ∈ next <-> x ∈ ids /\ id ∈ deps x) by (intros x; unfold next; by rewrite elem_of_sort_strings).
  destruct (kahn_round ids deps deps_unique deg order id rest next) as [Hc' Hr]; try done.
  rewrite (release_foldl next deg rest Hnext), <-Hr.
  apply IH; [|done]. destruct (readyOf_cons _ _ _ _ _ E). by apply layered_snoc.
Qed.
End plan.

Lemma depsOf_NoDup steps :
  Forall (fun s => NoDup (sp_DependsOn s)) steps -> forall x, x ∈ stepIDs steps -> NoDup (depsOf steps x).
Proof.
  intros Hs x _. unfold depsOf, out, adjacency. rewrite adjacency_foldl.
  destruct (List.find _ _) as [s|] eqn:E; cbn; [|rewrite lookup_empty; apply NoDup_nil_2].
  apply find_some in E as [Hin _]. apply in_rev, list_elem_of_In in Hin.
  rewrite Forall_forall in Hs. by apply Hs.
Qed.

Lemma planEdges_edgesOf steps : planEdges steps = edgesOf sp_StepID sp_DependsOn steps.
Proof. done. Qed.

(** With the cycle check out of the way the loop is the reference. *)
Lemma planOrder_topoOrder steps :
  NoDup (stepIDs steps) -> Forall (fun s => NoDup (sp_DependsOn s)) steps ->
  planOrder steps = topoOrder (stepIDs steps) (depsOf steps).
Proof.
  intros Hids Hdeps. unfold planOrder, topoOrder.
  destruct (foldl addEdge (∅, initialDegrees steps) (planEdges steps)) as [edges deg] eqn:E.
  assert (Hdeps' : forall s, s ∈ steps -> NoDup (sp_DependsOn s)) by (by rewrite Forall_forall in Hdeps).
  assert (Hedges : edges_to (stepIDs steps) (depsOf steps) edges).
  { intros id. replace edges with (foldl addEdge (∅, initialDegrees steps) (planEdges steps)).1 by (by rewrite E).
    rewrite addEdge_edges, lookup_empty, planEdges_edgesOf. cbn [default from_option app].
    destruct (edgesOf_targets sp_StepID sp_DependsOn steps id Hids Hdeps') as [Hnd Hin].
    split; [exact Hnd|]. intros x. cbn. rewrite Hin. unfold stepIDs. rewrite list_elem_of_fmap. split.
    - intros (s & Hs & <- & Hd). split; [eauto|]. by rewrite depsOf_step.
    - intros [(s & -> & Hs) Hd]. rewrite depsOf_step in Hd by done. eauto. }
  assert (Hdeg : forall s, s ∈ steps -> deg !! sp_StepID s = Some (Z.of_nat (length (sp_DependsOn s)))).
  { intros s Hs. replace deg with (foldl addEdge (∅, initialDegrees steps) (planEdges steps)).2 by (by rewrite E).
    rewrite (addEdge_degrees _ _ _ _ 0).
    - by rewrite planEdges_edgesOf, (edgesOf_count sp_StepID sp_DependsOn steps s Hids Hs).
    - rewrite initialDegrees_lookup, decide_True; [done|]. unfold stepIDs. by apply list_elem_of_fmap_2. }
  assert (Hc : counts (stepIDs steps) (depsOf steps) deg []).
  { intros x (s & -> & Hs)%list_elem_of_fmap _. rewrite (Hdeg s Hs). unfold missing.
    rewrite depsOf_step, filter_all by (try done; intros ? ?; apply not_elem_of_nil). done. }
  rewrite kahn_start with (ids := stepIDs steps) (deps := depsOf steps); [|done| |done].
  - replace (length (stepIDs steps)) with (length steps) by (unfold stepIDs; by rewrite length_fmap).
    apply planLoop_greedy; [done | by apply depsOf_NoDup | done | apply layered_nil | done].
  - intros x. replace deg with (foldl addEdge (∅, initialDegrees steps) (planEdges steps)).2 by (by rewrite E).
    rewrite <-elem_of_dom, addEdge_dom.
    + rewrite elem_of_dom, initialDegrees_lookup. case_decide; [naive_solver|]. by split; [intros [? ?]|].
    + apply Forall_forall. intros [d y] (s & (d' & [= -> ->] & _)%list_elem_of_fmap & Hs)%list_elem_of_bind.
      cbn. apply elem_of_dom. rewrite initialDegrees_lookup, decide_True; [eauto|].
      unfold stepIDs. by apply list_elem_of_fmap_2.
Qed.

(** ** The plan *)

Lemma valid_grounded def :
  valid_def def -> forall x, x ∈ stepIDs (wd_Steps def) -> grounded (depsOf (wd_Steps def)) x.
Proof.
  intros Hv. pose proof (hasCycle_search (wd_Steps def)) as Hs.
  destruct (hasCycle (wd_Steps def)) eqn:E; [|done].
  exfalso. by apply (vd_acyclic _ Hv).
Qed.

Lemma depsOf_closed def x d :
  valid_def def -> d ∈ depsOf (wd_Steps def) x -> d ∈ stepIDs (wd_Steps def).
Proof. intros Hv (s & Hs & _ & Hd)%depsOf_inv. by apply (vd_known _ Hv s). Qed.

Lemma valid_complete def :
  valid_def def -> topoOrder (stepIDs (wd_Steps def)) (depsOf (wd_Steps def)) ≡ₚ stepIDs (wd_Steps def).
Proof.
  intros Hv. apply greedy_complete; [|by apply valid_grounded | apply layered_nil | apply Hv | cbn; lia].
  intros x d _. by apply depsOf_closed.
Qed.

Lemma normal_NoDup steps : Forall normal_step steps -> Forall (fun s => NoDup (sp_DependsOn s)) steps.
Proof. intros Hs. eapply Forall_impl; [exact Hs|]. by intros s (_ & ? & _). Qed.

Lemma Plan_iff `{RangeOrder} enabled def order :
  Plan enabled def = Ok order <->
  exists summary compiled,
    compileDefinition enabled (normalizeDefinition def) = (summary, Ok compiled) /\ valid_def compiled
    /\ order = topoOrder (stepIDs (wd_Steps compiled)) (depsOf (wd_Steps compiled)).
Proof.
  unfold Plan. destruct (compileDefinition _ _) as [su [d|e]] eqn:E; cbn [snd]; [|naive_solver].
  destruct (compileDefinition_ok _ _ _ _ E) as [_ Hn%normal_NoDup].
  destruct (ValidateDefinition d) as [|v vs] eqn:Ev.
  - apply ValidateDefinition_iff in Ev. cbn zeta. rewrite planOrder_topoOrder by (done || apply Ev).
    pose proof (valid_complete d Ev) as Hp.
    assert (Hl : length (stepIDs (wd_Steps d)) = length (wd_Steps d)) by (unfold stepIDs; by rewrite length_fmap).
    rewrite bool_decide_eq_true_2 by (by rewrite Hp). naive_solver.
  - split; [done|]. intros (su' & d' & [= _ <-] & Hv%ValidateDefinition_iff & _). congruence.
Qed.

(** C14: a definition has a plan exactly when it compiles to a valid definition:
    named unique steps of a known kind and condition, non-negative limits,
    dependencies on known steps, no cycle. The plan is then the reference order:
    always the smallest step whose dependencies are all planned. *)
Theorem plan_exists_iff_valid `{RangeOrder} enabled def order :
  Plan enabled def = Ok order <->
  exists summary compiled,
    compileDefinition enabled (normalizeDefinition def) = (summary, Ok compiled) /\ valid_def compiled
    /\ order = topoOrder (stepIDs (wd_Steps compiled)) (depsOf (wd_Steps compiled)).
Proof. apply Plan_iff. Qed.

(** The plan of a definition lists every step of the compiled definition once,
    each after all its dependencies. *)
Theorem plan_respects_dependencies `{RangeOrder} enabled def order :
  Plan enabled def = Ok order ->
  exists summary compiled,
    compileDefinition enabled (normalizeDefinition def) = (summary, Ok compiled)
    /\ order ≡ₚ stepIDs (wd_Steps compiled)
    /\ layered (stepIDs (wd_Steps compiled)) (depsOf (wd_Steps compiled)) order.
Proof.
  intros (su & d & E & Hv & ->)%Plan_iff. exists su, d. split_and!; [done | by apply valid_complete|].
  apply topoOrder_layered.
Qed.

Lemma plan_respects_dependencies_witness :
  exists summary compiled,
    @compileDefinition listing_order true (@normalizeDefinition listing_order demoComposed) = (summary, Ok compiled)
    /\ ["build"; "eu/push"; "eu/verify"; "report"] ≡ₚ stepIDs (wd_Steps compiled).
Proof.
  destruct (plan_respects_dependencies (H := listing_order) true demoComposed ["build"; "eu/push"; "eu/verify"; "report"])
    as (su & d & E & Hp & _); [vm_compute; reflexivity | eauto].
Defined.

(** ** The projection *)

Lemma normalized_id `{RangeOrder} s :
  normal_step s -> TrimSpace (sp_StepID s) <> "" -> sp_StepID (normalizeStep s) = sp_StepID s.
Proof.
  intros (E & _) Hne. cbn. unfold resolvedStepID. rewrite !E in *. apply str_eqb_neq in Hne as Hb.
  by rewrite Hb, E, Hb.
Qed.

(** The canonical node of a normalised step. *)
Lemma projected_deps `{RangeOrder} s d :
  normal_step s -> d ∈ nd_DependsOn (canonNode (projectNode (normalizeStep s))) <-> d ∈ sp_DependsOn s.
Proof.
  intros (_ & _ & Hd). cbn. rewrite elem_of_sort_strings, elem_of_remove_dups.
  unfold normalizeDependsOn. destruct (uniqueTrimmed_spec (sp_DependsOn s) [] NoDup_nil_2) as [_ Hu].
  rewrite Forall_forall in Hd.
  assert (Hin : forall x, x ∈ uniqueTrimmed [] (sp_DependsOn s) <-> x ∈ sp_DependsOn s).
  { intros x. rewrite Hu, list_elem_of_fmap. split.
    - intros [?%not_elem_of_nil|[_ (y & -> & Hy)]]; [done|]. by rewrite TrimSpace_id by apply Hd, Hy.
    - intros Hx. right. destruct (Hd x Hx). split; [done|]. exists x. by rewrite TrimSpace_id. }
  rewrite list_elem_of_fmap. split.
  - intros (y & -> & Hy%Hin). by rewrite TrimSpace_id by apply Hd, Hy.
  - intros Hx. exists d. split; [by rewrite TrimSpace_id by apply Hd, Hx | by apply Hin].
Qed.

Lemma projected_order `{RangeOrder} def inp :
  Forall normal_step (wd_Steps def) -> valid_def def ->
  gd_Nodes inp = projectNode <$> wd_Steps (normalizeDefinition def) ->
  let nodes := gd_Nodes (canonGraph inp) in
  topoOrder (nodeIDs nodes) (nodeDeps nodes) = topoOrder (stepIDs (wd_Steps def)) (depsOf (wd_Steps def)).
Proof.
  intros Hn Hv Hinp. cbn zeta. cbn [canonGraph gd_Nodes].
  set (mk := fun s => projectNode (normalizeStep s)).
  assert (E : gd_Nodes inp = mk <$> wd_Steps def).
  { rewrite Hinp. cbn. unfold normalizeSteps. by rewrite <-list_fmap_compose. }
  pose proof (vd_named _ Hv) as Hne. rewrite Forall_forall in Hn, Hne.
  assert (Hid : forall s, s ∈ wd_Steps def -> TrimSpace (nd_ID (mk s)) = sp_StepID s).
  { intros s Hs. unfold mk, projectNode. cbn [nd_ID]. rewrite normalized_id by auto. by apply Hn. }
  assert (Hids : (fun n => TrimSpace (nd_ID n)) <$> gd_Nodes inp = stepIDs (wd_Steps def)).
  { rewrite E, <-list_fmap_compose. apply list_fmap_ext. intros i s Hs%list_elem_of_lookup_2. by apply Hid. }
  assert (Hnd : NoDup ((fun n => TrimSpace (nd_ID n)) <$> gd_Nodes inp)) by (rewrite Hids; apply Hv).
  assert (Hperm : nodeIDs (sortedNodes (canonMap (gd_Nodes inp))) ≡ₚ stepIDs (wd_Steps def)).
  { unfold nodeIDs. rewrite (canonNodes_perm _ Hnd), <-list_fmap_compose, <-Hids. done. }
  apply topoOrder_ext; [done|]. intros x d Hx. rewrite Hperm in Hx.
  apply list_elem_of_fmap in Hx as (s & -> & Hs). rewrite depsOf_step by (done || apply Hv).
  assert (Hnode : canonNode (mk s) ∈ sortedNodes (canonMap (gd_Nodes inp))).
  { apply elem_of_canonNodes; [done|]. rewrite E. by do 2 apply list_elem_of_fmap_2. }
  rewrite <-(Hid s Hs). change (TrimSpace (nd_ID (mk s))) with (nd_ID (canonNode (mk s))).
  rewrite nodeDeps_node by (try done; by apply sortedNodes_NoDup, canonMap_keyed).
  by apply projected_deps, Hn.
Qed.

(** The planner and the execution graph agree: when a definition has a plan and
    its topology compiles as an execution graph, the order of the graph is the
    plan. *)
Theorem projected_graph_orders_like_plan `{RangeOrder} `{GraphCodec} enabled def order g :
  Plan enabled def = Ok order -> ProjectExecutionGraph enabled def = Ok g -> gc_Order g = order.
Proof.
  intros (su & d & E & Hv & ->)%Plan_iff. unfold ProjectExecutionGraph. rewrite E. cbn [snd].
  destruct (ValidateDefinition _); [|done].
  destruct (Compile _) as [c|e] eqn:Ec; [|done]. intros [= <-]. apply Compile_iff in Ec as [_ ->].
  destruct (compileDefinition_ok _ _ _ _ E) as [_ Hn].
  by apply projected_order.
Qed.

Lemma projected_graph_orders_like_plan_witness :
  match @ProjectExecutionGraph listing_order _ true demoComposed with
  | Ok g => gc_Order g = ["build"; "eu/push"; "eu/verify"; "report"]
  | Err _ => False
  end.
Proof.
  destruct (@ProjectExecutionGraph listing_order _ true demoComposed) as [g|e] eqn:E; [|vm_compute in E; discriminate].
  apply (projected_graph_orders_like_plan (H := listing_order) true demoComposed _ g); [vm_compute; reflexivity | exact E].
Defined.
