(* ===== verification/WorkflowContinuationProps.v ===== *)
(** * Workflow: continuations, the properties

    A sealed continuation is valid and can be loaded until it expires; a
    continuation is resumed by one request only, and the result that was committed
    for it never changes. *)
From Stdlib Require Import Ascii.
From S2P Require Import Prelude GoStrings GoNum WorkflowTypes WorkflowContinuation WorkflowDemo.

Local Open Scope bool_scope.
Local Open Scope string_scope.
Local Open Scope list_scope.
Local Open Scope Z_scope.

(** ** Digests *)

Definition is_hex (c : ascii) : bool :=
  let n := byte_of c in (((48 <=? n) && (n <=? 57)) || ((97 <=? n) && (n <=? 102)))%N.

(** [hex.EncodeToString] of a SHA-256 sum: 64 hexadecimal digits. *)
Class DigestLaws `{WorkflowCodec} : Prop := {
  digest_hex : forall x, length (bytes (digestHex x)) = 64%nat /\ Forall (fun c => is_hex c = true) (bytes (digestHex x))
}.

Lemma is_hex_ascii c : is_hex c = true -> ascii_nonspace c = true.
Proof. by destruct c as [[] [] [] [] [] [] [] []]. Qed.

Lemma digest_nonempty `{DigestLaws} x : TrimSpace (digestHex x) <> "".
Proof.
  destruct (digest_hex x) as [Hl HF]. rewrite TrimSpace_id.
  - intros E. by rewrite E in Hl.
  - apply ascii_trimmed. eapply Forall_impl; [exact HF|]. apply is_hex_ascii.
Qed.

(** ** Sealing *)

Lemma orElse_idemp a b : orElse (orElse a b) b = orElse a b.
Proof. unfold orElse. destruct (str_eqb_spec a "") as [->|E]; [by destruct (b =s? "")|]. by apply str_eqb_neq in E as ->. Qed.

Section seal.
Context `{WorkflowCodec}.

(** The envelope of a continuation is within the limit. *)
Definition fits (c : WorkflowContinuation) : Prop :=
  exists envelope, continuationJSON c = Some envelope /\ Z.of_nat (length (bytes envelope)) <= WorkflowContinuationMaxBytes.

Definition withDigest (c : WorkflowContinuation) (d : string) : WorkflowContinuation :=
  c <| wf_Ref ::= fun r => r <| wr_Digest := d |> |>.

Lemma validateRef_digest r d :
  validateRef r = Ok tt -> TrimSpace d <> "" -> validateRef (r <| wr_Digest := d |>) = Ok tt.
Proof.
  intros Hr Hd. unfold validateRef in *. rewrite !require_ok, !andb_true_iff in *. cbn.
  apply str_eqb_neq in Hd. rewrite Hd. cbn. unfold refValues in *. cbn in *. tauto.
Qed.

(** Only the envelope depends on the digest. *)
Lemma validateShape_digest c d :
  validateShape c = Ok tt -> TrimSpace d <> "" -> fits (withDigest c d) -> validateShape (withDigest c d) = Ok tt.
Proof.
  intros Hs Hd (envelope & He & Hsz). unfold validateShape in *.
  rewrite !require_ok, bind_unit_ok, require_ok in *. rewrite He.
  destruct Hs as (A1 & A2 & A3 & A4 & A5 & A6 & A7 & A8 & A9 & _).
  split_and!; [exact A1 | exact A2 | exact A3 | exact A4 | exact A5 | exact A6 | exact A7 | exact A8 | | | done].
  - exact (validateRef_digest (completedRef c) d A9 Hd).
  - by apply Z.leb_le.
Qed.

Lemma seal_validateContinuation `{!DigestLaws} c0 c :
  SealWorkflowContinuation c0 = Ok c -> fits c -> validateContinuation c = Ok tt.
Proof.
  unfold SealWorkflowContinuation. cbn zeta. intros ([] & Hs & [= <-])%result_bind_ok Hf.
  set (c1 := c0 <| wf_Ref := sealedRef c0 |>) in *. fold (withDigest c1 (workflowDigest c1)) in *.
  unfold validateContinuation. rewrite bind_unit_ok, require_ok. split.
  - apply validateShape_digest; [done | apply digest_nonempty | done].
  - split; [|done]. by apply str_eqb_eq.
Qed.

(** Setting a field to what it is. *)
Ltac set_same r := destruct r; unfold set_field; cbn in *; congruence.

Lemma set_wr_GraphID f r : f (wr_GraphID r) = wr_GraphID r -> r <| wr_GraphID ::= f |> = r.
Proof. intros E. set_same r. Qed.

Lemma set_wr_GraphVersion f r : f (wr_GraphVersion r) = wr_GraphVersion r -> r <| wr_GraphVersion ::= f |> = r.
Proof. intros E. set_same r. Qed.

Lemma set_wr_RunID f r : f (wr_RunID r) = wr_RunID r -> r <| wr_RunID ::= f |> = r.
Proof. intros E. set_same r. Qed.

Lemma set_wr_SessionID f r : f (wr_SessionID r) = wr_SessionID r -> r <| wr_SessionID ::= f |> = r.
Proof. intros E. set_same r. Qed.

Lemma set_wr_PauseReason f r : f (wr_PauseReason r) = wr_PauseReason r -> r <| wr_PauseReason ::= f |> = r.
Proof. intros E. set_same r. Qed.

Lemma set_wr_CreatedAt f r : f (wr_CreatedAt r) = wr_CreatedAt r -> r <| wr_CreatedAt ::= f |> = r.
Proof. intros E. set_same r. Qed.

Lemma set_wr_ExpiresAt f r : f (wr_ExpiresAt r) = wr_ExpiresAt r -> r <| wr_ExpiresAt ::= f |> = r.
Proof. intros E. set_same r. Qed.

(** A reference that repeats the continuation is complete. *)
Lemma completedRef_id c :
  let r := wf_Ref c in
  orElse (wr_GraphID r) (wf_GraphID c) = wr_GraphID r -> orElse (wr_GraphVersion r) (wf_GraphVersion c) = wr_GraphVersion r ->
  orElse (wr_RunID r) (wf_RunID c) = wr_RunID r -> orElse (wr_SessionID r) (wf_SessionID c) = wr_SessionID r ->
  orElse (wr_PauseReason r) (wf_PauseReason c) = wr_PauseReason r ->
  (if IsZero (wr_CreatedAt r) then wf_CreatedAt c else wr_CreatedAt r) = wr_CreatedAt r ->
  (if IsZero (wr_ExpiresAt r) then wf_ExpiresAt c else wr_ExpiresAt r) = wr_ExpiresAt r ->
  completedRef c = r.
Proof.
  cbn zeta. intros E1 E2 E3 E4 E5 E6 E7. unfold completedRef.
  rewrite set_wr_GraphID, set_wr_GraphVersion, set_wr_RunID, set_wr_SessionID, set_wr_PauseReason by done.
  by rewrite set_wr_CreatedAt, set_wr_ExpiresAt.
Qed.

Lemma or_time_idemp (t u : Time) : (if IsZero (if IsZero t then u else t) then u else if IsZero t then u else t) = if IsZero t then u else t.
Proof. destruct (IsZero t) eqn:E; rewrite ?E; by repeat case_match. Qed.

Lemma seal_completedRef c0 c : SealWorkflowContinuation c0 = Ok c -> completedRef c = wf_Ref c.
Proof.
  unfold SealWorkflowContinuation. cbn zeta. intros ([] & _ & [= <-])%result_bind_ok.
  apply completedRef_id; first [apply orElse_idemp | apply or_time_idemp].
Qed.

Lemma seal_validateRef `{!DigestLaws} c0 c :
  SealWorkflowContinuation c0 = Ok c -> fits c -> validateRef (wf_Ref c) = Ok tt.
Proof.
  intros Hs Hf. pose proof (seal_validateContinuation c0 c Hs Hf) as Hv. rewrite <-(seal_completedRef c0 c Hs).
  unfold validateContinuation in Hv. apply bind_unit_ok in Hv as [Hv _]. unfold validateShape in Hv.
  rewrite !require_ok, bind_unit_ok in Hv. tauto.
Qed.
End seal.

(** A sealed continuation round-trips through the store: unless its envelope exceeds
    the limit, saving it under a new id in the store of its owner succeeds, and
    until it expires the reference it carries loads exactly it. *)
Theorem sealed_continuation_roundtrip `{DigestLaws} c0 c s now :
  SealWorkflowContinuation c0 = Ok c -> fits c -> mw_namespace s <> "" ->
  wr_OwnerNamespace (wf_Ref c) = mw_namespace s -> mw_records s !! wr_CheckpointID (wf_Ref c) = None ->
  now < wf_ExpiresAt c ->
  exists s', memSave c s = (s', Ok tt) /\ memLoad now (wf_Ref c) s' = Ok c.
Proof.
  intros Hs Hf Hn Ho Hfresh Hnow. pose proof (seal_validateContinuation c0 c Hs Hf) as Hv.
  pose proof (seal_validateRef c0 c Hs Hf) as Hr. apply str_eqb_neq in Hn. unfold memSave.
  rewrite Hn, Hv, Ho, str_eqb_refl, Hfresh. cbn [negb]. eexists. split; [done|].
  unfold memLoad. cbn. rewrite Hn, Hr. cbn. rewrite Ho, str_eqb_refl, lookup_insert_eq. cbn.
  rewrite str_eqb_refl. unfold Before. apply Z.ltb_lt in Hnow as ->. by rewrite Hv.
Qed.

#[export] Instance demoDigestLaws : DigestLaws.
Proof. constructor. intros x. split; [reflexivity|]. repeat (constructor; [reflexivity|]). constructor. Defined.

Lemma sealed_continuation_roundtrip_witness :
  exists s', memSave demoContinuation (NewMemoryWorkflowContinuationStore "demo") = (s', Ok tt)
    /\ memLoad 2000 (wf_Ref demoContinuation) s' = Ok demoContinuation.
Proof.
  apply (sealed_continuation_roundtrip (demoContinuation <| wf_Ref := demoEmptyRef <| wr_OwnerNamespace := "demo" |> |>)).
  - vm_compute. reflexivity.
  - eexists. split; [reflexivity | vm_compute; discriminate].
  - vm_compute. discriminate.
  - vm_compute. reflexivity.
  - vm_compute. reflexivity.
  - vm_compute. reflexivity.
Defined.

(** ** Claims *)

Section claims.
Context `{WorkflowCodec}.
Implicit Types (s : MemoryWorkflowContinuationStore) (r : workflowRecord).

Inductive store_op : Type :=
| OpSave (c : WorkflowContinuation)
| OpClaimResume (now : Time) (req : WorkflowResumeRequest)
| OpMarkResumeRunning (claim : WorkflowResumeClaim)
| OpCommit (claim : WorkflowResumeClaim) (res : RunResult) (successor : option WorkflowContinuation).

Definition apply_op (op : store_op) s : MemoryWorkflowContinuationStore :=
  match op with
  | OpSave c => (memSave c s).1
  | OpClaimResume now req => (memClaimResume now req s).1
  | OpMarkResumeRunning claim => (memMarkResumeRunning claim s).1
  | OpCommit claim res successor => (memCommitResumeResultWithSuccessor claim res successor s).1
  end.

(** Pointers lead to claims, each from one record. *)
Record wf_store s : Prop := {
  ws_heap : forall id r p, mw_records s !! id = Some r -> wo_Claim r = Some p ->
              is_Some (mw_heap s !! p) /\ (p < mw_next s)%nat;
  ws_one : forall id1 id2 r1 r2 p, mw_records s !! id1 = Some r1 -> mw_records s !! id2 = Some r2 ->
             wo_Claim r1 = Some p -> wo_Claim r2 = Some p -> id1 = id2
}.

(** A continuation that a request claimed, with the result committed for it. *)
Definition claimed (id who : string) (res : option RunResult) s : Prop :=
  exists r p held, mw_records s !! id = Some r /\ wo_Claim r = Some p /\ mw_heap s !! p = Some held
    /\ wo_Identity r = who /\ (forall x, res = Some x -> wl_Result held = Some x).

(** A commit may store its successor under the id of another record, and forgets
    the claim of what was there. *)
Definition overwrites (id : string) (op : store_op) : Prop :=
  match op with
  | OpCommit claim _ (Some next) =>
      wr_CheckpointID (wf_Ref next) = id /\ wr_CheckpointID (rq_Ref (wl_Request claim)) <> id
  | _ => False
  end.

Inductive evolves (id : string) : relation MemoryWorkflowContinuationStore :=
| evolves_step op s : ~ overwrites id op -> evolves id s (apply_op op s).

(** *** What each operation changes *)

Lemma memSave_cases c s :
  (memSave c s).1 = s
  \/ (mw_records s !! wr_CheckpointID (wf_Ref c) = None
      /\ (memSave c s).1 = s <| mw_records ::= <[wr_CheckpointID (wf_Ref c) := mkWorkflowRecord c None "" None]> |>).
Proof. unfold memSave. repeat case_match; cbn; auto. Qed.

Lemma memClaimResume_cases now req s :
  (memClaimResume now req s).1 = s
  \/ exists r, let id := wr_CheckpointID (rq_Ref req) in
     mw_records s !! id = Some r /\ claimOf s r = None
     /\ exists claim, wl_Result claim = None /\
        (memClaimResume now req s).1
        = s <| mw_heap ::= <[mw_next s := claim]> |>
            <| mw_records ::= <[id := r <| wo_Claim := Some (mw_next s) |> <| wo_Identity := identity req |>]> |>
            <| mw_next ::= S |>.
Proof.
  unfold memClaimResume. repeat case_match; cbn; auto.
  right. eexists. split_and!; [done | done|]. eexists. split; [|done]. done.
Qed.

Lemma heldClaim_Some s claim r p held :
  heldClaim s claim = Some (r, p, held) ->
  mw_records s !! wr_CheckpointID (rq_Ref (wl_Request claim)) = Some r /\ wo_Claim r = Some p /\ mw_heap s !! p = Some held
  /\ wo_Identity r = identity (wl_Request claim) /\ wl_AttemptID held = wl_AttemptID claim.
Proof.
  unfold heldClaim. intros (r' & Hr & (p' & Hp & (h' & Hh & E)%bind_Some)%bind_Some)%bind_Some.
  destruct (_ && _) eqn:Eb; [|done]. apply andb_true_iff in Eb as [E1%str_eqb_eq E2%str_eqb_eq]. by simplify_eq.
Qed.

Lemma memMarkResumeRunning_cases claim s :
  (memMarkResumeRunning claim s).1 = s
  \/ exists r p held, heldClaim s claim = Some (r, p, held) /\
     (memMarkResumeRunning claim s).1 = s <| mw_heap ::= <[p := held <| wl_State := WorkflowResumeClaimRunning |>]> |>.
Proof. unfold memMarkResumeRunning. repeat case_match; cbn; eauto 10. Qed.

Definition completedClaim (held : WorkflowResumeClaim) (res : RunResult) : WorkflowResumeClaim :=
  held <| wl_Result := Some res |> <| wl_State := WorkflowResumeClaimCompleted |>.

Lemma memCommit_cases claim res successor s :
  let id := wr_CheckpointID (rq_Ref (wl_Request claim)) in
  (memCommitResumeResultWithSuccessor claim res successor s).1 = s
  \/ exists r p held, heldClaim s claim = Some (r, p, held) /\ wl_Result held = None /\
     (successor = None
      /\ (memCommitResumeResultWithSuccessor claim res successor s).1
         = s <| mw_heap ::= <[p := completedClaim held res]> |> <| mw_records ::= <[id := r]> |>
      \/ exists next, successor = Some next
      /\ (memCommitResumeResultWithSuccessor claim res successor s).1
         = s <| mw_records ::= <[wr_CheckpointID (wf_Ref next) := mkWorkflowRecord next None "" None]> |>
             <| mw_heap ::= <[p := completedClaim held res]> |>
             <| mw_records ::= <[id := r <| wo_Successor := Some next |>]> |>).
Proof.
  cbn zeta. unfold memCommitResumeResultWithSuccessor, commitClaim. repeat case_match; cbn; auto.
  all: right; do 3 eexists; (split; [done|]); (split; [done|]);
    first [left; by split | right; eexists; by split].
Qed.

(** *** Invariants *)

Lemma wf_new namespace : wf_store (NewMemoryWorkflowContinuationStore namespace).
Proof. split; cbn; intros *; by rewrite ?lookup_empty. Qed.

(** Records may change as long as no claim gets into another record. *)
Lemma wf_records s f :
  wf_store s ->
  (forall j r p, f (mw_records s) !! j = Some r -> wo_Claim r = Some p ->
     exists old, mw_records s !! j = Some old /\ wo_Claim old = Some p) ->
  wf_store (s <| mw_records ::= f |>).
Proof.
  intros [Wh Wo] Hold. split; cbn.
  - intros j rj p Hj Hp. destruct (Hold j rj p Hj Hp) as (old & Ho & Hp'). by eapply Wh.
  - intros j1 j2 r1 r2 p H1 H2 P1 P2. destruct (Hold _ _ _ H1 P1) as (o1 & ? & ?). destruct (Hold _ _ _ H2 P2) as (o2 & ? & ?).
    by eapply Wo.
Qed.

Lemma wf_write s p c : is_Some (mw_heap s !! p) -> wf_store s -> wf_store (s <| mw_heap ::= <[p := c]> |>).
Proof.
  intros Hp [Wh Wo]. split; cbn; [|exact Wo]. intros id r q Hr Hq. destruct (Wh id r q Hr Hq) as [Hh Hn]. split; [|done].
  destruct (decide (p = q)) as [->|Hne]; [rewrite lookup_insert_eq; eauto | by rewrite lookup_insert_ne].
Qed.

Lemma wf_claim s id r c who :
  wf_store s -> mw_records s !! id = Some r ->
  wf_store (s <| mw_heap ::= <[mw_next s := c]> |>
              <| mw_records ::= <[id := r <| wo_Claim := Some (mw_next s) |> <| wo_Identity := who |>]> |>
              <| mw_next ::= S |>).
Proof.
  intros [Wh Wo] Hr. split; cbn.
  - intros j rj p [[<- <-]|[Hne Hj]]%lookup_insert_Some Hp.
    + cbn in Hp. injection Hp as <-. split; [rewrite lookup_insert_eq; eauto | lia].
    + destruct (Wh j rj p Hj Hp) as [Hh Hn]. split; [rewrite lookup_insert_ne by lia; done | lia].
  - intros j1 j2 r1 r2 p [[<- <-]|[N1 H1]]%lookup_insert_Some [[<- <-]|[N2 H2]]%lookup_insert_Some P1 P2; try done.
    + cbn in P1. injection P1 as <-. destruct (Wh _ _ _ H2 P2). lia.
    + cbn in P2. injection P2 as <-. destruct (Wh _ _ _ H1 P1). lia.
    + by eapply Wo.
Qed.

(** The commit, with its two writes to the records as one. *)
Lemma commit_records s p c nid new id r :
  s <| mw_records ::= <[nid := new]> |> <| mw_heap ::= <[p := c]> |> <| mw_records ::= <[id := r]> |>
  = s <| mw_heap ::= <[p := c]> |> <| mw_records ::= fun m => <[id := r]> (<[nid := new]> m) |>.
Proof. done. Qed.

Lemma apply_op_wf op s : wf_store s -> wf_store (apply_op op s).
Proof.
  intros Hw. destruct op as [c|now req|claim|claim res successor]; cbn [apply_op].
  - destruct (memSave_cases c s) as [->|[_ ->]]; [done|]. apply wf_records; [done|].
    intros j r p [[<- <-]|[_ Hj]]%lookup_insert_Some Hp; [done | eauto].
  - destruct (memClaimResume_cases now req s) as [->|(r & Hr & _ & c & _ & ->)]; [done|]. by apply wf_claim.
  - destruct (memMarkResumeRunning_cases claim s) as [->|(r & p & held & Hc & ->)]; [done|].
    apply wf_write; [|done]. apply heldClaim_Some in Hc as (_ & _ & Hh & _). eauto.
  - destruct (memCommit_cases claim res successor s) as [->|(r & p & held & Hc & _ & Hs)]; [done|].
    apply heldClaim_Some in Hc as (Hr & Hp & Hh & _).
    destruct Hs as [[_ ->]|(next & _ & ->)]; [|rewrite commit_records]; (apply wf_records; [apply wf_write; eauto|]);
      cbn; intros j rj q [[<- <-]|[_ Hj]]%lookup_insert_Some Hq; eauto.
    apply lookup_insert_Some in Hj as [[<- <-]|[_ Hj]]; [done | eauto].
Qed.

(** A claim survives, with its result, everything but being overwritten. *)
Lemma apply_op_claimed op s id who res :
  wf_store s -> ~ overwrites id op -> claimed id who res s -> claimed id who res (apply_op op s).
Proof.
  intros Hw Hov (r & p & held & Hr & Hp & Hh & Hi & Hres).
  destruct op as [c|now req|claim|claim cres successor]; cbn [apply_op].
  - destruct (memSave_cases c s) as [->|[Hn ->]]; [by exists r, p, held|]. exists r, p, held. split; [|done]. cbn.
    rewrite lookup_insert_ne; [done | congruence].
  - destruct (memClaimResume_cases now req s) as [->|(r' & Hr' & Hn & c & _ & ->)]; [by exists r, p, held|].
    destruct (ws_heap _ Hw id r p Hr Hp) as [_ Hlt]. exists r, p, held. cbn. split_and!; try done.
    + rewrite lookup_insert_ne; [done|]. intros E. rewrite E in Hr'. assert (r' = r) as -> by congruence.
      unfold claimOf in Hn. rewrite Hp in Hn. cbn in Hn. congruence.
    + rewrite lookup_insert_ne by lia. done.
  - destruct (memMarkResumeRunning_cases claim s) as [->|(r' & p' & held' & Hc & ->)]; [by exists r, p, held|].
    apply heldClaim_Some in Hc as (_ & _ & Hh' & _). destruct (decide (p' = p)) as [->|Hne].
    + assert (held' = held) as -> by congruence. exists r, p. eexists. cbn. rewrite lookup_insert_eq. by split_and!.
    + exists r, p, held. cbn. by rewrite lookup_insert_ne.
  - destruct (memCommit_cases claim cres successor s) as [->|(r' & p' & held' & Hc & Hnone & Hs)]; [by exists r, p, held|].
    apply heldClaim_Some in Hc as (Hr' & Hp' & Hh' & _).
    assert (Hheap : exists held2, <[p' := completedClaim held' cres]> (mw_heap s) !! p = Some held2
      /\ forall x, res = Some x -> wl_Result held2 = Some x).
    { destruct (decide (p' = p)) as [->|Hne]; [|exists held; by rewrite lookup_insert_ne].
      rewrite lookup_insert_eq. eexists. split; [done|]. intros x Hx. apply Hres in Hx. congruence. }
    destruct Hheap as (held2 & Hh2 & Hres2).
    assert (Hrec : forall (m : gmap string workflowRecord) r2,
      (wr_CheckpointID (rq_Ref (wl_Request claim)) <> id -> m !! id = Some r) ->
      (r' = r -> wo_Claim r2 = wo_Claim r /\ wo_Identity r2 = wo_Identity r) ->
      exists r3, <[wr_CheckpointID (rq_Ref (wl_Request claim)) := r2]> m !! id = Some r3
        /\ wo_Claim r3 = Some p /\ wo_Identity r3 = who).
    { intros m r2 Hm Hr2. destruct (decide (wr_CheckpointID (rq_Ref (wl_Request claim)) = id)) as [E|E].
      - rewrite E in *. rewrite lookup_insert_eq. exists r2. assert (r' = r) as Er by congruence.
        destruct (Hr2 Er) as [-> ->]. done.
      - rewrite lookup_insert_ne by done. eauto. }
    destruct Hs as [[_ ->]|(next & -> & ->)].
    + destruct (Hrec (mw_records s) r') as (r3 & ? & ? & ?); [done | by intros -> |]. by exists r3, p, held2.
    + destruct (Hrec (<[wr_CheckpointID (wf_Ref next) := mkWorkflowRecord next None "" None]> (mw_records s))
        (r' <| wo_Successor := Some next |>)) as (r3 & ? & ? & ?); [| by intros -> |].
      { intros E. rewrite lookup_insert_ne; [done|]. intros Eq. by apply Hov. }
      by exists r3, p, held2.
Qed.

Lemma evolves_claimed s s' id who res :
  rtc (evolves id) s s' -> wf_store s -> claimed id who res s -> wf_store s' /\ claimed id who res s'.
Proof.
  induction 1 as [|s1 s2 s3 Hstep _ IH]; [done|]. intros Hw Hc. destruct Hstep as [op s Hov].
  apply IH; [by apply apply_op_wf | by apply apply_op_claimed].
Qed.

Lemma calls_evolve ops s id :
  Forall (fun op => ~ overwrites id op) ops -> rtc (evolves id) s (foldl (fun s op => apply_op op s) s ops).
Proof.
  intros Ho. revert s. induction Ho as [|op ops Hop _ IH]; intros s; cbn; [apply rtc_refl|].
  eapply rtc_l; [by constructor|apply IH].
Qed.

(** A claim that was new is held from then on. *)
Lemma fresh_claim now req s s1 c :
  wf_store s -> memClaimResume now req s = (s1, (Some c, None)) -> wl_Duplicate c = false ->
  wf_store s1 /\ claimed (wr_CheckpointID (rq_Ref req)) (identity req) None s1.
Proof.
  intros Hw E Hd. split; [pose proof (apply_op_wf (OpClaimResume now req) s Hw) as Hw'; cbn in Hw'; by rewrite E in Hw'|].
  unfold memClaimResume in E. repeat case_match; simplify_eq; try done.
  eexists _, _, _. cbn. rewrite !lookup_insert_eq. by split_and!.
Qed.

(** Claiming what is held changes nothing and is never new. *)
Lemma claimed_again now req s who res s' c e :
  claimed (wr_CheckpointID (rq_Ref req)) who res s -> memClaimResume now req s = (s', (c, e)) ->
  s' = s /\ (e = None -> who = identity req /\ exists c', c = Some c' /\ wl_Duplicate c' = true
                        /\ is_Some (wl_Result c') /\ forall x, res = Some x -> wl_Result c' = Some x).
Proof.
  intros (r & p & held & Hr & Hp & Hh & Hi & Hres). unfold memClaimResume, claimOf. rewrite Hr, Hp. cbn. rewrite Hh, Hi.
  destruct (negb (who =s? identity req)) eqn:Ew;
    [repeat case_match; intros; simplify_eq; (split; [done|]); done|].
  apply negb_false_iff, str_eqb_eq in Ew.
  repeat case_match; intros; simplify_eq; (split; [done|]); try done.
  intros _. split; [done|]. eexists. split; [done|]. cbn. split_and!; [done | eauto | intros x Hx; etransitivity; [eassumption | by apply Hres]].
Qed.

(** A commit that stored its result. *)
Lemma commit_claimed claim res successor s s1 c :
  memCommitResumeResultWithSuccessor claim res successor s = (s1, (Some c, None)) -> wl_Result c = Some res ->
  claimed (wr_CheckpointID (rq_Ref (wl_Request claim))) (identity (wl_Request claim)) (Some res) s1.
Proof.
  unfold memCommitResumeResultWithSuccessor, commitClaim. intros E Hres.
  destruct (heldClaim s claim) as [[[r p] held]|] eqn:Eh; [|done]. apply heldClaim_Some in Eh as (Hrec & Hp & Hh & Hi & _).
  destruct (wl_Result held) as [old|] eqn:Eo.
  - destruct (sameWorkflowRunResult old res); [|done]. injection E as <- <-.
    exists r, p, held. split_and!; try done. intros x [= <-]. congruence.
  - repeat case_match; simplify_eq; eexists _, _, _; cbn; by rewrite !lookup_insert_eq.
Qed.

(** A new claim that was marked as running is the one the store holds. *)
Lemma fresh_running now req s s1 c s2 running :
  memClaimResume now req s = (s1, (Some c, None)) -> wl_Duplicate c = false ->
  memMarkResumeRunning c s1 = (s2, (Some running, None)) ->
  wl_Request running = req /\ wl_Result running = None /\ exists r p, heldClaim s2 running = Some (r, p, running).
Proof.
  intros E Hd Em. unfold memClaimResume in E. repeat case_match; simplify_eq; try done.
  unfold memMarkResumeRunning, heldClaim in Em. cbn in Em. rewrite !lookup_insert_eq in Em. cbn in Em.
  rewrite !lookup_insert_eq in Em. cbn in Em. rewrite !str_eqb_refl in Em. cbn in Em.
  destruct (mw_namespace s =s? ""); [done|]. injection Em as <- <-. cbn. split_and!; [done | done|].
  eexists _, _. unfold heldClaim. cbn. rewrite !lookup_insert_eq. cbn. rewrite !lookup_insert_eq. cbn.
  by rewrite !str_eqb_refl.
Qed.

(** A commit of what the store holds without a result stores the result. *)
Lemma commit_stores claim res successor s s1 c r p held :
  heldClaim s claim = Some (r, p, held) -> wl_Result held = None ->
  memCommitResumeResultWithSuccessor claim res successor s = (s1, (Some c, None)) -> wl_Result c = Some res.
Proof.
  intros Hh Hn. unfold memCommitResumeResultWithSuccessor, commitClaim. rewrite Hh, Hn.
  repeat case_match; intros; by simplify_eq.
Qed.
End claims.

(** A continuation is resumed by one request: after a claim that was new, and whatever
    saves, claims, marks and commits follow that do not overwrite its record, no later claim of the continuation is
    new; it fails, or it is the same request and gets the committed result. *)
Theorem continuation_claimed_once `{WorkflowCodec} s now req s1 c s2 now2 req2 s3 c2 e2 :
  wf_store s -> memClaimResume now req s = (s1, (Some c, None)) -> wl_Duplicate c = false ->
  rtc (evolves (wr_CheckpointID (rq_Ref req))) s1 s2 ->
  wr_CheckpointID (rq_Ref req2) = wr_CheckpointID (rq_Ref req) ->
  memClaimResume now2 req2 s2 = (s3, (c2, e2)) ->
  s3 = s2 /\ (is_Some e2 \/ identity req2 = identity req /\ exists c', c2 = Some c' /\ wl_Duplicate c' = true /\ is_Some (wl_Result c')).
Proof.
  intros Hw E1 Hd Hr Hid E2. destruct (fresh_claim _ _ _ _ _ Hw E1 Hd) as [Hw1 Hc1].
  destruct (evolves_claimed _ _ _ _ _ Hr Hw1 Hc1) as [Hw2 Hc2]. rewrite <-Hid in Hc2.
  destruct (claimed_again _ _ _ _ _ _ _ _ Hc2 E2) as [-> Hagain]. split; [done|].
  destruct e2 as [e|]; [left; eauto|]. right. destruct (Hagain eq_refl) as (Ei & c' & -> & Hdup & Hres & _). eauto 10.
Qed.

(** A committed result is final: once a commit stored a result for a claim, every
    later claim of the same request that succeeds returns that result. *)
Theorem committed_result_is_final `{WorkflowCodec} s claim res s1 c1 s2 now req s3 c2 :
  wf_store s -> memCommitResumeResult claim res s = (s1, (Some c1, None)) -> wl_Result c1 = Some res ->
  rtc (evolves (wr_CheckpointID (rq_Ref req))) s1 s2 ->
  wr_CheckpointID (rq_Ref req) = wr_CheckpointID (rq_Ref (wl_Request claim)) ->
  memClaimResume now req s2 = (s3, (c2, None)) ->
  exists c', c2 = Some c' /\ wl_Duplicate c' = true /\ wl_Result c' = Some res.
Proof.
  intros Hw E1 Hres Hr Hid E2.
  assert (Hw1 : wf_store s1).
  { pose proof (apply_op_wf (OpCommit claim res None) s Hw) as Hw1. cbn in Hw1. unfold memCommitResumeResult in E1. by rewrite E1 in Hw1. }
  pose proof (commit_claimed _ _ _ _ _ _ E1 Hres) as Hc1. rewrite <-Hid in Hc1.
  destruct (evolves_claimed _ _ _ _ _ Hr Hw1 Hc1) as [Hw2 Hc2].
  destruct (claimed_again _ _ _ _ _ _ _ _ Hc2 E2) as [_ Hagain].
  destruct (Hagain eq_refl) as (_ & c' & -> & Hdup & _ & Hx). eauto.
Qed.

(** ** The example *)

Lemma demo_wf : wf_store demoPausedStore.
Proof.
  replace demoPausedStore with (apply_op (OpSave demoContinuation) (NewMemoryWorkflowContinuationStore "demo"));
    [apply apply_op_wf, wf_new | vm_compute; reflexivity].
Qed.

(** The second claim, under another key, is a conflict. *)
Lemma continuation_claimed_once_witness :
  let other := mkWorkflowResumeRequest (rq_Ref demoResumeRequest) (rq_GraphDigest demoResumeRequest)
                 (rq_Generation demoResumeRequest) "other" "" "" "" "" "" in
  (memClaimResume 3000 other demoClaimed.1).1 = demoClaimed.1.
Proof.
  cbn zeta. destruct (memClaimResume 3000 _ demoClaimed.1) as [s3 [c2 e2]] eqn:E2.
  refine (proj1 (continuation_claimed_once demoPausedStore 2000 demoResumeRequest demoClaimed.1 demoClaim demoClaimed.1
    3000 _ s3 c2 e2 demo_wf _ _ (rtc_refl _ _) _ E2)); vm_compute; reflexivity.
Defined.

Lemma committed_result_is_final_witness :
  exists c, (memClaimResume 3000 demoResumeRequest demoCommitted.1).2.1 = Some c /\ wl_Result c = Some demoResult.
Proof.
  destruct (memClaimResume 3000 demoResumeRequest demoCommitted.1) as [s3 [c2 [e|]]] eqn:E2; [vm_compute in E2; discriminate|].
  destruct (committed_result_is_final demoClaimed.1 demoClaim demoResult demoCommitted.1 demoDone demoCommitted.1 3000
    demoResumeRequest s3 c2) as (c & -> & _ & Hc).
  - pose proof (apply_op_wf (OpClaimResume 2000 demoResumeRequest) demoPausedStore demo_wf) as W.
    cbn [apply_op] in W. unfold demoClaimed. exact W.
  - vm_compute. reflexivity.
  - vm_compute. reflexivity.
  - apply rtc_refl.
  - vm_compute. reflexivity.
  - exact E2.
  - exists c. split; [reflexivity | exact Hc].
Defined.
