(* ===== verification/WorkflowEngineInv.v ===== *)
(** * Workflow: execution, the invariants

    The work on one step changes the record of that step only; between two steps
    every handled step has an end and the others are pending; a round that finds a
    ready step handles it, so that the rounds end. *)
From S2P Require Import Prelude GoStrings GoNum TopoSort CoreTypes WorkflowTypes WorkflowCompose.
From S2P Require Import ExecutionGraph WorkflowComposeProps WorkflowPlan WorkflowPlanProps.
From S2P Require Import WorkflowContinuation WorkflowEngine.

Local Open Scope bool_scope.
Local Open Scope string_scope.
Local Open Scope list_scope.
Local Open Scope Z_scope.

(** ** Calls *)

Definition execution (c : Call) : option (string * Z) :=
  match c with
  | CallExecute _ s a _ => Some (sp_StepID s, a)
  | _ => None
  end.

(** The executions among the calls: the step and the number of the attempt. *)
Definition executions (h : history) : list (string * Z) := omap execution h.

Definition is_timeline (c : Call) : bool := match c with CallTimeline _ => true | _ => false end.

Definition timelines (h : history) : Z := countIf is_timeline h.

(** The timeline events carry the numbers 1, 2, ... in the width of the
    machine, and the counter is the number of the last one. *)
Fixpoint numbered (h : history) : Prop :=
  match h with
  | [] => True
  | c :: h =>
      numbered h /\
      match c with
      | CallTimeline e => ev_Payload e !! "sequence" = Some (AnyInt (wrap_i64 (timelines h + 1)))
      | _ => True
      end
  end.

Definition seq_ok {CP CS} (st : RunState CP CS) : Prop :=
  numbered (rs_history st) /\ rs_seq st = wrap_i64 (timelines (rs_history st)).

(** The calls are for one step, its attempts from [lo] on and below [hi]. *)
Definition call_of (step : Step) (lo hi : Z) (c : Call) : Prop :=
  match c with
  | CallExecute _ s a _ => s = step /\ lo <= a < hi
  | _ => True
  end.

(** The identity of the records, which nothing changes. *)
Definition identities (res : results_t) : gmap string (string * string) :=
  (fun r => (sr_StepID r, sr_TaskID r)) <$> res.

Definition keeps_identity (f : StepResult -> StepResult) : Prop :=
  forall r, sr_StepID (f r) = sr_StepID r /\ sr_TaskID (f r) = sr_TaskID r.

Lemma identities_alter f id res : keeps_identity f -> identities (alter f id res) = identities res.
Proof.
  intros Hf. apply map_eq. intros j. unfold identities. rewrite !lookup_fmap.
  destruct (decide (j = id)) as [->|Hne]; [|by rewrite lookup_alter_ne].
  rewrite lookup_alter_eq. destruct (res !! id) as [r|]; [|done]. cbn. by destruct (Hf r) as [-> ->].
Qed.

Lemma identities_lookup res res' id :
  identities res' = identities res ->
  match res !! id, res' !! id with
  | Some r, Some r' => sr_StepID r' = sr_StepID r /\ sr_TaskID r' = sr_TaskID r
  | None, None => True
  | _, _ => False
  end.
Proof.
  intros E. apply (f_equal (fun m : gmap string (string * string) => m !! id)) in E. unfold identities in E.
  rewrite !lookup_fmap in E.
  destruct (res !! id), (res' !! id); cbn in E; try done. injection E as E1 E2. done.
Qed.

(** What a part of the work on one step changes; a run that resumes a continuation
    ([src]) leaves the store of continuations alone. *)
Record frame {CP CS} (src : bool) (step : Step) (lo hi : Z) (st st' : RunState CP CS) : Prop := {
  fr_calls : exists calls, rs_history st' = calls ++ rs_history st
               /\ Forall (call_of step lo hi) calls /\ NoDup (executions calls);
  fr_order : rs_order st' = rs_order st;
  fr_others : forall x, x <> sp_StepID step -> rs_results st' !! x = rs_results st !! x;
  fr_own : identities (rs_results st') = identities (rs_results st);
  fr_conts : src = true -> rs_continuations st' = rs_continuations st;
  fr_seq : seq_ok st -> seq_ok st'
}.

Lemma executions_app h1 h2 : executions (h1 ++ h2) = executions h1 ++ executions h2.
Proof. apply omap_app. Qed.

Lemma call_of_weaken step lo hi lo' hi' c : lo' <= lo -> hi <= hi' -> call_of step lo hi c -> call_of step lo' hi' c.
Proof. intros H1 H2. destruct c; cbn; try done. intros [-> ?]. split; [done | lia]. Qed.

Lemma execution_range step lo hi calls x a :
  Forall (call_of step lo hi) calls -> (x, a) ∈ executions calls -> x = sp_StepID step /\ lo <= a < hi.
Proof.
  intros HF (c & Hc & E)%list_elem_of_omap. rewrite Forall_forall in HF. specialize (HF c Hc).
  destruct c; cbn in *; try done. destruct HF as [-> ?]. by simplify_eq.
Qed.

Lemma frame_refl {CP CS} src step k (st : RunState CP CS) : frame src step k k st st.
Proof. split; try done. exists []. split_and!; [done | constructor | apply NoDup_nil_2]. Qed.

Lemma frame_trans {CP CS} src step lo mid hi (st st1 st2 : RunState CP CS) :
  lo <= mid -> mid <= hi -> frame src step lo mid st st1 -> frame src step mid hi st1 st2 -> frame src step lo hi st st2.
Proof.
  intros H1 H2 [(c1 & E1 & F1 & N1) O1 R1 W1 C1 S1] [(c2 & E2 & F2 & N2) O2 R2 W2 C2 S2]. split.
  - exists (c2 ++ c1). rewrite E2, E1, app_assoc. split; [done|]. split.
    + apply Forall_app. split; eapply Forall_impl; [exact F2 | | exact F1 |];
        intros c; apply call_of_weaken; lia.
    + rewrite executions_app. apply NoDup_app. split_and!; [done | | done].
      intros [x a] Hx Hy. apply (execution_range _ _ _ _ _ _ F2) in Hx. apply (execution_range _ _ _ _ _ _ F1) in Hy. lia.
  - by rewrite O2.
  - intros x Hx. by rewrite R2, R1.
  - by rewrite W2.
  - intros Hs. by rewrite C2, C1.
  - auto.
Qed.

Lemma frame_widen {CP CS} src step lo mid hi (st st' : RunState CP CS) :
  mid <= hi -> frame src step lo mid st st' -> frame src step lo hi st st'.
Proof.
  intros Hle [(c & E & F & N) O R W C S]. split; try done. exists c. split_and!; [done| |done].
  eapply Forall_impl; [exact F|]. intros x. apply call_of_weaken; lia.
Qed.

(** ** Weakest preconditions of parts of a run *)

Section wp.
Context {CP CS : Type}.
Implicit Types st : RunState CP CS.

Definition wp {A} (m : RunState CP CS -> RunState CP CS * step_outcome A) (Q : A -> RunState CP CS -> Prop)
    (E : RunState CP CS -> Prop) (st : RunState CP CS) : Prop :=
  match m st with
  | (st', Continue a) => Q a st'
  | (st', Return _ _) => E st'
  end.

Lemma wp_then {A B} (m : RunState CP CS -> RunState CP CS * step_outcome A) (k : A -> _) (Q : B -> _ -> Prop) E st :
  wp m (fun a => wp (k a) Q E) E st -> wp (then_ m k) Q E st.
Proof. unfold wp, then_. destruct (m st) as [st' [a|r e]]; done. Qed.

Lemma wp_mono {A} (m : RunState CP CS -> RunState CP CS * step_outcome A) (Q Q' : A -> _ -> Prop) (E E' : _ -> Prop) st :
  wp m Q E st -> (forall a st', Q a st' -> Q' a st') -> (forall st', E st' -> E' st') -> wp m Q' E' st.
Proof. unfold wp. destruct (m st) as [st' [a|r e]]; auto. Qed.

Lemma wp_true {A} (m : RunState CP CS -> RunState CP CS * step_outcome A) st : wp m (fun _ _ => True) (fun _ => True) st.
Proof. unfold wp. by destruct (m st) as [st' [a|r e]]. Qed.

Lemma wp_ret {A} (a : A) (Q : A -> _ -> Prop) E st : Q a st -> wp (ret a) Q E st.
Proof. done. Qed.

Lemma wp_get (Q : RunState CP CS -> _ -> Prop) E st : Q st st -> wp get Q E st.
Proof. done. Qed.
End wp.

Lemma timelines_cons c h : timelines (c :: h) = timelines h + if is_timeline c then 1 else 0.
Proof.
  unfold timelines, countIf. rewrite filter_cons.
  destruct (is_timeline c); [rewrite decide_True by done | rewrite decide_False by done]; cbn [length]; lia.
Qed.

Lemma timelinePayload_seq workflowID m status reason seq :
  timelinePayload workflowID m status reason seq !! "sequence" = Some (AnyInt seq).
Proof. unfold timelinePayload. cbn -[lookup insert]. by simplify_map_eq. Qed.

(** Any step will do for a part that works on none. *)
Definition dummyStep : Step :=
  mkStep "" "" "" "" "" "" "" [] "" (mkRetry 0 0) 0 ∅ "" "" "" "" ∅ ∅.

#[local] Arguments timelinePayload _ _ _ _ _ : simpl never.
#[local] Arguments wrap_i64 _ : simpl never.
#[local] Arguments timelines _ : simpl never.

Section parts.
Context `{RangeOrder} `{WorkflowCodec} {CP CS : Type} `{CheckpointStore CP} `{ContinuationStore CS}.
Context (env : Environment) (defaultStepTimeout : Duration) (namespace : string).
Context (req : RunRequest) (def : WorkflowDefinition) (summary : graphCompileSummary).
Implicit Types (st : RunState CP CS) (step : Step).
Abbreviation src := (rn_sourceContinuation req).

(** An environment that never asks to stop: consumers and stores work, nothing
    pauses. *)
Record benign : Prop := {
  bn_events : forall f h e, env_onEvent env = Some f -> f h e = None;
  bn_pause : forall f h b, env_pause env = Some f -> f h b = None;
  bn_adapter : forall h w s a t p, env_execute env h w s a t <> Err (StepPaused p);
  bn_save : forall (s : CP) cp, TrimSpace (cp_WorkflowID cp) <> "" -> exists s', cpSave s cp = Ok s';
  bn_load : forall (s : CP) id, exists cp, cpLoad s id = Ok cp
}.

Hypothesis named : TrimSpace (wd_WorkflowID def) <> "".

(** Parts that call no adapter and leave the results alone. *)
Record quiet st st' : Prop := {
  qt_results : rs_results st' = rs_results st;
  qt_frame : forall step k, frame src step k k st st'
}.

Lemma quiet_refl st : quiet st st.
Proof. split; [done | intros; apply frame_refl]. Qed.

Lemma quiet_trans st1 st2 st3 : quiet st1 st2 -> quiet st2 st3 -> quiet st1 st3.
Proof.
  intros [R1 F1] [R2 F2]. split; [by rewrite R2|]. intros step k. by eapply frame_trans; [| | apply F1 | apply F2].
Qed.

(** Stopping means that something asked for it. *)
Abbreviation stopped st := (fun st' => quiet st st' /\ ~ benign).

(** One more call that is no execution. *)
Lemma quiet_call st c :
  execution c = None -> is_timeline c = false -> quiet st (st <| rs_history ::= cons c |>).
Proof.
  intros He Ht. split; [done|]. intros step k. split; try done.
  - exists [c]. split; [done|]. split; [by apply Forall_singleton; destruct c|].
    cbn. rewrite He. apply NoDup_nil_2.
  - intros [Hn Hs]. split; cbn.
    + split; [done|]. by destruct c.
    + rewrite timelines_cons, Ht, Z.add_0_r. done.
Qed.

Lemma emitTimeline_quiet m status reason st :
  wp (emitTimeline env req def m status reason) (fun _ => quiet st) (stopped st) st.
Proof.
  unfold wp, emitTimeline. destruct (env_timeline env); [|apply quiet_refl].
  split; [done|]. intros step k. split; try done.
  - eexists [_]. split; [done|]. split; [by apply Forall_singleton | apply NoDup_nil_2].
  - intros [Hn Hs]. split; cbn.
    + split; [done|]. rewrite timelinePayload_seq, Hs. do 2 f_equal. apply wrap_i64_add.
    + rewrite timelines_cons, Hs. cbn. apply wrap_i64_add.
Qed.

Lemma notify_quiet e st : wp (notify env e) (fun _ => quiet st) (stopped st) st.
Proof.
  unfold wp, notify. destruct (env_onEvent env) as [f|] eqn:Ef; [|apply quiet_refl].
  destruct (f (rs_history st) e) as [msg|] eqn:Em; [|by apply quiet_call].
  split; [by apply quiet_call|]. intros Hb. by rewrite (bn_events Hb f) in Em.
Qed.

Lemma store_quiet st s : quiet st (st <| rs_checkpoints := s |>).
Proof. split; [done|]. intros step k. split; try done. exists []. split_and!; [done | constructor | apply NoDup_nil_2]. Qed.

Lemma continuations_quiet st s : src = false -> quiet st (st <| rs_continuations := s |>).
Proof.
  intros Hs. split; [done|]. intros step k. split; try done; [|congruence].
  exists []. split_and!; [done | constructor | apply NoDup_nil_2].
Qed.

Lemma saveUnlessContinuation_quiet status resumeCount st :
  wp (saveUnlessContinuation env req def status resumeCount) (fun _ => quiet st) (stopped st) st.
Proof.
  unfold saveUnlessContinuation. destruct (rn_sourceContinuation req); [apply quiet_refl|].
  unfold wp, saveCheckpoint. destruct (rs_checkpoints st) as [s|]; [|apply quiet_refl].
  destruct (cpSave s _) as [s'|msg] eqn:E; [apply store_quiet|]. split; [apply quiet_refl|].
  intros Hb. edestruct (bn_save Hb s) as [s' Es]; [|rewrite Es in E; done]. done.
Qed.

Lemma beforeDispatch_quiet step attempt st :
  wp (beforeDispatch env req def step attempt) (fun p st' => quiet st st' /\ (benign -> p = None)) (stopped st) st.
Proof.
  unfold wp, beforeDispatch. destruct (env_pause env) as [f|] eqn:Ef; [|split; [apply quiet_refl | done]].
  destruct (f (rs_history st) _) as [[p|msg]|] eqn:Em.
  - split; [by apply quiet_call|]. intros Hb. by rewrite (bn_pause Hb f) in Em.
  - split; [by apply quiet_call|]. intros Hb. by rewrite (bn_pause Hb f) in Em.
  - split; [by apply quiet_call | done].
Qed.

(** Pausing always returns. *)
Lemma persistPausedResult_quiet id pause resumeCount st :
  wp (persistPausedResult env namespace req def summary id pause resumeCount) (fun _ _ => False)
    (fun st' => quiet st st') st.
Proof.
  unfold persistPausedResult. apply wp_then.
  assert (Hp : wp (persistContinuation env namespace req def id pause) (fun _ => quiet st) (quiet st) st).
  { unfold wp, persistContinuation. destruct (rs_continuations st) as [s|]; [|apply quiet_refl].
    destruct (_ =s? ""); [apply quiet_refl|]. destruct (stepContinuations _); [|apply quiet_refl].
    destruct (SealWorkflowContinuation _); [|apply quiet_refl].
    destruct (rn_sourceContinuation req) eqn:Es; [apply quiet_refl|].
    destruct (csSave _ s) as [s' [[]|e]]; by apply continuations_quiet. }
  eapply wp_mono; [exact Hp| |done]. intros paused st1 Hq1. apply wp_then, wp_get. cbn zeta.
  apply wp_then. eapply wp_mono; [apply notify_quiet| |].
  - intros [] st2 Hq2. exact (quiet_trans _ _ _ Hq1 Hq2).
  - intros st2 [Hq2 _]. exact (quiet_trans _ _ _ Hq1 Hq2).
Qed.

(** ** Updates of the own record *)

Lemma update_frame step k f st :
  keeps_identity f -> frame src step k k st (st <| rs_results ::= alter f (sp_StepID step) |>).
Proof.
  intros Hf. split; try done; cbn.
  - exists []. split_and!; [done | constructor | apply NoDup_nil_2].
  - intros x Hx. by rewrite lookup_alter_ne.
  - by apply identities_alter.
Qed.

(** The record of the step, after an update. *)
Lemma update_own (step : Step) f st r :
  rs_results st !! sp_StepID step = Some r ->
  rs_results (st <| rs_results ::= alter f (sp_StepID step) |>) !! sp_StepID step = Some (f r).
Proof. intros Hr. cbn. by rewrite lookup_alter_eq, Hr. Qed.

Lemma callAdapter_frame step attempt st :
  frame src step attempt (attempt + 1) st
    (st <| rs_history ::= cons (CallExecute (wd_WorkflowID def) step attempt (stepTimeout defaultStepTimeout step)) |>).
Proof.
  split; try done.
  - eexists [_]. split; [done|]. split; [by apply Forall_singleton; cbn; split; [|lia]|].
    cbn. apply NoDup_singleton.
  - intros [Hn Hs]. split; cbn; [done|]. by rewrite timelines_cons, Z.add_0_r.
Qed.

(** ** The attempts of a step *)

(** The step was tried, last in an attempt of the range, and has an end. *)
Definition finished step (lo hi : Z) st : Prop :=
  (exists r, rs_results st !! sp_StepID step = Some r
     /\ sr_Status r ∈ [StepStatusSucceeded; StepStatusFailed; StepStatusCanceled] /\ lo <= sr_Attempts r < hi)
  /\ exists a, (sp_StepID step, a) ∈ executions (rs_history st).

(** The record of the step is that of a try in an attempt. *)
Definition trying step (attempt : Z) st : Prop :=
  exists r, rs_results st !! sp_StepID step = Some r /\ sr_Attempts r = attempt.

Lemma quiet_trying step attempt st st' : quiet st st' -> trying step attempt st -> trying step attempt st'.
Proof. intros [E _]. unfold trying. by rewrite E. Qed.

Lemma update_trying step attempt f st :
  (forall r, sr_Attempts (f r) = sr_Attempts r) -> trying step attempt st ->
  trying step attempt (st <| rs_results ::= alter f (sp_StepID step) |>).
Proof.
  intros Hf (r & Hr & Ha). exists (f r). split; [by apply update_own | by rewrite Hf].
Qed.

(** The last update, then its event. *)
Lemma ended step lo hi attempt st st1 f status m reason :
  lo <= attempt -> attempt < hi -> frame src step lo hi st st1 -> trying step attempt st1 ->
  (exists a, (sp_StepID step, a) ∈ executions (rs_history st1)) ->
  keeps_identity f -> (forall r, sr_Attempts (f r) = sr_Attempts r) ->
  (forall r, sr_Status (f r) ∈ [StepStatusSucceeded; StepStatusFailed; StepStatusCanceled]) ->
  wp (then_ (update (sp_StepID step) f) (fun _ => emitTimeline env req def m status reason))
    (fun _ st' => frame src step lo hi st st' /\ finished step lo hi st')
    (fun st' => frame src step lo hi st st' /\ ~ benign) st1.
Proof.
  intros Hlo Hhi Hf (r & Hr & Ha) [k Hk] Hki Hfa Hfs. apply wp_then. cbn.
  set (st2 := st1 <| rs_results ::= alter f (sp_StepID step) |>).
  assert (F2 : frame src step lo hi st st2).
  { eapply frame_trans; [| | exact Hf | by apply (update_frame step hi f)]; lia. }
  eapply wp_mono; [apply emitTimeline_quiet| |].
  - intros [] st3 Hq. split.
    + eapply frame_trans; [| | exact F2 | apply (qt_frame _ _ Hq)]; lia.
    + split.
      * exists (f r). rewrite (qt_results _ _ Hq). split; [by apply update_own|]. split; [apply Hfs|]. rewrite Hfa. lia.
      * exists k. destruct (qt_frame _ _ Hq step hi) as [(calls & E & _) _ _ _ _ _]. rewrite E, executions_app.
        apply elem_of_app. right. exact Hk.
  - intros st3 [Hq Hb]. split; [|done]. eapply frame_trans; [| | exact F2 | apply (qt_frame _ _ Hq)]; lia.
Qed.

Lemma pauseAt_spec step attempt p resumeCount lo hi st st1 :
  lo <= hi -> frame src step lo hi st st1 -> ~ benign ->
  wp (pauseAt env namespace req def summary step attempt p resumeCount)
    (fun _ st' => False) (fun st' => frame src step lo hi st st' /\ ~ benign) st1.
Proof.
  intros Hlh Hf Hb. unfold pauseAt. apply wp_then. cbn.
  eapply wp_mono; [apply persistPausedResult_quiet | done|]. intros st2 Hq. split; [|done].
  eapply frame_trans; [| | exact Hf|]; [done | reflexivity|].
  eapply (frame_trans _ _ _ hi); cycle 3; [apply (qt_frame _ _ Hq) | lia | lia | by apply update_frame].
Qed.

(** A quiet part, then the rest. *)
Lemma wp_quiet_then {A B} step lo mid hi (m : RunState CP CS -> RunState CP CS * step_outcome A) (R : A -> Prop)
    (k : A -> RunState CP CS -> RunState CP CS * step_outcome B) Q st st1 :
  lo <= mid -> mid <= hi -> frame src step lo mid st st1 ->
  wp m (fun a st' => quiet st1 st' /\ R a) (stopped st1) st1 ->
  (forall a st2, R a -> quiet st1 st2 -> frame src step lo mid st st2 ->
     wp (k a) Q (fun st' => frame src step lo hi st st' /\ ~ benign) st2) ->
  wp (then_ m k) Q (fun st' => frame src step lo hi st st' /\ ~ benign) st1.
Proof.
  intros L1 L2 Hf Hm Hk. apply wp_then.
  assert (Hext : forall st2, quiet st1 st2 -> frame src step lo mid st st2).
  { intros st2 Hq. eapply frame_trans; [| | exact Hf | apply (qt_frame _ _ Hq)]; lia. }
  eapply wp_mono; [exact Hm| |].
  - intros a st2 [Hq HR]. apply Hk; auto.
  - intros st2 [Hq Hb]. split; [|done].
    eapply frame_widen; [exact L2 | by apply Hext].
Qed.

Lemma emitTimeline_quiet' m status reason st :
  wp (emitTimeline env req def m status reason) (fun _ st' => quiet st st' /\ True) (stopped st) st.
Proof. eapply wp_mono; [apply emitTimeline_quiet | auto | auto]. Qed.

(** A failed attempt of which some are left, up to the next one. *)
Lemma backoff_spec step attempt lo hi st st1 (k : RunState CP CS -> RunState CP CS * step_outcome unit) Q :
  lo <= attempt + 1 -> attempt + 1 <= hi -> frame src step lo (attempt + 1) st st1 -> trying step attempt st1 ->
  (forall st2, frame src step lo (attempt + 1) st st2 -> trying step attempt st2 ->
     wp k Q (fun st' => frame src step lo hi st st' /\ ~ benign) st2) ->
  wp (then_ (backoff env step) (fun _ => k)) Q (fun st' => frame src step lo hi st st' /\ ~ benign) st1.
Proof.
  intros L1 L2 Hf Ht Hk. apply wp_then. unfold backoff.
  destruct (0 <? re_Backoff (sp_Retry step)); [|by apply wp_ret, Hk].
  apply wp_then. unfold wp at 1, waitBackoff.
  set (st3 := st1 <| rs_history ::= cons (CallBackoff _) |>).
  assert (Hq3 : quiet st1 st3) by (by apply quiet_call).
  assert (F3 : frame src step lo (attempt + 1) st st3).
  { eapply frame_trans; [| | exact Hf | apply (qt_frame _ _ Hq3)]; lia. }
  pose proof (quiet_trying _ _ _ _ Hq3 Ht) as T3.
  destruct (env_backoff env _ _); [|by apply wp_ret, Hk].
  cbn. apply Hk; [|by apply update_trying].
  eapply frame_trans; [| | exact F3 | by apply update_frame]; lia.
Qed.

Lemma afterFailure_spec step m reason attempt hi err (last : bool) again st st4 :
  attempt < hi -> frame src step attempt (attempt + 1) st st4 -> trying step attempt st4 ->
  (exists a, (sp_StepID step, a) ∈ executions (rs_history st4)) ->
  (last = false -> forall st7, frame src step attempt (attempt + 1) st st7 -> trying step attempt st7 ->
     wp again (fun _ st' => frame src step attempt hi st st' /\ finished step attempt hi st')
       (fun st' => frame src step attempt hi st st' /\ ~ benign) st7) ->
  wp (afterFailure env req def step m reason err last again)
    (fun _ st' => frame src step attempt hi st st' /\ finished step attempt hi st')
    (fun st' => frame src step attempt hi st st' /\ ~ benign) st4.
Proof.
  intros Hhi F4 T4 X4 Hagain. unfold afterFailure. cbn zeta. apply wp_then. unfold wp at 1, update at 1, modify.
  set (st5 := st4 <| rs_results ::= alter _ (sp_StepID step) |>).
  assert (F5 : frame src step attempt (attempt + 1) st st5) by (eapply frame_trans; [| | exact F4 | by apply update_frame]; lia).
  assert (T5 : trying step attempt st5) by (by apply update_trying).
  assert (W5 : frame src step attempt hi st st5) by (eapply frame_widen; [|exact F5]; lia).
  apply wp_then. unfold wp at 1, ctxErr. destruct (env_ctxErr env _).
  { eapply ended; eauto; [lia | done | intros r; right; right; by left]. }
  destruct last; [eapply ended; eauto; [lia | done | intros r; right; by left]|].
  apply wp_then. unfold wp at 1, update at 1, modify.
  set (st6 := st5 <| rs_results ::= alter _ (sp_StepID step) |>).
  assert (F6 : frame src step attempt (attempt + 1) st st6) by (eapply frame_trans; [| | exact F5 | by apply update_frame]; lia).
  assert (T6 : trying step attempt st6) by (by apply update_trying).
  eapply wp_quiet_then; [| | exact F6 | apply emitTimeline_quiet'|]; [lia..|].
  intros [] st7 _ Hq7 F7. eapply backoff_spec; [| | exact F7 | by eapply quiet_trying|]; [lia..|].
  intros st8 F8 T8. by apply Hagain.
Qed.

Lemma attempts_spec step m reason resumeCount remaining attempt st :
  is_Some (rs_results st !! sp_StepID step) ->
  wp (attempts env defaultStepTimeout namespace req def summary step m reason resumeCount remaining attempt)
    (fun _ st' => frame src step attempt (attempt + Z.of_nat remaining) st st'
                  /\ (remaining <> 0%nat -> finished step attempt (attempt + Z.of_nat remaining) st'))
    (fun st' => frame src step attempt (attempt + Z.of_nat remaining) st st' /\ ~ benign) st.
Proof.
  revert attempt st. induction remaining as [|remaining IH]; intros attempt st [r0 Hr0].
  { cbn. rewrite Z.add_0_r. split; [apply frame_refl | done]. }
  set (hi := attempt + Z.of_nat (S remaining)).
  assert (Hhi : attempt < hi) by (unfold hi; lia).
  cbn [attempts]. apply wp_then.
  set (f1 := fun r : StepResult => r <| sr_Attempts := attempt |> <| sr_Status := StepStatusRunning |>).
  unfold wp at 1, update at 1, modify. set (st1 := st <| rs_results ::= alter f1 (sp_StepID step) |>).
  assert (F1 : frame src step attempt attempt st st1) by (by apply update_frame).
  assert (T1 : trying step attempt st1) by (exists (f1 r0); split; [by apply update_own | done]).
  clearbody st1. clear r0 Hr0 f1.
  eapply wp_quiet_then; [reflexivity | lia | exact F1 | apply emitTimeline_quiet'|].
  intros [] st2 _ Hq2 F2. pose proof (quiet_trying _ _ _ _ Hq2 T1) as T2.
  eapply (wp_quiet_then _ _ _ _ _ (fun p => benign -> p = None));
    [reflexivity | lia | exact F2 | apply beforeDispatch_quiet|].
  intros pause st3 Hpause Hq3 F3. pose proof (quiet_trying _ _ _ _ Hq3 T2) as T3.
  destruct pause as [p|].
  { eapply wp_mono; [eapply pauseAt_spec; [|exact F3|]; [lia | by intros Hb%Hpause] | done|].
    intros st4 [F4 Hb]. split; [|done]. by eapply frame_widen; [|exact F4]; lia. }
  apply wp_then. unfold wp at 1, callAdapter.
  set (st4 := st3 <| rs_history ::= cons (CallExecute _ _ _ _) |>).
  assert (F4 : frame src step attempt (attempt + 1) st st4).
  { eapply frame_trans; [| | exact F3 | apply callAdapter_frame]; lia. }
  assert (T4 : trying step attempt st4) by exact T3.
  assert (X4 : exists a, (sp_StepID step, a) ∈ executions (rs_history st4)) by (exists attempt; by left).
  assert (W4 : frame src step attempt hi st st4) by (eapply frame_widen; [|exact F4]; unfold hi; lia).
  assert (Hweak : forall m' st5, wp m' (fun _ : unit => fun st' => frame src step attempt hi st st' /\ finished step attempt hi st')
      (fun st' => frame src step attempt hi st st' /\ ~ benign) st5 ->
    wp m' (fun _ st' => frame src step attempt hi st st' /\ (S remaining <> 0%nat -> finished step attempt hi st'))
      (fun st' => frame src step attempt hi st st' /\ ~ benign) st5).
  { intros m' st5 Hm. eapply wp_mono; [exact Hm | | done]. intros [] ? [? ?]. by split. }
  destruct (env_execute env (rs_history st3) _ step attempt _) as [output|err] eqn:Ex; cbv beta iota.
  { apply Hweak. eapply ended; eauto; [lia | done | intros r; by left]. }
  assert (Hfail : wp (afterFailure env req def step m reason err (bool_decide (remaining = 0%nat))
      (attempts env defaultStepTimeout namespace req def summary step m reason resumeCount remaining (attempt + 1)))
    (fun _ st' => frame src step attempt hi st st' /\ finished step attempt hi st')
    (fun st' => frame src step attempt hi st st' /\ ~ benign) st4).
  { apply afterFailure_spec; try done. intros Hlast%bool_decide_eq_false st7 F7 (r7 & Hr7 & _).
    eapply wp_mono; [apply IH; by rewrite Hr7| |];
      replace (attempt + 1 + Z.of_nat remaining) with hi by (unfold hi; lia).
    - intros [] st8 [F8 Hfin]. split; [eapply frame_trans; [| | exact F7 | exact F8]; lia|].
      destruct (Hfin Hlast) as [(r8 & Hr8 & Hs8 & Ha8) X8]. split; [|done]. exists r8. split_and!; [done | done | lia | lia].
    - intros st8 [F8 Hb]. split; [eapply frame_trans; [| | exact F7 | exact F8]; lia | done]. }
  destruct err as [p|msg|msg]; [|by apply Hweak..].
  eapply wp_mono; [eapply pauseAt_spec; [|exact W4|]; [lia | intros Hb; by apply (bn_adapter Hb) in Ex] | done | done].
Qed.

(** ** The invariant of a run *)

Hypothesis valid : valid_def def.
Abbreviation steps := (wd_Steps def).

(** The steps that a run restored, with their records. *)
Context (restored : results_t).

(** A step starts once, not when it is restored, after its dependencies have
    started or were restored. *)
Definition ordered (order : list string) : Prop :=
  forall l1 x l2, order = l1 ++ x :: l2 ->
    x ∈ stepIDs steps /\ (x ∉ l1) /\ restored !! x = None
    /\ forall d, d ∈ depsOf steps x -> d ∈ l1 \/ is_Some (restored !! d).

Definition handled st (id : string) : Prop := id ∈ rs_order st \/ is_Some (restored !! id).

(** What holds at every point of the run, also when it returns early. *)
Record xinv st : Prop := {
  xi_dom : forall id, is_Some (rs_results st !! id) <-> id ∈ stepIDs steps;
  xi_order : ordered (rs_order st);
  xi_exec : forall w s a t, CallExecute w s a t ∈ rs_history st ->
              s ∈ steps /\ sp_StepID s ∈ rs_order st /\ 1 <= a <= maxAttempts s;
  xi_once : NoDup (executions (rs_history st));
  xi_restored : restored ⊆ rs_results st;
  xi_ids : forall id r, rs_results st !! id = Some r -> sr_StepID r = id;
  xi_seq : seq_ok st
}.

(** What holds between two steps: what was handled has an end, the rest is pending;
    a step was skipped exactly when its condition did not hold, and executed
    exactly when it did. *)
Record rinv st : Prop := {
  ri_x : xinv st;
  ri_state : forall id r, rs_results st !! id = Some r ->
               (handled st id -> isTerminal (sr_Status r) = true)
               /\ (~ handled st id -> sr_Status r = StepStatusPending);
  ri_skip : forall s r, s ∈ steps -> sp_StepID s ∈ rs_order st -> rs_results st !! sp_StepID s = Some r ->
              sr_Status r = StepStatusSkipped <-> conditionMatched s (rs_results st) = false;
  ri_ran : forall s, s ∈ steps -> sp_StepID s ∈ rs_order st ->
              conditionMatched s (rs_results st) = true <-> exists a, (sp_StepID s, a) ∈ executions (rs_history st)
}.

Lemma ordered_snoc order x :
  ordered order -> x ∈ stepIDs steps -> x ∉ order -> restored !! x = None ->
  (forall d, d ∈ depsOf steps x -> d ∈ order \/ is_Some (restored !! d)) -> ordered (order ++ [x]).
Proof.
  intros Ho Hx Hn Hr Hd l1 y l2 E. destruct l2 as [|z l2 _] using rev_ind.
  - apply app_inj_tail in E as [-> ->]. auto.
  - rewrite app_comm_cons, app_assoc in E. apply app_inj_tail in E as [-> ->]. by eapply Ho.
Qed.

(** A step that was handled has only handled dependencies, before it. *)
Lemma ordered_deps order x d :
  ordered order -> x ∈ order -> d ∈ depsOf steps x -> d ∈ order \/ is_Some (restored !! d).
Proof.
  intros Ho (l1 & l2 & ->)%list_elem_of_split Hd. destruct (Ho l1 x l2 eq_refl) as (_ & _ & _ & H').
  destruct (H' d Hd); [left; apply elem_of_app; by left | by right].
Qed.

Lemma conditionMatched_ext step res res' :
  (forall d, d ∈ sp_DependsOn step -> statusOf res d = statusOf res' d) ->
  conditionMatched step res = conditionMatched step res'.
Proof.
  intros He. unfold conditionMatched.
  destruct (_ =s? ConditionOnSuccess); [|destruct (_ =s? ConditionOnFailure); [|done]];
    induction (sp_DependsOn step) as [|d ds IH]; cbn; try done;
    rewrite He by (by left); rewrite IH by (intros; apply He; by right); done.
Qed.

(** The work on one step keeps what holds at every point. *)
Lemma frame_xinv step st st' :
  xinv st -> step ∈ steps -> sp_StepID step ∉ rs_order st -> restored !! sp_StepID step = None ->
  (forall d, d ∈ sp_DependsOn step -> handled st d) ->
  frame src step 1 (1 + maxAttempts step) (st <| rs_order ::= fun o => o ++ [sp_StepID step] |>) st' ->
  xinv st'.
Proof.
  intros [Xd Xo Xe Xn Xr Xi Xs] Hs Hno Hnr Hdeps [(calls & Ec & Fc & Nc) Fo Fr Fw _ Fs]. cbn in *.
  assert (Hid : sp_StepID step ∈ stepIDs steps) by (by apply list_elem_of_fmap_2).
  split.
  - intros id. destruct (decide (id = sp_StepID step)) as [->|Hne]; [|by rewrite Fr].
    split; [done|]. intros _. apply Xd in Hid as [r Hr].
    pose proof (identities_lookup _ _ (sp_StepID step) Fw) as Hi. rewrite Hr in Hi.
    destruct (rs_results st' !! sp_StepID step); [eauto | done].
  - rewrite Fo. apply ordered_snoc; try done. intros d. rewrite depsOf_step by (done || apply valid).
    apply Hdeps.
  - intros w s a t. rewrite Ec, Fo, elem_of_app. intros [Hc|Hc].
    + rewrite Forall_forall in Fc. destruct (Fc _ Hc) as [-> Ha]. split_and!; [done | set_solver | lia | lia].
    + destruct (Xe w s a t Hc) as (? & ? & ?). split_and!; [done | set_solver | lia | lia].
  - rewrite Ec, executions_app. apply NoDup_app. split_and!; [done | | done].
    intros [x a] Hx Hy. apply (execution_range _ _ _ _ _ _ Fc) in Hx as [-> _].
    apply list_elem_of_omap in Hy as (c & Hc & Ex). destruct c; cbn in Ex; try done. injection Ex as Ex _.
    apply Xe in Hc as (_ & Hc & _). by rewrite Ex in Hc.
  - apply map_subseteq_spec. intros id r Hr. rewrite Fr; [by eapply map_subseteq_spec in Xr|].
    intros ->. congruence.
  - intros id r' Hr'. pose proof (identities_lookup _ _ id Fw) as Hi. rewrite Hr' in Hi.
    destruct (rs_results st !! id) as [r|] eqn:Er; [|done]. destruct Hi as [-> _]. by apply Xi.
  - by apply Fs.
Qed.

(** Once the step has an end, the whole invariant holds again. *)
Lemma frame_rinv step st st' :
  rinv st -> step ∈ steps -> sp_StepID step ∉ rs_order st -> restored !! sp_StepID step = None ->
  (forall d, d ∈ sp_DependsOn step -> handled st d) ->
  frame src step 1 (1 + maxAttempts step) (st <| rs_order ::= fun o => o ++ [sp_StepID step] |>) st' ->
  (exists r, rs_results st' !! sp_StepID step = Some r /\ isTerminal (sr_Status r) = true
     /\ (sr_Status r = StepStatusSkipped <-> conditionMatched step (rs_results st) = false)) ->
  (conditionMatched step (rs_results st) = true <-> exists a, (sp_StepID step, a) ∈ executions (rs_history st')) ->
  rinv st'.
Proof.
  intros [X Xt Xk Xa] Hs Hno Hnr Hdeps Hf (r & Hr & Ht & Hskip) Hran.
  pose proof (frame_xinv step st st' X Hs Hno Hnr Hdeps Hf) as X'.
  pose proof (vd_unique _ valid) as Hnd.
  destruct Hf as [(calls & Ec & Fc & Nc) Fo Fr Fw _ Fs]. cbn in *.
  assert (Hsame : forall s, s ∈ steps -> sp_StepID s ∈ rs_order st' ->
    conditionMatched s (rs_results st') = conditionMatched s (rs_results st)).
  { intros s Hss Hso. apply conditionMatched_ext. intros d Hd. unfold statusOf. rewrite Fr; [done|]. intros ->.
    rewrite Fo in Hso. apply elem_of_app in Hso as [Hso|Hso%list_elem_of_singleton].
    - destruct (ordered_deps (rs_order st) (sp_StepID s) (sp_StepID step) (xi_order _ X) Hso) as [?|[? ?]]; [|done|congruence].
      by rewrite depsOf_step.
    - apply (NoDup_fmap_eq sp_StepID steps) in Hso as ->; [|done..].
      apply (vd_acyclic _ valid). by eapply cyclic_self. }
  split; [done|..].
  - intros id r' Hr'. unfold handled. rewrite Fo. destruct (decide (id = sp_StepID step)) as [->|Hne].
    + split; [by simplify_eq|]. intros []. left. set_solver.
    + rewrite Fr in Hr' by done. destruct (Xt id r' Hr') as [Y1 Y2]. unfold handled in *. split.
      * intros [Ho|Ho]; apply Y1; [left; set_solver | by right].
      * intros Ho. apply Y2. set_solver.
  - intros s r' Hss Hso Hr'. rewrite Hsame by done. rewrite Fo in Hso.
    apply elem_of_app in Hso as [Hso|Hso%list_elem_of_singleton].
    + apply Xk; try done. rewrite <-Fr; [done|]. by intros E; rewrite E in Hso.
    + apply (NoDup_fmap_eq sp_StepID steps) in Hso as ->; [|done..]. by simplify_eq.
  - intros s Hss Hso. rewrite Hsame by done. rewrite Fo in Hso.
    apply elem_of_app in Hso as [Hso|Hso%list_elem_of_singleton].
    + rewrite (Xa s Hss Hso). rewrite Ec. split; intros [a Ha]; exists a.
      * rewrite executions_app. apply elem_of_app. by right.
      * rewrite executions_app in Ha. apply elem_of_app in Ha as [Ha|Ha]; [|done].
        apply (execution_range _ _ _ _ _ _ Fc) in Ha as [E _]. by rewrite E in Hso.
    + by apply (NoDup_fmap_eq sp_StepID steps) in Hso as ->.
Qed.

(** ** Steps and rounds *)

Definition extends st st' : Prop :=
  (exists k, rs_order st' = rs_order st ++ k) /\ (src = true -> rs_continuations st' = rs_continuations st).

Lemma extends_refl st : extends st st.
Proof. split; [exists []; by rewrite app_nil_r | done]. Qed.

Lemma extends_handled st st' id : extends st st' -> handled st id -> handled st' id.
Proof. intros [[k E] _] [Ho|Ho]; [left; rewrite E; apply elem_of_app; by left | by right]. Qed.

Lemma quiet_rinv st st' : quiet st st' -> rinv st -> rinv st' /\ rs_order st' = rs_order st.
Proof.
  intros [Er Fq] [[Xd Xo Xe Xn Xr Xi Xs] Xt Xk Xa].
  destruct (Fq dummyStep 0)
    as [(calls & Ec & Fc & Nc) Fo _ _ _ Fs]. split; [|done].
  assert (Hno : forall w s a t, CallExecute w s a t ∈ calls -> False).
  { intros w s a t Hc. rewrite Forall_forall in Fc. specialize (Fc _ Hc). cbn in Fc. lia. }
  assert (He : executions calls = []).
  { destruct (executions calls) as [|[x a] l] eqn:E; [done|]. exfalso.
    assert (Hin : (x, a) ∈ executions calls) by (rewrite E; by left).
    apply (execution_range _ _ _ _ _ _ Fc) in Hin. lia. }
  assert (Hex : executions (rs_history st') = executions (rs_history st)) by (by rewrite Ec, executions_app, He).
  split; [split|..]; unfold handled in *; rewrite ?Er, ?Fo, ?Hex; try done.
  - intros w s a t. rewrite Ec, elem_of_app. intros [Hc|Hc]; [by destruct (Hno w s a t) | by eapply Xe].
  - by apply Fs.
Qed.

Lemma notifyStep_quiet id st :
  wp (notifyStep env id) (fun _ st' => quiet st st' /\ True) (stopped st) st.
Proof.
  unfold notifyStep. apply wp_then, wp_get. destruct (rs_results st !! id) as [r|]; [|split; [apply quiet_refl | done]].
  eapply wp_mono; [apply notify_quiet | by auto | done].
Qed.

Lemma maxAttempts_pos step : 1 <= maxAttempts step.
Proof. unfold maxAttempts. cbn zeta. destruct (Z.leb_spec (wrap_i64 (re_MaxAttempts (sp_Retry step) + 1)) 0); lia. Qed.

(** The work on a pending step, up to its end. *)
Lemma dispatch_spec resumeCount step m reason st :
  let st0 := st <| rs_order ::= fun o => o ++ [sp_StepID step] |> in
  is_Some (rs_results st !! sp_StepID step) -> (forall a, (sp_StepID step, a) ∉ executions (rs_history st)) ->
  wp (if negb (conditionMatched step (rs_results st)) then
        then_ (update (sp_StepID step) (setStatus StepStatusSkipped "condition.not_matched")) (fun _ =>
               emitTimeline env req def m StepStatusSkipped reason)
      else attempts env defaultStepTimeout namespace req def summary step m reason resumeCount
             (Z.to_nat (maxAttempts step)) 1)
    (fun _ st' => frame src step 1 (1 + maxAttempts step) st0 st'
       /\ (exists r, rs_results st' !! sp_StepID step = Some r /\ isTerminal (sr_Status r) = true
             /\ (sr_Status r = StepStatusSkipped <-> conditionMatched step (rs_results st) = false))
       /\ (conditionMatched step (rs_results st) = true <-> exists a, (sp_StepID step, a) ∈ executions (rs_history st')))
    (fun st' => frame src step 1 (1 + maxAttempts step) st0 st' /\ ~ benign) st0.
Proof.
  intros st0 [r Hr] Hnone. pose proof (maxAttempts_pos step) as Hmax.
  destruct (conditionMatched step (rs_results st)) eqn:Ec; cbn [negb].
  - eapply wp_mono; [apply attempts_spec; by exists r| |];
      replace (1 + Z.of_nat (Z.to_nat (maxAttempts step))) with (1 + maxAttempts step) by lia; [|done].
    intros [] st' [Hf Hfin]. destruct (Hfin ltac:(lia)) as [(r' & Hr' & Hs' & _) X']. split_and!; [done| |done].
    exists r'. split; [done|]. split; [|split; [intros E; rewrite E in Hs'; set_solver | done]].
    rewrite !elem_of_cons in Hs'. destruct Hs' as [->|[->|[->|?%not_elem_of_nil]]]; done.
  - apply wp_then. cbn [update modify]. unfold wp at 1, update, modify.
    set (st1 := st0 <| rs_results ::= alter _ (sp_StepID step) |>).
    assert (F1 : frame src step 1 1 st0 st1) by (by apply update_frame).
    eapply wp_mono; [apply emitTimeline_quiet| |].
    + intros [] st2 Hq. assert (F2 : frame src step 1 (1 + maxAttempts step) st0 st2).
      { eapply frame_widen, frame_trans; [| | | exact F1 | apply (qt_frame _ _ Hq)]; lia. }
      split_and!; [done| |].
      * eexists. rewrite (qt_results _ _ Hq). split; [by apply (update_own step _ st0)|]. done.
      * split; [done|]. intros [a Ha]. exfalso. apply (Hnone a).
        destruct (frame_trans src step 1 1 1 st0 st1 st2 ltac:(lia) ltac:(lia) F1 (qt_frame _ _ Hq step 1))
          as [(calls & E & Fc & _) _ _ _ _ _]. rewrite E, executions_app in Ha.
        apply elem_of_app in Ha as [Ha|Ha]; [|done]. apply (execution_range _ _ _ _ _ _ Fc) in Ha. lia.
    + intros st2 [Hq Hb]. split; [|done]. eapply frame_widen, frame_trans; [| | | exact F1 | apply (qt_frame _ _ Hq)]; lia.
Qed.

Lemma processStep_spec resumeCount step st :
  rinv st -> step ∈ steps -> (forall d, d ∈ sp_DependsOn step -> handled st d) ->
  wp (processStep env defaultStepTimeout namespace req def summary resumeCount step)
    (fun _ st' => rinv st' /\ extends st st' /\ handled st' (sp_StepID step))
    (fun st' => xinv st' /\ ~ benign) st.
Proof.
  intros Hi Hs Hdeps. pose proof (ri_x _ Hi) as X.
  destruct (proj2 (xi_dom _ X (sp_StepID step))) as [r Hr]; [by apply list_elem_of_fmap_2|].
  destruct (ri_state _ Hi _ _ Hr) as [Hterm Hpend].
  unfold processStep. cbn zeta. apply wp_then, wp_get. unfold isPending, statusOf. rewrite Hr. cbn [fmap option_fmap option_map].
  case_bool_decide as Hp; cbn [negb]; cycle 1.
  { apply wp_ret. split_and!; [done | apply extends_refl|].
    destruct (decide (sp_StepID step ∈ rs_order st)) as [?|Hn]; [by left|].
    destruct (restored !! sp_StepID step) eqn:Er; [right; eauto|].
    exfalso. apply Hp. f_equal. apply Hpend. intros [?|[? ?]]; congruence. }
  injection Hp as Hp.
  assert (Hnh : ~ handled st (sp_StepID step)) by (intros Hh; apply Hterm in Hh; by rewrite Hp in Hh).
  assert (Hno : sp_StepID step ∉ rs_order st) by (intros ?; apply Hnh; by left).
  assert (Hnr : restored !! sp_StepID step = None) by (apply eq_None_not_Some; intros ?; apply Hnh; by right).
  assert (Hnone : forall a, (sp_StepID step, a) ∉ executions (rs_history st)).
  { intros a (c & Hc & Ex)%list_elem_of_omap. destruct c; cbn in Ex; try done. injection Ex as Ex _.
    apply (xi_exec _ X) in Hc as (_ & Hc & _). by rewrite Ex in Hc. }
  apply wp_then. unfold wp at 1, modify at 1.
  set (st0 := st <| rs_order ::= fun o => o ++ [sp_StepID step] |>). apply wp_then.
  eapply wp_mono; [apply dispatch_spec; [by exists r | exact Hnone]| |].
  - intros [] st1 (F1 & Hown & Hran).
    assert (I1 : rinv st1) by (by apply (frame_rinv step st st1)).
    assert (O1 : rs_order st1 = rs_order st ++ [sp_StepID step]) by apply F1.
    assert (Hfin : forall st', quiet st1 st' -> rinv st' /\ extends st st' /\ handled st' (sp_StepID step)).
    { intros st' Hq. destruct (quiet_rinv _ _ Hq I1) as [I' O']. split; [done|]. rewrite O1 in O'.
      split; [|left; rewrite O'; set_solver]. split; [by eexists|]. intros Es.
      rewrite (fr_conts _ _ _ _ _ _ (qt_frame _ _ Hq step 0) Es). by rewrite (fr_conts _ _ _ _ _ _ F1 Es). }
    apply wp_then. eapply wp_mono; [apply notifyStep_quiet| |].
    + intros [] st2 [Hq2 _]. eapply wp_mono; [apply saveUnlessContinuation_quiet| |].
      * intros [] st3 Hq3. apply Hfin. by eapply quiet_trans.
      * intros st3 [Hq3 Hb]. split; [|done]. apply ri_x, Hfin. by eapply quiet_trans.
    + intros st2 [Hq2 Hb]. split; [|done]. by apply ri_x, Hfin.
  - intros st1 [F1 Hb]. split; [|done]. by apply (frame_xinv step st st1).
Qed.

Lemma extends_trans st1 st2 st3 : extends st1 st2 -> extends st2 st3 -> extends st1 st3.
Proof.
  intros [[k1 E1] C1] [[k2 E2] C2]. split; [exists (k1 ++ k2); by rewrite E2, E1, app_assoc|].
  intros Es. by rewrite C2, C1.
Qed.

Lemma processSteps_spec resumeCount l st :
  rinv st -> Forall (fun s => s ∈ steps /\ forall d, d ∈ sp_DependsOn s -> handled st d) l ->
  wp (processSteps env defaultStepTimeout namespace req def summary resumeCount l)
    (fun _ st' => rinv st' /\ extends st st' /\ Forall (fun s => handled st' (sp_StepID s)) l)
    (fun st' => xinv st' /\ ~ benign) st.
Proof.
  revert st. induction l as [|step l IH]; intros st Hi Hl; cbn [processSteps].
  { apply wp_ret. split_and!; [done | apply extends_refl | done]. }
  apply Forall_cons in Hl as [[Hs Hd] Hl]. apply wp_then.
  eapply wp_mono; [by apply processStep_spec| |done].
  intros [] st1 (I1 & E1 & H1'). eapply wp_mono; [apply IH; [done|]| |done].
  - eapply Forall_impl; [exact Hl|]. intros s [Hss Hds]. split; [done|]. intros d Hdd.
    eapply extends_handled; [exact E1 | auto].
  - intros [] st2 (I2 & E2 & H2'). split_and!; [done | by eapply extends_trans|].
    constructor; [by eapply extends_handled | done].
Qed.

Lemma elem_of_readySteps res s : s ∈ readySteps steps res <-> s ∈ steps /\ stepReady res s = true.
Proof. unfold readySteps. rewrite merge_sort_Permutation, list_elem_of_filter. tauto. Qed.

(** Between steps a record is final exactly when its step was handled. *)
Lemma terminal_handled st id : rinv st -> depTerminal (rs_results st) id = true <-> id ∈ stepIDs steps /\ handled st id.
Proof.
  intros Hi. unfold depTerminal. destruct (rs_results st !! id) as [r|] eqn:Er.
  - assert (Hid : id ∈ stepIDs steps) by (by apply (xi_dom _ (ri_x _ Hi)); eauto).
    destruct (ri_state _ Hi id r Er) as [Y1 Y2]. split.
    + intros Ht. split; [done|]. destruct (decide (id ∈ rs_order st)) as [|Hn]; [by left|].
      destruct (restored !! id) eqn:Ex; [right; eauto|]. exfalso.
      rewrite Y2 in Ht; [done|]. intros [?|[? ?]]; congruence.
    + intros [_ Hh]. auto.
  - split; [done|]. intros [Hid _]. apply (xi_dom _ (ri_x _ Hi)) in Hid as [? ?]. congruence.
Qed.

Lemma stepReady_iff st s :
  rinv st -> s ∈ steps ->
  stepReady (rs_results st) s = true
  <-> ~ handled st (sp_StepID s) /\ forall d, d ∈ sp_DependsOn s -> handled st d.
Proof.
  intros Hi Hs. unfold stepReady. rewrite andb_true_iff, forallb_forall. unfold isPending, statusOf.
  destruct (proj2 (xi_dom _ (ri_x _ Hi) (sp_StepID s))) as [r Hr]; [by apply list_elem_of_fmap_2|].
  destruct (ri_state _ Hi _ _ Hr) as [Y1 Y2]. rewrite Hr. cbn [fmap option_fmap option_map]. rewrite bool_decide_eq_true.
  assert (Hp : Some (sr_Status r) = Some StepStatusPending <-> ~ handled st (sp_StepID s)).
  { split; [|intros Hn; f_equal; auto]. intros [= E] Hh. apply Y1 in Hh. by rewrite E in Hh. }
  rewrite Hp. apply and_iff_compat_l. split.
  - intros Hd d Hdd. apply list_elem_of_In in Hdd. specialize (Hd d Hdd).
    by apply terminal_handled in Hd as [_ Hd].
  - intros Hd d Hdd%list_elem_of_In. apply terminal_handled; [done|]. split; [|auto].
    by apply (vd_known _ valid s).
Qed.

Lemma ordered_length order : ordered order -> (length order <= length steps)%nat.
Proof.
  intros Ho. replace (length steps) with (length (stepIDs steps)) by (unfold stepIDs; by rewrite length_fmap).
  apply submseteq_length, NoDup_submseteq.
  - clear -Ho. induction order as [|x order IH] using rev_ind; [apply NoDup_nil_2|].
    destruct (Ho order x [] eq_refl) as (_ & Hn & _). apply NoDup_app. split_and!.
    + apply IH. intros l1 y l2 ->. apply (Ho l1 y (l2 ++ [x])). by rewrite <-app_assoc.
    + intros y Hy ->%list_elem_of_singleton. done.
    + apply NoDup_singleton.
  - intros x (l1 & l2 & ->)%list_elem_of_split. by apply (Ho l1 x l2).
Qed.

(** A round that finds a ready step handles one. *)
Lemma round_progress resumeCount st s ready :
  rinv st -> readySteps steps (rs_results st) = s :: ready ->
  wp (processSteps env defaultStepTimeout namespace req def summary resumeCount (s :: ready))
    (fun _ st' => rinv st' /\ extends st st' /\ (length (rs_order st) < length (rs_order st'))%nat)
    (fun st' => xinv st' /\ ~ benign) st.
Proof.
  intros Hi Er.
  assert (Hall : Forall (fun s => s ∈ steps /\ ~ handled st (sp_StepID s)
                         /\ forall d, d ∈ sp_DependsOn s -> handled st d) (s :: ready)).
  { apply Forall_forall. intros s' Hs'. rewrite <-Er in Hs'. apply elem_of_readySteps in Hs' as [Hs' Hrs].
    apply stepReady_iff in Hrs; [|done..]. tauto. }
  eapply wp_mono; [apply processSteps_spec; [done|]| |done].
  - eapply Forall_impl; [exact Hall|]. by intros s' (Hs & _ & Hd).
  - intros [] st1 (I1 & Hex & Hh). split_and!; [done..|]. destruct Hex as [[k E1] _]. rewrite E1, length_app.
    apply Forall_cons in Hall as [(_ & Hn & _) _]. apply Forall_cons in Hh as [Hh _].
    destruct k as [|x k]; [|cbn; lia]. exfalso. apply Hn. unfold handled in *. by rewrite E1, app_nil_r in Hh.
Qed.

Lemma rounds_S fuel resumeCount st :
  rounds env defaultStepTimeout namespace req def summary (S fuel) resumeCount st
  = match readySteps steps (rs_results st) with
    | [] => (st, Continue tt)
    | s :: ready =>
        match processSteps env defaultStepTimeout namespace req def summary resumeCount (s :: ready) st with
        | (st1, Continue _) => rounds env defaultStepTimeout namespace req def summary fuel resumeCount st1
        | (st1, Return r e) => (st1, Return r e)
        end
    end.
Proof. cbn [rounds]. unfold then_ at 1, get. by destruct (readySteps steps (rs_results st)). Qed.

(** Every round handles a step, so that the fuel is never what ends the loop. *)
Lemma rounds_spec fuel resumeCount st :
  rinv st -> (length steps < fuel + length (rs_order st))%nat ->
  wp (rounds env defaultStepTimeout namespace req def summary fuel resumeCount)
    (fun _ st' => rinv st' /\ extends st st' /\ readySteps steps (rs_results st') = [])
    (fun st' => xinv st' /\ ~ benign) st.
Proof.
  revert st. induction fuel as [|fuel IH]; intros st Hi Hf; cbn [rounds].
  { pose proof (ordered_length _ (xi_order _ (ri_x _ Hi))). cbn in Hf. lia. }
  apply wp_then, wp_get. destruct (readySteps steps (rs_results st)) as [|s ready] eqn:Er; [by apply wp_ret; split_and!; [|apply extends_refl|]|].
  apply wp_then. eapply wp_mono; [by apply round_progress| |done].
  intros [] st1 (I1 & X1 & L1). eapply wp_mono; [apply IH; [done | lia] | | done].
  intros [] st2 (I2 & X2 & R2). split_and!; [done | by eapply extends_trans | done].
Qed.

(** When no step is ready, every step was handled: the definition has no cycle. *)
Lemma none_ready_all_handled st :
  rinv st -> readySteps steps (rs_results st) = [] -> forall id, id ∈ stepIDs steps -> handled st id.
Proof.
  intros Hi Hr id Hid. pose proof (valid_grounded def valid id Hid) as Hg.
  induction Hg as [id _ IH]. apply list_elem_of_fmap in Hid as (s & -> & Hs).
  destruct (decide (sp_StepID s ∈ rs_order st)) as [|Hn]; [by left|].
  destruct (restored !! sp_StepID s) eqn:Ex; [right; eauto|]. exfalso.
  assert (Hin : s ∈ readySteps steps (rs_results st)); [|rewrite Hr in Hin; by apply not_elem_of_nil in Hin].
  apply elem_of_readySteps. split; [done|]. apply stepReady_iff; [done..|]. split.
  - intros [?|[? ?]]; congruence.
  - intros d Hd. apply IH; [by rewrite depsOf_step by (done || apply valid) | by apply (vd_known _ valid s)].
Qed.
End parts.

(** ** Restoring *)

(** The record of a step with what was saved about it. *)
Definition restoreRecord (saved : option CheckpointStep) (r : StepResult) : StepResult :=
  match saved with
  | None => r
  | Some c =>
      match cs_Status c with
      | StepStatusSucceeded | StepStatusSkipped =>
          r <| sr_Status := cs_Status c |> <| sr_Attempts := cs_Attempts c |>
      | _ => r <| sr_Status := StepStatusPending |> <| sr_Attempts := 0 |>
      end
  end.

Definition restoreAll (saved : gmap string CheckpointStep) (res : results_t) : results_t :=
  map_imap (fun id r => Some (restoreRecord (saved !! id) r)) res.

Section restoring.
Context `{RangeOrder} `{WorkflowCodec} {CP CS : Type} `{CheckpointStore CP} `{ContinuationStore CS}.
Context (env : Environment) (req : RunRequest) (def : WorkflowDefinition).
Implicit Types (st : RunState CP CS).

(** Calls that are no executions. *)
Record trail st st' : Prop := {
  tl_order : rs_order st' = rs_order st;
  tl_calls : exists calls, rs_history st' = calls ++ rs_history st /\ executions calls = [];
  tl_store : rs_checkpoints st' = rs_checkpoints st;
  tl_conts : rs_continuations st' = rs_continuations st;
  tl_seq : seq_ok st -> seq_ok st'
}.

Lemma trail_refl st : trail st st.
Proof. split; try done. by exists []. Qed.

Lemma trail_trans st1 st2 st3 : trail st1 st2 -> trail st2 st3 -> trail st1 st3.
Proof.
  intros [O1 (c1 & E1 & X1) S1 K1 Q1] [O2 (c2 & E2 & X2) S2 K2 Q2]. split; [congruence| |congruence..|auto].
  exists (c2 ++ c1). by rewrite E2, E1, executions_app, X1, X2, app_assoc.
Qed.

Lemma emitTimeline_trail m status reason st :
  wp (emitTimeline env req def m status reason) (fun _ st' => trail st st' /\ rs_results st' = rs_results st)
    (fun _ => False) st.
Proof.
  pose proof (emitTimeline_quiet (CP := CP) (CS := CS) env req def m status reason st) as Hq. unfold wp, emitTimeline in *.
  destruct (env_timeline env); [|split; [apply trail_refl | done]].
  split; [|done]. split; try done; [by eexists [_] | apply (fr_seq _ _ _ _ _ _ (qt_frame _ _ _ Hq dummyStep 0))].
Qed.

Lemma notify_trail e st :
  wp (notify env e) (fun _ st' => trail st st' /\ rs_results st' = rs_results st)
    (fun st' => trail st st' /\ rs_results st' = rs_results st /\ ~ benign (CP := CP) env) st.
Proof.
  pose proof (notify_quiet (CP := CP) (CS := CS) env req e st) as Hq. unfold wp, notify in *.
  destruct (env_onEvent env) as [f|]; [|split; [apply trail_refl | done]].
  assert (Ht : trail st (st <| rs_history ::= cons (CallEvent e) |>)).
  { split; try done; [by eexists [_]|]. intros [Hn Hs]. split; [done|]. cbn. by rewrite timelines_cons, Z.add_0_r. }
  destruct (f (rs_history st) e); [|done]. destruct Hq as [_ Hb]. done.
Qed.

Lemma restoreStep_spec saved id st :
  wp (restoreStep env req def saved id)
    (fun _ st' => trail st st' /\ rs_results st' = alter (restoreRecord (saved !! id)) id (rs_results st))
    (fun st' => trail st st' /\ rs_results st' = alter (restoreRecord (saved !! id)) id (rs_results st)
                /\ ~ benign (CP := CP) env) st.
Proof.
  unfold restoreStep. apply wp_then, wp_get.
  destruct (saved !! id) as [c|] eqn:Es; cycle 1.
  { apply wp_ret. split; [apply trail_refl|]. cbn. symmetry. by apply alter_id. }
  destruct (rs_results st !! id) as [r|] eqn:Er; cycle 1.
  { apply wp_ret. split; [apply trail_refl|]. apply map_eq. intros j. destruct (decide (j = id)) as [->|Hne].
    - by rewrite lookup_alter_eq, Er. 
    - by rewrite lookup_alter_ne. }
  assert (Hup : forall f, (forall r, f r = restoreRecord (Some c) r) ->
    trail st (st <| rs_results ::= alter f id |>)
    /\ rs_results (st <| rs_results ::= alter f id |>) = alter (restoreRecord (Some c)) id (rs_results st)).
  { intros f Hf. split; [split; try done; by exists []|]. cbn. by apply alter_ext. }
  destruct (cs_Status c) eqn:Ec.
  1,2,4,6,7: apply Hup; intros r'; cbn; by rewrite Ec.
  all: apply wp_then; unfold wp at 1, update, modify;
    (set (f := fun r : StepResult => _));
    destruct (Hup f) as [T1 R1]; [by intros r'; cbn; rewrite Ec|];
    set (st1 := st <| rs_results ::= alter f id |>) in *; clearbody st1; apply wp_then;
    (eapply (wp_mono _ (fun _ st' => trail st1 st' /\ rs_results st' = rs_results st1) _ (fun _ => False));
      [destruct (List.find _ _); [apply emitTimeline_trail | split; [apply trail_refl | done]] | | done]);
    intros [] st2 [T2 R2]; apply wp_then, wp_get; rewrite R2, R1, lookup_alter_eq, Er; cbn [fmap option_fmap option_map];
    (eapply wp_mono; [apply notify_trail| |]);
    [intros [] st3 [T3 R3] | intros st3 (T3 & R3 & Hb)];
    rewrite R3, R2, R1; split_and!; try done; by eapply trail_trans, trail_trans.
Qed.

Lemma restoreSteps_spec saved l st :
  NoDup l ->
  let upto (st' : RunState CP CS) k := rs_results st' = foldl (fun res id => alter (restoreRecord (saved !! id)) id res) (rs_results st) k in
  wp (restoreSteps env req def saved l)
    (fun _ st' => trail st st' /\ upto st' l)
    (fun st' => trail st st' /\ (exists k, k ⊆+ l /\ upto st' k) /\ ~ benign (CP := CP) env) st.
Proof.
  intros Hnd. cbn zeta. revert st. induction l as [|id l IH]; intros st; cbn [restoreSteps].
  { apply wp_ret. split; [apply trail_refl | done]. }
  apply NoDup_cons in Hnd as [_ Hnd]. apply wp_then. eapply wp_mono; [apply restoreStep_spec| |].
  - intros [] st1 [T1 R1]. eapply wp_mono; [by apply IH| |].
    + intros [] st2 [T2 R2]. split; [by eapply trail_trans|]. by rewrite R2, R1.
    + intros st2 (T2 & (k & Hk & R2) & Hb). split_and!; [by eapply trail_trans| |done].
      exists (id :: k). split; [by apply submseteq_skip|]. by rewrite R2, R1.
  - intros st1 (T1 & R1 & Hb). split_and!; [done| |done]. exists [id]. split; [|done].
    apply submseteq_skip, submseteq_nil_l.
Qed.

(** Restoring entry by entry is restoring all of them, in any order. *)
Lemma restore_foldl (saved : gmap string CheckpointStep) l (res : results_t) id :
  NoDup l ->
  foldl (fun res id => alter (restoreRecord (saved !! id)) id res) res l !! id
  = if decide (id ∈ l) then restoreRecord (saved !! id) <$> res !! id else res !! id.
Proof.
  intros Hnd. revert res. induction l as [|x l IH]; intros res; cbn.
  - by rewrite decide_False by apply not_elem_of_nil.
  - apply NoDup_cons in Hnd as [Hx Hnd]. rewrite (IH Hnd). destruct (decide (id = x)) as [->|Hne].
    + rewrite decide_False by done. rewrite decide_True by (by left). apply lookup_alter_eq.
    + rewrite lookup_alter_ne by done. destruct (decide (id ∈ l)), (decide (id ∈ x :: l)); set_solver.
Qed.

Lemma range_order_NoDup {A} (m : gmap string A) : NoDup (range_order m).
Proof. rewrite range_order_perm. apply NoDup_fst_map_to_list. Qed.

Lemma elem_of_range_order {A} (m : gmap string A) id : id ∈ range_order m <-> is_Some (m !! id).
Proof.
  rewrite range_order_perm, list_elem_of_fmap. split.
  - intros ([k v] & -> & Hk%elem_of_map_to_list). eauto.
  - intros [v Hv]. exists (id, v). split; [done|]. by apply elem_of_map_to_list.
Qed.

Lemma restore_range (saved : gmap string CheckpointStep) (res : results_t) :
  foldl (fun res id => alter (restoreRecord (saved !! id)) id res) res (range_order saved) = restoreAll saved res.
Proof.
  apply map_eq. intros id. rewrite restore_foldl by apply range_order_NoDup. unfold restoreAll.
  rewrite map_lookup_imap. case_decide as Hin; rewrite elem_of_range_order in Hin.
  - by destruct (res !! id).
  - apply eq_None_not_Some in Hin. rewrite Hin. by destruct (res !! id).
Qed.

(** What a run finds saved: the steps of the continuation or of the checkpoint. *)
Definition savedSteps (checkpoints : option CP) : gmap string CheckpointStep :=
  if rn_sourceContinuation req then rn_continuationSteps req
  else if rn_Resume req then
    match checkpoints with
    | Some s => match cpLoad s (wd_WorkflowID def) with Ok (Some cp) => cp_Steps cp | _ => ∅ end
    | None => ∅
    end
  else ∅.

Lemma restoreAll_empty res : restoreAll ∅ res = res.
Proof.
  unfold restoreAll. apply map_eq. intros id. rewrite map_lookup_imap, lookup_empty. cbn. by destruct (res !! id).
Qed.

Lemma restore_spec st :
  wp (restore env req def)
    (fun _ st' => trail st st' /\ rs_results st' = restoreAll (savedSteps (rs_checkpoints st)) (rs_results st))
    (fun st' => trail st st' /\ (exists k, k ⊆+ range_order (savedSteps (rs_checkpoints st)) /\ rs_results st'
        = foldl (fun res id => alter (restoreRecord (savedSteps (rs_checkpoints st) !! id)) id res) (rs_results st) k)
        /\ ~ benign (CP := CP) env) st.
Proof.
  unfold restore, savedSteps.
  assert (Hrun : forall saved n, wp (then_ (restoreSteps env req def saved (range_order saved)) (fun _ => ret (n : Z)))
    (fun _ st' => trail st st' /\ rs_results st' = restoreAll saved (rs_results st))
    (fun st' => trail st st' /\ (exists k, k ⊆+ range_order saved /\ rs_results st'
        = foldl (fun res id => alter (restoreRecord (saved !! id)) id res) (rs_results st) k) /\ ~ benign (CP := CP) env) st).
  { intros saved n. apply wp_then. eapply wp_mono; [apply restoreSteps_spec, range_order_NoDup | | done].
    intros [] st' [T R]. apply wp_ret. split; [done|]. by rewrite R, restore_range. }
  assert (Hnone : forall n, wp (ret n) (fun (_ : Z) st' => trail st st' /\ rs_results st' = restoreAll ∅ (rs_results st))
    (fun st' => trail st st' /\ (exists k, k ⊆+ range_order (∅ : gmap string CheckpointStep) /\ rs_results st'
        = foldl (fun res id => alter (restoreRecord ((∅ : gmap string CheckpointStep) !! id)) id res) (rs_results st) k) /\ ~ benign (CP := CP) env) st).
  { intros n. apply wp_ret. split; [apply trail_refl | by rewrite restoreAll_empty]. }
  destruct (rn_sourceContinuation req); [apply Hrun|]. destruct (rn_Resume req); [|apply Hnone].
  apply wp_then, wp_get. destruct (rs_checkpoints st) as [s|]; [|apply Hnone].
  destruct (cpLoad s (wd_WorkflowID def)) as [[cp|]|msg] eqn:El; [apply Hrun | apply Hnone|].
  cbn. split_and!; [apply trail_refl | exists []; split; [apply submseteq_nil_l | done]|].
  intros Hb. destruct (bn_load _ Hb s (wd_WorkflowID def)) as [cp E]. congruence.
Qed.
End restoring.

(** ** Whole runs *)

(** The records with an end. *)
Definition restoredOf (res : results_t) : results_t :=
  filter (fun kv => isTerminal (sr_Status kv.2) = true) res.

Definition freshResult (s : Step) : StepResult :=
  mkStepResult (sp_StepID s) (sp_TaskID s) StepStatusPending 0 "" "" zeroStepOutput.

Lemma initialResults_lookup def s :
  NoDup (stepIDs (wd_Steps def)) -> s ∈ wd_Steps def -> initialResults def !! sp_StepID s = Some (freshResult s).
Proof.
  intros Hnd Hs. unfold initialResults. induction (wd_Steps def) as [|s' l IH] using rev_ind; [by apply not_elem_of_nil in Hs|].
  unfold stepIDs in *. rewrite fmap_app in Hnd. apply NoDup_app in Hnd as (Hnd & Hdis & _).
  rewrite foldl_app. cbn. apply elem_of_app in Hs as [Hs | ->%list_elem_of_singleton]; [|apply lookup_insert_eq].
  rewrite lookup_insert_ne; [by apply IH|]. intros E.
  apply (Hdis (sp_StepID s)); [by apply list_elem_of_fmap_2 | rewrite <-E; by left].
Qed.

Lemma initialResults_None def id : id ∉ stepIDs (wd_Steps def) -> initialResults def !! id = None.
Proof.
  unfold initialResults, stepIDs. induction (wd_Steps def) as [|s l IH] using rev_ind; [done|].
  rewrite fmap_app, elem_of_app. intros Hn. rewrite foldl_app. cbn. rewrite lookup_insert_ne; [apply IH; tauto|].
  intros E. apply Hn. right. rewrite <-E. by left.
Qed.

(** The records of a run that has not started. *)
Definition unstarted (def : WorkflowDefinition) (res : results_t) : Prop :=
  (forall id r, res !! id = Some r -> sr_StepID r = id)
  /\ (forall id, is_Some (res !! id) <-> id ∈ stepIDs (wd_Steps def))
  /\ forall id r, res !! id = Some r -> sr_Status r ∈ [StepStatusPending; StepStatusSucceeded; StepStatusSkipped].

Lemma initial_unstarted def : NoDup (stepIDs (wd_Steps def)) -> unstarted def (initialResults def).
Proof.
  intros Hnd. split; [|split].
  - intros id r Hr. destruct (decide (id ∈ stepIDs (wd_Steps def))) as [(s & -> & Hs)%list_elem_of_fmap|];
      [|by rewrite initialResults_None in Hr].
    rewrite initialResults_lookup in Hr by done. by simplify_eq.
  - intros id. split.
    + intros [r Hr]. destruct (decide (id ∈ stepIDs (wd_Steps def))); [done|]. by rewrite initialResults_None in Hr.
    + intros (s & -> & Hs)%list_elem_of_fmap. rewrite initialResults_lookup by done. eauto.
  - intros id r Hr. destruct (decide (id ∈ stepIDs (wd_Steps def))) as [(s & -> & Hs)%list_elem_of_fmap|];
      [|by rewrite initialResults_None in Hr].
    rewrite initialResults_lookup in Hr by done. simplify_eq. by left.
Qed.

Lemma restoreRecord_unstarted saved r :
  sr_Status r ∈ [StepStatusPending; StepStatusSucceeded; StepStatusSkipped] ->
  sr_Status (restoreRecord saved r) ∈ [StepStatusPending; StepStatusSucceeded; StepStatusSkipped].
Proof.
  intros Hr. destruct saved as [c|]; [|done]. cbn. destruct (cs_Status c) eqn:E; cbn; rewrite ?E; set_solver.
Qed.

Lemma restoreRecord_id saved r : sr_StepID (restoreRecord saved r) = sr_StepID r.
Proof. destruct saved as [c|]; [|done]. cbn. by destruct (cs_Status c). Qed.

Lemma restore_unstarted def (saved : gmap string CheckpointStep) l res :
  NoDup l -> unstarted def res ->
  unstarted def (foldl (fun res id => alter (restoreRecord (saved !! id)) id res) res l).
Proof.
  intros Hnd (Hi & Hd & Hs). split; [|split].
  - intros id r. rewrite restore_foldl by done. case_decide; [|apply Hi].
    intros (r0 & Hr & ->)%fmap_Some. rewrite restoreRecord_id. by apply Hi.
  - intros id. rewrite restore_foldl, <-Hd by done. case_decide; [apply fmap_is_Some | done].
  - intros id r. rewrite restore_foldl by done. case_decide; [|apply Hs].
    intros (r0 & Hr & ->)%fmap_Some. apply restoreRecord_unstarted, (Hs id r0 Hr).
Qed.

Section whole.
Context `{RangeOrder} `{WorkflowCodec} {CP CS : Type} `{CheckpointStore CP} `{ContinuationStore CS}.
Context (env : Environment) (defaultStepTimeout : Duration) (namespace : string).
Context (req : RunRequest) (def : WorkflowDefinition) (summary : graphCompileSummary).
Implicit Types (st : RunState CP CS).
Hypothesis valid : valid_def def.

(** The state in which the steps start to run. *)
Lemma started checkpoints continuations st :
  trail (mkRunState (initialResults def) 0 [] [] checkpoints continuations) st ->
  unstarted def (rs_results st) -> rinv def (restoredOf (rs_results st)) st.
Proof.
  intros [To (calls & Ec & Ex) _ _ Tq] (Ui & Ud & Us). cbn in *. rewrite app_nil_r in Ec. subst calls.
  assert (Hexec : forall w s a t, CallExecute w s a t ∈ rs_history st -> False).
  { intros w s a t Hc. assert (Hin : (sp_StepID s, a) ∈ executions (rs_history st)).
    { apply list_elem_of_omap. by exists (CallExecute w s a t). }
    rewrite Ex in Hin. by apply not_elem_of_nil in Hin. }
  split; [split|..]; rewrite ?To, ?Ex.
  - done.
  - by intros [|? ?] x l2.
  - intros w s a t Hc. by destruct (Hexec w s a t).
  - apply NoDup_nil_2.
  - apply map_filter_subseteq.
  - done.
  - by apply Tq.
  - intros id r Hr. unfold handled, restoredOf. rewrite To. split.
    + intros [?%not_elem_of_nil|[r' (Hr' & Ht)%map_lookup_filter_Some]]; [done|]. by simplify_eq.
    + intros Hn. specialize (Us id r Hr). rewrite !elem_of_cons in Us.
      destruct Us as [->|[E|[E|?%not_elem_of_nil]]]; try done; exfalso; apply Hn; right; exists r;
        apply map_lookup_filter_Some; (split; [done|]); cbn; by rewrite E.
  - by intros s r _ ?%not_elem_of_nil.
  - by intros s _ ?%not_elem_of_nil.
Qed.

(** What a run restores. *)
Definition restoredResults (checkpoints : option CP) : results_t :=
  restoredOf (restoreAll (savedSteps req def checkpoints) (initialResults def)).

(** A run that returns early either stopped while restoring or kept what holds at
    every point. *)
Definition interrupted (checkpoints : option CP) st : Prop :=
  (xinv def (restoredResults checkpoints) st
   \/ executions (rs_history st) = [] /\ rs_order st = [] /\ seq_ok st)
  /\ ~ benign (CP := CP) env.

(** The last save of a run that keeps checkpoints. *)
Definition checkpointed `{!CheckpointStoreLaws CP} st : Prop :=
  rn_sourceContinuation req = false ->
  match rs_checkpoints st with
  | Some s => exists cp, cpLoad s (wd_WorkflowID def) = Ok (Some cp) /\ cp_Steps cp = checkpointSteps (rs_results st)
  | None => True
  end.

Lemma saveUnlessContinuation_checkpointed `{!CheckpointStoreLaws CP} status n st :
  wp (saveUnlessContinuation env req def status n) (fun _ => checkpointed) (fun _ => True) st.
Proof.
  unfold saveUnlessContinuation, checkpointed. destruct (rn_sourceContinuation req); [done|].
  unfold wp, saveCheckpoint. destruct (rs_checkpoints st) as [s|] eqn:Es; [|by rewrite Es].
  destruct (cpSave s _) as [s'|msg] eqn:E; [|done]. intros _. cbn.
  eexists. split; [exact (cp_load_saved _ _ _ E) | done].
Qed.

Lemma runSteps_spec checkpoints continuations :
  let start := mkRunState (initialResults def) 0 [] [] checkpoints continuations : RunState CP CS in
  wp (runSteps env defaultStepTimeout namespace req def summary)
    (fun out st' => rinv def (restoredResults checkpoints) st'
       /\ readySteps (wd_Steps def) (rs_results st') = []
       /\ (rn_sourceContinuation req = true -> rs_continuations st' = continuations)
       /\ exists n, out = buildResult (rn_RunID req) (wd_WorkflowID def) n (wd_Steps def) (rs_results st') (rs_order st') summary)
    (interrupted checkpoints) start.
Proof.
  intros start. pose proof (initial_unstarted def (vd_unique _ valid)) as U0.
  assert (Q0 : seq_ok start) by (by split).
  unfold runSteps. apply wp_then. eapply wp_mono; [apply restore_spec| |].
  - intros n st1 [T1 R1]. change (rs_checkpoints start) with checkpoints in R1. change (rs_results start) with (initialResults def) in R1.
    assert (I1 : rinv def (restoredResults checkpoints) st1).
    { unfold restoredResults. rewrite <-R1. eapply started; [exact T1|]. rewrite R1, <-restore_range.
      by apply restore_unstarted; [apply range_order_NoDup|]. }
    apply wp_then. eapply wp_mono; [apply rounds_spec; [apply valid | done | done |]| |].
    + rewrite (tl_order _ _ T1). unfold runFuel. cbn. lia.
    + intros [] st2 (I2 & [_ X2] & R2). apply wp_then, wp_get. cbn zeta.
      assert (Hfin : forall st', quiet req st2 st' -> rinv def (restoredResults checkpoints) st'
        /\ rs_results st' = rs_results st2 /\ rs_order st' = rs_order st2).
      { intros st' Hq. destruct (quiet_rinv req def _ _ _ Hq I2) as [I' O']. split; [done|]. split; [apply Hq | done]. }
      apply wp_then. eapply wp_mono; [apply saveUnlessContinuation_quiet; apply valid| |].
      * intros [] st3 Hq3. apply wp_then. eapply wp_mono; [apply notify_quiet| |].
        -- intros [] st4 Hq4. apply wp_ret. destruct (Hfin st4 (quiet_trans req _ _ _ Hq3 Hq4)) as (I4 & E4 & O4).
           rewrite E4, O4. split_and!; [done | done| |eauto]. intros Es.
           pose proof (fr_conts _ _ _ _ _ _ (qt_frame _ _ _ (quiet_trans req _ _ _ Hq3 Hq4) dummyStep 0) Es) as ->.
           rewrite (X2 Es). apply T1.
        -- intros st4 [Hq4 Hb]. split; [|done]. left. apply ri_x, (Hfin st4 (quiet_trans req _ _ _ Hq3 Hq4)).
      * intros st3 [Hq3 Hb]. split; [|done]. left. by apply ri_x, Hfin.
    + intros st2 [X2 Hb]. split; [by left | done].
  - intros st1 (T1 & _ & Hb). split; [|done]. right. destruct T1 as [To (calls & Ec & Ex) _ _ Tq].
    rewrite Ec. cbn. rewrite app_nil_r. split_and!; [done | done | by apply Tq].
Qed.

Lemma runSteps_checkpointed `{!CheckpointStoreLaws CP} st :
  wp (runSteps env defaultStepTimeout namespace req def summary) (fun _ => checkpointed) (fun _ => True) st.
Proof.
  unfold runSteps. do 2 (apply wp_then; eapply wp_mono; [apply wp_true | intros ? ? _ | done]).
  apply wp_then, wp_get. cbn zeta. apply wp_then.
  eapply wp_mono; [apply saveUnlessContinuation_checkpointed | | done].
  intros [] st2 C2. apply wp_then. eapply wp_mono; [apply (notify_trail env req) | | done].
  intros [] st3 [T3 R3]. apply wp_ret. unfold checkpointed in *. by rewrite (tl_store _ _ T3), R3.
Qed.
End whole.
