(* ===== verification/WorkflowEngineProps.v ===== *)
(** * Workflow: execution, the properties

    Every run ends, with every step of a valid definition finished; steps run once,
    after their dependencies, under their conditions and within their attempts;
    a resumed run keeps what it restores; the timeline is numbered without a gap. *)
From S2P Require Import Prelude GoStrings GoNum TopoSort CoreTypes WorkflowTypes WorkflowCompose.
From S2P Require Import ExecutionGraph WorkflowComposeProps WorkflowPlan WorkflowPlanProps.
From S2P Require Import WorkflowContinuation WorkflowEngine WorkflowEngineInv WorkflowDemo.

Local Open Scope bool_scope.
Local Open Scope string_scope.
Local Open Scope list_scope.
Local Open Scope Z_scope.

(** ** Results *)

Definition resultItems (res : results_t) : list StepResult :=
  omap (fun id => res !! id) (sort_strings (map_to_list res).*1).

Lemma elem_of_resultItems res r : r ∈ resultItems res <-> exists id, res !! id = Some r.
Proof.
  unfold resultItems. rewrite list_elem_of_omap. split; [by intros (id & _ & Hr); eauto|].
  intros [id Hr]. exists id. split; [|done]. rewrite elem_of_sort_strings, list_elem_of_fmap.
  exists (id, r). split; [done|]. by apply elem_of_map_to_list.
Qed.

Lemma resultItems_ids res :
  (forall id r, res !! id = Some r -> sr_StepID r = id) ->
  sr_StepID <$> resultItems res = sort_strings (map_to_list res).*1.
Proof.
  intros Hk. unfold resultItems.
  assert (Hl : Forall (fun id => is_Some (res !! id)) (sort_strings (map_to_list res).*1)).
  { apply Forall_forall. intros id. rewrite elem_of_sort_strings, list_elem_of_fmap.
    intros ([k r] & -> & Hkr%elem_of_map_to_list). eauto. }
  induction Hl as [|id l [r Hr] _ IH]; [done|]. cbn. rewrite Hr, fmap_cons. f_equal; [by apply Hk | done].
Qed.

Lemma map_keys_perm {A} (m : gmap string A) ids :
  NoDup ids -> (forall id, is_Some (m !! id) <-> id ∈ ids) -> (map_to_list m).*1 ≡ₚ ids.
Proof.
  intros Hnd Hd. apply NoDup_Permutation; [apply NoDup_fst_map_to_list | done|]. intros id.
  rewrite <-Hd, list_elem_of_fmap. split.
  - intros ([k v] & -> & Hk%elem_of_map_to_list). eauto.
  - intros [v Hv]. exists (id, v). split; [done|]. by apply elem_of_map_to_list.
Qed.

Lemma finalStatus_spec status l :
  finalStatus status l
  = if decide (Exists (fun r => sr_Status r = StepStatusFailed) l) then "failed"
    else if decide (Exists (fun r => sr_Status r = StepStatusCanceled) l) then "canceled" else status.
Proof.
  revert status. induction l as [|r l IH]; intros status; cbn [finalStatus].
  { repeat match goal with |- context [decide ?P] => destruct (decide P) as [Hx|Hx]; [by apply Exists_nil in Hx|] end. done. }
  destruct (sr_Status r) eqn:E; rewrite ?IH.
  all: repeat case_decide; rewrite ?Exists_cons in *; try done; exfalso; naive_solver congruence.
Qed.

(** The counters and the status of a result are those of its steps: the number of
    failed steps, and failed if a step failed, else canceled if one was
    canceled, else succeeded. *)
Theorem result_summarises_steps runID wf n steps res order summary :
  let out := buildResult runID wf n steps res order summary in
  let some st := Exists (fun r => sr_Status r = st) (rr_Steps out) in
  rr_WorkflowStepFailed out = Z.of_nat (length (filter (fun r => sr_Status r = StepStatusFailed) (rr_Steps out)))
  /\ (rr_WorkflowStatus out = "failed" <-> some StepStatusFailed)
  /\ (rr_WorkflowStatus out = "canceled" <-> ~ some StepStatusFailed /\ some StepStatusCanceled)
  /\ (rr_WorkflowStatus out = "succeeded" <-> ~ some StepStatusFailed /\ ~ some StepStatusCanceled)
  /\ rr_WorkflowRemoteFailed out <= rr_WorkflowRemoteTotal out.
Proof.
  cbn zeta. unfold buildResult. cbn [rr_Steps rr_WorkflowStepFailed rr_WorkflowStatus rr_WorkflowRemoteFailed rr_WorkflowRemoteTotal].
  fold (resultItems res). rewrite finalStatus_spec. split_and!.
  - unfold countIf, isFailed. f_equal. f_equal. apply filter_ext_elem. intros r _. apply bool_decide_eq_true.
  - destruct (decide _); [done|]. destruct (decide _); done.
  - destruct (decide _); [naive_solver|]. destruct (decide _); naive_solver.
  - destruct (decide _); [naive_solver|]. destruct (decide _); naive_solver.
  - unfold countIf. apply inj_le. induction (resultItems res) as [|r l IH]; [done|]. rewrite !filter_cons.
    destruct (isA2AStepByID steps (sr_StepID r)), (isFailed r); repeat case_decide; cbn [length] in *; done || lia.
Qed.

(** ** Runs *)

Section runs.
Context `{RangeOrder} `{WorkflowCodec} {CP CS : Type} `{CheckpointStore CP} `{ContinuationStore CS}.
Context (env : Environment) (defaultStepTimeout : Duration) (namespace : string) (enabled : bool).

(** The definition a request runs. *)
Definition runs (req : RunRequest) (def : WorkflowDefinition) : Prop :=
  exists summary, compileDefinition enabled (normalizeDefinition (rn_DSL req)) = (summary, Ok def) /\ valid_def def.

Abbreviation exec := (execute env defaultStepTimeout namespace enabled).

(** How a run of a valid definition ends. *)
Lemma execute_cases req def checkpoints continuations (st : RunState CP CS) out err :
  runs req def -> exec req checkpoints continuations = (st, (out, err)) ->
  (rinv def (restoredResults req def checkpoints) st
   /\ readySteps (wd_Steps def) (rs_results st) = []
   /\ (exists n summary, out = buildResult (rn_RunID req) (wd_WorkflowID def) n (wd_Steps def) (rs_results st) (rs_order st) summary)
   /\ err = RunContext <$> env_ctxErr env (rs_history st))
  \/ (interrupted env req def checkpoints st /\ is_Some err).
Proof.
  intros (summary & Ec & Hv). unfold execute. rewrite Ec.
  pose proof (proj2 (ValidateDefinition_iff def) Hv) as Ev. rewrite Ev.
  pose proof (runSteps_spec env defaultStepTimeout namespace req def summary Hv checkpoints continuations) as Hs.
  cbn zeta in Hs. unfold wp in Hs. destruct (runSteps _ _ _ _ _ _ _) as [st' [out'|r e]]; intros [= <- <- <-].
  - left. destruct Hs as (I & R & _ & n & ->). split_and!; eauto.
  - right. split; [done | eauto].
Qed.

(** A run that something stopped had a reason for it. *)
Lemma benign_not_interrupted req def checkpoints (st : RunState CP CS) :
  benign (CP := CP) env -> ~ interrupted env req def checkpoints st.
Proof. by intros Hb [_ Hn]. Qed.

Lemma completed_terminal req def checkpoints (st : RunState CP CS) id r :
  valid_def def -> rinv def (restoredResults req def checkpoints) st ->
  readySteps (wd_Steps def) (rs_results st) = [] -> rs_results st !! id = Some r -> isTerminal (sr_Status r) = true.
Proof.
  intros Hv I R Hr. apply (ri_state _ _ _ I id r Hr). eapply none_ready_all_handled; [done..|].
  apply (xi_dom _ _ _ (ri_x _ _ _ I)). eauto.
Qed.

(** C5: a run of a valid definition ends, and with every step finished: when consumers
    and stores work and nothing pauses the run, it returns a result with one record
    for each step, sorted by id, each succeeded, failed, skipped or canceled, and no
    error but that of the context. *)
Theorem run_finishes_every_step req def checkpoints continuations :
  runs req def -> benign (CP := CP) env ->
  exists (st : RunState CP CS) out,
    exec req checkpoints continuations = (st, (out, RunContext <$> env_ctxErr env (rs_history st)))
    /\ sr_StepID <$> rr_Steps out = sort_strings (stepIDs (wd_Steps def))
    /\ Forall (fun r => isTerminal (sr_Status r) = true) (rr_Steps out).
Proof.
  intros Hd Hb. destruct (exec req checkpoints continuations) as [st [out err]] eqn:E.
  destruct (execute_cases _ _ _ _ _ _ _ Hd E) as [(I & R & (n & summary & ->) & ->)|[Hi _]];
    [|by apply benign_not_interrupted in Hi].
  destruct Hd as (su & _ & Hv). exists st. eexists. split; [done|]. cbn [buildResult rr_Steps]. fold (resultItems (rs_results st)).
  pose proof (ri_x _ _ _ I) as X. split.
  - rewrite resultItems_ids by apply X. apply sort_strings_order_irrelevant, map_keys_perm; [apply Hv | apply X].
  - apply Forall_forall. intros r [id Hr]%elem_of_resultItems. by eapply completed_terminal.
Qed.

(** What holds of every run of a definition, also one that was stopped. *)
Lemma execute_xinv req def checkpoints continuations (st : RunState CP CS) out err :
  runs req def -> exec req checkpoints continuations = (st, (out, err)) ->
  xinv def (restoredResults req def checkpoints) st
  \/ executions (rs_history st) = [] /\ rs_order st = [] /\ seq_ok st.
Proof.
  intros Hd E. destruct (execute_cases _ _ _ _ _ _ _ Hd E) as [(I & _)|[[Hi _] _]]; [left; apply I | done].
Qed.

(** C6: however a run ends, a step started at most once and only after each of its
    dependencies had started before it or was restored; the adapter was called for
    started steps only, never twice for the same attempt, and at most as often as
    the retry policy allows. *)
Theorem steps_run_once_after_dependencies req def checkpoints continuations (st : RunState CP CS) out err :
  runs req def -> exec req checkpoints continuations = (st, (out, err)) ->
  (forall l1 x l2, rs_order st = l1 ++ x :: l2 ->
     (x ∉ l1) /\ forall d, d ∈ depsOf (wd_Steps def) x ->
       d ∈ l1 \/ is_Some (restoredResults req def checkpoints !! d))
  /\ NoDup (executions (rs_history st))
  /\ (forall w s a t, CallExecute w s a t ∈ rs_history st ->
        s ∈ wd_Steps def /\ sp_StepID s ∈ rs_order st /\ 1 <= a <= maxAttempts s).
Proof.
  intros Hd E. destruct (execute_xinv _ _ _ _ _ _ _ Hd E) as [X|(Hx & Ho & _)].
  - split_and!; [|apply X | apply X]. intros l1 x l2 El. destruct (xi_order _ _ _ X l1 x l2 El) as (_ & ? & _ & ?). done.
  - rewrite Hx, Ho. split_and!; [by intros [|? ?] x l2 | apply NoDup_nil_2|].
    intros w s a t Hc. exfalso. assert (Hin : (sp_StepID s, a) ∈ executions (rs_history st)).
    { apply list_elem_of_omap. by exists (CallExecute w s a t). }
    rewrite Hx in Hin. by apply not_elem_of_nil in Hin.
Qed.

(** Conditions decide: when a run is not stopped early, a step it did not restore was
    given to the adapter exactly when its condition holds of the final results of
    its dependencies, and it ends skipped exactly when it does not. *)
Theorem conditions_decide_execution req def checkpoints continuations (st : RunState CP CS) out s r :
  runs req def ->
  exec req checkpoints continuations = (st, (out, RunContext <$> env_ctxErr env (rs_history st))) ->
  benign (CP := CP) env -> s ∈ wd_Steps def -> restoredResults req def checkpoints !! sp_StepID s = None ->
  rs_results st !! sp_StepID s = Some r ->
  ((exists a, (sp_StepID s, a) ∈ executions (rs_history st)) <-> conditionMatched s (rs_results st) = true)
  /\ (sr_Status r = StepStatusSkipped <-> conditionMatched s (rs_results st) = false).
Proof.
  intros Hd E Hb Hs Hn Hr.
  destruct (execute_cases _ _ _ _ _ _ _ Hd E) as [(I & R & _)|[Hi _]]; [|by apply benign_not_interrupted in Hi].
  destruct Hd as (su & _ & Hv).
  assert (Ho : sp_StepID s ∈ rs_order st).
  { destruct (none_ready_all_handled def Hv _ _ I R (sp_StepID s)) as [?|[? ?]]; [|done|congruence].
    by apply list_elem_of_fmap_2. }
  split; [symmetry; by apply (ri_ran _ _ _ I) | by apply (ri_skip _ _ _ I)].
Qed.

Lemma restored_not_executed req def checkpoints continuations (st : RunState CP CS) out err id c a :
  runs req def -> exec req checkpoints continuations = (st, (out, err)) ->
  savedSteps req def checkpoints !! id = Some c -> cs_Status c ∈ [StepStatusSucceeded; StepStatusSkipped] ->
  (id, a) ∉ executions (rs_history st).
Proof.
  intros Hd E Hc Hst Hin. destruct (execute_xinv _ _ _ _ _ _ _ Hd E) as [X|(Hx & _ & _)];
    [|rewrite Hx in Hin; by apply not_elem_of_nil in Hin].
  destruct Hd as (su & _ & Hv).
  apply list_elem_of_omap in Hin as (call & Hcall & Ex). destruct call; cbn in Ex; try done. injection Ex as <- <-.
  destruct (xi_exec _ _ _ X _ _ _ _ Hcall) as (Hs & (l1 & l2 & Ho)%list_elem_of_split & _).
  destruct (xi_order _ _ _ X _ _ _ Ho) as (_ & _ & Hn & _).
  unfold restoredResults, restoredOf in Hn. rewrite map_lookup_filter_None in Hn. unfold restoreAll in Hn.
  rewrite map_lookup_imap, initialResults_lookup in Hn by (done || apply Hv). cbn in Hn. rewrite Hc in Hn.
  destruct Hn as [?|Hn]; [done|]. specialize (Hn _ eq_refl). apply Hn. cbn.
  rewrite !elem_of_cons in Hst. destruct Hst as [->|[->|?%not_elem_of_nil]]; done.
Qed.

(** Resuming does not repeat: a step that the checkpoint or the continuation records
    as succeeded or skipped is never given to the adapter again, however the run
    ends. *)
Theorem resume_never_repeats_finished_steps req def checkpoints continuations (st : RunState CP CS) out err id c a :
  runs req def -> exec req checkpoints continuations = (st, (out, err)) ->
  savedSteps req def checkpoints !! id = Some c -> cs_Status c ∈ [StepStatusSucceeded; StepStatusSkipped] ->
  (id, a) ∉ executions (rs_history st).
Proof. apply restored_not_executed. Qed.

(** The timeline of a run is numbered 1, 2, ... without a gap or a repetition, in the
    width of the machine, whatever stopped the run. *)
Theorem workflow_timeline_numbered req def checkpoints continuations (st : RunState CP CS) out err :
  runs req def -> exec req checkpoints continuations = (st, (out, err)) ->
  numbered (rs_history st) /\ rs_seq st = wrap_i64 (timelines (rs_history st)).
Proof.
  intros Hd E. destruct (execute_xinv _ _ _ _ _ _ _ Hd E) as [X|(_ & _ & Hs)]; [apply X | apply Hs].
Qed.

(** C37: the loop over the rounds terminates: from the state in which the steps start, the
    rounds allowed to it are enough, so that any larger number gives the same
    run. *)
Theorem rounds_terminate req def summary restored n (st : RunState CP CS) extra :
  valid_def def -> rinv def restored st ->
  rounds env defaultStepTimeout namespace req def summary (runFuel def + extra) n st
  = rounds env defaultStepTimeout namespace req def summary (runFuel def) n st.
Proof.
  intros Hv. cut (forall fuel st, rinv def restored st -> (length (wd_Steps def) < fuel + length (rs_order st))%nat ->
    rounds env defaultStepTimeout namespace req def summary (fuel + extra) n st
    = rounds (CP := CP) (CS := CS) env defaultStepTimeout namespace req def summary fuel n st).
  { intros Hf Hi. apply Hf; [done|]. unfold runFuel. lia. }
  clear st. induction fuel as [|fuel IH]; intros st Hi Hf.
  { pose proof (ordered_length def restored _ (xi_order _ _ _ (ri_x _ _ _ Hi))). lia. }
  cbn [Nat.add]. rewrite !rounds_S. destruct (readySteps _ _) as [|s ready] eqn:Er; [done|].
  pose proof (round_progress env defaultStepTimeout namespace req def summary (vd_id _ Hv) Hv restored n st s ready Hi Er) as Hp.
  unfold wp in Hp. destruct (processSteps _ _ _ _ _ _ _ _ st) as [st1 [[]|r e]]; [|done].
  destruct Hp as (I1 & _ & L1). apply IH; [done|]. lia.
Qed.

(** The store holds the final state of a run that was not stopped. *)
Lemma execute_checkpointed `{!CheckpointStoreLaws CP} req def checkpoints continuations (st : RunState CP CS) out :
  runs req def -> benign (CP := CP) env ->
  exec req checkpoints continuations = (st, (out, RunContext <$> env_ctxErr env (rs_history st))) ->
  checkpointed req def st.
Proof.
  intros Hd Hb E. destruct (execute_cases _ _ _ _ _ _ _ Hd E) as [_|[Hi _]]; [|by apply benign_not_interrupted in Hi].
  destruct Hd as (summary & Ec & Hv). unfold execute in E. rewrite Ec, (proj2 (ValidateDefinition_iff def) Hv) in E.
  pose proof (runSteps_checkpointed env defaultStepTimeout namespace req def summary
    (mkRunState (initialResults def) 0 [] [] checkpoints continuations)) as Hc.
  pose proof (runSteps_spec env defaultStepTimeout namespace req def summary Hv checkpoints continuations) as Hs.
  unfold wp in Hc, Hs. destruct (runSteps _ _ _ _ _ _ _) as [st' [out'|r e]]; injection E as <- <- E; [done|].
  by apply benign_not_interrupted in Hs.
Qed.

Lemma executed_known req def checkpoints continuations (st : RunState CP CS) out err id a :
  runs req def -> exec req checkpoints continuations = (st, (out, err)) ->
  (id, a) ∈ executions (rs_history st) -> id ∈ stepIDs (wd_Steps def).
Proof.
  intros Hd E Hin. destruct (execute_xinv _ _ _ _ _ _ _ Hd E) as [X|(Hx & _ & _)];
    [|rewrite Hx in Hin; by apply not_elem_of_nil in Hin].
  apply list_elem_of_omap in Hin as (call & Hcall & Ex). destruct call; cbn in Ex; try done. injection Ex as <- <-.
  apply (xi_exec _ _ _ X) in Hcall as (Hs & _). by apply list_elem_of_fmap_2.
Qed.
End runs.

(** Resuming after a run executes only what that run left failed or canceled: with the
    checkpoint that a completed run stored, a second run of the same definition
    with resume never gives a succeeded or skipped step to the adapter. *)
Theorem resume_after_run_retries_only_failures `{RangeOrder} `{WorkflowCodec} {CP CS : Type} `{CheckpointStore CP}
    `{ContinuationStore CS} `{!CheckpointStoreLaws CP} env1 env2 timeout namespace enabled req1 req2 def
    checkpoints (s : CP) continuations1 continuations2 (st1 st2 : RunState CP CS) out1 out2 err2 id a :
  runs enabled req1 def -> runs enabled req2 def -> rn_sourceContinuation req1 = false ->
  rn_sourceContinuation req2 = false -> rn_Resume req2 = true -> benign (CP := CP) env1 ->
  execute env1 timeout namespace enabled req1 checkpoints continuations1
  = (st1, (out1, RunContext <$> env_ctxErr env1 (rs_history st1))) ->
  rs_checkpoints st1 = Some s ->
  execute env2 timeout namespace enabled req2 (Some s) continuations2 = (st2, (out2, err2)) ->
  (id, a) ∈ executions (rs_history st2) ->
  statusOf (rs_results st1) id ∈ [Some StepStatusFailed; Some StepStatusCanceled].
Proof.
  intros Hd1 Hd2 Hs1 Hs2 Hres Hb E1 Es E2 Hin.
  pose proof (execute_checkpointed _ _ _ _ _ _ _ _ _ _ Hd1 Hb E1 Hs1) as Hcp. rewrite Es in Hcp.
  destruct (execute_cases _ _ _ _ _ _ _ _ _ _ _ Hd1 E1) as [(I & R & _)|[Hi _]]; [|by apply benign_not_interrupted in Hi].
  pose proof (executed_known _ _ _ _ _ _ _ _ _ _ _ _ _ Hd2 E2 Hin) as Hid.
  destruct Hd1 as (su1 & _ & Hv).
  destruct (proj2 (xi_dom _ _ _ (ri_x _ _ _ I) id) Hid) as [r Hr].
  pose proof (completed_terminal _ _ _ _ _ _ Hv I R Hr) as Ht. unfold statusOf. rewrite Hr. cbn.
  destruct Hcp as (cp & Hl & Hst).
  assert (Hsaved : savedSteps req2 def (Some s) !! id = Some (mkCheckpointStep (sr_Status r) (sr_Attempts r))).
  { unfold savedSteps. rewrite Hs2, Hres, Hl, Hst. unfold checkpointSteps. by rewrite lookup_fmap, Hr. }
  assert (Hn : sr_Status r ∉ [StepStatusSucceeded; StepStatusSkipped]).
  { intros Hok. by eapply restored_not_executed; [exact Hd2 | exact E2 | exact Hsaved | exact Hok | exact Hin]. }
  destruct (sr_Status r); try done; set_solver.
Qed.

(** ** The example *)

Abbreviation demoStore_t := MemoryCheckpointStore.
Abbreviation demoState := (RunState MemoryCheckpointStore MemoryWorkflowContinuationStore).

Lemma demo_runs resume : runs (H := listing_order) false (demoRequest resume) demoNormal.
Proof.
  eexists. split; [vm_compute; reflexivity|]. apply ValidateDefinition_iff. vm_compute. reflexivity.
Defined.

Lemma demo_benign deployable : benign (CP := demoStore_t) (demoEnvironment deployable).
Proof.
  split.
  - by intros f h e [= <-].
  - done.
  - intros h w s a t p. cbn. repeat case_match; done.
  - intros s cp Hid. exists (<[TrimSpace (cp_WorkflowID cp) := cp]> s). cbn. unfold memCpSave.
    by apply str_eqb_neq in Hid as ->.
  - intros s id. cbn. unfold memCpLoad. eauto.
Defined.

Lemma demo_run deployable resume store :
  @execute listing_order _ _ MemoryWorkflowContinuationStore _ _ (demoEnvironment deployable) Second "demo" false
    (demoRequest resume) (Some store) None
  = ((demoExecute deployable resume store).1,
     ((demoExecute deployable resume store).2.1, (demoExecute deployable resume store).2.2)).
Proof. unfold demoExecute. by destruct (execute _ _ _ _ _ _ _) as [? [? ?]]. Qed.

Lemma run_finishes_every_step_witness :
  exists (st : demoState) out, demoExecute false false ∅ = (st, (out, None))
    /\ sr_StepID <$> rr_Steps out = ["build"; "deploy"; "report"; "rollback"].
Proof.
  destruct (run_finishes_every_step (H := listing_order) (demoEnvironment false) Second "demo" false (demoRequest false)
    demoNormal (Some (∅ : demoStore_t)) (@None MemoryWorkflowContinuationStore) (demo_runs false) (demo_benign false))
    as (st & out & E & Hid & _).
  exists st, out. unfold demoExecute. rewrite E, Hid. split; [reflexivity | vm_compute; reflexivity].
Defined.

Lemma steps_run_once_after_dependencies_witness :
  NoDup (executions (rs_history (demoExecute false false ∅).1))
  /\ executions (rs_history (demoExecute false false ∅).1)
     = [("report", 1); ("deploy", 2); ("deploy", 1); ("build", 2); ("build", 1)].
Proof.
  split; [|vm_compute; reflexivity].
  exact (proj1 (proj2 (steps_run_once_after_dependencies (H := listing_order) (demoEnvironment false) Second "demo" false
    (demoRequest false) demoNormal (Some (∅ : demoStore_t)) (@None MemoryWorkflowContinuationStore)
    (demoExecute false false ∅).1 _ _ (demo_runs false) (demo_run false false ∅)))).
Defined.

(** The build succeeded: the rollback is skipped. *)
Lemma conditions_decide_execution_witness :
  exists r, rs_results (demoExecute false false ∅).1 !! "rollback" = Some r /\ sr_Status r = StepStatusSkipped.
Proof.
  set (s := nth 2 (wd_Steps demoNormal) (demoStep "" [] "" 0)).
  destruct (rs_results (demoExecute false false ∅).1 !! "rollback") as [r|] eqn:Er; [|vm_compute in Er; discriminate].
  exists r. split; [reflexivity|].
  apply (conditions_decide_execution (H := listing_order) (demoEnvironment false) Second "demo" false (demoRequest false)
    demoNormal (Some (∅ : demoStore_t)) (@None MemoryWorkflowContinuationStore)
    (demoExecute false false ∅).1 (demoExecute false false ∅).2.1 s r (demo_runs false)).
  - etransitivity; [apply demo_run | vm_compute; reflexivity].
  - apply demo_benign.
  - apply list_elem_of_In. vm_compute. auto.
  - vm_compute. reflexivity.
  - exact Er.
  - vm_compute. reflexivity.
Defined.

(** The resumed run deploys and nothing else. *)
Lemma resume_never_repeats_finished_steps_witness :
  (("build", 1) ∉ executions (rs_history (demoExecute true true demoStore).1))
  /\ executions (rs_history (demoExecute true true demoStore).1) = [("deploy", 1)].
Proof.
  split; [|vm_compute; reflexivity].
  apply (resume_never_repeats_finished_steps (H := listing_order) (demoEnvironment true) Second "demo" false (demoRequest true)
    demoNormal (Some demoStore) (@None MemoryWorkflowContinuationStore) (demoExecute true true demoStore).1
    (demoExecute true true demoStore).2.1 (demoExecute true true demoStore).2.2 "build"
    (mkCheckpointStep StepStatusSucceeded 2) 1 (demo_runs true)).
  - apply demo_run.
  - vm_compute. reflexivity.
  - apply list_elem_of_In. vm_compute. auto.
Defined.

Lemma workflow_timeline_numbered_witness :
  numbered (rs_history (demoExecute false false ∅).1)
  /\ rs_seq (demoExecute false false ∅).1 = 11.
Proof.
  split; [|vm_compute; reflexivity].
  exact (proj1 (workflow_timeline_numbered (H := listing_order) (demoEnvironment false) Second "demo" false
    (demoRequest false) demoNormal (Some (∅ : demoStore_t)) (@None MemoryWorkflowContinuationStore)
    (demoExecute false false ∅).1 _ _ (demo_runs false) (demo_run false false ∅))).
Defined.

(** A thousand more rounds change nothing. *)
Lemma rounds_terminate_witness : demoRounds (runFuel demoNormal + 1000) = demoRounds (runFuel demoNormal).
Proof.
  unfold demoRounds.
  destruct (demo_runs false) as (su & _ & Hv).
  apply (rounds_terminate (H := listing_order) (demoEnvironment false) Second "demo" (demoRequest false) demoNormal
    (mkGraphCompileSummary 0 0 false) (restoredOf (rs_results demoStart)) 0 demoStart 1000 Hv).
  apply (started demoNormal (Some (∅ : demoStore_t)) None demoStart); [apply trail_refl | apply initial_unstarted, Hv].
Defined.

Lemma resume_after_run_retries_only_failures_witness :
  statusOf (rs_results (demoExecute false false ∅).1) "deploy" ∈ [Some StepStatusFailed; Some StepStatusCanceled].
Proof.
  apply (resume_after_run_retries_only_failures (H := listing_order) (demoEnvironment false) (demoEnvironment true) Second "demo"
    false (demoRequest false) (demoRequest true) demoNormal (Some (∅ : demoStore_t)) demoStore
    (@None MemoryWorkflowContinuationStore) (@None MemoryWorkflowContinuationStore)
    (demoExecute false false ∅).1 (demoExecute true true demoStore).1 (demoExecute false false ∅).2.1
    (demoExecute true true demoStore).2.1 (demoExecute true true demoStore).2.2 "deploy" 1
    (demo_runs false) (demo_runs true) eq_refl eq_refl eq_refl (demo_benign false)).
  - etransitivity; [apply demo_run | vm_compute; reflexivity].
  - vm_compute. reflexivity.
  - apply demo_run.
  - apply list_elem_of_In. vm_compute. auto.
Defined.
