(* ===== verification/WorkflowResumeProps.v ===== *)
(** * Workflow: resuming a continuation

    The engine and the store of continuations together: a run that resumes a
    continuation leaves the store alone until its result is committed, so that the
    protocol of claims lets one resume of a continuation execute steps. *)
From S2P Require Import Prelude GoStrings GoNum CoreTypes WorkflowTypes WorkflowCompose.
From S2P Require Import ExecutionGraph WorkflowPlan WorkflowContinuation WorkflowContinuationProps.
From S2P Require Import WorkflowEngine WorkflowDemo.

Local Open Scope bool_scope.
Local Open Scope string_scope.
Local Open Scope list_scope.
Local Open Scope Z_scope.

Create HintDb keeps.

(** ** The store during a run *)

Section keeps.
Context `{RangeOrder} `{WorkflowCodec} {CP CS : Type} `{CheckpointStore CP} `{ContinuationStore CS}.
Context (env : Environment) (defaultStepTimeout : Duration) (namespace : string).

(** A part of the run that does not touch the store of continuations. *)
Definition keeps {A} (m : RunState CP CS -> RunState CP CS * step_outcome A) : Prop :=
  forall st, rs_continuations (m st).1 = rs_continuations st.

Lemma keeps_ret {A} (a : A) : keeps (ret a).
Proof. done. Qed.

Lemma keeps_stop {A} r e : keeps (stop (A := A) r e).
Proof. done. Qed.

Lemma keeps_get : keeps get.
Proof. done. Qed.

Lemma keeps_then {A B} (m : _ -> _ * step_outcome A) (k : A -> _ -> _ * step_outcome B) :
  keeps m -> (forall a, keeps (k a)) -> keeps (then_ m k).
Proof.
  intros Hm Hk st. unfold then_. specialize (Hm st). destruct (m st) as [st1 [a|r e]]; [|done].
  cbn in Hm. by rewrite Hk.
Qed.

Lemma keeps_results id f : keeps (update id f).
Proof. done. Qed.

Lemma keeps_order f : keeps (modify (fun st => st <| rs_order ::= f |>)).
Proof. done. Qed.

Lemma keeps_emitTimeline req def m status reason : keeps (emitTimeline env req def m status reason).
Proof. intros st. unfold emitTimeline. by destruct (env_timeline env). Qed.

Lemma keeps_notify e : keeps (notify env e).
Proof. intros st. unfold notify. by repeat case_match. Qed.

Lemma keeps_save req def status n : keeps (saveUnlessContinuation env req def status n).
Proof.
  intros st. unfold saveUnlessContinuation, saveCheckpoint, ret. by repeat case_match.
Qed.

Lemma keeps_beforeDispatch req def step attempt : keeps (beforeDispatch env req def step attempt).
Proof. intros st. unfold beforeDispatch. by repeat case_match. Qed.

Lemma keeps_callAdapter def step attempt : keeps (callAdapter env defaultStepTimeout def step attempt).
Proof. done. Qed.

Lemma keeps_ctxErr : keeps (ctxErr env).
Proof. done. Qed.

Lemma keeps_waitBackoff d : keeps (waitBackoff env d).
Proof. done. Qed.

#[local] Hint Resolve keeps_ret keeps_stop keeps_get keeps_then keeps_results keeps_order keeps_emitTimeline
  keeps_notify keeps_save keeps_beforeDispatch keeps_callAdapter keeps_ctxErr keeps_waitBackoff : keeps.

(** Parts in sequence, and the branches of a part. *)
#[local] Ltac keeps := repeat first [progress auto with keeps | apply keeps_then | progress intros | case_match].

Context (req : RunRequest) (def : WorkflowDefinition) (summary : graphCompileSummary).
Hypothesis resumed : rn_sourceContinuation req = true.

Lemma keeps_pauseAt step attempt p n : keeps (pauseAt env namespace req def summary step attempt p n).
Proof.
  unfold pauseAt, persistPausedResult. apply keeps_then; [keeps|]. intros _. apply keeps_then; [|keeps].
  intros st. unfold persistContinuation. rewrite resumed. by repeat case_match.
Qed.

#[local] Hint Resolve keeps_pauseAt : keeps.

Lemma keeps_attempts step m reason n remaining attempt :
  keeps (attempts env defaultStepTimeout namespace req def summary step m reason n remaining attempt).
Proof.
  revert attempt. induction remaining as [|k IH]; intros attempt; cbn [attempts]; unfold afterFailure, backoff; keeps.
Qed.

#[local] Hint Resolve keeps_attempts : keeps.

Lemma keeps_processSteps n l : keeps (processSteps env defaultStepTimeout namespace req def summary n l).
Proof. induction l as [|s l IH]; cbn [processSteps]; unfold processStep, notifyStep; keeps. Qed.

#[local] Hint Resolve keeps_processSteps : keeps.

Lemma keeps_rounds fuel n : keeps (rounds env defaultStepTimeout namespace req def summary fuel n).
Proof. induction fuel as [|fuel IH]; cbn [rounds]; keeps. Qed.

Lemma keeps_restoreSteps steps l : keeps (restoreSteps env req def steps l).
Proof. induction l as [|id l IH]; cbn [restoreSteps]; unfold restoreStep; keeps. Qed.

#[local] Hint Resolve keeps_rounds keeps_restoreSteps : keeps.

Lemma keeps_runSteps : keeps (runSteps env defaultStepTimeout namespace req def summary).
Proof. unfold runSteps, restore. keeps. Qed.
End keeps.

Lemma execute_keeps `{RangeOrder} `{WorkflowCodec} {CP CS : Type} `{CheckpointStore CP} `{ContinuationStore CS}
    env timeout namespace enabled req (checkpoints : option CP) (continuations : option CS) :
  rn_sourceContinuation req = true ->
  rs_continuations (execute env timeout namespace enabled req checkpoints continuations).1 = continuations.
Proof.
  intros Hs. unfold execute. destruct (compileDefinition _ _) as [su [def|e]]; [|done].
  destruct (ValidateDefinition def); [|done].
  pose proof (keeps_runSteps env timeout namespace req def su Hs
    (mkRunState (initialResults def) 0 [] [] checkpoints continuations)) as Hk.
  by destruct (runSteps _ _ _ _ _ _ _) as [st [out|r e]].
Qed.

(** ** One resume executes *)

Section once.
Context `{RangeOrder} `{WorkflowCodec} {CP : Type} `{CheckpointStore CP}.
Context (env : Environment) (timeout : Duration) (namespace : string) (enabled : bool).
Implicit Types (s : MemoryWorkflowContinuationStore).

Abbreviation resume := (ResumeContinuation env timeout namespace enabled).

Lemma executeFromContinuation_keeps c (checkpoints : option CP) s :
  re_store (executeFromContinuation env timeout namespace enabled c checkpoints s) = s.
Proof.
  unfold executeFromContinuation. destruct (_ || _); [done|].
  pose proof (execute_keeps env timeout namespace enabled (continuationRequest c) checkpoints (Some s) eq_refl) as Hk.
  destruct (execute _ _ _ _ _ _ _) as [st [out err]]. cbn in *. by rewrite Hk.
Qed.

(** The commit at the end of a resume keeps the claim, and stores the result when it
    succeeds. *)
Lemma commitResumed_claimed claim (r : Resumed (CP := CP)) p rec :
  let id := wr_CheckpointID (rq_Ref (wl_Request claim)) in
  let who := identity (wl_Request claim) in
  wf_store (re_store r) -> claimed id who None (re_store r) ->
  heldClaim (re_store r) claim = Some (rec, p, claim) -> wl_Result claim = None ->
  let r' := commitResumed claim r in
  wf_store (re_store r') /\ claimed id who None (re_store r')
  /\ (re_error r' = None -> claimed id who (Some (re_result r')) (re_store r')).
Proof.
  cbn zeta. intros Hw Hc Hh Hn. unfold commitResumed.
  destruct (commits (re_error r)) eqn:Ec; cbn [negb]; [|split_and!; [done | done|]; intros E; by rewrite E in Ec].
  assert (Hgen : forall next, let r' :=
      match csCommit claim (re_result r) next (re_store r) with
      | (store, (_, Some e)) => mkResumed store (re_checkpoints r) (re_calls r) zeroRunResult (Some (RunContinuation e))
      | (store, (_, None)) => mkResumed store (re_checkpoints r) (re_calls r) (re_result r) (re_error r)
      end in
    wf_store (re_store r') /\ claimed (wr_CheckpointID (rq_Ref (wl_Request claim))) (identity (wl_Request claim)) None (re_store r')
    /\ (re_error r' = None -> claimed (wr_CheckpointID (rq_Ref (wl_Request claim))) (identity (wl_Request claim)) (Some (re_result r')) (re_store r'))).
  { intros next. cbn zeta. cbn [csCommit memory_continuations].
    pose proof (apply_op_wf (OpCommit claim (re_result r) next) (re_store r) Hw) as Hw'.
    pose proof (apply_op_claimed (OpCommit claim (re_result r) next) (re_store r)
      (wr_CheckpointID (rq_Ref (wl_Request claim))) (identity (wl_Request claim)) None Hw) as Hc'.
    cbn [apply_op] in Hw', Hc'.
    destruct (memCommitResumeResultWithSuccessor _ _ _ _) as [s' [c [e|]]] eqn:Em; cbn in *;
      (split_and!; [done | apply Hc'; [destruct next; naive_solver | done] |]); [done|].
    intros _. destruct c as [c|]; [|by unfold memCommitResumeResultWithSuccessor, commitClaim in Em; repeat case_match].
    eapply commit_claimed; [exact Em|]. by eapply commit_stores. }
  destruct (rr_WorkflowCheckpoint (re_result r)) as [ref|], (rr_workflowSuccessor (re_result r)) as [next|]; try apply Hgen.
  split_and!; done.
Qed.

(** A resume that called something had claimed the continuation. *)
Lemma resume_claims request (checkpoints : option CP) s :
  let id := wr_CheckpointID (rq_Ref request) in
  let r := resume request checkpoints s in
  wf_store s -> re_calls r <> [] ->
  wf_store (re_store r) /\ claimed id (identity request) None (re_store r)
  /\ (re_error r = None -> claimed id (identity request) (Some (re_result r)) (re_store r)).
Proof.
  cbn zeta. intros Hw. unfold ResumeContinuation.
  cbn [csLoad csClaimResume csMarkResumeRunning memory_continuations].
  destruct (memLoad _ _ _) as [c|e]; [|done]. destruct (_ || _); [done|].
  destruct (negb (sameAuthority _ _)); [done|]. destruct (_ && _); [done|].
  destruct (memClaimResume _ _ _) as [s1 [[claim|] [e|]]] eqn:E1; try done.
  assert (Hd : wl_Duplicate claim = false \/ wl_Duplicate claim = true /\ is_Some (wl_Result claim)).
  { unfold memClaimResume in E1. repeat case_match; simplify_eq; cbn; eauto. }
  destruct Hd as [Hd|[Hd [res Hres]]]; [|by rewrite Hd, Hres]. rewrite Hd.
  destruct (memMarkResumeRunning _ _) as [s2 [[running|] [e|]]] eqn:E2; try done. intros _.
  destruct (fresh_claim _ _ _ _ _ Hw E1 Hd) as [W1 C1].
  pose proof (apply_op_wf (OpMarkResumeRunning claim) s1 W1) as W2.
  pose proof (apply_op_claimed (OpMarkResumeRunning claim) s1 _ _ _ W1 (fun f => f) C1) as C2.
  cbn [apply_op] in W2, C2. rewrite E2 in W2, C2. cbn [fst] in W2, C2.
  destruct (fresh_running _ _ _ _ _ _ _ E1 Hd E2) as (Hreq & Hnone & rec & p & Hheld).
  rewrite <-Hreq. rewrite <-Hreq in C2.
  eapply commitResumed_claimed; rewrite ?executeFromContinuation_keeps; done.
Qed.

(** A resume of a continuation that is claimed calls nothing and changes nothing. *)
Lemma resume_of_claimed request (checkpoints : option CP) s who res :
  claimed (wr_CheckpointID (rq_Ref request)) who res s ->
  let r := resume request checkpoints s in
  re_calls r = [] /\ re_store r = s /\ re_checkpoints r = checkpoints
  /\ (forall x, re_error r = None -> res = Some x -> re_result r = x).
Proof.
  cbn zeta. intros Hc. unfold ResumeContinuation.
  cbn [csLoad csClaimResume csMarkResumeRunning memory_continuations].
  destruct (memLoad _ _ _) as [c|e]; [|done]. destruct (_ || _); [done|].
  destruct (negb (sameAuthority _ _)); [done|]. destruct (_ && _); [done|].
  destruct (memClaimResume _ _ _) as [s1 [c1 e1]] eqn:E1.
  destruct (claimed_again _ _ _ _ _ _ _ _ Hc E1) as [-> Hagain].
  destruct e1 as [e|]; [by destruct c1|]. destruct (Hagain eq_refl) as (_ & c' & -> & Hd & [x Hx] & Hres).
  rewrite Hd, Hx. split_and!; try done. intros y _ Hy. apply Hres in Hy. cbn. congruence.
Qed.
End once.

(** C7: a continuation in the memory store is executed once, unless its record is replaced. When a resume called
    an adapter, a consumer or a pause controller, let any saves, claims, marks and commits follow on the store, of which no
    commit for another continuation stores its successor under the id of the resumed one: the store then puts
    a record without a claim in its place, and it can be executed again ([overwriting_commit_executes_again]).
    After them a resume of that continuation, by whatever request and in whatever environment, makes no
    call and changes neither store; when the first resume succeeded, one that succeeds returns
    the same result. *)
Theorem continuation_executes_once `{RangeOrder} `{WorkflowCodec} {CP : Type} `{CheckpointStore CP}
    env1 env2 timeout namespace enabled request1 request2 (cps1 cps2 : option CP) s (ops : list store_op) :
  let id := wr_CheckpointID (rq_Ref request1) in
  let r1 := ResumeContinuation env1 timeout namespace enabled request1 cps1 s in
  let s2 := foldl (fun s op => apply_op op s) (re_store r1) ops in
  let r2 := ResumeContinuation env2 timeout namespace enabled request2 cps2 s2 in
  wf_store s -> re_calls r1 <> [] -> wr_CheckpointID (rq_Ref request2) = id ->
  (forall claim res next, OpCommit claim res (Some next) ∈ ops -> wr_CheckpointID (wf_Ref next) = id ->
     wr_CheckpointID (rq_Ref (wl_Request claim)) = id) ->
  re_calls r2 = [] /\ re_store r2 = s2 /\ re_checkpoints r2 = cps2
  /\ (re_error r1 = None -> re_error r2 = None -> re_result r2 = re_result r1).
Proof.
  cbn zeta. intros Hw Hcalls Hid Hops. destruct (resume_claims _ _ _ _ _ _ _ Hw Hcalls) as (W1 & C1 & D1).
  assert (Hno : Forall (fun op => ~ overwrites (wr_CheckpointID (rq_Ref request1)) op) ops).
  { apply Forall_forall. intros [c|now req|claim|claim res [next|]] Hin; cbn; try tauto. intros [E Hne]. by eapply Hne, Hops. }
  pose proof (calls_evolve ops (re_store (ResumeContinuation env1 timeout namespace enabled request1 cps1 s)) _ Hno) as Hr.
  set (s2 := foldl _ _ ops) in *. clearbody s2. rewrite <-Hid in Hr, C1, D1. destruct (evolves_claimed _ _ _ _ _ Hr W1 C1) as [_ C2].
  destruct (resume_of_claimed env2 timeout namespace enabled request2 cps2 s2 _ _ C2) as (R1 & R2 & R3 & _).
  split_and!; try done. intros E1 E2. destruct (evolves_claimed _ _ _ _ _ Hr W1 (D1 E1)) as [_ D2].
  by eapply resume_of_claimed.
Qed.

(** The run pauses before the deployment and goes on from there. *)
Example demo_resumes :
  (demoPaused.2.2, sp_StepID <$> wd_Steps (wf_Definition demoContinuation), re_error (demoResume demoPausedStore),
   rr_WorkflowStatus (re_result (demoResume demoPausedStore)), rr_ExecutionOrder (re_result (demoResume demoPausedStore)))
  = (Some RunPaused, ["report"; "deploy"; "rollback"; "build"], None, "succeeded", ["deploy"; "rollback"; "report"]).
Proof. vm_compute. reflexivity. Qed.

(** The deployment was approved and resumed; another client then tries to claim it under another key. A second
    resume gets the result and deploys nothing. *)
Definition otherClaim : store_op :=
  OpClaimResume 3000 (mkWorkflowResumeRequest (rq_Ref demoResumeRequest) (rq_GraphDigest demoResumeRequest)
                        (rq_Generation demoResumeRequest) "other" "" "" "" "" "").

Lemma continuation_executes_once_witness :
  let r1 := demoResume demoPausedStore in
  let r2 := demoResume (apply_op otherClaim (re_store r1)) in
  re_calls r2 = [] /\ re_result r2 = re_result r1.
Proof.
  cbn zeta. unfold demoResume.
  destruct (continuation_executes_once (H := listing_order) (demoEnvironment true) (demoEnvironment true) Second "demo" false
    demoResumeRequest demoResumeRequest (@None MemoryCheckpointStore) None demoPausedStore [otherClaim] demo_wf) as (Hc & _ & _ & Hres).
  - vm_compute. discriminate.
  - reflexivity.
  - intros claim res next Hin. apply list_elem_of_singleton in Hin. unfold otherClaim in Hin. discriminate Hin.
  - split; [exact Hc|]. apply Hres; vm_compute; reflexivity.
Defined.

(** A successor of the paused run is saved and resumed, which deploys. Then the paused run, claimed before, is
    committed with this successor: its record is replaced, and the next resume deploys again. *)
Definition demoSuccessor : WorkflowContinuation :=
  match SealWorkflowContinuation (demoContinuation <| wf_Ref := demoEmptyRef <| wr_OwnerNamespace := "demo" |> |>
          <| wf_Generation := 2 |> <| wf_PredecessorCheckpointID := wr_CheckpointID (wf_Ref demoContinuation) |>) with
  | Ok c => c
  | Err _ => demoContinuation
  end.

Example overwriting_commit_executes_again :
  let resume := @ResumeContinuation listing_order _ MemoryCheckpointStore _ _ _ (demoEnvironment true) Second "demo" false
    (mkWorkflowResumeRequest (wf_Ref demoSuccessor) (rq_GraphDigest demoResumeRequest) 2 "key" "" "" "" "" "") None in
  let r1 := resume (apply_op (OpSave demoSuccessor) demoClaimed.1) in
  let commit := OpCommit demoClaim (demoResult <| rr_WorkflowCheckpoint := Some (wf_Ref demoSuccessor) |>) (Some demoSuccessor) in
  let r2 := resume (apply_op commit (re_store r1)) in
  re_error r1 = None /\ re_calls r1 <> [] /\ re_error r2 = None /\ re_calls r2 = re_calls r1.
Proof. vm_compute. by split_and!. Qed.
