(* ===== verification/AdapterHealth.v ===== *)
(** * Adapter health

    [adapter/health/health.go]: the runner that probes adapters, with a cache of
    results, a circuit breaker and a backoff for each target. Every method that holds
    the mutex is one step; a probe in progress holds none, so that the steps of
    several probes interleave. What the probe and its context did is an argument. *)
From S2P Require Import Prelude GoStrings GoNum GoTime.

Local Open Scope bool_scope.
Local Open Scope string_scope.
Local Open Scope Z_scope.

(** [Status] is an open string, normalised by [normalizeStatus]. *)
Definition StatusHealthy := "healthy".
Definition StatusDegraded := "degraded".
Definition StatusUnavailable := "unavailable".

Definition CodeHealthy := "adapter.health.healthy".
Definition CodeDegraded := "adapter.health.degraded".
Definition CodeUnavailable := "adapter.health.unavailable".
Definition CodeTargetNotFound := "adapter.health.target_not_found".
Definition CodeProbeTimeout := "adapter.health.probe_timeout".
Definition CodeProbeFailed := "adapter.health.probe_failed".
Definition CodeUnknownStatus := "adapter.health.unknown_status".
Definition CodeBackoffThrottle := "adapter.health.backoff_throttled".
Definition CodeCircuitOpen := "adapter.health.circuit_open".
Definition CodeCircuitHalfOpen := "adapter.health.circuit_half_open".
Definition CodeCircuitRecover := "adapter.health.circuit_recovered".
Definition CodeHalfOpenReject := "adapter.health.half_open_probe_rejected".

Definition DefaultProbeTimeout : Duration := 500 * Millisecond.
Definition DefaultCacheTTL : Duration := 30 * Second.
Definition DefaultBackoffInitial : Duration := 200 * Millisecond.
Definition DefaultBackoffMax : Duration := 5 * Second.
Definition DefaultBackoffMul : f64 := f64_two.
Definition DefaultBackoffJitter : f64 := f64_0_2.
Definition DefaultCircuitFailureThreshold : Z := 3.
Definition DefaultCircuitOpenDuration : Duration := 30 * Second.
Definition DefaultCircuitHalfOpenMaxProbe : Z := 1.
Definition DefaultCircuitHalfOpenSuccessTrigger : Z := 2.

(** The zero value stands for a target that was never looked at. *)
Inductive CircuitState : Type :=
| CircuitStateUnset
| CircuitStateClosed
| CircuitStateOpen
| CircuitStateHalfOpen.

#[export] Instance CircuitState_eq_dec : EqDecision CircuitState.
Proof. solve_decision. Defined.

Definition CircuitState_string (c : CircuitState) : string :=
  match c with
  | CircuitStateUnset => ""
  | CircuitStateClosed => "closed"
  | CircuitStateOpen => "open"
  | CircuitStateHalfOpen => "half_open"
  end.

Record BackoffOptions : Type := mkBackoffOptions {
  bk_Enabled : bool;
  bk_Initial : Duration;
  bk_Max : Duration;
  bk_Multiplier : f64;
  bk_JitterRatio : f64
}.
#[export] Instance eta_BackoffOptions : Settable BackoffOptions := fun r =>
  mkBackoffOptions (bk_Enabled r) (bk_Initial r) (bk_Max r) (bk_Multiplier r) (bk_JitterRatio r).

Record CircuitOptions : Type := mkCircuitOptions {
  ci_Enabled : bool;
  ci_FailureThreshold : Z;
  ci_OpenDuration : Duration;
  ci_HalfOpenMaxProbe : Z;
  ci_HalfOpenSuccessThreshold : Z
}.

Record GovernanceSnapshot : Type := mkGovernanceSnapshot {
  go_BackoffAppliedTotal : Z;
  go_CircuitOpenTotal : Z;
  go_CircuitHalfOpenTotal : Z;
  go_CircuitRecoverTotal : Z;
  go_CircuitState : string;
  go_PrimaryCode : string
}.
#[export] Instance eta_GovernanceSnapshot : Settable GovernanceSnapshot := fun r =>
  mkGovernanceSnapshot (go_BackoffAppliedTotal r) (go_CircuitOpenTotal r) (go_CircuitHalfOpenTotal r)
    (go_CircuitRecoverTotal r) (go_CircuitState r) (go_PrimaryCode r).
Definition zeroGovernanceSnapshot : GovernanceSnapshot := mkGovernanceSnapshot 0 0 0 0 "" "".

(** [Result]; a nil map of metadata and an empty one are told apart nowhere. *)
Record HealthResult : Type := mkHealthResult {
  hr_Status : string;
  hr_Code : string;
  hr_Message : string;
  hr_Metadata : any_map;
  hr_Governance : GovernanceSnapshot;
  hr_CheckedAt : Time
}.
#[export] Instance eta_HealthResult : Settable HealthResult := fun r =>
  mkHealthResult (hr_Status r) (hr_Code r) (hr_Message r) (hr_Metadata r) (hr_Governance r) (hr_CheckedAt r).

Record RunnerOptions : Type := mkRunnerOptions {
  ro_ProbeTimeout : Duration;
  ro_CacheTTL : Duration;
  ro_Backoff : BackoffOptions;
  ro_Circuit : CircuitOptions
}.

#[export] Instance eta_RunnerOptions : Settable RunnerOptions := fun r =>
  mkRunnerOptions (ro_ProbeTimeout r) (ro_CacheTTL r) (ro_Backoff r) (ro_Circuit r).

Record cacheEntry : Type := mkCacheEntry {
  ce_result : HealthResult;
  ce_expiresAt : Time
}.

Record targetGovernanceState : Type := mkTargetGovernanceState {
  tg_CircuitState : CircuitState;
  tg_ConsecutiveFails : Z;
  tg_HalfOpenSuccess : Z;
  tg_HalfOpenInFlight : Z;
  tg_OpenUntil : Time;
  tg_NextProbeAt : Time;
  tg_BackoffFailCount : Z;
  tg_BackoffAppliedTotal : Z;
  tg_CircuitOpenTotal : Z;
  tg_CircuitHalfOpenTotal : Z;
  tg_CircuitRecoverTotal : Z;
  tg_PrimaryCode : string
}.
#[export] Instance eta_targetGovernanceState : Settable targetGovernanceState := fun r =>
  mkTargetGovernanceState (tg_CircuitState r) (tg_ConsecutiveFails r) (tg_HalfOpenSuccess r)
    (tg_HalfOpenInFlight r) (tg_OpenUntil r) (tg_NextProbeAt r) (tg_BackoffFailCount r)
    (tg_BackoffAppliedTotal r) (tg_CircuitOpenTotal r) (tg_CircuitHalfOpenTotal r)
    (tg_CircuitRecoverTotal r) (tg_PrimaryCode r).
Definition zeroGovernanceState : targetGovernanceState :=
  mkTargetGovernanceState CircuitStateUnset 0 0 0 0 0 0 0 0 0 0 "".

(** [Runner]. *)
Record HealthRunner : Type := mkHealthRunner {
  hu_opts : RunnerOptions;
  hu_entries : gmap string cacheEntry;
  hu_states : gmap string targetGovernanceState
}.
#[export] Instance eta_HealthRunner : Settable HealthRunner := fun r =>
  mkHealthRunner (hu_opts r) (hu_entries r) (hu_states r).

(** ** Options *)

Definition normalizeBackoff (o : BackoffOptions) : BackoffOptions :=
  if bk_Enabled o then
    let o := if bk_Initial o <=? 0 then o <| bk_Initial := DefaultBackoffInitial |> else o in
    let o := if bk_Max o <? bk_Initial o then o <| bk_Max := DefaultBackoffMax |> else o in
    let o := if f64_leb (bk_Multiplier o) f64_one then o <| bk_Multiplier := DefaultBackoffMul |> else o in
    if f64_ltb (bk_JitterRatio o) f64_zero || f64_ltb f64_one (bk_JitterRatio o)
    then o <| bk_JitterRatio := DefaultBackoffJitter |> else o
  else o.

Definition orDefault (x d : Z) : Z := if x <=? 0 then d else x.

Definition normalizeCircuit (o : CircuitOptions) : CircuitOptions :=
  if ci_Enabled o then
    mkCircuitOptions true (orDefault (ci_FailureThreshold o) DefaultCircuitFailureThreshold)
      (orDefault (ci_OpenDuration o) DefaultCircuitOpenDuration)
      (orDefault (ci_HalfOpenMaxProbe o) DefaultCircuitHalfOpenMaxProbe)
      (orDefault (ci_HalfOpenSuccessThreshold o) DefaultCircuitHalfOpenSuccessTrigger)
  else o.

Definition normalizeOptions (o : RunnerOptions) : RunnerOptions :=
  mkRunnerOptions (orDefault (ro_ProbeTimeout o) DefaultProbeTimeout) (orDefault (ro_CacheTTL o) DefaultCacheTTL)
    (normalizeBackoff (ro_Backoff o)) (normalizeCircuit (ro_Circuit o)).

Definition governanceEnabled (o : RunnerOptions) : bool := bk_Enabled (ro_Backoff o) || ci_Enabled (ro_Circuit o).

Definition NewRunner (o : RunnerOptions) : HealthRunner := mkHealthRunner (normalizeOptions o) ∅ ∅.

Definition UpdateOptions (o : RunnerOptions) (r : HealthRunner) : HealthRunner :=
  r <| hu_opts := normalizeOptions o |>.

(** ** Results *)

Definition normalizeStatus (s : string) : string :=
  let x := lower_trim s in
  if bool_decide (x ∈ [StatusHealthy; StatusDegraded; StatusUnavailable]) then x else "".

Definition normalizeGovernance (g : GovernanceSnapshot) : GovernanceSnapshot :=
  g <| go_CircuitState ::= lower_trim |> <| go_PrimaryCode ::= TrimSpace |>.

Definition orString (s d : string) : string := if s =s? "" then d else s.

Definition normalizeResult (x : HealthResult) (fallbackCheckedAt : Time) : HealthResult :=
  let status := normalizeStatus (hr_Status x) in
  let code := TrimSpace (hr_Code x) in
  let message := TrimSpace (hr_Message x) in
  let at_ := if IsZero (hr_CheckedAt x) then fallbackCheckedAt else hr_CheckedAt x in
  let out status code message metadata :=
    mkHealthResult status code message metadata (normalizeGovernance (hr_Governance x)) at_ in
  if status =s? StatusHealthy then
    out status (orString code CodeHealthy) (orString message "adapter is healthy") (hr_Metadata x)
  else if status =s? StatusDegraded then
    out status (orString code CodeDegraded) (orString message "adapter is degraded") (hr_Metadata x)
  else if negb (status =s? StatusUnavailable) then
    out StatusUnavailable CodeUnknownStatus "adapter probe returned unknown status"
      (<["raw_status" := AnyString (TrimSpace (ToLower (hr_Status x)))]> (hr_Metadata x))
  else
    out StatusUnavailable (orString code CodeUnavailable) (orString message "adapter is unavailable") (hr_Metadata x).

Definition unavailableResult (code message : string) (metadata : any_map) (checkedAt : Time) : HealthResult :=
  normalizeResult (mkHealthResult StatusUnavailable code message metadata zeroGovernanceSnapshot checkedAt) checkedAt.

Definition snapshotGovernance (st : targetGovernanceState) (o : RunnerOptions) : GovernanceSnapshot :=
  normalizeGovernance
    (mkGovernanceSnapshot (tg_BackoffAppliedTotal st) (tg_CircuitOpenTotal st) (tg_CircuitHalfOpenTotal st)
       (tg_CircuitRecoverTotal st)
       (if ci_Enabled (ro_Circuit o)
        then CircuitState_string (if decide (tg_CircuitState st = CircuitStateUnset) then CircuitStateClosed
                                  else tg_CircuitState st)
        else "")
       (TrimSpace (tg_PrimaryCode st))).

Definition applyGovernanceSnapshot (x : HealthResult) (g : GovernanceSnapshot) : HealthResult :=
  let out := normalizeResult x (hr_CheckedAt x) in
  let g := normalizeGovernance g in
  let m := <["governance_circuit_recover_total" := AnyInt (go_CircuitRecoverTotal g)]>
             (<["governance_circuit_half_open_total" := AnyInt (go_CircuitHalfOpenTotal g)]>
                (<["governance_circuit_open_total" := AnyInt (go_CircuitOpenTotal g)]>
                   (<["governance_backoff_applied_total" := AnyInt (go_BackoffAppliedTotal g)]> (hr_Metadata out)))) in
  let m := if negb (TrimSpace (go_CircuitState g) =s? "")
           then <["governance_circuit_state" := AnyString (go_CircuitState g)]> m else m in
  let m := if negb (TrimSpace (go_PrimaryCode g) =s? "")
           then <["governance_primary_code" := AnyString (go_PrimaryCode g)]> m else m in
  out <| hr_Governance := g |> <| hr_Metadata := m |>.

(** ** Backoff *)

(** The value after [n] more failures, capped; a capped value stays. *)
Fixpoint growBackoff (n : nat) (multiplier maxVal value : f64) : f64 :=
  match n with
  | O => value
  | S n =>
      let value := f64_mul value multiplier in
      if f64_leb maxVal value then maxVal else growBackoff n multiplier maxVal value
  end.

Definition computeBackoffDelay (target : string) (failures : Z) (cfg : BackoffOptions) : Duration :=
  if failures <=? 0 then bk_Initial cfg
  else
    let base := f64_of_Z (bk_Initial cfg) in
    let maxVal := f64_of_Z (bk_Max cfg) in
    let base := if f64_leb base f64_zero then f64_of_Z DefaultBackoffInitial else base in
    let maxVal := if f64_ltb maxVal base then f64_of_Z DefaultBackoffMax else maxVal in
    let multiplier := if f64_leb (bk_Multiplier cfg) f64_one then DefaultBackoffMul else bk_Multiplier cfg in
    let value := growBackoff (Z.to_nat (failures - 1)) multiplier maxVal base in
    let value :=
      if f64_ltb f64_zero (bk_JitterRatio cfg) then
        let unit_ := f64_div (f64_of_Z (fnv32a (target +:+ ":" +:+ itoa failures) mod 10000)) (f64_of_Z 9999) in
        let scale := f64_add f64_one (f64_mul (f64_sub (f64_mul unit_ f64_two) f64_one) (bk_JitterRatio cfg)) in
        f64_mul value scale
      else value in
    let value := f64_max base value in
    let value := f64_min maxVal value in
    f64_to_i64 (if f64_ltb value f64_zero then f64_zero else value).

(** ** Before a probe *)

Definition stateOf (r : HealthRunner) (target : string) : targetGovernanceState :=
  default zeroGovernanceState (hu_states r !! target).

Definition putState (target : string) (st : targetGovernanceState) (r : HealthRunner) : HealthRunner :=
  r <| hu_states ::= <[target := st]> |>.

(** A probe goes ahead, with or without a reservation, or is blocked. *)
Inductive admission : Type :=
| Allowed (reserved : bool)
| Blocked (res : HealthResult).

(** The circuit as the next probe finds it. *)
Definition circuitBefore (now : Time) (st : targetGovernanceState) : targetGovernanceState :=
  let st := if decide (tg_CircuitState st = CircuitStateUnset)
            then st <| tg_CircuitState := CircuitStateClosed |> else st in
  if bool_decide (tg_CircuitState st = CircuitStateOpen) && negb (IsZero (tg_OpenUntil st))
     && negb (Before now (tg_OpenUntil st))
  then st <| tg_CircuitState := CircuitStateHalfOpen |>
          <| tg_HalfOpenSuccess := 0 |>
          <| tg_HalfOpenInFlight := 0 |>
          <| tg_CircuitHalfOpenTotal ::= Z.succ |>
          <| tg_PrimaryCode := CodeCircuitHalfOpen |>
  else st.

Definition blockedResult (code message : string) (metadata : any_map) (now : Time) (st : targetGovernanceState)
    (o : RunnerOptions) : HealthResult :=
  applyGovernanceSnapshot (unavailableResult code message metadata now) (snapshotGovernance st o).

Definition beforeProbeGovernance (target : string) (now : Time) (o : RunnerOptions) (r : HealthRunner)
  : HealthRunner * admission :=
  let circuit := ci_Enabled (ro_Circuit o) in
  let st := if circuit then circuitBefore now (stateOf r target) else stateOf r target in
  let blocked code message metadata := (putState target st r, Blocked (blockedResult code message metadata now st o)) in
  let meta : any_map := {[ "target" := AnyString target ]} in
  if circuit && bool_decide (tg_CircuitState st = CircuitStateOpen) && Before now (tg_OpenUntil st) then
    blocked CodeCircuitOpen "adapter probe skipped while circuit is open"
      (if IsZero (tg_OpenUntil st) then meta
       else <["open_until" := AnyString (FormatRFC3339Nano (tg_OpenUntil st))]> meta)
  else if circuit && bool_decide (tg_CircuitState st = CircuitStateHalfOpen)
          && (0 <? ci_HalfOpenMaxProbe (ro_Circuit o)) && (ci_HalfOpenMaxProbe (ro_Circuit o) <=? tg_HalfOpenInFlight st)
  then
    blocked CodeHalfOpenReject "half-open probe budget exhausted"
      (<["half_open_max_probe" := AnyInt (ci_HalfOpenMaxProbe (ro_Circuit o))]> meta)
  else if bk_Enabled (ro_Backoff o) && negb (IsZero (tg_NextProbeAt st)) && Before now (tg_NextProbeAt st) then
    blocked CodeBackoffThrottle "adapter probe skipped due backoff throttle"
      (<["next_probe_after_ms" := AnyInt (Milliseconds (TimeSub (tg_NextProbeAt st) now))]> meta)
  else if circuit && bool_decide (tg_CircuitState st = CircuitStateHalfOpen) then
    (putState target (st <| tg_HalfOpenInFlight ::= Z.succ |>) r, Allowed true)
  else (putState target st r, Allowed false).

(** ** After a probe *)

(** The circuit opens. *)
Definition openCircuit (now : Time) (o : CircuitOptions) (st : targetGovernanceState) : targetGovernanceState :=
  st <| tg_CircuitState := CircuitStateOpen |>
     <| tg_OpenUntil := TimeAdd now (ci_OpenDuration o) |>
     <| tg_HalfOpenSuccess := 0 |>
     <| tg_CircuitOpenTotal ::= Z.succ |>
     <| tg_PrimaryCode := CodeCircuitOpen |>.

Definition halfOpenAfter (status : string) (now : Time) (o : CircuitOptions) (st : targetGovernanceState)
  : targetGovernanceState :=
  if status =s? StatusHealthy then
    let st := st <| tg_HalfOpenSuccess ::= Z.succ |> in
    if ci_HalfOpenSuccessThreshold o <=? tg_HalfOpenSuccess st
    then st <| tg_CircuitState := CircuitStateClosed |> <| tg_ConsecutiveFails := 0 |> <| tg_HalfOpenSuccess := 0 |>
            <| tg_OpenUntil := 0 |> <| tg_CircuitRecoverTotal ::= Z.succ |> <| tg_PrimaryCode := CodeCircuitRecover |>
    else st <| tg_PrimaryCode := CodeCircuitHalfOpen |>
  else if status =s? StatusUnavailable then openCircuit now o st <| tg_ConsecutiveFails := 0 |>
  else st <| tg_PrimaryCode := CodeCircuitHalfOpen |>.

Definition closedAfter (status : string) (now : Time) (o : CircuitOptions) (st : targetGovernanceState)
  : targetGovernanceState :=
  if status =s? StatusUnavailable then
    let st := st <| tg_ConsecutiveFails ::= Z.succ |> in
    if ci_FailureThreshold o <=? tg_ConsecutiveFails st then openCircuit now o st else st
  else if (status =s? StatusHealthy) || (status =s? StatusDegraded) then st <| tg_ConsecutiveFails := 0 |>
  else st.

Definition circuitAfter (status : string) (now : Time) (o : CircuitOptions) (st : targetGovernanceState)
  : targetGovernanceState :=
  match tg_CircuitState st with
  | CircuitStateOpen =>
      if negb (IsZero (tg_OpenUntil st)) && negb (Before now (tg_OpenUntil st))
      then st <| tg_CircuitState := CircuitStateHalfOpen |> <| tg_HalfOpenSuccess := 0 |>
              <| tg_CircuitHalfOpenTotal ::= Z.succ |> <| tg_PrimaryCode := CodeCircuitHalfOpen |>
      else st
  | CircuitStateHalfOpen => halfOpenAfter status now o st
  | _ => closedAfter status now o st
  end.

Definition backoffAfter (target status : string) (now : Time) (o : BackoffOptions) (st : targetGovernanceState)
  : targetGovernanceState :=
  if status =s? StatusUnavailable then
    let st := st <| tg_BackoffFailCount ::= Z.succ |> in
    let st := st <| tg_NextProbeAt := TimeAdd now (computeBackoffDelay target (tg_BackoffFailCount st) o) |>
                 <| tg_BackoffAppliedTotal ::= Z.succ |> in
    if TrimSpace (tg_PrimaryCode st) =s? "" then st <| tg_PrimaryCode := CodeBackoffThrottle |> else st
  else st <| tg_BackoffFailCount := 0 |> <| tg_NextProbeAt := 0 |>.

(** The state after a probe with that status. *)
Definition governed (target status : string) (now : Time) (o : RunnerOptions) (reserved : bool)
    (st : targetGovernanceState) : targetGovernanceState :=
  let circuit := ci_Enabled (ro_Circuit o) in
  let st := if circuit && bool_decide (tg_CircuitState st = CircuitStateUnset)
            then st <| tg_CircuitState := CircuitStateClosed |> else st in
  let st := if reserved && (0 <? tg_HalfOpenInFlight st) then st <| tg_HalfOpenInFlight ::= Z.pred |> else st in
  let st := if circuit then circuitAfter status now (ro_Circuit o) st else st in
  if bk_Enabled (ro_Backoff o) then backoffAfter target status now (ro_Backoff o) st else st.

Definition afterProbeGovernance (target : string) (now : Time) (x : HealthResult) (o : RunnerOptions) (reserved : bool)
    (r : HealthRunner) : HealthRunner * HealthResult :=
  let out := normalizeResult x now in
  let st := governed target (normalizeStatus (hr_Status out)) now o reserved (stateOf r target) in
  (putState target st r, applyGovernanceSnapshot out (snapshotGovernance st o)).

(** ** The cache *)

Definition loadCached (target : string) (now : Time) (r : HealthRunner) : option HealthResult :=
  match hu_entries r !! target with
  | Some e => if After now (ce_expiresAt e) then None
              else Some (ce_result e <| hr_Metadata ::= <["cache_hit" := AnyBool true]> |>)
  | None => None
  end.

Definition loadCachedGoverned (target : string) (now : Time) (o : RunnerOptions) (r : HealthRunner)
  : option HealthResult :=
  if negb (governanceEnabled o) then loadCached target now r
  else
    let g := snapshotGovernance (stateOf r target) o in
    if bool_decide (TrimSpace (go_CircuitState g)
                    ∈ [CircuitState_string CircuitStateOpen; CircuitState_string CircuitStateHalfOpen]) then None
    else (fun out => applyGovernanceSnapshot out g) <$> loadCached target now r.

Definition storeCached (target : string) (x : HealthResult) (expiresAt : Time) (r : HealthRunner) : HealthRunner :=
  r <| hu_entries ::= <[target := mkCacheEntry (normalizeResult x (hr_CheckedAt x)) expiresAt]> |>.

Definition shouldCacheResult (x : HealthResult) (o : RunnerOptions) : bool :=
  negb (governanceEnabled o)
  || negb (TrimSpace (go_CircuitState (hr_Governance x)) =s? CircuitState_string CircuitStateOpen).

(** ** A probe *)

(** What the probe answered, or that its context ended first. *)
Inductive ProbeOutcome : Type :=
| ProbeReturned (res : HealthResult)
| ProbeError (msg : string)
| ProbeTimedOut
| ProbeCanceled.

Definition executeProbe (target : string) (outcome : ProbeOutcome) (timeout : Duration) (now : Time) : HealthResult :=
  let meta : any_map := {[ "target" := AnyString target ]} in
  match outcome with
  | ProbeTimedOut =>
      unavailableResult CodeProbeTimeout ("adapter health probe timed out after " +:+ Duration_String timeout) meta now
  | ProbeCanceled =>
      unavailableResult CodeProbeFailed "adapter health probe canceled"
        (<["error" := AnyString "context canceled"]> meta) now
  | ProbeError msg =>
      unavailableResult CodeProbeFailed "adapter health probe failed"
        (<["error" := AnyString (TrimSpace msg)]> meta) now
  | ProbeReturned res => normalizeResult res now
  end.

(** What follows the probe. *)
Definition finishProbe (target : string) (now : Time) (o : RunnerOptions) (reserved : bool) (outcome : ProbeOutcome)
    (r : HealthRunner) : HealthRunner * HealthResult :=
  let out := executeProbe target outcome (ro_ProbeTimeout o) now in
  let '(r, out) := if governanceEnabled o then afterProbeGovernance target now out o reserved r else (r, out) in
  let r := if (0 <? ro_CacheTTL o) && shouldCacheResult out o
           then storeCached target out (TimeAdd now (ro_CacheTTL o)) r else r in
  (r, out).

(** [Runner.Probe] without interference; [probe] is [None] for a nil probe. Also
    whether the probe was called. *)
Definition Probe (target : string) (now : Time) (probe : option ProbeOutcome) (r : HealthRunner)
  : HealthRunner * HealthResult * bool :=
  let target := lower_trim target in
  let missing := (r, unavailableResult CodeTargetNotFound "adapter health target is not registered"
                       {[ "target" := AnyString target ]} now, false) in
  if target =s? "" then missing
  else match probe with
  | None => missing
  | Some outcome =>
      let o := hu_opts r in
      match loadCachedGoverned target now o r with
      | Some cached => (r, cached, false)
      | None =>
          if governanceEnabled o then
            match beforeProbeGovernance target now o r with
            | (r, Blocked res) => (r, res, false)
            | (r, Allowed reserved) => (finishProbe target now o reserved outcome r, true)
            end
          else (finishProbe target now o false outcome r, true)
      end
  end.
