(* ===== verification/AdapterHealthProps.v ===== *)
(** * Adapter health: the theorems

    Whatever the interleaving of probes and option updates: the counters of the
    circuit breaker agree with its state, and an open circuit admits nothing before
    its time. The circuit opens exactly at the configured number of failures in a
    row, and the backoff stays within its limits. *)
From S2P Require Import Prelude GoStrings GoNum GoTime AdapterHealth.

Local Open Scope bool_scope.
Local Open Scope string_scope.
Local Open Scope list_scope.
Local Open Scope Z_scope.

(** ** Interleavings

    The steps of the runner that change it. The options of a step are those its probe
    read when it began, hence any. *)
Inductive health_event : Type :=
| EvUpdate (o : RunnerOptions)
| EvBefore (target : string) (now : Time) (o : RunnerOptions)
| EvAfter (target : string) (now : Time) (x : HealthResult) (o : RunnerOptions) (reserved : bool)
| EvStore (target : string) (x : HealthResult) (expiresAt : Time).

Definition apply_event (r : HealthRunner) (e : health_event) : HealthRunner :=
  match e with
  | EvUpdate o => UpdateOptions o r
  | EvBefore target now o => (beforeProbeGovernance target now o r).1
  | EvAfter target now x o reserved => (afterProbeGovernance target now x o reserved r).1
  | EvStore target x expiresAt => storeCached target x expiresAt r
  end.

Abbreviation run_events := (foldl apply_event).

Lemma stateOf_put target st r t :
  stateOf (putState target st r) t = if decide (target = t) then st else stateOf r t.
Proof.
  unfold stateOf, putState. cbn. destruct (decide (target = t)) as [->|Hne];
    [by rewrite lookup_insert_eq | by rewrite lookup_insert_ne].
Qed.

(** The state of the target before it is reserved. *)
Definition enteredState (now : Time) (o : RunnerOptions) (st : targetGovernanceState) : targetGovernanceState :=
  if ci_Enabled (ro_Circuit o) then circuitBefore now st else st.

(** What a probe finds, and the reservation it may make. *)
Lemma before_state target now o r :
  let st := enteredState now o (stateOf r target) in
  let out := beforeProbeGovernance target now o r in
  match out.2 with
  | Allowed true => out.1 = putState target (st <| tg_HalfOpenInFlight ::= Z.succ |>) r
                    /\ tg_CircuitState st = CircuitStateHalfOpen
                    /\ (0 < ci_HalfOpenMaxProbe (ro_Circuit o) -> tg_HalfOpenInFlight st < ci_HalfOpenMaxProbe (ro_Circuit o))
  | Allowed false | Blocked _ => out.1 = putState target st r
  end.
Proof.
  cbn zeta. unfold beforeProbeGovernance. fold (enteredState now o (stateOf r target)).
  set (st := enteredState now o (stateOf r target)).
  destruct (ci_Enabled (ro_Circuit o)); cbn [andb];
    repeat case_match; simplify_eq; cbn [fst snd] in *; simplify_eq; try done.
  all: repeat match goal with H : _ && _ = true |- _ => apply andb_true_iff in H as [? ?]
    | H : bool_decide _ = true |- _ => apply bool_decide_eq_true in H end.
  all: split_and!; try done.
  all: intros Hm; repeat match goal with H : _ && _ = false |- _ => apply andb_false_iff in H as [?|?] end;
    repeat match goal with H : bool_decide _ = false |- _ => apply bool_decide_eq_false in H end;
    rewrite ?Z.ltb_ge, ?Z.leb_gt in *; try done; lia.
Qed.

(** ** Counters *)

Definition opened (c : CircuitState) : Z := match c with CircuitStateOpen => 1 | _ => 0 end.
Definition tripped (c : CircuitState) : Z :=
  match c with CircuitStateOpen | CircuitStateHalfOpen => 1 | _ => 0 end.

(** The counters of a target, and what they say about its circuit. *)
Record circuit_ok (st : targetGovernanceState) : Prop := {
  co_open : tg_CircuitOpenTotal st = tg_CircuitHalfOpenTotal st + opened (tg_CircuitState st);
  co_recover : 0 <= tg_CircuitRecoverTotal st /\ tg_CircuitRecoverTotal st + tripped (tg_CircuitState st) <= tg_CircuitOpenTotal st;
  co_inflight : 0 <= tg_HalfOpenInFlight st;
  co_success : 0 <= tg_HalfOpenSuccess st;
  co_fails : 0 <= tg_ConsecutiveFails st
}.

Lemma circuit_zero : circuit_ok zeroGovernanceState.
Proof. split; cbn; lia. Qed.

Lemma circuit_before now st : circuit_ok st -> circuit_ok (circuitBefore now st).
Proof.
  intros [H1 H2 H3 H4 H5]. unfold circuitBefore.
  destruct (tg_CircuitState st) eqn:E; destruct (decide _) as [?|_]; try done; cbn; rewrite ?E.
  all: case_bool_decide as Eb; cbn [andb]; try done; try destruct (_ && _).
  all: split; cbn; rewrite ?E in *; cbn in *; try done; lia.
Qed.

Lemma circuit_entered now o st : circuit_ok st -> circuit_ok (enteredState now o st).
Proof. unfold enteredState. destruct (ci_Enabled _); [apply circuit_before | done]. Qed.

Lemma circuit_after status now o st : circuit_ok st -> circuit_ok (circuitAfter status now o st).
Proof.
  intros [H1 H2 H3 H4 H5]. unfold circuitAfter, halfOpenAfter, closedAfter, openCircuit.
  destruct (tg_CircuitState st) eqn:E; rewrite ?E in *; repeat case_match;
    split; cbn -[Z.add] in *; rewrite ?E in *; cbn -[Z.add] in *; lia.
Qed.

Lemma backoff_keeps target status now o st :
  let st' := backoffAfter target status now o st in
  tg_CircuitState st' = tg_CircuitState st /\ tg_OpenUntil st' = tg_OpenUntil st
  /\ tg_HalfOpenInFlight st' = tg_HalfOpenInFlight st /\ tg_ConsecutiveFails st' = tg_ConsecutiveFails st
  /\ (circuit_ok st -> circuit_ok st').
Proof.
  cbn zeta. unfold backoffAfter. repeat case_match; split_and!; try done.
  all: intros [H1 H2 H3 H4 H5]; by split.
Qed.

(** What a probe does before the circuit looks at its status. *)
Definition returned (o : RunnerOptions) (reserved : bool) (st : targetGovernanceState) : targetGovernanceState :=
  let st := if ci_Enabled (ro_Circuit o) && bool_decide (tg_CircuitState st = CircuitStateUnset)
            then st <| tg_CircuitState := CircuitStateClosed |> else st in
  if reserved && (0 <? tg_HalfOpenInFlight st) then st <| tg_HalfOpenInFlight ::= Z.pred |> else st.

Lemma circuit_returned o reserved st : circuit_ok st -> circuit_ok (returned o reserved st).
Proof.
  intros [H1 H2 H3 H4 H5]. unfold returned.
  assert (Hc : circuit_ok (if ci_Enabled (ro_Circuit o) && bool_decide (tg_CircuitState st = CircuitStateUnset)
                           then st <| tg_CircuitState := CircuitStateClosed |> else st)).
  { destruct (ci_Enabled _); cbn [andb]; [|done]. case_bool_decide as E; [|done]. rewrite E in *. by split. }
  clear H1 H2 H3 H4 H5. set (st1 := if _ && _ then _ else st) in *. destruct Hc as [H1 H2 H3 H4 H5].
  destruct (reserved && _) eqn:Er; [|done]. apply andb_true_iff in Er as [_ Er%Z.ltb_lt].
  split; cbn; try done. lia.
Qed.

Lemma circuit_governed target status now o reserved st :
  circuit_ok st -> circuit_ok (governed target status now o reserved st).
Proof.
  intros Hok. unfold governed. fold (returned o reserved st). pose proof (circuit_returned o reserved st Hok) as H1.
  destruct (ci_Enabled (ro_Circuit o)); destruct (bk_Enabled (ro_Backoff o)); try apply backoff_keeps;
    try apply circuit_after; done.
Qed.

Lemma apply_event_ok r e :
  (forall t, circuit_ok (stateOf r t)) -> forall t, circuit_ok (stateOf (apply_event r e) t).
Proof.
  intros Hok t. destruct e as [o|target now o|target now x o reserved|target x u]; cbn [apply_event].
  - apply Hok.
  - pose proof (before_state target now o r) as Hb. cbn zeta in Hb.
    pose proof (circuit_entered now o _ (Hok target)) as He.
    destruct (beforeProbeGovernance target now o r).2 as [[]|]; [destruct Hb as [-> _]| rewrite Hb..];
      rewrite stateOf_put; case_decide; try apply Hok; try done.
    destruct He as [H1 H2 H3 H4 H5]. split; cbn; try done. lia.
  - cbn. rewrite stateOf_put. case_decide; [by apply circuit_governed | apply Hok].
  - apply Hok.
Qed.

Lemma run_events_ok evs r :
  (forall t, circuit_ok (stateOf r t)) -> forall t, circuit_ok (stateOf (run_events r evs) t).
Proof. revert r. induction evs as [|e evs IH]; intros r Hok; cbn; [done|]. by apply IH, apply_event_ok. Qed.

(** Whatever probes and option updates interleave, the counters of a circuit breaker
    agree with its state: it opened once more often than it half-opened exactly
    while it is open, it recovered less often than it opened, strictly while it is
    not closed, and no counter is negative. *)
Theorem circuit_counters_agree o evs target :
  let st := stateOf (run_events (NewRunner o) evs) target in
  tg_CircuitOpenTotal st = tg_CircuitHalfOpenTotal st
                           + (if decide (tg_CircuitState st = CircuitStateOpen) then 1 else 0)
  /\ 0 <= tg_CircuitRecoverTotal st <= tg_CircuitOpenTotal st
  /\ (tg_CircuitState st = CircuitStateOpen \/ tg_CircuitState st = CircuitStateHalfOpen ->
      tg_CircuitRecoverTotal st < tg_CircuitOpenTotal st)
  /\ 0 <= tg_HalfOpenInFlight st /\ 0 <= tg_ConsecutiveFails st /\ 0 <= tg_HalfOpenSuccess st.
Proof.
  cbn zeta. destruct (run_events_ok evs (NewRunner o)) with (t := target) as [H1 H2 H3 H4 H5].
  { intros t. apply circuit_zero. }
  set (st := stateOf _ target) in *. destruct (tg_CircuitState st) eqn:E; cbn in *; case_decide; try done;
    (split_and!; try done; [lia..|]); intros [?|?]; try done; lia.
Qed.

(** ** An open circuit *)

(** The events of the target come before the time, and with the circuit breaker on. *)
Definition event_before (target : string) (u : Time) (e : health_event) : Prop :=
  match e with
  | EvBefore t now o | EvAfter t now _ o _ => t = target -> now < u /\ ci_Enabled (ro_Circuit o) = true
  | _ => True
  end.

Definition open_until (u : Time) (st : targetGovernanceState) : Prop :=
  tg_CircuitState st = CircuitStateOpen /\ tg_OpenUntil st = u.

Lemma circuitBefore_open now u st : open_until u st -> now < u -> circuitBefore now st = st.
Proof.
  intros [E1 E2] Hn. unfold circuitBefore. rewrite decide_False by congruence.
  assert (Before now (tg_OpenUntil st) = true) as -> by (unfold Before; apply Z.ltb_lt; lia).
  cbn [negb]. by rewrite andb_false_r.
Qed.

Lemma before_open target now o r u :
  open_until u (stateOf r target) -> now < u -> ci_Enabled (ro_Circuit o) = true ->
  exists res, beforeProbeGovernance target now o r = (putState target (stateOf r target) r, Blocked res)
    /\ hr_Code res = CodeCircuitOpen.
Proof.
  intros Ho Hn Hc. unfold beforeProbeGovernance. rewrite Hc, (circuitBefore_open now u) by done. cbn [andb].
  destruct Ho as [E1 E2]. rewrite bool_decide_eq_true_2 by done.
  assert (Before now (tg_OpenUntil (stateOf r target)) = true) as -> by (unfold Before; apply Z.ltb_lt; lia).
  eexists. split; [done|]. vm_compute. reflexivity.
Qed.

Lemma governed_open target status now o reserved st u :
  open_until u st -> now < u -> ci_Enabled (ro_Circuit o) = true ->
  open_until u (governed target status now o reserved st).
Proof.
  intros [E1 E2] Hn Hc. unfold governed. rewrite Hc. cbn [andb]. rewrite bool_decide_eq_false_2 by congruence.
  set (st1 := if reserved && _ then _ else st).
  assert (Hs : tg_CircuitState st1 = CircuitStateOpen /\ tg_OpenUntil st1 = u) by (unfold st1; by destruct (reserved && _)).
  assert (Ha : circuitAfter status now (ro_Circuit o) st1 = st1).
  { unfold circuitAfter. destruct Hs as [-> ->].
    assert (Before now u = true) as -> by (unfold Before; apply Z.ltb_lt; lia). cbn [negb]. by rewrite andb_false_r. }
  rewrite Ha. destruct (bk_Enabled _); [|done].
  destruct (backoff_keeps target status now (ro_Backoff o) st1) as (B1 & B2 & _). unfold open_until. by rewrite B1, B2.
Qed.

Lemma apply_event_open target u r e :
  open_until u (stateOf r target) -> event_before target u e -> open_until u (stateOf (apply_event r e) target).
Proof.
  intros Ho He. destruct e as [o|t now o|t now x o reserved|t x v]; cbn [apply_event event_before] in *; [done| | |done].
  - destruct (decide (t = target)) as [->|Hne].
    + destruct (He eq_refl) as [Hn Hc]. destruct (before_open target now o r u Ho Hn Hc) as (res & -> & _). cbn.
      by rewrite stateOf_put, decide_True.
    + pose proof (before_state t now o r) as Hb. cbn zeta in Hb.
      destruct (beforeProbeGovernance t now o r).2 as [[]|]; [destruct Hb as [-> _]|rewrite Hb..];
        by rewrite stateOf_put, decide_False.
  - cbn. rewrite stateOf_put. case_decide as Et; [|done]. subst t. destruct (He eq_refl) as [Hn Hc]. by apply governed_open.
Qed.

(** C36: an open circuit admits no probe before its time: while the events of a target come
    before the end of its open period, the circuit stays open until the same time,
    and every attempt to probe is blocked as open, in every interleaving with
    late answers of earlier probes, so that [Probe] answers without calling the probe. *)
Theorem open_circuit_admits_nothing r target u evs now o :
  tg_CircuitState (stateOf r target) = CircuitStateOpen -> tg_OpenUntil (stateOf r target) = u ->
  Forall (event_before target u) evs -> now < u -> ci_Enabled (ro_Circuit o) = true ->
  let r' := run_events r evs in
  tg_CircuitState (stateOf r' target) = CircuitStateOpen /\ tg_OpenUntil (stateOf r' target) = u
  /\ (exists r'' res, beforeProbeGovernance target now o r' = (r'', Blocked res) /\ hr_Code res = CodeCircuitOpen)
  /\ (hu_opts r' = o -> lower_trim target = target -> forall probe, (Probe target now probe r').2 = false).
Proof.
  cbn zeta. intros E1 E2 Hevs Hn Hc. assert (Ho : open_until u (stateOf r target)) by done. clear E1 E2.
  assert (Ho' : open_until u (stateOf (run_events r evs) target)).
  { revert r Ho. induction Hevs as [|e evs He _ IH]; intros r Ho; cbn; [done|]. by apply IH, apply_event_open. }
  split; [apply Ho'|]. split; [apply Ho'|]. destruct (before_open target now o _ u Ho' Hn Hc) as (res & E & Hcode).
  split; [eauto|]. intros Hopts Ht probe. unfold Probe. rewrite Ht, Hopts. destruct (target =s? ""); [done|].
  destruct probe as [outcome|]; [|done]. destruct (loadCachedGoverned _ _ _ _); [done|].
  unfold governanceEnabled. by rewrite Hc, orb_true_r, E.
Qed.

(** ** The half-open budget *)

Definition event_with (o : RunnerOptions) (e : health_event) : Prop :=
  match e with EvBefore _ _ o' | EvAfter _ _ _ o' _ => o' = o | _ => True end.

Lemma circuitBefore_inflight now st :
  tg_HalfOpenInFlight (circuitBefore now st) = tg_HalfOpenInFlight st \/ tg_HalfOpenInFlight (circuitBefore now st) = 0.
Proof. unfold circuitBefore. repeat case_match; auto. Qed.

Lemma governed_inflight target status now o reserved st :
  0 <= tg_HalfOpenInFlight st -> tg_HalfOpenInFlight (governed target status now o reserved st) <= tg_HalfOpenInFlight st.
Proof.
  intros Hp. unfold governed. fold (returned o reserved st).
  assert (Hr : tg_HalfOpenInFlight (returned o reserved st) <= tg_HalfOpenInFlight st).
  { unfold returned. repeat case_match; cbn; lia. }
  set (st1 := returned o reserved st) in *.
  assert (Hc : tg_HalfOpenInFlight (circuitAfter status now (ro_Circuit o) st1) = tg_HalfOpenInFlight st1).
  { unfold circuitAfter, halfOpenAfter, closedAfter, openCircuit. repeat case_match; done. }
  destruct (ci_Enabled (ro_Circuit o)), (bk_Enabled (ro_Backoff o));
    try (etransitivity; [apply Z.eq_le_incl; by apply backoff_keeps|]); lia.
Qed.

(** The counter of reservations stays within the budget. *)
Lemma half_open_counter_bounded o o0 evs target :
  0 < ci_HalfOpenMaxProbe (ro_Circuit o) -> Forall (event_with o) evs ->
  tg_HalfOpenInFlight (stateOf (run_events (NewRunner o0) evs) target) <= ci_HalfOpenMaxProbe (ro_Circuit o).
Proof.
  intros Hm Hevs. set (mx := ci_HalfOpenMaxProbe (ro_Circuit o)) in *.
  cut (forall r, (forall t, circuit_ok (stateOf r t) /\ tg_HalfOpenInFlight (stateOf r t) <= mx) ->
    tg_HalfOpenInFlight (stateOf (run_events r evs) target) <= mx).
  { intros Hc. apply Hc. intros t. split; [apply circuit_zero|]. change (0 <= mx). lia. }
  induction Hevs as [|e evs He _ IH]; intros r Hr; cbn; [apply Hr|]. apply IH. intros t.
  split; [apply apply_event_ok; intros; apply Hr|].
  destruct e as [o'|t' now o'|t' now x o' reserved|t' x v]; cbn [apply_event event_with] in *; try apply Hr; subst.
  - pose proof (before_state t' now o r) as Hb. cbn zeta in Hb.
    assert (He : tg_HalfOpenInFlight (enteredState now o (stateOf r t')) <= mx).
    { unfold enteredState. destruct (ci_Enabled _); [|apply Hr].
      destruct (circuitBefore_inflight now (stateOf r t')) as [->| ->]; [apply Hr | lia]. }
    destruct (beforeProbeGovernance t' now o r).2 as [[]|]; [destruct Hb as (-> & _ & Hlt)|rewrite Hb..];
      rewrite stateOf_put; case_decide; try apply Hr; try done. cbn. specialize (Hlt Hm). unfold mx. lia.
  - cbn. rewrite stateOf_put. case_decide; [|apply Hr]. destruct (Hr t') as [Hok Hle].
    etransitivity; [apply governed_inflight; apply Hok | done].
Qed.

(** ** Failures in a row *)

(** The status a probe counts with. *)
Definition countedStatus (now : Time) (x : HealthResult) : string := normalizeStatus (hr_Status (normalizeResult x now)).

Definition failed (p : Time * HealthResult) : bool := countedStatus p.1 p.2 =s? StatusUnavailable.

Lemma countedStatus_known now x : countedStatus now x ∈ [StatusHealthy; StatusDegraded; StatusUnavailable].
Proof.
  unfold countedStatus, normalizeResult. cbn zeta.
  assert (Hk : forall s, s ∈ [StatusHealthy; StatusDegraded; StatusUnavailable] -> normalizeStatus s = s).
  { intros s. rewrite !elem_of_cons. intros [->|[->|[->|?%not_elem_of_nil]]]; done. }
  destruct (str_eqb_spec (normalizeStatus (hr_Status x)) StatusHealthy) as [->|H1]; cbn; [by left|].
  destruct (str_eqb_spec (normalizeStatus (hr_Status x)) StatusDegraded) as [->|H2]; cbn; [by right; left|].
  destruct (str_eqb_spec (normalizeStatus (hr_Status x)) StatusUnavailable) as [H3|H3]; cbn; by right; right; left.
Qed.

(** The failures at the end of a list of answers. *)
Definition row (l : list (Time * HealthResult)) : Z :=
  foldl (fun n p => if failed p then n + 1 else 0) 0 l.

Lemma row_snoc l p : row (l ++ [p]) = if failed p then row l + 1 else 0.
Proof. unfold row. by rewrite foldl_app. Qed.

Definition answered (o : RunnerOptions) (target : string) (r : HealthRunner) (l : list (Time * HealthResult)) : HealthRunner :=
  foldl (fun r p => (afterProbeGovernance target p.1 p.2 o false r).1) r l.

Definition notTripped (c : CircuitState) : Prop := c = CircuitStateUnset \/ c = CircuitStateClosed.

Lemma after_state target now x o reserved r t :
  stateOf (afterProbeGovernance target now x o reserved r).1 t
  = if decide (target = t) then governed target (countedStatus now x) now o reserved (stateOf r target) else stateOf r t.
Proof. unfold afterProbeGovernance, countedStatus. cbn zeta. cbn [fst]. apply stateOf_put. Qed.

Lemma closedAfter_counted now x t o st :
  closedAfter (countedStatus now x) t o st
  = if failed (now, x)
    then (let st := st <| tg_ConsecutiveFails ::= Z.succ |> in
          if ci_FailureThreshold o <=? tg_ConsecutiveFails st then openCircuit t o st else st)
    else st <| tg_ConsecutiveFails := 0 |>.
Proof.
  unfold closedAfter, failed. cbn [fst snd]. destruct (countedStatus now x =s? StatusUnavailable) eqn:E; [done|].
  pose proof (countedStatus_known now x) as Hk. rewrite !elem_of_cons in Hk. apply str_eqb_neq in E.
  destruct Hk as [->|[->|[?|?%not_elem_of_nil]]]; done.
Qed.

(** An answer to a closed circuit. *)
Lemma answer_closed o target now x r :
  ci_Enabled (ro_Circuit o) = true -> notTripped (tg_CircuitState (stateOf r target)) ->
  let st := stateOf r target in
  let st' := stateOf ((afterProbeGovernance target now x o false r).1) target in
  if failed (now, x) then
    tg_ConsecutiveFails st' = tg_ConsecutiveFails st + 1
    /\ if ci_FailureThreshold (ro_Circuit o) <=? tg_ConsecutiveFails st + 1
       then tg_CircuitState st' = CircuitStateOpen /\ tg_OpenUntil st' = now + ci_OpenDuration (ro_Circuit o)
       else tg_CircuitState st' = CircuitStateClosed
  else tg_ConsecutiveFails st' = 0 /\ tg_CircuitState st' = CircuitStateClosed.
Proof.
  intros Hc Hn. cbn zeta. rewrite after_state, decide_True by done. unfold governed. rewrite Hc. cbn [andb]. set (st := stateOf r target) in *.
  set (st1 := if bool_decide _ then _ else st).
  assert (H1 : tg_CircuitState st1 = CircuitStateClosed /\ tg_ConsecutiveFails st1 = tg_ConsecutiveFails st).
  { unfold st1. destruct Hn as [E|E]; rewrite E; [|done]. done. }
  destruct H1 as [E1 E2].
  set (st2 := circuitAfter (countedStatus now x) now (ro_Circuit o) st1).
  assert (Hst : forall st', (tg_CircuitState st' = tg_CircuitState st2 /\ tg_OpenUntil st' = tg_OpenUntil st2
      /\ tg_ConsecutiveFails st' = tg_ConsecutiveFails st2) ->
    if failed (now, x) then
      tg_ConsecutiveFails st' = tg_ConsecutiveFails st + 1
      /\ if ci_FailureThreshold (ro_Circuit o) <=? tg_ConsecutiveFails st + 1
         then tg_CircuitState st' = CircuitStateOpen /\ tg_OpenUntil st' = now + ci_OpenDuration (ro_Circuit o)
         else tg_CircuitState st' = CircuitStateClosed
    else tg_ConsecutiveFails st' = 0 /\ tg_CircuitState st' = CircuitStateClosed).
  { intros st' (-> & -> & ->). unfold st2, circuitAfter. rewrite E1, closedAfter_counted.
    destruct (failed (now, x)); [|done]. cbn zeta. rewrite <-E2. unfold Z.succ.
    change (tg_ConsecutiveFails (st1 <| tg_ConsecutiveFails ::= fun x => x + 1 |>)) with (tg_ConsecutiveFails st1 + 1).
    by destruct (_ <=? _). }
  clearbody st2. apply Hst. destruct (bk_Enabled _); [|split_and!; reflexivity].
  destruct (backoff_keeps target (countedStatus now x) now (ro_Backoff o) st2) as (B1 & B2 & _ & B4 & _).
  split_and!; [exact B1 | exact B2 | exact B4].
Qed.

Lemma answered_closed o target r l :
  ci_Enabled (ro_Circuit o) = true -> tg_ConsecutiveFails (stateOf r target) = 0 ->
  (forall l1 l2, l = l1 ++ l2 -> notTripped (tg_CircuitState (stateOf (answered o target r l1) target))) ->
  tg_ConsecutiveFails (stateOf (answered o target r l) target) = row l.
Proof.
  intros Hc H0. induction l as [|[now x] l IH] using rev_ind; intros Hp; [done|].
  assert (IHl : tg_ConsecutiveFails (stateOf (answered o target r l) target) = row l).
  { apply IH. intros l1 l2 ->. apply (Hp l1 (l2 ++ [(now, x)])). by rewrite app_assoc. }
  unfold answered. rewrite foldl_app. cbn [foldl fst snd]. fold (answered o target r l). rewrite row_snoc.
  pose proof (answer_closed o target now x (answered o target r l) Hc (Hp l _ eq_refl)) as Ha. cbn zeta in Ha.
  destruct (failed (now, x)); destruct Ha as [-> _]; [by rewrite IHl | done].
Qed.

(** The circuit opens exactly at the configured number of failures in a row: as long as
    it has not opened, the next answer opens it if and only if it completes that
    many failures in a row, and then for the configured time. *)
Theorem circuit_opens_at_threshold o target r l now x :
  ci_Enabled (ro_Circuit o) = true -> 0 < ci_FailureThreshold (ro_Circuit o) ->
  tg_ConsecutiveFails (stateOf r target) = 0 ->
  (forall l1 l2, l = l1 ++ l2 -> notTripped (tg_CircuitState (stateOf (answered o target r l1) target))) ->
  let st := stateOf (answered o target r (l ++ [(now, x)])) target in
  (tg_CircuitState st = CircuitStateOpen <-> ci_FailureThreshold (ro_Circuit o) <= row (l ++ [(now, x)]))
  /\ (tg_CircuitState st = CircuitStateOpen -> tg_OpenUntil st = now + ci_OpenDuration (ro_Circuit o)).
Proof.
  intros Hc Ht H0 Hp. cbn zeta. pose proof (answered_closed o target r l Hc H0 Hp) as Hrow.
  unfold answered. rewrite foldl_app. cbn [foldl fst snd]. fold (answered o target r l). rewrite row_snoc.
  pose proof (answer_closed o target now x (answered o target r l) Hc (Hp l [] ltac:(by rewrite app_nil_r))) as Ha.
  cbn zeta in Ha. rewrite Hrow in Ha. destruct (failed (now, x)).
  - destruct Ha as [_ Ha]. destruct (Z.leb_spec (ci_FailureThreshold (ro_Circuit o)) (row l + 1)).
    + destruct Ha as [-> ->]. done.
    + rewrite Ha. split; [split; [done | lia] | done].
  - destruct Ha as [_ ->]. split; [split; [done | lia] | done].
Qed.

(** ** Backoff *)

Definition f64_finite_big (x : f64) : Prop := exists m e, x = FFin m e /\ 0 < m /\ 0 <= Z.log2 m + e.

Lemma growBackoff_big n mult mx v :
  f64_big mult -> f64_finite_big mx -> f64_finite_big v -> f64_finite_big (growBackoff n mult mx v).
Proof.
  intros Hm Hx. revert v. induction n as [|n IH]; intros v Hv; cbn; [done|].
  destruct (f64_leb mx (f64_mul v mult)) eqn:E; [done|]. apply IH.
  destruct (f64_mul_big v mult ltac:(by right) Hm) as [Ei|?]; [|done].
  destruct Hx as (m & e & -> & _). by rewrite Ei in E.
Qed.

(** A finite value scaled by the jitter is a number. *)
Lemma jitter_number v u ratio :
  f64_finite_big v -> u <> FNaN -> f64_ltb f64_zero ratio = true -> ratio <> FInf false ->
  f64_mul v (f64_add f64_one (f64_mul (f64_sub (f64_mul u f64_two) f64_one) ratio)) <> FNaN.
Proof.
  intros (m & e & -> & Hm & _) Hu Hr Hri.
  assert (Hfin : forall x, x <> FNaN -> f64_mul (FFin m e) x <> FNaN).
  { intros [m' e'|n'|] Hx; [apply f64_round_not_nan| |done]. cbn. destruct (Z.eqb_spec m 0); [lia | done]. }
  apply Hfin.
  assert (Hadd : forall m1 e1 x, x <> FNaN -> f64_add (FFin m1 e1) x <> FNaN).
  { intros m1 e1 [m' e'|n'|] Hx; [apply f64_round_not_nan|done|done]. }
  apply Hadd.
  assert (Hmul : forall x, x <> FNaN -> f64_mul x ratio <> FNaN).
  { destruct ratio as [mr er|[]|]; [|done|done|done].
    assert (mr <> 0) by (intros ->; cbn in Hr; by rewrite Z.ltb_irrefl in Hr).
    intros [m' e'|n'|] Hx; [apply f64_round_not_nan| |done]. cbn. destruct (Z.eqb_spec mr 0); done. }
  apply Hmul. destruct u as [mu eu|nu|]; [|done..].
  unfold f64_sub, f64_neg, f64_one, f64_two, f64_mul. pose proof (f64_round_not_nan (mu * 2) (eu + 0)) as Hn.
  destruct (f64_round (mu * 2) (eu + 0)); [apply f64_round_not_nan | done..].
Qed.

Lemma leb_one_big x : x <> FNaN -> f64_leb x f64_one = false -> f64_big x.
Proof.
  intros Hn. destruct x as [m e|[]|]; cbn; [|done|by left|done].
  rewrite negb_false_iff. intros H%Z.ltb_lt. right. exists m, e.
  destruct (Z.le_gt_cases 0 e) as [He|He].
  - rewrite Z.min_l in H by lia. rewrite Z.mul_1_l, !Z.sub_0_l, Z.sub_0_r in H. cbn in H.
    pose proof (pow2_pos e He). assert (0 < m) by nia. pose proof (Z.log2_nonneg m). split_and!; [done | done | lia].
  - rewrite Z.min_r, Z.sub_diag, Z.mul_1_r, Z.mul_1_l, Z.sub_0_l in H by lia.
    pose proof (pow2_pos (- e) ltac:(lia)). assert (0 < m) by lia. assert (Hlt : 2 ^ (- e) <= m) by lia.
    apply Z.log2_le_mono in Hlt.
    rewrite Z.log2_pow2 in Hlt by lia. split_and!; [done | done | lia].
Qed.

Lemma exact_big z : 0 < z -> z < 2 ^ 53 -> f64_of_Z z = FFin z 0 /\ f64_finite_big (f64_of_Z z).
Proof.
  intros H1 H2. rewrite f64_of_Z_exact by lia. split; [done|]. exists z, 0. pose proof (Z.log2_nonneg z). split_and!; [done | done | lia].
Qed.

Lemma normalizeBackoff_facts b :
  bk_Enabled b = true -> bk_Multiplier b <> FNaN ->
  let cfg := normalizeBackoff b in
  0 < bk_Initial cfg /\ f64_leb (bk_Multiplier cfg) f64_one = false /\ f64_big (bk_Multiplier cfg)
  /\ bk_JitterRatio cfg <> FInf false.
Proof.
  intros He Hn. cbn zeta. unfold normalizeBackoff. rewrite He.
  set (b1 := if bk_Initial b <=? 0 then _ else b). assert (H1 : 0 < bk_Initial b1 /\ bk_Multiplier b1 = bk_Multiplier b).
  { unfold b1. destruct (Z.leb_spec (bk_Initial b) 0); cbn; [split; [reflexivity | done] | done]. }
  clearbody b1. set (b2 := if bk_Max b1 <? _ then _ else b1).
  assert (H2 : 0 < bk_Initial b2 /\ bk_Multiplier b2 = bk_Multiplier b) by (unfold b2; by destruct (_ <? _)).
  clearbody b2. set (b3 := if f64_leb _ _ then _ else b2).
  assert (H3 : 0 < bk_Initial b3 /\ f64_leb (bk_Multiplier b3) f64_one = false /\ f64_big (bk_Multiplier b3)).
  { unfold b3. destruct H2 as [? E]. destruct (f64_leb (bk_Multiplier b2) f64_one) eqn:El.
    - cbn. split_and!; [done | done|]. right. exists 2, 0. split_and!; done || (cbn; lia).
    - rewrite El. split_and!; [done | done|]. apply leb_one_big; congruence. }
  clearbody b3. destruct H3 as (H3 & H4 & H5).
  destruct (_ || _) eqn:Ej; cbn; split_and!; try done. apply orb_false_iff in Ej as [_ Ej]. intros E. by rewrite E in Ej.
Qed.

(** The backoff of a normalised configuration stays between its initial and its largest
    delay, for every target, number of failures and jitter ratio. *)
Theorem backoff_within_limits b target failures :
  bk_Enabled b = true -> bk_Multiplier b <> FNaN ->
  let cfg := normalizeBackoff b in
  bk_Initial cfg <= bk_Max cfg -> bk_Max cfg < 2 ^ 53 ->
  bk_Initial cfg <= computeBackoffDelay target failures cfg <= bk_Max cfg.
Proof.
  intros He Hn. cbn zeta. destruct (normalizeBackoff_facts b He Hn) as (Hi & Hl & Hb & Hj).
  set (cfg := normalizeBackoff b) in *. clearbody cfg. intros Hle Hmx.
  unfold computeBackoffDelay. destruct (Z.leb_spec failures 0); [lia|].
  destruct (exact_big (bk_Initial cfg) ltac:(lia) ltac:(lia)) as [Ei Bi].
  destruct (exact_big (bk_Max cfg) ltac:(lia) ltac:(lia)) as [Em Bm].
  assert (f64_leb (f64_of_Z (bk_Initial cfg)) f64_zero = false) as ->.
  { rewrite Ei. unfold f64_leb, f64_ltb, f64_zero. rewrite Z.min_id, Z.sub_diag. apply negb_false_iff, Z.ltb_lt. lia. }
  assert (Hord : f64_ltb (f64_of_Z (bk_Max cfg)) (f64_of_Z (bk_Initial cfg)) = false).
  { rewrite Ei, Em. unfold f64_ltb. rewrite Z.min_id, Z.sub_diag. apply Z.ltb_ge. lia. }
  rewrite Hord, Hl. set (v := growBackoff _ _ _ _).
  assert (Hv : f64_finite_big v) by (by apply growBackoff_big). clearbody v.
  set (v1 := if f64_ltb f64_zero _ then _ else v).
  assert (H1 : v1 <> FNaN).
  { unfold v1. destruct (f64_ltb f64_zero (bk_JitterRatio cfg)) eqn:Er; [|by destruct Hv as (m & e & -> & _)].
    apply jitter_number; [done | | done | done]. rewrite (f64_of_Z_exact 9999) by done. unfold f64_div.
    pose proof (Z.mod_pos_bound (fnv32a (target +:+ ":" +:+ itoa failures)) 10000 ltac:(lia)).
    rewrite f64_of_Z_exact by lia. apply f64_round_not_nan. }
  clearbody v1. rewrite Ei in *. rewrite Em in *.
  destruct (f64_max_ge (FFin (bk_Initial cfg) 0) v1 ltac:(done) H1) as [H2 H3].
  set (v2 := f64_max _ _) in *. clearbody v2.
  destruct (f64_min_le (FFin (bk_Max cfg) 0) v2 ltac:(done) H2) as (H4 & H5 & H6).
  set (v3 := f64_min _ _) in *. clearbody v3.
  assert (H7 : f64_ltb v3 (FFin (bk_Initial cfg) 0) = false) by (by destruct H6 as [->| ->]).
  assert (f64_ltb v3 f64_zero = false) as ->.
  { destruct v3 as [m e|[]|]; try done. cbn in *. rewrite Z.ltb_ge in *. pose proof (pow2_pos (0 - Z.min e 0) ltac:(lia)). nia. }
  apply f64_to_i64_between; try done; [lia|]. unfold max_i64. lia.
Qed.

(** ** The example *)

Definition demoHealthOptions : RunnerOptions :=
  normalizeOptions
    (mkRunnerOptions 0 0 (mkBackoffOptions true Second (60 * Second) f64_two f64_0_2) (mkCircuitOptions true 2 (30 * Second) 1 1)).

Definition demoAnswer (status : string) : HealthResult := mkHealthResult status "" "" ∅ zeroGovernanceSnapshot 0.

Definition demoHealthRunner : HealthRunner := NewRunner demoHealthOptions.

(** Two failures in a row open the circuit for thirty seconds. *)
Definition demoFailures : list (Time * HealthResult) :=
  [(1000, demoAnswer "healthy"); (2000, demoAnswer "unavailable")].

Definition demoTripped : HealthRunner :=
  answered demoHealthOptions "db" demoHealthRunner (demoFailures ++ [(3000, demoAnswer "down")]).

Lemma circuit_opens_at_threshold_witness :
  tg_CircuitState (stateOf demoTripped "db") = CircuitStateOpen
  /\ tg_OpenUntil (stateOf demoTripped "db") = 3000 + 30 * Second.
Proof.
  destruct (circuit_opens_at_threshold demoHealthOptions "db" demoHealthRunner demoFailures 3000 (demoAnswer "down"))
    as [Hiff Hopen].
  - reflexivity.
  - vm_compute. reflexivity.
  - vm_compute. reflexivity.
  - intros l1 l2 E. unfold demoFailures in E.
    destruct l1 as [|p1 [|p2 [|p3 l1]]].
    + left. vm_compute. reflexivity.
    + injection E as <- _. right. vm_compute. reflexivity.
    + injection E as <- <- _. right. vm_compute. reflexivity.
    + discriminate E.
  - assert (Hx : tg_CircuitState (stateOf demoTripped "db") = CircuitStateOpen).
    { apply Hiff. vm_compute. discriminate. }
    split; [exact Hx|]. exact (Hopen Hx).
Defined.

(** A late answer and a probe too early change nothing. *)
Lemma open_circuit_admits_nothing_witness :
  let evs := [EvBefore "db" 5000 demoHealthOptions; EvAfter "db" 2500 (demoAnswer "healthy") demoHealthOptions false] in
  tg_CircuitState (stateOf (run_events demoTripped evs) "db") = CircuitStateOpen.
Proof.
  cbn zeta.
  apply (open_circuit_admits_nothing demoTripped "db" (3000 + 30 * Second) _ 6000 demoHealthOptions).
  - vm_compute. reflexivity.
  - vm_compute. reflexivity.
  - repeat constructor; intros _; (split; [vm_compute; reflexivity | reflexivity]).
  - vm_compute. reflexivity.
  - reflexivity.
Defined.

Lemma backoff_within_limits_witness :
  let cfg := normalizeBackoff (mkBackoffOptions true Second (60 * Second) f64_two f64_0_2) in
  Second <= computeBackoffDelay "db" 5 cfg <= 60 * Second.
Proof.
  cbn zeta.
  apply (backoff_within_limits (mkBackoffOptions true Second (60 * Second) f64_two f64_0_2) "db" 5);
    [reflexivity | discriminate | vm_compute; discriminate | vm_compute; reflexivity].
Defined.

(** A probe that outlives the open period: [a] is the half-open probe in flight when the
    slow answer of [b], begun before the circuit opened, opens the circuit again;
    half-opening resets the counter, and [c] is admitted beside [a]. *)
Example half_open_budget_exceeded :
  let o := demoHealthOptions <| ro_Backoff := mkBackoffOptions false 0 0 f64_one f64_zero |> in
  let late := 3000 + 40 * Second in
  let r := answered o "db" demoHealthRunner (demoFailures ++ [(3000, demoAnswer "down")]) in
  let '(r, a) := beforeProbeGovernance "db" late o r in
  let r := (afterProbeGovernance "db" 2500 (demoAnswer "unavailable") o false r).1 in
  let '(r, c) := beforeProbeGovernance "db" (late + 1) o r in
  ci_HalfOpenMaxProbe (ro_Circuit o) = 1 /\ a = Allowed true /\ c = Allowed true.
Proof. vm_compute. done. Qed.
