(* ===== verification/AdapterSemver.v ===== *)
(** * Adapter manifests: semantic versions

    [adapter/manifest/semver.go]: parsing, comparing and ranges of versions. The
    pattern is matched by hand: its classes make the greedy match the only one. *)
From Stdlib Require Import Ascii.
From S2P Require Import Prelude GoStrings GoNum.

Local Open Scope bool_scope.
Local Open Scope string_scope.
Local Open Scope list_scope.
Local Open Scope Z_scope.

Record preToken : Type := mkPreToken {
  pt_raw : string;
  pt_numeric : bool;
  pt_numValue : Z;
  pt_lexicText : string
}.

Record semVersion : Type := mkSemVersion {
  sv_major : Z;
  sv_minor : Z;
  sv_patch : Z;
  sv_pre : list preToken
}.

(** [op]; the default of [match] is not reached. *)
Inductive comparatorOp : Type := OpGreater | OpGreaterEqual | OpLess | OpLessEqual | OpEqual.

Record semverComparator : Type := mkSemverComparator {
  sc_op : comparatorOp;
  sc_version : semVersion
}.

Inductive SemverError : Type :=
| ErrInvalidSemver
| ErrInvalidNumber
| ErrInvalidPreRelease
| ErrEmptyRange
| ErrInvalidComparator
| ErrInvalidComparatorVersion (e : SemverError)
| ErrInvalidRuntimeVersion (e : SemverError).

(** ** The pattern *)

(** [0|[1-9]\d*]. *)
Definition matchNumber (l : list ascii) : option (list ascii * list ascii) :=
  match l with
  | c :: r =>
      if bool_decide (c = "0"%char) then Some ([c], r)
      else if is_digit c then Some (spanWhile is_digit l)
      else None
  | [] => None
  end.

(** [[0-9A-Za-z.-]]. *)
Definition is_pre_char (c : ascii) : bool :=
  let n := byte_of c in
  is_digit c || ((65 <=? n) && (n <=? 90))%N || ((97 <=? n) && (n <=? 122))%N || (n =? 46)%N || (n =? 45)%N.

Definition dropByte (c : ascii) (l : list ascii) : option (list ascii) :=
  match l with d :: r => if bool_decide (c = d) then Some r else None | [] => None end.

(** A sign and the characters after it, at least one. *)
Definition matchSuffix (sign : ascii) (l : list ascii) : option (list ascii * list ascii) :=
  r ← dropByte sign l;
  match spanWhile is_pre_char r with
  | ([], _) => None
  | (word, rest) => Some (word, rest)
  end.

(** The four groups of [semverPattern]. *)
Definition matchSemver (l : list ascii) : option (list ascii * list ascii * list ascii * list ascii) :=
  let l := default l (dropByte "v"%char l) in
  '(major, l) ← matchNumber l;
  l ← dropByte "."%char l;
  '(minor, l) ← matchNumber l;
  l ← dropByte "."%char l;
  '(patch, l) ← matchNumber l;
  let '(pre, l) := default ([], l) (matchSuffix "-"%char l) in
  let l := default l (snd <$> matchSuffix "+"%char l) in
  match l with [] => Some (major, minor, patch, pre) | _ => None end.

(** ** Parsing *)

(** [strconv.Atoi] on digits. *)
Definition Atoi (digits : list ascii) : result SemverError Z :=
  let v := digits_value digits in
  require v <=? max_i64 orelse ErrInvalidNumber;
  Ok v.

Definition isAllDigits (l : list ascii) : bool := match l with [] => false | _ => forallb is_digit l end.

Definition parsePreToken (segment : string) : result SemverError preToken :=
  let segment := TrimSpace segment in
  require negb (segment =s? "") orelse ErrInvalidPreRelease;
  if isAllDigits (bytes segment) then
    num ←ₑ Atoi (bytes segment);
    Ok (mkPreToken segment true num "")
  else Ok (mkPreToken segment false 0 segment).

Fixpoint parsePreTokens (parts : list string) : result SemverError (list preToken) :=
  match parts with
  | [] => Ok []
  | p :: parts =>
      t ←ₑ parsePreToken p;
      ts ←ₑ parsePreTokens parts;
      Ok (t :: ts)
  end.

Definition parsePreRelease (raw : string) : result SemverError (list preToken) :=
  let s := TrimSpace raw in
  if s =s? "" then Ok [] else parsePreTokens (Split s "."%char).

Definition parseSemver (input : string) : result SemverError semVersion :=
  match matchSemver (bytes (TrimSpace input)) with
  | None => Err ErrInvalidSemver
  | Some (major, minor, patch, pre) =>
      major ←ₑ Atoi major;
      minor ←ₑ Atoi minor;
      patch ←ₑ Atoi patch;
      pre ←ₑ parsePreRelease (of_bytes pre);
      Ok (mkSemVersion major minor patch pre)
  end.

(** ** Comparing *)

(** The order of two numbers that differ. *)
Definition signOf (a b : Z) : Z := if b <? a then 1 else -1.

Definition comparePreToken (a b : preToken) : Z :=
  if pt_numeric a && pt_numeric b then
    if negb (pt_numValue a =? pt_numValue b) then signOf (pt_numValue a) (pt_numValue b) else 0
  else if negb (Bool.eqb (pt_numeric a) (pt_numeric b)) then if pt_numeric a then -1 else 1
  else if pt_lexicText a =s? pt_lexicText b then 0
  else if bool_decide (String.le (pt_lexicText b) (pt_lexicText a)) then 1 else -1.

(** The loop over the identifiers of both. *)
Fixpoint comparePre (a b : list preToken) : Z :=
  match a, b with
  | [], [] => 0
  | [], _ => -1
  | _, [] => 1
  | x :: a, y :: b => let c := comparePreToken x y in if c =? 0 then comparePre a b else c
  end.

Definition compareSemver (a b : semVersion) : Z :=
  if negb (sv_major a =? sv_major b) then signOf (sv_major a) (sv_major b)
  else if negb (sv_minor a =? sv_minor b) then signOf (sv_minor a) (sv_minor b)
  else if negb (sv_patch a =? sv_patch b) then signOf (sv_patch a) (sv_patch b)
  else match sv_pre a, sv_pre b with
  | [], [] => 0
  | [], _ => 1
  | _, [] => -1
  | pa, pb => comparePre pa pb
  end.

(** [semverComparator.match]. *)
Definition matchComparator (c : semverComparator) (v : semVersion) : bool :=
  let diff := compareSemver v (sc_version c) in
  match sc_op c with
  | OpGreater => 0 <? diff
  | OpGreaterEqual => 0 <=? diff
  | OpLess => diff <? 0
  | OpLessEqual => diff <=? 0
  | OpEqual => diff =? 0
  end.

(** ** Ranges *)

(** The operator at the start, and the rest. *)
Definition splitOperator (raw : list ascii) : comparatorOp * list ascii :=
  match raw with
  | ">"%char :: "="%char :: r => (OpGreaterEqual, r)
  | "<"%char :: "="%char :: r => (OpLessEqual, r)
  | "="%char :: "="%char :: r => (OpEqual, r)
  | ">"%char :: r => (OpGreater, r)
  | "<"%char :: r => (OpLess, r)
  | "="%char :: r => (OpEqual, r)
  | _ => (OpEqual, raw)
  end.

Definition parseComparator (token : string) : result SemverError semverComparator :=
  let raw := TrimSpace token in
  require negb (raw =s? "") orelse ErrInvalidComparator;
  let '(op, r) := splitOperator (bytes raw) in
  let versionRaw := TrimSpace (of_bytes r) in
  require negb (versionRaw =s? "") orelse ErrInvalidComparator;
  match parseSemver versionRaw with
  | Err e => Err (ErrInvalidComparatorVersion e)
  | Ok v => Ok (mkSemverComparator op v)
  end.

Fixpoint parseComparators (tokens : list string) : result SemverError (list semverComparator) :=
  match tokens with
  | [] => Ok []
  | t :: tokens =>
      c ←ₑ parseComparator t;
      cs ←ₑ parseComparators tokens;
      Ok (c :: cs)
  end.

Definition parseSemverRange (expr : string) : result SemverError (list semverComparator) :=
  let raw := TrimSpace expr in
  require negb (raw =s? "") orelse ErrEmptyRange;
  let normalized := of_bytes ((fun c => if bool_decide (c = ","%char) then " "%char else c) <$> bytes raw) in
  cs ←ₑ parseComparators (Fields normalized);
  require negb (bool_decide (cs = [])) orelse ErrEmptyRange;
  Ok cs.

Definition EvaluateSemverRange (expr runtimeVersion : string) : result SemverError bool :=
  match parseSemver runtimeVersion with
  | Err e => Err (ErrInvalidRuntimeVersion e)
  | Ok v =>
      cs ←ₑ parseSemverRange expr;
      Ok (forallb (fun c => matchComparator c v) cs)
  end.
