(* ===== verification/AdapterSemverProps.v ===== *)
(** * Semantic versions: order, round trip and ranges

    [compareSemver] is built from comparison functions that are combined
    lexicographically. [ComparisonLaws] is what such a function promises; products
    and lists keep it, so the versions are totally ordered. The order is then shown
    to be the precedence relation of the SemVer specification, a version in canonical
    form is shown to be read back as itself, and a range of two bounds to admit the
    versions between them. *)
From Stdlib Require Import Ascii.
From S2P Require Import Prelude GoStrings GoNum AdapterSemver.

Local Open Scope bool_scope.
Local Open Scope string_scope.
Local Open Scope list_scope.
Local Open Scope Z_scope.

(** ** Comparison functions *)

Class ComparisonLaws {A : Type} (cmp : A -> A -> Z) : Prop := {
  cmp_sign : forall a b, cmp a b = -1 \/ cmp a b = 0 \/ cmp a b = 1;
  cmp_flip : forall a b, cmp b a = - cmp a b;
  cmp_trans : forall a b c, cmp a b <= 0 -> cmp b c <= 0 -> cmp a c <= 0
}.

Section Laws.
Context {A : Type} (cmp : A -> A -> Z) `{!ComparisonLaws cmp}.

Lemma cmp_lt_le_trans a b c : cmp a b < 0 -> cmp b c <= 0 -> cmp a c < 0.
Proof.
  intros H1 H2. destruct (Z.ltb_spec (cmp a c) 0) as [|H3]; [done|].
  pose proof (cmp_flip (cmp := cmp) a b). pose proof (cmp_flip (cmp := cmp) a c).
  pose proof (cmp_trans (cmp := cmp) b c a H2 ltac:(lia)). lia.
Qed.

Lemma cmp_le_lt_trans a b c : cmp a b <= 0 -> cmp b c < 0 -> cmp a c < 0.
Proof.
  intros H1 H2. destruct (Z.ltb_spec (cmp a c) 0) as [|H3]; [done|].
  pose proof (cmp_flip (cmp := cmp) b c). pose proof (cmp_flip (cmp := cmp) a c).
  pose proof (cmp_trans (cmp := cmp) c a b ltac:(lia) H1). lia.
Qed.

Lemma cmp_eq_trans a b c : cmp a b = 0 -> cmp b c = 0 -> cmp a c = 0.
Proof.
  intros H1 H2. pose proof (cmp_flip (cmp := cmp) a b). pose proof (cmp_flip (cmp := cmp) b c).
  pose proof (cmp_flip (cmp := cmp) a c).
  pose proof (cmp_trans (cmp := cmp) a b c). pose proof (cmp_trans (cmp := cmp) c b a). lia.
Qed.
End Laws.

(** The second function decides where the first does not. *)
Definition lexCmp {A} (c1 c2 : A -> A -> Z) (a b : A) : Z := if c1 a b =? 0 then c2 a b else c1 a b.

#[export] Instance lexCmp_laws {A} (c1 c2 : A -> A -> Z) :
  ComparisonLaws c1 -> ComparisonLaws c2 -> ComparisonLaws (lexCmp c1 c2).
Proof.
  intros L1 L2. unfold lexCmp. split.
  - intros a b. case_match; apply cmp_sign.
  - intros a b. rewrite (cmp_flip (cmp := c1) a b). repeat case_match; rewrite ?Z.eqb_eq, ?Z.eqb_neq in *;
      try lia. apply cmp_flip.
  - intros a b c.
    pose proof (cmp_trans (cmp := c1) a b c). pose proof (cmp_lt_le_trans c1 a b c).
    pose proof (cmp_le_lt_trans c1 a b c). pose proof (cmp_eq_trans c1 a b c).
    pose proof (cmp_trans (cmp := c2) a b c).
    destruct (Z.eqb_spec (c1 a b) 0), (Z.eqb_spec (c1 b c) 0), (Z.eqb_spec (c1 a c) 0); intros; lia.
Qed.

Lemma lexCmp_zero {A} (c1 c2 : A -> A -> Z) a b : lexCmp c1 c2 a b = 0 <-> c1 a b = 0 /\ c2 a b = 0.
Proof. unfold lexCmp. destruct (Z.eqb_spec (c1 a b) 0); lia. Qed.

Lemma lexCmp_lt {A} (c1 c2 : A -> A -> Z) a b :
  lexCmp c1 c2 a b = -1 <-> c1 a b = -1 \/ (c1 a b = 0 /\ c2 a b = -1).
Proof. unfold lexCmp. destruct (Z.eqb_spec (c1 a b) 0); lia. Qed.

(** Comparing through a projection. *)
#[export] Instance proj_laws {A B} (f : A -> B) (cmp : B -> B -> Z) :
  ComparisonLaws cmp -> ComparisonLaws (fun a b => cmp (f a) (f b)).
Proof. intros L. split; intros; [apply cmp_sign | apply cmp_flip | by eapply cmp_trans]. Qed.

Definition numCmp (a b : Z) : Z := if negb (a =? b) then signOf a b else 0.

#[export] Instance numCmp_laws : ComparisonLaws numCmp.
Proof.
  unfold numCmp, signOf. split; intros *; repeat (case_match; rewrite ?negb_true_iff, ?negb_false_iff,
    ?Z.eqb_eq, ?Z.eqb_neq, ?Z.ltb_lt, ?Z.ltb_ge in * ); lia.
Qed.

Lemma numCmp_zero a b : (numCmp a b =? 0) = (a =? b).
Proof. unfold numCmp, signOf. destruct (a =? b); [done|]. cbn. by case_match. Qed.

Definition textCmp (a b : string) : Z :=
  if a =s? b then 0 else if bool_decide (String.le b a) then 1 else -1.

Lemma textCmp_le a b : textCmp a b <= 0 <-> String.le a b.
Proof.
  unfold textCmp. destruct (str_eqb_spec a b) as [->|Hn]; [split; [done | intros _; lia]|].
  case_bool_decide as H.
  - split; [lia|]. intros H'. destruct Hn. by apply (anti_symm String.le).
  - split; [|lia]. intros _. by destruct (total String.le a b).
Qed.

#[export] Instance textCmp_laws : ComparisonLaws textCmp.
Proof.
  split.
  - intros a b. unfold textCmp. repeat case_match; auto.
  - intros a b. pose proof (textCmp_le a b) as H1. pose proof (textCmp_le b a) as H2. unfold textCmp in *.
    destruct (str_eqb_spec a b) as [->|Hn]; [by rewrite str_eqb_refl|].
    destruct (str_eqb_spec b a) as [->|Hn']; [done|].
    destruct (total String.le a b) as [H|H].
    + assert (~ String.le b a) by (intros H'; destruct Hn; by apply (anti_symm String.le)).
      by rewrite bool_decide_eq_true_2, bool_decide_eq_false_2.
    + assert (~ String.le a b) by (intros H'; destruct Hn; by apply (anti_symm String.le)).
      by rewrite bool_decide_eq_false_2, bool_decide_eq_true_2.
  - intros a b c. rewrite !textCmp_le. apply transitivity.
Qed.

(** ** The comparison of the code *)

#[export] Instance comparePreToken_laws : ComparisonLaws comparePreToken.
Proof.
  assert (E : forall a b, comparePreToken a b =
    match pt_numeric a, pt_numeric b with
    | true, true => numCmp (pt_numValue a) (pt_numValue b)
    | true, false => -1
    | false, true => 1
    | false, false => textCmp (pt_lexicText a) (pt_lexicText b)
    end) by (intros a b; unfold comparePreToken; by destruct (pt_numeric a), (pt_numeric b)).
  split.
  - intros a b. rewrite E. destruct (pt_numeric a), (pt_numeric b); auto; apply cmp_sign.
  - intros a b. rewrite !E. destruct (pt_numeric a), (pt_numeric b); auto; apply cmp_flip.
  - intros a b c. rewrite !E. destruct (pt_numeric a), (pt_numeric b), (pt_numeric c); try lia; apply cmp_trans.
Qed.

#[export] Instance comparePre_laws : ComparisonLaws comparePre.
Proof.
  split.
  - intros a. induction a as [|x a IH]; intros [|y b]; cbn; auto. case_match; [apply IH | apply cmp_sign].
  - intros a. induction a as [|x a IH]; intros [|y b]; cbn; auto.
    rewrite (cmp_flip (cmp := comparePreToken) x y). pose proof (IH b).
    repeat case_match; rewrite ?Z.eqb_eq, ?Z.eqb_neq in *; lia.
  - intros a. induction a as [|x a IH]; intros [|y b] [|z c]; cbn; try (intros; lia).
    pose proof (cmp_trans (cmp := comparePreToken) x y z). pose proof (cmp_lt_le_trans comparePreToken x y z).
    pose proof (cmp_le_lt_trans comparePreToken x y z). pose proof (cmp_eq_trans comparePreToken x y z).
    pose proof (IH b c).
    destruct (Z.eqb_spec (comparePreToken x y) 0), (Z.eqb_spec (comparePreToken y z) 0),
      (Z.eqb_spec (comparePreToken x z) 0); intros; lia.
Qed.

(** A release comes after its pre-releases. *)
Definition releaseCmp (a b : list preToken) : Z :=
  match a, b with
  | [], [] => 0
  | [], _ => 1
  | _, [] => -1
  | _, _ => comparePre a b
  end.

#[export] Instance releaseCmp_laws : ComparisonLaws releaseCmp.
Proof.
  split.
  - intros [|x a] [|y b]; auto. apply (cmp_sign (cmp := comparePre)).
  - intros [|x a] [|y b]; auto. apply (cmp_flip (cmp := comparePre)).
  - intros [|x a] [|y b] [|z c]; unfold releaseCmp; try lia. apply (cmp_trans (cmp := comparePre)).
Qed.

Lemma compareSemver_lex a b : compareSemver a b =
  lexCmp (fun a b => numCmp (sv_major a) (sv_major b))
    (lexCmp (fun a b => numCmp (sv_minor a) (sv_minor b))
      (lexCmp (fun a b => numCmp (sv_patch a) (sv_patch b))
        (fun a b => releaseCmp (sv_pre a) (sv_pre b)))) a b.
Proof.
  unfold lexCmp. rewrite !numCmp_zero. unfold compareSemver, numCmp.
  destruct (sv_major a =? sv_major b), (sv_minor a =? sv_minor b), (sv_patch a =? sv_patch b); try reflexivity.
  by destruct (sv_pre a), (sv_pre b).
Qed.

#[export] Instance compareSemver_laws : ComparisonLaws compareSemver.
Proof.
  assert (L := lexCmp_laws (fun a b => numCmp (sv_major a) (sv_major b))
    (lexCmp (fun a b => numCmp (sv_minor a) (sv_minor b))
      (lexCmp (fun a b => numCmp (sv_patch a) (sv_patch b))
        (fun a b => releaseCmp (sv_pre a) (sv_pre b)))) _ _).
  split; intros *; rewrite !compareSemver_lex; [apply (cmp_sign (ComparisonLaws := L))
    | apply (cmp_flip (ComparisonLaws := L)) | apply (cmp_trans (ComparisonLaws := L))].
Qed.

(** ** Precedence of the SemVer specification *)

(** Identifiers: numbers by value, texts by byte order, numbers before texts. *)
Inductive identBefore : preToken -> preToken -> Prop :=
| ident_numbers a b : pt_numeric a = true -> pt_numeric b = true ->
    pt_numValue a < pt_numValue b -> identBefore a b
| ident_texts a b : pt_numeric a = false -> pt_numeric b = false ->
    pt_lexicText a <> pt_lexicText b -> String.le (pt_lexicText a) (pt_lexicText b) -> identBefore a b
| ident_number_text a b : pt_numeric a = true -> pt_numeric b = false -> identBefore a b.

Definition identSame (a b : preToken) : Prop :=
  pt_numeric a = pt_numeric b /\
  if pt_numeric a then pt_numValue a = pt_numValue b else pt_lexicText a = pt_lexicText b.

(** Pre-releases: by the first identifier that differs; a prefix comes first. *)
Inductive preBefore : list preToken -> list preToken -> Prop :=
| pre_prefix same same' y b : Forall2 identSame same same' -> preBefore same (same' ++ y :: b)
| pre_differ same same' x y a b : Forall2 identSame same same' -> identBefore x y ->
    preBefore (same ++ x :: a) (same' ++ y :: b).

Inductive precedes (a b : semVersion) : Prop :=
| by_major : sv_major a < sv_major b -> precedes a b
| by_minor : sv_major a = sv_major b -> sv_minor a < sv_minor b -> precedes a b
| by_patch : sv_major a = sv_major b -> sv_minor a = sv_minor b -> sv_patch a < sv_patch b -> precedes a b
| by_release : sv_major a = sv_major b -> sv_minor a = sv_minor b -> sv_patch a = sv_patch b ->
    sv_pre a <> [] -> sv_pre b = [] -> precedes a b
| by_pre : sv_major a = sv_major b -> sv_minor a = sv_minor b -> sv_patch a = sv_patch b ->
    sv_pre a <> [] -> preBefore (sv_pre a) (sv_pre b) -> precedes a b.

Definition samePrecedence (a b : semVersion) : Prop :=
  sv_major a = sv_major b /\ sv_minor a = sv_minor b /\ sv_patch a = sv_patch b
  /\ Forall2 identSame (sv_pre a) (sv_pre b).

Lemma numCmp_eq a b : numCmp a b = 0 <-> a = b.
Proof. by rewrite <-Z.eqb_eq, numCmp_zero, Z.eqb_eq. Qed.

Lemma numCmp_lt a b : numCmp a b = -1 <-> a < b.
Proof. unfold numCmp, signOf. destruct (Z.eqb_spec a b), (Z.ltb_spec b a); cbn; lia. Qed.

Lemma textCmp_zero a b : textCmp a b = 0 <-> a = b.
Proof. unfold textCmp. destruct (str_eqb_spec a b); [done|]. case_bool_decide; split; (done || lia). Qed.

Lemma textCmp_lt a b : textCmp a b = -1 <-> a <> b /\ String.le a b.
Proof.
  rewrite <-textCmp_le, <-textCmp_zero. destruct (cmp_sign (cmp := textCmp) a b) as [H|[H|H]]; rewrite H; lia.
Qed.

Lemma comparePreToken_zero a b : comparePreToken a b = 0 <-> identSame a b.
Proof.
  unfold comparePreToken, identSame. destruct (pt_numeric a), (pt_numeric b); cbn; try (split; [lia | by intros []]).
  - change (numCmp (pt_numValue a) (pt_numValue b) = 0 <-> true = true /\ pt_numValue a = pt_numValue b).
    rewrite numCmp_eq. naive_solver.
  - change (textCmp (pt_lexicText a) (pt_lexicText b) = 0 <-> false = false /\ pt_lexicText a = pt_lexicText b).
    rewrite textCmp_zero. naive_solver.
Qed.

Lemma comparePreToken_lt a b : comparePreToken a b = -1 <-> identBefore a b.
Proof.
  split.
  - unfold comparePreToken. destruct (pt_numeric a) eqn:Ha, (pt_numeric b) eqn:Hb; cbn; intros H; try done.
    + apply ident_numbers; [done..|]. by apply numCmp_lt.
    + by apply ident_number_text.
    + apply textCmp_lt in H as [? ?]. by apply ident_texts.
  - unfold comparePreToken. intros [? ? -> -> H| ? ? -> -> H1 H2 | ? ? -> ->]; cbn; [| |done].
    + by apply numCmp_lt.
    + by apply textCmp_lt.
Qed.

Lemma comparePre_zero a b : comparePre a b = 0 <-> Forall2 identSame a b.
Proof.
  revert b. induction a as [|x a IH]; intros [|y b]; cbn; try (split; [lia | by inversion 1]).
  - split; [by constructor | done].
  - destruct (Z.eqb_spec (comparePreToken x y) 0) as [E|E].
    + rewrite IH, Forall2_cons, <-comparePreToken_zero. naive_solver.
    + rewrite Forall2_cons, <-comparePreToken_zero. naive_solver.
Qed.

Lemma comparePre_app same same' a b :
  Forall2 identSame same same' -> comparePre (same ++ a) (same' ++ b) = comparePre a b.
Proof.
  induction 1 as [|x y same same' Hxy _ IH]; [done|]. cbn. apply comparePreToken_zero in Hxy. by rewrite Hxy.
Qed.

Lemma comparePre_lt a b : comparePre a b = -1 <-> preBefore a b.
Proof.
  split.
  - revert b. induction a as [|x a IH]; intros [|y b]; cbn; try done.
    + intros _. by apply (pre_prefix [] []).
    + destruct (Z.eqb_spec (comparePreToken x y) 0) as [E|E].
      * apply comparePreToken_zero in E. intros H%IH. destruct H as [s s' z k F | s s' z w k l F H].
        -- by apply (pre_prefix (_ :: _) (_ :: _)); constructor.
        -- by apply (pre_differ (_ :: _) (_ :: _)); [constructor|].
      * intros H%comparePreToken_lt. by apply (pre_differ [] []).
  - intros [s s' y k F | s s' x y k l F H].
    + by rewrite <-(app_nil_r s), comparePre_app.
    + rewrite comparePre_app by done. cbn. apply comparePreToken_lt in H. by rewrite H.
Qed.

Lemma releaseCmp_zero a b : releaseCmp a b = 0 <-> Forall2 identSame a b.
Proof. rewrite <-comparePre_zero. by destruct a, b. Qed.

Lemma releaseCmp_lt a b : releaseCmp a b = -1 <-> a <> [] /\ (b = [] \/ preBefore a b).
Proof. rewrite <-comparePre_lt. destruct a, b; cbn -[comparePre]; naive_solver. Qed.

Lemma compareSemver_zero a b : compareSemver a b = 0 <-> samePrecedence a b.
Proof. rewrite compareSemver_lex, !lexCmp_zero, !numCmp_eq, releaseCmp_zero. done. Qed.

Lemma compareSemver_lt a b : compareSemver a b = -1 <-> precedes a b.
Proof.
  rewrite compareSemver_lex, !lexCmp_lt, !numCmp_eq, !numCmp_lt, releaseCmp_lt. split.
  - intros [?|[? [?|[? [?|[? [? [?|?]]]]]]]]; by constructor.
  - intros []; tauto.
Qed.

(** The order of versions is that of the SemVer specification: the code answers -1
    exactly for a version that precedes the other by major, minor or patch number, by
    being a pre-release of it, or by the first identifier that differs; 0 exactly for
    versions that agree in all of these; 1 exactly for a version that comes after. *)
Theorem semver_order_is_precedence (a b : semVersion) :
  (compareSemver a b = -1 <-> precedes a b)
  /\ (compareSemver a b = 0 <-> samePrecedence a b)
  /\ (compareSemver a b = 1 <-> precedes b a).
Proof.
  split_and!; [apply compareSemver_lt | apply compareSemver_zero|].
  rewrite <-compareSemver_lt, (cmp_flip (cmp := compareSemver) a b). lia.
Qed.

(** A range that admits two versions admits every version between them. *)
Lemma ranges_are_convex cs a b c :
  compareSemver a b <= 0 -> compareSemver b c <= 0 ->
  forallb (fun k => matchComparator k a) cs = true -> forallb (fun k => matchComparator k c) cs = true ->
  forallb (fun k => matchComparator k b) cs = true.
Proof.
  intros Hab Hbc Ha Hc. rewrite forallb_forall in *. intros k Hk. specialize (Ha k Hk). specialize (Hc k Hk).
  revert Ha Hc. unfold matchComparator. set (v := sc_version k).
  pose proof (cmp_trans (cmp := compareSemver) b c v Hbc). pose proof (cmp_le_lt_trans compareSemver b c v Hbc).
  pose proof (cmp_flip (cmp := compareSemver)) as Hf. pose proof (Hf b v). pose proof (Hf a v). pose proof (Hf c v).
  pose proof (fun H => cmp_trans (cmp := compareSemver) v a b H Hab).
  pose proof (fun H => cmp_lt_le_trans compareSemver v a b H Hab).
  destruct (sc_op k); rewrite ?Z.ltb_lt, ?Z.leb_le, ?Z.eqb_eq; lia.
Qed.

(** ** The canonical form of a version *)

(** The parts with dots between. *)
Fixpoint dotted (parts : list (list ascii)) : list ascii :=
  match parts with
  | [] => []
  | [p] => p
  | p :: parts => p ++ "."%char :: dotted parts
  end.

Definition renderBytes (v : semVersion) : list ascii :=
  bytes (itoa (sv_major v)) ++ "."%char :: bytes (itoa (sv_minor v)) ++ "."%char :: bytes (itoa (sv_patch v))
  ++ match sv_pre v with [] => [] | pre => "-"%char :: dotted (bytes ∘ pt_raw <$> pre) end.

Definition renderSemver (v : semVersion) : string := of_bytes (renderBytes v).

(** An identifier as the parser makes it. *)
Definition ident_ok (t : preToken) : Prop :=
  pt_raw t <> "" /\ Forall (fun c => is_pre_char c = true /\ c <> "."%char) (bytes (pt_raw t))
  /\ if isAllDigits (bytes (pt_raw t))
     then t = mkPreToken (pt_raw t) true (digits_value (bytes (pt_raw t))) ""
          /\ digits_value (bytes (pt_raw t)) <= max_i64
     else t = mkPreToken (pt_raw t) false 0 (pt_raw t).

Definition version_ok (v : semVersion) : Prop :=
  0 <= sv_major v <= max_i64 /\ 0 <= sv_minor v <= max_i64 /\ 0 <= sv_patch v <= max_i64
  /\ Forall ident_ok (sv_pre v).

Lemma pretty_N_go_head x s : (0 < x)%N -> exists c r, pretty_N_go x s = String c r /\ c <> "0"%char.
Proof.
  revert s. induction (N.lt_wf_0 x) as [x _ IH]. intros s Hx. rewrite pretty_N_go_step by done.
  destruct (decide (x / 10 = 0)%N) as [E|E]; [|apply IH; [by apply N.div_lt | by apply N.neq_0_lt_0]].
  rewrite E, pretty_N_go_0. eexists _, _. split; [done|]. intros Hc.
  apply N.div_small_iff in E; [|done]. rewrite N.mod_small in Hc by done.
  pose proof (pretty_N_char_value x E) as Hv. rewrite Hc in Hv. cbn in Hv. lia.
Qed.

Lemma matchNumber_itoa n k : 0 <= n -> match k with c :: _ => is_digit c = false | [] => True end ->
  matchNumber (bytes (itoa n) ++ k) = Some (bytes (itoa n), k).
Proof.
  intros Hn Hk. destruct (decide (n = 0)) as [->|Hz]; [done|].
  pose proof (itoa_digits n Hn) as Hd.
  assert (exists c r, itoa n = String c r /\ c <> "0"%char) as (c & r & E & Hc).
  { destruct n as [|p|p]; [done| |lia]. unfold itoa, pretty, pretty_Z, pretty, pretty_positive, pretty, pretty_N.
    case_decide; [done|]. apply pretty_N_go_head. lia. }
  rewrite E in *. change (bytes (String c r)) with (c :: bytes r) in *. cbn [app matchNumber].
  rewrite bool_decide_eq_false_2 by done. inversion Hd as [|? ? Hc' ? E']; subst. rewrite Hc'.
  rewrite <-(spanWhile_app is_digit (c :: bytes r) k Hd Hk). done.
Qed.

Lemma Atoi_itoa n : 0 <= n <= max_i64 -> Atoi (bytes (itoa n)) = Ok n.
Proof. intros Hn. unfold Atoi. rewrite itoa_value by lia. by rewrite (proj2 (Z.leb_le _ _)) by lia. Qed.

Lemma split_dotted parts : parts <> [] -> Forall (fun p => "."%char ∉ p) parts ->
  split_bytes "."%char (dotted parts) = parts.
Proof.
  intros Hne HF. induction HF as [|p parts Hp HF IH]; [done|].
  destruct parts as [|q parts]; [by apply split_bytes_single|].
  cbn [dotted]. rewrite split_bytes_app by done. f_equal. by apply IH.
Qed.

Lemma dotted_chars (P : ascii -> Prop) parts : P "."%char -> Forall (Forall P) parts -> Forall P (dotted parts).
Proof.
  intros Hdot HF. induction HF as [|p parts Hp HF IH]; [constructor|].
  destruct parts as [|q parts]; [done|]. cbn [dotted]. apply Forall_app. split; [done|]. by constructor.
Qed.

Lemma pre_char_ascii c : is_pre_char c = true -> ascii_nonspace c = true.
Proof. destruct c as [[] [] [] [] [] [] [] []]; done. Qed.

Lemma word_trimmed l : Forall (fun c => ascii_nonspace c = true) l -> trimmed (of_bytes l).
Proof. intros HF. apply ascii_trimmed. by rewrite bytes_of_bytes. Qed.

(** ** Reading the canonical form back *)

Lemma str_empty_neq s : s <> "" -> (s =s? "") = false.
Proof. apply str_eqb_neq. Qed.

Lemma ident_trimmed t : ident_ok t -> trimmed (pt_raw t).
Proof.
  intros (_ & HF & _). rewrite <-(of_bytes_bytes (pt_raw t)). apply word_trimmed.
  eapply Forall_impl; [exact HF|]. intros c [Hc _]. by apply pre_char_ascii.
Qed.

Lemma parsePreToken_raw t : ident_ok t -> parsePreToken (pt_raw t) = Ok t.
Proof.
  intros Ht. pose proof (ident_trimmed t Ht) as Htr. destruct Ht as (Hne & _ & Hk). unfold parsePreToken.
  rewrite (TrimSpace_id _ Htr), (str_empty_neq _ Hne). cbn [negb].
  destruct (isAllDigits (bytes (pt_raw t))); [|by rewrite <-Hk].
  destruct Hk as [Hk Hb]. unfold Atoi. rewrite (proj2 (Z.leb_le _ _) Hb). cbn. by rewrite <-Hk.
Qed.

Lemma parsePreTokens_raw pre : Forall ident_ok pre -> parsePreTokens (pt_raw <$> pre) = Ok pre.
Proof.
  induction 1 as [|t pre Ht _ IH]; [done|]. cbn. rewrite (parsePreToken_raw t Ht). cbn.
  cbn in IH. by rewrite IH.
Qed.

Lemma pre_chars pre : Forall ident_ok pre ->
  Forall (fun c => is_pre_char c = true) (dotted (bytes ∘ pt_raw <$> pre)).
Proof.
  intros HF. apply dotted_chars; [done|]. apply Forall_fmap. eapply Forall_impl; [exact HF|].
  intros t (_ & Hc & _). eapply Forall_impl; [exact Hc|]. by intros c [].
Qed.

Lemma dotted_nonempty p parts : p <> [] -> dotted (p :: parts) <> [].
Proof. destruct parts; cbn; [done|]. intros Hp E. by apply app_eq_nil in E as [? _]. Qed.

Lemma parsePreRelease_dotted pre : pre <> [] -> Forall ident_ok pre ->
  parsePreRelease (of_bytes (dotted (bytes ∘ pt_raw <$> pre))) = Ok pre.
Proof.
  intros Hne HF. unfold parsePreRelease. rewrite TrimSpace_id.
  - rewrite str_empty_neq.
    + unfold Split. rewrite bytes_of_bytes, split_dotted.
      * rewrite <-list_fmap_compose. erewrite list_fmap_ext; [by apply parsePreTokens_raw|].
        intros i t _. cbn. apply of_bytes_bytes.
      * by destruct pre.
      * apply Forall_fmap. eapply Forall_impl; [exact HF|]. intros t (_ & Hc & _) Hin.
        rewrite Forall_forall in Hc. by destruct (Hc _ Hin).
    + destruct HF as [|t pre (Hr & _) _]; [done|]. intros E. apply (f_equal bytes) in E.
      rewrite bytes_of_bytes in E. revert E. apply dotted_nonempty. cbn. intros E. destruct Hr.
      by apply bytes_inj.
  - apply word_trimmed. eapply Forall_impl; [by apply pre_chars|]. apply pre_char_ascii.
Qed.

Lemma matchSuffix_word sign w : w <> [] -> Forall (fun c => is_pre_char c = true) w ->
  matchSuffix sign (sign :: w) = Some (w, []).
Proof.
  intros Hne HF. unfold matchSuffix, dropByte. rewrite bool_decide_eq_true_2 by done. cbn.
  pose proof (spanWhile_app is_pre_char w [] HF I) as E. rewrite app_nil_r in E. rewrite E. by destruct w.
Qed.

Lemma dropByte_number c n k : 0 <= n -> is_digit c = false -> dropByte c (bytes (itoa n) ++ k) = None.
Proof.
  intros Hn Hc. pose proof (itoa_digits n Hn) as Hd. pose proof (itoa_nonempty n) as Hne.
  destruct Hd as [|d l Hd _]; [done|]. cbn. rewrite bool_decide_eq_false_2; [done|]. by intros ->; rewrite Hc in Hd.
Qed.

Lemma matchSemver_render v : version_ok v -> matchSemver (renderBytes v) =
  Some (bytes (itoa (sv_major v)), bytes (itoa (sv_minor v)), bytes (itoa (sv_patch v)),
        dotted (bytes ∘ pt_raw <$> sv_pre v)).
Proof.
  intros (H1 & H2 & H3 & HF). unfold matchSemver, renderBytes.
  rewrite dropByte_number by (done || lia). cbn [default]. rewrite matchNumber_itoa by (done || lia). cbn [mbind option_bind].
  unfold dropByte at 2. rewrite bool_decide_eq_true_2 by done. cbn [mbind option_bind].
  rewrite matchNumber_itoa by (done || lia). cbn [mbind option_bind].
  unfold dropByte at 1. rewrite bool_decide_eq_true_2 by done. cbn [mbind option_bind].
  rewrite matchNumber_itoa; [|lia|by destruct (sv_pre v)]. cbn [mbind option_bind].
  destruct (sv_pre v) as [|t pre] eqn:Hp; [done|]. rewrite matchSuffix_word; [done| |by apply pre_chars].
  inversion HF as [|? ? (Hr & _)]; subst. apply dotted_nonempty. cbn. intros E. destruct Hr. by apply bytes_inj.
Qed.

Lemma render_chars v : version_ok v -> Forall (fun c => is_pre_char c = true) (renderBytes v).
Proof.
  intros (H1 & H2 & H3 & HF). unfold renderBytes.
  assert (Hd : forall n, 0 <= n -> Forall (fun c => is_pre_char c = true) (bytes (itoa n))).
  { intros n Hn. eapply Forall_impl; [by apply itoa_digits|]. intros c. destruct c as [[] [] [] [] [] [] [] []]; done. }
  repeat first [apply Forall_app; split; [apply Hd; lia|] | constructor; [done|]].
  pose proof (pre_chars _ HF). destruct (sv_pre v); [constructor|]. by constructor.
Qed.

Lemma render_trimmed v : version_ok v -> trimmed (renderSemver v).
Proof.
  intros Hv. apply word_trimmed. eapply Forall_impl; [by apply render_chars|]. apply pre_char_ascii.
Qed.

Lemma parse_render v : version_ok v -> parseSemver (renderSemver v) = Ok v.
Proof.
  intros Hv. unfold parseSemver. rewrite (TrimSpace_id _ (render_trimmed v Hv)). unfold renderSemver.
  rewrite bytes_of_bytes, matchSemver_render by done. destruct Hv as (H1 & H2 & H3 & HF).
  rewrite !Atoi_itoa by done. cbn [result_bind]. destruct v as [ma mi pa pre]; cbn [sv_major sv_minor sv_patch sv_pre] in *.
  destruct (decide (pre = [])) as [->|Hne]; [done|]. by rewrite parsePreRelease_dotted.
Qed.

(** ** What the parser makes *)

Lemma spanWhile_fst p l a b : spanWhile p l = (a, b) -> Forall (fun c => p c = true) a.
Proof.
  revert a b. induction l as [|c l IH]; intros a b; cbn; [intros [= <- _]; constructor|].
  destruct (p c) eqn:Hc; [|intros [= <- _]; constructor].
  destruct (spanWhile p l) as [a' b']. intros [= <- _]. constructor; [done | by eapply IH].
Qed.

Lemma digits_value_nonneg l : Forall (fun c => is_digit c = true) l -> 0 <= digits_value l.
Proof.
  induction l as [|c l IH] using rev_ind; intros HF; [cbn; lia|].
  apply Forall_app in HF as [HF Hc]. rewrite digits_value_app. unfold digits_value at 2. cbn.
  inversion Hc as [|? ? Hd]; subst. unfold is_digit in Hd. apply andb_true_iff in Hd as [Hd _].
  apply N.leb_le in Hd. specialize (IH HF). lia.
Qed.

Lemma matchNumber_digits l a b : matchNumber l = Some (a, b) -> Forall (fun c => is_digit c = true) a.
Proof.
  destruct l as [|c l]; [done|]. unfold matchNumber. case_bool_decide as E.
  - intros [= <- _]. subst. by repeat constructor.
  - destruct (is_digit c); [|done]. intros H%(inj Some). by eapply spanWhile_fst.
Qed.

Lemma Atoi_ok l v : Forall (fun c => is_digit c = true) l -> Atoi l = Ok v -> 0 <= v <= max_i64.
Proof.
  intros HF. unfold Atoi. destruct (Z.leb_spec (digits_value l) max_i64); [|done]. intros [= <-].
  split; [by apply digits_value_nonneg | done].
Qed.

Lemma matchSuffix_chars sign l w r : matchSuffix sign l = Some (w, r) -> Forall (fun c => is_pre_char c = true) w.
Proof.
  unfold matchSuffix. destruct (dropByte sign l) as [k|]; [cbn|done].
  destruct (spanWhile is_pre_char k) as [[|c a] b] eqn:E; [done|]. intros [= <- _]. by eapply spanWhile_fst.
Qed.

Lemma matchSemver_groups l ma mi pa pre : matchSemver l = Some (ma, mi, pa, pre) ->
  Forall (fun c => is_digit c = true) ma /\ Forall (fun c => is_digit c = true) mi
  /\ Forall (fun c => is_digit c = true) pa /\ Forall (fun c => is_pre_char c = true) pre.
Proof.
  unfold matchSemver. intros H. apply bind_Some in H as ([ma' l1] & H1 & H).
  apply bind_Some in H as (l2 & _ & H). apply bind_Some in H as ([mi' l3] & H2 & H).
  apply bind_Some in H as (l4 & _ & H). apply bind_Some in H as ([pa' l5] & H3 & H).
  destruct (matchSuffix "-"%char l5) as [[w r]|] eqn:Hs; cbn [default from_option id] in H;
    case_match; try done; injection H as <- <- <- <-; split_and!;
    first [by eapply matchNumber_digits | by eapply matchSuffix_chars | constructor].
Qed.

Lemma split_bytes_parts sep l p : p ∈ split_bytes sep l -> (sep ∉ p) /\ forall c, c ∈ p -> c ∈ l.
Proof.
  revert p. induction l as [|c l IH]; intros p; cbn.
  - rewrite list_elem_of_singleton. intros ->. set_solver.
  - case_bool_decide as E.
    + rewrite elem_of_cons. intros [->|[H1 H2]%IH]; set_solver.
    + destruct (split_bytes sep l) as [|q rest] eqn:Hs.
      * rewrite list_elem_of_singleton. intros ->. set_solver.
      * rewrite elem_of_cons. intros [->|Hp].
        -- destruct (IH q) as [H1 H2]; [set_solver|]. set_solver.
        -- destruct (IH p) as [H1 H2]; [set_solver|]. set_solver.
Qed.

Lemma parsePreToken_ok p t : Forall (fun c => is_pre_char c = true /\ c <> "."%char) (bytes p) ->
  parsePreToken p = Ok t -> ident_ok t.
Proof.
  intros HF. unfold parsePreToken, Atoi. rewrite TrimSpace_id.
  2:{ rewrite <-(of_bytes_bytes p). apply word_trimmed. eapply Forall_impl; [exact HF|].
      intros c [Hc _]. by apply pre_char_ascii. }
  destruct (str_eqb_spec p "") as [->|Hne]; [done|]. cbn [negb].
  destruct (isAllDigits (bytes p)) eqn:Hd.
  - destruct (Z.leb_spec (digits_value (bytes p)) max_i64); [cbn|done]. intros [= <-].
    unfold ident_ok. cbn [pt_raw]. by rewrite Hd.
  - intros [= <-]. unfold ident_ok. cbn [pt_raw]. by rewrite Hd.
Qed.

Lemma parsePreTokens_ok parts ts :
  Forall (fun p => Forall (fun c => is_pre_char c = true /\ c <> "."%char) (bytes p)) parts ->
  parsePreTokens parts = Ok ts -> Forall ident_ok ts.
Proof.
  intros HF. revert ts. induction HF as [|p parts Hp _ IH]; intros ts; cbn; [intros [= <-]; constructor|].
  rewrite result_bind_ok. intros (t & Ht & H). apply result_bind_ok in H as (ts' & Hts & [= <-]).
  constructor; [by eapply parsePreToken_ok | by apply IH].
Qed.

Lemma parsePreRelease_ok l ts : Forall (fun c => is_pre_char c = true) l ->
  parsePreRelease (of_bytes l) = Ok ts -> Forall ident_ok ts.
Proof.
  intros HF. unfold parsePreRelease. rewrite TrimSpace_id
    by (apply word_trimmed; eapply Forall_impl; [exact HF | apply pre_char_ascii]).
  case_match; [intros [= <-]; constructor|]. apply parsePreTokens_ok. unfold Split. rewrite bytes_of_bytes.
  apply Forall_fmap, Forall_forall. intros p Hp. cbn. rewrite bytes_of_bytes. apply Forall_forall. intros c Hc.
  destruct (split_bytes_parts _ _ _ Hp) as [Hdot Hin]. rewrite Forall_forall in HF. split; [auto|]. by intros ->.
Qed.

Lemma parseSemver_ok s v : parseSemver s = Ok v -> version_ok v.
Proof.
  unfold parseSemver. destruct (matchSemver _) as [[[[ma mi] pa] pre]|] eqn:Hm; [|done].
  apply matchSemver_groups in Hm as (H1 & H2 & H3 & H4). rewrite result_bind_ok. intros (a & Ha & H).
  apply result_bind_ok in H as (b & Hb & H). apply result_bind_ok in H as (c & Hc & H).
  apply result_bind_ok in H as (ts & Hts & [= <-]). unfold version_ok; cbn.
  split; [by apply (Atoi_ok ma)|]. split; [by apply (Atoi_ok mi)|]. split; [by apply (Atoi_ok pa)|].
  by apply (parsePreRelease_ok pre).
Qed.

(** The versions the parser makes are those whose numbers fit an int and whose
    identifiers are non-empty words of the alphabet, marked numeric exactly when they
    are all digits; each of them is printed in canonical form and read back as it was. *)
Theorem semver_round_trip (v : semVersion) :
  (version_ok v <-> exists s, parseSemver s = Ok v)
  /\ (version_ok v <-> parseSemver (renderSemver v) = Ok v).
Proof.
  split; split; [intros H; eexists; by apply parse_render | intros [s H]; by eapply parseSemver_ok
    | apply parse_render | apply parseSemver_ok].
Qed.

(** ** Ranges *)

Lemma fields_word w l fuel acc :
  Forall (fun c => ascii_nonspace c = true) w -> (length w <= fuel)%nat ->
  fields_fuel fuel acc (w ++ l) = fields_fuel (fuel - length w) (reverse w ++ acc) l.
Proof.
  intros HF. revert fuel acc. induction HF as [|c w Hc _ IH]; intros fuel acc Hl.
  - by rewrite Nat.sub_0_r.
  - destruct fuel as [|fuel]; [cbn in Hl; lia|]. cbn [app fields_fuel]. rewrite space_len_ascii_head by done.
    rewrite IH by (cbn in Hl; lia). by rewrite reverse_cons, <-app_assoc.
Qed.

(** Two words with a space between. *)
Lemma Fields_two u w :
  u <> [] -> w <> [] -> Forall (fun c => ascii_nonspace c = true) u -> Forall (fun c => ascii_nonspace c = true) w ->
  Fields (of_bytes (u ++ " "%char :: w)) = [of_bytes u; of_bytes w].
Proof.
  intros Hu Hw HFu HFw. unfold Fields. rewrite bytes_of_bytes, length_app, fields_word by (done || lia).
  replace (length u + length (" "%char :: w) - length u)%nat with (S (length w)) by (cbn; lia).
  cbn [fields_fuel space_len]. change (is_space1 " "%char) with true. cbn [drop].
  rewrite app_nil_r. destruct (reverse u) as [|c r] eqn:Hr.
  { apply (f_equal reverse) in Hr. by rewrite reverse_involutive in Hr. }
  rewrite <-Hr, reverse_involutive. rewrite drop_0. rewrite <-(app_nil_r w) at 2. rewrite fields_word by done. rewrite Nat.sub_diag.
  cbn [fields_fuel]. rewrite app_nil_r. destruct (reverse w) as [|d k] eqn:Hk.
  { apply (f_equal reverse) in Hk. by rewrite reverse_involutive in Hk. }
  by rewrite <-Hk, reverse_involutive.
Qed.

Lemma render_nonempty v : renderBytes v <> [].
Proof. unfold renderBytes. intros E. apply app_eq_nil in E as [E _]. by apply itoa_nonempty in E. Qed.

Lemma parseComparator_render op sign v :
  version_ok v -> splitOperator (sign ++ renderBytes v) = (op, renderBytes v) ->
  Forall (fun c => ascii_nonspace c = true) sign ->
  parseComparator (of_bytes (sign ++ renderBytes v)) = Ok (mkSemverComparator op v).
Proof.
  intros Hv Hop Hs. unfold parseComparator. pose proof (render_nonempty v) as Hne.
  rewrite TrimSpace_id.
  2:{ apply word_trimmed, Forall_app. split; [done|]. eapply Forall_impl; [by apply render_chars | apply pre_char_ascii]. }
  rewrite str_empty_neq; cbn [negb].
  2:{ intros E. apply (f_equal bytes) in E. rewrite bytes_of_bytes in E. by apply app_eq_nil in E as [_ ?]. }
  rewrite bytes_of_bytes, Hop. cbv beta iota zeta. fold (renderSemver v).
  rewrite (TrimSpace_id _ (render_trimmed v Hv)), str_empty_neq.
  - cbn [negb]. by rewrite (parse_render v Hv).
  - intros E. apply (f_equal bytes) in E. unfold renderSemver in E. by rewrite bytes_of_bytes in E.
Qed.

(** The expression [>=lo,<hi]. *)
Definition intervalExpr (lo hi : semVersion) : string :=
  of_bytes (bytes ">=" ++ renderBytes lo ++ ","%char :: bytes "<" ++ renderBytes hi).

Lemma no_commas l : Forall (fun c => is_pre_char c = true) l ->
  (fun c => if bool_decide (c = ","%char) then " "%char else c) <$> l = l.
Proof.
  induction 1 as [|c l Hc _ IH]; [done|]. cbn. f_equal; [|exact IH].
  rewrite bool_decide_eq_false_2; [done|]. by intros ->.
Qed.

(** The byte after the sign is a digit, so the sign is read as it was written. *)
Lemma splitOperator_less v : version_ok v -> splitOperator (bytes "<" ++ renderBytes v) = (OpLess, renderBytes v).
Proof.
  intros ((H1 & _) & _). pose proof (itoa_digits _ H1) as Hd. pose proof (itoa_nonempty (sv_major v)) as Hne.
  unfold renderBytes. destruct Hd as [|c l Hc _]; [done|].
  destruct c as [[] [] [] [] [] [] [] []]; cbn in Hc; done.
Qed.

Lemma parse_interval lo hi : version_ok lo -> version_ok hi ->
  parseSemverRange (intervalExpr lo hi) = Ok [mkSemverComparator OpGreaterEqual lo; mkSemverComparator OpLess hi].
Proof.
  intros Hlo Hhi. unfold parseSemverRange, intervalExpr.
  assert (Hw : forall v, version_ok v -> Forall (fun c => ascii_nonspace c = true) (renderBytes v)).
  { intros v Hv. eapply Forall_impl; [by apply render_chars | apply pre_char_ascii]. }
  rewrite TrimSpace_id.
  2:{ apply word_trimmed. repeat (apply Forall_app; split; [first [by apply Hw | by repeat constructor]|]).
      constructor; [done|]. apply Forall_app. split; [repeat constructor | by apply Hw]. }
  rewrite str_empty_neq by done. cbn [negb]. rewrite bytes_of_bytes, !fmap_app, fmap_cons, fmap_app.
  rewrite (no_commas (renderBytes lo)), (no_commas (renderBytes hi)) by (by apply render_chars). rewrite bool_decide_eq_true_2 by done.
  change ((fun c => if bool_decide (c = ","%char) then " "%char else c) <$> bytes ">=") with (bytes ">=").
  change ((fun c => if bool_decide (c = ","%char) then " "%char else c) <$> bytes "<") with (bytes "<").
  rewrite app_assoc, Fields_two; [|done|done|apply Forall_app; split; [repeat constructor | by apply Hw]..].
  cbn [parseComparators].
  rewrite (parseComparator_render OpGreaterEqual (bytes ">=") lo) by first [done | by repeat constructor]. cbn [result_bind].
  rewrite (parseComparator_render OpLess (bytes "<") hi)
    by first [done | by apply splitOperator_less | by repeat constructor]. done.
Qed.

(** A range with a lower bound and an excluded upper bound, written in canonical
    form, admits exactly the versions that do not precede the lower bound and precede
    the upper one; it never fails. *)
Theorem semver_interval_range (lo hi v : semVersion) (Hlo : version_ok lo) (Hhi : version_ok hi) (Hv : version_ok v) :
  exists admitted, EvaluateSemverRange (intervalExpr lo hi) (renderSemver v) = Ok admitted
  /\ (admitted = true <-> (precedes lo v \/ samePrecedence lo v) /\ precedes v hi).
Proof.
  unfold EvaluateSemverRange. rewrite (parse_render v Hv), (parse_interval lo hi Hlo Hhi). cbn [result_bind forallb].
  eexists. split; [done|]. rewrite <-!compareSemver_lt, <-compareSemver_zero, andb_true_r, andb_true_iff.
  unfold matchComparator; cbn [sc_op sc_version]. rewrite Z.leb_le, Z.ltb_lt.
  pose proof (cmp_flip (cmp := compareSemver) lo v). pose proof (cmp_sign (cmp := compareSemver) lo v).
  pose proof (cmp_sign (cmp := compareSemver) v hi). lia.
Qed.

Lemma semver_interval_range_witness :
  exists admitted, EvaluateSemverRange ">=1.2.0-rc.1,<2.0.0" "1.2.0-rc.10" = Ok admitted
  /\ (admitted = true <->
      (precedes (mkSemVersion 1 2 0 [mkPreToken "rc" false 0 "rc"; mkPreToken "1" true 1 ""])
                (mkSemVersion 1 2 0 [mkPreToken "rc" false 0 "rc"; mkPreToken "10" true 10 ""])
       \/ samePrecedence (mkSemVersion 1 2 0 [mkPreToken "rc" false 0 "rc"; mkPreToken "1" true 1 ""])
                (mkSemVersion 1 2 0 [mkPreToken "rc" false 0 "rc"; mkPreToken "10" true 10 ""]))
      /\ precedes (mkSemVersion 1 2 0 [mkPreToken "rc" false 0 "rc"; mkPreToken "10" true 10 ""])
                  (mkSemVersion 2 0 0 [])).
Proof.
  apply (semver_interval_range
    (mkSemVersion 1 2 0 [mkPreToken "rc" false 0 "rc"; mkPreToken "1" true 1 ""]) (mkSemVersion 2 0 0 [])
    (mkSemVersion 1 2 0 [mkPreToken "rc" false 0 "rc"; mkPreToken "10" true 10 ""]));
    repeat (split || constructor); vm_compute; congruence.
Defined.
