(* ===== verification/AdapterCapability.v ===== *)
(** * Adapter capability negotiation

    [adapter/capability/negotiation.go]: which capabilities of a request an adapter
    declares, and whether the request is accepted, downgraded or refused. A nil slice
    and an empty one are the same list: the code only ranges over them and takes their
    length. The abstract specification works on sets of capability names. *)
From S2P Require Import Prelude GoStrings.

Local Open Scope bool_scope.
Local Open Scope string_scope.
Local Open Scope list_scope.

Definition StrategyFailFast : string := "fail_fast".
Definition StrategyBestEffort : string := "best_effort".

Definition ReasonMissingRequired : string := "adapter.capability.missing_required".
Definition ReasonOptionalDowngraded : string := "adapter.capability.optional_downgraded".
Definition ReasonStrategyOverrideApply : string := "adapter.capability.strategy_override_applied".
Definition CodeInvalidStrategy : string := "adapter.capability.invalid_strategy".

Record CapabilitySet : Type := mkCapabilitySet {
  cs_Required : list string;
  cs_Optional : list string
}.

Record CapabilityRequest : Type := mkCapabilityRequest {
  cr_Required : list string;
  cr_Optional : list string;
  cr_StrategyOverride : string
}.

Record NegotiationDiagnostics : Type := mkNegotiationDiagnostics {
  nd_StrategyApplied : string;
  nd_StrategyOverrideApplied : bool;
  nd_MissingRequired : list string;
  nd_MissingOptional : list string;
  nd_DowngradedOptional : list string;
  nd_ReasonCodes : list string
}.

Record Outcome : Type := mkOutcome {
  oc_Accepted : bool;
  oc_Downgraded : bool;
  oc_AppliedStrategy : string;
  oc_StrategyOverrideApplied : bool;
  oc_MissingRequired : list string;
  oc_MissingOptional : list string;
  oc_DowngradedOptional : list string;
  oc_Reasons : list string;
  oc_Diagnostics : NegotiationDiagnostics
}.

Record NegotiationError : Type := mkNegotiationError {
  ne_Code : string;
  ne_Message : string
}.

Definition NegotiationError_Error (e : NegotiationError) : string :=
  "[" +:+ ne_Code e +:+ "] " +:+ ne_Message e.

(** The keys that are not empty and not [seen], in order. *)
Fixpoint collectKeys (seen : gset string) (l : list string) : list string :=
  match l with
  | [] => []
  | raw :: l =>
      let key := lower_trim raw in
      if key =s? "" then collectKeys seen l
      else if bool_decide (key ∈ seen) then collectKeys seen l
      else key :: collectKeys ({[key]} ∪ seen) l
  end.

Definition normalizeCapabilities (l : list string) : list string := sort_strings (collectKeys ∅ l).

Definition union (a b : list string) : list string := sort_strings (collectKeys ∅ (a ++ b)).

Definition normalizeSet (s : CapabilitySet) : CapabilitySet :=
  mkCapabilitySet (normalizeCapabilities (cs_Required s)) (normalizeCapabilities (cs_Optional s)).

Definition normalizeRequest (r : CapabilityRequest) : CapabilityRequest :=
  mkCapabilityRequest (normalizeCapabilities (cr_Required r)) (normalizeCapabilities (cr_Optional r))
    (lower_trim (cr_StrategyOverride r)).

Definition IsStrategy (s : string) : bool :=
  let s := lower_trim s in (s =s? StrategyFailFast) || (s =s? StrategyBestEffort).

Definition strategyNames : string := "[" +:+ StrategyFailFast +:+ "," +:+ StrategyBestEffort +:+ "]".

Definition resolveStrategy (defaultStrategy override : string) : result NegotiationError (string * bool) :=
  let applied := lower_trim defaultStrategy in
  let applied := if applied =s? "" then StrategyFailFast else applied in
  require IsStrategy applied
  orelse mkNegotiationError CodeInvalidStrategy ("default strategy must be one of " +:+ strategyNames);
  let overrideNorm := lower_trim override in
  if overrideNorm =s? "" then Ok (applied, false)
  else
    require IsStrategy overrideNorm
    orelse mkNegotiationError CodeInvalidStrategy ("strategy override must be one of " +:+ strategyNames);
    if overrideNorm =s? applied then Ok (applied, false) else Ok (overrideNorm, true).

Definition missingCapabilities (requested available : list string) : list string :=
  let availableSet : gset string := list_to_set (lower_trim <$> available) in
  sort_strings (omap (fun item =>
    let key := lower_trim item in
    if key =s? "" then None
    else if bool_decide (key ∈ availableSet) then None
    else Some key) requested).

(** [len(l) > 0]. *)
Definition some (l : list string) : bool := negb (bool_decide (l = [])).

Definition buildReasons (missingRequired downgradedOptional : list string) (downgraded overrideApplied : bool)
    : list string :=
  (if some missingRequired then [ReasonMissingRequired] else [])
  ++ (if downgraded && some downgradedOptional then [ReasonOptionalDowngraded] else [])
  ++ (if overrideApplied then [ReasonStrategyOverrideApply] else []).

Definition Negotiate (defaultStrategy : string) (declared : CapabilitySet) (request : CapabilityRequest)
    : result NegotiationError Outcome :=
  let declaredNorm := normalizeSet declared in
  let requestNorm := normalizeRequest request in
  strategy ←ₑ resolveStrategy defaultStrategy (cr_StrategyOverride requestNorm);
  let '(applied, overrideApplied) := strategy in
  let available := union (cs_Required declaredNorm) (cs_Optional declaredNorm) in
  let missingRequired := missingCapabilities (cr_Required requestNorm) available in
  let missingOptional := missingCapabilities (cr_Optional requestNorm) available in
  let accepted := negb (some missingRequired) in
  let strict := (applied =s? StrategyFailFast) && some missingOptional in
  let accepted := if strict then false else accepted in
  let missingRequired := if strict then union missingRequired missingOptional else missingRequired in
  let downgraded := (applied =s? StrategyBestEffort) && some missingOptional in
  let downgradedOptional := if downgraded then missingOptional else [] in
  let reasons := buildReasons missingRequired downgradedOptional downgraded overrideApplied in
  Ok (mkOutcome accepted downgraded applied overrideApplied missingRequired missingOptional downgradedOptional
        reasons (mkNegotiationDiagnostics applied overrideApplied missingRequired missingOptional
                   downgradedOptional reasons)).

(** ** The abstract specification *)

(** The names a list of capabilities stands for. *)
Definition caps (l : list string) : gset string := list_to_set (lower_trim <$> l) ∖ {[""]}.

(** A set as the code reports it. *)
Definition report (s : gset string) : list string := sort_strings (elements s).

(** The decision for what is [available], [required] and [optional]. *)
Definition decision (strategy : string) (overridden : bool) (available required optional : gset string) : Outcome :=
  let missingRequired := required ∖ available in
  let missingOptional := optional ∖ available in
  let strict := bool_decide (strategy = StrategyFailFast) in
  let demanded := if strict then missingRequired ∪ missingOptional else missingRequired in
  let downgraded := if strict then ∅ else missingOptional in
  let reasons :=
    (if decide (demanded = ∅) then [] else [ReasonMissingRequired])
    ++ (if decide (downgraded = ∅) then [] else [ReasonOptionalDowngraded])
    ++ (if overridden then [ReasonStrategyOverrideApply] else []) in
  mkOutcome (bool_decide (demanded = ∅)) (bool_decide (downgraded <> ∅)) strategy overridden
    (report demanded) (report missingOptional) (report downgraded) reasons
    (mkNegotiationDiagnostics strategy overridden (report demanded) (report missingOptional)
       (report downgraded) reasons).

(** ** The loops compute the sets *)

Lemma caps_cons raw l :
  caps (raw :: l) = if decide (lower_trim raw = "") then caps l else {[lower_trim raw]} ∪ caps l.
Proof.
  unfold caps. cbn. generalize (lower_trim raw) as k. generalize (lower_trim <$> l) as m. intros m k.
  case_decide; apply set_eq; intros x; set_solver.
Qed.

Lemma collectKeys_spec l : forall seen x, x ∈ collectKeys seen l <-> x ∈ caps l /\ x ∉ seen.
Proof.
  induction l as [|raw l IH]; intros seen x; [cbn; set_solver|].
  rewrite caps_cons. cbn [collectKeys]. generalize (lower_trim raw) as k. intros k.
  destruct (str_eqb_spec k "") as [E|E]; [by rewrite decide_True, IH|]. rewrite decide_False by done.
  case_bool_decide as Hs; rewrite ?elem_of_cons, IH, !elem_of_union, !elem_of_singleton;
    destruct (decide (x = k)) as [->|]; tauto.
Qed.

Lemma collectKeys_NoDup l : forall seen, NoDup (collectKeys seen l).
Proof.
  induction l as [|raw l IH]; intros seen; cbn; [constructor|].
  case_match; [apply IH|]. case_bool_decide; [apply IH|]. constructor; [|apply IH].
  rewrite collectKeys_spec. intros [_ Hn]. apply Hn, elem_of_union_l. by apply elem_of_singleton.
Qed.

(** A list without duplicates that holds a set. *)
Lemma sort_report l (s : gset string) : NoDup l -> (forall x, x ∈ l <-> x ∈ s) -> sort_strings l = report s.
Proof.
  intros Hl Hs. apply sort_strings_order_irrelevant, NoDup_Permutation; [done | apply NoDup_elements|].
  intros x. by rewrite elem_of_elements.
Qed.

Lemma normalizeCapabilities_report l : normalizeCapabilities l = report (caps l).
Proof. apply sort_report; [apply collectKeys_NoDup|]. intros x. rewrite collectKeys_spec, elem_of_empty. tauto. Qed.

Lemma elem_of_report x s : x ∈ report s <-> x ∈ s.
Proof. unfold report. by rewrite elem_of_sort_strings, elem_of_elements. Qed.

Lemma report_NoDup s : NoDup (report s).
Proof. apply NoDup_sort_strings, NoDup_elements. Qed.

(** A set of names in normal form. *)
Definition normal (s : gset string) : Prop := forall x, x ∈ s -> lower_trim x = x /\ x <> "".

Lemma caps_normal l : normal (caps l).
Proof.
  intros x. unfold caps. rewrite elem_of_difference, elem_of_list_to_set, list_elem_of_fmap.
  intros [(y & -> & _) Hx]. split; [apply lower_trim_idemp|]. intros E. by apply Hx, elem_of_singleton.
Qed.

Lemma normal_fmap s : normal s -> lower_trim <$> report s = report s.
Proof.
  intros Hs. rewrite <-(list_fmap_id (report s)) at 2. apply list_fmap_ext. intros i x Hx.
  apply list_elem_of_lookup_2, elem_of_report in Hx. by destruct (Hs x Hx).
Qed.

Lemma caps_app a b : caps (a ++ b) = caps a ∪ caps b.
Proof. unfold caps. rewrite fmap_app, list_to_set_app_L. by rewrite difference_union_distr_l_L. Qed.

Lemma caps_report s : normal s -> caps (report s) = s.
Proof.
  intros Hs. unfold caps. rewrite normal_fmap by done. apply set_eq. intros x.
  rewrite elem_of_difference, elem_of_list_to_set, elem_of_report, elem_of_singleton.
  specialize (Hs x). tauto.
Qed.

Lemma union_report a b : normal a -> normal b -> union (report a) (report b) = report (a ∪ b).
Proof.
  intros Ha Hb. unfold union. fold (normalizeCapabilities (report a ++ report b)).
  by rewrite normalizeCapabilities_report, caps_app, !caps_report.
Qed.

Lemma missing_report req avail : normal req -> normal avail ->
  missingCapabilities (report req) (report avail) = report (req ∖ avail).
Proof.
  intros Hr Ha. unfold missingCapabilities. rewrite normal_fmap by done.
  set (f := fun item => _). assert (Hf : forall x, x ∈ req -> f x = if decide (x ∈ avail) then None else Some x).
  { intros x Hx. unfold f. destruct (Hr x Hx) as [-> Hne]. rewrite (proj2 (str_eqb_neq _ _) Hne).
    case_bool_decide as H; rewrite elem_of_list_to_set, elem_of_report in H; by case_decide. }
  assert (E : omap f (report req) = list_filter (fun x => x ∉ avail) _ (report req)).
  { assert (HF : Forall (fun x => x ∈ req) (report req)) by (apply Forall_forall; intros x; apply elem_of_report).
    induction HF as [|x l Hx _ IH]; [done|]. cbn. rewrite (Hf x Hx). destruct (decide (x ∈ avail)) as [Hin|Hin].
    - by rewrite decide_False by tauto.
    - rewrite decide_True by done. by f_equal. }
  rewrite E. apply sort_report; [apply NoDup_filter, report_NoDup|]. intros x.
  change (x ∈ filter (fun x => x ∉ avail) (report req) <-> x ∈ req ∖ avail).
  rewrite list_elem_of_filter, elem_of_report, elem_of_difference. tauto.
Qed.

Lemma some_report s : some (report s) = bool_decide (s <> ∅).
Proof.
  unfold some. rewrite <-bool_decide_not. apply bool_decide_ext. split; intros H E; apply H.
  - by rewrite E.
  - apply set_eq. intros x. rewrite <-elem_of_report, E. by rewrite elem_of_nil, elem_of_empty.
Qed.

(** ** The strategy *)

Lemma IsStrategy_cases s : IsStrategy s = true <-> lower_trim s = StrategyFailFast \/ lower_trim s = StrategyBestEffort.
Proof. unfold IsStrategy. by rewrite orb_true_iff, !str_eqb_eq. Qed.

Lemma lower_trim_default d :
  lower_trim (if lower_trim d =s? "" then StrategyFailFast else lower_trim d)
  = if lower_trim d =s? "" then StrategyFailFast else lower_trim d.
Proof. case_match; [by vm_compute | apply lower_trim_idemp]. Qed.

Lemma resolveStrategy_normal d o : resolveStrategy d (lower_trim o) = resolveStrategy d o.
Proof. unfold resolveStrategy. by rewrite lower_trim_idemp. Qed.

(** The override wins where there is one; nothing else than the two names comes out. *)
Lemma resolveStrategy_ok d o s b : resolveStrategy d o = Ok (s, b) ->
  (s = StrategyFailFast \/ s = StrategyBestEffort)
  /\ s = (if lower_trim o =s? "" then (if lower_trim d =s? "" then StrategyFailFast else lower_trim d)
          else lower_trim o)
  /\ b = (negb (lower_trim o =s? "")
          && negb (lower_trim o =s? (if lower_trim d =s? "" then StrategyFailFast else lower_trim d))).
Proof.
  unfold resolveStrategy. set (a := if lower_trim d =s? "" then _ else _). rewrite require_ok.
  rewrite IsStrategy_cases. unfold a at 1 2. rewrite lower_trim_default. fold a. intros [Ha H].
  destruct (lower_trim o =s? "") eqn:Eo; [by injection H as <- <-|].
  apply require_ok in H as [Ho H]. rewrite IsStrategy_cases, lower_trim_idemp in Ho.
  destruct (str_eqb_spec (lower_trim o) a) as [->|]; injection H as <- <-; done.
Qed.

(** ** The theorems *)

Lemma reasons_of (s : gset string) (r : string) :
  (if bool_decide (s <> ∅) then [r] else []) = if decide (s = ∅) then [] else [r].
Proof. by case_bool_decide; case_decide. Qed.

Lemma decision_reports st ov A R O :
  st = StrategyFailFast \/ st = StrategyBestEffort -> normal R -> normal O ->
  let missingRequired := report (R ∖ A) in
  let missingOptional := report (O ∖ A) in
  let strict := (st =s? StrategyFailFast) && some missingOptional in
  let demanded := if strict then union missingRequired missingOptional else missingRequired in
  let downgraded := (st =s? StrategyBestEffort) && some missingOptional in
  let downgradedOptional := if downgraded then missingOptional else [] in
  let reasons := buildReasons demanded downgradedOptional downgraded ov in
  mkOutcome (if strict then false else negb (some missingRequired)) downgraded st ov demanded missingOptional
    downgradedOptional reasons (mkNegotiationDiagnostics st ov demanded missingOptional downgradedOptional reasons)
  = decision st ov A R O.
Proof.
  intros Hst HR HO. cbv zeta. unfold decision.
  assert (HR' : normal (R ∖ A)) by (intros x [Hx _]%elem_of_difference; auto).
  assert (HO' : normal (O ∖ A)) by (intros x [Hx _]%elem_of_difference; auto).
  rewrite (union_report _ _ HR' HO'). clear HR' HO' HR HO. generalize (R ∖ A) as MR, (O ∖ A) as MO. intros MR MO.
  rewrite !some_report. unfold buildReasons. destruct Hst as [-> | ->].
  - rewrite (bool_decide_eq_true_2 (StrategyFailFast = StrategyFailFast)) by done.
    change (StrategyFailFast =s? StrategyFailFast) with true. change (StrategyFailFast =s? StrategyBestEffort) with false.
    cbn [andb]. assert (E1 : (if bool_decide (MO <> ∅) then report (MR ∪ MO) else report MR) = report (MR ∪ MO)).
    { case_bool_decide as H; [done|]. by rewrite H, union_empty_r_L. }
    assert (E2 : (if bool_decide (MO <> ∅) then false else negb (bool_decide (MR <> ∅))) = bool_decide (MR ∪ MO = ∅)).
    { rewrite <-bool_decide_not. repeat case_bool_decide; set_solver. }
    rewrite E1, E2, some_report, reasons_of. done.
  - rewrite (bool_decide_eq_false_2 (StrategyBestEffort = StrategyFailFast)) by done.
    change (StrategyBestEffort =s? StrategyBestEffort) with true. change (StrategyBestEffort =s? StrategyFailFast) with false.
    cbn [andb]. assert (E1 : (if bool_decide (MO <> ∅) then report MO else []) = report MO).
    { case_bool_decide as H; [done|]. by rewrite H. }
    rewrite E1, !some_report, !reasons_of, andb_diag, reasons_of.
    assert (E2 : negb (bool_decide (MR <> ∅)) = bool_decide (MR = ∅)).
    { rewrite <-bool_decide_not. apply bool_decide_ext. split; [apply dec_stable | auto]. }
    by rewrite E2.
Qed.

Lemma Negotiate_decision (d : string) (declared : CapabilitySet) (request : CapabilityRequest) :
  Negotiate d declared request =
  match resolveStrategy d (cr_StrategyOverride request) with
  | Err e => Err e
  | Ok (strategy, overridden) =>
      Ok (decision strategy overridden (caps (cs_Required declared ++ cs_Optional declared))
            (caps (cr_Required request)) (caps (cr_Optional request)))
  end.
Proof.
  unfold Negotiate, normalizeSet, normalizeRequest; cbn [cs_Required cs_Optional cr_Required cr_Optional cr_StrategyOverride].
  rewrite resolveStrategy_normal. destruct (resolveStrategy d _) as [[st ov]|e] eqn:Hs; [|done]. cbn [result_bind].
  apply resolveStrategy_ok in Hs as [Hst _]. rewrite !normalizeCapabilities_report.
  pose proof (caps_normal (cs_Required declared)) as H1. pose proof (caps_normal (cs_Optional declared)) as H2.
  rewrite union_report, <-caps_app by done.
  rewrite !missing_report by apply caps_normal. f_equal. apply decision_reports; [done | apply caps_normal..].
Qed.

(** Negotiation is the set computation it stands for: with the strategy resolved,
    the outcome is the decision on the sets of declared, required and optional names,
    whatever the order, the spelling and the repetitions of the lists; it fails exactly
    where the strategy does. *)
Theorem negotiation_refines_sets (d : string) (declared : CapabilitySet) (request : CapabilityRequest) :
  Negotiate d declared request =
  match resolveStrategy d (cr_StrategyOverride request) with
  | Err e => Err e
  | Ok (strategy, overridden) =>
      Ok (decision strategy overridden (caps (cs_Required declared ++ cs_Optional declared))
            (caps (cr_Required request)) (caps (cr_Optional request)))
  end.
Proof. apply Negotiate_decision. Qed.

(** A capability the adapter declares, by its normal form. *)
Definition declares (declared : CapabilitySet) (c : string) : Prop :=
  exists raw, raw ∈ cs_Required declared ++ cs_Optional declared /\ lower_trim raw = lower_trim c.

Lemma elem_of_caps x l : x ∈ caps l <-> x <> "" /\ exists raw, raw ∈ l /\ lower_trim raw = x.
Proof.
  unfold caps. rewrite elem_of_difference, elem_of_list_to_set, list_elem_of_fmap, elem_of_singleton.
  split; [intros [(y & -> & Hy) Hx]; eauto | intros (Hx & y & Hy & <-); eauto].
Qed.

(** Nothing is missing when every name that is not blank is declared. *)
Lemma none_missing declared l :
  caps l ∖ caps (cs_Required declared ++ cs_Optional declared) = ∅
  <-> forall c, c ∈ l -> lower_trim c <> "" -> declares declared c.
Proof.
  split.
  - intros H%empty_difference_subseteq_L c Hc Hne. assert (Hin : lower_trim c ∈ caps l) by (apply elem_of_caps; eauto).
    apply H, elem_of_caps in Hin as (_ & raw & Hr & E). by exists raw.
  - intros H. apply subseteq_empty_difference_L. intros x (Hx & raw & Hr & <-)%elem_of_caps. apply elem_of_caps. split; [done|].
    destruct (H raw Hr Hx) as (raw' & Hr' & E). eauto.
Qed.

(** What an outcome means: a request is accepted exactly when the adapter declares
    every required capability and, under fail_fast, every optional one; it is downgraded
    exactly when best_effort applies and an optional capability is missing; the strategy
    is the override where one is given, else the default, else fail_fast. *)
Theorem negotiation_decides (d : string) (declared : CapabilitySet) (request : CapabilityRequest) (o : Outcome)
    (H : Negotiate d declared request = Ok o) :
  let all l := forall c, c ∈ l -> lower_trim c <> "" -> declares declared c in
  (oc_Accepted o = true <->
     all (cr_Required request) /\ (oc_AppliedStrategy o = StrategyFailFast -> all (cr_Optional request)))
  /\ (oc_Downgraded o = true <-> oc_AppliedStrategy o = StrategyBestEffort /\ ~ all (cr_Optional request))
  /\ oc_AppliedStrategy o =
       (if lower_trim (cr_StrategyOverride request) =s? "" then
          (if lower_trim d =s? "" then StrategyFailFast else lower_trim d)
        else lower_trim (cr_StrategyOverride request)).
Proof.
  cbv zeta. revert H. rewrite <-!none_missing.
  rewrite Negotiate_decision. destruct (resolveStrategy d _) as [[st ov]|e] eqn:Hs; [|done].
  apply resolveStrategy_ok in Hs as (Hst & <- & _). intros [= <-]. cbn.
  generalize (caps (cr_Required request) ∖ caps (cs_Required declared ++ cs_Optional declared)) as MR.
  generalize (caps (cr_Optional request) ∖ caps (cs_Required declared ++ cs_Optional declared)) as MO. intros MO MR.
  destruct Hst as [-> | ->].
  - rewrite (bool_decide_eq_true_2 (StrategyFailFast = StrategyFailFast)) by done.
    rewrite !bool_decide_eq_true, empty_union_L. split_and!; [tauto | | done]. split; [done | by intros [? _]].
  - rewrite (bool_decide_eq_false_2 (StrategyBestEffort = StrategyFailFast)) by done.
    rewrite !bool_decide_eq_true. split_and!; [|tauto|done]. split; [intros ->; split; [done | by intros ?] | by intros []].
Qed.

Definition downgradedExample : Outcome :=
  mkOutcome true true "best_effort" true [] ["vision"] ["vision"]
    [ReasonOptionalDowngraded; ReasonStrategyOverrideApply]
    (mkNegotiationDiagnostics "best_effort" true [] ["vision"] ["vision"]
       [ReasonOptionalDowngraded; ReasonStrategyOverrideApply]).

Lemma negotiation_decides_witness :
  let declared := mkCapabilitySet ["Streaming"] [" tools "] in
  let request := mkCapabilityRequest ["streaming"] ["tools"; "vision"] "best_effort" in
  let o := downgradedExample in
  let all l := forall c, c ∈ l -> lower_trim c <> "" -> declares declared c in
  (oc_Accepted o = true <->
     all (cr_Required request) /\ (oc_AppliedStrategy o = StrategyFailFast -> all (cr_Optional request)))
  /\ (oc_Downgraded o = true <-> oc_AppliedStrategy o = StrategyBestEffort /\ ~ all (cr_Optional request))
  /\ oc_AppliedStrategy o = "best_effort".
Proof.
  exact (negotiation_decides "" (mkCapabilitySet ["Streaming"] [" tools "])
    (mkCapabilityRequest ["streaming"] ["tools"; "vision"] "best_effort")
    downgradedExample
    ltac:(vm_compute; reflexivity)).
Defined.
