(* ===== verification/GoText.v ===== *)
(** * Go text and ordering

    The parts of [strings], [fmt] and [sort] the agent-to-agent packages use:
    prefixes and substrings, the verbs [%q], [%v] and [%d], and [sort.Slice]. *)
From Stdlib Require Import Ascii.
From S2P Require Import Prelude GoStrings GoNum.

Local Open Scope bool_scope.
Local Open Scope string_scope.
Local Open Scope list_scope.
Local Open Scope Z_scope.

(** ** Prefixes and substrings *)

Definition HasPrefix (s prefix : string) : bool := String.prefix prefix s.

Fixpoint drop_bytes (n : nat) (s : string) : string :=
  match n, s with
  | S n, String _ s => drop_bytes n s
  | _, _ => s
  end.

Definition TrimPrefix (s prefix : string) : string :=
  if HasPrefix s prefix then drop_bytes (String.length prefix) s else s.

Fixpoint Contains (s sub : string) : bool :=
  HasPrefix s sub || match s with EmptyString => false | String _ s => Contains s sub end.

Definition contains_any (s : string) (subs : list string) : bool := existsb (Contains s) subs.

(** ** Formatting *)

(** The verb [%q], [strconv.Quote], which depends on Unicode tables. *)
Class QuoteText : Type := fmt_q : string -> string.

(** The verb [%v] of a slice of strings. *)
Definition fmt_v (l : list string) : string := "[" +:+ String.concat " " l +:+ "]".

Definition double_quote : string := of_bytes [ascii_of_N 34].

(** ** Scanning

    [fmt.Sscanf(s, "%d", &n)]: leading spaces are skipped, a newline among them is an
    error; then an optional sign and as many decimal digits as follow; the rest of the
    input is ignored. *)

Fixpoint skip_space (fuel : nat) (l : list ascii) : option (list ascii) :=
  match fuel with
  | O => Some l
  | S fuel =>
      match l with
      | [] => Some []
      | c :: _ =>
          if (byte_of c =? 10)%N then None
          else match space_len false l with
               | O => Some l
               | n => skip_space fuel (drop n l)
               end
      end
  end.

Definition scan_sign (l : list ascii) : list ascii * list ascii :=
  match l with
  | c :: l' => if (byte_of c =? 43)%N || (byte_of c =? 45)%N then ([c], l') else ([], l)
  | [] => ([], [])
  end.

Definition Sscanf_d (s : string) : result string Z :=
  match skip_space (length (bytes s)) (bytes s) with
  | None => Err "unexpected newline"
  | Some [] => Err "unexpected EOF"
  | Some l =>
      let '(sign, rest) := scan_sign l in
      match rest with
      | [] => Err "unexpected EOF"
      | _ =>
          let digits := (spanWhile is_digit rest).1 in
          match digits with
          | [] => Err "expected integer"
          | _ =>
              let v := digits_value digits in
              let n := if bool_decide (sign = ["-"%char]) then - v else v in
              if (min_i64 <=? n) && (n <=? max_i64) then Ok n
              else Err ("strconv.ParseInt: parsing " +:+ double_quote +:+ of_bytes (sign ++ digits)
                        +:+ double_quote +:+ ": value out of range")
          end
      end
  end.

Example scan_numbers :
  Sscanf_d <$> ["12"; " +7x"; "-3"; ""; "x"; "-"; "9223372036854775808"] =
  [Ok 12; Ok 7; Ok (-3); Err "unexpected EOF"; Err "expected integer"; Err "unexpected EOF";
   Err ("strconv.ParseInt: parsing " +:+ double_quote +:+ "9223372036854775808" +:+ double_quote
        +:+ ": value out of range")].
Proof. vm_compute. reflexivity. Qed.

(** ** [sort.Slice]

    It sorts by a strict order and is not stable: items that compare equal end up in any
    order. *)
Class SortSlice : Type := {
  sort_slice : forall {A}, (A -> A -> bool) -> list A -> list A;
  sort_slice_perm : forall A (less : A -> A -> bool) l, sort_slice less l ≡ₚ l;
  sort_slice_sorted : forall A (less : A -> A -> bool) l,
    (forall a b, less a b = true -> less b a = false) ->
    (forall a b c, less b a = false -> less c b = false -> less c a = false) ->
    Sorted (fun a b => less b a = false) (sort_slice less l)
}.

#[global] Arguments Contains _ _ : simpl never.
#[global] Arguments HasPrefix _ _ : simpl never.
#[global] Arguments TrimPrefix _ _ : simpl never.
