(* ===== verification/A2ATypes.v ===== *)
(** * Agent to agent: data, errors and negotiation

    The types of [a2a/interop.go] and [a2a/async_reporting.go], the error values of the
    package with their classification, and the pure parts of the client: normalisation,
    versions, delivery modes and the choice of a peer. *)
From Stdlib Require Import Ascii.
From S2P Require Import Prelude GoStrings GoNum GoText Paging CoreTypes SchedulerTypes.

Local Open Scope bool_scope.
Local Open Scope string_scope.
Local Open Scope list_scope.
Local Open Scope Z_scope.

(** ** Constants *)

Definition ReasonSubmit := "a2a.submit".
Definition ReasonStatusPoll := "a2a.status_poll".
Definition ReasonCallbackRetry := "a2a.callback_retry".
Definition ReasonResolve := "a2a.resolve".
Definition ReasonSSESubscribe := "a2a.sse_subscribe".
Definition ReasonSSEReconnect := "a2a.sse_reconnect".
Definition ReasonDeliveryFallback := "a2a.delivery_fallback".
Definition ReasonVersionMismatch := "a2a.version_mismatch".
Definition ReasonAsyncSubmit := "a2a.async_submit".
Definition ReasonAsyncReportDeliver := "a2a.async_report_deliver".
Definition ReasonAsyncReportRetry := "a2a.async_report_retry".
Definition ReasonAsyncReportDedup := "a2a.async_report_dedup".
Definition ReasonAsyncReportDrop := "a2a.async_report_drop".

Definition DeliveryModeCallback := "callback".
Definition DeliveryModeSSE := "sse".
Definition VersionPolicyStrictMajor := "strict_major".

Definition DeliveryErrorUnsupported := "a2a.delivery_unsupported".
Definition DeliveryErrorRetryExhausted := "a2a.delivery_retry_exhausted".
Definition DeliveryErrorSSEReconnectExhausted := "a2a.sse_reconnect_exhausted".
Definition DeliveryErrorVersionMismatch := "a2a.version_mismatch".

Definition VersionNegotiationCompatible := "compatible".
Definition VersionNegotiationMismatch := "mismatch".

Definition ErrorLayerTransport := "transport".
Definition ErrorLayerProtocol := "protocol".
Definition ErrorLayerSemantic := "semantic".

(** [core/types]: the class of a failing remote call. *)
Definition ErrMCP := "ErrMCP".

(** ** Task status *)

Inductive TaskStatus : Type :=
| StatusSubmitted
| StatusRunning
| StatusSucceeded
| StatusFailed
| StatusCanceled
| StatusOther (s : string).

#[export] Instance TaskStatus_eq_dec : EqDecision TaskStatus.
Proof. solve_decision. Defined.

Definition TaskStatus_string (st : TaskStatus) : string :=
  match st with
  | StatusSubmitted => "submitted"
  | StatusRunning => "running"
  | StatusSucceeded => "succeeded"
  | StatusFailed => "failed"
  | StatusCanceled => "canceled"
  | StatusOther s => s
  end.

Definition isTerminal (st : TaskStatus) : bool :=
  match st with
  | StatusSucceeded | StatusFailed | StatusCanceled => true
  | _ => false
  end.

Definition mapToSemanticStatus (st : TaskStatus) : ActionStatus :=
  match st with
  | StatusSubmitted => ActionStatusPending
  | StatusRunning => ActionStatusRunning
  | StatusSucceeded => ActionStatusSucceeded
  | StatusFailed => ActionStatusFailed
  | StatusCanceled => ActionStatusCanceled
  | StatusOther _ => ActionStatusFailed
  end.

(** ** Requests and records *)

Record A2ATaskRequest : Type := mkA2ATaskRequest {
  aq_TaskID : string;
  aq_WorkflowID : string;
  aq_TeamID : string;
  aq_StepID : string;
  aq_AttemptID : string;
  aq_AgentID : string;
  aq_PeerID : string;
  aq_Method : string;
  aq_RequiredCapabilities : list string;
  aq_Payload : any_map;
  aq_DeliveryMode : string;
  aq_DeliveryFallbackUsed : bool;
  aq_DeliveryFallbackReason : string;
  aq_VersionLocal : string;
  aq_VersionPeer : string;
  aq_VersionNegotiationResult : string
}.
#[export] Instance eta_A2ATaskRequest : Settable A2ATaskRequest := fun r =>
  mkA2ATaskRequest (aq_TaskID r) (aq_WorkflowID r) (aq_TeamID r) (aq_StepID r) (aq_AttemptID r)
    (aq_AgentID r) (aq_PeerID r) (aq_Method r) (aq_RequiredCapabilities r) (aq_Payload r)
    (aq_DeliveryMode r) (aq_DeliveryFallbackUsed r) (aq_DeliveryFallbackReason r) (aq_VersionLocal r)
    (aq_VersionPeer r) (aq_VersionNegotiationResult r).

Record A2ATaskRecord : Type := mkA2ATaskRecord {
  ac_TaskID : string;
  ac_WorkflowID : string;
  ac_TeamID : string;
  ac_StepID : string;
  ac_AttemptID : string;
  ac_AgentID : string;
  ac_PeerID : string;
  ac_Status : TaskStatus;
  ac_Progress : any_map;
  ac_Result : any_map;
  ac_ErrorClass : string;
  ac_A2AErrorLayer : string;
  ac_ErrorCode : string;
  ac_ErrorMessage : string;
  ac_UpdatedAt : Time;
  ac_DeliveryMode : string;
  ac_DeliveryFallbackUsed : bool;
  ac_DeliveryFallbackReason : string;
  ac_VersionLocal : string;
  ac_VersionPeer : string;
  ac_VersionNegotiationResult : string
}.
#[export] Instance eta_A2ATaskRecord : Settable A2ATaskRecord := fun r =>
  mkA2ATaskRecord (ac_TaskID r) (ac_WorkflowID r) (ac_TeamID r) (ac_StepID r) (ac_AttemptID r)
    (ac_AgentID r) (ac_PeerID r) (ac_Status r) (ac_Progress r) (ac_Result r) (ac_ErrorClass r)
    (ac_A2AErrorLayer r) (ac_ErrorCode r) (ac_ErrorMessage r) (ac_UpdatedAt r) (ac_DeliveryMode r)
    (ac_DeliveryFallbackUsed r) (ac_DeliveryFallbackReason r) (ac_VersionLocal r) (ac_VersionPeer r)
    (ac_VersionNegotiationResult r).

Definition zeroA2ARecord : A2ATaskRecord :=
  mkA2ATaskRecord "" "" "" "" "" "" "" (StatusOther "") ∅ ∅ "" "" "" "" 0 "" false "" "" "" "".

Record AgentCard : Type := mkAgentCard {
  cd_AgentID : string;
  cd_PeerID : string;
  cd_SchemaVersion : string;
  cd_Endpoint : string;
  cd_Capabilities : list string;
  cd_Priority : Z;
  cd_SupportedDeliveryModes : list string
}.
#[export] Instance eta_AgentCard : Settable AgentCard := fun r =>
  mkAgentCard (cd_AgentID r) (cd_PeerID r) (cd_SchemaVersion r) (cd_Endpoint r) (cd_Capabilities r)
    (cd_Priority r) (cd_SupportedDeliveryModes r).

Record RetryPolicy : Type := mkRetryPolicy {
  rt_MaxAttempts : Z;
  rt_Backoff : Duration
}.
#[export] Instance eta_RetryPolicy : Settable RetryPolicy := fun r =>
  mkRetryPolicy (rt_MaxAttempts r) (rt_Backoff r).

Record DeliveryPolicy : Type := mkDeliveryPolicy {
  dp_Mode : string;
  dp_FallbackMode : string;
  dp_CallbackRetry : RetryPolicy;
  dp_SSEReconnect : RetryPolicy
}.
#[export] Instance eta_DeliveryPolicy : Settable DeliveryPolicy := fun r =>
  mkDeliveryPolicy (dp_Mode r) (dp_FallbackMode r) (dp_CallbackRetry r) (dp_SSEReconnect r).

Record CardVersionPolicy : Type := mkCardVersionPolicy {
  vp_Mode : string;
  vp_LocalVersion : string;
  vp_MinSupportedMinor : Z
}.
#[export] Instance eta_CardVersionPolicy : Settable CardVersionPolicy := fun r =>
  mkCardVersionPolicy (vp_Mode r) (vp_LocalVersion r) (vp_MinSupportedMinor r).

(** [SinkImpl] is kept beside the client: its presence is all the policy tells. *)
Record AsyncReportingPolicy : Type := mkAsyncReportingPolicy {
  rp_Enabled : bool;
  rp_Sink : string;
  rp_MaxAttempts : Z;
  rp_BackoffInitial : Duration;
  rp_BackoffMax : Duration;
  rp_JitterRatio : f64
}.
#[export] Instance eta_AsyncReportingPolicy : Settable AsyncReportingPolicy := fun r =>
  mkAsyncReportingPolicy (rp_Enabled r) (rp_Sink r) (rp_MaxAttempts r) (rp_BackoffInitial r)
    (rp_BackoffMax r) (rp_JitterRatio r).

Record ClientPolicy : Type := mkClientPolicy {
  cp_Timeout : Duration;
  cp_RequestMaxAttempts : Z;
  cp_RequestBackoff : Duration;
  cp_CallbackRetry : RetryPolicy;
  cp_Delivery : DeliveryPolicy;
  cp_CardVersion : CardVersionPolicy;
  cp_AsyncReporting : AsyncReportingPolicy
}.
#[export] Instance eta_ClientPolicy : Settable ClientPolicy := fun r =>
  mkClientPolicy (cp_Timeout r) (cp_RequestMaxAttempts r) (cp_RequestBackoff r) (cp_CallbackRetry r)
    (cp_Delivery r) (cp_CardVersion r) (cp_AsyncReporting r).

(** ** Error values

    What [errors.Is], [errors.As] and [Error] see of an error: a plain text, the two
    context errors, the two error types of the package, and [fmt.Errorf] with [%w]. *)
#[warnings="-register-all"]
Inductive GoError : Type :=
| ErrorString (text : string)
| DeadlineExceeded
| Canceled
| a2aReasonError (code layer message : string) (cause : option GoError)
| AsyncReportDeliveryError (cause : option GoError) (retryable : bool)
| WrapError (text : string) (wrapped : GoError).

(** The method [Error]. *)
Fixpoint ErrorText (e : GoError) : string :=
  match e with
  | ErrorString text => text
  | DeadlineExceeded => "context deadline exceeded"
  | Canceled => "context canceled"
  | a2aReasonError code _ message cause =>
      let msg := TrimSpace message in
      let msg := match cause with
                 | Some c => if msg =s? "" then ErrorText c else msg
                 | None => msg
                 end in
      if msg =s? "" then TrimSpace code else msg
  | AsyncReportDeliveryError None _ => "a2a async report delivery error"
  | AsyncReportDeliveryError (Some c) _ => TrimSpace (ErrorText c)
  | WrapError text _ => text
  end.

(** The errors met by following [Unwrap], the error itself first. *)
Fixpoint error_chain (e : GoError) : list GoError :=
  e :: match e with
       | a2aReasonError _ _ _ (Some c) | AsyncReportDeliveryError (Some c) _ | WrapError _ c => error_chain c
       | _ => []
       end.

Definition is_deadline (e : GoError) : bool :=
  existsb (fun e => match e with DeadlineExceeded => true | _ => false end) (error_chain e).

Definition is_canceled (e : GoError) : bool :=
  existsb (fun e => match e with Canceled => true | _ => false end) (error_chain e).

(** [errors.As] with the two error types. *)
Fixpoint as_reason (l : list GoError) : option (string * string) :=
  match l with
  | [] => None
  | a2aReasonError code layer _ _ :: _ => Some (code, layer)
  | _ :: l => as_reason l
  end.

Fixpoint as_delivery (l : list GoError) : option bool :=
  match l with
  | [] => None
  | AsyncReportDeliveryError _ retryable :: _ => Some retryable
  | _ :: l => as_delivery l
  end.

Definition newA2AReasonError (code layer : string) (cause : option GoError) (message : string) : GoError :=
  a2aReasonError (TrimSpace code) layer message cause.

Definition isRetryableTransportError (e : GoError) : bool :=
  is_deadline e || is_canceled e
  || contains_any (lower_trim (ErrorText e)) ["timeout"; "connection"; "transport"].

(** Class, layer and code of an error. *)
Definition ClassifyMessage (message : string) : string * string * string :=
  if contains_any message ["a2a.version_mismatch"; "version mismatch"]
  then (ErrContext, ErrorLayerSemantic, DeliveryErrorVersionMismatch)
  else if contains_any message ["a2a.delivery_unsupported"; "delivery unsupported"]
  then (ErrMCP, ErrorLayerProtocol, DeliveryErrorUnsupported)
  else if contains_any message ["a2a.delivery_retry_exhausted"; "callback retry exhausted"]
  then (ErrMCP, ErrorLayerTransport, DeliveryErrorRetryExhausted)
  else if contains_any message ["a2a.sse_reconnect_exhausted"; "sse reconnect exhausted"]
  then (ErrMCP, ErrorLayerTransport, DeliveryErrorSSEReconnectExhausted)
  else if contains_any message ["unsupported method"; "protocol"]
  then (ErrMCP, ErrorLayerProtocol, "unsupported_method")
  else if contains_any message ["invalid"; "semantic"; "schema"]
  then (ErrContext, ErrorLayerSemantic, "invalid_payload")
  else if contains_any message ["connection"; "refused"; "transport"]
  then (ErrMCP, ErrorLayerTransport, "transport_failure")
  else (ErrMCP, ErrorLayerProtocol, "unknown").

Definition ClassifyError (e : GoError) : string * string * string :=
  match as_reason (error_chain e) with
  | Some (code, layer) =>
      let code := TrimSpace code in
      if code =s? DeliveryErrorVersionMismatch then (ErrContext, ErrorLayerSemantic, code)
      else if code =s? DeliveryErrorUnsupported then (ErrMCP, ErrorLayerProtocol, code)
      else if (code =s? DeliveryErrorRetryExhausted) || (code =s? DeliveryErrorSSEReconnectExhausted)
      then (ErrMCP, ErrorLayerTransport, code)
      else (ErrMCP, if layer =s? "" then ErrorLayerProtocol else layer, code)
  | None =>
      if is_deadline e || is_canceled e then (ErrPolicyTimeout, ErrorLayerTransport, "timeout")
      else ClassifyMessage (lower_trim (ErrorText e))
  end.

Definition IsRetryableReportDeliveryError (e : GoError) : bool :=
  if is_canceled e then false
  else if is_deadline e then true
  else default true (as_delivery (error_chain e)).

Definition classifyAsyncDropReason (e : GoError) : string :=
  if is_canceled e then "context_canceled"
  else if is_deadline e then "timeout"
  else match as_delivery (error_chain e) with
       | Some false => "non_retryable"
       | _ => "retry_exhausted"
       end.
