(* ===== verification/A2ARouting.v ===== *)
(** * Agent to agent: routing and negotiation

    The choice of a peer ([DeterministicRouter]), the normalisation of cards, capabilities
    and versions, and the negotiation of versions and delivery modes of
    [a2a/interop.go]. *)
From Stdlib Require Import Ascii.
From S2P Require Import Prelude GoStrings GoNum GoText Paging CoreTypes SchedulerTypes A2ATypes.

Local Open Scope bool_scope.
Local Open Scope string_scope.
Local Open Scope list_scope.
Local Open Scope Z_scope.

(** ** Normalisation *)

(** The items that are new and not empty, in the order of their first occurrence: the
    loop with the set [seen]. *)
Fixpoint distinct (seen : gset string) (l : list string) : list string :=
  match l with
  | [] => []
  | x :: l =>
      if (x =s? "") || bool_decide (x ∈ seen) then distinct seen l
      else x :: distinct ({[x]} ∪ seen) l
  end.

Definition normalizeCapabilities (l : list string) : list string :=
  sort_strings (distinct ∅ (lower_trim <$> l)).

Definition normalizeVersionString (s : string) : string :=
  let raw := lower_trim s in
  if raw =s? "" then ""
  else
    let raw := if negb (HasPrefix raw "a2a.") && negb (HasPrefix raw "v") then "v" +:+ raw else raw in
    if HasPrefix raw "v" then "a2a." +:+ raw else raw.

Definition normalizeDeliveryMode (s : string) : string :=
  let mode := lower_trim s in
  if (mode =s? DeliveryModeCallback) || (mode =s? DeliveryModeSSE) then mode else "".

Definition normalizeDeliveryModes (l : list string) : list string :=
  sort_strings (distinct ∅ (normalizeDeliveryMode <$> l)).

Definition contains (items : list string) (target : string) : bool :=
  existsb (fun item => EqualFold (TrimSpace item) (TrimSpace target)) items.

Definition normalizeCard (card : AgentCard) : AgentCard :=
  let version := normalizeVersionString (cd_SchemaVersion card) in
  let modes := normalizeDeliveryModes (cd_SupportedDeliveryModes card) in
  card <| cd_AgentID ::= TrimSpace |>
       <| cd_PeerID ::= TrimSpace |>
       <| cd_SchemaVersion := if version =s? "" then "a2a.v1.0" else version |>
       <| cd_Capabilities ::= normalizeCapabilities |>
       <| cd_SupportedDeliveryModes := match modes with [] => [DeliveryModeCallback] | _ => modes end |>.

(** ** Choosing a peer *)

Record DeterministicRouter : Type := mkDeterministicRouter {
  ro_MaxCandidates : Z;
  ro_RequireAll : bool
}.

(** The number of required capabilities the peer has, or -1 when it does not qualify. *)
Fixpoint scoreLoop (have : list string) (requireAll : bool) (score : Z) (required : list string) : Z :=
  match required with
  | [] => if negb requireAll && (score =? 0) then -1 else score
  | r :: required =>
      if bool_decide (r ∈ have) then scoreLoop have requireAll (score + 1) required
      else if requireAll then -1
      else scoreLoop have requireAll score required
  end.

Definition capabilityScore (capabilities required : list string) (requireAll : bool) : Z :=
  match required with
  | [] => 0
  | _ => scoreLoop capabilities requireAll 0 required
  end.

(** A card as the router sees it. *)
Definition candidateCard (card : AgentCard) : AgentCard :=
  let version := TrimSpace (cd_SchemaVersion card) in
  card <| cd_AgentID ::= TrimSpace |>
       <| cd_PeerID ::= TrimSpace |>
       <| cd_SchemaVersion := normalizeVersionString (if version =s? "" then "a2a.v1.0" else version) |>
       <| cd_Capabilities ::= normalizeCapabilities |>
       <| cd_SupportedDeliveryModes ::= normalizeDeliveryModes |>.

Definition hasIdentity (card : AgentCard) : bool :=
  negb ((cd_PeerID card =s? "") || (cd_AgentID card =s? "")).

Definition availableCards (cards : list AgentCard) : list AgentCard :=
  List.filter hasIdentity (candidateCard <$> cards).

(** The two comparison functions given to [sort.Slice]. *)
Definition candidateLess (a b : AgentCard) : bool :=
  if cd_Priority a =? cd_Priority b then
    if cd_PeerID a =s? cd_PeerID b then str_ltb (cd_AgentID a) (cd_AgentID b)
    else str_ltb (cd_PeerID a) (cd_PeerID b)
  else cd_Priority b <? cd_Priority a.

Definition scoredLess (a b : AgentCard * Z) : bool :=
  if a.2 =? b.2 then
    if cd_PeerID a.1 =s? cd_PeerID b.1 then
      if cd_Priority a.1 =? cd_Priority b.1 then str_ltb (cd_AgentID a.1) (cd_AgentID b.1)
      else cd_Priority b.1 <? cd_Priority a.1
    else str_ltb (cd_PeerID a.1) (cd_PeerID b.1)
  else b.2 <? a.2.

Definition scoreCards (r : DeterministicRouter) (required : list string) (cards : list AgentCard)
    : list (AgentCard * Z) :=
  List.filter (fun c => negb (c.2 <? 0))
    ((fun c => (c, capabilityScore (cd_Capabilities c) required (ro_RequireAll r))) <$> cards).

Definition errNoCards : GoError := ErrorString "a2a router has no available cards".
Definition errNoPeer : GoError := ErrorString "a2a router found no peer matching required capabilities".

Section routing.
Context {sorting : SortSlice} {quote : QuoteText}.

(** The cards considered: the first [MaxCandidates] of them, best priority first. *)
Definition candidates (r : DeterministicRouter) (cards : list AgentCard) : list AgentCard :=
  let maxCandidates := if ro_MaxCandidates r <=? 0 then Z.of_nat (length cards) else ro_MaxCandidates r in
  take (Z.to_nat maxCandidates) (sort_slice candidateLess (availableCards cards)).

Definition SelectPeer (r : DeterministicRouter) (cards : list AgentCard) (required : list string)
    : result GoError AgentCard :=
  match availableCards cards with
  | [] => Err errNoCards
  | _ =>
      match sort_slice scoredLess (scoreCards r (normalizeCapabilities required) (candidates r cards)) with
      | [] => Err errNoPeer
      | best :: _ => Ok best.1
      end
  end.

(** ** Versions *)

(** Major and minor number of a card version; the cause of a failure. *)
Definition parseCardVersion (raw : string) : result GoError (Z * Z) :=
  let inp := normalizeVersionString raw in
  require negb (inp =s? "") orelse ErrorString "empty version";
  let number (s : string) : result GoError Z :=
    match Sscanf_d s with Ok n => Ok n | Err why => Err (ErrorString why) end in
  match Split (TrimPrefix (TrimPrefix inp "a2a.") "v") "."%char with
  | [] => Err (ErrorString "empty version")
  | [major] => n ←ₑ number major; Ok (n, 0)
  | major :: minor :: _ => m ←ₑ number major; n ←ₑ number minor; Ok (m, n)
  end.

Definition versionMismatch (cause : option GoError) (message : string) : GoError :=
  newA2AReasonError DeliveryErrorVersionMismatch ErrorLayerSemantic cause message.

(** Local and peer version, the result, and the error. *)
Definition negotiateCardVersion (policy : CardVersionPolicy) (peerVersionRaw : string)
    : string * string * string * option GoError :=
  let mode := lower_trim (vp_Mode policy) in
  let mode := if mode =s? "" then VersionPolicyStrictMajor else mode in
  if negb (mode =s? VersionPolicyStrictMajor)
  then ("", "", VersionNegotiationMismatch,
        Some (versionMismatch None ("a2a card version policy " +:+ fmt_q (vp_Mode policy) +:+ " is not supported")))
  else
    let localRaw := normalizeVersionString (vp_LocalVersion policy) in
    let localRaw := if localRaw =s? "" then "a2a.v1.0" else localRaw in
    let peerRaw := normalizeVersionString peerVersionRaw in
    let peerRaw := if peerRaw =s? "" then "a2a.v1.0" else peerRaw in
    let mismatch cause message :=
      (localRaw, peerRaw, VersionNegotiationMismatch, Some (versionMismatch cause message)) in
    match parseCardVersion localRaw with
    | Err err => mismatch (Some err) ("a2a local card version " +:+ fmt_q localRaw +:+ " is invalid")
    | Ok (localMajor, _) =>
        match parseCardVersion peerRaw with
        | Err err => mismatch (Some err) ("a2a peer card version " +:+ fmt_q peerRaw +:+ " is invalid")
        | Ok (peerMajor, peerMinor) =>
            if negb (localMajor =? peerMajor)
            then mismatch None ("a2a card major version mismatch local=" +:+ localRaw +:+ " peer=" +:+ peerRaw)
            else if peerMinor <? vp_MinSupportedMinor policy
            then mismatch None ("a2a peer card minor version " +:+ itoa peerMinor
                                +:+ " is below min_supported_minor " +:+ itoa (vp_MinSupportedMinor policy))
            else (localRaw, peerRaw, VersionNegotiationCompatible, None)
        end
    end.

(** ** Delivery modes *)

(** The mode, whether it is the fallback, why, and the error. *)
Definition negotiateDeliveryMode (policy : DeliveryPolicy) (requested : string) (peerSupported : list string)
    : string * bool * string * option GoError :=
  let preferred := normalizeDeliveryMode requested in
  let preferred := if preferred =s? "" then normalizeDeliveryMode (dp_Mode policy) else preferred in
  let fallback := normalizeDeliveryMode (dp_FallbackMode policy) in
  let preferred := if preferred =s? "" then DeliveryModeCallback else preferred in
  let fallback := if fallback =s? "" then DeliveryModeCallback else fallback in
  let peerModes := match normalizeDeliveryModes peerSupported with
                   | [] => [DeliveryModeCallback]
                   | modes => modes
                   end in
  if contains peerModes preferred then (preferred, false, "", None)
  else if contains peerModes fallback then (fallback, true, DeliveryErrorUnsupported, None)
  else (preferred, false, "",
        Some (newA2AReasonError DeliveryErrorUnsupported ErrorLayerProtocol None
                ("a2a delivery unsupported: preferred=" +:+ fmt_q preferred +:+ " fallback=" +:+ fmt_q fallback
                 +:+ " peer_supported=" +:+ fmt_v peerModes))).
End routing.

(** The stable sort is one [sort.Slice]. *)
Program Definition stable_sort : SortSlice := {| sort_slice A less l := SliceStable less l |}.
Next Obligation. intros. apply SliceStable_perm. Qed.
Next Obligation. intros. by apply SliceStable_sorted. Qed.

(** Quoting of texts without characters to escape. *)
Definition plain_quote : QuoteText := fun s => double_quote +:+ s +:+ double_quote.

Definition demoCards : list AgentCard :=
  [mkAgentCard "a" "p2" "v1.2" "" ["Search"; "plan"] 1 ["SSE"];
   mkAgentCard "b" "p1" "1.0" "" ["search"] 5 [];
   mkAgentCard "" "p0" "1.0" "" ["search"] 9 []].

Definition peerOf (r : result GoError AgentCard) : string :=
  match r with Ok c => cd_PeerID c | Err e => ErrorText e end.

Example router_choices :
  (fun required => peerOf (SelectPeer (sorting := stable_sort) (mkDeterministicRouter 16 true) demoCards required))
    <$> [["search"; " PLAN"]; []; ["fly"]]
  = ["p2"; "p1"; "a2a router found no peer matching required capabilities"].
Proof. vm_compute. reflexivity. Qed.

#[global] Arguments normalizeCapabilities _ : simpl never.
#[global] Arguments normalizeVersionString _ : simpl never.
#[global] Arguments normalizeDeliveryMode _ : simpl never.
#[global] Arguments normalizeDeliveryModes _ : simpl never.
