(* ===== verification/A2AServer.v ===== *)
(** * Agent to agent: the in-memory server

    [Server] and [InMemoryServer] of [a2a/interop.go]. A critical section is one step. The
    server starts a goroutine per accepted task, which marks the task as running, calls the
    handler and records its answer: three steps, between which other calls run. The mutex is
    part of the state, because [Submit] has paths that return without releasing it: a
    call that finds it taken blocks, which is [None]. *)
From S2P Require Import Prelude GoStrings GoNum GoTime GoText CoreTypes SchedulerTypes Scheduler A2ATypes A2ARouting.

Local Open Scope bool_scope.
Local Open Scope string_scope.
Local Open Scope list_scope.
Local Open Scope Z_scope.

(** The record and the error a call returns; a failing call may return a record too. *)
Abbreviation reply := (A2ATaskRecord * option GoError)%type.

(** ** The interface

    [None] is a call that does not return. *)
Class A2AServer (W : Type) : Type := {
  sv_Submit : W -> A2ATaskRequest -> option (W * reply);
  sv_Status : W -> string -> option (W * reply);
  sv_Result : W -> string -> option (W * reply)
}.

(** ** State *)

(** A goroutine of [execute]: it has not started yet, or waits for the handler. *)
Inductive goroutine : Type :=
| Starting (req : A2ATaskRequest)
| Handling (req : A2ATaskRequest).

Definition goroutine_req (g : goroutine) : A2ATaskRequest :=
  match g with Starting req | Handling req => req end.

Record InMemoryServer : Type := mkInMemoryServer {
  im_mu : bool;
  im_tasks : gmap string A2ATaskRecord;
  im_handler : bool;
  im_seq : Z;
  im_timeline : bool;
  im_events : list Event;
  im_reads : nat;
  im_running : list goroutine
}.
#[export] Instance eta_InMemoryServer : Settable InMemoryServer := fun r =>
  mkInMemoryServer (im_mu r) (im_tasks r) (im_handler r) (im_seq r) (im_timeline r) (im_events r)
    (im_reads r) (im_running r).

Definition NewInMemoryServer (handler timeline : bool) : InMemoryServer :=
  mkInMemoryServer false ∅ handler 0 timeline [] 0 [].

Section server.
Context {quote : QuoteText}.

(** The successive readings of [s.now]. *)
Context (clock : nat -> Time).

Definition nowTime (s : InMemoryServer) : InMemoryServer * Time :=
  (s <| im_reads ::= S |>, clock (im_reads s)).

Definition serverPayload (record : A2ATaskRecord) (reason : string) (now : Time) : any_map :=
  let p : any_map :=
    <["phase" := AnyString "run"]>
    (<["status" := AnyString (ActionStatus_string (mapToSemanticStatus (ac_Status record)))]>
    (<["reason" := AnyString reason]> (<["sequence" := AnyInt (UnixNano now)]>
    (<["task_id" := AnyString (ac_TaskID record)]> (<["attempt_id" := AnyString (ac_AttemptID record)]>
    (<["agent_id" := AnyString (ac_AgentID record)]> (<["peer_id" := AnyString (ac_PeerID record)]>
    (<["delivery_mode" := AnyString (ac_DeliveryMode record)]>
    (<["version_local" := AnyString (ac_VersionLocal record)]>
    (<["version_peer" := AnyString (ac_VersionPeer record)]> ∅)))))))))) in
  let p := putNonEmpty "workflow_id" (ac_WorkflowID record) p in
  let p := putNonEmpty "team_id" (ac_TeamID record) p in
  let p := putNonEmpty "step_id" (ac_StepID record) p in
  let p := if ac_DeliveryFallbackUsed record then <["delivery_fallback_used" := AnyBool true]> p else p in
  let p := putNonEmpty "delivery_fallback_reason" (ac_DeliveryFallbackReason record) p in
  putNonEmpty "version_negotiation_result" (ac_VersionNegotiationResult record) p.

Definition serverEmitTimeline (s : InMemoryServer) (record : A2ATaskRecord) (reason : string) : InMemoryServer :=
  if negb (im_timeline s) then s
  else
    let '(s, now) := nowTime s in
    s <| im_events ::= fun l =>
           l ++ [mkEvent "v1" "action.timeline" (ac_TaskID record) now (serverPayload record reason now)] |>.

(** ** Submitting *)

Definition trimServerRequest (req : A2ATaskRequest) : A2ATaskRequest :=
  req <| aq_TaskID ::= TrimSpace |>
      <| aq_WorkflowID ::= TrimSpace |>
      <| aq_TeamID ::= TrimSpace |>
      <| aq_StepID ::= TrimSpace |>
      <| aq_AttemptID ::= TrimSpace |>
      <| aq_AgentID ::= TrimSpace |>
      <| aq_PeerID ::= TrimSpace |>
      <| aq_Method ::= TrimSpace |>.

Definition submittedRecord (req : A2ATaskRequest) (now : Time) : A2ATaskRecord :=
  mkA2ATaskRecord (aq_TaskID req) (aq_WorkflowID req) (aq_TeamID req) (aq_StepID req) (aq_AttemptID req)
    (aq_AgentID req) (aq_PeerID req) StatusSubmitted ∅ ∅ "" "" "" "" now
    (normalizeDeliveryMode (aq_DeliveryMode req)) (aq_DeliveryFallbackUsed req)
    (TrimSpace (aq_DeliveryFallbackReason req)) (TrimSpace (aq_VersionLocal req))
    (TrimSpace (aq_VersionPeer req)) (TrimSpace (aq_VersionNegotiationResult req)).

(** The request with the id the server gives it when it has none. *)
Definition identified (s : InMemoryServer) (req : A2ATaskRequest) : InMemoryServer * A2ATaskRequest :=
  if aq_TaskID req =s? "" then
    let s := s <| im_seq ::= fun n => wrap_i64 (n + 1) |> in
    (s, req <| aq_TaskID := "a2a-task-" +:+ padded 6 (im_seq s) |>)
  else (s, req).

Definition failed (text : string) : reply := (zeroA2ARecord, Some (ErrorString text)).

Definition ServerSubmit (s : InMemoryServer) (req : A2ATaskRequest) : option (InMemoryServer * reply) :=
  if im_mu s then None
  else
    let s := s <| im_mu := true |> in
    let '(s, req) := identified s (trimServerRequest req) in
    if aq_AgentID req =s? "" then Some (s, failed "a2a submit requires agent_id")
    else if aq_PeerID req =s? "" then Some (s, failed "a2a submit requires peer_id")
    else match im_tasks s !! aq_TaskID req with
    | Some _ =>
        Some (s <| im_mu := false |>, failed ("a2a task_id " +:+ fmt_q (aq_TaskID req) +:+ " already exists"))
    | None =>
        let '(s, now) := nowTime s in
        let record := submittedRecord req now in
        let s := s <| im_tasks ::= insert (ac_TaskID record) record |> <| im_mu := false |> in
        let s := serverEmitTimeline s record ReasonSubmit in
        Some (s <| im_running ::= fun l => l ++ [Starting req] |>, (record, None))
    end.

(** ** Executing *)

Definition updateTask (s : InMemoryServer) (taskID : string) (apply : A2ATaskRecord -> A2ATaskRecord)
    : InMemoryServer :=
  match im_tasks s !! TrimSpace taskID with
  | None => s
  | Some record =>
      let record := apply record in
      let s := s <| im_tasks ::= insert (ac_TaskID record) record |> in
      serverEmitTimeline s record (if isTerminal (ac_Status record) then ReasonResolve else ReasonSubmit)
  end.

Definition stamped (apply : A2ATaskRecord -> A2ATaskRecord) (now : Time) (r : A2ATaskRecord) : A2ATaskRecord :=
  apply r <| ac_UpdatedAt := now |>.

(** [updateTask] with a function that reads the clock. *)
Definition updateTaskNow (s : InMemoryServer) (taskID : string) (apply : A2ATaskRecord -> A2ATaskRecord)
    : InMemoryServer :=
  match im_tasks s !! TrimSpace taskID with
  | None => s
  | Some _ => let '(s, now) := nowTime s in updateTask s taskID (stamped apply now)
  end.

Definition markRunning (r : A2ATaskRecord) : A2ATaskRecord := r <| ac_Status := StatusRunning |>.

Definition handlerMissing (r : A2ATaskRecord) : A2ATaskRecord :=
  r <| ac_Status := StatusFailed |>
    <| ac_ErrorClass := ErrMCP |>
    <| ac_A2AErrorLayer := ErrorLayerProtocol |>
    <| ac_ErrorCode := "handler_missing" |>
    <| ac_ErrorMessage := "a2a handler is not configured" |>.

(** What the answer of the handler makes of the record. *)
Definition answered (answer : result GoError any_map) (r : A2ATaskRecord) : A2ATaskRecord :=
  match answer with
  | Ok result => r <| ac_Status := StatusSucceeded |> <| ac_Result := result |>
  | Err err =>
      let '(class, layer, code) := ClassifyError err in
      r <| ac_Status := StatusFailed |>
        <| ac_ErrorClass := class |>
        <| ac_A2AErrorLayer := layer |>
        <| ac_ErrorCode := code |>
        <| ac_ErrorMessage := ErrorText err |>
  end.

(** One step of the [i]-th goroutine: [answer] is what the handler returns, if the
    goroutine waits for it. *)
Definition executeStep (s : InMemoryServer) (i : nat) (answer : result GoError any_map) : option InMemoryServer :=
  if im_mu s then None
  else match im_running s !! i with
  | None => None
  | Some (Starting req) =>
      Some (updateTaskNow s (aq_TaskID req) markRunning <| im_running := <[i := Handling req]> (im_running s) |>)
  | Some (Handling req) =>
      let apply := if im_handler s then answered answer else handlerMissing in
      Some (updateTaskNow s (aq_TaskID req) apply <| im_running := delete i (im_running s) |>)
  end.

(** ** Reading *)

Definition ServerStatus (s : InMemoryServer) (taskID : string) : option (InMemoryServer * reply) :=
  if im_mu s then None
  else match im_tasks s !! TrimSpace taskID with
  | None => Some (s, failed ("a2a task " +:+ fmt_q taskID +:+ " not found"))
  | Some record => Some (serverEmitTimeline s record ReasonStatusPoll, (record, None))
  end.

Definition ServerResult (s : InMemoryServer) (taskID : string) : option (InMemoryServer * reply) :=
  if im_mu s then None
  else match im_tasks s !! TrimSpace taskID with
  | None => Some (s, failed ("a2a task " +:+ fmt_q taskID +:+ " not found"))
  | Some record =>
      if negb (isTerminal (ac_Status record))
      then Some (s, (record, Some (ErrorString ("a2a task " +:+ fmt_q taskID +:+ " is not terminal yet"))))
      else Some (serverEmitTimeline s record ReasonResolve, (record, None))
  end.

#[export] Instance InMemoryServer_A2AServer : A2AServer InMemoryServer := {|
  sv_Submit := ServerSubmit;
  sv_Status := ServerStatus;
  sv_Result := ServerResult
|}.

(** What can happen on a server: calls of clients and steps of its goroutines. *)
Inductive server_step : InMemoryServer -> InMemoryServer -> Prop :=
| StepSubmit s req s' r : ServerSubmit s req = Some (s', r) -> server_step s s'
| StepStatus s id s' r : ServerStatus s id = Some (s', r) -> server_step s s'
| StepResult s id s' r : ServerResult s id = Some (s', r) -> server_step s s'
| StepExecute s i answer s' : executeStep s i answer = Some s' -> server_step s s'.
End server.

#[global] Arguments serverEmitTimeline _ _ _ _ : simpl never.
