(* ===== verification/A2AClient.v ===== *)
(** * Agent to agent: the client

    [Client] of [a2a/interop.go] over any server: submitting with retries, waiting for a
    result with callback or SSE delivery, polling, and its timeline. A call that does not
    return is [None]. While the client waits others use the server: what they do, and
    whether the context of the caller is done, are arguments, by the number of the wait. *)
From S2P Require Import Prelude GoStrings GoNum GoText CoreTypes SchedulerTypes Scheduler.
From S2P Require Import A2ATypes A2ARouting A2AServer.

Local Open Scope bool_scope.
Local Open Scope string_scope.
Local Open Scope list_scope.
Local Open Scope Z_scope.

(** ** State *)

Record Client (W : Type) : Type := mkClient {
  cl_server : W;
  cl_router : list AgentCard -> list string -> result GoError AgentCard;
  cl_cards : list AgentCard;
  cl_policy : ClientPolicy;
  cl_timeline : bool;
  cl_events : list Event;
  cl_pending : gmap string A2ATaskRecord;
  cl_asyncDelivered : gset string;
  cl_reads : nat;
  cl_waits : nat;
  cl_awaiting : list string
}.
Arguments mkClient {W}.
Arguments cl_server {W}.
Arguments cl_router {W}.
Arguments cl_cards {W}.
Arguments cl_policy {W}.
Arguments cl_timeline {W}.
Arguments cl_events {W}.
Arguments cl_pending {W}.
Arguments cl_asyncDelivered {W}.
Arguments cl_reads {W}.
Arguments cl_waits {W}.
Arguments cl_awaiting {W}.
#[export] Instance eta_Client W : Settable (Client W) := fun r =>
  mkClient (cl_server r) (cl_router r) (cl_cards r) (cl_policy r) (cl_timeline r) (cl_events r)
    (cl_pending r) (cl_asyncDelivered r) (cl_reads r) (cl_waits r) (cl_awaiting r).

(** The world around a client: the successive readings of its clock, what others do to
    the server during a wait, and whether the context is done at the end of it. *)
Record Ambient (W : Type) : Type := mkAmbient {
  am_clock : nat -> Time;
  am_between : nat -> W -> W;
  am_done : nat -> option GoError
}.
Arguments mkAmbient {W}.
Arguments am_clock {W}.
Arguments am_between {W}.
Arguments am_done {W}.

(** A callback, and what it answers to its [n]-th call. *)
Abbreviation callback := (nat -> A2ATaskRecord -> option GoError).

(** ** Policies *)

Definition normalizeAsyncReportingPolicy (p : AsyncReportingPolicy) : AsyncReportingPolicy :=
  let sink := lower_trim (rp_Sink p) in
  let p := p <| rp_Sink := if (sink =s? "callback") || (sink =s? "channel") then sink else "callback" |> in
  let p := if rp_MaxAttempts p <=? 0 then p <| rp_MaxAttempts := 3 |> else p in
  let p := if rp_BackoffInitial p <? 0 then p <| rp_BackoffInitial := 0 |> else p in
  let p := if rp_BackoffInitial p =? 0 then p <| rp_BackoffInitial := 50 * Millisecond |> else p in
  let p := if rp_BackoffMax p <? rp_BackoffInitial p then p <| rp_BackoffMax := rp_BackoffInitial p |> else p in
  let p := if rp_BackoffMax p =? 0 then p <| rp_BackoffMax := 500 * Millisecond |> else p in
  let p := if f64_ltb (rp_JitterRatio p) f64_zero then p <| rp_JitterRatio := f64_zero |> else p in
  let p := if f64_ltb f64_one (rp_JitterRatio p) then p <| rp_JitterRatio := f64_one |> else p in
  if f64_leb (rp_JitterRatio p) f64_zero && f64_leb f64_zero (rp_JitterRatio p)
  then p <| rp_JitterRatio := f64_0_2 |> else p.

Definition atLeastOne (dflt n : Z) : Z := if n <=? 0 then dflt else n.
Definition notNegative (d : Duration) : Duration := if d <? 0 then 0 else d.
Definition orText (dflt s : string) : string := if TrimSpace s =s? "" then dflt else s.

Definition normalizeClientPolicy (p : ClientPolicy) : ClientPolicy :=
  let p := p <| cp_Timeout ::= atLeastOne (1500 * Millisecond) |>
             <| cp_RequestMaxAttempts ::= atLeastOne 3 |>
             <| cp_RequestBackoff ::= notNegative |>
             <| cp_CallbackRetry ::= fun r => mkRetryPolicy (atLeastOne 3 (rt_MaxAttempts r)) (notNegative (rt_Backoff r)) |> in
  let p := p <| cp_Delivery ::= fun d =>
      mkDeliveryPolicy (orText DeliveryModeCallback (dp_Mode d)) (orText DeliveryModeCallback (dp_FallbackMode d))
        (mkRetryPolicy (atLeastOne (rt_MaxAttempts (cp_CallbackRetry p)) (rt_MaxAttempts (dp_CallbackRetry d)))
           (notNegative (rt_Backoff (dp_CallbackRetry d))))
        (mkRetryPolicy (atLeastOne 3 (rt_MaxAttempts (dp_SSEReconnect d)))
           (notNegative (rt_Backoff (dp_SSEReconnect d)))) |> in
  p <| cp_CardVersion ::= fun v =>
         mkCardVersionPolicy (orText VersionPolicyStrictMajor (vp_Mode v)) (orText "a2a.v1.0" (vp_LocalVersion v))
           (notNegative (vp_MinSupportedMinor v)) |>
    <| cp_AsyncReporting ::= normalizeAsyncReportingPolicy |>.

Section client.
Context {sorting : SortSlice} {quote : QuoteText}.
Context {W : Type} `{A2AServer W}.
Context (amb : Ambient W).
Implicit Types (c : Client W).

Definition defaultRouter : list AgentCard -> list string -> result GoError AgentCard :=
  SelectPeer (mkDeterministicRouter 16 true).

Definition NewClient (server : W) (cards : list AgentCard)
    (router : option (list AgentCard -> list string -> result GoError AgentCard)) (policy : ClientPolicy)
    (timeline : bool) : Client W :=
  mkClient server (default defaultRouter router) cards (normalizeClientPolicy policy) timeline [] ∅ ∅ 0 0 [].

(** ** Clock, waits and events *)

Definition clientNow c : Client W * Time := (c <| cl_reads ::= S |>, am_clock amb (cl_reads c)).

(** A timer, or the end of the context. *)
Definition pause c : Client W * option GoError :=
  (c <| cl_waits ::= S |> <| cl_server ::= am_between amb (cl_waits c) |>, am_done amb (cl_waits c)).

Definition clientPayload (record : A2ATaskRecord) (reason : string) (sequence : Z) (extras : any_map) : any_map :=
  let p : any_map :=
    <["phase" := AnyString "run"]>
    (<["status" := AnyString (ActionStatus_string (mapToSemanticStatus (ac_Status record)))]>
    (<["reason" := AnyString reason]> (<["sequence" := AnyInt sequence]>
    (<["task_id" := AnyString (ac_TaskID record)]>
    (<["agent_id" := AnyString (ac_AgentID record)]> (<["peer_id" := AnyString (ac_PeerID record)]>
    (<["delivery_mode" := AnyString (ac_DeliveryMode record)]>
    (<["version_local" := AnyString (ac_VersionLocal record)]>
    (<["version_peer" := AnyString (ac_VersionPeer record)]> ∅))))))))) in
  let p := putNonEmpty "attempt_id" (ac_AttemptID record) p in
  let p := putNonEmpty "workflow_id" (ac_WorkflowID record) p in
  let p := putNonEmpty "team_id" (ac_TeamID record) p in
  let p := putNonEmpty "step_id" (ac_StepID record) p in
  let p := if ac_DeliveryFallbackUsed record then <["delivery_fallback_used" := AnyBool true]> p else p in
  let p := putNonEmpty "delivery_fallback_reason" (ac_DeliveryFallbackReason record) p in
  let p := putNonEmpty "version_negotiation_result" (ac_VersionNegotiationResult record) p in
  extras ∪ p.

Definition clientEmitWithExtras c (record : A2ATaskRecord) (reason : string) (extras : any_map) : Client W :=
  if negb (cl_timeline c) then c
  else
    let '(c, t) := clientNow c in
    let payload := clientPayload record reason (UnixNano t) extras in
    let '(c, now) := clientNow c in
    c <| cl_events ::= fun l => l ++ [mkEvent "v1" "action.timeline" (ac_TaskID record) now payload] |>.

Definition clientEmit c (record : A2ATaskRecord) (reason : string) : Client W :=
  clientEmitWithExtras c record reason ∅.

(** ** The peer *)

Definition resolvePeerCard c (req : A2ATaskRequest) : result GoError AgentCard :=
  if TrimSpace (aq_PeerID req) =s? "" then
    card ←ₑ cl_router c (cl_cards c) (aq_RequiredCapabilities req); Ok (normalizeCard card)
  else
    let peerID := TrimSpace (aq_PeerID req) in
    match list_find (fun card => EqualFold (TrimSpace (cd_PeerID card)) peerID = true) (cl_cards c) with
    | Some (_, card) => Ok (normalizeCard card)
    | None =>
        let policy := cl_policy c in
        Ok (normalizeCard
              (mkAgentCard (TrimSpace (aq_AgentID req)) peerID (vp_LocalVersion (cp_CardVersion policy)) "" [] 0
                 [normalizeDeliveryMode (dp_Mode (cp_Delivery policy));
                  normalizeDeliveryMode (dp_FallbackMode (cp_Delivery policy))]))
    end.

(** ** Submitting *)

Definition trimClientRequest (req : A2ATaskRequest) : A2ATaskRequest :=
  req <| aq_TaskID ::= TrimSpace |>
      <| aq_WorkflowID ::= TrimSpace |>
      <| aq_TeamID ::= TrimSpace |>
      <| aq_StepID ::= TrimSpace |>
      <| aq_AttemptID ::= TrimSpace |>
      <| aq_AgentID ::= TrimSpace |>
      <| aq_PeerID ::= TrimSpace |>
      <| aq_RequiredCapabilities ::= normalizeCapabilities |>.

(** The record of a timeline event about a request that is not accepted yet. *)
Definition requestRecord (req : A2ATaskRequest) (st : TaskStatus) (now : Time) : A2ATaskRecord :=
  mkA2ATaskRecord (aq_TaskID req) (aq_WorkflowID req) (aq_TeamID req) (aq_StepID req) (aq_AttemptID req)
    (aq_AgentID req) (aq_PeerID req) st ∅ ∅ "" "" "" "" now (aq_DeliveryMode req) (aq_DeliveryFallbackUsed req)
    (aq_DeliveryFallbackReason req) (aq_VersionLocal req) (aq_VersionPeer req) (aq_VersionNegotiationResult req).

(** [if strings.TrimSpace(v) == "" { v = fallback }]. *)
Definition orBlank (fallback v : string) : string := if TrimSpace v =s? "" then fallback else v.

(** An accepted record, completed from the request. *)
Definition completeSubmitted (req : A2ATaskRequest) (r : A2ATaskRecord) : A2ATaskRecord :=
  r <| ac_DeliveryMode ::= orBlank (aq_DeliveryMode req) |>
    <| ac_WorkflowID ::= orBlank (aq_WorkflowID req) |>
    <| ac_TeamID ::= orBlank (aq_TeamID req) |>
    <| ac_StepID ::= orBlank (aq_StepID req) |>
    <| ac_VersionLocal ::= orBlank (aq_VersionLocal req) |>
    <| ac_VersionPeer ::= orBlank (aq_VersionPeer req) |>
    <| ac_VersionNegotiationResult ::= orBlank (aq_VersionNegotiationResult req) |>
    <| ac_DeliveryFallbackUsed ::= fun b => b || aq_DeliveryFallbackUsed req |>
    <| ac_DeliveryFallbackReason ::= orBlank (aq_DeliveryFallbackReason req) |>.

(** The attempts left; [lastErr] is the error of the previous one. *)
Fixpoint submitLoop (attempts : nat) c (req : A2ATaskRequest) (lastErr : option GoError) : option (Client W * reply) :=
  match attempts with
  | O => Some (c, (zeroA2ARecord, lastErr))
  | S remaining =>
      match sv_Submit (cl_server c) req with
      | None => None
      | Some (w, (record, None)) =>
          let record := completeSubmitted req record in
          Some (c <| cl_server := w |> <| cl_pending ::= insert (TrimSpace (ac_TaskID record)) record |>, (record, None))
      | Some (w, (_, Some err)) =>
          let c := c <| cl_server := w |> in
          if (0 <? Z.of_nat remaining) && isRetryableTransportError err then
            let c := if 0 <? cp_RequestBackoff (cl_policy c) then (pause c).1 else c in
            submitLoop remaining c req (Some err)
          else Some (c, (zeroA2ARecord, Some err))
      end
  end.

(** The request as it is sent, or the error of the negotiation, with the events. *)
Definition negotiate c (req : A2ATaskRequest) : Client W * result GoError A2ATaskRequest :=
  match resolvePeerCard c req with
  | Err err => (c, Err err)
  | Ok card =>
      let req := req <| aq_PeerID := cd_PeerID card |> in
      let policy := cl_policy c in
      match negotiateCardVersion (cp_CardVersion policy) (cd_SchemaVersion card) with
      | (versionLocal, versionPeer, _, Some err) =>
          let '(c, now) := clientNow c in
          let record := requestRecord (req <| aq_DeliveryMode := "" |> <| aq_DeliveryFallbackUsed := false |>
                                           <| aq_DeliveryFallbackReason := "" |>
                                           <| aq_VersionLocal := versionLocal |>
                                           <| aq_VersionPeer := versionPeer |>
                                           <| aq_VersionNegotiationResult := VersionNegotiationMismatch |>)
                          StatusFailed now
                          <| ac_ErrorClass := ErrContext |>
                          <| ac_A2AErrorLayer := ErrorLayerSemantic |>
                          <| ac_ErrorCode := DeliveryErrorVersionMismatch |>
                          <| ac_ErrorMessage := ErrorText err |> in
          (clientEmit c record ReasonVersionMismatch, Err err)
      | (versionLocal, versionPeer, versionResult, None) =>
          let req := req <| aq_VersionLocal := versionLocal |> <| aq_VersionPeer := versionPeer |>
                         <| aq_VersionNegotiationResult := versionResult |> in
          match negotiateDeliveryMode (cp_Delivery policy) (aq_DeliveryMode req) (cd_SupportedDeliveryModes card) with
          | (selectedMode, fallbackUsed, fallbackReason, err) =>
              let req := req <| aq_DeliveryMode := selectedMode |> <| aq_DeliveryFallbackUsed := fallbackUsed |>
                             <| aq_DeliveryFallbackReason := fallbackReason |> in
              match err with
              | Some err =>
                  let '(c, now) := clientNow c in
                  let record := requestRecord req StatusFailed now
                                  <| ac_ErrorClass := ErrMCP |>
                                  <| ac_A2AErrorLayer := ErrorLayerProtocol |>
                                  <| ac_ErrorCode := DeliveryErrorUnsupported |>
                                  <| ac_ErrorMessage := ErrorText err |> in
                  (if fallbackUsed then clientEmit c record ReasonDeliveryFallback else c, Err err)
              | None =>
                  if fallbackUsed then
                    let '(c, now) := clientNow c in
                    (clientEmit c (requestRecord req StatusSubmitted now) ReasonDeliveryFallback, Ok req)
                  else (c, Ok req)
              end
          end
      end
  end.

Definition ClientSubmit c (req : A2ATaskRequest) : option (Client W * reply) :=
  let req := trimClientRequest req in
  let '(c, req) :=
    if aq_TaskID req =s? "" then
      let '(c, now) := clientNow c in (c, req <| aq_TaskID := "a2a-client-" +:+ itoa (UnixNano now) |>)
    else (c, req) in
  match negotiate c req with
  | (c, Err err) => Some (c, (zeroA2ARecord, Some err))
  | (c, Ok req) => submitLoop (Z.to_nat (cp_RequestMaxAttempts (cl_policy c))) c req None
  end.

(** ** Polling *)

Definition loadPendingTask c (taskID : string) : option A2ATaskRecord := cl_pending c !! TrimSpace taskID.

(** A record of the server, completed from what the client remembers of the task. *)
Definition completeFromPending (pending : A2ATaskRecord) (r : A2ATaskRecord) : A2ATaskRecord :=
  r <| ac_WorkflowID ::= orBlank (ac_WorkflowID pending) |>
    <| ac_TeamID ::= orBlank (ac_TeamID pending) |>
    <| ac_StepID ::= orBlank (ac_StepID pending) |>
    <| ac_AttemptID ::= orBlank (ac_AttemptID pending) |>
    <| ac_DeliveryMode ::= orBlank (ac_DeliveryMode pending) |>
    <| ac_VersionLocal ::= orBlank (ac_VersionLocal pending) |>
    <| ac_VersionPeer ::= orBlank (ac_VersionPeer pending) |>
    <| ac_VersionNegotiationResult ::= orBlank (ac_VersionNegotiationResult pending) |>
    <| ac_DeliveryFallbackUsed ::= fun b => b || ac_DeliveryFallbackUsed pending |>
    <| ac_DeliveryFallbackReason ::= orBlank (ac_DeliveryFallbackReason pending) |>.

Definition recalled c (taskID : string) (r : A2ATaskRecord) : A2ATaskRecord :=
  match loadPendingTask c taskID with
  | Some pending => completeFromPending pending r
  | None => r
  end.

Definition ClientStatus c (taskID : string) : option (Client W * reply) :=
  let taskID := TrimSpace taskID in
  if taskID =s? "" then Some (c, failed "task_id is required")
  else match sv_Status (cl_server c) taskID with
  | None => None
  | Some (w, (_, Some err)) => Some (c <| cl_server := w |>, (zeroA2ARecord, Some err))
  | Some (w, (record, None)) =>
      let record := recalled c taskID record in
      Some (c <| cl_server := w |> <| cl_pending ::= insert taskID record |>, (record, None))
  end.

Definition ClientResult c (taskID : string) : option (Client W * reply) :=
  let taskID := TrimSpace taskID in
  if taskID =s? "" then Some (c, failed "task_id is required")
  else match sv_Result (cl_server c) taskID with
  | None => None
  | Some (w, (_, Some err)) => Some (c <| cl_server := w |>, (zeroA2ARecord, Some err))
  | Some (w, (record, None)) =>
      let record := recalled c taskID record in
      Some (c <| cl_server := w |> <| cl_pending ::= delete taskID |>, (record, None))
  end.

(** ** Waiting for the result *)

Definition callbackAttempts c : Z :=
  atLeastOne 3 (atLeastOne (rt_MaxAttempts (cp_CallbackRetry (cl_policy c)))
                  (rt_MaxAttempts (dp_CallbackRetry (cp_Delivery (cl_policy c))))).

Definition callbackExhausted (record : A2ATaskRecord) (lastErr : option GoError) : GoError :=
  newA2AReasonError DeliveryErrorRetryExhausted ErrorLayerTransport lastErr
    ("a2a callback retry exhausted for task " +:+ fmt_q (ac_TaskID record)).

(** The attempts left, and the number of the next call. *)
Fixpoint callbackLoop (attempts : nat) (n : nat) c (record : A2ATaskRecord) (cb : callback)
    (lastErr : option GoError) : Client W * option GoError :=
  match attempts with
  | O => (c, Some (callbackExhausted record lastErr))
  | S remaining =>
      match cb n record with
      | None => (c, None)
      | Some err =>
          match remaining with
          | O => (c, Some (callbackExhausted record (Some err)))
          | S _ =>
              let c := clientEmit c record ReasonCallbackRetry in
              if 0 <? notNegative (rt_Backoff (dp_CallbackRetry (cp_Delivery (cl_policy c)))) then
                match pause c with
                | (c, Some done) => (c, Some done)
                | (c, None) => callbackLoop remaining (S n) c record cb (Some err)
                end
              else callbackLoop remaining (S n) c record cb (Some err)
          end
      end
  end.

Definition deliverCallback c (record : A2ATaskRecord) (cb : callback) : Client W * option GoError :=
  callbackLoop (Z.to_nat (callbackAttempts c)) 0 c record cb None.

(** The local variables of the loop. *)
Record waitState : Type := mkWaitState {
  ws_sseMode : bool;
  ws_sseSubscribed : bool;
  ws_sseReconnectAttempt : Z;
  ws_lastRecord : A2ATaskRecord
}.
#[local] Instance eta_waitState : Settable waitState := fun r =>
  mkWaitState (ws_sseMode r) (ws_sseSubscribed r) (ws_sseReconnectAttempt r) (ws_lastRecord r).

Definition initialWait c (taskID : string) : Client W * waitState :=
  match loadPendingTask c taskID with
  | Some pending =>
      if normalizeDeliveryMode (ac_DeliveryMode pending) =s? DeliveryModeSSE
      then (clientEmit c pending ReasonSSESubscribe, mkWaitState true true 0 pending)
      else (c, mkWaitState false false 0 pending)
  | None => (c, mkWaitState false false 0 zeroA2ARecord)
  end.

Definition reconnectRecord (taskID : string) (last : A2ATaskRecord) (now : Time) : A2ATaskRecord :=
  mkA2ATaskRecord (TrimSpace taskID) (ac_WorkflowID last) (ac_TeamID last) (ac_StepID last) (ac_AttemptID last)
    (ac_AgentID last) (ac_PeerID last) StatusRunning ∅ ∅ "" "" "" "" now DeliveryModeSSE false "" (ac_VersionLocal last)
    (ac_VersionPeer last) (ac_VersionNegotiationResult last).

Definition completeResult (mode : string) (record result : A2ATaskRecord) : A2ATaskRecord :=
  result <| ac_DeliveryMode ::= orBlank mode |>
         <| ac_WorkflowID ::= orBlank (ac_WorkflowID record) |>
         <| ac_TeamID ::= orBlank (ac_TeamID record) |>
         <| ac_StepID ::= orBlank (ac_StepID record) |>
         <| ac_AttemptID ::= orBlank (ac_AttemptID record) |>
         <| ac_VersionLocal ::= orBlank (ac_VersionLocal record) |>
         <| ac_VersionPeer ::= orBlank (ac_VersionPeer record) |>
         <| ac_VersionNegotiationResult ::= orBlank (ac_VersionNegotiationResult record) |>.

(** The end of the wait: the task is terminal. *)
Definition finishWait c (taskID mode : string) (record : A2ATaskRecord) (cb : option callback)
    : option (Client W * reply) :=
  let '(c, cbErr) :=
    match cb with
    | Some cb => if mode =s? DeliveryModeCallback then deliverCallback c record cb else (c, None)
    | None => (c, None)
    end in
  match cbErr with
  | Some err => Some (c, (record, Some err))
  | None =>
      match sv_Result (cl_server c) taskID with
      | None => None
      | Some (w, (_, Some err)) => Some (c <| cl_server := w |>, (record, Some err))
      | Some (w, (result, None)) =>
          let result := completeResult mode record result in
          Some (c <| cl_server := w |> <| cl_pending ::= delete (TrimSpace (ac_TaskID result)) |>, (result, None))
      end
  end.

Definition sseExhausted (taskID : string) (err : GoError) : GoError :=
  newA2AReasonError DeliveryErrorSSEReconnectExhausted ErrorLayerTransport (Some err)
    ("a2a sse reconnect exhausted for task " +:+ fmt_q taskID).

(** Each round polls the server once; [fuel] bounds the rounds. *)
Fixpoint waitLoop (fuel : nat) c (taskID : string) (cb : option callback) (ws : waitState)
    : option (Client W * reply) :=
  match fuel with
  | O => None
  | S fuel =>
      match sv_Status (cl_server c) taskID with
      | None => None
      | Some (w, (_, Some err)) =>
          let c := c <| cl_server := w |> in
          let reconnect := dp_SSEReconnect (cp_Delivery (cl_policy c)) in
          if ws_sseMode ws && isRetryableTransportError err then
            if ws_sseReconnectAttempt ws <? rt_MaxAttempts reconnect then
              let ws := ws <| ws_sseReconnectAttempt ::= Z.succ |> in
              let '(c, now) := clientNow c in
              let c := clientEmit c (reconnectRecord taskID (ws_lastRecord ws) now) ReasonSSEReconnect in
              if 0 <? rt_Backoff reconnect then
                match pause c with
                | (c, Some done) => Some (c, (zeroA2ARecord, Some done))
                | (c, None) => waitLoop fuel c taskID cb ws
                end
              else waitLoop fuel c taskID cb ws
            else Some (c, (zeroA2ARecord, Some (sseExhausted taskID err)))
          else Some (c, (zeroA2ARecord, Some err))
      | Some (w, (record, None)) =>
          let c := c <| cl_server := w |> <| cl_pending ::= insert (TrimSpace (ac_TaskID record)) record |> in
          let mode := normalizeDeliveryMode (ac_DeliveryMode record) in
          let mode := if mode =s? "" then DeliveryModeCallback else mode in
          let sse := mode =s? DeliveryModeSSE in
          let c := if sse && negb (ws_sseSubscribed ws) then clientEmit c record ReasonSSESubscribe else c in
          let ws := mkWaitState (ws_sseMode ws || sse) (ws_sseSubscribed ws || sse)
                      (ws_sseReconnectAttempt ws) record in
          if isTerminal (ac_Status record) then finishWait c taskID mode record cb
          else
            match pause c with
            | (c, Some done) => Some (c, (zeroA2ARecord, Some done))
            | (c, None) => waitLoop fuel c taskID cb ws
            end
      end
  end.

Definition WaitResult (fuel : nat) c (taskID : string) (cb : option callback) : option (Client W * reply) :=
  let '(c, ws) := initialWait c taskID in
  waitLoop fuel c taskID cb ws.
End client.
