(* ===== verification/A2AAsync.v ===== *)
(** * Agent to agent: asynchronous reports

    [a2a/async_reporting.go]: a client submits a task, and a goroutine waits for its
    result and delivers a report to a sink, once per report key, with retries; and
    [BuildRunSummary] of [a2a/interop.go]. A sink keeps a state of its own. *)
From S2P Require Import Prelude GoStrings GoNum GoText CoreTypes SchedulerTypes Scheduler.
From S2P Require Import A2ATypes A2ARouting A2AServer A2AClient.

Local Open Scope bool_scope.
Local Open Scope string_scope.
Local Open Scope list_scope.
Local Open Scope Z_scope.

(** ** Reports *)

Record AsyncSubmitAck : Type := mkAsyncSubmitAck {
  ak_TaskID : string;
  ak_WorkflowID : string;
  ak_TeamID : string;
  ak_StepID : string;
  ak_AgentID : string;
  ak_PeerID : string;
  ak_AcceptedAt : Time
}.
#[export] Instance eta_AsyncSubmitAck : Settable AsyncSubmitAck := fun r =>
  mkAsyncSubmitAck (ak_TaskID r) (ak_WorkflowID r) (ak_TeamID r) (ak_StepID r) (ak_AgentID r) (ak_PeerID r)
    (ak_AcceptedAt r).

Definition zeroAck : AsyncSubmitAck := mkAsyncSubmitAck "" "" "" "" "" "" 0.

Record A2AReport : Type := mkA2AReport {
  re_ReportKey : string;
  re_OutcomeKey : string;
  re_WorkflowID : string;
  re_TeamID : string;
  re_StepID : string;
  re_TaskID : string;
  re_AttemptID : string;
  re_AgentID : string;
  re_PeerID : string;
  re_Status : TaskStatus;
  re_Result : any_map;
  re_ErrorClass : string;
  re_ErrorLayer : string;
  re_ErrorCode : string;
  re_ErrorMessage : string;
  re_DeliveryAttempt : Z;
  re_DeliveryError : string;
  re_BusinessTerminal : bool;
  re_UpdatedAt : Time
}.
#[export] Instance eta_A2AReport : Settable A2AReport := fun r =>
  mkA2AReport (re_ReportKey r) (re_OutcomeKey r) (re_WorkflowID r) (re_TeamID r) (re_StepID r) (re_TaskID r)
    (re_AttemptID r) (re_AgentID r) (re_PeerID r) (re_Status r) (re_Result r) (re_ErrorClass r)
    (re_ErrorLayer r) (re_ErrorCode r) (re_ErrorMessage r) (re_DeliveryAttempt r) (re_DeliveryError r)
    (re_BusinessTerminal r) (re_UpdatedAt r).

Definition deriveAsyncOutcomeKey (record : A2ATaskRecord) : string :=
  if bool_decide (ac_Status record = StatusSucceeded) then
    "succeeded" +:+ String.concat "" ((fun k => "|" +:+ k) <$> sort_strings (map_to_list (ac_Result record)).*1)
  else if TrimSpace (ac_ErrorMessage record) =s? "" then TrimSpace (TaskStatus_string (ac_Status record))
  else TrimSpace (TaskStatus_string (ac_Status record)) +:+ "|" +:+ TrimSpace (ac_ErrorMessage record).

Definition extractAttemptID (record : A2ATaskRecord) : string :=
  let id := TrimSpace (ac_AttemptID record) in
  if negb (id =s? "") then id
  else match payload_string (ac_Progress record) "attempt_id" with
  | Some id => TrimSpace id
  | None =>
      match payload_string (ac_Result record) "attempt_id" with
      | Some id => TrimSpace id
      | None => ""
      end
  end.

Definition BuildAsyncReportKey (report : A2AReport) : string :=
  String.concat "|" [TrimSpace (re_WorkflowID report); TrimSpace (re_TaskID report); TrimSpace (re_AttemptID report);
                     TrimSpace (TaskStatus_string (re_Status report)); TrimSpace (re_OutcomeKey report)].

Definition BuildAsyncReport (wall : Time) (record : A2ATaskRecord) : A2AReport :=
  let out := mkA2AReport "" (deriveAsyncOutcomeKey record) (TrimSpace (ac_WorkflowID record))
               (TrimSpace (ac_TeamID record)) (TrimSpace (ac_StepID record)) (TrimSpace (ac_TaskID record))
               (TrimSpace (extractAttemptID record)) (TrimSpace (ac_AgentID record)) (TrimSpace (ac_PeerID record))
               (ac_Status record) (ac_Result record) (ac_ErrorClass record) (TrimSpace (ac_A2AErrorLayer record))
               (TrimSpace (ac_ErrorCode record)) (TrimSpace (ac_ErrorMessage record)) 0 ""
               (isTerminal (ac_Status record)) (or_now wall (ac_UpdatedAt record)) in
  out <| re_ReportKey := BuildAsyncReportKey out |>.

(** ** Sinks *)

(** [Deliver]: the new state of the sink, and the error. *)
Abbreviation ReportSink S := (S -> A2AReport -> S * option GoError).

(** A buffered channel: what it holds, and its capacity. *)
Record ChannelReportSink : Type := mkChannelReportSink {
  ch_items : list A2AReport;
  ch_capacity : nat
}.

Definition NewChannelReportSink (buffer : Z) : ChannelReportSink :=
  mkChannelReportSink [] (Z.to_nat (if buffer <=? 0 then 16 else buffer)).

(** [done] is the error of the context, if it is done; with both cases of the select
    ready, [pick] tells which one runs. A send to a full channel blocks: [None]. *)
Definition ChannelDeliver (done : option GoError) (pick : bool) (s : ChannelReportSink) (report : A2AReport)
    : option (ChannelReportSink * option GoError) :=
  let room := bool_decide (length (ch_items s) < ch_capacity s)%nat in
  let sent := Some (mkChannelReportSink (ch_items s ++ [report]) (ch_capacity s), None) in
  match done with
  | None => if room then sent else None
  | Some err => if room && pick then sent else Some (s, Some err)
  end.

(** A sink that calls a function. *)
Definition CallbackDeliver {S} (cb : option (ReportSink S)) : ReportSink S := fun s report =>
  match cb with
  | Some cb => cb s report
  | None => (s, Some (ErrorString "a2a callback report sink is nil"))
  end.

(** ** Delays *)

(** [for i := 1; i < attempt; i++ { delay *= 2; if delay >= max { delay = max; break } }]. *)
Fixpoint doubling (n : nat) (delay max : Duration) : Duration :=
  match n with
  | O => delay
  | S n =>
      let delay := wrap_i64 (delay * 2) in
      if max <=? delay then max else doubling n delay max
  end.

Definition retryDelayForAsyncReport (wall : Time) (p : AsyncReportingPolicy) (attempt : Z) : Duration :=
  let policy := normalizeAsyncReportingPolicy p in
  if attempt <=? 1 then rp_BackoffInitial policy
  else
    let delay := doubling (Z.to_nat (attempt - 1)) (rp_BackoffInitial policy) (rp_BackoffMax policy) in
    if f64_leb (rp_JitterRatio policy) f64_zero then delay
    else
      let jitterWindow := f64_to_i64 (f64_mul (f64_of_Z delay) (rp_JitterRatio policy)) in
      if jitterWindow <=? 0 then delay
      else
        let seed := Z.rem (UnixNano wall) (wrap_i64 (2 * jitterWindow + 1)) in
        let shifted := wrap_i64 (delay + wrap_i64 (seed - jitterWindow)) in
        let shifted := if shifted <? 0 then 0 else shifted in
        if rp_BackoffMax policy <? shifted then rp_BackoffMax policy else shifted.

Section async.
Context {sorting : SortSlice} {quote : QuoteText}.
Context {W : Type} `{A2AServer W}.
Context (amb : Ambient W).
Implicit Types (c : Client W).

(** ** Submitting *)

(** [sink] and [impl] tell whether the call and the policy bring a sink: the error when
    neither does. *)
Definition resolveAsyncReportSink {S} (sink impl : option (ReportSink S)) : result GoError (ReportSink S) :=
  match sink, impl with
  | Some s, _ => Ok s
  | None, Some s => Ok s
  | None, None => Err (ErrorString "a2a async reporting requires report sink")
  end.

(** The goroutine it starts is noted in [cl_awaiting]. *)
Definition SubmitAsync {S} c (req : A2ATaskRequest) (sink impl : option (ReportSink S))
    : option (Client W * (AsyncSubmitAck * option GoError)) :=
  match resolveAsyncReportSink sink impl with
  | Err err => Some (c, (zeroAck, Some err))
  | Ok _ =>
      match ClientSubmit amb c req with
      | None => None
      | Some (c, (_, Some err)) => Some (c, (zeroAck, Some err))
      | Some (c, (submitted, None)) =>
          let '(c, now) := clientNow amb c in
          let ack := mkAsyncSubmitAck (TrimSpace (ac_TaskID submitted)) (TrimSpace (ac_WorkflowID submitted))
                       (TrimSpace (ac_TeamID submitted)) (TrimSpace (ac_StepID submitted))
                       (TrimSpace (ac_AgentID submitted)) (TrimSpace (ac_PeerID submitted)) now in
          let c := clientEmitWithExtras amb c submitted ReasonAsyncSubmit
                     (<["report_sink" := AnyString (rp_Sink (cp_AsyncReporting (cl_policy c)))]> ∅) in
          Some (c <| cl_awaiting ::= fun l => l ++ [TrimSpace (ac_TaskID submitted)] |>, (ack, None))
      end
  end.

(** ** Delivering *)

Definition emitAsyncReportTimeline c (report : A2AReport) (reason : string) (extras : any_map) : Client W :=
  let '(c, now) := clientNow amb c in
  let record := mkA2ATaskRecord (TrimSpace (re_TaskID report)) (TrimSpace (re_WorkflowID report))
                  (TrimSpace (re_TeamID report)) (TrimSpace (re_StepID report)) "" (TrimSpace (re_AgentID report))
                  (TrimSpace (re_PeerID report)) (re_Status report) ∅ (re_Result report) (re_ErrorClass report)
                  (TrimSpace (re_ErrorLayer report)) (TrimSpace (re_ErrorCode report))
                  (TrimSpace (re_ErrorMessage report)) now "" false "" "" "" "" in
  let merged : any_map :=
    <["report_key" := AnyString (TrimSpace (re_ReportKey report))]>
    (<["report_delivery_attempt" := AnyInt (re_DeliveryAttempt report)]> ∅) in
  let merged := putNonEmpty "attempt_id" (re_AttemptID report) merged in
  let merged := putNonEmpty "outcome_key" (re_OutcomeKey report) merged in
  clientEmitWithExtras amb c record reason (extras ∪ merged).

Definition keyExtras (key : string) : any_map := <["report_key" := AnyString key]> ∅.

Definition dropExtras (key why err : string) : any_map :=
  <["report_drop_reason" := AnyString why]> (<["report_delivery_err" := AnyString err]> (keyExtras key)).

(** The attempts left, and the number of the next one; [wall] are the readings of
    [time.Now] of the retry delays. *)
Fixpoint deliverLoop {S} (wall : Z -> Time) (attempts : nat) (attempt : Z) c (sink : ReportSink S) (st : S)
    (report : A2AReport) (key : string) (lastErr : option GoError) : Client W * S :=
  match attempts with
  | O =>
      let report := match lastErr with
                    | Some err => report <| re_DeliveryError := TrimSpace (ErrorText err) |>
                    | None => report
                    end in
      (emitAsyncReportTimeline c report ReasonAsyncReportDrop
         (dropExtras key "retry_exhausted" (re_DeliveryError report)), st)
  | S remaining =>
      let reportAttempt := report <| re_DeliveryAttempt := attempt |> in
      match sink st reportAttempt with
      | (st, None) =>
          let c := c <| cl_asyncDelivered ::= union {[key]} |> in
          (emitAsyncReportTimeline c reportAttempt ReasonAsyncReportDeliver (keyExtras key), st)
      | (st, Some err) =>
          let reportAttempt := reportAttempt <| re_DeliveryError := TrimSpace (ErrorText err) |> in
          if (Z.of_nat remaining =? 0) || negb (IsRetryableReportDeliveryError err) then
            (emitAsyncReportTimeline c reportAttempt ReasonAsyncReportDrop
               (dropExtras key (classifyAsyncDropReason err) (TrimSpace (ErrorText err))), st)
          else
            let c := emitAsyncReportTimeline c reportAttempt ReasonAsyncReportRetry (keyExtras key) in
            let delay := retryDelayForAsyncReport (wall attempt) (cp_AsyncReporting (cl_policy c)) attempt in
            if delay <=? 0 then deliverLoop wall remaining (attempt + 1) c sink st report key (Some err)
            else match pause amb c with
            | (c, Some done) =>
                (emitAsyncReportTimeline c reportAttempt ReasonAsyncReportDrop
                   (dropExtras key "context_canceled" (ErrorText done)), st)
            | (c, None) => deliverLoop wall remaining (attempt + 1) c sink st report key (Some err)
            end
      end
  end.

Definition deliverAsyncReport {S} (wall : Z -> Time) c (sink : ReportSink S) (st : S) (report : A2AReport)
    : Client W * S :=
  let key := TrimSpace (re_ReportKey report) in
  let key := if key =s? "" then BuildAsyncReportKey report else key in
  if bool_decide (key ∈ cl_asyncDelivered c)
  then (emitAsyncReportTimeline c report ReasonAsyncReportDedup (keyExtras key), st)
  else
    let maxAttempts := rp_MaxAttempts (cp_AsyncReporting (cl_policy c)) in
    deliverLoop wall (Z.to_nat (if maxAttempts <=? 0 then 1 else maxAttempts)) 1 c sink st report key None.

(** The record of a failed wait. *)
Definition failedWait (taskID : string) (err : GoError) (now : Time) : A2ATaskRecord :=
  let '(class, layer, code) := ClassifyError err in
  mkA2ATaskRecord (TrimSpace taskID) "" "" "" "" "" "" StatusFailed ∅ ∅ class (TrimSpace layer) (TrimSpace code)
    (TrimSpace (ErrorText err)) now "" false "" "" "" "".

Definition awaitAndDeliverAsyncReport {S} (fuel : nat) (now : Time) (wall : Z -> Time) c (taskID : string)
    (sink : ReportSink S) (st : S) : option (Client W * S) :=
  if TrimSpace taskID =s? "" then Some (c, st)
  else match WaitResult amb fuel c taskID None with
  | None => None
  | Some (c, (record, None)) => Some (deliverAsyncReport wall c sink st (BuildAsyncReport now record))
  | Some (c, (_, Some err)) =>
      let '(c, t) := clientNow amb c in
      Some (deliverAsyncReport wall c sink st (BuildAsyncReport now (failedWait taskID err t)))
  end.
End async.

(** ** Run summaries *)

Record RunSummary : Type := mkRunSummary {
  su_A2ATaskTotal : Z;
  su_A2ATaskFailed : Z;
  su_PeerID : string;
  su_A2AErrorLayer : string;
  su_A2ADeliveryMode : string;
  su_A2ADeliveryFallbackUsed : bool;
  su_A2ADeliveryFallbackReason : string;
  su_A2AVersionLocal : string;
  su_A2AVersionPeer : string;
  su_A2AVersionNegotiationResult : string
}.
#[export] Instance eta_RunSummary : Settable RunSummary := fun r =>
  mkRunSummary (su_A2ATaskTotal r) (su_A2ATaskFailed r) (su_PeerID r) (su_A2AErrorLayer r)
    (su_A2ADeliveryMode r) (su_A2ADeliveryFallbackUsed r) (su_A2ADeliveryFallbackReason r)
    (su_A2AVersionLocal r) (su_A2AVersionPeer r) (su_A2AVersionNegotiationResult r).

Definition summaryKey (task : A2ATaskRecord) : string :=
  let key := TrimSpace (ac_TaskID task) in
  if key =s? "" then "__anon__:" +:+ TrimSpace (ac_AgentID task) +:+ ":" +:+ TrimSpace (ac_PeerID task) else key.

(** Newer records win; at the same instant, terminal ones. *)
Definition summaryNewer (task prev : A2ATaskRecord) : bool :=
  After (ac_UpdatedAt task) (ac_UpdatedAt prev)
  || (TimeEqual (ac_UpdatedAt task) (ac_UpdatedAt prev) && isTerminal (ac_Status task)
      && negb (isTerminal (ac_Status prev))).

Definition summaryStep (seen : gmap string A2ATaskRecord) (task : A2ATaskRecord) : gmap string A2ATaskRecord :=
  let key := summaryKey task in
  match seen !! key with
  | None => <[key := task]> seen
  | Some prev => if summaryNewer task prev then <[key := task]> seen else seen
  end.

(** [if out.f == "" && strings.TrimSpace(v) != "" { out.f = strings.TrimSpace(v) }]. *)
Definition firstText (v cur : string) : string :=
  if (cur =s? "") && negb (TrimSpace v =s? "") then TrimSpace v else cur.

Definition summarize (out : RunSummary) (task : A2ATaskRecord) : RunSummary :=
  let out := out <| su_PeerID ::= firstText (ac_PeerID task) |> in
  let out := if bool_decide (ac_Status task = StatusFailed)
             then out <| su_A2ATaskFailed ::= Z.succ |> <| su_A2AErrorLayer ::= firstText (ac_A2AErrorLayer task) |>
             else out in
  let out := out <| su_A2ADeliveryMode ::= firstText (ac_DeliveryMode task) |> in
  let out := if ac_DeliveryFallbackUsed task
             then out <| su_A2ADeliveryFallbackUsed := true |>
                      <| su_A2ADeliveryFallbackReason ::= firstText (ac_DeliveryFallbackReason task) |>
             else out in
  out <| su_A2AVersionLocal ::= firstText (ac_VersionLocal task) |>
      <| su_A2AVersionPeer ::= firstText (ac_VersionPeer task) |>
      <| su_A2AVersionNegotiationResult ::= firstText (ac_VersionNegotiationResult task) |>.

Definition BuildRunSummary {order : RangeOrder} (tasks : list A2ATaskRecord) : RunSummary :=
  let seen := foldl summaryStep ∅ tasks in
  let out := mkRunSummary (Z.of_nat (size seen)) 0 "" "" "" false "" "" "" "" in
  foldl (fun out key => match seen !! key with Some task => summarize out task | None => out end)
    out (range_order seen).
