(* ===== verification/Invoke.v ===== *)
(** * Invocation through the mailbox

    [orchestration/invoke]: a remote call is recorded in a mailbox as a command and a
    result message. [sync.go] submits and waits, [async.go] submits with a sink for the
    report, [mailbox_bridge.go] publishes the messages around them. The remote client is
    an interface; the client of package [a2a] implements it. *)
From S2P Require Import Prelude GoStrings GoNum GoText CoreTypes SchedulerTypes.
From S2P Require Import A2ATypes A2ARouting A2AServer A2AClient A2AAsync.
From S2P Require Import MailboxTypes MailboxState MailboxStore MailboxFacade.

Local Open Scope bool_scope.
Local Open Scope string_scope.
Local Open Scope list_scope.
Local Open Scope Z_scope.

(** A map stored in a map, as a dynamic value. *)
Class MapValue : Type := map_value : any_map -> any_value.

(** ** Clients *)

Class InvokeClient (C : Type) : Type := {
  ic_Submit : C -> A2ATaskRequest -> option (C * reply);
  ic_WaitResult : C -> string -> Duration -> option callback -> option (C * reply)
}.

Class InvokeAsyncClient (C : Type) : Type :=
  ic_SubmitAsync : forall {S}, C -> A2ATaskRequest -> ReportSink S -> option (C * (AsyncSubmitAck * option GoError)).

(** The client of package [a2a]; [fuel] bounds the polls of a wait. *)
#[export] Instance Client_InvokeClient {sorting : SortSlice} {quote : QuoteText} {W} `{A2AServer W}
    (amb : Ambient W) (fuel : nat) : InvokeClient (Client W) := {|
  ic_Submit c req := ClientSubmit amb c req;
  ic_WaitResult c taskID _ cb := WaitResult amb fuel c taskID cb
|}.

#[export] Instance Client_InvokeAsyncClient {sorting : SortSlice} {quote : QuoteText} {W} `{A2AServer W}
    (amb : Ambient W) : InvokeAsyncClient (Client W) :=
  fun S c req sink => SubmitAsync amb c req (Some sink) None.

(** ** Requests and outcomes *)

Definition DefaultPollInterval : Duration := 20 * Millisecond.

Record InvokeRequest : Type := mkInvokeRequest {
  iq_TaskID : string;
  iq_WorkflowID : string;
  iq_TeamID : string;
  iq_StepID : string;
  iq_AgentID : string;
  iq_PeerID : string;
  iq_Method : string;
  iq_Payload : any_map;
  iq_PollInterval : Duration;
  iq_Callback : option callback
}.
#[export] Instance eta_InvokeRequest : Settable InvokeRequest := fun r =>
  mkInvokeRequest (iq_TaskID r) (iq_WorkflowID r) (iq_TeamID r) (iq_StepID r) (iq_AgentID r) (iq_PeerID r)
    (iq_Method r) (iq_Payload r) (iq_PollInterval r) (iq_Callback r).

Record AsyncRequest : Type := mkAsyncRequest {
  sq_TaskID : string;
  sq_WorkflowID : string;
  sq_TeamID : string;
  sq_StepID : string;
  sq_AttemptID : string;
  sq_AgentID : string;
  sq_PeerID : string;
  sq_Method : string;
  sq_Payload : any_map
}.

Record NormalizedError : Type := mkNormalizedError {
  ne_Message : string;
  ne_Class : string;
  ne_Layer : string;
  ne_Code : string;
  ne_Retryable : bool
}.

Record Outcome : Type := mkOutcome {
  oc_TaskID : string;
  oc_TerminalStatus : TaskStatus;
  oc_Result : any_map;
  oc_Record : A2ATaskRecord;
  oc_Error : option NormalizedError
}.

Definition zeroOutcome : Outcome := mkOutcome "" (StatusOther "") ∅ zeroA2ARecord None.

(** [if v == "" { v = d }]. *)
Definition orDefaultText (d v : string) : string := if v =s? "" then d else v.

Definition normalizeError (err : GoError) : NormalizedError :=
  let '(class, layer, code) := ClassifyError err in
  let layerText := orDefaultText ErrorLayerProtocol (TrimSpace layer) in
  mkNormalizedError (TrimSpace (ErrorText err)) (orDefaultText ErrMCP class) layerText (TrimSpace code)
    (layerText =s? ErrorLayerTransport).

Definition normalizeTerminalRecordError (record : A2ATaskRecord) : NormalizedError :=
  let message := TrimSpace (ac_ErrorMessage record) in
  let class := ac_ErrorClass record in
  let layer := TrimSpace (ac_A2AErrorLayer record) in
  let '(class, layer, code) :=
    if message =s? "" then (class, layer, "")
    else
      let '(fallbackClass, fallbackLayer, fallbackCode) := ClassifyError (ErrorString message) in
      (orDefaultText fallbackClass class, orDefaultText (TrimSpace fallbackLayer) layer, TrimSpace fallbackCode) in
  let layer := orDefaultText ErrorLayerProtocol layer in
  mkNormalizedError
    (orDefaultText ("a2a terminal status " +:+ TaskStatus_string (ac_Status record)) message)
    (orDefaultText ErrMCP class) layer code (layer =s? ErrorLayerTransport).

(** ** Submitting and waiting *)

Section invoke.
Context {quote : QuoteText} {mv : MapValue}.
Context {C : Type}.

Definition submitRequest (req : InvokeRequest) : A2ATaskRequest :=
  mkA2ATaskRequest (TrimSpace (iq_TaskID req)) (TrimSpace (iq_WorkflowID req)) (TrimSpace (iq_TeamID req))
    (TrimSpace (iq_StepID req)) "" (TrimSpace (iq_AgentID req)) (TrimSpace (iq_PeerID req))
    (TrimSpace (iq_Method req)) [] (iq_Payload req) "" false "" "" "" "".

(** The outcome of a failed call. *)
Definition failedOutcome (taskID : string) (err : GoError) : Outcome * option GoError :=
  (mkOutcome taskID (StatusOther "") ∅ zeroA2ARecord (Some (normalizeError err)), Some err).

Definition unsupportedStatus (st : TaskStatus) : GoError :=
  ErrorString ("a2a terminal status " +:+ fmt_q (TaskStatus_string st) +:+ " is unsupported").

Definition terminalOutcome (taskID : string) (record : A2ATaskRecord) : Outcome * option GoError :=
  let out e := mkOutcome taskID (ac_Status record) (ac_Result record) record e in
  match ac_Status record with
  | StatusSucceeded => (out None, None)
  | StatusFailed | StatusCanceled => (out (Some (normalizeTerminalRecordError record)), None)
  | _ => let err := unsupportedStatus (ac_Status record) in (out (Some (normalizeError err)), Some err)
  end.

Definition invokeSync `{InvokeClient C} (c : C) (req : InvokeRequest) : option (C * (Outcome * option GoError)) :=
  let submitReq := submitRequest req in
  if aq_TaskID submitReq =s? "" then Some (c, failedOutcome "" (ErrorString "task_id is required"))
  else match ic_Submit c submitReq with
  | None => None
  | Some (c, (_, Some err)) => Some (c, failedOutcome (aq_TaskID submitReq) err)
  | Some (c, (submitted, None)) =>
      let taskID := orDefaultText (aq_TaskID submitReq) (TrimSpace (ac_TaskID submitted)) in
      let pollInterval := if iq_PollInterval req <=? 0 then DefaultPollInterval else iq_PollInterval req in
      match ic_WaitResult c taskID pollInterval (iq_Callback req) with
      | None => None
      | Some (c, (_, Some err)) => Some (c, failedOutcome taskID err)
      | Some (c, (record, None)) => Some (c, terminalOutcome taskID record)
      end
  end.

Definition submitAsyncRequest (req : AsyncRequest) : A2ATaskRequest :=
  mkA2ATaskRequest (TrimSpace (sq_TaskID req)) (TrimSpace (sq_WorkflowID req)) (TrimSpace (sq_TeamID req))
    (TrimSpace (sq_StepID req)) (TrimSpace (sq_AttemptID req)) (TrimSpace (sq_AgentID req))
    (TrimSpace (sq_PeerID req)) (TrimSpace (sq_Method req)) [] (sq_Payload req) "" false "" "" "" "".

Definition invokeAsync `{InvokeAsyncClient C} {S} (c : C) (req : AsyncRequest) (sink : ReportSink S)
    : option (C * (AsyncSubmitAck * option GoError)) :=
  let submitReq := submitAsyncRequest req in
  if aq_TaskID submitReq =s? "" then Some (c, (zeroAck, Some (ErrorString "task_id is required")))
  else ic_SubmitAsync c submitReq sink.

(** ** The bridge *)

Inductive MailboxPublishPath : Type :=
| PublishPathCommand
| PublishPathResult
| PublishPathDelayedCommand.

Context {T : Type} `{MailboxStore T}.

(** [br_observed] are the calls of the observer, if there is one. *)
Record MailboxBridge : Type := mkMailboxBridge {
  br_Mailbox : Mailbox T;
  br_publishObserver : bool;
  br_observed : list (MailboxPublishPath * PublishResult)
}.
#[export] Instance eta_MailboxBridge : Settable MailboxBridge := fun r =>
  mkMailboxBridge (br_Mailbox r) (br_publishObserver r) (br_observed r).

Definition NewMailboxBridge (mb : Mailbox T) (observer : bool) : MailboxBridge := mkMailboxBridge mb observer [].

Definition observePublish (b : MailboxBridge) (path : MailboxPublishPath) (r : PublishResult) : MailboxBridge :=
  if br_publishObserver b then b <| br_observed ::= fun l => l ++ [(path, r)] |> else b.

(** The text of the errors a publication returns. *)
Definition mailboxErrorText (e : MailboxError) : string :=
  match e with
  | MailboxTypes.ErrDispatchBindingMismatch => "mailbox dispatch binding mismatch"
  | ErrHostPlanBindingConflict => "mailbox host-plan binding conflict"
  | ErrMessageIDRequired => "message_id is required"
  | ErrIdempotencyKeyRequired => "idempotency_key is required"
  | ErrKindInvalid got => "kind must be one of [command,event,result], got " +:+ fmt_q (EnvelopeKind_string got)
  | ErrHostPlanFields => "host-plan binding requires bounded identity and reference fields"
  | ErrHostPlanVersion got => "host-plan binding contract version " +:+ fmt_q got +:+ " is unsupported"
  | ErrHostPlanResourceLimit => "host-plan binding resource_limit must be in [1,128]"
  | ErrReportKeyRequired => "report_key is required"
  | MailboxTypes.ErrFileBackend why => why
  | ErrPublishKind want => "publish " +:+ want +:+ " requires kind=" +:+ want
  | _ => ""
  end.

Definition mailboxError (e : MailboxError) : GoError := ErrorString (mailboxErrorText e).

Definition toCorrelation (req : InvokeRequest) : Correlation :=
  mkCorrelation (TrimSpace (iq_WorkflowID req)) (TrimSpace (iq_TaskID req)) (TrimSpace (iq_WorkflowID req))
    (TrimSpace (iq_TeamID req)).

(** A task without an id gets one from the clock. *)
Definition messageID (wall : Time) (taskID suffix : string) : string :=
  orDefaultText ("task-" +:+ itoa (UnixNano wall)) (TrimSpace taskID) +:+ suffix.

Definition idempotencyKey (taskID workflowID teamID suffix : string) : string :=
  TrimSpace (orDefaultText (TrimSpace workflowID +:+ "|" +:+ TrimSpace teamID) (TrimSpace taskID) +:+ suffix).

Definition commandMessageID (wall : Time) (req : InvokeRequest) : string := messageID wall (iq_TaskID req) ":command".
Definition resultMessageID (wall : Time) (req : InvokeRequest) : string := messageID wall (iq_TaskID req) ":result".
Definition commandIdempotencyKey (req : InvokeRequest) : string :=
  idempotencyKey (iq_TaskID req) (iq_WorkflowID req) (iq_TeamID req) "|sync|command".
Definition resultIdempotencyKey (req : InvokeRequest) : string :=
  idempotencyKey (iq_TaskID req) (iq_WorkflowID req) (iq_TeamID req) "|sync|result".
Definition commandMessageIDFromAsync (wall : Time) (req : AsyncRequest) : string :=
  messageID wall (sq_TaskID req) ":command".
Definition commandIdempotencyKeyFromAsync (req : AsyncRequest) : string :=
  idempotencyKey (sq_TaskID req) (sq_WorkflowID req) (sq_TeamID req) "|async|command".

Definition commandEnvelope (wall : Time) (req : InvokeRequest) (notBefore expireAt : Time) : Envelope :=
  NewCommandEnvelope (commandMessageID wall req) (commandIdempotencyKey req) (toCorrelation req)
    (TrimSpace (iq_AgentID req)) (TrimSpace (iq_PeerID req)) (iq_Payload req) notBefore expireAt.

Definition PublishDelayedCommand (e : MailboxEnv) (wall : Time) (b : MailboxBridge) (req : InvokeRequest)
    (notBefore expireAt : Time) : MailboxBridge * result MailboxError PublishResult :=
  match PublishCommand e (br_Mailbox b) (commandEnvelope wall req notBefore expireAt) with
  | (m, Err er) => (b <| br_Mailbox := m |>, Err er)
  | (m, Ok published) => (observePublish (b <| br_Mailbox := m |>) PublishPathDelayedCommand published, Ok published)
  end.

Definition errorPayload (e : NormalizedError) : any_map :=
  <["message" := AnyString (TrimSpace (ne_Message e))]> (<["class" := AnyString (TrimSpace (ne_Class e))]>
  (<["layer" := AnyString (TrimSpace (ne_Layer e))]> (<["code" := AnyString (TrimSpace (ne_Code e))]>
  (<["retryable" := AnyBool (ne_Retryable e)]> ∅)))).

Definition buildResultPayload (o : Outcome) : any_map :=
  let p : any_map :=
    <["task_id" := AnyString (TrimSpace (oc_TaskID o))]>
    (<["status" := AnyString (TrimSpace (TaskStatus_string (oc_TerminalStatus o)))]>
    (<["result" := map_value (oc_Result o)]> ∅)) in
  match oc_Error o with
  | Some e => <["error" := map_value (errorPayload e)]> p
  | None => p
  end.

(** The environments of the two publications and the two readings of the clock. *)
Record BridgeEnv : Type := mkBridgeEnv {
  be_command : MailboxEnv;
  be_result : MailboxEnv;
  be_commandWall : Time;
  be_resultWall : Time
}.

Definition resultEnvelope (e : BridgeEnv) (req : InvokeRequest) (o : Outcome) : Envelope :=
  NewResultEnvelope (commandEnvelope (be_commandWall e) req 0 0) (resultMessageID (be_resultWall e) req)
    (resultIdempotencyKey req) (buildResultPayload o).

(** [between] is what others do to the mailbox during the call. *)
Definition InvokeSync `{InvokeClient C} (e : BridgeEnv) (between : Mailbox T -> Mailbox T) (b : MailboxBridge) (c : C)
    (req : InvokeRequest) : option (MailboxBridge * C * (Outcome * option GoError)) :=
  match PublishCommand (be_command e) (br_Mailbox b) (commandEnvelope (be_commandWall e) req 0 0) with
  | (m, Err er) => Some (b <| br_Mailbox := m |>, c, (zeroOutcome, Some (mailboxError er)))
  | (m, Ok published) =>
      let b := observePublish (b <| br_Mailbox := m |>) PublishPathCommand published in
      match invokeSync c req with
      | None => None
      | Some (c, (outcome, invokeErr)) =>
          let b := b <| br_Mailbox ::= between |> in
          match PublishTerminal (be_result e) (br_Mailbox b) (resultEnvelope e req outcome) with
          | (m, Err er) =>
              let err := match invokeErr with
                         | Some ie => WrapError (ErrorText ie +:+ "; publish result envelope failed: "
                                                 +:+ mailboxErrorText er) ie
                         | None => mailboxError er
                         end in
              Some (b <| br_Mailbox := m |>, c, (outcome, Some err))
          | (m, Ok result) =>
              Some (observePublish (b <| br_Mailbox := m |>) PublishPathResult result, c, (outcome, invokeErr))
          end
      end
  end.

(** ** Asynchronous invocation *)

Definition asyncReportOf (report : A2AReport) : MailboxTypes.AsyncReport :=
  mkAsyncReport (TrimSpace (re_ReportKey report)) (TrimSpace (re_OutcomeKey report))
    (mkCorrelation (TrimSpace (re_WorkflowID report)) (TrimSpace (re_TaskID report))
       (TrimSpace (re_WorkflowID report)) (TrimSpace (re_TeamID report)))
    (TrimSpace (re_AgentID report)) (TrimSpace (re_PeerID report))
    (<["status" := AnyString (TrimSpace (TaskStatus_string (re_Status report)))]>
     (<["result" := map_value (re_Result report)]>
     (<["error_class" := AnyString (TrimSpace (re_ErrorClass report))]>
     (<["error_layer" := AnyString (TrimSpace (re_ErrorLayer report))]>
     (<["error_code" := AnyString (TrimSpace (re_ErrorCode report))]>
     (<["error_message" := AnyString (TrimSpace (re_ErrorMessage report))]>
     (<["delivery_attempt" := AnyInt (re_DeliveryAttempt report)]>
     (<["business_terminal" := AnyBool (re_BusinessTerminal report)]> ∅)))))))).

(** The sink the client gets: it publishes the report, then passes it on. [env] are the
    environments of the publications, by delivery attempt. *)
Definition wrappedSink {S} (env : Z -> MailboxEnv) (sink : option (ReportSink S)) : ReportSink (MailboxBridge * S) :=
  fun '(b, s) report =>
    match NewAsyncResultEnvelope (asyncReportOf report) with
    | Err er => ((b, s), Some (mailboxError er))
    | Ok envelope =>
        match PublishTerminal (env (re_DeliveryAttempt report)) (br_Mailbox b) envelope with
        | (m, Err er) => ((b <| br_Mailbox := m |>, s), Some (mailboxError er))
        | (m, Ok published) =>
            let b := observePublish (b <| br_Mailbox := m |>) PublishPathResult published in
            match sink with
            | Some deliver => let '(s, err) := deliver s report in ((b, s), err)
            | None => ((b, s), None)
            end
        end
    end.

Definition asyncCommandEnvelope (wall : Time) (req : AsyncRequest) : Envelope :=
  NewCommandEnvelope (commandMessageIDFromAsync wall req) (commandIdempotencyKeyFromAsync req)
    (mkCorrelation (TrimSpace (sq_WorkflowID req)) (TrimSpace (sq_TaskID req)) (TrimSpace (sq_WorkflowID req))
       (TrimSpace (sq_TeamID req)))
    (TrimSpace (sq_AgentID req)) (TrimSpace (sq_PeerID req)) (sq_Payload req) 0 0.

Definition InvokeAsync `{InvokeAsyncClient C} {S} (e : MailboxEnv) (wall : Time) (env : Z -> MailboxEnv)
    (b : MailboxBridge) (c : C) (req : AsyncRequest) (sink : option (ReportSink S))
    : option (MailboxBridge * C * (AsyncSubmitAck * option GoError)) :=
  match PublishCommand e (br_Mailbox b) (asyncCommandEnvelope wall req) with
  | (m, Err er) => Some (b <| br_Mailbox := m |>, c, (zeroAck, Some (mailboxError er)))
  | (m, Ok published) =>
      let b := observePublish (b <| br_Mailbox := m |>) PublishPathCommand published in
      match invokeAsync c req (wrappedSink env sink) with
      | None => None
      | Some (c, r) => Some (b, c, r)
      end
  end.
End invoke.
Arguments MailboxBridge : clear implicits.

(** A bridge over a fresh memory store. *)
Definition NewInMemoryMailboxBridge {order : RangeOrder} (sourceID : string) : MailboxBridge MemoryStore :=
  NewMailboxBridge (MailboxFacade.New (NewMemoryStore sourceID (mkPolicy 0 0 0 f64_zero 0 false)) 0) false.
