(* ===== verification/A2AAdapter.v ===== *)
(** * Scheduler: remote execution and reconciliation

    [orchestration/scheduler/a2a_adapter.go] turns a claimed task into a remote call and the
    outcome of the call, a report or a polled record into a terminal commit;
    [async_reconcile.go] polls the peers of the tasks that await a report and commits what
    they answer. A call that does not return is [None]. *)
From S2P Require Import Prelude GoStrings GoNum GoText CoreTypes SchedulerTypes SchedulerState SchedulerStore.
From S2P Require Import Scheduler A2ATypes A2ARouting A2AServer A2AClient A2AAsync.
From S2P Require Import MailboxTypes MailboxStore MailboxFacade Invoke.

Local Open Scope bool_scope.
Local Open Scope string_scope.
Local Open Scope list_scope.
Local Open Scope Z_scope.

(** ** Requests *)

Definition buildInvokeRequest (claimed : ClaimedTask) (pollInterval : Duration) : InvokeRequest :=
  let task := tr_Task (ct_Record claimed) in
  mkInvokeRequest (TrimSpace (tk_TaskID task) +:+ "-" +:+ TrimSpace (at_AttemptID (ct_Attempt claimed)))
    (TrimSpace (tk_WorkflowID task)) (TrimSpace (tk_TeamID task)) (TrimSpace (tk_StepID task))
    (TrimSpace (tk_AgentID task)) (TrimSpace (tk_PeerID task)) "scheduler.dispatch" (tk_Payload task) pollInterval None.

Definition buildTaskRequest (claimed : ClaimedTask) : A2ATaskRequest :=
  let req := buildInvokeRequest claimed 0 in
  mkA2ATaskRequest (TrimSpace (iq_TaskID req)) (TrimSpace (iq_WorkflowID req)) (TrimSpace (iq_TeamID req))
    (TrimSpace (iq_StepID req)) (TrimSpace (at_AttemptID (ct_Attempt claimed))) (TrimSpace (iq_AgentID req))
    (TrimSpace (iq_PeerID req)) (TrimSpace (iq_Method req)) [] (iq_Payload req) "" false "" "" "" "".

(** ** Executions *)

(** [AsyncAccepted] and [AsyncTaskID], which this package leaves at their zero value, apart. *)
Record A2AExecution : Type := mkA2AExecution {
  ax_Commit : TerminalCommit;
  ax_Retryable : bool
}.

(** The commit of an attempt, without a workspace provenance. *)
Definition a2aCommit (taskID attemptID : string) (status : TaskState) (source remoteTaskID : string)
    (res : any_map) (message class layer outcomeKey : string) (at_ : Time) : TerminalCommit :=
  mkTerminalCommit taskID attemptID status source remoteTaskID res message class layer outcomeKey at_ None.

Definition claimedCommit (claimed : ClaimedTask) (status : TaskState) (res : any_map)
    (message class layer : string) (now : Time) : TerminalCommit :=
  a2aCommit (tk_TaskID (tr_Task (ct_Record claimed))) (at_AttemptID (ct_Attempt claimed)) status "" "" res
    message class layer "" now.

Definition failedExecutionFromA2AError (now : Time) (claimed : ClaimedTask) (err : GoError) : A2AExecution :=
  let '(class, layer, _) := ClassifyError err in
  let errorLayer := orDefaultText ErrorLayerProtocol (TrimSpace layer) in
  mkA2AExecution (claimedCommit claimed TaskStateFailed ∅ (TrimSpace (ErrorText err)) (orDefaultText ErrMCP class)
                    errorLayer now)
    (errorLayer =s? ErrorLayerTransport).

Definition failedExecutionFromInvokeError (now : Time) (claimed : ClaimedTask) (outcome : Outcome) (err : GoError)
    : A2AExecution :=
  match oc_Error outcome with
  | None => failedExecutionFromA2AError now claimed err
  | Some e =>
      mkA2AExecution
        (claimedCommit claimed TaskStateFailed ∅ (orDefaultText (TrimSpace (ErrorText err)) (TrimSpace (ne_Message e)))
           (orDefaultText ErrMCP (ne_Class e)) (orDefaultText ErrorLayerProtocol (TrimSpace (ne_Layer e))) now)
        (ne_Retryable e)
  end.

(** ** Polling *)

Inductive ReconcilePollClassification : Type :=
| ReconcilePollClassificationPending
| ReconcilePollClassificationTerminal
| ReconcilePollClassificationNotFound
| ReconcilePollClassificationRetryableError
| ReconcilePollClassificationNonRetryableErr.

Class PollClient (C : Type) : Type := {
  pc_Status : C -> string -> option (C * reply);
  pc_Result : C -> string -> option (C * reply)
}.

#[export] Instance Client_PollClient {W} `{A2AServer W} : PollClient (Client W) := {|
  pc_Status := ClientStatus;
  pc_Result := ClientResult
|}.

Definition classifyReconcilePollError (err : GoError) : ReconcilePollClassification :=
  if Contains (lower_trim (ErrorText err)) "not found" then ReconcilePollClassificationNotFound
  else
    let '(_, layer, _) := ClassifyError err in
    if layer =s? ErrorLayerTransport then ReconcilePollClassificationRetryableError
    else ReconcilePollClassificationNonRetryableErr.

Abbreviation poll := (ReconcilePollClassification * A2ATaskRecord * option GoError)%type.

Section adapter.
Context {quote : QuoteText} {mv : MapValue}.

Definition ClassifyReconcilePoll {C} `{PollClient C} (c : C) (remoteTaskID : string) : option (C * poll) :=
  let remoteTaskID := TrimSpace remoteTaskID in
  if remoteTaskID =s? ""
  then Some (c, (ReconcilePollClassificationNonRetryableErr, zeroA2ARecord,
                 Some (ErrorString "remote_task_id is required")))
  else match pc_Status c remoteTaskID with
  | None => None
  | Some (c, (_, Some err)) => Some (c, (classifyReconcilePollError err, zeroA2ARecord, Some err))
  | Some (c, (statusRecord, None)) =>
      if isTerminal (ac_Status statusRecord) then
        match pc_Result c remoteTaskID with
        | None => None
        | Some (c, (_, Some err)) => Some (c, (classifyReconcilePollError err, zeroA2ARecord, Some err))
        | Some (c, (resultRecord, None)) =>
            let resultRecord := resultRecord <| ac_TaskID ::= orBlank remoteTaskID |> in
            Some (c, (ReconcilePollClassificationTerminal, resultRecord, None))
        end
      else Some (c, (ReconcilePollClassificationPending, statusRecord, None))
  end.

Definition ReconcileTerminalCommitFromRecord (wall : Time) (taskID attemptID remoteTaskID : string)
    (record : A2ATaskRecord) (committedAt : Time) : result GoError TerminalCommit :=
  let taskID := TrimSpace taskID in
  let attemptID := TrimSpace attemptID in
  let remoteTaskID := TrimSpace remoteTaskID in
  require negb ((taskID =s? "") || (attemptID =s? "")) orelse ErrorString "task_id and attempt_id are required";
  let committedAt := or_now wall committedAt in
  match ac_Status record with
  | StatusSucceeded =>
      Ok (a2aCommit taskID attemptID TaskStateSucceeded AsyncResolutionSourceReconcilePoll remoteTaskID
            (ac_Result record) "" "" "" "" committedAt)
  | StatusFailed | StatusCanceled =>
      let message := orDefaultText ("a2a terminal status " +:+ fmt_q (TaskStatus_string (ac_Status record)))
                       (TrimSpace (ac_ErrorMessage record)) in
      Ok (a2aCommit taskID attemptID TaskStateFailed AsyncResolutionSourceReconcilePoll remoteTaskID ∅ message
            (orDefaultText ErrMCP (ac_ErrorClass record))
            (orDefaultText ErrorLayerProtocol (TrimSpace (ac_A2AErrorLayer record))) "" committedAt)
  | st => Err (ErrorString ("unsupported reconcile terminal status " +:+ fmt_q (TaskStatus_string st)))
  end.

(** ** Reports *)

Definition ExecutionFromAsyncReport (now : Time) (claimed : ClaimedTask) (report : A2AReport)
    : A2AExecution * option GoError :=
  let attemptID := orDefaultText (TrimSpace (at_AttemptID (ct_Attempt claimed))) (TrimSpace (re_AttemptID report)) in
  let fail err := (failedExecutionFromA2AError now claimed err, Some err) in
  let commit status res message class layer :=
    a2aCommit (tk_TaskID (tr_Task (ct_Record claimed))) attemptID status AsyncResolutionSourceCallback
      (TrimSpace (re_TaskID report)) res message class layer (TrimSpace (re_OutcomeKey report)) now in
  if attemptID =s? "" then fail (ErrorString "async report attempt_id is required")
  else match re_Status report with
  | StatusSucceeded => (mkA2AExecution (commit TaskStateSucceeded (re_Result report) "" "" "") false, None)
  | StatusFailed | StatusCanceled =>
      let layer := orDefaultText ErrorLayerProtocol (TrimSpace (re_ErrorLayer report)) in
      let message := orDefaultText ("a2a async terminal status " +:+ fmt_q (TaskStatus_string (re_Status report)))
                       (TrimSpace (re_ErrorMessage report)) in
      (mkA2AExecution (commit TaskStateFailed ∅ message (orDefaultText ErrMCP (re_ErrorClass report)) layer)
         (layer =s? ErrorLayerTransport), None)
  | st => fail (ErrorString ("unsupported async report status " +:+ fmt_q (TaskStatus_string st)))
  end.

(** ** Executing a claim *)

(** The failure of a terminal outcome: message, class, layer and whether to retry. *)
Definition outcomeFailure (outcome : Outcome) : string * string * string * bool :=
  let '(layer, retryable, message, class) :=
    match oc_Error outcome with
    | Some e => (TrimSpace (ne_Layer e), ne_Retryable e, TrimSpace (ne_Message e), orDefaultText ErrMCP (ne_Class e))
    | None => ("", false, "", ErrMCP)
    end in
  let '(layer, retryable) :=
    if layer =s? "" then
      let layer := TrimSpace (ac_A2AErrorLayer (oc_Record outcome)) in (layer, layer =s? ErrorLayerTransport)
    else (layer, retryable) in
  let layer := orDefaultText ErrorLayerProtocol layer in
  let message := orDefaultText (TrimSpace (ac_ErrorMessage (oc_Record outcome))) message in
  (orDefaultText ("a2a terminal status " +:+ fmt_q (TaskStatus_string (oc_TerminalStatus outcome))) message,
   class, layer, retryable).

Definition executionOf (now : Time) (claimed : ClaimedTask) (outcome : Outcome) : A2AExecution * option GoError :=
  match oc_TerminalStatus outcome with
  | StatusSucceeded =>
      (mkA2AExecution (claimedCommit claimed TaskStateSucceeded (oc_Result outcome) "" "" "" now) false, None)
  | StatusFailed | StatusCanceled =>
      let '(message, class, layer, retryable) := outcomeFailure outcome in
      (mkA2AExecution (claimedCommit claimed TaskStateFailed ∅ message class layer now) retryable, None)
  | st => (failedExecutionFromA2AError now claimed (unsupportedStatus st), Some (unsupportedStatus st))
  end.

(** The request of a claim: agent and peer have defaults. *)
Definition claimRequest (claimed : ClaimedTask) (pollInterval : Duration) : InvokeRequest :=
  buildInvokeRequest claimed pollInterval
    <| iq_AgentID ::= orDefaultText "scheduler-worker" |> <| iq_PeerID ::= orDefaultText "scheduler-peer" |>.

Section execution.
Context {C T : Type} `{InvokeClient C, MailboxStore T}.

(** [bridge] is what [resolveMailboxBridge] returns, [now] the time of the commit. *)
Definition ExecuteClaimWithA2A (e : BridgeEnv) (between : Mailbox T -> Mailbox T) (now : Time) (c : C)
    (claimed : ClaimedTask) (pollInterval : Duration) (bridge : result GoError (MailboxBridge T))
    : option (result GoError (MailboxBridge T) * C * (A2AExecution * option GoError)) :=
  match bridge with
  | Err err => Some (bridge, c, (failedExecutionFromA2AError now claimed err, Some err))
  | Ok b =>
      match InvokeSync e between b c (claimRequest claimed pollInterval) with
      | None => None
      | Some (b, c, (outcome, Some err)) =>
          Some (Ok b, c, (failedExecutionFromInvokeError now claimed outcome err, Some err))
      | Some (b, c, (outcome, None)) => Some (Ok b, c, executionOf now claimed outcome)
      end
  end.
End execution.

(** The request of an asynchronous submission; the attempt is in the payload too. *)
Definition asyncClaimRequest (claimed : ClaimedTask) : AsyncRequest :=
  let req := buildTaskRequest claimed in
  mkAsyncRequest (aq_TaskID req) (aq_WorkflowID req) (aq_TeamID req) (aq_StepID req) (aq_AttemptID req)
    (orDefaultText "scheduler-worker" (aq_AgentID req)) (orDefaultText "scheduler-peer" (aq_PeerID req))
    (aq_Method req) (<["attempt_id" := AnyString (TrimSpace (at_AttemptID (ct_Attempt claimed)))]> (aq_Payload req)).

Definition SubmitClaimWithA2AAsync {C T S} `{InvokeAsyncClient C, MailboxStore T} (e : MailboxEnv) (wall : Time)
    (env : Z -> MailboxEnv) (c : C) (claimed : ClaimedTask) (sink : option (ReportSink S))
    (bridge : result GoError (MailboxBridge T))
    : option (result GoError (MailboxBridge T) * C * (AsyncSubmitAck * option GoError)) :=
  match bridge with
  | Err err => Some (bridge, c, (zeroAck, Some err))
  | Ok b =>
      match InvokeAsync e wall env b c (asyncClaimRequest claimed) sink with
      | None => None
      | Some (b, c, (_, Some err)) => Some (Ok b, c, (zeroAck, Some err))
      | Some (b, c, (ack, None)) =>
          Some (Ok b, c, (ack <| ak_TaskID ::= orBlank (sq_TaskID (asyncClaimRequest claimed)) |>, None))
      end
  end.

(** The bridge of a caller, or a fresh one in memory. *)
Definition resolveMailboxBridge {order : RangeOrder} (sourceID : string)
    (provider : option (result GoError (MailboxBridge MailboxStore.MemoryStore)))
    : result GoError (MailboxBridge MailboxStore.MemoryStore) :=
  match provider with
  | Some r => r
  | None => Ok (NewInMemoryMailboxBridge sourceID)
  end.

(** ** Reconciliation *)

Record ReconcileCycleStats : Type := mkReconcileCycleStats {
  rs_PollTotal : Z;
  rs_TerminalByPoll : Z;
  rs_ErrorTotal : Z;
  rs_ConflictTotalDelta : Z
}.
#[export] Instance eta_ReconcileCycleStats : Settable ReconcileCycleStats := fun r =>
  mkReconcileCycleStats (rs_PollTotal r) (rs_TerminalByPoll r) (rs_ErrorTotal r) (rs_ConflictTotalDelta r).

Definition zeroCycleStats : ReconcileCycleStats := mkReconcileCycleStats 0 0 0 0.

Definition reconcileJitteredInterval (base : Duration) (ratio : f64) (seq : Z) : Duration :=
  let base := if base <=? 0 then 5 * Second else base in
  if f64_leb ratio f64_zero then base
  else
    let ratio := if f64_ltb f64_one ratio then f64_one else ratio in
    let jitterRange := f64_to_i64 (f64_mul (f64_of_Z base) ratio) in
    if jitterRange <=? 0 then base
    else
      let seed := stableRetryJitterSeed "async_reconcile_interval" (itoa seq) seq in
      let jitter := wrap_i64 (Z.rem seed (wrap_i64 (2 * jitterRange + 1)) - jitterRange) in
      let withJitter := wrap_i64 (base + jitter) in
      if withJitter <=? 0 then Millisecond else withJitter.

Section reconcile.
Context {T : Type} `{QueueStore T}.
Context {C : Type} `{PollClient C}.
Implicit Types (s : Scheduler T) (c : C).

Definition NextAsyncReconcileDelay s : Scheduler T * Duration :=
  let cfg := aa_Reconcile (sc_asyncAwait s) in
  let s := s <| sc_reconcileSeq ::= fun n => wrap_i64 (n + 1) |> in
  (s, reconcileJitteredInterval (ar_Interval cfg) (ar_JitterRatio cfg) (sc_reconcileSeq s)).

Definition countError (st : ReconcileCycleStats) : ReconcileCycleStats := st <| rs_ErrorTotal ::= Z.succ |>.

(** The commit of a polled record. [ck] is the clock of the commit. *)
Definition commitPolled (ck : Clock) (now : Time) s (st : ReconcileCycleStats) (record : TaskRecord)
    (attempt : Attempt) (remoteTaskID : string) (terminalRecord : A2ATaskRecord) : Scheduler T * ReconcileCycleStats :=
  match ReconcileTerminalCommitFromRecord (env_wall (ck_env ck)) (tk_TaskID (tr_Task record))
          (at_AttemptID attempt) remoteTaskID terminalRecord now with
  | Err _ => (s, countError st)
  | Ok commit =>
      match FacadeCommitAsyncReportTerminal ck s commit with
      | (s, Err _) => (s, countError st)
      | (s, Ok r) =>
          let st := if cr_Conflict r then st <| rs_ConflictTotalDelta ::= Z.succ |> else st in
          (s, if negb (cr_Duplicate r) && negb (cr_LateReport r) then st <| rs_TerminalByPoll ::= Z.succ |> else st)
      end
  end.

(** One record of the batch. [between] is what others do to the scheduler while the peer
    is polled. *)
Definition reconcileRecord (ck : Clock) (now : Time) (between : Scheduler T -> Scheduler T)
    s c (st : ReconcileCycleStats) (record : TaskRecord) : option (Scheduler T * C * ReconcileCycleStats) :=
  let remoteTaskID := TrimSpace (tr_RemoteTaskID record) in
  if remoteTaskID =s? "" then Some (s, c, countError st)
  else match currentAttempt record with
  | None => Some (s, c, countError st)
  | Some attempt =>
      let st := st <| rs_PollTotal ::= Z.succ |> in
      match ClassifyReconcilePoll c remoteTaskID with
      | None => None
      | Some (c, (classification, terminalRecord, _)) =>
          let s := between s in
          match classification with
          | ReconcilePollClassificationTerminal =>
              let '(s, st) := commitPolled ck now s st record attempt remoteTaskID terminalRecord in Some (s, c, st)
          | ReconcilePollClassificationRetryableError | ReconcilePollClassificationNonRetryableErr =>
              Some (s, c, countError st)
          | ReconcilePollClassificationNotFound | ReconcilePollClassificationPending => Some (s, c, st)
          end
      end
  end.

Fixpoint reconcileLoop (cks : nat -> Clock) (now : Time) (between : nat -> Scheduler T -> Scheduler T) (i : nat)
    s c (st : ReconcileCycleStats) (awaiting : list TaskRecord) : option (Scheduler T * C * ReconcileCycleStats) :=
  match awaiting with
  | [] => Some (s, c, st)
  | record :: awaiting =>
      match reconcileRecord (cks i) now (between i) s c st record with
      | None => None
      | Some (s, c, st) => reconcileLoop cks now between (S i) s c st awaiting
      end
  end.

(** [cks i] is the clock of the [i]-th commit; the cycle reads its own from [ck]. *)
Definition ReconcileAwaitingReports (ck : Clock) (cks : nat -> Clock) (between : nat -> Scheduler T -> Scheduler T)
    s c : option (Scheduler T * C * (ReconcileCycleStats * option SchedulerError)) :=
  let cfg := aa_Reconcile (sc_asyncAwait s) in
  if negb (ar_Enabled cfg) then Some (s, c, (zeroCycleStats, None))
  else
    let now := ck_now ck in
    match ListAwaitingReport (ck_env ck) (sc_store s) now (ar_BatchSize cfg) with
    | Err e => Some (s, c, (zeroCycleStats, Some e))
    | Ok awaiting =>
        match reconcileLoop cks now between 0 s c zeroCycleStats awaiting with
        | None => None
        | Some (s, c, st) =>
            match onStore s (RecordAsyncReconcileStats (ck_env ck) (sc_store s) (rs_PollTotal st) (rs_ErrorTotal st)) with
            | (s, Err e) => Some (s, c, (st, Some e))
            | (s, Ok _) => Some (s, c, (st, None))
            end
        end
    end.
End reconcile.
End adapter.
