(* ===== verification/A2AServerProps.v ===== *)
(** * Agent to agent: theorems about the in-memory server

    The tasks of a server move along a lifecycle, each is resolved once, and every accepted
    task is resolved when the goroutines run; a refused submission blocks the server. *)
From S2P Require Import Prelude GoStrings GoNum GoTime GoText CoreTypes SchedulerTypes Scheduler A2ATypes A2ARouting.
From S2P Require Import A2AServer.

Local Open Scope bool_scope.
Local Open Scope string_scope.
Local Open Scope list_scope.
Local Open Scope Z_scope.

Create HintDb a2a.

(** ** What an update of the timeline leaves alone *)

Section emit.
Context (clock : nat -> Time).
Implicit Types (s : InMemoryServer).

Lemma emit_tasks s r why : im_tasks (serverEmitTimeline clock s r why) = im_tasks s.
Proof. unfold serverEmitTimeline. by case_match. Qed.

Lemma emit_running s r why : im_running (serverEmitTimeline clock s r why) = im_running s.
Proof. unfold serverEmitTimeline. by case_match. Qed.

Lemma emit_mu s r why : im_mu (serverEmitTimeline clock s r why) = im_mu s.
Proof. unfold serverEmitTimeline. by case_match. Qed.

Lemma emit_handler s r why : im_handler (serverEmitTimeline clock s r why) = im_handler s.
Proof. unfold serverEmitTimeline. by case_match. Qed.

(** [updateTaskNow] on a task the server has: it stamps the record with some reading. *)
Lemma update_now_tasks s id apply r :
  im_tasks s !! TrimSpace id = Some r ->
  exists now, im_tasks (updateTaskNow clock s id apply)
              = <[ac_TaskID (stamped apply now r) := stamped apply now r]> (im_tasks s).
Proof.
  intros Hr. unfold updateTaskNow. rewrite Hr. cbn. unfold updateTask. cbn. rewrite Hr.
  eexists. by rewrite emit_tasks.
Qed.

Lemma update_now_frame s id apply :
  let s' := updateTaskNow clock s id apply in
  im_running s' = im_running s /\ im_mu s' = im_mu s /\ im_handler s' = im_handler s.
Proof.
  cbn. unfold updateTaskNow. destruct (im_tasks s !! TrimSpace id) eqn:E; [|done].
  cbn. unfold updateTask. cbn. rewrite E. by rewrite emit_running, emit_mu, emit_handler.
Qed.
End emit.

(** ** The invariant *)

(** The status of a task whose goroutine is at [g]. *)
Definition phase (g : goroutine) : TaskStatus :=
  match g with Starting _ => StatusSubmitted | Handling _ => StatusRunning end.

Definition gid (g : goroutine) : string := aq_TaskID (goroutine_req g).

Record server_inv (s : InMemoryServer) : Prop := {
  si_key : forall k r, im_tasks s !! k = Some r -> ac_TaskID r = k /\ TrimSpace k = k;
  si_nodup : NoDup (gid <$> im_running s);
  si_running : forall g, g ∈ im_running s -> exists r, im_tasks s !! gid g = Some r /\ ac_Status r = phase g;
  si_status : forall k r, im_tasks s !! k = Some r ->
    ac_Status r = StatusSucceeded \/ ac_Status r = StatusFailed
    \/ exists g, g ∈ im_running s /\ gid g = k /\ ac_Status r = phase g
}.

Lemma new_server_inv handler timeline : server_inv (NewInMemoryServer handler timeline).
Proof. split; cbn; try done; [apply NoDup_nil_2 | set_solver]. Qed.

(** Only tasks and goroutines matter. *)
Lemma server_inv_ext s s' :
  im_tasks s' = im_tasks s -> im_running s' = im_running s -> server_inv s -> server_inv s'.
Proof. intros Ht Hr [H1 H2 H3 H4]. split; rewrite ?Ht, ?Hr; done. Qed.

(** The identity of a task: what no update touches. *)
Definition identity (r : A2ATaskRecord) :=
  (ac_TaskID r, ac_WorkflowID r, ac_TeamID r, ac_StepID r, ac_AttemptID r, ac_AgentID r, ac_PeerID r,
   (ac_DeliveryMode r, ac_VersionLocal r, ac_VersionPeer r)).

Lemma identity_task r r' : identity r' = identity r -> ac_TaskID r' = ac_TaskID r.
Proof. unfold identity. intros E. by simplify_eq. Qed.

(** How the record of a task may change. *)
Inductive advance : A2ATaskRecord -> A2ATaskRecord -> Prop :=
| AdvanceSame r : advance r r
| AdvanceStart r r' : ac_Status r = StatusSubmitted -> ac_Status r' = StatusRunning ->
    identity r' = identity r -> advance r r'
| AdvanceResolve r r' : ac_Status r = StatusRunning ->
    ac_Status r' = StatusSucceeded \/ ac_Status r' = StatusFailed ->
    identity r' = identity r -> advance r r'.
#[export] Hint Constructors advance : a2a.

(** What an answer of the handler or its absence makes of a record. *)
Lemma resolution_fields (handler : bool) answer now r :
  let r' := stamped (if handler then answered answer else handlerMissing) now r in
  (ac_Status r' = StatusSucceeded \/ ac_Status r' = StatusFailed) /\ identity r' = identity r.
Proof.
  destruct handler; cbn; [|by split; [right|]].
  destruct answer as [res|err]; cbn; [by split; [left|]|].
  unfold stamped, answered. destruct (ClassifyError err) as [[class layer] code]. by split; [right|].
Qed.

Lemma padded_trimmed w n : TrimSpace ("a2a-task-" +:+ padded w n) = "a2a-task-" +:+ padded w n.
Proof.
  apply TrimSpace_id, ascii_trimmed. rewrite bytes_app. apply Forall_app_2; [by repeat constructor|].
  unfold padded. rewrite bytes_app, bytes_of_bytes. apply Forall_app_2; [|apply itoa_ascii].
  apply Forall_replicate. reflexivity.
Qed.

(** *** Submitting *)

Section steps.
Context {quote : QuoteText} (clock : nat -> Time).
Implicit Types (s : InMemoryServer).

Lemma identified_spec s req :
  let p := identified s (trimServerRequest req) in
  im_tasks p.1 = im_tasks s /\ im_running p.1 = im_running s /\ im_handler p.1 = im_handler s
  /\ im_mu p.1 = im_mu s /\ TrimSpace (aq_TaskID p.2) = aq_TaskID p.2
  /\ aq_AgentID p.2 = TrimSpace (aq_AgentID req) /\ aq_PeerID p.2 = TrimSpace (aq_PeerID req).
Proof.
  cbn. unfold identified. case_match; cbn; split_and!; try done.
  - apply padded_trimmed.
  - by rewrite TrimSpace_idemp.
Qed.

(** A submission that is accepted adds a task and its goroutine; any other one adds
    nothing. *)
Lemma submit_cases s req s' rep :
  ServerSubmit clock s req = Some (s', rep) ->
  im_mu s = false /\ im_handler s' = im_handler s
  /\ ((exists req' r, rep = (r, None) /\ im_tasks s !! aq_TaskID req' = None
        /\ TrimSpace (aq_TaskID req') = aq_TaskID req' /\ ac_TaskID r = aq_TaskID req'
        /\ ac_Status r = StatusSubmitted /\ im_mu s' = false
        /\ im_tasks s' = <[aq_TaskID req' := r]> (im_tasks s) /\ im_running s' = im_running s ++ [Starting req'])
      \/ (exists e, rep = (zeroA2ARecord, Some e)) /\ im_tasks s' = im_tasks s /\ im_running s' = im_running s).
Proof.
  unfold ServerSubmit. destruct (im_mu s) eqn:Hmu; [done|].
  pose proof (identified_spec (s <| im_mu := true |>) req) as Hid. cbn in Hid.
  destruct (identified _ _) as [s1 req1]. cbn in Hid. destruct Hid as (Ht & Hr & Hh & _ & Htrim & _ & _).
  case_match; [intros [= <- <-]; split_and!; [done|done|right; split; [by eexists | done]]|].
  case_match; [intros [= <- <-]; split_and!; [done|done|right; split; [by eexists | done]]|].
  destruct (im_tasks s1 !! aq_TaskID req1) eqn:Hl;
    [intros [= <- <-]; split_and!; [done|done|right; split; [by eexists | done]]|].
  cbn. intros [= <- <-]. split_and!; [done | cbn; by rewrite emit_handler|]. left. exists req1. eexists.
  cbn. rewrite emit_mu, emit_tasks, emit_running. cbn. rewrite <-Ht, <-Hr. done.
Qed.

Lemma submit_inv s req s' rep : ServerSubmit clock s req = Some (s', rep) -> server_inv s -> server_inv s'.
Proof.
  intros E Hinv. pose proof E as (_ & _ & [(req' & r & _ & Hnew & Htrim & Hrid & Hst & _ & Ht & Hr)|(_ & Ht & Hr)])%submit_cases;
    [|by eapply server_inv_ext]. clear E.
  assert (Hfresh : forall g, g ∈ im_running s -> gid g <> aq_TaskID req').
  { intros g Hg Heq. destruct (si_running s Hinv g Hg) as (r0 & H0 & _). congruence. }
  destruct Hinv as [H1 H2 H3 H4]. split.
  - intros k r0. rewrite Ht. intros [[<- <-]|[_ Hk]]%lookup_insert_Some; [done | by apply H1].
  - rewrite Hr, fmap_app. apply NoDup_app. split_and!; [done | | apply NoDup_singleton].
    intros x (g & -> & Hg)%list_elem_of_fmap Hx%list_elem_of_singleton. by apply (Hfresh g).
  - intros g. rewrite Hr, Ht, elem_of_app, list_elem_of_singleton. intros [Hg| ->].
    + rewrite lookup_insert_ne by (by apply not_eq_sym, Hfresh). by apply H3.
    + exists r. by rewrite lookup_insert_eq.
  - intros k r0. rewrite Ht, Hr. intros [[<- <-]|[_ Hk]]%lookup_insert_Some.
    + right; right. exists (Starting req'). rewrite elem_of_app, list_elem_of_singleton. auto.
    + destruct (H4 k r0 Hk) as [?|[?|(g & Hg & ? & ?)]]; [auto..|]. right; right. exists g.
      rewrite elem_of_app. auto.
Qed.

(** *** Executing *)

(** A step of a goroutine changes its task and no other. *)
Lemma goroutine_cases s i answer s' :
  server_inv s -> executeStep clock s i answer = Some s' ->
  im_mu s = false /\ im_mu s' = false /\ im_handler s' = im_handler s
  /\ exists g r now, im_running s !! i = Some g /\ im_tasks s !! gid g = Some r /\ ac_Status r = phase g
     /\ match g with
        | Starting req =>
            im_running s' = <[i := Handling req]> (im_running s)
            /\ im_tasks s' = <[gid g := stamped markRunning now r]> (im_tasks s)
        | Handling req =>
            im_running s' = delete i (im_running s)
            /\ im_tasks s' = <[gid g := stamped (if im_handler s then answered answer else handlerMissing) now r]>
                               (im_tasks s)
        end.
Proof.
  intros Hinv. unfold executeStep. destruct (im_mu s) eqn:Hmu; [done|].
  destruct (im_running s !! i) as [g|] eqn:Hi; [|done].
  destruct (si_running s Hinv g) as (r & Hr & Hst); [by eapply list_elem_of_lookup_2|].
  destruct (si_key s Hinv _ _ Hr) as [Hkey Htrim].
  assert (Hr' : im_tasks s !! TrimSpace (gid g) = Some r) by (by rewrite Htrim).
  destruct g as [req|req]; intros [= <-]; cbn; cbn in Hr', Hr, Hkey.
  - destruct (update_now_frame clock s (aq_TaskID req) markRunning) as (_ & -> & ->).
    split_and!; [done..|]. destruct (update_now_tasks clock s (aq_TaskID req) markRunning r Hr') as (now & ->).
    exists (Starting req), r, now. cbn. by rewrite Hkey.
  - set (apply := if im_handler s then answered answer else handlerMissing).
    destruct (update_now_frame clock s (aq_TaskID req) apply) as (_ & -> & ->).
    split_and!; [done..|]. destruct (update_now_tasks clock s (aq_TaskID req) apply r Hr') as (now & ->).
    exists (Handling req), r, now. cbn. split_and!; try done.
    destruct (resolution_fields (im_handler s) answer now r) as [_ Hid]. fold apply in Hid.
    pose proof (identity_task _ _ Hid) as Hid'. cbn in Hid'. by rewrite Hid', Hkey.
Qed.

(** A goroutine that moves or ends: its id is that of no other one. *)
Lemma other_goroutine s i j g g' :
  server_inv s -> im_running s !! i = Some g -> im_running s !! j = Some g' -> gid g' = gid g -> i = j.
Proof.
  intros Hinv Hi Hj Heq. eapply (NoDup_lookup _ i j); [apply (si_nodup s Hinv) | |].
  - by rewrite list_lookup_fmap, Hi.
  - rewrite list_lookup_fmap, Hj. cbn. by rewrite Heq.
Qed.

Lemma moved_goroutines s i g g2 g' :
  server_inv s -> im_running s !! i = Some g -> gid g2 = gid g ->
  g' ∈ <[i := g2]> (im_running s) <-> g' = g2 \/ g' ∈ im_running s /\ gid g' <> gid g.
Proof.
  intros Hinv Hi H2. rewrite !list_elem_of_lookup. split.
  - intros (j & [(-> & -> & _)|[Hne Hj]]%list_lookup_insert_Some); [by left|]. right. split; [by eexists|].
    intros E. apply Hne. by eapply other_goroutine.
  - intros [-> | [[j Hj] Hne]].
    + exists i. apply list_lookup_insert_eq. by eapply lookup_lt_Some.
    + exists j. rewrite list_lookup_insert_ne; [done|]. intros <-. congruence.
Qed.

Lemma ended_goroutine s i g g' :
  server_inv s -> im_running s !! i = Some g ->
  g' ∈ delete i (im_running s) <-> g' ∈ im_running s /\ gid g' <> gid g.
Proof.
  intros Hinv Hi. rewrite !list_elem_of_lookup. split.
  - intros (j & Hj). destruct (decide (j < i)%nat).
    + rewrite list_lookup_delete_lt in Hj by done. split; [by eexists|].
      intros E. pose proof (other_goroutine s i j g g' Hinv Hi Hj E). lia.
    + rewrite list_lookup_delete_ge in Hj by lia. split; [by eexists|].
      intros E. pose proof (other_goroutine s i (S j) g g' Hinv Hi Hj E). lia.
  - intros [[j Hj] Hne]. assert (i <> j) by (intros <-; congruence). destruct (decide (j < i)%nat).
    + exists j. by rewrite list_lookup_delete_lt.
    + exists (Nat.pred j). rewrite list_lookup_delete_ge by lia. by replace (S (Nat.pred j)) with j by lia.
Qed.

(** The invariant after a task and its goroutine have moved together. *)
Lemma moved_inv s s' g r' :
  server_inv s -> g ∈ im_running s -> ac_TaskID r' = gid g -> im_tasks s' = <[gid g := r']> (im_tasks s) ->
  NoDup (gid <$> im_running s') ->
  (forall g', g' ∈ im_running s' -> gid g' = gid g /\ ac_Status r' = phase g' \/ g' ∈ im_running s /\ gid g' <> gid g) ->
  (forall g', g' ∈ im_running s -> gid g' <> gid g -> g' ∈ im_running s') ->
  (ac_Status r' = StatusSucceeded \/ ac_Status r' = StatusFailed
   \/ exists g', g' ∈ im_running s' /\ gid g' = gid g /\ ac_Status r' = phase g') ->
  server_inv s'.
Proof.
  intros Hinv Hg Hid Ht Hnd Hin Hout Hst. destruct (si_running s Hinv g Hg) as (r & Hr & _).
  destruct (si_key s Hinv _ _ Hr) as [_ Htrim]. split; [|done|..].
  - intros k r0. rewrite Ht. intros [[<- <-]|[_ Hk]]%lookup_insert_Some; [done | by apply (si_key s Hinv)].
  - intros g' [[E1 E2]|[H1 H2]]%Hin; rewrite Ht.
    + exists r'. by rewrite E1, lookup_insert_eq.
    + rewrite lookup_insert_ne by done. by apply (si_running s Hinv).
  - intros k r0. rewrite Ht. intros [[<- <-]|[Hne Hk]]%lookup_insert_Some; [done|].
    destruct (si_status s Hinv k r0 Hk) as [?|[?|(g' & Hg' & Hk' & ?)]]; [auto..|].
    right; right. exists g'. split_and!; [|done..]. apply Hout; [done|congruence].
Qed.

Lemma execute_inv s i answer s' :
  server_inv s -> executeStep clock s i answer = Some s' -> server_inv s'.
Proof.
  intros Hinv (_ & _ & _ & g & r & now & Hi & Hr & Hst & Hg)%goroutine_cases; [|done].
  destruct (si_key s Hinv _ _ Hr) as [Hkey _].
  assert (Hin : g ∈ im_running s) by (by eapply list_elem_of_lookup_2).
  destruct g as [req|req]; destruct Hg as [Hrun Ht].
  - apply (moved_inv s s' (Starting req) (stamped markRunning now r)); [done..| | | |].
    + rewrite Hrun, list_fmap_insert. cbn. rewrite list_insert_id; [apply (si_nodup s Hinv)|].
      by rewrite list_lookup_fmap, Hi.
    + intros g'. rewrite Hrun, (moved_goroutines s i (Starting req)) by done. intros [-> |?]; [by left | by right].
    + intros g' ? ?. rewrite Hrun, (moved_goroutines s i (Starting req)) by done. by right.
    + right; right. exists (Handling req). rewrite Hrun, (moved_goroutines s i (Starting req)) by done. auto.
  - destruct (resolution_fields (im_handler s) answer now r) as [Hres Hid].
    eapply (moved_inv s s' (Handling req)); [done|done| | | | | |].
    + by rewrite (identity_task _ _ Hid).
    + exact Ht.
    + rewrite Hrun, list_fmap_delete. eapply sublist_NoDup; [apply (si_nodup s Hinv) | apply sublist_delete].
    + intros g'. rewrite Hrun, (ended_goroutine s i (Handling req)) by done. by right.
    + intros g' ? ?. by rewrite Hrun, (ended_goroutine s i (Handling req)).
    + destruct Hres; auto.
Qed.

(** *** All steps *)

Lemma status_frame s id s' rep :
  ServerStatus clock s id = Some (s', rep) -> im_tasks s' = im_tasks s /\ im_running s' = im_running s /\ im_mu s' = im_mu s.
Proof.
  unfold ServerStatus. destruct (im_mu s) eqn:Hmu; [done|].
  case_match; intros [= <- <-]; by rewrite ?emit_tasks, ?emit_running, ?emit_mu.
Qed.

Lemma result_frame s id s' rep :
  ServerResult clock s id = Some (s', rep) -> im_tasks s' = im_tasks s /\ im_running s' = im_running s /\ im_mu s' = im_mu s.
Proof.
  unfold ServerResult. destruct (im_mu s) eqn:Hmu; [done|].
  case_match; [case_match|]; intros [= <- <-]; by rewrite ?emit_tasks, ?emit_running, ?emit_mu.
Qed.

Lemma step_inv s s' : server_step clock s s' -> server_inv s -> server_inv s'.
Proof.
  intros [s1 req s2 rep E|s1 id s2 rep E|s1 id s2 rep E|s1 i answer s2 E] Hinv.
  - by eapply submit_inv.
  - apply status_frame in E as (? & ? & _). by eapply server_inv_ext.
  - apply result_frame in E as (? & ? & _). by eapply server_inv_ext.
  - by eapply execute_inv.
Qed.

Lemma steps_inv s s' : rtc (server_step clock) s s' -> server_inv s -> server_inv s'.
Proof. induction 1; eauto using step_inv. Qed.

Lemma step_advances s s' k r :
  server_step clock s s' -> server_inv s -> im_tasks s !! k = Some r ->
  exists r', im_tasks s' !! k = Some r' /\ advance r r'.
Proof.
  intros Hstep Hinv Hk. destruct Hstep as [s req s' rep E|s id s' rep E|s id s' rep E|s i answer s' E].
  - apply submit_cases in E as (_ & _ & [(req' & r0 & _ & Hnew & _ & _ & _ & _ & -> & _)|(_ & -> & _)]); [|eauto with a2a].
    rewrite lookup_insert_ne by congruence. eauto with a2a.
  - apply status_frame in E as (-> & _). eauto with a2a.
  - apply result_frame in E as (-> & _). eauto with a2a.
  - apply goroutine_cases in E as (_ & _ & _ & g & r0 & now & _ & Hr0 & Hst & Hg); [|done].
    destruct (decide (k = gid g)) as [-> |Hne].
    + rewrite Hr0 in Hk. injection Hk as ->. destruct g; destruct Hg as [_ ->]; rewrite lookup_insert_eq.
      * eexists. split; [done|]. by apply AdvanceStart.
      * eexists. split; [done|]. destruct (resolution_fields (im_handler s) answer now r). by apply AdvanceResolve.
    + exists r. split; [|constructor]. destruct g; destruct Hg as [_ ->]; by rewrite lookup_insert_ne.
Qed.
End steps.

Lemma advance_identity r r' : advance r r' -> identity r' = identity r.
Proof. by inversion 1. Qed.

Lemma advance_terminal r r' : isTerminal (ac_Status r) = true -> advance r r' -> r' = r.
Proof. intros Ht. inversion 1 as [|?? E|?? E]; subst; [done|by rewrite E in Ht..]. Qed.

(** C15: a task of the server is resolved once. Through any calls of clients and steps
    of the goroutines, a task that was accepted stays; its record moves only from submitted
    to running to succeeded or failed, keeps its identity, and never changes again once it
    is resolved. *)
Theorem remote_task_resolved_once {quote : QuoteText} (clock : nat -> Time) (handler timeline : bool)
    (s s' : InMemoryServer) (k : string) (r : A2ATaskRecord) :
  rtc (server_step clock) (NewInMemoryServer handler timeline) s -> rtc (server_step clock) s s' ->
  im_tasks s !! k = Some r ->
  exists r', im_tasks s' !! k = Some r' /\ rtc advance r r' /\ identity r' = identity r
             /\ (isTerminal (ac_Status r) = true -> r' = r).
Proof.
  intros H0 Hs. assert (Hinv : server_inv s) by (eapply steps_inv; [done | apply new_server_inv]). clear H0.
  revert r. induction Hs as [s|s s1 s' Hstep Hs IH]; intros r Hk; [exists r; by split_and!|].
  destruct (step_advances clock s s1 k r Hstep Hinv Hk) as (r1 & H1 & Hadv).
  destruct (IH (step_inv clock s s1 Hstep Hinv) r1 H1) as (r' & H' & Hrtc & Hid & Hterm). exists r'.
  split_and!; [done | by eapply rtc_l | by rewrite Hid, (advance_identity _ _ Hadv)|].
  intros Ht. pose proof (advance_terminal _ _ Ht Hadv) as ->. by apply Hterm.
Qed.

(** A server that was given one task, which its handler then answers. *)
Definition demoRequest : A2ATaskRequest :=
  mkA2ATaskRequest " t1 " "wf" "" "" "a-1" "agent" "peer" "run" [] ∅ "sse" false "" "v1" "v1" "compatible".

Definition demoTime (n : nat) : Time := 63844808706 * Second + Z.of_nat n.

Definition demoAccepted : InMemoryServer :=
  match ServerSubmit (quote := plain_quote) demoTime (NewInMemoryServer true true) demoRequest with
  | Some (s, _) => s
  | None => NewInMemoryServer true true
  end.

Definition demoResult : any_map := <["answer" := AnyInt 42]> ∅.

Definition executed (s : InMemoryServer) (answer : result GoError any_map) : InMemoryServer :=
  default s (executeStep demoTime s 0 answer).

Definition demoStarted : InMemoryServer := executed demoAccepted (Ok ∅).
Definition demoResolved : InMemoryServer := executed demoStarted (Ok demoResult).

Lemma demo_starts : executeStep demoTime demoAccepted 0 (Ok ∅) = Some demoStarted.
Proof. vm_compute. reflexivity. Qed.

Lemma demo_resolves : executeStep demoTime demoStarted 0 (Ok demoResult) = Some demoResolved.
Proof. vm_compute. reflexivity. Qed.

Lemma demoAccepted_reached :
  rtc (server_step (quote := plain_quote) demoTime) (NewInMemoryServer true true) demoAccepted.
Proof. apply rtc_once. eapply (@StepSubmit plain_quote _ _ demoRequest). vm_compute. reflexivity. Qed.

Lemma demoResolved_reached : rtc (server_step (quote := plain_quote) demoTime) demoAccepted demoResolved.
Proof.
  eapply rtc_l; [exact (StepExecute _ _ 0%nat (Ok ∅) _ demo_starts)|].
  exact (rtc_once _ _ (StepExecute _ _ 0%nat (Ok demoResult) _ demo_resolves)).
Qed.

Lemma remote_task_resolved_once_witness :
  exists r', im_tasks demoResolved !! "t1" = Some r' /\ ac_Status r' = StatusSucceeded /\ ac_Result r' = demoResult
    /\ forall s', rtc (server_step (quote := plain_quote) demoTime) demoResolved s' -> im_tasks s' !! "t1" = Some r'.
Proof.
  destruct (im_tasks demoResolved !! "t1") as [r'|] eqn:E; [|vm_compute in E; discriminate E].
  exists r'. split_and!; [done | | |].
  1-2: vm_compute in E; injection E as <-; vm_compute; reflexivity.
  intros s' Hs. destruct (remote_task_resolved_once (quote := plain_quote) demoTime true true demoResolved s' "t1" r')
    as (r2 & H2 & _ & _ & Hterm); [etransitivity; [apply demoAccepted_reached | apply demoResolved_reached] | done | done |].
  rewrite Hterm in H2; [done|]. vm_compute in E. injection E as <-. vm_compute. reflexivity.
Defined.

(** ** Every accepted task is resolved *)

(** A step of some goroutine, whatever the handler answers. *)
Definition goroutine_step (clock : nat -> Time) (s s' : InMemoryServer) : Prop :=
  exists i answer, executeStep clock s i answer = Some s'.

(** The steps the goroutines have before them. *)
Definition steps_left (g : goroutine) : nat := match g with Starting _ => 2 | Handling _ => 1 end.
Definition work (s : InMemoryServer) : nat := sum_list_with steps_left (im_running s).

Lemma sum_list_insert {A} (f : A -> nat) l i x y :
  l !! i = Some x -> (sum_list_with f (<[i := y]> l) + f x = sum_list_with f l + f y)%nat.
Proof.
  revert i. induction l as [|z l IH]; intros [|i]; cbn; [done..| |].
  - intros [= ->]. lia.
  - intros Hi. rewrite <-!Nat.add_assoc. f_equal. exact (IH i Hi).
Qed.

Lemma sum_list_delete {A} (f : A -> nat) l i x :
  l !! i = Some x -> (sum_list_with f (delete i l) + f x = sum_list_with f l)%nat.
Proof.
  revert i. induction l as [|z l IH]; intros [|i]; cbn; [done..| |].
  - intros [= ->]. lia.
  - intros Hi. rewrite <-!Nat.add_assoc. f_equal. exact (IH i Hi).
Qed.

Lemma work_le s : (work s <= 2 * length (im_running s))%nat.
Proof. unfold work. induction (im_running s) as [|[]]; cbn in *; lia. Qed.

Lemma goroutine_step_work clock s s' :
  server_inv s -> goroutine_step clock s s' -> server_inv s' /\ im_mu s' = false /\ (S (work s') = work s)%nat.
Proof.
  intros Hinv (i & answer & E). split; [by eapply execute_inv|].
  apply goroutine_cases in E as (_ & -> & _ & g & r & now & Hi & _ & _ & Hg); [|done]. split; [done|]. unfold work.
  destruct g as [req|req]; destruct Hg as [-> _].
  - pose proof (sum_list_insert steps_left _ _ _ (Handling req) Hi) as E. cbn in E. lia.
  - pose proof (sum_list_delete steps_left _ _ _ Hi) as E. cbn in E. lia.
Qed.

Lemma goroutine_enabled clock s g :
  im_mu s = false -> g ∈ im_running s -> exists s', goroutine_step clock s s'.
Proof.
  intros Hmu (i & Hi)%list_elem_of_lookup_1. unfold goroutine_step, executeStep.
  destruct g; eexists; exists i, (Ok ∅); rewrite Hmu, Hi; reflexivity.
Qed.

Lemma goroutine_steps_work clock n s s' :
  server_inv s -> im_mu s = false -> nsteps (goroutine_step clock) n s s' ->
  server_inv s' /\ im_mu s' = false /\ (n + work s' = work s)%nat.
Proof.
  intros Hinv Hmu Hn. induction Hn as [s|n s s1 s' Hstep _ IH]; [done|].
  apply goroutine_step_work in Hstep as (Hinv1 & Hmu1 & Hw); [|done].
  destruct (IH Hinv1 Hmu1) as (? & ? & ?). split_and!; [done..|lia].
Qed.

(** C27: every accepted task is resolved. On a server whose mutex is free the goroutines
    come to an end after at most two steps for each of them, in whatever order they run and
    whatever the handler answers; and when none can take a step, every task of the server has
    succeeded or failed. *)
Theorem accepted_tasks_are_resolved {quote : QuoteText} (clock : nat -> Time) (handler timeline : bool)
    (s s' : InMemoryServer) (n : nat) :
  rtc (server_step clock) (NewInMemoryServer handler timeline) s -> im_mu s = false ->
  nsteps (goroutine_step clock) n s s' ->
  (n <= 2 * length (im_running s))%nat
  /\ ((forall s'', ~ goroutine_step clock s' s'') ->
      forall k r, im_tasks s' !! k = Some r -> ac_Status r = StatusSucceeded \/ ac_Status r = StatusFailed).
Proof.
  intros H0 Hmu Hn. assert (Hinv : server_inv s) by (eapply steps_inv; [done | apply new_server_inv]).
  destruct (goroutine_steps_work clock n s s' Hinv Hmu Hn) as (Hinv' & Hmu' & Hw).
  pose proof (work_le s). split; [lia|]. intros Hstuck k r Hk.
  destruct (si_status s' Hinv' k r Hk) as [?|[?|(g & Hg & _)]]; [auto..|].
  destruct (goroutine_enabled clock s' g Hmu' Hg) as (s'' & Hs''). by destruct (Hstuck s'').
Qed.

Lemma idle_stuck clock s s' : im_running s = [] -> ~ goroutine_step clock s s'.
Proof. intros Hr (i & answer & E). unfold executeStep in E. rewrite Hr in E. by destruct (im_mu s). Qed.

Lemma demoResolved_idle : im_running demoResolved = [].
Proof. vm_compute. reflexivity. Qed.

Lemma accepted_tasks_are_resolved_witness :
  (length (im_running demoAccepted) = 1)%nat
  /\ forall k r, im_tasks demoResolved !! k = Some r -> ac_Status r = StatusSucceeded \/ ac_Status r = StatusFailed.
Proof.
  split; [reflexivity|].
  apply (accepted_tasks_are_resolved (quote := plain_quote) demoTime true true demoAccepted demoResolved 2).
  - exact demoAccepted_reached.
  - reflexivity.
  - eapply nsteps_l; [exact (ex_intro _ 0%nat (ex_intro _ (Ok ∅) demo_starts))|].
    eapply nsteps_l; [exact (ex_intro _ 0%nat (ex_intro _ (Ok demoResult) demo_resolves)) | apply nsteps_O].
  - intros s''. exact (idle_stuck demoTime demoResolved s'' demoResolved_idle).
Defined.

(** ** A refused submission blocks the server *)

Lemma locked_server_stuck {quote : QuoteText} clock s s' : im_mu s = true -> ~ server_step clock s s'.
Proof.
  intros Hmu Hstep. revert Hmu. destruct Hstep as [s1 req s2 rep E|s1 id s2 rep E|s1 id s2 rep E|s1 i answer s2 E];
    intros Hmu; revert E; unfold ServerSubmit, ServerStatus, ServerResult, executeStep; by rewrite Hmu.
Qed.

(** C28: a submission without an agent or a peer blocks the server for good. It is refused
    with an error, but the mutex stays locked: from then on no submission, status or result
    call returns, and no goroutine takes another step, so that the tasks accepted before are
    never resolved. *)
Theorem refused_submit_blocks_server {quote : QuoteText} (clock : nat -> Time) (s : InMemoryServer)
    (req : A2ATaskRequest) :
  im_mu s = false -> TrimSpace (aq_AgentID req) = "" \/ TrimSpace (aq_PeerID req) = "" ->
  exists s' e, ServerSubmit clock s req = Some (s', (zeroA2ARecord, Some (ErrorString e)))
    /\ im_tasks s' = im_tasks s
    /\ forall s'', rtc (server_step clock) s' s'' -> s'' = s'.
Proof.
  intros Hmu Hid. unfold ServerSubmit. rewrite Hmu.
  pose proof (identified_spec (s <| im_mu := true |>) req) as Hs. cbn in Hs.
  destruct (identified _ _) as [s1 req1]. cbn in Hs. destruct Hs as (Ht & _ & _ & Hm & _ & Ha & Hp).
  assert (Hstuck : forall s'', rtc (server_step clock) s1 s'' -> s'' = s1).
  { intros s''. inversion 1 as [|? s2 ? Hstep]; [done|]. by apply locked_server_stuck in Hstep. }
  rewrite Ha, Hp. destruct (str_eqb_spec (TrimSpace (aq_AgentID req)) ""); [by eexists s1, _|].
  destruct Hid as [?|E]; [done|]. rewrite E. by eexists s1, _.
Qed.

Lemma refused_submit_blocks_server_witness :
  exists s', (exists rep, ServerSubmit (quote := plain_quote) demoTime demoAccepted
                            (demoRequest <| aq_TaskID := "t2" |> <| aq_AgentID := " " |>) = Some (s', rep))
    /\ ServerStatus (quote := plain_quote) demoTime s' "t1" = None
    /\ forall s'', rtc (server_step (quote := plain_quote) demoTime) s' s'' -> s'' = s'.
Proof.
  destruct (refused_submit_blocks_server (quote := plain_quote) demoTime demoAccepted
              (demoRequest <| aq_TaskID := "t2" |> <| aq_AgentID := " " |>)) as (s' & e & E & _ & H).
  - reflexivity.
  - left. reflexivity.
  - exists s'. split_and!; [eauto | | done]. vm_compute in E. injection E as <- _. reflexivity.
Defined.
