(* ===== verification/A2ARoutingProps.v ===== *)
(** * Agent to agent: theorems about routing and negotiation

    The router picks a best peer, and the same one whatever the order of the cards and the
    sorting algorithm; versions and delivery modes are negotiated as announced. *)
From Stdlib Require Import Ascii.
From S2P Require Import Prelude GoStrings GoNum GoText Paging CoreTypes SchedulerTypes A2ATypes A2ARouting.

Local Open Scope bool_scope.
Local Open Scope string_scope.
Local Open Scope list_scope.
Local Open Scope Z_scope.

(** ** Comparison functions *)

(** What [sort.Slice] asks of a comparison. *)
Class StrictWeak {A : Type} (less : A -> A -> bool) : Prop := {
  sw_asym : forall a b, less a b = true -> less b a = false;
  sw_trans : forall a b c, less b a = false -> less c b = false -> less c a = false
}.

(** [if k(a) == k(b) { return next(a, b) }; return lt(a, b)]. *)
Definition lex {A : Type} (eqk lt next : A -> A -> bool) (a b : A) : bool := if eqk a b then next a b else lt a b.

Lemma lex_weak {A : Type} (eqk lt next : A -> A -> bool) :
  (forall a b, eqk a b = true <-> lt a b = false /\ lt b a = false) ->
  StrictWeak lt -> StrictWeak next -> StrictWeak (lex eqk lt next).
Proof.
  intros Heq [La Lt] [Na Nt]. unfold lex. split.
  - intros a b. destruct (eqk a b) eqn:E, (eqk b a) eqn:E'; auto; exfalso.
    + apply Heq in E. assert (eqk b a = true) by (apply Heq; tauto). congruence.
    + apply Heq in E'. assert (eqk a b = true) by (apply Heq; tauto). congruence.
  - intros a b c H1 H2.
    assert (Hle : forall x y, (if eqk y x then next y x else lt y x) = false -> lt y x = false).
    { intros x y. destruct (eqk y x) eqn:E; [|done]. apply Heq in E. tauto. }
    pose proof (Lt a b c (Hle a b H1) (Hle b c H2)) as Hca. destruct (eqk c a) eqn:E; [|done].
    apply Heq in E as [_ Hac].
    assert (Hba : eqk b a = true) by (apply Heq; split; [by apply Hle | eapply Lt; [exact (Hle b c H2) | exact Hac]]).
    assert (Hcb : eqk c b = true) by (apply Heq; split; [by apply Hle | eapply Lt; [exact Hac | exact (Hle a b H1)]]).
    rewrite Hba in H1. rewrite Hcb in H2. by eapply Nt.
Qed.

Lemma str_ltb_false a b : str_ltb b a = false <-> String.le a b.
Proof.
  unfold str_ltb. rewrite andb_false_iff, bool_decide_eq_false, negb_false_iff, str_eqb_eq.
  split; [|].
  - intros [H| ->]; [|done]. destruct (total String.le a b); [done|contradiction].
  - intros H. destruct (decide (b = a)) as [-> |Hne]; [by right|]. left. intros H'.
    apply Hne. by apply (anti_symm String.le).
Qed.

#[export] Instance text_weak {A} (k : A -> string) : StrictWeak (fun a b => str_ltb (k a) (k b)).
Proof.
  split; [intros; by apply str_ltb_asym|]. intros a b c. rewrite !str_ltb_false. intros H1 H2. by etransitivity.
Qed.

#[export] Instance descending_weak {A} (k : A -> Z) : StrictWeak (fun a b => k b <? k a).
Proof. split; [intros a b; lia | intros a b c; lia]. Qed.

Lemma text_eq {A} (k : A -> string) a b :
  (k a =s? k b) = true <-> str_ltb (k a) (k b) = false /\ str_ltb (k b) (k a) = false.
Proof.
  rewrite str_eqb_eq, !str_ltb_false. split; [by intros ->|]. intros [? ?]. by apply (anti_symm String.le).
Qed.

Lemma number_eq {A} (k : A -> Z) a b : (k a =? k b) = true <-> (k b <? k a) = false /\ (k a <? k b) = false.
Proof. lia. Qed.

#[export] Instance candidateLess_weak : StrictWeak candidateLess.
Proof.
  apply (lex_weak (fun a b => cd_Priority a =? cd_Priority b) (fun a b => cd_Priority b <? cd_Priority a)
           (lex (fun a b => cd_PeerID a =s? cd_PeerID b) (fun a b => str_ltb (cd_PeerID a) (cd_PeerID b))
              (fun a b => str_ltb (cd_AgentID a) (cd_AgentID b)))).
  - intros. apply number_eq.
  - apply descending_weak.
  - apply lex_weak; [intros; apply text_eq | apply text_weak..].
Qed.

#[export] Instance scoredLess_weak : StrictWeak scoredLess.
Proof.
  apply (lex_weak (fun a b : AgentCard * Z => a.2 =? b.2) (fun a b => b.2 <? a.2)
          (lex (fun a b => cd_PeerID a.1 =s? cd_PeerID b.1) (fun a b => str_ltb (cd_PeerID a.1) (cd_PeerID b.1))
            (lex (fun a b => cd_Priority a.1 =? cd_Priority b.1) (fun a b => cd_Priority b.1 <? cd_Priority a.1)
              (fun a b => str_ltb (cd_AgentID a.1) (cd_AgentID b.1))))).
  - intros. apply (number_eq (fun p : AgentCard * Z => p.2)).
  - apply (descending_weak (fun p : AgentCard * Z => p.2)).
  - apply lex_weak; [intros; apply (text_eq (fun p : AgentCard * Z => cd_PeerID p.1)) | apply (text_weak (fun p => cd_PeerID p.1))|].
    apply lex_weak; [intros; apply (number_eq (fun p : AgentCard * Z => cd_Priority p.1))
                    | apply (descending_weak (fun p => cd_Priority p.1)) | apply (text_weak (fun p => cd_AgentID p.1))].
Qed.

(** ** Sorted lists *)

Lemma weak_sorted {A} (less : A -> A -> bool) `{!StrictWeak less} {sorting : SortSlice} l :
  StronglySorted (fun a b => less b a = false) (sort_slice less l).
Proof.
  apply Sorted_StronglySorted; [intros a b c; apply sw_trans|].
  apply sort_slice_sorted; [apply sw_asym | apply sw_trans].
Qed.

(** Where no two items compare equal, the result of a sort is determined. *)
Lemma sorts_agree {A} (less : A -> A -> bool) `{!StrictWeak less} (sorting sorting' : SortSlice) l l' :
  l ≡ₚ l' -> (forall a b, a ∈ l -> b ∈ l -> less a b = false -> less b a = false -> a = b) ->
  @sort_slice sorting A less l = @sort_slice sorting' A less l'.
Proof.
  intros Hp Hd. eapply (StronglySorted_unique_strong (fun a b => less b a = false)); [|by apply weak_sorted..|].
  - intros a b Ha Hb. rewrite (@sort_slice_perm sorting) in Ha. rewrite (@sort_slice_perm sorting'), <-Hp in Hb. auto.
  - by rewrite (@sort_slice_perm sorting), (@sort_slice_perm sorting').
Qed.

(** ** Scores *)

Lemma scoreLoop_spec have requireAll score required :
  0 <= score ->
  scoreLoop have requireAll score required
  = let n := score + Z.of_nat (length (filter (fun r => r ∈ have) required)) in
    if requireAll then if decide (Forall (fun r => r ∈ have) required) then n else -1
    else if n =? 0 then -1 else n.
Proof.
  revert score. induction required as [|r required IH]; intros score Hs; cbn [scoreLoop]; cbn zeta.
  - rewrite filter_nil. cbn [length]. rewrite Z.add_0_r. destruct requireAll; cbn; [|done]. by rewrite decide_True by constructor.
  - rewrite filter_cons. destruct (decide (r ∈ have)) as [Hr|Hr].
    + rewrite bool_decide_eq_true_2 by done. rewrite IH by lia. cbn [length]; cbn zeta.
      replace (score + 1 + Z.of_nat (length (filter (fun r => r ∈ have) required)))
        with (score + Z.of_nat (S (length (filter (fun r => r ∈ have) required)))) by lia.
      destruct requireAll; [|done]. rewrite (decide_ext (Forall (fun r => r ∈ have) (r :: required)) (Forall (fun r => r ∈ have) required)); [done|].
      rewrite Forall_cons. tauto.
    + rewrite bool_decide_eq_false_2 by done. destruct requireAll; [|by rewrite IH].
      rewrite decide_False; [done|]. rewrite Forall_cons. tauto.
Qed.

Lemma capabilityScore_spec have required requireAll :
  let n := Z.of_nat (length (filter (fun r => r ∈ have) required)) in
  capabilityScore have required requireAll
  = match required with
    | [] => 0
    | _ => if requireAll then if decide (Forall (fun r => r ∈ have) required) then n else -1
           else if n =? 0 then -1 else n
    end.
Proof.
  destruct required as [|r required]; [done|]. unfold capabilityScore. by rewrite scoreLoop_spec.
Qed.

(** A peer qualifies when it offers what the router asks for. *)
Definition qualifies (requireAll : bool) (required have : list string) : Prop :=
  if requireAll then forall r, r ∈ required -> r ∈ have
  else required = [] \/ exists r, r ∈ required /\ r ∈ have.

Lemma score_qualifies have required requireAll :
  0 <= capabilityScore have required requireAll <-> qualifies requireAll required have.
Proof.
  rewrite capabilityScore_spec. unfold qualifies. destruct required as [|r0 required0].
  { destruct requireAll; [|split; [auto | lia]]. split; [|lia]. intros _ r Hr. by apply elem_of_nil in Hr. }
  set (required := r0 :: required0). destruct requireAll.
  - case_decide as Hall; rewrite Forall_forall in Hall; split; try lia; [by intros _|]. intros H. by destruct Hall.
  - destruct (filter (fun r => r ∈ have) required) as [|r l] eqn:E; cbn [length]; case_match; try discriminate.
    + split; [lia|]. intros [?|(r & H1 & H2)]; [done|].
      assert (r ∈ filter (fun r => r ∈ have) required) as Hr by (by apply list_elem_of_filter). rewrite E in Hr.
      by apply elem_of_nil in Hr.
    + split; [|lia]. intros _. right. exists r.
      assert (r ∈ filter (fun r => r ∈ have) required) as [? ?]%list_elem_of_filter by (rewrite E; by left). done.
Qed.

(** ** The choice *)

(** How good a candidate is for a request. *)
Definition scored (r : DeterministicRouter) (required : list string) (card : AgentCard) : AgentCard * Z :=
  (card, capabilityScore (cd_Capabilities card) (normalizeCapabilities required) (ro_RequireAll r)).

Section choice.
Context {sorting : SortSlice}.

Lemma elem_of_scoreCards r required cards p :
  p ∈ scoreCards r (normalizeCapabilities required) cards
  <-> exists card, card ∈ cards /\ p = scored r required card
      /\ qualifies (ro_RequireAll r) (normalizeCapabilities required) (cd_Capabilities card).
Proof.
  unfold scoreCards. rewrite list_elem_of_In, filter_In, <-list_elem_of_In, list_elem_of_fmap, negb_true_iff, Z.ltb_ge.
  split.
  - intros [(card & -> & Hc) Hs]. exists card. split_and!; [done..|]. by apply score_qualifies.
  - intros (card & Hc & -> & Hq). split; [by exists card|]. by apply score_qualifies.
Qed.

(** The router picks a best peer. When it answers with a card, that card is one of the
    candidates it considers, it offers the required capabilities (all of them, or some of them
    as the router is configured), and no qualifying candidate has a higher score or wins the
    tie by peer, priority and agent. It fails exactly when there is no card with an identity,
    or when no candidate qualifies. *)
Theorem router_selects_best_peer (r : DeterministicRouter) (cards : list AgentCard) (required : list string) :
  let fits card := qualifies (ro_RequireAll r) (normalizeCapabilities required) (cd_Capabilities card) in
  match SelectPeer r cards required with
  | Ok best =>
      best ∈ candidates r cards /\ fits best
      /\ forall card, card ∈ candidates r cards -> fits card ->
           scoredLess (scored r required card) (scored r required best) = false
  | Err e =>
      e = errNoCards /\ availableCards cards = []
      \/ e = errNoPeer /\ availableCards cards <> [] /\ forall card, card ∈ candidates r cards -> ~ fits card
  end.
Proof.
  intros fits. unfold SelectPeer. destruct (availableCards cards) as [|c0 l0] eqn:Ha; [by left|].
  pose proof (elem_of_scoreCards r required (candidates r cards)) as Hin.
  pose proof (weak_sorted scoredLess (scoreCards r (normalizeCapabilities required) (candidates r cards))) as Hs.
  pose proof (sort_slice_perm _ scoredLess (scoreCards r (normalizeCapabilities required) (candidates r cards))) as Hp.
  destruct (sort_slice scoredLess _) as [|best l].
  - right. split_and!; [done..|]. intros card Hc Hf. apply Permutation_nil_l in Hp. specialize (Hin (scored r required card)).
    rewrite <-Hp in Hin. assert (scored r required card ∈ []) as []%elem_of_nil. apply Hin. by exists card.
  - assert (best ∈ scoreCards r (normalizeCapabilities required) (candidates r cards)) as Hb by (rewrite <-Hp; by left).
    apply Hin in Hb as (card & Hc & -> & Hf). cbn. split_and!; [done..|]. intros card' Hc' Hf'.
    assert (scored r required card' ∈ scored r required card :: l) as [-> |Hl]%elem_of_cons
      by (rewrite Hp; apply Hin; by exists card').
    + destruct (scoredLess (scored r required card) (scored r required card)) eqn:E; [|done].
      by rewrite (sw_asym _ _ E) in E.
    + apply StronglySorted_inv in Hs as [_ Hs]. rewrite Forall_forall in Hs. by apply Hs.
Qed.
End choice.

(** The router without a limit on candidates picks the same peer from the same cards,
    in whatever order they are listed. *)
Definition distinctPeers (cards : list AgentCard) : Prop :=
  NoDup ((fun c => (cd_PeerID c, cd_AgentID c)) <$> availableCards cards).

Lemma same_identity l a b :
  NoDup ((fun c => (cd_PeerID c, cd_AgentID c)) <$> l) -> a ∈ l -> b ∈ l ->
  cd_PeerID a = cd_PeerID b -> cd_AgentID a = cd_AgentID b -> a = b.
Proof.
  intros Hnd (i & Hi)%list_elem_of_lookup_1 (j & Hj)%list_elem_of_lookup_1 Hp Ha.
  assert (i = j) as ->; [|congruence]. eapply NoDup_lookup; [exact Hnd | |].
  - by rewrite list_lookup_fmap, Hi.
  - rewrite list_lookup_fmap, Hj. cbn. by rewrite Hp, Ha.
Qed.

Lemma candidateLess_total a b :
  candidateLess a b = false -> candidateLess b a = false -> cd_PeerID a = cd_PeerID b /\ cd_AgentID a = cd_AgentID b.
Proof.
  unfold candidateLess. rewrite (Z.eqb_sym (cd_Priority b)). destruct (Z.eqb_spec (cd_Priority a) (cd_Priority b)); [|lia].
  destruct (str_eqb_spec (cd_PeerID a) (cd_PeerID b)) as [E|Hne].
  - rewrite E, str_eqb_refl, !str_ltb_false. intros. split; [done|]. by apply (anti_symm String.le).
  - rewrite (proj2 (str_eqb_neq _ _)) by congruence. rewrite !str_ltb_false. intros. destruct Hne.
    by apply (anti_symm String.le).
Qed.

Lemma scoredLess_total a b :
  scoredLess a b = false -> scoredLess b a = false -> cd_PeerID a.1 = cd_PeerID b.1 /\ cd_AgentID a.1 = cd_AgentID b.1.
Proof.
  unfold scoredLess. rewrite (Z.eqb_sym b.2). destruct (Z.eqb_spec a.2 b.2); [|lia].
  destruct (str_eqb_spec (cd_PeerID a.1) (cd_PeerID b.1)) as [E|Hne].
  - rewrite E, str_eqb_refl. rewrite (Z.eqb_sym (cd_Priority b.1)).
    destruct (Z.eqb_spec (cd_Priority a.1) (cd_Priority b.1)); [|lia].
    rewrite !str_ltb_false. intros. split; [done|]. by apply (anti_symm String.le).
  - rewrite (proj2 (str_eqb_neq _ _)) by congruence. rewrite !str_ltb_false. intros. destruct Hne.
    by apply (anti_symm String.le).
Qed.

Lemma availableCards_perm cards cards' : cards ≡ₚ cards' -> availableCards cards ≡ₚ availableCards cards'.
Proof.
  intros Hp. unfold availableCards. induction Hp as [|c l l' _ IH|c1 c2 l|]; cbn.
  - done.
  - case_match; [by rewrite IH | done].
  - repeat case_match; [apply Permutation_swap | done..].
  - by etransitivity.
Qed.

(** The router is deterministic. Where the cards with an identity differ in peer or
    agent, the choice depends neither on the order in which the cards are listed nor on the
    sorting algorithm, although [sort.Slice] may order equal items in any way. *)
Theorem router_is_deterministic (sorting sorting' : SortSlice) (r : DeterministicRouter)
    (cards cards' : list AgentCard) (required : list string) :
  cards ≡ₚ cards' -> distinctPeers cards ->
  @SelectPeer sorting r cards required = @SelectPeer sorting' r cards' required.
Proof.
  intros Hp Hd. pose proof (availableCards_perm cards cards' Hp) as Ha.
  assert (Hc : @candidates sorting r cards = @candidates sorting' r cards').
  { unfold candidates. rewrite <-(Permutation_length Hp). f_equal. apply sorts_agree; [apply _ | done|].
    intros a b Hina Hinb H1 H2. destruct (candidateLess_total a b H1 H2). by eapply same_identity. }
  unfold SelectPeer. rewrite <-Hc.
  rewrite (sorts_agree scoredLess sorting sorting' (scoreCards r (normalizeCapabilities required) (@candidates sorting r cards))
             (scoreCards r (normalizeCapabilities required) (@candidates sorting r cards))); [|done|].
  - destruct (availableCards cards) as [|c0 l0] eqn:E; destruct (availableCards cards') as [|c1 l1] eqn:E'; try done.
    + by apply Permutation_nil_l in Ha.
    + by apply Permutation_nil_r in Ha.
  - intros a b (ca & Hina & -> & _)%elem_of_scoreCards (cb & Hinb & -> & _)%elem_of_scoreCards H1 H2.
    destruct (scoredLess_total _ _ H1 H2) as [E1 E2]. cbn in E1, E2.
    assert (Hsub : forall c, c ∈ @candidates sorting r cards -> c ∈ availableCards cards).
    { intros c Hin. unfold candidates in Hin. eapply subseteq_take in Hin. by rewrite (@sort_slice_perm sorting) in Hin. }
    by rewrite (same_identity (availableCards cards) ca cb Hd (Hsub _ Hina) (Hsub _ Hinb) E1 E2).
Qed.

(** A sort that turns the equal items around. *)
Program Definition reversed_sort : SortSlice := {| sort_slice A less l := SliceStable less (reverse l) |}.
Next Obligation. intros. cbn. rewrite SliceStable_perm. apply reverse_Permutation. Qed.
Next Obligation. intros. by apply SliceStable_sorted. Qed.

Lemma router_is_deterministic_witness :
  @SelectPeer stable_sort (mkDeterministicRouter 1 false) demoCards ["search"]
  = @SelectPeer reversed_sort (mkDeterministicRouter 1 false) (reverse demoCards) ["search"]
  /\ peerOf (@SelectPeer stable_sort (mkDeterministicRouter 1 false) demoCards ["search"]) = "p1".
Proof.
  split; [|vm_compute; reflexivity].
  apply (router_is_deterministic stable_sort reversed_sort).
  - by rewrite reverse_Permutation.
  - unfold distinctPeers. apply (bool_decide_unpack _). vm_compute. exact I.
Defined.

(** ** Negotiation *)

Lemma distinct_spec seen l x : x ∈ distinct seen l <-> x ∈ l /\ x <> "" /\ x ∉ seen.
Proof.
  revert seen. induction l as [|y l IH]; intros seen; cbn.
  { rewrite !elem_of_nil. tauto. }
  destruct (str_eqb_spec y ""); cbn; [subst; rewrite IH, elem_of_cons; naive_solver|].
  destruct (bool_decide_reflect (y ∈ seen)).
  - rewrite IH, elem_of_cons. naive_solver.
  - rewrite !elem_of_cons, IH, not_elem_of_union, not_elem_of_singleton. destruct (decide (x = y)); naive_solver.
Qed.

(** The delivery modes a peer supports: callbacks when it names no known mode. *)
Definition supports (modes : list string) (mode : string) : Prop :=
  mode ∈ normalizeDeliveryMode <$> modes /\ mode <> ""
  \/ mode = DeliveryModeCallback /\ forall m, m ∈ modes -> normalizeDeliveryMode m = "".

Lemma normalizeDeliveryMode_cases m :
  normalizeDeliveryMode m = "" \/ normalizeDeliveryMode m = DeliveryModeCallback \/ normalizeDeliveryMode m = DeliveryModeSSE.
Proof.
  unfold normalizeDeliveryMode. destruct (str_eqb_spec (lower_trim m) DeliveryModeCallback); [auto|].
  destruct (str_eqb_spec (lower_trim m) DeliveryModeSSE); auto.
Qed.

Definition peerModesOf (modes : list string) : list string :=
  match normalizeDeliveryModes modes with [] => [DeliveryModeCallback] | l => l end.

Lemma elem_of_peerModes modes mode :
  mode ∈ peerModesOf modes <-> supports modes mode.
Proof.
  unfold peerModesOf, supports. assert (Hin : forall x, x ∈ normalizeDeliveryModes modes
    <-> x ∈ normalizeDeliveryMode <$> modes /\ x <> "").
  { intros x. unfold normalizeDeliveryModes. rewrite elem_of_sort_strings, distinct_spec.
    pose proof (not_elem_of_empty (C := gset string) x). tauto. }
  destruct (normalizeDeliveryModes modes) as [|y l] eqn:E.
  - rewrite list_elem_of_singleton. split; [|intros [H|[? _]]; [|done]].
    + intros ->. right. split; [done|]. intros m Hm. destruct (decide (normalizeDeliveryMode m = "")) as [|Hne]; [done|].
      pose proof (proj2 (Hin (normalizeDeliveryMode m)) (conj (list_elem_of_fmap_2 _ _ _ Hm) Hne)) as []%elem_of_nil.
    + pose proof (proj2 (Hin mode) H) as []%elem_of_nil.
  - rewrite Hin. split; [by left|]. intros [?|[-> Hnone]]; [done|].
    assert (y ∈ y :: l) as [(m & -> & Hm)%list_elem_of_fmap Hy]%Hin by (by left). by rewrite Hnone in Hy.
Qed.

Lemma contains_known modes mode :
  mode = DeliveryModeCallback \/ mode = DeliveryModeSSE ->
  contains (peerModesOf modes) mode = true <-> supports modes mode.
Proof.
  intros Hm. rewrite <-elem_of_peerModes. unfold contains. rewrite existsb_exists.
  assert (Hfold : forall x, x ∈ peerModesOf modes -> EqualFold (TrimSpace x) (TrimSpace mode) = true <-> x = mode).
  { intros x Hx. apply elem_of_peerModes in Hx as [[(m & -> & _)%list_elem_of_fmap Hne]|[-> _]].
    - destruct (normalizeDeliveryMode_cases m) as [?|[-> | ->]]; [done|..]; destruct Hm as [-> | ->]; by split.
    - destruct Hm as [-> | ->]; by split. }
  split.
  - intros (x & Hx%list_elem_of_In & E). apply Hfold in E; [by subst | done].
  - intros Hx. exists mode. split; [by apply list_elem_of_In | by apply Hfold].
Qed.

(** The first known mode of a list, callbacks if there is none. *)
Definition firstKnown (modes : list string) : string :=
  match filter (fun m => m <> "") (normalizeDeliveryMode <$> modes) with
  | m :: _ => m
  | [] => DeliveryModeCallback
  end.

Lemma firstKnown_cons m modes :
  firstKnown (m :: modes)
  = if normalizeDeliveryMode m =s? "" then firstKnown modes else normalizeDeliveryMode m.
Proof.
  unfold firstKnown. rewrite fmap_cons, filter_cons. destruct (str_eqb_spec (normalizeDeliveryMode m) "") as [E|E].
  - rewrite decide_False by tauto. done.
  - by rewrite decide_True.
Qed.

Lemma firstKnown_known modes : firstKnown modes = DeliveryModeCallback \/ firstKnown modes = DeliveryModeSSE.
Proof.
  induction modes as [|m modes IH]; [by left|]. rewrite firstKnown_cons.
  destruct (str_eqb_spec (normalizeDeliveryMode m) "") as [_|E]; [done|]. destruct (normalizeDeliveryMode_cases m) as [?|[?|?]]; [done|by left|by right].
Qed.

(** The delivery mode is negotiated as announced. The mode asked for, or else the one
    of the policy, is used when the peer supports it; otherwise the fallback of the policy,
    marked as such, when the peer supports that; otherwise the request fails as a protocol
    error that is not retried. So a request is only ever sent in a mode its peer supports. *)
Theorem delivery_mode_is_supported {quote : QuoteText} (policy : DeliveryPolicy) (requested : string)
    (modes : list string) :
  let preferred := firstKnown [requested; dp_Mode policy] in
  let fallback := firstKnown [dp_FallbackMode policy] in
  match negotiateDeliveryMode policy requested modes with
  | (mode, used, reason, None) =>
      supports modes mode
      /\ (used = false /\ mode = preferred /\ reason = ""
          \/ used = true /\ mode = fallback /\ reason = DeliveryErrorUnsupported /\ ~ supports modes preferred)
  | (_, used, _, Some err) =>
      ~ supports modes preferred /\ ~ supports modes fallback /\ used = false
      /\ ClassifyError err = (ErrMCP, ErrorLayerProtocol, DeliveryErrorUnsupported)
  end.
Proof.
  intros preferred fallback. pose proof (firstKnown_known [requested; dp_Mode policy]) as Hp.
  pose proof (firstKnown_known [dp_FallbackMode policy]) as Hf.
  pose proof (contains_known modes preferred Hp) as Cp. pose proof (contains_known modes fallback Hf) as Cf.
  assert (Ep : preferred = if (if normalizeDeliveryMode requested =s? "" then normalizeDeliveryMode (dp_Mode policy)
                               else normalizeDeliveryMode requested) =s? "" then DeliveryModeCallback
                           else if normalizeDeliveryMode requested =s? "" then normalizeDeliveryMode (dp_Mode policy)
                                else normalizeDeliveryMode requested).
  { unfold preferred. rewrite !firstKnown_cons. destruct (normalizeDeliveryMode requested =s? "") eqn:E; [done|].
    by rewrite E. }
  assert (Ef : fallback = if normalizeDeliveryMode (dp_FallbackMode policy) =s? "" then DeliveryModeCallback
                          else normalizeDeliveryMode (dp_FallbackMode policy)) by apply firstKnown_cons.
  unfold negotiateDeliveryMode. cbn zeta. rewrite <-Ep, <-Ef. fold (peerModesOf modes).
  destruct (contains (peerModesOf modes) preferred) eqn:E1; [split; [by apply Cp | by left]|].
  assert (~ supports modes preferred) by (intros ?%Cp; congruence).
  destruct (contains (peerModesOf modes) fallback) eqn:E2; [split; [by apply Cf | by right]|].
  assert (~ supports modes fallback) by (intros ?%Cf; congruence). done.
Qed.
