(* ===== verification/A2AClientProps.v ===== *)
(** * Agent to agent: theorems about the client

    A client over the in-memory server: what it submits is accepted under its own
    id, and a wait ends with what the server holds, as soon as the server has resolved
    the task. *)
From S2P Require Import Prelude GoStrings GoNum GoText CoreTypes SchedulerTypes Scheduler.
From S2P Require Import A2ATypes A2ARouting A2AServer A2AClient A2AServerProps.

Local Open Scope bool_scope.
Local Open Scope string_scope.
Local Open Scope list_scope.
Local Open Scope Z_scope.

(** ** What the timeline of a client leaves alone *)

Section frame.
Context {W : Type} `{A2AServer W} (amb : Ambient W).
Implicit Types (c : Client W).

Definition same_link c c' : Prop :=
  cl_server c' = cl_server c /\ cl_waits c' = cl_waits c /\ cl_pending c' = cl_pending c /\ cl_policy c' = cl_policy c
  /\ cl_asyncDelivered c' = cl_asyncDelivered c /\ cl_cards c' = cl_cards c /\ cl_router c' = cl_router c.

#[local] Instance same_link_po : PreOrder same_link.
Proof. split; [intros c; unfold same_link; by split_and!|]. intros c1 c2 c3 (?&?&?&?&?&?&?) (?&?&?&?&?&?&?). repeat split; congruence. Qed.

Lemma emit_link c r why extras : same_link c (clientEmitWithExtras amb c r why extras).
Proof. unfold clientEmitWithExtras. by case_match. Qed.

Lemma now_link c : same_link c (clientNow amb c).1.
Proof. done. Qed.
End frame.
#[export] Existing Instance same_link_po.

(** ** The in-memory server *)

(** What a resolution is: the fields a caller reads of a resolved task. *)
Definition resolution (r : A2ATaskRecord) :=
  (ac_TaskID r, ac_Status r, ac_Result r, ac_ErrorClass r, ac_A2AErrorLayer r, ac_ErrorCode r, ac_ErrorMessage r).

Section wait.
Context {sorting : SortSlice} {quote : QuoteText} (clock : nat -> Time) (amb : Ambient InMemoryServer).
#[local] Existing Instance InMemoryServer_A2AServer.
#[local] Instance the_server : A2AServer InMemoryServer := InMemoryServer_A2AServer clock.
Implicit Types (c : Client InMemoryServer) (s : InMemoryServer).

(** A server in use: reachable, and its mutex is free between calls. *)
Definition usable s : Prop := server_inv s /\ im_mu s = false.

(** The others: they make calls that leave the mutex free, and the goroutines run; the
    context of the caller is never done. *)
Record friendly : Prop := {
  fr_steps : forall n s, usable s -> rtc (server_step clock) s (am_between amb n s) /\ im_mu (am_between amb n s) = false;
  fr_done : forall n, am_done amb n = None
}.

(** The task [k] is resolved at the latest during wait [N]. *)
Definition resolved_by (N : nat) (k : string) : Prop :=
  forall s, usable s -> is_Some (im_tasks s !! k) ->
    exists r, im_tasks (am_between amb N s) !! k = Some r /\ isTerminal (ac_Status r) = true.

Lemma usable_between n s : friendly -> usable s -> usable (am_between amb n s).
Proof.
  intros Hf Hs. destruct (fr_steps Hf n s Hs) as [Hsteps Hmu]. split; [|done]. eapply steps_inv; [done|apply Hs].
Qed.

Lemma known_between n s k :
  friendly -> usable s -> is_Some (im_tasks s !! k) -> is_Some (im_tasks (am_between amb n s) !! k).
Proof.
  intros Hf Hs. destruct (fr_steps Hf n s Hs) as [Hsteps _]. destruct Hs as [Hinv _].
  induction Hsteps as [s|s s1 s2 Hstep _ IH]; [done|]. intros [r Hr]. apply IH; [by eapply step_inv|].
  destruct (step_advances clock s s1 k r Hstep Hinv Hr) as (r1 & H1 & _). by eexists.
Qed.

(** Reading a known task. *)
Lemma status_known s id r :
  usable s -> im_tasks s !! TrimSpace id = Some r ->
  exists s', ServerStatus clock s id = Some (s', (r, None)) /\ usable s' /\ im_tasks s' = im_tasks s.
Proof.
  intros [Hinv Hmu] Hr. unfold ServerStatus. rewrite Hmu, Hr. eexists. split; [done|].
  rewrite emit_tasks. split; [|done]. split; [|by rewrite emit_mu].
  eapply server_inv_ext; [apply emit_tasks | apply emit_running | done].
Qed.

Lemma result_known s id r :
  usable s -> im_tasks s !! TrimSpace id = Some r -> isTerminal (ac_Status r) = true ->
  exists s', ServerResult clock s id = Some (s', (r, None)) /\ usable s' /\ im_tasks s' = im_tasks s.
Proof.
  intros [Hinv Hmu] Hr Ht. unfold ServerResult. rewrite Hmu, Hr, Ht. eexists. split; [done|].
  rewrite emit_tasks. split; [|done]. split; [|by rewrite emit_mu].
  eapply server_inv_ext; [apply emit_tasks | apply emit_running | done].
Qed.

(** The end of a wait: the resolution is that of the server. *)
Definition returned (k : string) (out : option (Client InMemoryServer * reply)) : Prop :=
  exists c' record r, out = Some (c', (record, None)) /\ usable (cl_server c')
    /\ im_tasks (cl_server c') !! k = Some r /\ isTerminal (ac_Status r) = true /\ resolution record = resolution r.

Lemma finishWait_returns c taskID mode r :
  usable (cl_server c) -> im_tasks (cl_server c) !! TrimSpace taskID = Some r -> isTerminal (ac_Status r) = true ->
  returned (TrimSpace taskID) (finishWait amb c taskID mode r None).
Proof.
  intros Hs Hr Ht. unfold finishWait. cbn.
  destruct (result_known (cl_server c) taskID r Hs Hr Ht) as (s' & -> & Hs' & Htasks).
  eexists _, _, r. split; [done|]. cbn. by rewrite Htasks.
Qed.

(** One round of the loop on a known task. *)
Lemma waitLoop_round fuel c taskID ws r :
  friendly -> usable (cl_server c) -> im_tasks (cl_server c) !! TrimSpace taskID = Some r ->
  exists c1 mode ws1, usable (cl_server c1) /\ im_tasks (cl_server c1) = im_tasks (cl_server c)
    /\ cl_waits c1 = cl_waits c
    /\ waitLoop amb (S fuel) c taskID None ws
       = if isTerminal (ac_Status r) then finishWait amb c1 taskID mode r None
         else waitLoop amb fuel (pause amb c1).1 taskID None ws1.
Proof.
  intros Hf Hs Hr. destruct (status_known (cl_server c) taskID r Hs Hr) as (s' & E & Hs' & Ht).
  cbn [waitLoop]. change (sv_Status (cl_server c) taskID) with (ServerStatus clock (cl_server c) taskID). rewrite E.
  cbn zeta. set (mode := if _ =s? "" then _ else _). set (c0 := c <| cl_server := s' |> <| cl_pending ::= _ |>).
  set (c1 := if (mode =s? DeliveryModeSSE) && _ then _ else c0).
  assert (same_link c0 c1) as (E1 & E2 & _) by (unfold c1; case_match; [apply emit_link | done]).
  exists c1, mode. eexists. split_and!; [by rewrite E1 | by rewrite E1 | by rewrite E2|].
  destruct (isTerminal (ac_Status r)); [done|]. unfold pause at 1. rewrite (fr_done Hf). done.
Qed.

Lemma waitLoop_returns N m fuel c taskID ws :
  friendly -> resolved_by N (TrimSpace taskID) -> usable (cl_server c) ->
  is_Some (im_tasks (cl_server c) !! TrimSpace taskID) -> (cl_waits c + m = S N)%nat ->
  (m = 0%nat -> exists r, im_tasks (cl_server c) !! TrimSpace taskID = Some r /\ isTerminal (ac_Status r) = true) ->
  (m < fuel)%nat -> returned (TrimSpace taskID) (waitLoop amb fuel c taskID None ws).
Proof.
  intros Hf Hres. revert fuel c ws. induction m as [|m IH]; intros [|fuel] c ws Hs [r Hr] Hm Hend Hfuel; try lia;
    destruct (waitLoop_round fuel c taskID ws r Hf Hs Hr) as (c1 & mode & ws1 & Hs1 & Ht1 & Hw1 & ->).
  - destruct Hend as (r0 & Hr0 & Hterm); [done|]. replace r0 with r in Hterm by congruence. rewrite Hterm.
    apply finishWait_returns; [done | by rewrite Ht1 | done].
  - destruct (isTerminal (ac_Status r)) eqn:Hterm; [apply finishWait_returns; [done | by rewrite Ht1 | done]|].
    assert (is_Some (im_tasks (cl_server c1) !! TrimSpace taskID)) as Hk by (rewrite Ht1; by eexists).
    apply IH; cbn.
    + by apply usable_between.
    + by apply known_between.
    + lia.
    + intros ->. replace (cl_waits c1) with N by lia. by apply Hres.
    + lia.
Qed.

(** A wait ends with the resolution of the server. When the others leave the server
    usable and the task is resolved at the latest during wait [N], then [WaitResult] returns
    after at most that many polls, without an error, and reports the status, result and error
    the server holds for the task. *)
Lemma wait_returns (N fuel : nat) c (taskID : string) :
  friendly -> resolved_by N (TrimSpace taskID) -> usable (cl_server c) ->
  is_Some (im_tasks (cl_server c) !! TrimSpace taskID) -> (cl_waits c <= N)%nat -> (S N < cl_waits c + fuel)%nat ->
  returned (TrimSpace taskID) (WaitResult amb fuel c taskID None).
Proof.
  intros Hf Hres Hs Hk HN Hfuel. unfold WaitResult.
  assert (same_link c (initialWait amb c taskID).1) as (E1 & E2 & _).
  { unfold initialWait. case_match; [|done]. case_match; [apply emit_link | done]. }
  destruct (initialWait amb c taskID) as [c1 ws]. cbn in E1, E2.
  apply (waitLoop_returns N (S N - cl_waits c)); rewrite ?E1, ?E2; try done; lia.
Qed.

(** ** Submitting *)

Lemma negotiate_frame c req c' res :
  negotiate amb c req = (c', res) ->
  same_link c c'
  /\ forall req', res = Ok req' ->
       aq_TaskID req' = aq_TaskID req /\ aq_AgentID req' = aq_AgentID req
       /\ exists card, resolvePeerCard c req = Ok card /\ aq_PeerID req' = cd_PeerID card.
Proof.
  unfold negotiate. destruct (resolvePeerCard c req) as [card|err]; [|by intros [= <- <-]].
  destruct (negotiateCardVersion _ _) as [[[vl vp] vr] [err|]].
  { cbn. intros [= <- <-]. split; [|done]. etransitivity; [apply (now_link amb) | apply emit_link]. }
  destruct (negotiateDeliveryMode _ _ _) as [[[mode used] why] [err|]].
  - cbn. intros [= <- <-]. split; [|done]. case_match; [|done]. etransitivity; [apply (now_link amb) | apply emit_link].
  - case_match; cbn; intros [= <- <-].
    + split; [etransitivity; [apply (now_link amb) | apply emit_link]|]. intros req' [= <-]. split_and!; [done..|by exists card].
    + split; [done|]. intros req' [= <-]. split_and!; [done..|by exists card].
Qed.

Lemma EqualFold_nonempty a b : EqualFold a b = true -> b <> "" -> a <> "".
Proof.
  unfold EqualFold. rewrite str_eqb_eq. intros E Hb ->. apply Hb. apply bytes_inj.
  assert (bytes (ToLower b) = []) as Hl by (by rewrite <-E). rewrite bytes_ToLower in Hl. by destruct (bytes b).
Qed.

(** A request that names a peer is sent to a peer with a name. *)
Lemma named_peer c req card :
  TrimSpace (aq_PeerID req) <> "" -> resolvePeerCard c req = Ok card -> TrimSpace (cd_PeerID card) <> "".
Proof.
  intros Hp. unfold resolvePeerCard. rewrite (proj2 (str_eqb_neq _ _) Hp).
  destruct (list_find _ (cl_cards c)) as [[i card0]|] eqn:E; intros [= <-]; cbn; rewrite !TrimSpace_idemp; [|done].
  apply list_find_Some in E as (_ & E & _). by eapply EqualFold_nonempty.
Qed.

(** A request with an id the server does not know, an agent and a peer is accepted. *)
Lemma fresh_submit s req :
  usable s -> TrimSpace (aq_TaskID req) <> "" -> im_tasks s !! TrimSpace (aq_TaskID req) = None ->
  TrimSpace (aq_AgentID req) <> "" -> TrimSpace (aq_PeerID req) <> "" ->
  exists s' r, ServerSubmit clock s req = Some (s', (r, None)) /\ usable s'
    /\ im_tasks s' !! TrimSpace (aq_TaskID req) = Some r /\ ac_TaskID r = TrimSpace (aq_TaskID req).
Proof.
  intros [Hinv Hmu] Hid Hnew Ha Hp. destruct (ServerSubmit clock s req) as [[s' rep]|] eqn:E.
  - pose proof (submit_inv clock s req s' rep E Hinv) as Hinv'. revert E. unfold ServerSubmit. rewrite Hmu.
    unfold identified. change (aq_TaskID (trimServerRequest req)) with (TrimSpace (aq_TaskID req)).
    rewrite (proj2 (str_eqb_neq _ _) Hid). cbn. rewrite (proj2 (str_eqb_neq _ _) Ha), (proj2 (str_eqb_neq _ _) Hp), Hnew.
    cbn. intros [= <- <-]. eexists _, _. split_and!; [done| split; [done|cbn; by rewrite emit_mu]| | done].
    cbn. rewrite emit_tasks. cbn. by rewrite lookup_insert_eq.
  - exfalso. revert E. unfold ServerSubmit. rewrite Hmu. destruct (identified _ _) as [s1 req1]. by repeat case_match.
Qed.

(** The request the client negotiates about. *)
Definition named (req : A2ATaskRequest) : Prop :=
  TrimSpace (aq_TaskID req) <> "" /\ TrimSpace (aq_AgentID req) <> "" /\ TrimSpace (aq_PeerID req) <> "".

Lemma client_submit c req :
  usable (cl_server c) -> named req -> 1 <= cp_RequestMaxAttempts (cl_policy c) ->
  is_ok (negotiate amb c (trimClientRequest req)).2 = true ->
  im_tasks (cl_server c) !! TrimSpace (aq_TaskID req) = None ->
  exists c' r, ClientSubmit amb c req = Some (c', (r, None)) /\ usable (cl_server c') /\ cl_waits c' = cl_waits c
    /\ is_Some (im_tasks (cl_server c') !! TrimSpace (aq_TaskID req)) /\ ac_TaskID r = TrimSpace (aq_TaskID req).
Proof.
  intros Hs (Hid & Ha & Hp) Hn Hok Hnew. unfold ClientSubmit. cbn zeta.
  change (aq_TaskID (trimClientRequest req)) with (TrimSpace (aq_TaskID req)). rewrite (proj2 (str_eqb_neq _ _) Hid).
  destruct (negotiate amb c (trimClientRequest req)) as [c1 [req1|err]] eqn:E; [|done].
  apply negotiate_frame in E as ((Es & Ew & _ & Epol & _) & Hreq).
  destruct (Hreq req1 eq_refl) as (E1 & E2 & card & Hcard & E3). cbn in E1, E2.
  assert (TrimSpace (cd_PeerID card) <> "") as Hpeer by (eapply named_peer; [|exact Hcard]; cbn; by rewrite TrimSpace_idemp).
  destruct (fresh_submit (cl_server c1) req1) as (s' & r & Esub & Hs' & Hr & Hrid);
    rewrite ?Es, ?E1, ?E2, ?E3, ?TrimSpace_idemp; try done.
  rewrite Epol. destruct (Z.to_nat (cp_RequestMaxAttempts (cl_policy c))) as [|n] eqn:En; [lia|]. cbn [submitLoop].
  change (sv_Submit (cl_server c1) req1) with (ServerSubmit clock (cl_server c1) req1). rewrite Esub.
  eexists _, _. split; [done|]. rewrite E1, TrimSpace_idemp in Hr, Hrid. cbn. split_and!; [done..|by eexists|done].
Qed.
End wait.
