(* ===== verification/A2AAsyncProps.v ===== *)
(** * Agent to agent: theorems about asynchronous reports

    A report reaches its sink at most once, after a bounded number of attempts with
    bounded delays. *)
From S2P Require Import Prelude GoStrings GoNum GoText CoreTypes SchedulerTypes Scheduler.
From S2P Require Import A2ATypes A2ARouting A2AServer A2AClient A2AAsync A2AServerProps A2AClientProps.

Local Open Scope bool_scope.
Local Open Scope string_scope.
Local Open Scope list_scope.
Local Open Scope Z_scope.

(** ** Delivering once *)

(** A sink that answers as it likes and remembers what it was given and whether it
    accepted it. *)
Abbreviation delivery := (A2AReport * bool)%type.

Definition logging (answer : nat -> A2AReport -> option GoError) : ReportSink (list delivery) := fun log report =>
  let err := answer (length log) report in (log ++ [(report, negb (bool_decide (is_Some err)))], err).

(** The key under which a report is delivered. *)
Definition reportKey (report : A2AReport) : string :=
  let key := TrimSpace (re_ReportKey report) in if key =s? "" then BuildAsyncReportKey report else key.

(** The accepted deliveries of a key. *)
Definition accepted (key : string) (log : list delivery) : list delivery :=
  filter (fun d => d.2 = true /\ reportKey d.1 = key) log.

Section delivering.
Context {W : Type} `{A2AServer W} (amb : Ambient W) (wall : Z -> Time).
Context (answer : nat -> A2AReport -> option GoError).
Implicit Types (c : Client W) (log : list delivery).

Definition deliveredOnce c log : Prop :=
  forall key, (length (accepted key log) <= if bool_decide (key ∈ cl_asyncDelivered c) then 1 else 0)%nat.

Lemma emit_report_link c report why extras : same_link c (emitAsyncReportTimeline amb c report why extras).
Proof. unfold emitAsyncReportTimeline. etransitivity; [apply (now_link amb) | apply emit_link]. Qed.

Lemma emit_report_delivered c report why extras :
  cl_asyncDelivered (emitAsyncReportTimeline amb c report why extras) = cl_asyncDelivered c.
Proof. apply emit_report_link. Qed.

Lemma accepted_snoc key log d :
  accepted key (log ++ [d]) = accepted key log ++ (if decide (d.2 = true /\ reportKey d.1 = key) then [d] else []).
Proof. unfold accepted. by rewrite filter_app. Qed.

Lemma once_refused c log report :
  deliveredOnce c log -> deliveredOnce c (log ++ [(report, false)]).
Proof. intros Ho key. rewrite accepted_snoc. rewrite decide_False by naive_solver. rewrite app_nil_r. apply Ho. Qed.

Lemma once_accepted c log report :
  deliveredOnce c log -> reportKey report ∉ cl_asyncDelivered c ->
  deliveredOnce (c <| cl_asyncDelivered ::= union {[reportKey report]} |>) (log ++ [(report, true)]).
Proof.
  intros Ho Hnew key. rewrite accepted_snoc, length_app. cbn [cl_asyncDelivered set_field]. cbn.
  specialize (Ho key). destruct (decide (key = reportKey report)) as [-> |Hne].
  - rewrite bool_decide_eq_false_2 in Ho by done. rewrite bool_decide_eq_true_2 by set_solver.
    rewrite decide_True by done. cbn. lia.
  - rewrite decide_False by naive_solver. cbn.
    rewrite (bool_decide_ext _ (key ∈ cl_asyncDelivered c)) by set_solver. lia.
Qed.

Lemma once_emit c log report why extras :
  deliveredOnce c log -> deliveredOnce (emitAsyncReportTimeline amb c report why extras) log.
Proof. intros Ho key. rewrite emit_report_delivered. apply Ho. Qed.

(** The deliveries of one report: as many as there are attempts at most, and nothing else
    changes in what the client knows to be delivered. *)
Lemma deliverLoop_once attempts attempt c log report lastErr :
  deliveredOnce c log -> reportKey report ∉ cl_asyncDelivered c ->
  let out := deliverLoop amb wall attempts attempt c (logging answer) log report (reportKey report) lastErr in
  deliveredOnce out.1 out.2 /\ (length out.2 <= length log + attempts)%nat.
Proof.
  revert attempt c log lastErr. induction attempts as [|n IH]; intros attempt c log lastErr Ho Hnew; cbn [deliverLoop].
  { cbn. split; [by apply once_emit | lia]. }
  cbn zeta. set (ra := report <| re_DeliveryAttempt := attempt |>).
  assert (Hkey : reportKey ra = reportKey report) by done.
  assert (Hlog : logging answer log ra
                 = (log ++ [(ra, negb (bool_decide (is_Some (answer (length log) ra))))], answer (length log) ra)) by done.
  rewrite Hlog. destruct (answer (length log) ra) as [err|].
  2:{ rewrite bool_decide_eq_false_2 by (by intros [? ?]). cbn [fst snd negb]. rewrite length_app. cbn [length].
      split; [|lia]. apply once_emit. rewrite <-Hkey. by apply once_accepted; rewrite ?Hkey. }
  rewrite bool_decide_eq_true_2 by done. cbn [negb].
  pose proof (once_refused c log ra Ho) as Ho1.
  destruct ((Z.of_nat n =? 0) || negb (IsRetryableReportDeliveryError err)).
  { cbn [fst snd]. rewrite length_app. cbn [length]. split; [by apply once_emit | lia]. }
  set (c1 := emitAsyncReportTimeline amb c _ ReasonAsyncReportRetry _).
  assert (Ho2 : deliveredOnce c1 (log ++ [(ra, false)])) by (by apply once_emit).
  assert (Hnew1 : reportKey report ∉ cl_asyncDelivered c1) by (unfold c1; by rewrite emit_report_delivered).
  destruct (retryDelayForAsyncReport _ _ _ <=? 0).
  - destruct (IH (attempt + 1) c1 (log ++ [(ra, false)]) (Some err) Ho2 Hnew1) as [? Hlen].
    split; [done|]. eapply Nat.le_trans; [exact Hlen|]. rewrite length_app. cbn [length]. lia.
  - unfold pause. destruct (am_done amb (cl_waits c1)); cbn [fst snd].
    + rewrite length_app. cbn [length]. split; [by apply once_emit | lia].
    + set (c2 := c1 <| cl_waits ::= S |> <| cl_server ::= _ |>).
      destruct (IH (attempt + 1) c2 (log ++ [(ra, false)]) (Some err) Ho2 Hnew1) as [? Hlen].
      split; [done|]. eapply Nat.le_trans; [exact Hlen|]. rewrite length_app. cbn [length]. lia.
Qed.

(** The deliveries of one report. *)
Definition attemptsOf c : nat :=
  let n := rp_MaxAttempts (cp_AsyncReporting (cl_policy c)) in Z.to_nat (if n <=? 0 then 1 else n).

Lemma deliver_once c log report :
  deliveredOnce c log ->
  let out := deliverAsyncReport amb wall c (logging answer) log report in
  deliveredOnce out.1 out.2 /\ (length out.2 <= length log + attemptsOf c)%nat
  /\ (reportKey report ∈ cl_asyncDelivered c -> out.2 = log).
Proof.
  intros Ho. unfold deliverAsyncReport. cbn zeta. fold (reportKey report).
  destruct (bool_decide_reflect (reportKey report ∈ cl_asyncDelivered c)) as [Hin|Hnew].
  - cbn. split_and!; [by apply once_emit | lia | done].
  - destruct (deliverLoop_once (attemptsOf c) 1 c log report None Ho Hnew) as [? ?]. done.
Qed.

(** The reports of a client, one after another. *)
Definition deliverAll c log (reports : list A2AReport) : Client W * list delivery :=
  foldl (fun p report => deliverAsyncReport amb wall p.1 (logging answer) p.2 report) (c, log) reports.

(** C17: a report reaches its sink at most once. Whatever the sink answers to each call, for
    every report key at most one delivery is accepted, however often, one after the other, a
    report with that key is handed to the client; after an accepted delivery the sink is not called again for it,
    and it is called at most [MaxAttempts] times for a report. *)
Theorem reports_delivered_once c (reports : list A2AReport) :
  cl_asyncDelivered c = ∅ ->
  let out := deliverAll c [] reports in
  (forall key, (length (accepted key out.2) <= 1)%nat)
  /\ forall report, let next := deliverAsyncReport amb wall out.1 (logging answer) out.2 report in
       (length next.2 <= length out.2 + attemptsOf out.1)%nat
       /\ (accepted (reportKey report) out.2 <> [] -> next.2 = out.2).
Proof.
  intros Hnone out. assert (Ho : deliveredOnce out.1 out.2).
  { unfold out, deliverAll. assert (deliveredOnce c []) as H0 by (intros key; cbn; lia). revert H0.
    generalize c, (@nil delivery). induction reports as [|report reports IH]; intros c0 log H0; cbn; [done|].
    destruct (deliverAsyncReport amb wall c0 (logging answer) log report) as [c1 log1] eqn:E. apply IH.
    pose proof (deliver_once c0 log report H0) as (H1 & _). cbn zeta in H1. by rewrite E in H1. }
  split; [intros key; specialize (Ho key); by case_bool_decide; lia|]. intros report next.
  destruct (deliver_once out.1 out.2 report Ho) as (_ & Hlen & Hdup). split; [done|]. intros Hacc. apply Hdup.
  specialize (Ho (reportKey report)). destruct (bool_decide_reflect (reportKey report ∈ cl_asyncDelivered out.1)); [done|].
  destruct (accepted (reportKey report) out.2); [done|cbn in Ho; lia].
Qed.
End delivering.

Definition demoPolicy : ClientPolicy :=
  mkClientPolicy 0 0 0 (mkRetryPolicy 0 0) (mkDeliveryPolicy "" "" (mkRetryPolicy 0 0) (mkRetryPolicy 0 0))
    (mkCardVersionPolicy "" "" 0) (mkAsyncReportingPolicy true "" 2 0 0 f64_zero).

(** A client of the server that has resolved its task. *)
Definition demoA2AClient : Client InMemoryServer :=
  NewClient (sorting := stable_sort) demoResolved demoCards None demoPolicy true.

Definition demoAmbient : Ambient InMemoryServer := mkAmbient demoTime (fun _ s => s) (fun _ => None).

Definition demoReport : A2AReport :=
  BuildAsyncReport (demoTime 0)
    (match im_tasks demoResolved !! "t1" with Some r => r | None => zeroA2ARecord end).

(** A sink that refuses its first call. *)
Definition demoAnswer (n : nat) (_ : A2AReport) : option GoError :=
  match n with O => Some DeadlineExceeded | S _ => None end.

#[local] Instance demo_server : A2AServer InMemoryServer := InMemoryServer_A2AServer (quote := plain_quote) demoTime.

Lemma reports_delivered_once_witness :
  let out := deliverAll demoAmbient (fun _ => demoTime 0) demoAnswer demoA2AClient [] [demoReport; demoReport] in
  length out.2 = 2%nat /\ length (accepted (reportKey demoReport) out.2) = 1%nat
  /\ forall key, (length (accepted key out.2) <= 1)%nat.
Proof.
  intros out. split_and!; [vm_compute; reflexivity..|].
  apply (reports_delivered_once demoAmbient (fun _ => demoTime 0) demoAnswer demoA2AClient [demoReport; demoReport]).
  reflexivity.
Defined.

(** ** Delays *)

(** The backoff of a normalised policy is positive and below its maximum. *)
Lemma report_policy_backoff p :
  let q := normalizeAsyncReportingPolicy p in 0 < rp_BackoffInitial q <= rp_BackoffMax q.
Proof.
  unfold normalizeAsyncReportingPolicy, Millisecond. cbn zeta.
  set (p0 := p <| rp_Sink := _ |>). clearbody p0. clear p.
  set (p1 := if rp_MaxAttempts p0 <=? 0 then _ else p0). clearbody p1. clear p0.
  set (p2 := if rp_BackoffInitial p1 <? 0 then _ else p1).
  assert (H2 : 0 <= rp_BackoffInitial p2) by (unfold p2; case_match; cbn; lia). clearbody p2. clear p1.
  set (p3 := if rp_BackoffInitial p2 =? 0 then _ else p2).
  assert (H3 : 0 < rp_BackoffInitial p3) by (unfold p3; case_match; cbn; lia). clearbody p3. clear p2 H2.
  set (p4 := if rp_BackoffMax p3 <? _ then _ else p3).
  assert (H4 : 0 < rp_BackoffInitial p4 <= rp_BackoffMax p4) by (unfold p4; case_match; cbn; lia). clearbody p4. clear p3 H3.
  rewrite (proj2 (Z.eqb_neq (rp_BackoffMax p4) 0)) by lia.
  set (p5 := if f64_ltb (rp_JitterRatio p4) _ then _ else p4).
  assert (H5 : 0 < rp_BackoffInitial p5 <= rp_BackoffMax p5) by (unfold p5; case_match; cbn; lia). clearbody p5.
  set (p6 := if f64_ltb f64_one (rp_JitterRatio p5) then _ else p5).
  assert (H6 : 0 < rp_BackoffInitial p6 <= rp_BackoffMax p6) by (unfold p6; case_match; cbn; lia). clearbody p6.
  case_match; cbn; lia.
Qed.

Lemma doubling_bounds n delay max :
  0 < delay <= max -> max < 2 ^ 62 -> 0 < doubling n delay max <= max.
Proof.
  revert delay. induction n as [|n IH]; intros delay Hd Hm; cbn; [lia|].
  rewrite wrap_i64_id by (unfold min_i64, max_i64; lia). case_match; [lia|]. apply IH; lia.
Qed.

(** The delay between two deliveries of a report is bounded. Whatever the policy, the
    attempt and the clock, it lies between zero and the maximum of the normalised policy, as
    long as that is below [2^62] ns; the first retry waits exactly the initial backoff. *)
Theorem report_delay_within_bounds (wall : Time) (p : AsyncReportingPolicy) (attempt : Z) :
  let q := normalizeAsyncReportingPolicy p in
  rp_BackoffMax q < 2 ^ 62 ->
  0 <= retryDelayForAsyncReport wall p attempt <= rp_BackoffMax q
  /\ (attempt <= 1 -> retryDelayForAsyncReport wall p attempt = rp_BackoffInitial q).
Proof.
  intros q Hmax. pose proof (report_policy_backoff p) as Hb. fold q in Hb. cbn zeta in Hb.
  unfold retryDelayForAsyncReport. fold q. cbn zeta.
  destruct (Z.leb_spec attempt 1); [split; [lia|done]|]. split; [|lia].
  pose proof (doubling_bounds (Z.to_nat (attempt - 1)) _ _ Hb Hmax) as Hd.
  set (delay := doubling _ _ _) in *. clearbody delay.
  case_match; [lia|]. case_match; [lia|]. set (shifted := wrap_i64 (delay + _)). clearbody shifted.
  case_match; case_match; lia.
Qed.

Lemma report_delay_within_bounds_witness :
  let p := mkAsyncReportingPolicy true "" 5 (100 * Millisecond) Second f64_one in
  0 <= retryDelayForAsyncReport (demoTime 7) p 5 <= Second /\ retryDelayForAsyncReport (demoTime 7) p 1 = 100 * Millisecond.
Proof.
  intros p. split.
  - apply (report_delay_within_bounds (demoTime 7) p 5). vm_compute. reflexivity.
  - apply (report_delay_within_bounds (demoTime 7) p 1); vm_compute; [reflexivity | discriminate].
Defined.

(** Above that the doubling overflows: a policy with a long initial backoff retries at once. *)
Example long_backoff_overflows :
  retryDelayForAsyncReport (demoTime 0) (mkAsyncReportingPolicy true "" 5 (2 ^ 62) (2 ^ 62) f64_one) 4 = 0.
Proof. vm_compute. reflexivity. Qed.

(** The default maximum of 500 ms is never used: without a maximum the maximum becomes the
    initial backoff, so that the backoff of the default policy does not grow. *)
Example default_backoff_is_flat :
  let q := normalizeAsyncReportingPolicy (mkAsyncReportingPolicy true "" 0 0 0 f64_zero) in
  rp_BackoffInitial q = 50 * Millisecond /\ rp_BackoffMax q = 50 * Millisecond.
Proof. by vm_compute. Qed.
