(* ===== verification/RemoteExecutionProps.v ===== *)
(** * Remote execution: theorems

    A claimed task executed on a remote peer, through the mailbox bridge, the client and the
    in-memory server: the commit of the scheduler says what the server says, and the mailbox
    records the call. *)
From S2P Require Import Prelude GoStrings GoNum GoText CoreTypes SchedulerTypes SchedulerState SchedulerStore Scheduler SchedulerProps.
From S2P Require Import A2ATypes A2ARouting A2AServer A2AClient A2AAsync A2AServerProps A2AClientProps A2AAsyncProps.
From S2P Require Import MailboxTypes MailboxState MailboxStore MailboxFacade Invoke A2AAdapter.

Local Open Scope bool_scope.
Local Open Scope string_scope.
Local Open Scope list_scope.
Local Open Scope Z_scope.

(** ** Publishing into a memory mailbox *)

Section publishing.
Context {order : RangeOrder}.
Implicit Types (m : Mailbox MailboxStore.MemoryStore).

Definition stateOf m : mailboxState := mm_state (mx_store m).

(** The fields of a message a reader goes by. *)
Definition about (e : Envelope) :=
  (ev_MessageID e, ev_IdempotencyKey e, ev_DispatchBinding e, ev_CorrelationID e, ev_TaskID e, ev_Payload e).

Lemma publish_fresh e m env env' :
  normalizeEnvelope env = Ok env' -> existingRecord (stateOf m) env' = None ->
  exists m' r, Publish e m env = (m', Ok (mkPublishResult r false))
    /\ m_Records (stateOf m') = <[ev_MessageID env' := r]> (m_Records (stateOf m))
    /\ m_Idempotency (stateOf m') = <[ev_IdempotencyKey env' := ev_MessageID env']> (m_Idempotency (stateOf m))
    /\ about (mr_Envelope r) = about env'.
Proof.
  intros Hn Hx. unfold Publish. unfold stateOf in *. cbn. unfold publish. rewrite Hn, Hx. unfold publishNew. cbn zeta.
  set (env1 := if IsZero (ev_ExpireAt env') && _ then _ else env').
  assert (about env1 = about env' /\ ev_MessageID env1 = ev_MessageID env' /\ ev_IdempotencyKey env1 = ev_IdempotencyKey env')
    as (E1 & E2 & E3) by (unfold env1; by case_match). clearbody env1.
  eexists _, _. split; [done|]. cbn. by rewrite E1, E2, E3.
Qed.

(** The envelopes of an invocation, when the task has an id. *)
Definition taskKey (req : InvokeRequest) : string := TrimSpace (iq_TaskID req).

Lemma suffixed_trimmed k t :
  TrimSpace k = k -> k <> "" -> t <> "" -> Forall (fun c => ascii_nonspace c = true) (bytes t) ->
  TrimSpace (k +:+ t) = k +:+ t.
Proof. intros Hk ? ? ?. apply TrimSpace_id, trimmed_app_ascii; try done. by apply TrimSpace_iff. Qed.

Lemma suffixed_nonempty k t : k <> "" -> k +:+ t <> "".
Proof. by destruct k. Qed.

Lemma suffix_inj k a b : k +:+ a = k +:+ b -> a = b.
Proof. intros E. apply bytes_inj. apply (f_equal bytes) in E. rewrite !bytes_app in E. by apply app_inv_head in E. Qed.

Context (req : InvokeRequest) (Hid : taskKey req <> "").

Lemma messageID_task wall suffix : messageID wall (iq_TaskID req) suffix = taskKey req +:+ suffix.
Proof. unfold messageID, orDefaultText. fold (taskKey req). by rewrite (proj2 (str_eqb_neq _ _) Hid). Qed.

Lemma idempotencyKey_task w t suffix :
  suffix <> "" -> Forall (fun c => ascii_nonspace c = true) (bytes suffix) ->
  idempotencyKey (iq_TaskID req) w t suffix = taskKey req +:+ suffix.
Proof.
  intros. unfold idempotencyKey, orDefaultText. fold (taskKey req). rewrite (proj2 (str_eqb_neq _ _) Hid).
  apply suffixed_trimmed; try done. apply TrimSpace_idemp.
Qed.

Lemma key_trimmed : TrimSpace (taskKey req) = taskKey req.
Proof. apply TrimSpace_idemp. Qed.

Lemma commandEnvelope_normal wall :
  exists e, normalizeEnvelope (commandEnvelope wall req 0 0) = Ok e
    /\ about e = (taskKey req +:+ ":command", taskKey req +:+ "|sync|command", "", taskKey req +:+ ":command",
                  taskKey req, iq_Payload req).
Proof.
  unfold commandEnvelope, commandMessageID, commandIdempotencyKey, NewCommandEnvelope.
  rewrite messageID_task, idempotencyKey_task by (done || by repeat constructor).
  unfold normalizeEnvelope, trimEnvelope. cbn [ev_HostPlanBinding ev_MessageID ev_IdempotencyKey ev_Kind result_bind].
  unfold toCorrelation. cbn [cl_TaskID]. fold (taskKey req).
  rewrite !(suffixed_trimmed (taskKey req)) by (apply key_trimmed || done || by repeat constructor).
  cbn. rewrite !(proj2 (str_eqb_neq (taskKey req +:+ _) "")) by (by apply suffixed_nonempty).
  eexists. split; [done|]. unfold about. cbn. rewrite !key_trimmed.
  by rewrite (suffixed_trimmed (taskKey req)) by (apply key_trimmed || done || by repeat constructor).
Qed.

Lemma resultEnvelope_normal {mv : MapValue} e o :
  exists env, normalizeEnvelope (resultEnvelope e req o) = Ok env
    /\ about env = (taskKey req +:+ ":result", taskKey req +:+ "|sync|result", "", taskKey req +:+ ":command",
                    taskKey req, buildResultPayload o).
Proof.
  unfold resultEnvelope, resultMessageID, resultIdempotencyKey, NewResultEnvelope, commandEnvelope, commandMessageID,
    commandIdempotencyKey, NewCommandEnvelope.
  rewrite !messageID_task, !idempotencyKey_task by (done || by repeat constructor).
  unfold normalizeEnvelope, trimEnvelope. cbn [ev_HostPlanBinding ev_MessageID ev_IdempotencyKey ev_Kind ev_CorrelationID
    ev_TaskID result_bind]. unfold toCorrelation. cbn [cl_TaskID]. fold (taskKey req).
  rewrite !(suffixed_trimmed (taskKey req)) by (apply key_trimmed || done || by repeat constructor).
  cbn. rewrite !(proj2 (str_eqb_neq (taskKey req +:+ _) "")) by (by apply suffixed_nonempty).
  eexists. split; [done|]. unfold about. cbn. by rewrite !key_trimmed.
Qed.

(** ** A call through a fresh bridge *)

Definition records (b : MailboxBridge MailboxStore.MemoryStore) : gmap string MessageRecord :=
  m_Records (stateOf (br_Mailbox b)).

(** The messages of a call of [req] are in the mailbox of a bridge. *)
Record recorded (b : MailboxBridge MailboxStore.MemoryStore) (r1 r2 : MessageRecord) : Prop := {
  rd_command : records b !! (taskKey req +:+ ":command") = Some r1;
  rd_result : records b !! (taskKey req +:+ ":result") = Some r2;
  rd_commandKey :
    m_Idempotency (stateOf (br_Mailbox b)) !! (taskKey req +:+ "|sync|command") = Some (taskKey req +:+ ":command");
  rd_resultKey :
    m_Idempotency (stateOf (br_Mailbox b)) !! (taskKey req +:+ "|sync|result") = Some (taskKey req +:+ ":result");
  rd_commandBinding : ev_DispatchBinding (mr_Envelope r1) = "";
  rd_resultBinding : ev_DispatchBinding (mr_Envelope r2) = ""
}.

(** Both messages are published: the bridge changes neither the outcome nor the error of
    the call, and its mailbox holds the command and the result. *)
Lemma fresh_bridge_invoke {quote : QuoteText} {mv : MapValue} {C} `{InvokeClient C} (e : BridgeEnv) (src : string)
    (c c' : C) (o : Outcome) (err : option GoError) :
  invokeSync c req = Some (c', (o, err)) ->
  exists b' r1 r2, InvokeSync e (fun m => m) (NewInMemoryMailboxBridge src) c req = Some (b', c', (o, err))
    /\ records b' = <[taskKey req +:+ ":result" := r2]> {[taskKey req +:+ ":command" := r1]}
    /\ ev_Payload (mr_Envelope r1) = iq_Payload req /\ ev_Payload (mr_Envelope r2) = buildResultPayload o
    /\ ev_CorrelationID (mr_Envelope r2) = ev_MessageID (mr_Envelope r1) /\ recorded b' r1 r2.
Proof.
  intros Hinv. unfold InvokeSync, PublishCommand.
  destruct (commandEnvelope_normal (be_commandWall e)) as (e1 & N1 & A1).
  rewrite bool_decide_eq_true_2 by done.
  destruct (publish_fresh (be_command e) (br_Mailbox (NewInMemoryMailboxBridge src)) _ e1 N1) as (m1 & r1 & -> & R1 & I1 & B1);
    [done|].
  rewrite Hinv. destruct (resultEnvelope_normal e o) as (e2 & N2 & A2). unfold PublishTerminal.
  rewrite bool_decide_eq_true_2 by done.
  change (br_Mailbox (observePublish _ _ _ <| br_Mailbox ::= _ |>)) with m1.
  change (m_Records (stateOf (br_Mailbox (NewInMemoryMailboxBridge src)))) with (∅ : gmap string MessageRecord) in R1.
  cbn in I1.
  rewrite insert_empty in R1. injection A1 as Em1 Ek1 Ed1 Ec1 _ Ep1. injection A2 as Em2 Ek2 Ed2 Ec2 _ Ep2.
  destruct (publish_fresh (be_result e) m1 _ e2 N2) as (m2 & r2 & -> & R2 & I2 & B2).
  { unfold existingRecord. rewrite I1, R1, Em1, Em2, Ek1, Ek2.
    rewrite lookup_insert_ne by (intros E; by apply suffix_inj in E).
    rewrite lookup_empty. cbn. rewrite lookup_singleton_ne by (intros E; by apply suffix_inj in E). done. }
  injection B1 as Bm1 Bk1 Bd1 _ _ Bp1. injection B2 as Bm2 Bk2 Bd2 Bc2 _ Bp2.
  rewrite R1, Em1, Em2 in R2. rewrite I1, Em1, Em2, Ek1, Ek2 in I2.
  eexists _, r1, r2. split; [done|]. change (records (_ <| br_Mailbox := m2 |>)) with (m_Records (stateOf m2)).
  split_and!; [exact R2 | congruence..|]. split; [change (m_Records (stateOf m2) !! (taskKey req +:+ ":command") = Some r1)
    | change (m_Records (stateOf m2) !! (taskKey req +:+ ":result") = Some r2)
    | change (m_Idempotency (stateOf m2) !! (taskKey req +:+ "|sync|command") = Some (taskKey req +:+ ":command"))
    | change (m_Idempotency (stateOf m2) !! (taskKey req +:+ "|sync|result") = Some (taskKey req +:+ ":result")) | congruence..];
    rewrite ?R2, ?I2; rewrite ?lookup_insert_eq; try done;
    rewrite lookup_insert_ne by (intros E; by apply suffix_inj in E); by rewrite ?lookup_insert_eq, ?lookup_singleton_eq.
Qed.

(** Publishing a message again changes no record. *)
Lemma publish_again e m env env' r :
  normalizeEnvelope env = Ok env' -> existingRecord (stateOf m) env' = Some r ->
  ev_DispatchBinding (mr_Envelope r) = ev_DispatchBinding env' ->
  exists m', Publish e m env = (m', Ok (mkPublishResult r true))
    /\ m_Records (stateOf m') = m_Records (stateOf m) /\ m_Idempotency (stateOf m') = m_Idempotency (stateOf m).
Proof.
  intros Hn Hx Hb. unfold Publish. unfold stateOf in *. cbn. unfold publish. rewrite Hn, Hx, Hb, str_eqb_refl. cbn.
  eexists. split; [done|]. done.
Qed.

(** A second call of the request: the answer is that of the call, the mailbox keeps the messages
    of the first one. *)
Lemma recorded_bridge_invoke {quote : QuoteText} {mv : MapValue} {C} `{InvokeClient C} (e : BridgeEnv)
    (b : MailboxBridge MailboxStore.MemoryStore) r1 r2 (c c' : C) (o : Outcome) (err : option GoError) :
  recorded b r1 r2 -> invokeSync c req = Some (c', (o, err)) ->
  exists b', InvokeSync e (fun m => m) b c req = Some (b', c', (o, err)) /\ records b' = records b /\ recorded b' r1 r2.
Proof.
  intros [H1 H2 H3 H4 H5 H6] Hinv. unfold records in H1, H2. unfold InvokeSync, PublishCommand.
  destruct (commandEnvelope_normal (be_commandWall e)) as (e1 & N1 & A1). injection A1 as Em1 Ek1 Ed1 Ec1 _ Ep1.
  rewrite bool_decide_eq_true_2 by done.
  destruct (publish_again (be_command e) (br_Mailbox b) _ e1 r1 N1) as (m1 & -> & R1 & I1).
  { unfold existingRecord. rewrite Ek1, H3. cbn. by rewrite H1. }
  { congruence. }
  rewrite Hinv. destruct (resultEnvelope_normal e o) as (e2 & N2 & A2). injection A2 as Em2 Ek2 Ed2 Ec2 _ Ep2.
  unfold PublishTerminal. rewrite bool_decide_eq_true_2 by done.
  assert (forall p q, br_Mailbox (observePublish (b <| br_Mailbox := m1 |>) p q <| br_Mailbox ::= fun m => m |>) = m1) as Hb
    by (intros; unfold observePublish; by case_match). rewrite Hb.
  destruct (publish_again (be_result e) m1 _ e2 r2 N2) as (m2 & -> & R2 & I2).
  { unfold existingRecord. rewrite I1, R1, Ek2, H4. cbn. by rewrite H2. }
  { congruence. }
  assert (forall b0 p q, br_Mailbox (observePublish (b0 <| br_Mailbox := m2 |>) p q) = m2) as Hb2
    by (intros; unfold observePublish; by case_match).
  eexists. split; [done|]. unfold records. rewrite Hb2. split; [by rewrite R2, R1|].
  split; unfold records; rewrite ?Hb2, ?R2, ?R1, ?I2, ?I1; done.
Qed.
End publishing.

(** ** A claim executed on the in-memory server *)

Section remote.
Context {sorting : SortSlice} {quote : QuoteText} {mv : MapValue} {order : RangeOrder}.
Context (clock : nat -> Time) (amb : Ambient InMemoryServer).
#[local] Instance remote_server : A2AServer InMemoryServer := InMemoryServer_A2AServer clock.
Implicit Types (c : Client InMemoryServer) (claimed : ClaimedTask) (r : A2ATaskRecord).

(** The id of the remote task of a claim. *)
Definition remoteID claimed : string :=
  TrimSpace (tk_TaskID (tr_Task (ct_Record claimed))) +:+ "-" +:+ TrimSpace (at_AttemptID (ct_Attempt claimed)).

(** A claim of a task and an attempt that have ids. *)
Definition identifiable claimed : Prop :=
  TrimSpace (tk_TaskID (tr_Task (ct_Record claimed))) <> "" /\ TrimSpace (at_AttemptID (ct_Attempt claimed)) <> "".

Lemma remoteID_trimmed claimed : identifiable claimed -> TrimSpace (remoteID claimed) = remoteID claimed.
Proof. intros [? ?]. apply TrimSpace_id, trimmed_join; auto using TrimSpace_trimmed. Qed.

Lemma remoteID_nonempty claimed : remoteID claimed <> "".
Proof. unfold remoteID. by destruct (TrimSpace (tk_TaskID _)). Qed.

Lemma claim_named claimed p : identifiable claimed -> named (submitRequest (claimRequest claimed p)).
Proof.
  intros Hid. unfold named. cbn. fold (remoteID claimed). rewrite TrimSpace_idemp, remoteID_trimmed by done.
  split_and!; [apply remoteID_nonempty|..]; unfold orDefaultText; case_match eqn:E; try done;
    rewrite !TrimSpace_idemp; by apply str_eqb_neq in E.
Qed.

(** The call on the client: what it returns is what the server holds. *)
Lemma claim_invocation N fuel c claimed p :
  let req := claimRequest claimed p in
  identifiable claimed -> usable (cl_server c) -> friendly clock amb -> resolved_by amb N (remoteID claimed) ->
  1 <= cp_RequestMaxAttempts (cl_policy c) ->
  is_ok (negotiate amb c (trimClientRequest (submitRequest req))).2 = true ->
  im_tasks (cl_server c) !! remoteID claimed = None ->
  (cl_waits c <= N)%nat -> (S N < cl_waits c + fuel)%nat ->
  exists c' record r,
    invokeSync (H := Client_InvokeClient amb fuel) c req = Some (c', terminalOutcome (remoteID claimed) record)
    /\ im_tasks (cl_server c') !! remoteID claimed = Some r /\ isTerminal (ac_Status r) = true
    /\ resolution record = resolution r.
Proof.
  intros req Hid Hs Hf Hres Hn Hneg Hnew HN Hfuel. pose proof (claim_named claimed p Hid) as Hnm.
  assert (Htid : aq_TaskID (submitRequest req) = remoteID claimed) by (cbn; by apply remoteID_trimmed).
  destruct (client_submit clock amb c (submitRequest req)) as (c1 & r1 & Esub & Hs1 & Hw1 & Hk1 & Hid1);
    rewrite ?Htid, ?remoteID_trimmed; try done.
  rewrite Htid, remoteID_trimmed in Hk1, Hid1 by done.
  change (ClientSubmit amb c (submitRequest req) = Some (c1, (r1, None))) in Esub.
  unfold invokeSync. cbn zeta. rewrite Htid, (proj2 (str_eqb_neq _ _) (remoteID_nonempty claimed)).
  cbn [ic_Submit ic_WaitResult Client_InvokeClient]. rewrite Esub, Hid1, remoteID_trimmed by done.
  unfold orDefaultText. rewrite (proj2 (str_eqb_neq _ _) (remoteID_nonempty claimed)).
  destruct (wait_returns clock amb N fuel c1 (remoteID claimed)) as (c2 & record & r & E & _ & Hr & Ht & Hreso);
    rewrite ?remoteID_trimmed, ?Hw1; try done.
  rewrite remoteID_trimmed in Hr by done. exists c2, record, r. split_and!; try done.
  change (WaitResult amb fuel c1 (remoteID claimed) None = Some (c2, (record, None))) in E. cbn. by rewrite E.
Qed.

(** What the commit of an execution says about a resolved remote task. *)
Definition commits_resolution claimed (now : Time) r (x : A2AExecution) : Prop :=
  let tc := ax_Commit x in
  tc_TaskID tc = tk_TaskID (tr_Task (ct_Record claimed)) /\ tc_AttemptID tc = at_AttemptID (ct_Attempt claimed)
  /\ tc_CommittedAt tc = now
  /\ if decide (ac_Status r = StatusSucceeded)
     then tc_Status tc = TaskStateSucceeded /\ tc_Result tc = ac_Result r /\ ax_Retryable x = false
          /\ tc_ErrorMessage tc = ""
     else tc_Status tc = TaskStateFailed /\ tc_Result tc = ∅ /\ tc_ErrorMessage tc <> ""
          /\ (TrimSpace (ac_ErrorMessage r) <> "" -> tc_ErrorMessage tc = TrimSpace (ac_ErrorMessage r))
          /\ (TrimSpace (ac_A2AErrorLayer r) <> "" -> tc_ErrorLayer tc = TrimSpace (ac_A2AErrorLayer r))
          /\ tc_ErrorLayer tc <> "" /\ ax_Retryable x = (tc_ErrorLayer tc =s? ErrorLayerTransport).

(** The failure of a terminal record names a layer and a message. *)
Lemma terminalError_layer record :
  let e := normalizeTerminalRecordError record in
  TrimSpace (ne_Layer e) = ne_Layer e /\ ne_Layer e <> "" /\ ne_Retryable e = (ne_Layer e =s? ErrorLayerTransport)
  /\ (TrimSpace (ac_A2AErrorLayer record) <> "" -> ne_Layer e = TrimSpace (ac_A2AErrorLayer record)).
Proof.
  cbn zeta. unfold normalizeTerminalRecordError. set (message := TrimSpace (ac_ErrorMessage record)).
  destruct (if message =s? "" then _ else _) as [[class layer] code] eqn:E. cbn.
  assert (TrimSpace layer = layer /\ (TrimSpace (ac_A2AErrorLayer record) <> "" -> layer = TrimSpace (ac_A2AErrorLayer record)))
    as [H1 H2].
  { revert E. case_match; [|destruct (ClassifyError _) as [[fc fl] fd]]; intros [= <- <- <-].
    - by rewrite TrimSpace_idemp.
    - unfold orDefaultText. case_match eqn:E; rewrite TrimSpace_idemp; [apply str_eqb_eq in E|]; by split. }
  clear E. unfold orDefaultText. destruct (str_eqb_spec layer "") as [->|Hne]; split_and!; try done. intros H. by rewrite <-H2 in H.
Qed.

Lemma terminalError_message record :
  let e := normalizeTerminalRecordError record in
  ac_Status record = StatusFailed \/ ac_Status record = StatusCanceled ->
  TrimSpace (ne_Message e) = ne_Message e /\ ne_Message e <> ""
  /\ (TrimSpace (ac_ErrorMessage record) <> "" -> ne_Message e = TrimSpace (ac_ErrorMessage record)).
Proof.
  cbn zeta. intros Hst. unfold normalizeTerminalRecordError. destruct (if _ =s? "" then _ else _) as [[class layer] code]. cbn.
  unfold orDefaultText. destruct (str_eqb_spec (TrimSpace (ac_ErrorMessage record)) "") as [->|Hne].
  - by destruct Hst as [-> | ->].
  - by rewrite TrimSpace_idemp.
Qed.

(** A terminal outcome becomes a commit of that resolution. *)
Lemma execution_commits claimed now taskID record :
  isTerminal (ac_Status record) = true ->
  exists x, (terminalOutcome taskID record).2 = None
    /\ executionOf now claimed (terminalOutcome taskID record).1 = (x, None) /\ commits_resolution claimed now record x.
Proof.
  intros Ht. destruct (decide (ac_Status record = StatusSucceeded)) as [E|Hns].
  { unfold terminalOutcome, executionOf. rewrite E. cbn. eexists. split_and!; [done..|].
    unfold commits_resolution. by rewrite decide_True. }
  assert (Hst : ac_Status record = StatusFailed \/ ac_Status record = StatusCanceled) by (destruct (ac_Status record); auto; done).
  destruct (terminalError_layer record) as (L1 & L2 & L3 & L4). destruct (terminalError_message record Hst) as (M1 & M2 & M3).
  set (e := normalizeTerminalRecordError record) in *.
  assert (terminalOutcome taskID record
          = (mkOutcome taskID (ac_Status record) (ac_Result record) record (Some e), None)) as ->
    by (unfold terminalOutcome; fold e; destruct Hst as [-> | ->]; done).
  eexists. split; [done|]. unfold executionOf, outcomeFailure. cbn.
  rewrite L1, M1. unfold orDefaultText. repeat rewrite (proj2 (str_eqb_neq _ _) L2), ?(proj2 (str_eqb_neq _ _) M2).
  split; [destruct Hst as [-> | ->]; done|].
  unfold commits_resolution. rewrite decide_False by done. done.
Qed.

Lemma commits_resolution_ext claimed now r r' x :
  resolution r = resolution r' -> commits_resolution claimed now r x -> commits_resolution claimed now r' x.
Proof. intros [= _ E1 E2 _ E3 _ E4]. unfold commits_resolution. by rewrite E1, E2, E3, E4. Qed.

(** C9: a claim executed on a remote peer commits what the peer resolved. Let a worker call
    [ExecuteClaimWithA2A] without a bridge of its own, through a client of an in-memory server
    whose mutex is free and which does not know the remote id of the claim yet; the
    capabilities, versions and delivery modes can be negotiated, and the server resolves the
    task at the latest during the [N]-th wait. Then the call returns after at most that many
    polls, without an error. Its commit is for the claimed task and attempt: when the server
    holds a success, it is a success with that result; otherwise it is a failure with the
    message and layer of the server, to be retried exactly when the layer is the transport. The
    bridge holds two messages, the command with the payload of the task and the result, which
    refers to the command. *)
Theorem remote_execution_commits_resolution (N fuel : nat) (e : BridgeEnv) (now : Time) c claimed
    (p : Duration) (src : string) :
  identifiable claimed -> usable (cl_server c) -> friendly clock amb -> resolved_by amb N (remoteID claimed) ->
  1 <= cp_RequestMaxAttempts (cl_policy c) ->
  is_ok (negotiate amb c (trimClientRequest (submitRequest (claimRequest claimed p)))).2 = true ->
  im_tasks (cl_server c) !! remoteID claimed = None ->
  (cl_waits c <= N)%nat -> (S N < cl_waits c + fuel)%nat ->
  exists b' c' x r (m1 m2 : MessageRecord),
    ExecuteClaimWithA2A (H := Client_InvokeClient amb fuel) e (fun m => m) now c claimed p (resolveMailboxBridge src None)
    = Some (Ok b', c', (x, None))
    /\ im_tasks (cl_server c') !! remoteID claimed = Some r /\ isTerminal (ac_Status r) = true
    /\ commits_resolution claimed now r x
    /\ records b' = <[remoteID claimed +:+ ":result" := m2]> {[remoteID claimed +:+ ":command" := m1]}
    /\ ev_Payload (mr_Envelope m1) = tk_Payload (tr_Task (ct_Record claimed))
    /\ ev_CorrelationID (mr_Envelope m2) = ev_MessageID (mr_Envelope m1).
Proof.
  intros Hid Hs Hf Hres Hn Hneg Hnew HN Hfuel.
  destruct (claim_invocation N fuel c claimed p) as (c' & record & r & Einv & Hr & Ht & Hreso); try done.
  destruct (execution_commits claimed now (remoteID claimed) record) as (x & Eerr & Ex & Hx).
  { injection Hreso as _ -> _ _ _ _ _. done. }
  destruct (terminalOutcome (remoteID claimed) record) as [o err]. cbn in Eerr, Ex. subst err.
  assert (taskKey (claimRequest claimed p) = remoteID claimed) as Hkey by (by apply remoteID_trimmed).
  assert (taskKey (claimRequest claimed p) <> "") as Hne by (rewrite Hkey; apply remoteID_nonempty).
  destruct (fresh_bridge_invoke (claimRequest claimed p) Hne e src c c' o None Einv) as (b' & m1 & m2 & EI & HR & P1 & _ & HC & _).
  exists b', c', x, r, m1, m2. cbn [ExecuteClaimWithA2A resolveMailboxBridge]. rewrite EI, Ex, <-Hkey.
  split_and!; try done; [by rewrite Hkey | by eapply commits_resolution_ext].
Qed.
End remote.

(** ** A run *)

#[local] Instance demoQuote : QuoteText := plain_quote.
#[local] Instance demoSorting : SortSlice := stable_sort.
#[local] Instance demoRange : RangeOrder := listing_order.
#[local] Instance demoMapValue : MapValue := fun m => AnyInt (Z.of_nat (size m)).

(** The goroutines of a server, one after the other, answered with one result. *)
Fixpoint runFirst (n : nat) (s : InMemoryServer) : InMemoryServer :=
  match n with
  | O => s
  | S n => match executeStep demoTime s 0 (Ok demoResult) with Some s' => runFirst n s' | None => s end
  end.

Definition diligent : Ambient InMemoryServer := mkAmbient demoTime (fun _ s => runFirst (work s) s) (fun _ => None).

Lemma runFirst_steps n s :
  usable s -> (work s <= n)%nat ->
  rtc (server_step demoTime) s (runFirst n s) /\ usable (runFirst n s) /\ im_running (runFirst n s) = [].
Proof.
  revert s. induction n as [|n IH]; intros s Hs Hw.
  - cbn. split_and!; [done..|]. unfold work in Hw. destruct (im_running s) as [|[] ?]; cbn in Hw; [done|lia..].
  - cbn. destruct Hs as [Hinv Hmu]. destruct (executeStep demoTime s 0 (Ok demoResult)) as [s1|] eqn:E.
    + destruct (goroutine_step_work demoTime s s1 Hinv) as (Hinv1 & Hmu1 & Hw1); [by eexists _, _|].
      destruct (IH s1) as (R & U & I); [by split|lia|]. split_and!; try done. eapply rtc_l; [|done]. by eapply StepExecute.
    + split_and!; [done..|]. unfold executeStep in E. rewrite Hmu in E. by destruct (im_running s) as [|[] ?].
Qed.

Lemma diligent_friendly : friendly demoTime diligent.
Proof.
  split; [|done]. intros ? s Hs. destruct (runFirst_steps (work s) s Hs) as (R & [_ M] & _); [lia|]. by split.
Qed.

Lemma diligent_resolves k : resolved_by diligent 0 k.
Proof.
  intros s Hs [r0 Hr0]. destruct (known_between demoTime diligent 0 s k diligent_friendly Hs) as [r Hr]; [by eexists|].
  exists r. split; [done|]. destruct (runFirst_steps (work s) s Hs) as (_ & [Hinv _] & I); [lia|]. cbn in Hr.
  destruct (si_status _ Hinv k r Hr) as [-> |[-> |(g & Hg & _)]]; [done..|]. rewrite I in Hg. by apply elem_of_nil in Hg.
Qed.

Definition demoWorker : Client InMemoryServer :=
  NewClient (NewInMemoryServer true true) demoCards None demoPolicy true.
Definition demoClaim : ClaimedTask := mkClaimedTask demoA (latestAttempt demoA) "" false.
Definition demoBridgeEnv : BridgeEnv := 
  let e := mkMailboxEnv t0 t0 t0 None "r" in mkBridgeEnv e e t0 t0.

Lemma demoWorker_usable : usable (cl_server demoWorker).
Proof. split; [apply new_server_inv | done]. Qed.

Lemma remote_execution_commits_resolution_witness :
  exists out x, ExecuteClaimWithA2A (H := Client_InvokeClient (H := InMemoryServer_A2AServer demoTime) diligent 5) demoBridgeEnv
                (fun m => m) t0 demoWorker demoClaim 0 (resolveMailboxBridge "bridge" None) = Some (out, (x, None))
    /\ remoteID demoClaim = "a-a-attempt-1" /\ tc_TaskID (ax_Commit x) = "a" /\ tc_AttemptID (ax_Commit x) = "a-attempt-1".
Proof.
  destruct (remote_execution_commits_resolution demoTime diligent 0 5 demoBridgeEnv t0 demoWorker demoClaim 0 "bridge")
    as (b & c & x & r & m1 & m2 & E & _ & _ & (H1 & H2 & _) & _).
  - split; discriminate.
  - exact demoWorker_usable.
  - exact diligent_friendly.
  - exact (diligent_resolves _).
  - discriminate.
  - reflexivity.
  - reflexivity.
  - reflexivity.
  - cbn. lia.
  - exists (Ok b, c), x. split_and!; [exact E | reflexivity | exact H1 | exact H2].
Defined.

(** That run, evaluated: the commit is a success with the answer of the handler. *)
Example remote_run :
  match ExecuteClaimWithA2A (H := Client_InvokeClient (H := InMemoryServer_A2AServer demoTime) diligent 5) demoBridgeEnv
          (fun m => m) t0 demoWorker demoClaim 0 (resolveMailboxBridge "bridge" None) with
  | Some (_, c, (x, None)) => (tc_Status (ax_Commit x), tc_Result (ax_Commit x), cl_waits c) = (TaskStateSucceeded, demoResult, 1%nat)
  | _ => False
  end.
Proof. vm_compute. reflexivity. Qed.
