(* ===== verification/ReconcileProps.v ===== *)
(** * Reconciliation: theorems

    A cycle of [ReconcileAwaitingReports] moves the task board by its rules only, whatever the
    other clients of the scheduler do meanwhile; undisturbed, it commits exactly the tasks whose
    peers have resolved them. The delay between two cycles is bounded. *)
From S2P Require Import Prelude GoStrings GoNum GoText CoreTypes SchedulerTypes SchedulerState SchedulerBoard.
From S2P Require Import SchedulerOps SchedulerRefine SchedulerStore Scheduler SchedulerProps SchedulerFacadeProps.
From S2P Require Import A2ATypes A2ARouting A2AServer A2AClient A2AAsync Invoke A2AAdapter.

Local Open Scope bool_scope.
Local Open Scope string_scope.
Local Open Scope list_scope.
Local Open Scope Z_scope.

(** ** A cycle among clients *)

Lemma fruns_runs ctl (s : Scheduler MemoryStore) calls :
  exists l : list (Time * call), Forall (fun wc => admits ctl wc.2) l
    /\ ms_state (sc_store (fruns s calls)) = runs (ms_state (sc_store s)) l.
Proof.
  revert s. induction calls as [|cc calls IH]; intros s; [by exists []|]. cbn.
  destruct (fexec_runs ctl s cc) as (l1 & H1 & E1). destruct (IH (fexec s cc)) as (l2 & H2 & E2).
  exists (l1 ++ l2). split; [by apply Forall_app|]. change (fruns (fexec s cc) calls) with (foldl fexec (fexec s cc) calls) in E2.
  unfold runs in *. by rewrite E2, E1, foldl_app.
Qed.

(** The counters of a cycle after [n] records. *)
Record cycle_ok (n : nat) (st : ReconcileCycleStats) : Prop := {
  co_polls : 0 <= rs_PollTotal st <= Z.of_nat n;
  co_terminal : 0 <= rs_TerminalByPoll st <= rs_PollTotal st;
  co_errors : 0 <= rs_ErrorTotal st;
  co_conflicts : 0 <= rs_ConflictTotalDelta st <= rs_PollTotal st;
  co_once : rs_TerminalByPoll st + rs_ErrorTotal st <= Z.of_nat n
}.

Section cycle.
Context {quote : QuoteText} {C : Type} `{PollClient C} (ctl : bool).
Context (cks : nat -> Clock) (now : Time) (calls : nat -> list (Clock * fcall)).
Implicit Types (s : Scheduler MemoryStore) (c : C).

(** What the other clients call while the peer of the [i]-th record is polled. *)
Definition interference (i : nat) s : Scheduler MemoryStore := fruns s (calls i).

(** The store of [s'] is that of [s] after calls of the state machine. *)
Definition moved s s' : Prop :=
  exists l : list (Time * call), Forall (fun wc => admits ctl wc.2) l
    /\ ms_state (sc_store s') = runs (ms_state (sc_store s)) l.

#[local] Instance moved_po : PreOrder moved.
Proof.
  split; [intros s; by exists []|]. intros s1 s2 s3 (l1 & H1 & E1) (l2 & H2 & E2).
  exists (l1 ++ l2). split; [by apply Forall_app|]. unfold runs in *. by rewrite E2, E1, foldl_app.
Qed.

Lemma fexec_commit ck s n :
  fexec s (ck, FCommitAsyncReportTerminal n) = (FacadeCommitAsyncReportTerminal ck s n).1.
Proof. reflexivity. Qed.

Lemma fexec_moved s cc : moved s (fexec s cc).
Proof. apply fexec_runs. Qed.

Lemma commitPolled_moved ck s st r a rid t : moved s (commitPolled ck now s st r a rid t).1.
Proof.
  unfold commitPolled. destruct (ReconcileTerminalCommitFromRecord _ _ _ _ _ _) as [n|e]; [|reflexivity].
  pose proof (fexec_moved s (ck, FCommitAsyncReportTerminal n)) as Hm. rewrite fexec_commit in Hm.
  destruct (FacadeCommitAsyncReportTerminal ck s n) as [s' [cr|e]]; exact Hm.
Qed.

Lemma commitPolled_stats n ck s st r a rid t :
  cycle_ok n st -> cycle_ok (S n) (commitPolled ck now s (st <| rs_PollTotal ::= Z.succ |>) r a rid t).2.
Proof.
  intros []. unfold commitPolled. destruct (ReconcileTerminalCommitFromRecord _ _ _ _ _ _) as [m|e]; [|split; cbn; lia].
  destruct (FacadeCommitAsyncReportTerminal ck s m) as [s' [cr|e]]; [|split; cbn; lia].
  destruct (cr_Conflict cr), (negb (cr_Duplicate cr) && negb (cr_LateReport cr)); split; cbn; lia.
Qed.

Lemma reconcileRecord_ok n i s c st r s' c' st' :
  reconcileRecord (cks i) now (interference i) s c st r = Some (s', c', st') ->
  moved s s' /\ (cycle_ok n st -> cycle_ok (S n) st').
Proof.
  unfold reconcileRecord. assert (Hskip : cycle_ok n st -> cycle_ok (S n) (countError st)) by (intros []; split; cbn; lia).
  case_match; [intros [= <- <- <-]; by split|]. destruct (currentAttempt r) as [a|]; [|intros [= <- <- <-]; by split].
  cbn zeta. destruct (ClassifyReconcilePoll c _) as [[c1 [[cl t] er]]|]; [|done].
  assert (Hm : moved s (interference i s)) by apply fruns_runs.
  destruct cl; try (intros [= <- <- <-]; split; [done|intros []; split; cbn; lia]).
  pose proof (commitPolled_moved (cks i) (interference i s) (st <| rs_PollTotal ::= Z.succ |>) r a (TrimSpace (tr_RemoteTaskID r)) t) as Hc.
  pose proof (commitPolled_stats n (cks i) (interference i s) st r a (TrimSpace (tr_RemoteTaskID r)) t) as Hst.
  destruct (commitPolled _ _ _ _ _ _ _ _) as [s1 st1]. intros [= <- <- <-]. split; [by etransitivity | exact Hst].
Qed.

Lemma reconcileLoop_ok awaiting n i s c st s' c' st' :
  reconcileLoop cks now interference i s c st awaiting = Some (s', c', st') ->
  moved s s' /\ (cycle_ok n st -> cycle_ok (n + length awaiting) st').
Proof.
  revert n i s c st. induction awaiting as [|r awaiting IH]; intros n i s c st; cbn.
  - intros [= <- <- <-]. by rewrite Nat.add_0_r.
  - destruct (reconcileRecord _ _ _ _ _ _ _) as [[[s1 c1] st1]|] eqn:E; [|done]. intros E'.
    destruct (reconcileRecord_ok n _ _ _ _ _ _ _ _ E) as [M1 S1]. destruct (IH (S n) _ _ _ _ E') as [M2 S2].
    split; [by etransitivity|]. intros Hst. rewrite Nat.add_succ_r. apply (S2 (S1 Hst)).
Qed.
End cycle.
#[export] Existing Instance moved_po.

(** The records a cycle polls. *)
Definition listed (ck : Clock) (s : Scheduler MemoryStore) : list TaskRecord :=
  listAwaitingReport (env_wall (ck_env ck)) (ms_state (sc_store s)) (ck_now ck)
    (ar_BatchSize (aa_Reconcile (sc_asyncAwait s))).

Lemma listed_length ck s :
  let batch := ar_BatchSize (aa_Reconcile (sc_asyncAwait s)) in
  Z.of_nat (length (listed ck s)) <= if batch <=? 0 then 64 else batch.
Proof. unfold listed, listAwaitingReport. cbn zeta. rewrite length_take. case_match; lia. Qed.

(** C16: a reconcile cycle moves the task board by its rules only, whatever the peers answer
    and whatever other clients of the scheduler call while a peer is polled: from a reachable
    store every cycle that returns ends in a reachable store, reached by steps of the board. Its
    counters are consistent: it polls at most a batch of tasks, and each is counted at
    most once, as resolved or as an error. *)
Theorem reconcile_cycle_refines_board {quote : QuoteText} {C : Type} `{PollClient C} (ctl : bool) (ck : Clock)
    (cks : nat -> Clock) (calls : nat -> list (Clock * fcall)) (s s' : Scheduler MemoryStore) (c c' : C)
    (st : ReconcileCycleStats) (err : option SchedulerError) :
  reachable ctl (ms_state (sc_store s)) ->
  ReconcileAwaitingReports ck cks (interference calls) s c = Some (s', c', (st, err)) ->
  let batch := ar_BatchSize (aa_Reconcile (sc_asyncAwait s)) in
  reachable ctl (ms_state (sc_store s'))
  /\ rtc (board_step ctl) (board_of (ms_state (sc_store s))) (board_of (ms_state (sc_store s')))
  /\ 0 <= rs_TerminalByPoll st <= rs_PollTotal st
  /\ rs_PollTotal st <= (if batch <=? 0 then 64 else batch)
  /\ rs_TerminalByPoll st + rs_ErrorTotal st <= (if batch <=? 0 then 64 else batch).
Proof.
  intros Hr. assert (forall s', moved ctl s s' -> reachable ctl (ms_state (sc_store s'))
    /\ rtc (board_step ctl) (board_of (ms_state (sc_store s))) (board_of (ms_state (sc_store s')))) as Hmoved.
  { intros s2 (l & Hl & ->). split; [by apply runs_reachable | apply runs_board; [by apply reachable_inv | done]]. }
  assert (Hz : cycle_ok 0 zeroCycleStats) by done.
  unfold ReconcileAwaitingReports. destruct (ar_Enabled _); cbn [negb]; cbn zeta.
  2: { intros [= <- <- <- <-]. destruct (Hmoved s) as [? ?]; [reflexivity|]. split_and!; try done; cbn; case_match; lia. }
  change (ListAwaitingReport (ck_env ck) (sc_store s) (ck_now ck) (ar_BatchSize (aa_Reconcile (sc_asyncAwait s))))
    with (@Ok SchedulerError _ (listed ck s)). cbv match.
  destruct (reconcileLoop cks (ck_now ck) (interference calls) 0 s c zeroCycleStats (listed ck s)) as [[[s1 c1] st1]|] eqn:E; [|done].
  apply (reconcileLoop_ok ctl _ _ _ _ 0) in E as [M Hst].
  pose proof (listed_length ck s) as Hlen. cbn zeta in Hlen.
  destruct (Hst Hz) as [? ? ? ? ?]. rewrite Nat.add_0_l in *.
  assert (M2 : moved ctl s1 (s1 <| sc_store := (RecordAsyncReconcileStats (ck_env ck) (sc_store s1) (rs_PollTotal st1) (rs_ErrorTotal st1)).1 |>)).
  { exists [(0, CallRecordAsyncReconcileStats (rs_PollTotal st1) (rs_ErrorTotal st1))]. by split; [repeat constructor|]. }
  destruct (Hmoved _ (transitivity M M2)) as [? ?].
  unfold onStore. destruct (RecordAsyncReconcileStats _ _ _ _) as [m [u|e]]; intros [= <- <- <- <-]; split_and!; done || lia.
Qed.

(** ** What an undisturbed cycle commits *)

(** The record of a task after a commit of its attempt [a]. *)
Definition resolve (a : Attempt) (n : TerminalCommit) (r : TaskRecord) : TaskRecord :=
  committedRecord (endAttempt (commitStatus n) (tc_CommittedAt n) a) (trimCommit n) r.

(** A commit in the form the adapter gives it. *)
Record adapter_commit (id aid : string) (n : TerminalCommit) : Prop := {
  ad_task : tc_TaskID n = id;
  ad_attempt : tc_AttemptID n = aid;
  ad_status : tc_Status n = TaskStateSucceeded \/ tc_Status n = TaskStateFailed;
  ad_source : tc_Source n = AsyncResolutionSourceReconcilePoll;
  ad_at : tc_CommittedAt n <> 0;
  ad_workspace : tc_WorkspaceProvenance n = None
}.

Lemma adapter_normal wall id aid n :
  adapter_commit id aid n -> TrimSpace id = id -> id <> "" -> TrimSpace aid = aid -> aid <> "" ->
  exists n', normalizeCommit wall n = Ok n' /\ adapter_commit id aid n' /\ tc_Status n' = tc_Status n
    /\ tc_CommittedAt n' = tc_CommittedAt n /\ forall c r, committedRecord c n' r = committedRecord c (trimCommit n) r.
Proof.
  intros [E1 E2 E3 E4 E5 E6] Hid Hne Haid Hane. unfold normalizeCommit. cbn zeta.
  unfold trimCommit. destruct n as [tid att st src rid res msg cls lay key at_ wp]. cbn in *. subst tid att src wp.
  rewrite Hid, Haid, (proj2 (str_eqb_neq _ _) Hne), (proj2 (str_eqb_neq _ _) Hane). cbn.
  rewrite bool_decide_eq_true_2 by done. pose proof (or_now_id wall at_ E5) as Hnow. cbn [negb].
  case_match; eexists; (split; [done|]); (split; [split|]; cbn; rewrite ?Hnow; try done).
  all: split_and!; try done; intros c r; unfold committedRecord; cbn; by rewrite Hnow.
Qed.

(** The ids of a stored task and its current attempt are trimmed and not empty. *)
Lemma stored_ids ctl (s : schedulerState) id r a :
  sched_inv ctl s -> s_Tasks s !! id = Some r -> currentAttempt r = Some a ->
  tk_TaskID (tr_Task r) = id /\ TrimSpace id = id /\ id <> "" /\ TrimSpace (at_AttemptID a) = at_AttemptID a /\ at_AttemptID a <> "".
Proof.
  intros Hinv Hr Ha. pose proof (bi_records _ _ (si_board _ _ Hinv) id r Hr) as Hwf.
  destruct (current_last id r a Hwf Ha) as (l & Hl & _).
  assert (attempt_wf (tr_Task r) (length l) a) as Hawf
    by (apply (rw_attempts _ _ Hwf); rewrite Hl, lookup_app_r, Nat.sub_diag by lia; done).
  split_and!; [apply Hwf | by eapply wf_trim | by eapply wf_nonempty|..]; rewrite (aw_id _ _ _ Hawf).
  - apply aid_trim. by eapply wf_normal.
  - by apply minted_nonempty.
Qed.

Lemma commit_awaiting ctl wall s id r a n :
  sched_inv ctl s -> s_Tasks s !! id = Some r -> tr_State r = TaskStateAwaitingReport -> currentAttempt r = Some a ->
  adapter_commit id (at_AttemptID a) n ->
  if decide (at_WorkspaceProvenance a = None)
  then exists s' cr, commitAsyncReportTerminal wall s n = (s', Ok cr) /\ cr_Duplicate cr = false /\ cr_LateReport cr = false
         /\ s_Tasks s' = <[id := resolve a n r]> (s_Tasks s)
  else commitAsyncReportTerminal wall s n = (s, Err ErrWorkspaceBindingMismatch).
Proof.
  intros Hinv Hr Hst Ha Hn. destruct (stored_ids ctl s id r a Hinv Hr Ha) as (_ & Hid & Hne & Haid & Hane).
  destruct (adapter_normal wall id (at_AttemptID a) n Hn Hid Hne Haid Hane) as (n' & En & [E1 E2 E3 E4 E5 E6] & Es & Ec & Erec).
  unfold commitAsyncReportTerminal. rewrite En. cbn zeta. rewrite E4. change (AsyncResolutionSourceReconcilePoll =s? "") with false. cbv match. rewrite E1, Hr.
  rewrite E2, (current_uncommitted ctl (s_Tasks s) (s_Queue s) (s_TerminalCommits s) id r a (si_board _ _ Hinv) Hr Ha).
  rewrite bool_decide_eq_false_2 by congruence. rewrite Ha, E6. unfold workspaceProvenanceEqual.
  case_decide as Hw; [rewrite bool_decide_eq_true_2 by done | by rewrite bool_decide_eq_false_2 by done].
  cbn [negb]. rewrite bool_decide_eq_true_2 by done. cbn [negb].
  unfold applyTerminalCommit. rewrite Ha, E2, str_eqb_refl. cbn [negb].
  unfold resolve, endAttempt, commitStatus. rewrite <-Es, <-Ec, <-Erec.
  destruct E3 as [E3|E3]; rewrite E3; eexists _, _; (split; [done|]); split_and!; try done; by repeat case_match.
Qed.

Lemma polled_commit_shape {quote : QuoteText} wall id aid rid t now n :
  ReconcileTerminalCommitFromRecord wall id aid rid t now = Ok n -> TrimSpace id = id -> TrimSpace aid = aid -> now <> 0 ->
  adapter_commit id aid n /\ forall wall', ReconcileTerminalCommitFromRecord wall' id aid rid t now = Ok n.
Proof.
  unfold ReconcileTerminalCommitFromRecord. cbn zeta. intros E Hid Haid Hnow.
  assert (forall w, or_now w now = now) as Hw by (intros; by apply or_now_id).
  rewrite Hw in E. rewrite Hid, Haid in *. destruct (negb _); [|done].
  destruct (ac_Status t); try done; injection E as <-; (split; [split; cbn; auto|]; intros w; by rewrite Hw).
Qed.

Section undisturbed.
Context {quote : QuoteText} {C : Type} `{PollClient C} (ctl : bool) (cks : nat -> Clock) (now : Time).
Context (answers : string -> poll).
Implicit Types (s : Scheduler MemoryStore) (c : C) (r : TaskRecord).

(** The attempt and the commit for a task of the list: its peer has a terminal record
    for it, in a state the adapter supports, and the attempt has no workspace. *)
Definition polledCommit r : option (Attempt * TerminalCommit) :=
  let rid := TrimSpace (tr_RemoteTaskID r) in
  match currentAttempt r, answers rid with
  | Some a, (ReconcilePollClassificationTerminal, t, _) =>
      if (rid =s? "") || bool_decide (at_WorkspaceProvenance a <> None) then None
      else match ReconcileTerminalCommitFromRecord now (tk_TaskID (tr_Task r)) (at_AttemptID a) rid t now with
           | Ok n => Some (a, n)
           | Err _ => None
           end
  | _, _ => None
  end.

Definition reconciled r : TaskRecord := match polledCommit r with Some (a, n) => resolve a n r | None => r end.

Definition resolvedByPoll (l : list TaskRecord) : Z := Z.of_nat (length (filter (fun r => is_Some (polledCommit r)) l)).

(** A record of the list, as the store has it. *)
Definition awaits s r : Prop :=
  s_Tasks (ms_state (sc_store s)) !! tk_TaskID (tr_Task r) = Some r /\ tr_State r = TaskStateAwaitingReport.

Context (Hnow : now <> 0).
Context (Hanswers : forall c id, exists c', ClassifyReconcilePoll c id = Some (c', answers id)).

Lemma reconciled_none r : polledCommit r = None -> reconciled r = r /\ resolvedByPoll [r] = 0.
Proof.
  intros E. unfold reconciled, resolvedByPoll. rewrite E, filter_cons_False, filter_nil; [done|]. rewrite E. by intros [? ?].
Qed.

Lemma reconciled_some r a n : polledCommit r = Some (a, n) -> reconciled r = resolve a n r /\ resolvedByPoll [r] = 1.
Proof.
  intros E. unfold reconciled, resolvedByPoll. rewrite E, filter_cons_True, filter_nil; [done|]. by rewrite E.
Qed.

Lemma facade_commit ck s n m res :
  commitAsyncReportTerminal (env_wall (ck_env ck)) (ms_state (sc_store s)) n = (m, res) ->
  exists s', FacadeCommitAsyncReportTerminal ck s n = (s', match res with Ok r => Ok r | Err e => Err (ErrStore e) end)
    /\ ms_state (sc_store s') = m.
Proof.
  intros E. unfold FacadeCommitAsyncReportTerminal, onStore, CommitAsyncReportTerminal, MemoryStore_QueueStore, locked.
  rewrite E. cbn. destruct res as [cr|e]; [|by eexists]. unfold emitTimeline.
  repeat case_match; eexists; (split; [done|]); by rewrite ?emit_store.
Qed.

Lemma awaiting_ids s r a :
  reachable ctl (ms_state (sc_store s)) -> awaits s r -> currentAttempt r = Some a ->
  TrimSpace (tk_TaskID (tr_Task r)) = tk_TaskID (tr_Task r) /\ TrimSpace (at_AttemptID a) = at_AttemptID a.
Proof.
  intros Hs%reachable_inv [Hr _] Ha. by destruct (stored_ids ctl _ _ r a Hs Hr Ha) as (_ & ? & _ & ? & _).
Qed.

Lemma commitPolled_effect ck s st r a t er :
  reachable ctl (ms_state (sc_store s)) -> awaits s r -> currentAttempt r = Some a ->
  TrimSpace (tr_RemoteTaskID r) <> "" -> answers (TrimSpace (tr_RemoteTaskID r)) = (ReconcilePollClassificationTerminal, t, er) ->
  let out := commitPolled ck now s st r a (TrimSpace (tr_RemoteTaskID r)) t in
  s_Tasks (ms_state (sc_store out.1)) = <[tk_TaskID (tr_Task r) := reconciled r]> (s_Tasks (ms_state (sc_store s)))
  /\ rs_TerminalByPoll out.2 = rs_TerminalByPoll st + resolvedByPoll [r].
Proof.
  intros Hs Haw Ha Hrid Hans. destruct (awaiting_ids s r a Hs Haw Ha) as [Hid Haid]. destruct Haw as [Hr Hst].
  assert (Hpc : polledCommit r = if decide (at_WorkspaceProvenance a = None) then
      match ReconcileTerminalCommitFromRecord now (tk_TaskID (tr_Task r)) (at_AttemptID a) (TrimSpace (tr_RemoteTaskID r)) t now with
      | Ok n => Some (a, n) | Err _ => None end else None).
  { unfold polledCommit. rewrite Ha, Hans, (proj2 (str_eqb_neq _ _) Hrid). cbn.
    case_decide; [by rewrite bool_decide_eq_false_2 by tauto | by rewrite bool_decide_eq_true_2 by tauto]. }
  unfold commitPolled.
  destruct (ReconcileTerminalCommitFromRecord (env_wall (ck_env ck)) _ _ _ _ _) as [n|e] eqn:En; cbn zeta.
  - apply polled_commit_shape in En as [Hn Hwall]; [|done..]. rewrite Hwall in Hpc.
    pose proof (commit_awaiting ctl (env_wall (ck_env ck)) (ms_state (sc_store s)) _ r a n (reachable_inv _ _ Hs) Hr Hst Ha Hn) as Hc.
    case_decide.
    + destruct Hc as (m & cr & Ec & Hdup & Hlate & Ht). apply facade_commit in Ec as (s' & -> & <-).
      destruct (reconciled_some _ _ _ Hpc) as [-> ->]. rewrite Hdup, Hlate. cbn. split; [done|]. case_match; cbn; lia.
    + apply facade_commit in Hc as (s' & -> & E). destruct (reconciled_none _ Hpc) as [-> ->]. cbn.
      rewrite E, insert_id by done. split; [done|lia].
  - destruct (reconciled_none r) as [-> ->]; [|cbn; rewrite insert_id by done; split; [done|lia]]. rewrite Hpc. case_decide; [|done].
    destruct (ReconcileTerminalCommitFromRecord now _ _ _ _ _) as [n|] eqn:En'; [|done].
    apply polled_commit_shape in En' as [_ Hwall]; [|done..]. by rewrite Hwall in En.
Qed.

Lemma reconcileRecord_effect i s c st r :
  reachable ctl (ms_state (sc_store s)) -> awaits s r ->
  exists s' c' st', reconcileRecord (cks i) now (fun s => s) s c st r = Some (s', c', st')
    /\ s_Tasks (ms_state (sc_store s')) = <[tk_TaskID (tr_Task r) := reconciled r]> (s_Tasks (ms_state (sc_store s)))
    /\ rs_TerminalByPoll st' = rs_TerminalByPoll st + resolvedByPoll [r].
Proof.
  intros Hs Haw. unfold reconcileRecord. cbn zeta.
  assert (Hnone : polledCommit r = None ->
    s_Tasks (ms_state (sc_store s)) = <[tk_TaskID (tr_Task r) := reconciled r]> (s_Tasks (ms_state (sc_store s)))
    /\ rs_TerminalByPoll st = rs_TerminalByPoll st + resolvedByPoll [r]).
  { intros E. destruct (reconciled_none r E) as [-> ->]. rewrite insert_id by apply Haw. split; [done|lia]. }
  destruct (str_eqb_spec (TrimSpace (tr_RemoteTaskID r)) "") as [E|Hrid].
  { eexists s, c, _. split; [done|]. apply Hnone. unfold polledCommit. rewrite E. by repeat case_match. }
  destruct (currentAttempt r) as [a|] eqn:Ha.
  2: { eexists s, c, _. split; [done|]. apply Hnone. unfold polledCommit. by rewrite Ha. }
  destruct (Hanswers c (TrimSpace (tr_RemoteTaskID r))) as [c' ->].
  destruct (answers (TrimSpace (tr_RemoteTaskID r))) as [[cl t] er] eqn:Hans.
  assert (Hpc : cl <> ReconcilePollClassificationTerminal -> polledCommit r = None)
    by (intros; unfold polledCommit; rewrite Ha, Hans; by destruct cl).
  destruct cl; try (eexists s, c', _; split; [done|]; by apply Hnone, Hpc).
  pose proof (commitPolled_effect (cks i) s (st <| rs_PollTotal ::= Z.succ |>) r a t er Hs Haw Ha Hrid Hans) as Hc.
  cbn zeta in Hc. destruct (commitPolled _ _ _ _ _ _ _ _) as [s' st']. by eexists s', c', st'.
Qed.

Abbreviation ids l := ((fun r => tk_TaskID (tr_Task r)) <$> l).

(** The tasks after the records [l] are reconciled. *)
Definition reconciledTasks (l : list TaskRecord) (t t' : gmap string TaskRecord) : Prop :=
  forall id, t' !! id = (fun r => if bool_decide (id ∈ ids l) then reconciled r else r) <$> t !! id.

Lemma reconcileLoop_effect l i s c st :
  reachable ctl (ms_state (sc_store s)) -> Forall (awaits s) l -> NoDup (ids l) ->
  exists s' c' st', reconcileLoop cks now (fun _ s => s) i s c st l = Some (s', c', st')
    /\ reconciledTasks l (s_Tasks (ms_state (sc_store s))) (s_Tasks (ms_state (sc_store s')))
    /\ rs_TerminalByPoll st' = rs_TerminalByPoll st + resolvedByPoll l.
Proof.
  revert i s c st. induction l as [|r l IH]; intros i s c st Hs Haw Hnd.
  { eexists s, c, st. split; [done|]. split; [|unfold resolvedByPoll; rewrite filter_nil; cbn; lia]. intros id. cbn. by destruct (_ !! id). }
  apply Forall_cons in Haw as [Hr Haw]. cbn in Hnd. apply NoDup_cons in Hnd as [Hni Hnd].
  destruct (reconcileRecord_effect i s c st r Hs Hr) as (s1 & c1 & st1 & E1 & T1 & P1). cbn [reconcileLoop]. rewrite E1.
  destruct (reconcileRecord_ok ctl cks now (fun _ => []) 0 i s c st r s1 c1 st1 E1) as [(cs & Hcs & Em) _].
  destruct (IH (S i) s1 c1 st1) as (s' & c' & st' & E' & T' & P').
  - rewrite Em. by apply runs_reachable.
  - apply Forall_forall. intros r' Hr'. rewrite Forall_forall in Haw. destruct (Haw r' Hr') as [H1 H2]. split; [|done].
    rewrite T1, lookup_insert_ne; [done|]. intros E. apply Hni. rewrite E. by apply (list_elem_of_fmap_2 (fun r => tk_TaskID (tr_Task r))).
  - done.
  - exists s', c', st'. split; [done|]. split.
    + intros id. rewrite T', T1. destruct (decide (id = tk_TaskID (tr_Task r))) as [-> |Hne].
      * rewrite lookup_insert_eq, (proj1 Hr). cbn. rewrite bool_decide_eq_false_2 by done.
        by rewrite bool_decide_eq_true_2 by (by left).
      * rewrite lookup_insert_ne by done. rewrite (bool_decide_ext (id ∈ ids (r :: l)) (id ∈ ids l)); [done|]. cbn. rewrite elem_of_cons. tauto.
    + rewrite P', P1. unfold resolvedByPoll. rewrite !filter_cons, filter_nil. case_decide; cbn; lia.
Qed.
End undisturbed.

Lemma listed_awaits ctl ck s :
  reachable ctl (ms_state (sc_store s)) ->
  Forall (awaits s) (listed ck s) /\ NoDup ((fun r => tk_TaskID (tr_Task r)) <$> listed ck s).
Proof.
  intros Hs%reachable_inv. unfold listed, listAwaitingReport. cbn zeta.
  set (st := ms_state (sc_store s)) in *. set (idl := tasksWhere _ _).
  assert (forall l, (forall id, id ∈ l -> exists r, s_Tasks st !! id = Some r /\ tr_State r = TaskStateAwaitingReport) ->
    Forall (awaits s) (omap (fun id => s_Tasks st !! id) l)
    /\ (fun r => tk_TaskID (tr_Task r)) <$> omap (fun id => s_Tasks st !! id) l = l) as Hl.
  { induction l as [|id l IH]; intros Hid; [done|]. destruct (Hid id) as (r & Hr & Hst); [by left|].
    destruct IH as [H1 H2]; [intros; apply Hid; by right|]. cbn. rewrite Hr. cbn.
    pose proof (rw_id _ _ (bi_records _ _ (si_board _ _ Hs) id r Hr)) as E. rewrite H2, E.
    split; [|done]. constructor; [|done]. unfold awaits. by rewrite E. }
  destruct (Hl idl) as [H1 H2].
  { intros id (r & Hr & Hp)%elem_of_tasksWhere. unfold awaitingOpen in Hp. exists r. split; [done|].
    apply andb_true_iff in Hp as [Hp _]. by apply bool_decide_eq_true in Hp. }
  split; [by apply Forall_take|]. rewrite fmap_take, H2. eapply sublist_NoDup; [|apply sublist_take]. apply NoDup_tasksWhere.
Qed.

(** C10: an undisturbed cycle commits exactly what the peers resolved. On a reachable memory
    store with reconciliation enabled, with peers whose answers do not change during the
    cycle and with no other client at work, the cycle returns without an error. Every
    task of the batch whose peer answers with a terminal record, and whose attempt has no
    workspace, is committed with the outcome of that record; every other record of the store
    stays as it was, and the counter of resolved tasks is their number. *)
Theorem reconcile_commits_resolved_tasks {quote : QuoteText} {C : Type} `{PollClient C} (ctl : bool) (ck : Clock)
    (cks : nat -> Clock) (answers : string -> poll) (s : Scheduler MemoryStore) (c : C) :
  reachable ctl (ms_state (sc_store s)) -> ar_Enabled (aa_Reconcile (sc_asyncAwait s)) = true -> ck_now ck <> 0 ->
  (forall c id, exists c', ClassifyReconcilePoll c id = Some (c', answers id)) ->
  exists s' c' st, ReconcileAwaitingReports ck cks (fun _ s => s) s c = Some (s', c', (st, None))
    /\ (forall id, s_Tasks (ms_state (sc_store s')) !! id =
          (fun r => if bool_decide (id ∈ (fun r => tk_TaskID (tr_Task r)) <$> listed ck s)
                    then reconciled (ck_now ck) answers r else r) <$> s_Tasks (ms_state (sc_store s)) !! id)
    /\ rs_TerminalByPoll st = resolvedByPoll (ck_now ck) answers (listed ck s).
Proof.
  intros Hs Hen Hnow Hans. destruct (listed_awaits ctl ck s Hs) as [Haw Hnd].
  destruct (reconcileLoop_effect ctl cks (ck_now ck) answers Hnow Hans (listed ck s) 0 s c zeroCycleStats Hs Haw Hnd)
    as (s1 & c1 & st1 & E & HT & HP).
  unfold ReconcileAwaitingReports. rewrite Hen. cbn [negb]; cbn zeta.
  change (ListAwaitingReport (ck_env ck) (sc_store s) (ck_now ck) (ar_BatchSize (aa_Reconcile (sc_asyncAwait s))))
    with (@Ok SchedulerError _ (listed ck s)). cbv match. rewrite E.
  unfold onStore, RecordAsyncReconcileStats, MemoryStore_QueueStore. cbn.
  eexists _, c1, st1. split; [done|]. split; [|exact HP]. intros id. rewrite <-HT. cbn. f_equal.
  unfold recordAsyncReconcileStats. by repeat case_match.
Qed.

(** A task that awaits the report of a remote task which has succeeded. *)
Definition demoAwait : AsyncAwaitConfig :=
  normalizeAsyncAwaitConfig (mkAsyncAwaitConfig (60 * Second) "" TaskStateFailed
    (mkAsyncAwaitReconcileConfig true (5 * Second) 16 f64_0_2 "")).
Definition demoReconciler : Scheduler MemoryStore :=
  demoClient <| sc_store := mkMemoryStore demoAwaiting |> <| sc_asyncAwait := demoAwait |>.
Definition demoAnswer : any_map := <["answer" := AnyInt 42]> ∅.
Definition demoRemote (id : string) : A2ATaskRecord :=
  zeroA2ARecord <| ac_TaskID := id |> <| ac_Status := StatusSucceeded |> <| ac_Result := demoAnswer |>.
#[local] Instance demoPeer : PollClient unit :=
  {| pc_Status c id := Some (c, (demoRemote id, None)); pc_Result c id := Some (c, (demoRemote id, None)) |}.
Definition demoAnswers (id : string) : poll :=
  match ClassifyReconcilePoll tt id with
  | Some (_, p) => p
  | None => (ReconcilePollClassificationPending, zeroA2ARecord, None)
  end.

Lemma demoPeer_answers c id : exists c', ClassifyReconcilePoll c id = Some (c', demoAnswers id).
Proof. exists tt. destruct c. unfold demoAnswers, ClassifyReconcilePoll. cbn. by case_match. Qed.

Definition demoCycle : option (Scheduler MemoryStore * unit * (ReconcileCycleStats * option SchedulerError)) :=
  ReconcileAwaitingReports (quote := plain_quote) (demoClock (t0 + Second)) (fun _ => demoClock (t0 + Second)) (fun _ s => s)
    demoReconciler tt.

(** The cycle evaluated: the task has succeeded with the answer of the peer. *)
Lemma demoCycle_commits :
  match demoCycle with
  | Some (s, _, (st, None)) =>
      match s_Tasks (ms_state (sc_store s)) !! "a" with
      | Some r => (tr_State r, tr_Result r, tr_ResolutionSource r, rs_TerminalByPoll st)
                  = (TaskStateSucceeded, demoAnswer, AsyncResolutionSourceReconcilePoll, 1)
      | None => False
      end
  | _ => False
  end.
Proof. vm_compute. reflexivity. Qed.

Lemma reconcile_commits_resolved_tasks_witness :
  exists s' st, demoCycle = Some (s', tt, (st, None))
    /\ s_Tasks (ms_state (sc_store s')) !! "b" = s_Tasks demoAwaiting !! "b"
    /\ rs_TerminalByPoll st = resolvedByPoll (quote := plain_quote) (t0 + Second) demoAnswers
                                (listed (demoClock (t0 + Second)) demoReconciler).
Proof.
  destruct (reconcile_commits_resolved_tasks (quote := plain_quote) false (demoClock (t0 + Second))
    (fun _ => demoClock (t0 + Second)) demoAnswers demoReconciler tt) as (s' & [] & st & E & Ht & Hn).
  - exact demoAwaiting_reachable.
  - reflexivity.
  - discriminate.
  - exact demoPeer_answers.
  - exists s', st. split; [exact E|]. split; [|exact Hn]. rewrite Ht. by destruct (s_Tasks _ !! "b").
Defined.

Lemma reconcile_cycle_refines_board_witness :
  exists s' c' st err, ReconcileAwaitingReports (quote := plain_quote) (demoClock (t0 + Second)) (fun _ => demoClock (t0 + Second))
      (interference (fun _ => demoCalls)) demoReconciler tt = Some (s', c', (st, err))
    /\ reachable false (ms_state (sc_store s')) /\ rs_PollTotal st <= 16.
Proof.
  destruct (ReconcileAwaitingReports (quote := plain_quote) (demoClock (t0 + Second)) (fun _ => demoClock (t0 + Second))
      (interference (fun _ => demoCalls)) demoReconciler tt) as [[[s' c'] [st err]]|] eqn:E.
  - exists s', c', st, err. split; [done|].
    destruct (reconcile_cycle_refines_board (quote := plain_quote) false (demoClock (t0 + Second))
      (fun _ => demoClock (t0 + Second)) (fun _ => demoCalls) demoReconciler s' tt c' st err) as (H1 & _ & _ & H2 & _).
    + exact demoAwaiting_reachable.
    + exact E.
    + split; [exact H1 | exact H2].
  - exfalso. vm_compute in E. discriminate E.
Defined.

(** No commit of the adapter names a workspace; the one of a task whose attempt has a
    workspace is refused, cycle after cycle. *)
Lemma bound_task_never_reconciled {quote : QuoteText} now answers r a :
  currentAttempt r = Some a -> at_WorkspaceProvenance a <> None -> reconciled now answers r = r.
Proof.
  intros Ha Hw. apply reconciled_none. unfold polledCommit. rewrite Ha.
  destruct (answers _) as [[[] t] er]; try done. rewrite (bool_decide_eq_true_2 _ Hw). by rewrite orb_true_r.
Qed.

(** ** The delay between cycles *)

(** Rounding does not pass an exact integer. *)
Definition at_most (m e z : Z) : Prop := if 0 <=? e then m * 2 ^ e <= z else m <= z * 2 ^ (- e).

Lemma at_most_log2 m e z : 0 < m -> 0 <= z < 2 ^ 53 -> at_most m e z -> Z.log2 m + e <= 52.
Proof.
  intros Hm Hz Hle. unfold at_most in Hle.
  assert (Hlz : Z.log2 z <= 52) by (change 52 with (Z.log2 (2 ^ 53 - 1)); apply Z.log2_le_mono; lia).
  destruct (Z.leb_spec 0 e).
  - pose proof (Z.log2_mul_pow2 m e Hm ltac:(lia)) as E. apply Z.log2_le_mono in Hle. lia.
  - assert (0 < z) by (destruct (Z.eq_dec z 0) as [->|]; lia).
    pose proof (Z.log2_mul_pow2 z (- e) ltac:(lia) ltac:(lia)) as E. apply Z.log2_le_mono in Hle. lia.
Qed.

(** The nearest integer to [m / 2^sh] is not above an integer that [m / 2^sh] is not above. *)
Lemma nearest_le m sh y (q := m / 2 ^ sh) (rem := m mod 2 ^ sh) (half := 2 ^ (sh - 1)) :
  0 < sh -> m <= y * 2 ^ sh ->
  (if rem <? half then q else if half <? rem then q + 1 else if Z.even q then q else q + 1) <= y.
Proof.
  intros Hsh Hle. assert (0 < 2 ^ sh) by (apply pow2_pos; lia). assert (0 < half) by (apply pow2_pos; lia).
  assert (m = 2 ^ sh * q + rem) by (apply Z.div_mod; lia). assert (0 <= rem < 2 ^ sh) by (apply Z.mod_pos_bound; lia).
  assert (Hq : q <= y) by nia. destruct (Z.eq_dec q y) as [E|]; [|repeat case_match; lia].
  assert (rem = 0) by nia. case_match eqn:E1; [lia|]. apply Z.ltb_ge in E1. lia.
Qed.

Lemma f64_round_le m e z :
  0 < m -> 0 <= z < 2 ^ 53 -> at_most m e z -> f64_ltb (FFin z 0) (f64_round m e) = false.
Proof.
  intros Hm Hz Hle. pose proof (at_most_log2 m e z Hm Hz Hle) as Hlog. unfold at_most in Hle.
  unfold f64_round. destruct (Z.eqb_spec m 0); [lia|]. rewrite Z.abs_eq, Z.sgn_pos by lia.
  pose proof (Z.log2_nonneg m) as Hl0. set (sh := Z.max _ _). destruct (Z.leb_spec sh 0) as [Hsh|Hsh]; cbn [fst snd].
  { destruct (Z.leb_spec 1024 (Z.log2 m + e)); [lia|]. apply Z.ltb_ge. rewrite Z.mul_1_l. destruct (Z.leb_spec 0 e).
    - rewrite Z.min_l, Z.sub_diag, Z.sub_0_r by lia. lia.
    - rewrite Z.min_r, Z.sub_diag by lia. replace (0 - e) with (- e) by lia. lia. }
  destruct (Z.leb_spec 0 e) as [He|He]; [lia|].
  assert (HE : e + sh <= 0) by lia. set (q := if _ <? _ then _ else _).
  assert (Hq : q <= z * 2 ^ (- (e + sh))).
  { apply nearest_le; [done|]. rewrite <-Z.mul_assoc, <-Z.pow_add_r by lia. by replace (- (e + sh) + sh) with (- e) by lia. }
  clearbody q. destruct (Z.leb_spec 1024 (Z.log2 q + (e + sh))) as [Hbig|_].
  - exfalso. assert (Z.log2 q <= Z.log2 (z * 2 ^ (- (e + sh)))) by (by apply Z.log2_le_mono).
    destruct (Z.eq_dec z 0) as [->|]; [cbn in *; lia|]. rewrite Z.log2_mul_pow2 in * by lia.
    assert (Z.log2 z <= 52) by (change 52 with (Z.log2 (2 ^ 53 - 1)); apply Z.log2_le_mono; lia). lia.
  - apply Z.ltb_ge. rewrite Z.mul_1_l, Z.min_r, Z.sub_diag by lia. replace (0 - (e + sh)) with (- (e + sh)) by lia. lia.
Qed.

(** The width of the jitter is at most the interval, whatever the ratio. *)
Lemma jitter_width b ratio :
  0 < b < 2 ^ 53 -> f64_leb ratio f64_zero = false ->
  f64_to_i64 (f64_mul (f64_of_Z b) (if f64_ltb f64_one ratio then f64_one else ratio)) <= b.
Proof.
  intros Hb Hpos. rewrite f64_of_Z_exact by lia.
  assert (forall m e, 0 < m -> at_most m e 1 -> f64_to_i64 (f64_mul (FFin b 0) (FFin m e)) <= b) as Hfin.
  { intros m e Hm Hle. apply f64_to_i64_le; [lia|]. apply f64_round_le; [nia|lia|]. unfold at_most in *. rewrite Z.add_0_l.
    case_match; [rewrite <-Z.mul_assoc|]; nia. }
  destruct (f64_ltb f64_one ratio) eqn:Hone; [by apply Hfin|].
  destruct ratio as [m e|[]|]; [|discriminate Hpos|discriminate Hone|change (min_i64 <= b); unfold min_i64; lia].
  apply negb_false_iff, Z.ltb_lt in Hpos. apply Z.ltb_ge in Hone. unfold at_most in *. apply Hfin.
  - assert (0 < 2 ^ (e - Z.min 0 e)) by (apply pow2_pos; lia). nia.
  - destruct (Z.leb_spec 0 e); [rewrite Z.min_l in Hone by lia | rewrite Z.min_r in Hone by lia].
    + rewrite Z.sub_diag, Z.sub_0_r in Hone. lia.
    + rewrite Z.sub_diag in Hone. replace (0 - e) with (- e) in Hone by lia. lia.
Qed.

(** C40: the next cycle is neither at once nor far away. For an interval (five seconds, when
    none is configured) below [2^53] ns the delay is positive and at most twice the interval,
    or a millisecond, whatever the jitter ratio is, a number out of range or no number
    included; without jitter it is the interval. *)
Theorem reconcile_delay_within_bounds {T : Type} (s : Scheduler T) :
  let cfg := aa_Reconcile (sc_asyncAwait s) in
  let interval := if ar_Interval cfg <=? 0 then 5 * Second else ar_Interval cfg in
  let d := (NextAsyncReconcileDelay s).2 in
  interval < 2 ^ 53 ->
  0 < d <= Z.max (2 * interval) Millisecond
  /\ (f64_leb (ar_JitterRatio cfg) f64_zero = true -> d = interval).
Proof.
  intros cfg interval d Hb. assert (Hpos : 0 < interval) by (unfold interval; destruct (Z.leb_spec (ar_Interval cfg) 0); [done|lia]).
  unfold d, NextAsyncReconcileDelay, reconcileJitteredInterval. cbn [snd fst]. fold cfg interval. clearbody interval.
  set (seed := stableRetryJitterSeed _ _ _). assert (Hseed : 0 <= seed) by (by apply Z.land_nonneg; right).
  clearbody seed. destruct (f64_leb _ _) eqn:Hr; [split; [lia|done]|]. split; [|done]. cbn zeta.
  pose proof (jitter_width interval (ar_JitterRatio cfg) (conj Hpos Hb) Hr) as HJ. fold cfg in HJ.
  set (J := f64_to_i64 _) in *. clearbody J. destruct (Z.leb_spec J 0); [lia|].
  rewrite (wrap_i64_id (2 * J + 1)) by (unfold min_i64, max_i64; lia).
  pose proof (Z.rem_bound_pos seed (2 * J + 1) Hseed ltac:(lia)) as Hrem.
  rewrite (wrap_i64_id (Z.rem _ _ - J)), (wrap_i64_id (interval + _)) by (unfold min_i64, max_i64; lia).
  unfold Millisecond. case_match; lia.
Qed.

Lemma reconcile_delay_within_bounds_witness :
  0 < (NextAsyncReconcileDelay demoReconciler).2 <= 10 * Second.
Proof. apply (reconcile_delay_within_bounds demoReconciler). reflexivity. Defined.
