(* ===== verification/ReportAgreementProps.v ===== *)
(** * Two ways to the same resolution: theorems

    A remote task that awaits its report is resolved by the report or by a poll, whichever
    comes first. The two carry the same outcome, so that the second one is a duplicate and
    not a conflict, unless the task was cancelled or failed without a message. *)
From S2P Require Import Prelude GoStrings GoNum GoText CoreTypes SchedulerTypes SchedulerState SchedulerBoard.
From S2P Require Import SchedulerOps SchedulerRefine SchedulerProps.
From S2P Require Import A2ATypes A2ARouting A2AServer A2AClient A2AAsync Invoke A2AAdapter ReconcileProps.

Local Open Scope bool_scope.
Local Open Scope string_scope.
Local Open Scope list_scope.
Local Open Scope Z_scope.

(** What [terminalCommitConflict] compares. *)
Definition outcomeOf (n : TerminalCommit) :=
  (tc_Status n, TrimSpace (tc_OutcomeKey n), TrimSpace (tc_ErrorMessage n), TrimSpace (tc_ErrorLayer n), tc_ErrorClass n).

Lemma conflict_outcome n1 n2 : outcomeOf n1 = outcomeOf n2 -> terminalCommitConflict n1 n2 = false.
Proof.
  unfold outcomeOf, terminalCommitConflict. intros [= -> -> -> -> ->].
  by rewrite bool_decide_eq_true_2, !str_eqb_refl by done.
Qed.

(** The outcome a remote record stands for. *)
Definition remoteOutcome (record : A2ATaskRecord) :=
  if decide (ac_Status record = StatusSucceeded)
  then (TaskStateSucceeded, TrimSpace (deriveAsyncOutcomeKey record), "", "", "")
  else (TaskStateFailed, TrimSpace (deriveAsyncOutcomeKey record), TrimSpace (ac_ErrorMessage record),
        orDefaultText ErrorLayerProtocol (TrimSpace (ac_A2AErrorLayer record)), orDefaultText ErrMCP (ac_ErrorClass record)).

(** A success, or a failure that says why. *)
Definition plainOutcome (record : A2ATaskRecord) : Prop :=
  ac_Status record = StatusSucceeded
  \/ (ac_Status record = StatusFailed /\ TrimSpace (ac_ErrorMessage record) <> "").

(** The normal form of a commit without a workspace. *)
Lemma normalize_outcome wall n :
  TrimSpace (tc_TaskID n) <> "" -> TrimSpace (tc_AttemptID n) <> "" ->
  tc_Status n = TaskStateSucceeded \/ tc_Status n = TaskStateFailed -> tc_WorkspaceProvenance n = None ->
  exists n', normalizeCommit wall n = Ok n'
    /\ tc_TaskID n' = TrimSpace (tc_TaskID n) /\ tc_AttemptID n' = TrimSpace (tc_AttemptID n)
    /\ tc_WorkspaceProvenance n' = None
    /\ outcomeOf n' = (tc_Status n,
         TrimSpace (if TrimSpace (tc_OutcomeKey n) =s? "" then defaultOutcomeKey (trimCommit n) else tc_OutcomeKey n),
         TrimSpace (tc_ErrorMessage n), TrimSpace (tc_ErrorLayer n), tc_ErrorClass n).
Proof.
  intros Ht Ha Hs Hw. unfold normalizeCommit. cbn zeta.
  change (tc_TaskID (trimCommit n)) with (TrimSpace (tc_TaskID n)).
  change (tc_AttemptID (trimCommit n)) with (TrimSpace (tc_AttemptID n)).
  change (tc_Status (trimCommit n)) with (tc_Status n).
  rewrite (proj2 (str_eqb_neq _ _) Ht), (proj2 (str_eqb_neq _ _) Ha), bool_decide_eq_true_2 by done. cbn [negb].
  change (tc_WorkspaceProvenance (trimCommit n <| tc_CommittedAt ::= or_now wall |>)) with (tc_WorkspaceProvenance n).
  rewrite Hw. cbn [mbind option_bind].
  change (tc_OutcomeKey (trimCommit n <| tc_CommittedAt ::= or_now wall |>)) with (TrimSpace (tc_OutcomeKey n)).
  destruct (TrimSpace (tc_OutcomeKey n) =s? ""); eexists; (split; [done|]); split_and!; try done;
    unfold outcomeOf; cbn; by rewrite !TrimSpace_idemp.
Qed.

(** The key the scheduler gives to a commit of a remote record is that of the report. *)
Lemma default_key_derived record n :
  plainOutcome record ->
  (ac_Status record = StatusSucceeded -> tc_Status n = TaskStateSucceeded /\ tc_Result n = ac_Result record) ->
  (ac_Status record = StatusFailed -> tc_Status n = TaskStateFailed /\ tc_ErrorMessage n = TrimSpace (ac_ErrorMessage record)) ->
  defaultOutcomeKey n = deriveAsyncOutcomeKey record.
Proof.
  intros [Hs|[Hf Hm]] H1 H2; unfold defaultOutcomeKey, deriveAsyncOutcomeKey.
  - destruct (H1 Hs) as [-> ->]. rewrite Hs. by rewrite !bool_decide_eq_true_2 by done.
  - destruct (H2 Hf) as [-> ->]. rewrite Hf. rewrite !bool_decide_eq_false_2 by done.
    by rewrite (proj2 (str_eqb_neq _ _) Hm).
Qed.

(** A commit of the adapter for a remote record. *)
Record commitsRecord (record : A2ATaskRecord) (n : TerminalCommit) : Prop := {
  cm_workspace : tc_WorkspaceProvenance n = None;
  cm_key : tc_OutcomeKey n = "" \/ tc_OutcomeKey n = TrimSpace (deriveAsyncOutcomeKey record);
  cm_succeeded : ac_Status record = StatusSucceeded ->
    tc_Status n = TaskStateSucceeded /\ tc_Result n = ac_Result record /\ tc_ErrorMessage n = "" /\ tc_ErrorLayer n = ""
    /\ tc_ErrorClass n = "";
  cm_failed : ac_Status record = StatusFailed ->
    tc_Status n = TaskStateFailed /\ tc_ErrorMessage n = TrimSpace (ac_ErrorMessage record)
    /\ tc_ErrorLayer n = orDefaultText ErrorLayerProtocol (TrimSpace (ac_A2AErrorLayer record))
    /\ tc_ErrorClass n = orDefaultText ErrMCP (ac_ErrorClass record)
}.

Lemma layer_trimmed l : TrimSpace (orDefaultText ErrorLayerProtocol (TrimSpace l)) = orDefaultText ErrorLayerProtocol (TrimSpace l).
Proof. unfold orDefaultText. case_match; [done | apply TrimSpace_idemp]. Qed.

Lemma commit_outcome wall record n :
  plainOutcome record -> commitsRecord record n -> TrimSpace (tc_TaskID n) <> "" -> TrimSpace (tc_AttemptID n) <> "" ->
  exists n', normalizeCommit wall n = Ok n' /\ outcomeOf n' = remoteOutcome record
    /\ tc_TaskID n' = TrimSpace (tc_TaskID n) /\ tc_AttemptID n' = TrimSpace (tc_AttemptID n)
    /\ tc_WorkspaceProvenance n' = None.
Proof.
  intros Hp [Hw Hk Hs Hf] Ht Ha.
  assert (tc_Status n = TaskStateSucceeded \/ tc_Status n = TaskStateFailed) as Hst
    by (destruct Hp as [E|[E _]]; [left; by apply Hs | right; by apply Hf]).
  destruct (normalize_outcome wall n Ht Ha Hst Hw) as (n' & E & E1 & E2 & E3 & Eo). exists n'. split_and!; try done.
  assert (defaultOutcomeKey (trimCommit n) = deriveAsyncOutcomeKey record) as Hd.
  { apply default_key_derived; [done|..]; intros E0; [destruct (Hs E0) as (? & ? & _) | destruct (Hf E0) as (? & Em & _)].
    - done.
    - split; [done|]. cbn. rewrite Em. apply TrimSpace_idemp. }
  assert (TrimSpace (if TrimSpace (tc_OutcomeKey n) =s? "" then defaultOutcomeKey (trimCommit n) else tc_OutcomeKey n)
          = TrimSpace (deriveAsyncOutcomeKey record)) as Hkey.
  { rewrite Hd. destruct Hk as [-> | ->]; [done|]. rewrite TrimSpace_idemp. destruct (TrimSpace (deriveAsyncOutcomeKey record) =s? ""); [reflexivity | apply TrimSpace_idemp]. }
  rewrite Eo, Hkey. unfold remoteOutcome. destruct Hp as [E0|[E0 Hm]]; rewrite E0.
  - destruct (Hs E0) as (-> & _ & -> & -> & ->). by rewrite decide_True, TrimSpace_empty by done.
  - destruct (Hf E0) as (-> & -> & -> & ->). rewrite decide_False by done. by rewrite TrimSpace_idemp, layer_trimmed.
Qed.

Section agreement.
Context {quote : QuoteText}.

Lemma poll_commits wall tid aid rid record now :
  plainOutcome record -> TrimSpace tid <> "" -> TrimSpace aid <> "" ->
  exists n, ReconcileTerminalCommitFromRecord wall tid aid rid record now = Ok n /\ commitsRecord record n
    /\ tc_TaskID n = TrimSpace tid /\ tc_AttemptID n = TrimSpace aid /\ tc_Source n = AsyncResolutionSourceReconcilePoll.
Proof.
  intros Hp Ht Ha. unfold ReconcileTerminalCommitFromRecord. cbn zeta.
  rewrite (proj2 (str_eqb_neq _ _) Ht), (proj2 (str_eqb_neq _ _) Ha). cbn.
  destruct Hp as [E|[E Hm]]; rewrite E; eexists; (split; [done|]); split_and!; try done; split; cbn; try (by left); try done.
  all: rewrite E; try done. intros _. unfold orDefaultText at 1. by rewrite (proj2 (str_eqb_neq _ _) Hm).
Qed.

Lemma report_commits wall now claimed record (aid := TrimSpace (at_AttemptID (ct_Attempt claimed))) :
  plainOutcome record -> aid <> "" -> TrimSpace (extractAttemptID record) = "" \/ TrimSpace (extractAttemptID record) = aid ->
  exists x, ExecutionFromAsyncReport now claimed (BuildAsyncReport wall record) = (x, None) /\ commitsRecord record (ax_Commit x)
    /\ tc_TaskID (ax_Commit x) = tk_TaskID (tr_Task (ct_Record claimed)) /\ tc_AttemptID (ax_Commit x) = aid.
Proof.
  intros Hp Ha Hx. unfold ExecutionFromAsyncReport. cbn zeta.
  change (re_AttemptID (BuildAsyncReport wall record)) with (TrimSpace (extractAttemptID record)).
  change (TrimSpace (at_AttemptID (ct_Attempt claimed))) with aid.
  assert (orDefaultText aid (TrimSpace (TrimSpace (extractAttemptID record))) = aid) as ->.
  { rewrite TrimSpace_idemp. unfold orDefaultText. destruct Hx as [-> | ->]; [done|]. by case_match. }
  rewrite (proj2 (str_eqb_neq _ _) Ha). change (re_Status (BuildAsyncReport wall record)) with (ac_Status record).
  destruct Hp as [E|[E Hm]]; rewrite E; eexists; (split; [done|]); split_and!; try done; split; cbn; try (by right); try done.
  all: rewrite E; try done. intros _. rewrite !TrimSpace_idemp. split_and!; try done.
  unfold orDefaultText. by rewrite (proj2 (str_eqb_neq _ _) Hm).
Qed.
End agreement.

(** ** The store *)

(** The first commit of the attempt of a task that awaits its report. *)
Lemma first_commit ctl wall s id r a n n' :
  sched_inv ctl s -> s_Tasks s !! id = Some r -> tr_State r = TaskStateAwaitingReport -> currentAttempt r = Some a ->
  at_WorkspaceProvenance a = None -> normalizeCommit wall n = Ok n' -> tc_TaskID n' = id ->
  tc_AttemptID n' = at_AttemptID a -> tc_WorkspaceProvenance n' = None ->
  exists s' cr ex r', commitAsyncReportTerminal wall s n = (s', Ok cr)
    /\ cr_Duplicate cr = false /\ cr_LateReport cr = false /\ s_Tasks s' !! id = Some r' /\ tr_State r' = tc_Status n'
    /\ s_TerminalCommits s' !! terminalCommitKey id (at_AttemptID a) = Some ex /\ outcomeOf ex = outcomeOf n'.
Proof.
  intros Hinv Hr Hst Ha Hw En E1 E2 E3. destruct (normalizeCommit_wf _ _ _ En) as ([Hs _ _ _ _] & _).
  unfold commitAsyncReportTerminal. rewrite En. cbn zeta. set (m := if tc_Source n' =s? "" then _ else n').
  assert (tc_TaskID m = id /\ tc_AttemptID m = at_AttemptID a /\ tc_Status m = tc_Status n'
          /\ tc_WorkspaceProvenance m = None /\ outcomeOf m = outcomeOf n')
    as (F1 & F2 & F3 & F4 & F5) by (unfold m; by case_match). clearbody m.
  rewrite F1, Hr, F2, (current_uncommitted ctl (s_Tasks s) (s_Queue s) (s_TerminalCommits s) id r a (si_board _ _ Hinv) Hr Ha).
  rewrite bool_decide_eq_false_2 by congruence. rewrite Ha, Hw, F4. unfold workspaceProvenanceEqual.
  rewrite (bool_decide_eq_true_2 (None = None)) by done. rewrite bool_decide_eq_true_2 by done. cbn [negb].
  unfold applyTerminalCommit. rewrite Ha, F1, F2, str_eqb_refl. cbn [negb].
  rewrite <-F3 in Hs |- *. destruct Hs as [Es|Es]; rewrite Es; cbn zeta;
    destruct (tc_Source m =s? AsyncResolutionSourceReconcilePoll);
    eexists _, _, m, _; (split; [done|]); cbn; rewrite !lookup_insert_eq; split_and!; done.
Qed.

(** A second commit with the same outcome. *)
Lemma second_commit wall s id aid n n' ex r :
  s_Tasks s !! id = Some r -> s_TerminalCommits s !! terminalCommitKey id aid = Some ex -> normalizeCommit wall n = Ok n' ->
  tc_TaskID n' = id -> tc_AttemptID n' = aid -> outcomeOf ex = outcomeOf n' ->
  exists s' cr, commitAsyncReportTerminal wall s n = (s', Ok cr)
    /\ cr_Duplicate cr = true /\ cr_Conflict cr = false /\ board_of s' = board_of s.
Proof.
  intros Hr Hex En E1 E2 Eo. unfold commitAsyncReportTerminal. rewrite En. cbn zeta.
  set (m := if tc_Source n' =s? "" then _ else n').
  assert (tc_TaskID m = id /\ tc_AttemptID m = aid /\ outcomeOf m = outcomeOf n') as (F1 & F2 & F5)
    by (unfold m; by case_match). clearbody m.
  rewrite F1, Hr, F2, Hex, (conflict_outcome ex m) by congruence. cbn. by eexists _, _.
Qed.

(** C18: a report and a poll of one remote record agree. Let a task without a workspace await its
    report, and let its remote task succeed, or fail with a message. The report that the client
    builds of the remote record and a poll that answers with it both become commits of the
    attempt; in either order the first one takes effect, with the outcome of the
    remote record, and the second one is a duplicate without a conflict that leaves the
    board as it is. *)
Theorem report_and_poll_agree {quote : QuoteText} (ctl : bool) (s : schedulerState) (id : string) (r : TaskRecord)
    (a : Attempt) (claimed : ClaimedTask) (record : A2ATaskRecord) (rid : string) (w w1 w2 now now' : Time) :
  reachable ctl s -> s_Tasks s !! id = Some r -> tr_State r = TaskStateAwaitingReport -> currentAttempt r = Some a ->
  at_WorkspaceProvenance a = None -> ct_Record claimed = r -> ct_Attempt claimed = a -> plainOutcome record ->
  TrimSpace (extractAttemptID record) = "" \/ TrimSpace (extractAttemptID record) = at_AttemptID a ->
  exists x n,
    ExecutionFromAsyncReport now claimed (BuildAsyncReport w record) = (x, None)
    /\ ReconcileTerminalCommitFromRecord w id (at_AttemptID a) rid record now' = Ok n
    /\ forall first second, (first, second) = (ax_Commit x, n) \/ (first, second) = (n, ax_Commit x) ->
       exists s1 cr1 r1 s2 cr2,
         commitAsyncReportTerminal w1 s first = (s1, Ok cr1) /\ cr_Duplicate cr1 = false /\ cr_LateReport cr1 = false
         /\ s_Tasks s1 !! id = Some r1 /\ tr_State r1 = (remoteOutcome record).1.1.1.1
         /\ commitAsyncReportTerminal w2 s1 second = (s2, Ok cr2) /\ cr_Duplicate cr2 = true /\ cr_Conflict cr2 = false
         /\ board_of s2 = board_of s1.
Proof.
  intros Hs Hr Hst Ha Hw Er Ea Hp Hx. apply reachable_inv in Hs.
  destruct (stored_ids ctl s id r a Hs Hr Ha) as (Etid & Hid & Hne & Haid & Hane).
  destruct (report_commits w now claimed record) as (x & Ex & Cx & T1 & A1); rewrite ?Ea, ?Haid; try done.
  destruct (poll_commits w id (at_AttemptID a) rid record now') as (n & En & Cn & T2 & A2 & _); rewrite ?Hid, ?Haid; try done.
  rewrite Er, Etid in T1. rewrite Ea, Haid in A1. rewrite Hid in T2. rewrite Haid in A2.
  exists x, n. split_and!; try done.
  assert (forall first second, commitsRecord record first -> commitsRecord record second ->
    tc_TaskID first = id -> tc_TaskID second = id -> tc_AttemptID first = at_AttemptID a -> tc_AttemptID second = at_AttemptID a ->
    exists s1 cr1 r1 s2 cr2, commitAsyncReportTerminal w1 s first = (s1, Ok cr1) /\ cr_Duplicate cr1 = false
      /\ cr_LateReport cr1 = false /\ s_Tasks s1 !! id = Some r1 /\ tr_State r1 = (remoteOutcome record).1.1.1.1
      /\ commitAsyncReportTerminal w2 s1 second = (s2, Ok cr2) /\ cr_Duplicate cr2 = true /\ cr_Conflict cr2 = false
      /\ board_of s2 = board_of s1) as Hboth.
  { intros f g Cf Cg Tf Tg Af Ag.
    destruct (commit_outcome w1 record f Hp Cf) as (f' & Ef & Of & If & Jf & Wf); rewrite ?Tf, ?Af, ?Hid, ?Haid; try done.
    destruct (commit_outcome w2 record g Hp Cg) as (g' & Eg & Og & Ig & Jg & _); rewrite ?Tg, ?Ag, ?Hid, ?Haid; try done.
    rewrite Tf, Hid in If. rewrite Af, Haid in Jf. rewrite Tg, Hid in Ig. rewrite Ag, Haid in Jg.
    destruct (first_commit ctl w1 s id r a f f' Hs Hr Hst Ha Hw Ef If Jf Wf) as (s1 & cr1 & ex & r1 & C1 & D1 & L1 & R1 & S1 & X1 & O1).
    destruct (second_commit w2 s1 id (at_AttemptID a) g g' ex r1 R1 X1 Eg Ig Jg) as (s2 & cr2 & C2 & D2 & F2 & B2); [congruence|].
    exists s1, cr1, r1, s2, cr2. split_and!; try done. rewrite S1, <-Of. done. }
  intros f g [[= -> ->]|[= -> ->]]; apply Hboth; done.
Qed.

(** A task that awaits the report of a remote task which failed. *)
Definition demoFailed (message : string) : A2ATaskRecord :=
  zeroA2ARecord <| ac_TaskID := "r" |> <| ac_Status := StatusFailed |> <| ac_ErrorMessage := message |>.
Definition demoWaiting : ClaimedTask := mkClaimedTask demoAwaitingA demoAwaitingAttempt "" false.

Lemma demoAwaiting_a : s_Tasks demoAwaiting !! "a" = Some demoAwaitingA.
Proof. vm_compute. reflexivity. Qed.

Lemma report_and_poll_agree_witness :
  exists x n, ExecutionFromAsyncReport (quote := plain_quote) t0 demoWaiting (BuildAsyncReport t0 (demoFailed "no disk")) = (x, None)
    /\ ReconcileTerminalCommitFromRecord (quote := plain_quote) t0 "a" "a-attempt-1" "r" (demoFailed "no disk") t0 = Ok n
    /\ exists s1 cr1 s2 cr2, commitAsyncReportTerminal t0 demoAwaiting (ax_Commit x) = (s1, Ok cr1)
         /\ commitAsyncReportTerminal t0 s1 n = (s2, Ok cr2) /\ cr_Conflict cr2 = false.
Proof.
  destruct (report_and_poll_agree (quote := plain_quote) false demoAwaiting "a" demoAwaitingA demoAwaitingAttempt demoWaiting
    (demoFailed "no disk") "r" t0 t0 t0 t0 t0) as (x & n & Ex & En & H).
  - exact demoAwaiting_reachable.
  - exact demoAwaiting_a.
  - reflexivity.
  - reflexivity.
  - reflexivity.
  - reflexivity.
  - reflexivity.
  - right. split; [reflexivity | discriminate].
  - left. reflexivity.
  - exists x, n. split; [exact Ex|]. split; [exact En|].
    destruct (H (ax_Commit x) n) as (s1 & cr1 & r1 & s2 & cr2 & C1 & _ & _ & _ & _ & C2 & _ & F2 & _); [by left|].
    exists s1, cr1, s2, cr2. split; [exact C1|]. split; [exact C2 | exact F2].
Defined.

(** Does a poll after the report of the record count as a conflict? *)
Definition pollConflicts (record : A2ATaskRecord) : option bool :=
  let '(x, _) := ExecutionFromAsyncReport (quote := plain_quote) t0 demoWaiting (BuildAsyncReport t0 record) in
  match ReconcileTerminalCommitFromRecord (quote := plain_quote) t0 "a" "a-attempt-1" "r" record t0 with
  | Ok n =>
      match commitAsyncReportTerminal t0 (commitAsyncReportTerminal t0 demoAwaiting (ax_Commit x)).1 n with
      | (_, Ok cr) => Some (cr_Conflict cr)
      | (_, Err _) => None
      end
  | Err _ => None
  end.

(** A cancelled remote task, and one that fails without a message, conflict with themselves. *)
Example same_outcome_conflicts :
  pollConflicts <$> [demoFailed "no disk"; demoFailed "no disk" <| ac_Status := StatusCanceled |>; demoFailed ""]
  = [Some false; Some true; Some true].
Proof. vm_compute. reflexivity. Qed.
