(* ===== verification/Collab.v ===== *)
(** * Collaboration

    [orchestration/collab]: primitives.go executes the branches of a collaboration, one
    after the other, under an aggregation strategy and a failure policy, and retries a branch
    whose outcome says so; delegation.go hands one task to a remote peer through a mailbox
    bridge, with the same retries. The executors of the branches, the waits between
    attempts and the client are arguments: they act on a world of their own. *)
From S2P Require Import Prelude GoStrings GoNum GoText CoreTypes SchedulerTypes.
From S2P Require Import A2ATypes A2ARouting A2AServer A2AClient A2AAsync.
From S2P Require Import MailboxTypes MailboxStore MailboxFacade Invoke.

Local Open Scope bool_scope.
Local Open Scope string_scope.
Local Open Scope list_scope.
Local Open Scope Z_scope.

(** ** Names *)

Definition PrimitiveHandoff := "handoff".
Definition PrimitiveDelegation := "delegation".
Definition PrimitiveAggregation := "aggregation".
Definition AggregationAllSettled := "all_settled".
Definition AggregationFirstSuccess := "first_success".
Definition FailurePolicyFailFast := "fail_fast".
Definition FailurePolicyBestEffort := "best_effort".
Definition CollabPending := "pending".
Definition CollabRunning := "running".
Definition CollabSucceeded := "succeeded".
Definition CollabFailed := "failed".
Definition CollabSkipped := "skipped".
Definition CollabCanceled := "canceled".
Definition RetryOnTransportOnly := "transport_only".

(** A parser of a name: its normal form is one of [names]. *)
Definition parseName {quote : QuoteText} (what : string) (names : list string) (v : string) : result GoError string :=
  let n := lower_trim v in
  if bool_decide (n ∈ names) then Ok n else Err (ErrorString ("unsupported collaboration " +:+ what +:+ " " +:+ fmt_q v)).

Definition ParsePrimitive {quote : QuoteText} : string -> result GoError string :=
  parseName "primitive" [PrimitiveHandoff; PrimitiveDelegation; PrimitiveAggregation].
Definition ParseAggregationStrategy {quote : QuoteText} : string -> result GoError string :=
  parseName "aggregation strategy" [AggregationAllSettled; AggregationFirstSuccess].
Definition ParseFailurePolicy {quote : QuoteText} : string -> result GoError string :=
  parseName "failure policy" [FailurePolicyFailFast; FailurePolicyBestEffort].

Definition NormalizeStatus (v : string) : string :=
  let n := lower_trim v in
  if (n =s? "submitted") || (n =s? "pending") then CollabPending
  else if n =s? "running" then CollabRunning
  else if (n =s? "succeeded") || (n =s? "success") then CollabSucceeded
  else if n =s? "failed" then CollabFailed
  else if n =s? "skipped" then CollabSkipped
  else if (n =s? "canceled") || (n =s? "cancelled") then CollabCanceled
  else CollabFailed.

(** ** Retries *)

Record RetryConfig : Type := mkRetryConfig {
  ry_Enabled : bool;
  ry_MaxAttempts : Z;
  ry_BackoffInitial : Duration;
  ry_BackoffMax : Duration;
  ry_Multiplier : f64;
  ry_JitterRatio : f64;
  ry_RetryOn : string
}.
#[export] Instance eta_RetryConfig : Settable RetryConfig := fun r =>
  mkRetryConfig (ry_Enabled r) (ry_MaxAttempts r) (ry_BackoffInitial r) (ry_BackoffMax r) (ry_Multiplier r)
    (ry_JitterRatio r) (ry_RetryOn r).

Definition ValidateRetryConfig {quote : QuoteText} (cfg : RetryConfig) : result GoError unit :=
  let prefix := "composer.collab.retry." in
  require 0 <? ry_MaxAttempts cfg orelse ErrorString (prefix +:+ "max_attempts must be > 0");
  require 0 <? ry_BackoffInitial cfg orelse ErrorString (prefix +:+ "backoff_initial must be > 0");
  require ry_BackoffInitial cfg <=? ry_BackoffMax cfg
    orelse ErrorString (prefix +:+ "backoff_max must be >= " +:+ prefix +:+ "backoff_initial");
  require negb (f64_leb (ry_Multiplier cfg) f64_one) orelse ErrorString (prefix +:+ "multiplier must be > 1");
  require negb (f64_ltb (ry_JitterRatio cfg) f64_zero || f64_ltb f64_one (ry_JitterRatio cfg))
    orelse ErrorString (prefix +:+ "jitter_ratio must be in [0,1]");
  require lower_trim (ry_RetryOn cfg) =s? RetryOnTransportOnly
    orelse ErrorString (prefix +:+ "retry_on must be one of [" +:+ RetryOnTransportOnly +:+ "], got "
                        +:+ fmt_q (ry_RetryOn cfg));
  Ok tt.

Definition normalizeRetryConfig (cfg : RetryConfig) : RetryConfig :=
  let cfg := if ry_MaxAttempts cfg <=? 0 then cfg <| ry_MaxAttempts := 3 |> else cfg in
  let cfg := if ry_BackoffInitial cfg <=? 0 then cfg <| ry_BackoffInitial := 100 * Millisecond |> else cfg in
  let cfg := if ry_BackoffMax cfg <=? 0 then cfg <| ry_BackoffMax := 2 * Second |> else cfg in
  let cfg := if f64_leb (ry_Multiplier cfg) f64_zero then cfg <| ry_Multiplier := f64_two |> else cfg in
  let cfg := if f64_leb (ry_JitterRatio cfg) f64_zero && f64_leb f64_zero (ry_JitterRatio cfg)
             then cfg <| ry_JitterRatio := f64_0_2 |> else cfg in
  let cfg := cfg <| ry_RetryOn ::= lower_trim |> in
  if ry_RetryOn cfg =s? "" then cfg <| ry_RetryOn := RetryOnTransportOnly |> else cfg.

Definition overrideRetry (override out : RetryConfig) : RetryConfig :=
  let out := if ry_Enabled override then out <| ry_Enabled := true |> else out in
  let out := if 0 <? ry_MaxAttempts override then out <| ry_MaxAttempts := ry_MaxAttempts override |> else out in
  let out := if 0 <? ry_BackoffInitial override then out <| ry_BackoffInitial := ry_BackoffInitial override |> else out in
  let out := if 0 <? ry_BackoffMax override then out <| ry_BackoffMax := ry_BackoffMax override |> else out in
  let out := if f64_ltb f64_zero (ry_Multiplier override) then out <| ry_Multiplier := ry_Multiplier override |> else out in
  let out := if f64_ltb f64_zero (ry_JitterRatio override)
             then out <| ry_JitterRatio := ry_JitterRatio override |> else out in
  let v := TrimSpace (ToLower (ry_RetryOn override)) in
  if v =s? "" then out else out <| ry_RetryOn := v |>.

Definition resolveRetryConfig {quote : QuoteText} (base override : RetryConfig) : result GoError RetryConfig :=
  let out := overrideRetry override (normalizeRetryConfig base) in
  _ ←ₑ ValidateRetryConfig out; Ok out.

(** [math.Pow]. *)
Class MathPow : Type := math_pow : f64 -> f64 -> f64.

(** [fnv.New64a]. *)
Definition fnv64a (raw : string) : Z :=
  foldl fnv_step 14695981039346656037 (Stdlib.Strings.String.list_ascii_of_string raw).

Definition stableRetrySeed (parts : list string) (attempt : Z) : Z :=
  fnv64a (String.concat "" ((fun p => TrimSpace p +:+ "|") <$> parts) +:+ itoa attempt).

Definition stableRetryUnitFloat (seed : Z) : f64 :=
  let masked := f64_of_Z (Z.land seed (2 ^ 53 - 1)) in
  if f64_leb masked f64_zero then FFin 1 (-1) else f64_div masked (f64_of_Z (2 ^ 53 - 1)).

Definition RetryDelay {pow : MathPow} (cfg : RetryConfig) (failedAttempt : Z) (seedParts : list string) : Duration :=
  if failedAttempt <=? 0 then 0
  else
    let base := f64_mul (f64_of_Z (ry_BackoffInitial cfg)) (math_pow (ry_Multiplier cfg) (f64_of_Z (failedAttempt - 1))) in
    let max := f64_of_Z (ry_BackoffMax cfg) in
    let base := if f64_ltb max base then max else base in
    let base :=
      if f64_ltb f64_zero (ry_JitterRatio cfg) then
        let jitterBound := f64_mul base (ry_JitterRatio cfg) in
        let ratio := stableRetryUnitFloat (stableRetrySeed seedParts failedAttempt) in
        let offset := f64_mul (f64_sub (f64_mul ratio f64_two) f64_one) jitterBound in
        f64_max f64_zero (f64_add base offset)
      else base in
    f64_to_i64 (if f64_ltb max base then max else base).

(** ** Outcomes *)

Record CollabOutcome : Type := mkCollabOutcome {
  co_Status : string;
  co_Retryable : bool;
  co_Error : string;
  co_Payload : any_map
}.
#[export] Instance eta_CollabOutcome : Settable CollabOutcome := fun r =>
  mkCollabOutcome (co_Status r) (co_Retryable r) (co_Error r) (co_Payload r).

Definition plainStatus (st : string) : CollabOutcome := mkCollabOutcome st false "" ∅.

Definition shouldRetryOutcome (cfg : RetryConfig) (o : CollabOutcome) : bool :=
  ry_Enabled cfg && co_Retryable o && (ry_RetryOn cfg =s? RetryOnTransportOnly).

Definition withRetryPayload (o : CollabOutcome) (retryAttempts : Z) (exhausted : bool) : CollabOutcome :=
  if (retryAttempts <=? 0) && negb exhausted then o
  else
    let payload := <["collab_retry_attempts" := AnyInt retryAttempts]> (co_Payload o) in
    o <| co_Payload := if exhausted then <["collab_retry_exhausted" := AnyBool true]> payload else payload |>.

(** The outcome of a call that returned an error. *)
Definition withError (o : CollabOutcome) (err : option GoError) : CollabOutcome :=
  match err with
  | None => o
  | Some err =>
      let o := if TrimSpace (co_Error o) =s? "" then o <| co_Error := TrimSpace (ErrorText err) |> else o in
      if (co_Status o =s? "") || (co_Status o =s? CollabRunning) || (co_Status o =s? CollabPending)
      then o <| co_Status := CollabFailed |> else o
  end.

(** ** Aggregation *)

Record Config : Type := mkConfig {
  cg_Enabled : bool;
  cg_DefaultAggregation : string;
  cg_FailurePolicy : string;
  cg_Retry : RetryConfig
}.

Definition DefaultConfig : Config :=
  mkConfig false AggregationAllSettled FailurePolicyFailFast
    (normalizeRetryConfig (mkRetryConfig false 0 0 0 f64_zero f64_zero "")).

Definition ValidateConfig {quote : QuoteText} (cfg : Config) : result GoError unit :=
  _ ←ₑ ParseAggregationStrategy (cg_DefaultAggregation cfg);
  _ ←ₑ ParseFailurePolicy (cg_FailurePolicy cfg);
  ValidateRetryConfig (cg_Retry cfg).

Record BranchResult : Type := mkBranchResult {
  bs_ID : string;
  bs_Required : bool;
  bs_Outcome : CollabOutcome
}.

Record CollabResult : Type := mkCollabResult {
  cs_Primitive : string;
  cs_Strategy : string;
  cs_Policy : string;
  cs_Outcome : CollabOutcome;
  cs_Branches : list BranchResult
}.

Definition failing (o : CollabOutcome) : bool := (co_Status o =s? CollabFailed) || (co_Status o =s? CollabCanceled).

(** The failure of the whole that a failed branch stands for. *)
Definition failedBy (o : CollabOutcome) : CollabOutcome := mkCollabOutcome CollabFailed (co_Retryable o) (co_Error o) ∅.

(** The loop of [summarize] over the branches. *)
Fixpoint settle (hasSuccess allSkipped : bool) (branches : list BranchResult) : CollabOutcome :=
  match branches with
  | [] => plainStatus (if hasSuccess then CollabSucceeded else if allSkipped then CollabSkipped else CollabFailed)
  | b :: branches =>
      let o := bs_Outcome b in
      if co_Status o =s? CollabSucceeded then settle true false branches
      else if co_Status o =s? CollabSkipped then settle hasSuccess allSkipped branches
      else if failing o then failedBy o
      else settle hasSuccess false branches
  end.

Definition summarize (strategy : string) (branches : list BranchResult) : CollabOutcome :=
  if (strategy =s? AggregationFirstSuccess)
     && existsb (fun b => co_Status (bs_Outcome b) =s? CollabSucceeded) branches
  then plainStatus CollabSucceeded
  else settle false true branches.

Section execution.
Context {quote : QuoteText} {pow : MathPow}.
Context {W : Type}.

(** A timer, or the end of the context. *)
Context (timer : Duration -> W -> W * option GoError).

Definition waitWithContext (delay : Duration) (w : W) : W * option GoError :=
  if delay <=? 0 then (w, None) else timer delay w.

Abbreviation BranchExecutor := (W -> W * (CollabOutcome * option GoError)).

Record Branch : Type := mkBranch {
  bh_ID : string;
  bh_Required : bool;
  bh_Execute : option BranchExecutor
}.

Record CollabRequest : Type := mkCollabRequest {
  cq_Primitive : string;
  cq_Strategy : string;
  cq_Policy : string;
  cq_Retry : RetryConfig;
  cq_Aggregation : list Branch
}.

(** [remaining] attempts are left after the one with the number [attempt]. *)
Fixpoint branchAttempts (remaining : nat) (attempt retries : Z) (cfg : RetryConfig) (exec : BranchExecutor)
    (branchID : string) (w : W) : W * (CollabOutcome * Z * bool * option GoError) :=
  let '(w, (outcome, err)) := exec w in
  let outcome := withError outcome err in
  if negb (shouldRetryOutcome cfg outcome) then (w, (outcome, retries, false, err))
  else match remaining with
  | O => (w, (outcome, retries, true, err))
  | S remaining =>
      match waitWithContext (RetryDelay cfg attempt ["branch"; branchID]) w with
      | (w, Some waitErr) => (w, (outcome, retries, false, Some waitErr))
      | (w, None) => branchAttempts remaining (attempt + 1) (retries + 1) cfg exec branchID w
      end
  end.

Definition executeBranchWithRetry (cfg : RetryConfig) (exec : BranchExecutor) (branchID : string) (w : W)
    : W * (CollabOutcome * Z * bool * option GoError) :=
  branchAttempts (Z.to_nat (ry_MaxAttempts cfg - 1)) 1 0 cfg exec branchID w.

(** The outcome of one branch, as it is recorded. *)
Definition branchOutcome (cfg : RetryConfig) (b : Branch) (w : W) : W * CollabOutcome :=
  match bh_Execute b with
  | None => (w, mkCollabOutcome CollabFailed false "branch executor is nil" ∅)
  | Some exec =>
      let '(w, (outcome, retries, exhausted, err)) := executeBranchWithRetry cfg exec (TrimSpace (bh_ID b)) w in
      let outcome := withRetryPayload (withError outcome err) retries exhausted in
      (w, outcome <| co_Status ::= NormalizeStatus |>)
  end.

(** The loop over the branches: [Some] outcome ends it. *)
Definition decided (strategy policy : string) (b : Branch) (o : CollabOutcome) : option CollabOutcome :=
  match bh_Execute b with
  | None => if (policy =s? FailurePolicyFailFast) && bh_Required b then Some o else None
  | Some _ =>
      if (strategy =s? AggregationFirstSuccess) && (co_Status o =s? CollabSucceeded) then Some (plainStatus CollabSucceeded)
      else if (policy =s? FailurePolicyFailFast) && bh_Required b && failing o then Some (failedBy o)
      else None
  end.

Fixpoint runBranches (strategy policy : string) (cfg : RetryConfig) (done : list BranchResult) (branches : list Branch)
    (w : W) : W * (list BranchResult * CollabOutcome) :=
  match branches with
  | [] => (w, (done, summarize strategy done))
  | b :: branches =>
      let '(w, outcome) := branchOutcome cfg b w in
      let done := done ++ [mkBranchResult (TrimSpace (bh_ID b)) (bh_Required b) outcome] in
      match decided strategy policy b outcome with
      | Some out => (w, (done, out))
      | None => runBranches strategy policy cfg done branches w
      end
  end.

Definition resolveStrategy (cfg : Config) (req : CollabRequest) : result GoError string :=
  ParseAggregationStrategy (if TrimSpace (cq_Strategy req) =s? "" then cg_DefaultAggregation cfg else cq_Strategy req).

Definition resolvePolicy (cfg : Config) (req : CollabRequest) : result GoError string :=
  ParseFailurePolicy (if TrimSpace (cq_Policy req) =s? "" then cg_FailurePolicy cfg else cq_Policy req).

(** [collab.Execute]. *)
Definition CollabExecute (cfg : Config) (req : CollabRequest) (w : W) : W * result GoError CollabResult :=
  let plan :=
    primitive ←ₑ ParsePrimitive (cq_Primitive req);
    strategy ←ₑ resolveStrategy cfg req;
    policy ←ₑ resolvePolicy cfg req;
    retry ←ₑ resolveRetryConfig (cg_Retry cfg) (cq_Retry req);
    Ok (primitive, strategy, policy, retry) in
  match plan with
  | Err e => (w, Err e)
  | Ok (primitive, strategy, policy, retry) =>
      let finish outcome branches := Ok (mkCollabResult primitive strategy policy outcome branches) in
      match cq_Aggregation req with
      | [] => (w, finish (plainStatus CollabSucceeded) [])
      | branches =>
          if primitive =s? PrimitiveHandoff then (w, finish (plainStatus CollabSucceeded) [])
          else
            let '(w, (done, outcome)) := runBranches strategy policy retry [] branches w in
            (w, finish outcome done)
      end
  end.
End execution.
Arguments Branch : clear implicits.
Arguments CollabRequest : clear implicits.

(** ** Delegation *)

Inductive RetryEventType : Type :=
| RetryEventAttempt
| RetryEventSuccess
| RetryEventExhausted.

Record RetryEvent : Type := mkRetryEvent {
  rv_Type : RetryEventType;
  rv_Attempt : Z;
  rv_MaxAttempts : Z;
  rv_Delay : Duration;
  rv_RetryOn : string;
  rv_Retryable : bool;
  rv_ErrorMessage : string
}.

(** Where the bridge of an attempt comes from; [bp_save] is what the attempt did to it. *)
Class BridgeProvider (B T : Type) : Type := {
  bp_resolve : B -> B * result GoError (MailboxBridge T);
  bp_save : MailboxBridge T -> B -> B
}.

(** A provider that hands out one bridge. *)
#[export] Instance shared_bridge (T : Type) : BridgeProvider (MailboxBridge T) T := {|
  bp_resolve b := (b, Ok b);
  bp_save b _ := b
|}.

(** No provider: a fresh bridge for each attempt, which nobody else sees. The number of
    the attempt names the store. *)
#[export] Instance fresh_bridges {order : RangeOrder} (source : nat -> string) : BridgeProvider nat MailboxStore.MemoryStore := {|
  bp_resolve n := (S n, Ok (NewInMemoryMailboxBridge (source n)));
  bp_save _ n := n
|}.

Definition normalizeDelegationError (err : option GoError) (o : Outcome) : string :=
  match err with
  | Some err => TrimSpace (ErrorText err)
  | None =>
      match oc_Error o with
      | Some e => TrimSpace (ne_Message e)
      | None => ""
      end
  end.

Definition outcomeRetryable (o : Outcome) : bool :=
  match oc_Error o with Some e => ne_Retryable e | None => false end.

Section delegation.
Context {quote : QuoteText} {pow : MathPow} {mv : MapValue}.
Context {B T C : Type} `{BridgeProvider B T, MailboxStore T}.
Context (timer : Duration -> C -> C * option GoError).
Implicit Types (w : B) (c : C).

(** What the call of the bridge becomes. *)
Definition delegationOutcome (o : Outcome) (err : option GoError) : CollabOutcome :=
  match err with
  | Some _ => mkCollabOutcome CollabFailed (outcomeRetryable o) (normalizeDelegationError err o) ∅
  | None =>
      if bool_decide (oc_TerminalStatus o = StatusSucceeded) then mkCollabOutcome CollabSucceeded false "" (oc_Result o)
      else
        let status := TaskStatus_string (oc_TerminalStatus o) in
        mkCollabOutcome (NormalizeStatus status) (outcomeRetryable o)
          (orDefaultText ("a2a task status " +:+ fmt_q status) (normalizeDelegationError None o)) (oc_Result o)
  end.

Definition delegateSyncOnce `{InvokeClient C} (e : BridgeEnv) w c (req : InvokeRequest)
    : option (B * C * (CollabOutcome * option GoError)) :=
  match bp_resolve w with
  | (w, Err err) => Some (w, c, (mkCollabOutcome CollabFailed false (ErrorText err) ∅, Some err))
  | (w, Ok b) =>
      match InvokeSync e (fun m => m) b c req with
      | None => None
      | Some (b, c, (o, err)) => Some (bp_save b w, c, (delegationOutcome o err, err))
      end
  end.

Definition retryParts (kind workflowID teamID stepID taskID peerID : string) : list string :=
  kind :: (TrimSpace <$> [workflowID; teamID; stepID; taskID; peerID]).

Definition emitRetryEvent (observer : bool) (ev : RetryEvent) (log : list RetryEvent) : list RetryEvent :=
  if observer then log ++ [ev] else log.

(** [remaining] attempts are left after this one; [retryCount] came before it. *)
Fixpoint delegateSyncLoop `{InvokeClient C} (remaining : nat) (env : Z -> BridgeEnv) (policy : RetryConfig)
    (observer : bool) (attempt retryCount : Z) w c (log : list RetryEvent) (req : InvokeRequest)
    : option (B * C * list RetryEvent * (CollabOutcome * option GoError)) :=
  match delegateSyncOnce (env attempt) w c req with
  | None => None
  | Some (w, c, (outcome, callErr)) =>
      let event ty delay retryable message :=
        mkRetryEvent ty attempt (ry_MaxAttempts policy) delay (ry_RetryOn policy) retryable message in
      if negb (shouldRetryOutcome policy outcome) then
        let log := if (0 <? retryCount) && (co_Status outcome =s? CollabSucceeded)
                   then emitRetryEvent observer (event RetryEventSuccess 0 false "") log else log in
        Some (w, c, log, (withRetryPayload outcome retryCount false, callErr))
      else match remaining with
      | O =>
          let log := emitRetryEvent observer (event RetryEventExhausted 0 true (TrimSpace (co_Error outcome))) log in
          Some (w, c, log, (withRetryPayload outcome retryCount true, callErr))
      | S remaining =>
          let delay := RetryDelay policy attempt (retryParts "delegation_sync" (iq_WorkflowID req) (iq_TeamID req)
                                                    (iq_StepID req) (iq_TaskID req) (iq_PeerID req)) in
          let log := emitRetryEvent observer (event RetryEventAttempt delay true (TrimSpace (co_Error outcome))) log in
          match waitWithContext timer delay c with
          | (c, Some waitErr) => Some (w, c, log, (withRetryPayload outcome retryCount false, Some waitErr))
          | (c, None) => delegateSyncLoop remaining env policy observer (attempt + 1) (retryCount + 1) w c log req
          end
      end
  end.

Definition DelegateSyncWithRetry `{InvokeClient C} (env : Z -> BridgeEnv) (retry : RetryConfig) (observer : bool)
    w c (req : InvokeRequest) : option (B * C * list RetryEvent * (CollabOutcome * option GoError)) :=
  match resolveRetryConfig (cg_Retry DefaultConfig) retry with
  | Err err => Some (w, c, [], (mkCollabOutcome CollabFailed false (ErrorText err) ∅, Some err))
  | Ok policy =>
      delegateSyncLoop (Z.to_nat (ry_MaxAttempts policy - 1)) env policy observer 1 0 w c [] req
  end.

(** ** Asynchronous delegation *)

Record DelegationAsyncAck : Type := mkDelegationAsyncAck {
  dk_TaskID : string;
  dk_WorkflowID : string;
  dk_TeamID : string;
  dk_StepID : string;
  dk_PeerID : string
}.

Definition zeroDelegationAck : DelegationAsyncAck := mkDelegationAsyncAck "" "" "" "" "".

Definition shouldRetryAsyncSubmitError (policy : RetryConfig) (err : GoError) : bool :=
  let '(_, layer, _) := ClassifyError err in
  ry_Enabled policy && (ry_RetryOn policy =s? RetryOnTransportOnly) && (layer =s? ErrorLayerTransport).

Definition delegateAsyncOnce {S} `{InvokeAsyncClient C} (e : MailboxEnv) (wall : Time) (env : Z -> MailboxEnv) w c
    (req : AsyncRequest) (sink : option (ReportSink S)) : option (B * C * result GoError DelegationAsyncAck) :=
  match bp_resolve w with
  | (w, Err err) => Some (w, c, Err err)
  | (w, Ok b) =>
      match InvokeAsync e wall env b c req sink with
      | None => None
      | Some (b, c, (_, Some err)) => Some (bp_save b w, c, Err err)
      | Some (b, c, (ack, None)) =>
          Some (bp_save b w, c,
                Ok (mkDelegationAsyncAck (TrimSpace (ak_TaskID ack)) (TrimSpace (ak_WorkflowID ack))
                      (TrimSpace (ak_TeamID ack)) (TrimSpace (ak_StepID ack)) (TrimSpace (ak_PeerID ack))))
      end
  end.

Fixpoint delegateAsyncLoop {S} `{InvokeAsyncClient C} (remaining : nat) (e : Z -> MailboxEnv) (wall : Z -> Time)
    (env : Z -> MailboxEnv) (policy : RetryConfig) (observer : bool) (attempt : Z) w c (log : list RetryEvent)
    (req : AsyncRequest) (sink : option (ReportSink S))
    : option (B * C * list RetryEvent * result GoError DelegationAsyncAck) :=
  match delegateAsyncOnce (e attempt) (wall attempt) env w c req sink with
  | None => None
  | Some (w, c, res) =>
      let event ty delay retryable message :=
        mkRetryEvent ty attempt (ry_MaxAttempts policy) delay (ry_RetryOn policy) retryable message in
      match res with
      | Ok ack =>
          let log := if 1 <? attempt then emitRetryEvent observer (event RetryEventSuccess 0 false "") log else log in
          Some (w, c, log, Ok ack)
      | Err err =>
          if negb (shouldRetryAsyncSubmitError policy err) then Some (w, c, log, Err err)
          else match remaining with
          | O => Some (w, c, emitRetryEvent observer (event RetryEventExhausted 0 true (TrimSpace (ErrorText err))) log, Err err)
          | S remaining =>
              let delay := RetryDelay policy attempt (retryParts "delegation_async_submit" (sq_WorkflowID req)
                             (sq_TeamID req) (sq_StepID req) (sq_TaskID req) (sq_PeerID req)) in
              let log := emitRetryEvent observer (event RetryEventAttempt delay true (TrimSpace (ErrorText err))) log in
              match waitWithContext timer delay c with
              | (c, Some waitErr) => Some (w, c, log, Err waitErr)
              | (c, None) => delegateAsyncLoop remaining e wall env policy observer (attempt + 1) w c log req sink
              end
          end
      end
  end.

Definition DelegateAsyncWithRetry {S} `{InvokeAsyncClient C} (e : Z -> MailboxEnv) (wall : Z -> Time)
    (env : Z -> MailboxEnv) (retry : RetryConfig) (observer : bool) w c (req : AsyncRequest) (sink : option (ReportSink S))
    : option (B * C * list RetryEvent * result GoError DelegationAsyncAck) :=
  match resolveRetryConfig (cg_Retry DefaultConfig) retry with
  | Err err => Some (w, c, [], Err err)
  | Ok policy =>
      delegateAsyncLoop (Z.to_nat (ry_MaxAttempts policy - 1)) e wall env policy observer 1 w c [] req sink
  end.
End delegation.

(** ** Without retries and without a bridge of one's own *)

Definition noRetry : RetryConfig := mkRetryConfig false 0 0 0 f64_zero f64_zero "".

Definition DelegateSync {quote : QuoteText} {pow : MathPow} {mv : MapValue} {order : RangeOrder} `{InvokeClient C}
    (source : nat -> string) (timer : Duration -> C -> C * option GoError) (env : Z -> BridgeEnv) (c : C)
    (req : InvokeRequest) : option (nat * C * list RetryEvent * (CollabOutcome * option GoError)) :=
  DelegateSyncWithRetry (H := fresh_bridges source) timer env noRetry false 0%nat c req.

Definition DelegateAsync {quote : QuoteText} {pow : MathPow} {mv : MapValue} {order : RangeOrder} {S} `{InvokeAsyncClient C}
    (source : nat -> string) (timer : Duration -> C -> C * option GoError) (e : Z -> MailboxEnv) (wall : Z -> Time)
    (env : Z -> MailboxEnv) (c : C) (req : AsyncRequest) (sink : option (ReportSink S))
    : option (nat * C * list RetryEvent * result GoError DelegationAsyncAck) :=
  DelegateAsyncWithRetry (H := fresh_bridges source) timer e wall env noRetry false 0%nat c req sink.
