(* ===== verification/CollabProps.v ===== *)
(** * Collaboration: theorems

    What the branches of a collaboration make of the whole, how often and how late a
    branch or a delegation is retried, and what the mailbox remembers of a retried delegation. *)
From S2P Require Import Prelude GoStrings GoNum GoText CoreTypes SchedulerTypes.
From S2P Require Import A2ATypes A2ARouting A2AServer A2AClient A2AAsync.
From S2P Require Import MailboxTypes MailboxState MailboxStore MailboxFacade Invoke Collab.

Local Open Scope bool_scope.
Local Open Scope string_scope.
Local Open Scope list_scope.
Local Open Scope Z_scope.

(** ** Aggregation *)

Definition succeeded (r : BranchResult) : Prop := co_Status (bs_Outcome r) = CollabSucceeded.
Definition failed (r : BranchResult) : Prop := failing (bs_Outcome r) = true.

(** What a recorded branch decides for the whole. *)
Definition decision (strategy policy : string) (r : BranchResult) : option CollabOutcome :=
  let o := bs_Outcome r in
  if (strategy =s? AggregationFirstSuccess) && (co_Status o =s? CollabSucceeded) then Some (plainStatus CollabSucceeded)
  else if (policy =s? FailurePolicyFailFast) && bs_Required r && failing o then Some (failedBy o)
  else None.

Definition undecided (strategy policy : string) (r : BranchResult) : Prop := decision strategy policy r = None.

Section aggregation.
Context {quote : QuoteText} {pow : MathPow} {W : Type} (timer : Duration -> W -> W * option GoError).
Implicit Types (b : Branch W) (w : W).

Definition keyOf (r : BranchResult) : string * bool := (bs_ID r, bs_Required r).
Definition keyOfBranch b : string * bool := (TrimSpace (bh_ID b), bh_Required b).

Lemma decided_decision strategy policy cfg b w w' o :
  branchOutcome timer cfg b w = (w', o) ->
  decided strategy policy b o = decision strategy policy (mkBranchResult (TrimSpace (bh_ID b)) (bh_Required b) o).
Proof.
  unfold branchOutcome, decided, decision. cbn. destruct (bh_Execute b) as [exec|]; [done|]. intros [= _ <-]. cbn.
  rewrite andb_false_r. by rewrite andb_true_r.
Qed.

Lemma runBranches_spec strategy policy cfg done branches w w' res out :
  runBranches timer strategy policy cfg done branches w = (w', (res, out)) ->
  exists new, res = done ++ new /\ keyOf <$> new = keyOfBranch <$> take (length new) branches
    /\ ((length new = length branches /\ Forall (undecided strategy policy) new /\ out = summarize strategy res)
        \/ exists l r, new = l ++ [r] /\ Forall (undecided strategy policy) l /\ decision strategy policy r = Some out).
Proof.
  revert done w. induction branches as [|b branches IH]; intros done w; cbn.
  { intros [= <- <- <-]. exists []. rewrite app_nil_r. split_and!; [done..|]. left. by split_and!. }
  destruct (branchOutcome timer cfg b w) as [w1 o] eqn:Eo. rewrite (decided_decision strategy policy cfg b w w1 o Eo).
  set (r := mkBranchResult _ _ o). destruct (decision strategy policy r) as [out'|] eqn:Ed.
  - intros [= <- <- <-]. exists [r]. split_and!; [done..|]. right. exists [], r. by split_and!.
  - intros E. apply IH in E as (new & -> & Hk & Hcase). exists (r :: new).
    split_and!; [by rewrite <-app_assoc | cbn; by rewrite Hk|]. destruct Hcase as [(Hl & Hu & ->)|(l & r' & -> & Hu & Hd)].
    + left. split_and!; [cbn; lia | by constructor | by rewrite <-app_assoc].
    + right. exists (r :: l), r'. split_and!; [done | by constructor | done].
Qed.
End aggregation.

Lemma failing_not_succeeded o : failing o = true -> co_Status o <> CollabSucceeded.
Proof. intros Hf E. unfold failing in Hf. by rewrite E in Hf. Qed.

(** The loop of [summarize]. *)
Lemma settle_succeeded l hs sk :
  (hs = true -> sk = false) ->
  co_Status (settle hs sk l) = CollabSucceeded <-> (hs = true \/ Exists succeeded l) /\ Forall (fun r => ~ failed r) l.
Proof.
  revert hs sk. induction l as [|r l IH]; intros hs sk Hsk; cbn.
  - rewrite Exists_nil. destruct hs, sk; cbn; naive_solver.
  - rewrite Exists_cons, Forall_cons. unfold succeeded at 1, failed at 1.
    destruct (str_eqb_spec (co_Status (bs_Outcome r)) CollabSucceeded) as [Es|Es].
    { rewrite IH by done. unfold failing. rewrite Es. cbn. naive_solver. }
    destruct (str_eqb_spec (co_Status (bs_Outcome r)) CollabSkipped) as [Ek|Ek].
    { rewrite IH by done. unfold failing. rewrite Ek. cbn. naive_solver. }
    destruct (failing (bs_Outcome r)) eqn:Ef; [cbn; naive_solver|]. rewrite IH by done. naive_solver.
Qed.

Lemma summarize_succeeded strategy l :
  co_Status (summarize strategy l) = CollabSucceeded
  <-> Exists succeeded l /\ (strategy = AggregationFirstSuccess \/ Forall (fun r => ~ failed r) l).
Proof.
  unfold summarize. destruct (str_eqb_spec strategy AggregationFirstSuccess) as [E|E]; cbn [andb].
  - destruct (existsb _ l) eqn:Ex.
    + apply existsb_exists in Ex as (r & Hin & Hr%str_eqb_eq). split; [|done]. intros _. split; [|by left].
      apply Exists_exists. exists r. split; [by apply list_elem_of_In | done].
    + rewrite settle_succeeded by done. split; [naive_solver|]. intros [Hs _]. exfalso.
      apply Exists_exists in Hs as (r & Hin & Hr). assert (existsb (fun b => co_Status (bs_Outcome b) =s? CollabSucceeded) l = true).
      { apply existsb_exists. exists r. split; [by apply list_elem_of_In | by apply str_eqb_eq]. }
      congruence.
  - rewrite settle_succeeded by done. naive_solver.
Qed.

(** The outcome of the recorded branches. *)
Lemma recorded_outcome strategy policy l r out :
  Forall (undecided strategy policy) l -> decision strategy policy r = Some out ->
  co_Status out = CollabSucceeded
  <-> Exists succeeded (l ++ [r]) /\ (strategy = AggregationFirstSuccess \/ Forall (fun r => ~ failed r) (l ++ [r])).
Proof.
  intros Hu. unfold decision. destruct (str_eqb_spec (co_Status (bs_Outcome r)) CollabSucceeded) as [Es|Es].
  - destruct (str_eqb_spec strategy AggregationFirstSuccess) as [E|E]; cbn [andb].
    + intros [= <-]. split; [|done]. intros _. split; [|by left]. apply Exists_app. right. by constructor.
    + case_match eqn:Ec; [|done]. exfalso. apply andb_true_iff in Ec as [_ Hf]. by apply failing_not_succeeded in Hf.
  - rewrite andb_false_r. case_match eqn:Ec; [|done]. intros [= <-]. apply andb_true_iff in Ec as [_ Hf]. cbn.
    split; [done|]. intros [Hex [E|Hall]].
    + exfalso. apply Exists_app in Hex as [Hex|Hex]; [|by apply Exists_cons in Hex as [?|?%Exists_nil]].
      apply Exists_exists in Hex as (r' & Hin & Hr'). rewrite Forall_forall in Hu. apply Hu in Hin.
      unfold undecided, decision in Hin. rewrite Hr', E in Hin. done.
    + exfalso. apply Forall_app in Hall as [_ [Hn _]%Forall_cons]. by apply Hn.
Qed.

(** C29: the branches decide the collaboration. When a collaboration with branches that is not a
    handoff returns a result, the recorded branches are a prefix of the requested ones, in
    their order. Only the last of them can be decisive (a success under [first_success], or a
    failure of a required branch under [fail_fast]), and if branches are left
    over it is. The whole has succeeded exactly when some recorded branch has
    and either the strategy is [first_success] or no recorded branch has failed. *)
Theorem branches_decide_collaboration {quote : QuoteText} {pow : MathPow} {W : Type}
    (timer : Duration -> W -> W * option GoError) (cfg : Config) (req : CollabRequest W) (w w' : W) (res : CollabResult) :
  CollabExecute timer cfg req w = (w', Ok res) -> cq_Aggregation req <> [] -> cs_Primitive res <> PrimitiveHandoff ->
  let l := cs_Branches res in
  let undecided := undecided (cs_Strategy res) (cs_Policy res) in
  keyOf <$> l = keyOfBranch <$> take (length l) (cq_Aggregation req)
  /\ (forall i r, l !! i = Some r -> ~ undecided r -> S i = length l)
  /\ ((length l < length (cq_Aggregation req))%nat -> exists r, last l = Some r /\ ~ undecided r)
  /\ (co_Status (cs_Outcome res) = CollabSucceeded
      <-> Exists succeeded l /\ (cs_Strategy res = AggregationFirstSuccess \/ Forall (fun r => ~ failed r) l)).
Proof.
  intros E Hne Hp. unfold CollabExecute in E.
  destruct (_ ←ₑ ParsePrimitive _; _) as [[[[primitive strategy] policy] retry]|e]; [|done].
  destruct (cq_Aggregation req) as [|b branches]; [done|].
  destruct (str_eqb_spec primitive PrimitiveHandoff) as [Eh|Eh]; [by injection E as _ <-|].
  destruct (runBranches timer strategy policy retry [] (b :: branches) w) as [w1 [done_ out]] eqn:Er.
  injection E as <- <-. cbn [cs_Branches cs_Strategy cs_Policy cs_Outcome]. clear Hp Hne.
  apply runBranches_spec in Er as (l & -> & Hk & Hcase). cbn [app]. cbn zeta. split; [done|].
  destruct Hcase as [(Hl & Hu & ->)|(l0 & r & -> & Hu & Hd)].
  - split_and!; [|lia|apply summarize_succeeded]. intros i r Hi Hn. exfalso. apply Hn.
    rewrite Forall_forall in Hu. apply Hu. by eapply list_elem_of_lookup_2.
  - split_and!; [| |by apply (recorded_outcome strategy policy)].
    + intros i r' Hi Hn. rewrite length_app. cbn. destruct (decide (i < length l0)%nat) as [Hlt|Hge].
      * exfalso. rewrite lookup_app_l in Hi by done. rewrite Forall_forall in Hu. apply Hn, Hu. by eapply list_elem_of_lookup_2.
      * apply lookup_lt_Some in Hi. rewrite length_app in Hi. cbn in Hi. lia.
    + intros _. exists r. rewrite last_snoc. split; [done|]. unfold undecided. by rewrite Hd.
Qed.

(** A demonstration: three branches under [all_settled]; the second one, which is required, fails. *)
#[local] Instance demoQuote : QuoteText := plain_quote.
(** The delays of the demonstrations do not grow. *)
#[local] Instance flat_pow : MathPow := fun _ _ => f64_one.

Definition demoTimer {W} (_ : Duration) (w : W) : W * option GoError := (w, None).
Definition answering {W} (o : CollabOutcome) : option (W -> W * (CollabOutcome * option GoError)) := Some (fun w => (w, (o, None))).
Definition demoBranches : list (Branch unit) :=
  [mkBranch "a" true (answering (plainStatus " Success ")); mkBranch "b" true (answering (mkCollabOutcome "failed" false "no" ∅));
   mkBranch "c" false (answering (plainStatus "succeeded"))].
Definition demoCollab (strategy policy : string) : result GoError CollabResult :=
  (CollabExecute demoTimer DefaultConfig
     (mkCollabRequest "aggregation" strategy policy (mkRetryConfig false 0 0 0 f64_zero f64_zero "") demoBranches) tt).2.

Example collaborations :
  (fun sp : string * string => match demoCollab sp.1 sp.2 with
     Ok r => Some (co_Status (cs_Outcome r), co_Error (cs_Outcome r), length (cs_Branches r)) | Err _ => None end)
  <$> [("", ""); ("first_success", ""); ("all_settled", "best_effort"); ("any", "")]
  = [Some ("failed", "no", 2%nat); Some ("succeeded", "", 1%nat); Some ("failed", "no", 3%nat); None].
Proof. vm_compute. reflexivity. Qed.

Definition demoCollabResult : CollabResult :=
  Eval vm_compute in match demoCollab "" "" with Ok r => r | Err _ => mkCollabResult "" "" "" (plainStatus "") [] end.

Definition demoCollabRequest : CollabRequest unit :=
  mkCollabRequest "aggregation" "" "" (mkRetryConfig false 0 0 0 f64_zero f64_zero "") demoBranches.

Lemma demoCollab_ok : CollabExecute demoTimer DefaultConfig demoCollabRequest tt = (tt, Ok demoCollabResult).
Proof. vm_compute. reflexivity. Qed.

Lemma demoCollab_shape :
  cq_Aggregation demoCollabRequest <> [] /\ cs_Primitive demoCollabResult <> PrimitiveHandoff
  /\ (length (cs_Branches demoCollabResult) < length (cq_Aggregation demoCollabRequest))%nat.
Proof. split_and!; [done|vm_compute; discriminate|vm_compute; lia]. Qed.

Lemma branches_decide_collaboration_witness :
  exists r, last (cs_Branches demoCollabResult) = Some r
    /\ ~ undecided (cs_Strategy demoCollabResult) (cs_Policy demoCollabResult) r.
Proof.
  exact (proj1 (proj2 (proj2 (branches_decide_collaboration demoTimer DefaultConfig demoCollabRequest tt tt demoCollabResult
    demoCollab_ok (proj1 demoCollab_shape) (proj1 (proj2 demoCollab_shape))))) (proj2 (proj2 demoCollab_shape))).
Defined.
