(* ===== verification/CollabRetryProps.v ===== *)
(** * Retried collaborations: theorems

    How late a branch or a delegation is tried again and how often, and what the mailbox
    remembers of a delegation that was tried more than once. *)
From S2P Require Import Prelude GoStrings GoNum GoText CoreTypes SchedulerTypes.
From S2P Require Import A2ATypes A2ARouting A2AServer A2AClient A2AAsync AdapterHealthProps ReconcileProps.
From S2P Require Import MailboxTypes MailboxState MailboxStore MailboxFacade Invoke Collab RemoteExecutionProps.

Local Open Scope bool_scope.
Local Open Scope string_scope.
Local Open Scope list_scope.
Local Open Scope Z_scope.

(** ** Numbers of a known size *)

(** A finite number below [2^(k+1)] in absolute value. *)
Definition f64_small (k : Z) (x : f64) : Prop := exists m e, x = FFin m e /\ Z.log2 (Z.abs m) + e <= k.

Lemma nearest_log2 a sh q :
  0 <= a -> 0 < sh -> 0 <= q <= a / 2 ^ sh + 1 -> Z.log2 q <= Z.max 0 (Z.log2 a - sh) + 1.
Proof.
  intros Ha Hsh Hq. pose proof (Z.log2_spec_alt a) as Hspec. pose proof (Z.log2_nonneg a).
  set (k := Z.max 0 (Z.log2 a - sh)). assert (a / 2 ^ sh < 2 ^ (k + 1)).
  { apply Z.div_lt_upper_bound; [by apply pow2_pos; lia|]. rewrite <-Z.pow_add_r by lia.
    destruct (Z.eq_dec a 0) as [->|]; [by apply pow2_pos; lia|]. destruct (Z.log2_spec a ltac:(lia)) as [_ Hlt].
    eapply Z.lt_le_trans; [done|]. apply Z.pow_le_mono_r; lia. }
  assert (0 <= k) by lia. clearbody k. assert (2 ^ (k + 1) < 2 ^ (k + 2)) by (apply Z.pow_lt_mono_r; lia).
  destruct (Z.eq_dec q 0) as [->|]; [cbn; lia|]. assert (Z.log2 q < k + 2); [|lia]. apply Z.log2_lt_pow2; lia.
Qed.

Lemma f64_round_small k m e : 0 <= k < 1000 -> Z.log2 (Z.abs m) + e <= k -> f64_small (k + 1) (f64_round m e).
Proof.
  intros Hk Hm. unfold f64_round. destruct (Z.eqb_spec m 0) as [->|Hne]; [exists 0, 0; split; [done | change (0 <= k + 1); lia]|].
  set (sh := Z.max _ _). set (r := if sh <=? 0 then _ else _).
  assert (Hr : 0 <= r.1 /\ Z.log2 r.1 + r.2 <= k + 1).
  { unfold r. destruct (Z.leb_spec sh 0) as [Hsh|Hsh]; cbn [fst snd]; [lia|].
    assert (0 <= Z.abs m / 2 ^ sh) by (apply Z.div_pos; [lia | by apply pow2_pos; lia]).
    set (q := if _ <? _ then _ else _). assert (0 <= q <= Z.abs m / 2 ^ sh + 1) as Hq by (unfold q; repeat case_match; lia).
    pose proof (nearest_log2 (Z.abs m) sh q ltac:(lia) Hsh Hq). unfold sh in *. lia. }
  clearbody r. destruct (Z.leb_spec 1024 (Z.log2 r.1 + r.2)); [lia|]. exists (Z.sgn m * r.1), r.2. split; [done|].
  assert (Z.abs (Z.sgn m * r.1) = r.1) as ->; [|lia]. lia.
Qed.

Lemma f64_mul_small k1 k2 x y :
  0 <= k1 + k2 + 1 < 1000 -> f64_small k1 x -> f64_small k2 y -> f64_small (k1 + k2 + 2) (f64_mul x y).
Proof.
  intros Hk (m1 & e1 & -> & H1) (m2 & e2 & -> & H2). replace (k1 + k2 + 2) with (k1 + k2 + 1 + 1) by lia. apply f64_round_small; [done|].
  rewrite Z.abs_mul. pose proof (Z.log2_mul_above (Z.abs m1) (Z.abs m2)). lia.
Qed.

Lemma log2_pow2_sum k m1 e1 m2 e2 (e := Z.min e1 e2) :
  0 <= k -> e1 <= k -> e2 <= k -> Z.log2 (Z.abs m1) + e1 <= k -> Z.log2 (Z.abs m2) + e2 <= k ->
  Z.log2 (Z.abs (m1 * 2 ^ (e1 - e) + m2 * 2 ^ (e2 - e))) + e <= k + 1.
Proof.
  intros Hk L1 L2 H1 H2.
  assert (forall m d, 0 <= d -> d + e <= k -> Z.log2 (Z.abs m) + d + e <= k -> Z.abs (m * 2 ^ d) < 2 ^ (k - e + 1)) as Hb.
  { intros m d Hd Hd' Hm. rewrite Z.abs_mul, (Z.abs_eq (2 ^ d)) by (apply Z.pow_nonneg; lia).
    destruct (Z.eq_dec m 0) as [->|]; [cbn; apply pow2_pos; lia|]. destruct (Z.log2_spec (Z.abs m) ltac:(lia)) as [_ Hlt].
    apply (Z.lt_le_trans _ (2 ^ Z.succ (Z.log2 (Z.abs m)) * 2 ^ d)); [apply Z.mul_lt_mono_pos_r; [by apply pow2_pos|done]|].
    rewrite <-Z.pow_add_r by (pose proof (Z.log2_nonneg (Z.abs m)); lia). apply Z.pow_le_mono_r; lia. }
  pose proof (Hb m1 (e1 - e) ltac:(lia) ltac:(lia) ltac:(lia)). pose proof (Hb m2 (e2 - e) ltac:(lia) ltac:(lia) ltac:(lia)).
  set (s := m1 * _ + _). assert (Z.abs s < 2 ^ (k - e + 2)).
  { replace (k - e + 2) with (Z.succ (k - e + 1)) by lia. rewrite Z.pow_succ_r by lia. lia. }
  destruct (Z.eq_dec (Z.abs s) 0) as [->|]; [cbn; lia|]. assert (Z.log2 (Z.abs s) < k - e + 2); [apply Z.log2_lt_pow2; lia | lia].
Qed.

Lemma f64_small_exp k x : f64_small k x -> exists m e, x = FFin m e /\ Z.log2 (Z.abs m) + e <= k /\ e <= k.
Proof. intros (m & e & -> & H). exists m, e. pose proof (Z.log2_nonneg (Z.abs m)). split_and!; [done | done | lia]. Qed.

Lemma f64_add_small k x y : 0 <= k < 999 -> f64_small k x -> f64_small k y -> f64_small (k + 2) (f64_add x y).
Proof.
  intros Hk (m1 & e1 & -> & H1 & L1)%f64_small_exp (m2 & e2 & -> & H2 & L2)%f64_small_exp.
  replace (k + 2) with (k + 1 + 1) by lia. apply f64_round_small; [lia|]. by apply log2_pow2_sum; [lia|..].
Qed.

Lemma f64_small_le k k' x : k <= k' -> f64_small k x -> f64_small k' x.
Proof. intros ? (m & e & -> & ?). exists m, e. split; [done | lia]. Qed.

Lemma f64_small_number k x : f64_small k x -> x <> FNaN.
Proof. by intros (m & e & -> & _). Qed.

(** ** The delay before a retry *)

(** What [math.Pow] promises: a base above one, to a power that is not negative, is at least one. *)
Definition pow_grows (pow : MathPow) : Prop :=
  forall x y, x <> FNaN -> f64_leb x f64_one = false -> f64_leb f64_zero y = true -> f64_leb f64_one (math_pow x y) = true.

Lemma one_leb_big x : f64_leb f64_one x = true -> f64_big x.
Proof.
  destruct x as [m e|[]|]; cbn; [|done|by left|done]. intros H%negb_true_iff%Z.ltb_ge. right. exists m, e. split; [done|].
  rewrite Z.mul_1_l in H. destruct (Z.le_gt_cases 0 e) as [He|He].
  - rewrite Z.min_r, Z.sub_diag, Z.sub_0_r in H by lia. cbn in H. assert (0 < m) by (pose proof (pow2_pos e He); nia).
    pose proof (Z.log2_nonneg m). lia.
  - rewrite Z.min_l, Z.sub_diag, Z.mul_1_r in H by lia. replace (0 - e) with (- e) in H by lia.
    pose proof (pow2_pos (- e) ltac:(lia)). split; [lia|]. apply Z.log2_le_mono in H. rewrite Z.log2_pow2 in H by lia. lia.
Qed.

Lemma not_above_at_most m e z : f64_ltb (FFin z 0) (FFin m e) = false -> at_most m e z.
Proof.
  intros H%Z.ltb_ge. unfold at_most. destruct (Z.leb_spec 0 e).
  - rewrite Z.min_l, Z.sub_diag, Z.sub_0_r in H by lia. lia.
  - rewrite Z.min_r, Z.sub_diag in H by lia. replace (0 - e) with (- e) in H by lia. lia.
Qed.

Lemma not_above_small m e z : 0 < m -> 0 <= z < 2 ^ 53 -> f64_ltb (FFin z 0) (FFin m e) = false -> f64_small 52 (FFin m e).
Proof.
  intros Hm Hz H. exists m, e. split; [done|]. rewrite Z.abs_eq by lia. eapply at_most_log2; [done..|]. by apply not_above_at_most.
Qed.

(** The share of the jitter a seed stands for. *)
Lemma unit_float_small seed : f64_small 1 (stableRetryUnitFloat seed).
Proof.
  unfold stableRetryUnitFloat. case_match; [by exists 1, (-1)|].
  assert (0 <= Z.land seed (2 ^ 53 - 1) < 2 ^ 53) as Hm.
  { change (2 ^ 53 - 1) with (Z.ones 53). rewrite Z.land_ones by done. by apply Z.mod_pos_bound. }
  set (a := Z.land _ _) in *. clearbody a. rewrite !f64_of_Z_exact by lia. unfold f64_div. cbn [Z.eqb].
  change (Z.abs (2 ^ 53 - 1)) with (2 ^ 53 - 1). rewrite (Z.abs_eq a) by lia. change (2 ^ 53 - 1 =? 0) with false. cbn match.
  set (k := Z.max 0 _). change 1 with (0 + 1) at 1. apply f64_round_small; [lia|]. change (Z.sgn (2 ^ 53 - 1)) with 1. 
  set (q := 2 * _ + _).
  assert (0 <= a * 2 ^ k / (2 ^ 53 - 1) <= 2 ^ k) as Hq.
  { pose proof (pow2_pos k ltac:(lia)). split; [apply Z.div_pos; nia|]. apply Z.div_le_upper_bound; [lia|]. nia. }
  assert (0 <= q < 2 ^ (k + 2)) as Hq2.
  { rewrite Z.pow_add_r by lia. unfold q. pose proof (pow2_pos k ltac:(lia)). case_match; lia. }
  assert (Z.abs (Z.sgn a * 1 * q) <= q) as Habs by (clear -Hq2; nia).
  apply (Z.log2_le_mono _ q) in Habs. assert (Z.log2 q <= k + 1); [|lia].
  destruct (Z.eq_dec q 0) as [->|]; [cbn; lia|]. assert (Z.log2 q < k + 2); [apply Z.log2_lt_pow2; lia | lia].
Qed.

Lemma ValidateRetryConfig_inv {quote : QuoteText} cfg :
  ValidateRetryConfig cfg = Ok tt ->
  0 < ry_MaxAttempts cfg /\ 0 < ry_BackoffInitial cfg <= ry_BackoffMax cfg /\ f64_leb (ry_Multiplier cfg) f64_one = false
  /\ f64_ltb f64_one (ry_JitterRatio cfg) = false.
Proof.
  unfold ValidateRetryConfig. cbn zeta.
  destruct (Z.ltb_spec 0 (ry_MaxAttempts cfg)); [|done]. destruct (Z.ltb_spec 0 (ry_BackoffInitial cfg)); [|done].
  destruct (Z.leb_spec (ry_BackoffInitial cfg) (ry_BackoffMax cfg)); [|done].
  destruct (f64_leb (ry_Multiplier cfg) f64_one); [done|]. destruct (f64_ltb (ry_JitterRatio cfg) f64_zero); [done|].
  by destruct (f64_ltb f64_one (ry_JitterRatio cfg)).
Qed.

Lemma positive_ratio_small r : f64_ltb f64_zero r = true -> f64_ltb f64_one r = false -> f64_small 52 r.
Proof.
  destruct r as [m e|[]|]; [|done..]. intros Hp H1. apply (not_above_small m e 1); [|done..].
  apply Z.ltb_lt in Hp. rewrite Z.mul_0_l in Hp. pose proof (pow2_pos (e - Z.min 0 e) ltac:(lia)). nia.
Qed.

(** The uncapped delay is at least the initial one; capped, it is a number of a known size. *)
Lemma capped_delay_small {pow : MathPow} cfg n :
  pow_grows pow -> ry_Multiplier cfg <> FNaN -> f64_leb (ry_Multiplier cfg) f64_one = false -> 0 <= n < 2 ^ 53 ->
  0 < ry_BackoffInitial cfg < 2 ^ 53 -> 0 < ry_BackoffMax cfg < 2 ^ 53 ->
  let base := f64_mul (f64_of_Z (ry_BackoffInitial cfg)) (math_pow (ry_Multiplier cfg) (f64_of_Z n)) in
  let max := f64_of_Z (ry_BackoffMax cfg) in
  let v := if f64_ltb max base then max else base in
  f64_small 52 v /\ f64_ltb v f64_zero = false /\ f64_ltb max v = false.
Proof.
  intros Hpow Hnan Hm Hn Hi Hx base max v.
  assert (Hb : f64_big base).
  { apply f64_mul_big; [right; apply exact_big; lia|]. apply one_leb_big, Hpow; [done..|]. rewrite f64_of_Z_exact by lia.
    apply negb_true_iff, Z.ltb_ge. rewrite Z.min_id, Z.sub_diag. lia. }
  assert (Emax : max = FFin (ry_BackoffMax cfg) 0) by (apply f64_of_Z_exact; lia). clearbody base max. subst max v.
  destruct (f64_ltb _ base) eqn:E.
  - split_and!; [|apply Z.ltb_ge; cbn; lia | apply f64_ltb_irrefl].
    apply (not_above_small _ _ (ry_BackoffMax cfg)); [lia | lia | apply f64_ltb_irrefl].
  - destruct Hb as [->|(m & e & -> & Hpos & Hl)]; [done|]. split_and!; [by apply (not_above_small _ _ (ry_BackoffMax cfg)); [|lia|]| |done].
    apply Z.ltb_ge. rewrite Z.mul_0_l. pose proof (pow2_pos (e - Z.min e 0) ltac:(lia)). nia.
Qed.

(** The delay before a retry is neither negative nor above the largest configured one. Let a
    validated configuration have a multiplier that is a number and a largest delay below
    [2^53] ns. Then the delay after any failed attempt is between zero and
    that limit, whatever the jitter and its seed are; before a first failure there is none. *)
Theorem collab_retry_delay_bounds {quote : QuoteText} {pow : MathPow} (cfg : RetryConfig) (n : Z) (parts : list string) :
  pow_grows pow -> ValidateRetryConfig cfg = Ok tt -> ry_Multiplier cfg <> FNaN -> ry_BackoffMax cfg < 2 ^ 53 -> n < 2 ^ 53 ->
  0 <= RetryDelay cfg n parts <= ry_BackoffMax cfg /\ (n <= 0 -> RetryDelay cfg n parts = 0).
Proof.
  intros Hpow (_ & Hi & Hmul & Hj)%ValidateRetryConfig_inv Hnan Hx Hn. unfold RetryDelay.
  destruct (Z.leb_spec n 0); [lia|]. split; [|lia].
  destruct (capped_delay_small cfg (n - 1) Hpow Hnan Hmul ltac:(lia) ltac:(lia) ltac:(lia)) as (Hs & Hpos & Hle).
  cbn zeta in Hs, Hpos, Hle. set (v := if f64_ltb _ (f64_mul _ _) then _ else _) in *. clearbody v.
  assert (Emax : f64_of_Z (ry_BackoffMax cfg) = FFin (ry_BackoffMax cfg) 0) by (apply f64_of_Z_exact; lia). rewrite Emax in *.
  set (w := if f64_ltb f64_zero _ then _ else v). assert (Hw : w <> FNaN /\ f64_ltb w f64_zero = false).
  { unfold w. destruct (f64_ltb f64_zero (ry_JitterRatio cfg)) eqn:Ej; [|split; [by eapply f64_small_number|done]].
    apply f64_max_ge; [done|]. eapply (f64_small_number 200), (f64_small_le (198 + 2)), f64_add_small; [lia|lia|by eapply f64_small_le, Hs|].
    eapply (f64_small_le (10 + 106 + 2)), f64_mul_small; [lia|lia| |].
    - eapply (f64_small_le (4 + 2)), f64_add_small; [lia|lia| |by exists (-1), 0].
      apply (f64_mul_small 1 1); [lia|apply unit_float_small|by exists 2, 0].
    - apply (f64_mul_small 52 52); [lia|done|by apply positive_ratio_small]. }
  clearbody w. assert (f64_ltb (FFin (ry_BackoffMax cfg) 0) (if f64_ltb (FFin (ry_BackoffMax cfg) 0) w then FFin (ry_BackoffMax cfg) 0 else w) = false).
  { destruct (f64_ltb _ w) eqn:E; [apply f64_ltb_irrefl|done]. }
  apply (f64_to_i64_between _ 0); [case_match; [done|apply Hw]|done|unfold max_i64; lia| |done|lia].
  case_match; [unfold f64_ltb; rewrite Z.min_id, Z.sub_diag; apply Z.ltb_ge; lia|apply Hw].
Qed.

(** ** Retried delegations *)

Section delegations.
Context {quote : QuoteText} {pow : MathPow} {mv : MapValue} {order : RangeOrder} {C : Type} `{InvokeClient C}.
Context (timer : Duration -> C -> C * option GoError) (policy : RetryConfig) (req : InvokeRequest).
Implicit Types (c : C) (b : MailboxBridge MailboxStore.MemoryStore) (x : Outcome * option GoError).

Definition tryOutcome x : CollabOutcome := delegationOutcome x.1 x.2.
Definition retryable x : Prop := shouldRetryOutcome policy (tryOutcome x) = true.

Definition delayAfter (attempt : Z) : Duration :=
  RetryDelay policy attempt (retryParts "delegation_sync" (iq_WorkflowID req) (iq_TeamID req) (iq_StepID req)
                               (iq_TaskID req) (iq_PeerID req)).

(** Calls that are answered and retried, with the waits between them; [n] calls came before. *)
Inductive retried : nat -> C -> list (Outcome * option GoError) -> C -> Prop :=
| retried_nil n c : retried n c [] c
| retried_cons n c c1 c2 c' x l :
    invokeSync c req = Some (c1, x) -> retryable x -> waitWithContext timer (delayAfter (Z.of_nat (S n))) c1 = (c2, None) ->
    retried (S n) c2 l c' -> retried n c (x :: l) c'.

(** How a delegation ends with the call after [n] others. *)
Inductive ends (n : nat) c x : C -> CollabOutcome * option GoError -> Prop :=
| ends_settled : ~ retryable x -> ends n c x c (withRetryPayload (tryOutcome x) (Z.of_nat n) false, x.2)
| ends_exhausted :
    retryable x -> Z.of_nat (S n) = ry_MaxAttempts policy ->
    ends n c x c (withRetryPayload (tryOutcome x) (Z.of_nat n) true, x.2)
| ends_interrupted c' e :
    retryable x -> Z.of_nat (S n) < ry_MaxAttempts policy ->
    waitWithContext timer (delayAfter (Z.of_nat (S n))) c = (c', Some e) ->
    ends n c x c' (withRetryPayload (tryOutcome x) (Z.of_nat n) false, Some e).

(** The mailbox of a bridge after the calls with the answers [l]. *)
Definition remembers (src : string) (l : list (Outcome * option GoError)) b : Prop :=
  match l with
  | [] => b = NewInMemoryMailboxBridge src
  | x :: _ => exists r1 r2, recorded req b r1 r2 /\ ev_Payload (mr_Envelope r2) = buildResultPayload x.1
  end.

Context (Hid : taskKey req <> "").

Lemma remembers_invoke src l e b c c' x :
  remembers src l b -> invokeSync c req = Some (c', x) ->
  exists b', InvokeSync e (fun m => m) b c req = Some (b', c', x) /\ remembers src (l ++ [x]) b'.
Proof.
  destruct x as [o err]. destruct l as [|y l]; cbn [remembers app].
  - intros -> Hinv. destruct (fresh_bridge_invoke req Hid e src c c' o err Hinv) as (b' & r1 & r2 & E & _ & _ & Hp & _ & Hr).
    exists b'. split; [done|]. by exists r1, r2.
  - intros (r1 & r2 & Hr & Hp) Hinv. destruct (recorded_bridge_invoke req Hid e b r1 r2 c c' o err Hr Hinv) as (b' & E & _ & Hr').
    exists b'. split; [done|]. by exists r1, r2.
Qed.

Context (answers : forall c, is_Some (invokeSync c req)) (env : Z -> BridgeEnv) (observer : bool) (src : string).

Lemma delegateSyncLoop_spec remaining past b c log :
  remembers src past b -> Z.of_nat (length past + S remaining) = ry_MaxAttempts policy ->
  let n := length past in
  exists b' c' log' res l c1 c2 x,
    delegateSyncLoop (H := shared_bridge _) timer remaining env policy observer (Z.of_nat (S n)) (Z.of_nat n) b c log req
    = Some (b', c', log', res)
    /\ retried n c l c1 /\ invokeSync c1 req = Some (c2, x) /\ ends (n + length l) c2 x c' res
    /\ (length l <= remaining)%nat /\ remembers src (past ++ l ++ [x]) b'.
Proof.
  revert past b c log. induction remaining as [|remaining IH]; intros past b c log Hb Hn n.
  all: destruct (answers c) as [[c1 [o err]] Hinv].
  all: destruct (remembers_invoke src past (env (Z.of_nat (S n))) b c c1 (o, err) Hb Hinv) as (b1 & E & Hb1).
  all: cbn [delegateSyncLoop]; unfold delegateSyncOnce; cbn [bp_resolve shared_bridge]; rewrite E; cbn [bp_save].
  all: change (delegationOutcome o err) with (tryOutcome (o, err)).
  all: destruct (shouldRetryOutcome policy (tryOutcome (o, err))) eqn:Es; cbn [negb];
    [|eexists _, _, _, _, [], c, c1, (o, err); split_and!; [done | constructor | done | | cbn; lia | done];
      cbn [length]; rewrite Nat.add_0_r; apply ends_settled; unfold retryable; by rewrite Es].
  - eexists _, _, _, _, [], c, c1, (o, err). split_and!; [done | constructor | done | | cbn; lia | done].
    cbn [length]. rewrite Nat.add_0_r. apply ends_exhausted; [done | lia].
  - fold (delayAfter (Z.of_nat (S n))). destruct (waitWithContext timer _ c1) as [c2 [we|]] eqn:Ew.
    + eexists _, _, _, _, [], c, c1, (o, err). split_and!; [done | constructor | done | | cbn; lia | done].
      cbn [length]. rewrite Nat.add_0_r. apply ends_interrupted; [done | lia | done].
    + destruct (IH (past ++ [(o, err)]) b1 c2 (emitRetryEvent observer
        (mkRetryEvent RetryEventAttempt (Z.of_nat (S n)) (ry_MaxAttempts policy) (delayAfter (Z.of_nat (S n))) (ry_RetryOn policy) true
           (TrimSpace (co_Error (tryOutcome (o, err))))) log) Hb1)
        as (b' & c' & log' & res & l & c3 & c4 & x & E' & R & Hi & He & Hl & Hr); [rewrite length_app; cbn; lia|].
      rewrite length_app in *. cbn [length] in *. replace (length past + 1)%nat with (S n) in * by lia.
      replace (Z.of_nat (S n) + 1) with (Z.of_nat (S (S n))) by lia. replace (Z.of_nat n + 1) with (Z.of_nat (S n)) by lia.
      exists b', c', log', res, ((o, err) :: l), c3, c4, x. split_and!; [done | by eapply retried_cons | done | | cbn; lia | ].
      * cbn [length]. by rewrite <-Nat.add_succ_comm.
      * by rewrite <-app_assoc in Hr.
Qed.
End delegations.

(** A delegation retries exactly when its own configuration says so. *)
Lemma resolve_delegation_retry {quote : QuoteText} retry policy :
  resolveRetryConfig (cg_Retry DefaultConfig) retry = Ok policy ->
  ry_Enabled policy = ry_Enabled retry /\ 0 < ry_MaxAttempts policy.
Proof.
  unfold resolveRetryConfig. set (out := overrideRetry _ _).
  assert (ry_Enabled out = ry_Enabled retry) as E.
  { unfold out, overrideRetry. cbv zeta. repeat case_match; done. }
  clearbody out. destruct (ValidateRetryConfig out) as [[]|] eqn:Ev; [|done]. intros [= <-].
  by apply ValidateRetryConfig_inv in Ev as [? _].
Qed.

(** C30: a delegation is tried within its retry policy, and the mailbox remembers the first try.
    Let the client answer every call and the task have an id, and let the delegation
    go through one in-memory bridge. Then it returns. Its calls but the last were
    answered with a failure that may be retried, with the configured waits between them,
    and there are at most as many calls as the policy allows; without retries there is one
    call. The outcome is that of the last call: one that is not to be retried, the last
    the policy allows, marked as exhausted, or one after which the wait was interrupted;
    with it goes the number of retries. The result in the mailbox is however that of the
    first call. *)
Theorem delegation_tried_within_policy {quote : QuoteText} {pow : MathPow} {mv : MapValue} {order : RangeOrder}
    {C : Type} `{InvokeClient C} (timer : Duration -> C -> C * option GoError) (env : Z -> BridgeEnv)
    (retry policy : RetryConfig) (observer : bool) (src : string) (c : C) (req : InvokeRequest) :
  taskKey req <> "" -> (forall c, is_Some (invokeSync c req)) ->
  resolveRetryConfig (cg_Retry DefaultConfig) retry = Ok policy ->
  exists b' c' log res l c1 c2 x first r,
    DelegateSyncWithRetry (H := shared_bridge _) timer env retry observer (NewInMemoryMailboxBridge src) c req
    = Some (b', c', log, res)
    /\ retried timer policy req 0 c l c1 /\ invokeSync c1 req = Some (c2, x)
    /\ ends timer policy req (length l) c2 x c' res
    /\ Z.of_nat (S (length l)) <= ry_MaxAttempts policy /\ (ry_Enabled retry = false -> l = [])
    /\ head (l ++ [x]) = Some first /\ records b' !! (taskKey req +:+ ":result") = Some r
    /\ ev_Payload (mr_Envelope r) = buildResultPayload first.1.
Proof.
  intros Hid Hans Hres. destruct (resolve_delegation_retry retry policy Hres) as [Hen Hmax].
  destruct (delegateSyncLoop_spec timer policy req Hid Hans env observer src (Z.to_nat (ry_MaxAttempts policy - 1)) []
              (NewInMemoryMailboxBridge src) c []) as (b' & c' & log & res & l & c1 & c2 & x & E & R & Hi & He & Hl & Hr);
    [done | cbn [length]; lia|].
  exists b', c', log, res, l, c1, c2, x. unfold DelegateSyncWithRetry. rewrite Hres.
  assert (exists first r, head (l ++ [x]) = Some first /\ records b' !! (taskKey req +:+ ":result") = Some r
            /\ ev_Payload (mr_Envelope r) = buildResultPayload first.1) as (first & r & H1 & H2 & H3).
  { destruct l as [|y l]; destruct Hr as (r1 & r2 & [_ Hr _ _ _ _] & Hp); eexists _, r2; by split_and!. }
  exists first, r. split_and!; [exact E | done | done | done | lia | | done | done | done].
  intros Ef. destruct R as [|??????? _ Hretry]; [done|]. unfold retryable, shouldRetryOutcome in Hretry. by rewrite Hen, Ef in Hretry.
Qed.

(** ** Examples *)

#[local] Instance demoQuote : QuoteText := plain_quote.
#[local] Instance demoRange : RangeOrder := listing_order.
#[local] Instance demoMapValue : MapValue := fun m => AnyInt (Z.of_nat (size m)).
(** The first powers. *)
#[local] Instance first_powers : MathPow := fun x y => if f64_leb y f64_zero then f64_one else x.

(** A known hash. *)
Example fnv64a_foobar : fnv64a "foobar" = 9625390261332436968.
Proof. vm_compute. reflexivity. Qed.

Lemma first_powers_grow : pow_grows first_powers.
Proof.
  intros x y Hn Hx _. unfold math_pow, first_powers. case_match; [done|].
  destruct x as [m e|[]|]; try done. unfold f64_leb in *. apply negb_false_iff in Hx. apply negb_true_iff.
  unfold f64_ltb, f64_one in *. rewrite Z.min_comm. apply Z.ltb_lt in Hx. apply Z.ltb_ge. lia.
Qed.

Definition demoRetry : RetryConfig := cg_Retry DefaultConfig <| ry_Enabled := true |>.

Example retry_delays : (fun n => RetryDelay demoRetry n ["branch"; "a"]) <$> [0; 1; 2; 3] = [0; 94678048; 189326799; 189336565].
Proof. vm_compute. reflexivity. Qed.

Lemma demoRetry_valid : ValidateRetryConfig demoRetry = Ok tt.
Proof. vm_compute. reflexivity. Qed.

Lemma demoRetry_facts : ry_Multiplier demoRetry <> FNaN /\ ry_BackoffMax demoRetry = 2 * Second.
Proof. vm_compute. done. Qed.

Lemma collab_retry_delay_bounds_witness : 0 <= RetryDelay demoRetry 3 ["branch"; "a"] <= 2 * Second.
Proof.
  rewrite <-(proj2 demoRetry_facts).
  apply (collab_retry_delay_bounds demoRetry 3 ["branch"; "a"] first_powers_grow demoRetry_valid (proj1 demoRetry_facts)).
  - rewrite (proj2 demoRetry_facts). unfold Second, Millisecond. lia.
  - lia.
Defined.

(** A client whose calls fail on the transport until the [n]-th, which succeeds. *)
Definition flakyRecord (taskID : string) : A2ATaskRecord :=
  zeroA2ARecord <| ac_TaskID := taskID |> <| ac_Status := StatusSucceeded |> <| ac_Result := {["answer" := AnyInt 42]} |>.
#[local] Instance flaky : InvokeClient nat := {|
  ic_Submit n q :=
    Some (Nat.pred n, if (n =? 0)%nat then (flakyRecord (aq_TaskID q), None)
                      else (zeroA2ARecord, Some (ErrorString "connection reset")));
  ic_WaitResult n t _ _ := Some (n, (flakyRecord t, None))
|}.

Definition demoDelegation : InvokeRequest := mkInvokeRequest "task-1" "wf" "team" "step" "agent" "peer" "run" ∅ 0 None.
Definition demoDelegationEnv (_ : Z) : BridgeEnv :=
  let e := mkMailboxEnv 1 1 1 None "r" in mkBridgeEnv e e 1 1.
Definition noTimer (_ : Duration) (n : nat) : nat * option GoError := (n, None).

Definition runDelegation (n : nat) :=
  DelegateSyncWithRetry (H := shared_bridge _) noTimer demoDelegationEnv demoRetry true (NewInMemoryMailboxBridge "b") n demoDelegation.

Definition mailboxStatus (b : MailboxBridge MailboxStore.MemoryStore) : option any_value :=
  r ← records b !! "task-1:result"; ev_Payload (mr_Envelope r) !! "status".

(** The outcome and what the mailbox says. The second delegation succeeds at its second call, but the mailbox keeps
    the failure of the first one; the last one uses up its attempts. *)
Example delegations :
  (fun n => match runDelegation n with
            | Some (b, _, log, (o, _)) => Some (co_Status o, co_Payload o !! "collab_retry_attempts", mailboxStatus b, length log)
            | None => None end) <$> [0; 1; 5]%nat
  = [Some ("succeeded", None, Some (AnyString "succeeded"), 0%nat);
     Some ("succeeded", Some (AnyInt 1), Some (AnyString ""), 2%nat);
     Some ("failed", Some (AnyInt 2), Some (AnyString ""), 3%nat)].
Proof. vm_compute. reflexivity. Qed.

Lemma flaky_answers c : is_Some (invokeSync c demoDelegation).
Proof. destruct c; by eexists. Qed.

Lemma demoRetry_resolved : resolveRetryConfig (cg_Retry DefaultConfig) demoRetry = Ok demoRetry.
Proof. vm_compute. reflexivity. Qed.

Lemma delegation_tried_within_policy_witness :
  exists out l c1, runDelegation 5 = Some out /\ retried noTimer demoRetry demoDelegation 0 5%nat l c1
    /\ Z.of_nat (S (length l)) <= ry_MaxAttempts demoRetry.
Proof.
  destruct (delegation_tried_within_policy noTimer demoDelegationEnv demoRetry demoRetry true "b" 5%nat demoDelegation
    ltac:(discriminate) flaky_answers demoRetry_resolved)
    as (b & c' & log & res & l & c1 & c2 & x & fst_ & r & E & R & _ & _ & Hn & _).
  exists (b, c', log, res), l, c1. split; [exact E|]. split; [exact R | exact Hn].
Defined.
