(* ===== verification/Teams.v ===== *)
(** * Teams

    [orchestration/teams/engine.go]: a plan of tasks, run one after the other, by a pool of
    workers, or by a pool whose votes decide. The runners, the pause controller, the consumer of
    the stream, the context and the clock belong to a host that acts on a world of its own. The
    goroutines of the pool are steps that a schedule orders. The engine has no continuation
    store here, so that a pause ends the run, and no native history. *)
From S2P Require Import Prelude GoStrings GoNum GoText Paging CoreTypes A2ATypes A2AAsync ExecutionGraph.
From S2P Require Import MailboxTypes MailboxStore MailboxFacade Invoke Collab.

Local Open Scope bool_scope.
Local Open Scope string_scope.
Local Open Scope list_scope.
Local Open Scope Z_scope.

(** ** Names *)

Definition ReasonDispatch := "team.dispatch".
Definition ReasonCollect := "team.collect".
Definition ReasonResolve := "team.resolve".
Definition ReasonDispatchRemote := "team.dispatch_remote".
Definition ReasonCollectRemote := "team.collect_remote".
Definition ReasonHandoff := "team.handoff".
Definition ReasonDelegation := "team.delegation".
Definition ReasonAggregation := "team.aggregation".
Definition RoleLeader := "leader".
Definition RoleWorker := "worker".
Definition RoleCoordinator := "coordinator".
Definition StrategySerial := "serial".
Definition StrategyParallel := "parallel".
Definition StrategyVote := "vote".
Definition TaskStatusPending := "pending".
Definition TaskStatusRunning := "running".
Definition TaskStatusSucceeded := "succeeded".
Definition TaskStatusFailed := "failed".
Definition TaskStatusSkipped := "skipped".
Definition TaskStatusCanceled := "canceled".
Definition TeamBestEffort := "best_effort".
Definition TeamFailFast := "fail_fast".
Definition VoteTieBreakHighestPriority := "highest_priority".
Definition VoteTieBreakFirstTaskID := "first_task_id".
Definition TaskTargetLocal := "local".
Definition TaskTargetRemote := "remote".
Definition BackpressureBlock := "block".
Definition BackpressureReject := "reject".
Definition BackpressureDropLowPriority := "drop_low_priority".

(** ** Data *)

Record TaskResult : Type := mkTaskResult {
  tx_Output : option any_value;
  tx_Vote : string
}.

Record RemoteTarget : Type := mkRemoteTarget {
  rt_PeerID : string;
  rt_Method : string;
  rt_RequiredCapabilities : list string;
  rt_Payload : any_map
}.
#[export] Instance eta_RemoteTarget : Settable RemoteTarget := fun r =>
  mkRemoteTarget (rt_PeerID r) (rt_Method r) (rt_RequiredCapabilities r) (rt_Payload r).

(** A runner is what the host does for the task; here is only whether there is one. *)
Record TeamTask : Type := mkTeamTask {
  tt_TaskID : string;
  tt_AgentID : string;
  tt_Role : string;
  tt_Priority : Z;
  tt_CollabPrimitive : string;
  tt_Target : string;
  tt_Remote : RemoteTarget;
  tt_Runner : bool;
  tt_RemoteRunner : bool
}.
#[export] Instance eta_TeamTask : Settable TeamTask := fun r =>
  mkTeamTask (tt_TaskID r) (tt_AgentID r) (tt_Role r) (tt_Priority r) (tt_CollabPrimitive r) (tt_Target r) (tt_Remote r)
    (tt_Runner r) (tt_RemoteRunner r).

(** The fields that only continuations use are left out. *)
Record TeamPlan : Type := mkTeamPlan {
  tp_RunID : string;
  tp_TeamID : string;
  tp_WorkflowID : string;
  tp_StepID : string;
  tp_Strategy : string;
  tp_Tasks : list TeamTask;
  tp_TaskTimeout : Duration;
  tp_ParallelMaxWorkers : Z;
  tp_Backpressure : string;
  tp_FailurePolicy : string;
  tp_VoteTieBreak : string;
  tp_TimeoutTerminalStatus : string
}.
#[export] Instance eta_TeamPlan : Settable TeamPlan := fun r =>
  mkTeamPlan (tp_RunID r) (tp_TeamID r) (tp_WorkflowID r) (tp_StepID r) (tp_Strategy r) (tp_Tasks r) (tp_TaskTimeout r)
    (tp_ParallelMaxWorkers r) (tp_Backpressure r) (tp_FailurePolicy r) (tp_VoteTieBreak r) (tp_TimeoutTerminalStatus r).

Record TeamRecord : Type := mkTeamRecord {
  tm_TaskID : string;
  tm_AgentID : string;
  tm_Role : string;
  tm_Target : string;
  tm_CollabPrimitive : string;
  tm_PeerID : string;
  tm_Priority : Z;
  tm_Status : string;
  tm_Reason : string;
  tm_Error : string;
  tm_Vote : string;
  tm_Output : option any_value
}.
#[export] Instance eta_TeamRecord : Settable TeamRecord := fun r =>
  mkTeamRecord (tm_TaskID r) (tm_AgentID r) (tm_Role r) (tm_Target r) (tm_CollabPrimitive r) (tm_PeerID r) (tm_Priority r)
    (tm_Status r) (tm_Reason r) (tm_Error r) (tm_Vote r) (tm_Output r).

Definition zeroTeamRecord : TeamRecord := mkTeamRecord "" "" "" "" "" "" 0 "" "" "" "" None.

Record TeamResult : Type := mkTeamResult {
  tu_RunID : string;
  tu_TeamID : string;
  tu_WorkflowID : string;
  tu_StepID : string;
  tu_Strategy : string;
  tu_WinnerVote : string;
  tu_Tasks : list TeamRecord;
  tu_TeamTaskTotal : Z;
  tu_TeamTaskFailed : Z;
  tu_TeamTaskCanceled : Z;
  tu_TeamRemoteTotal : Z;
  tu_TeamRemoteFailed : Z
}.
#[export] Instance eta_TeamResult : Settable TeamResult := fun r =>
  mkTeamResult (tu_RunID r) (tu_TeamID r) (tu_WorkflowID r) (tu_StepID r) (tu_Strategy r) (tu_WinnerVote r) (tu_Tasks r)
    (tu_TeamTaskTotal r) (tu_TeamTaskFailed r) (tu_TeamTaskCanceled r) (tu_TeamRemoteTotal r) (tu_TeamRemoteFailed r).

Definition RunFinishedPayload (r : TeamResult) : any_map :=
  list_to_map [("team_id", AnyString (tu_TeamID r)); ("workflow_id", AnyString (tu_WorkflowID r));
    ("step_id", AnyString (tu_StepID r)); ("team_strategy", AnyString (tu_Strategy r));
    ("team_task_total", AnyInt (tu_TeamTaskTotal r)); ("team_task_failed", AnyInt (tu_TeamTaskFailed r));
    ("team_task_canceled", AnyInt (tu_TeamTaskCanceled r)); ("team_remote_task_total", AnyInt (tu_TeamRemoteTotal r));
    ("team_remote_task_failed", AnyInt (tu_TeamRemoteFailed r))].

Inductive StreamEvent : Type :=
| TaskUpdated (task : TeamRecord)
| TeamResolved (result : TeamResult).

(** What the pause controller or the consumer of the stream returns: [errors.As] finds a
    [TeamPauseError], or not. *)
Inductive TeamError : Type :=
| TeamPauseError (reason : string)
| OtherTeamError (e : GoError).

Definition ErrTeamContinuationUnsupported : GoError := ErrorString "team continuation unsupported".

(** ** Plans *)

Definition trimTeamTask (t : TeamTask) : TeamTask :=
  let t := t <| tt_TaskID ::= TrimSpace |> <| tt_AgentID ::= TrimSpace |> <| tt_Role ::= lower_trim |>
             <| tt_CollabPrimitive ::= lower_trim |> <| tt_Target ::= lower_trim |> in
  let t := if tt_Target t =s? "" then t <| tt_Target := TaskTargetLocal |> else t in
  if tt_Role t =s? "" then t <| tt_Role := RoleWorker |> else t.

Definition taskError (i : nat) (text : string) : GoError := ErrorString ("tasks[" +:+ itoa (Z.of_nat i) +:+ "]." +:+ text).

(** What does not depend on the target. *)
Definition checkTeamTask {quote : QuoteText} (i : nat) (seen : gset string) (t : TeamTask) : result GoError unit :=
  require bool_decide (tt_Role t ∈ [RoleLeader; RoleWorker; RoleCoordinator])
    orelse taskError i "role must be leader|worker|coordinator";
  require negb (tt_TaskID t =s? "") orelse taskError i "task_id is required";
  require negb (bool_decide (tt_TaskID t ∈ seen)) orelse ErrorString ("duplicate task_id " +:+ fmt_q (tt_TaskID t));
  require negb (tt_AgentID t =s? "") orelse taskError i "agent_id is required";
  if tt_CollabPrimitive t =s? "" then Ok tt
  else match ParsePrimitive (tt_CollabPrimitive t) with
       | Ok _ => Ok tt
       | Err e => Err (WrapError (ErrorText (taskError i ("collab_primitive is invalid: " +:+ ErrorText e))) e)
       end.

(** The task as the loop leaves it in the array, and the error. *)
Definition normalizeTeamTask {quote : QuoteText} (i : nat) (seen : gset string) (t : TeamTask) : TeamTask * option GoError :=
  let t := trimTeamTask t in
  match checkTeamTask i seen t with
  | Err e => (t, Some e)
  | Ok _ =>
      if tt_Target t =s? TaskTargetLocal then
        (t, if tt_Runner t then None else Some (taskError i "runner is required when target=local"))
      else if tt_Target t =s? TaskTargetRemote then
        let t := t <| tt_Remote ::= fun r => r <| rt_PeerID ::= TrimSpace |> <| rt_Method ::= TrimSpace |> |> in
        (t, if rt_PeerID (tt_Remote t) =s? "" then Some (taskError i "remote.peer_id is required when target=remote")
            else if tt_RemoteRunner t then None else Some (taskError i "remote_runner is required when target=remote"))
      else (t, Some (taskError i "target must be local|remote"))
  end.

Fixpoint normalizeTeamTasks {quote : QuoteText} (i : nat) (seen : gset string) (tasks : list TeamTask)
    : list TeamTask * option GoError :=
  match tasks with
  | [] => ([], None)
  | t :: tasks =>
      match normalizeTeamTask i seen t with
      | (t, Some e) => (t :: tasks, Some e)
      | (t, None) => let '(tasks, err) := normalizeTeamTasks (S i) ({[tt_TaskID t]} ∪ seen) tasks in (t :: tasks, err)
      end
  end.

(** A name that may be left out. *)
Definition normalizeChoice {quote : QuoteText} (choices : list string) (what fallback v : string) : result GoError string :=
  let v := orDefaultText fallback v in
  if bool_decide (v ∈ choices) then Ok v else Err (ErrorString (what +:+ fmt_q v)).

(** The part before the tasks. *)
Definition normalizePlanHeader {quote : QuoteText} (p : TeamPlan) : result GoError TeamPlan :=
  let p := p <| tp_TeamID ::= TrimSpace |> <| tp_WorkflowID ::= TrimSpace |> <| tp_StepID ::= TrimSpace |> in
  require negb (tp_TeamID p =s? "") orelse ErrorString "team_id is required";
  strategy ←ₑ normalizeChoice [StrategySerial; StrategyParallel; StrategyVote] "unsupported team strategy " StrategySerial
                (lower_trim (tp_Strategy p));
  backpressure ←ₑ normalizeChoice [BackpressureBlock; BackpressureReject; BackpressureDropLowPriority]
                    "unsupported backpressure mode " BackpressureBlock (tp_Backpressure p);
  policy ←ₑ normalizeChoice [TeamBestEffort; TeamFailFast] "unsupported failure policy " TeamBestEffort
              (lower_trim (tp_FailurePolicy p));
  timeoutStatus ←ₑ normalizeChoice [TaskStatusCanceled; TaskStatusFailed]
                     "timeout terminal status must be canceled|failed, got " TaskStatusCanceled (tp_TimeoutTerminalStatus p);
  tieBreak ←ₑ normalizeChoice [VoteTieBreakHighestPriority; VoteTieBreakFirstTaskID] "unsupported vote tie_break "
                VoteTieBreakHighestPriority (lower_trim (tp_VoteTieBreak p));
  Ok (p <| tp_Strategy := strategy |>
        <| tp_TaskTimeout ::= fun d => if d <=? 0 then 3 * Second else d |>
        <| tp_ParallelMaxWorkers ::= fun n => if n <=? 0 then 4 else n |>
        <| tp_Backpressure := backpressure |> <| tp_FailurePolicy := policy |>
        <| tp_TimeoutTerminalStatus := timeoutStatus |> <| tp_VoteTieBreak := tieBreak |>).

(** The array of tasks, which the caller shares, is changed in place: it is the first result. *)
Definition normalizePlan {quote : QuoteText} (p : TeamPlan) : list TeamTask * result GoError TeamPlan :=
  match normalizePlanHeader p with
  | Err e => (tp_Tasks p, Err e)
  | Ok h =>
      match tp_Tasks p with
      | [] => ([], Err (ErrorString "team tasks must not be empty"))
      | tasks =>
          match normalizeTeamTasks 0 ∅ tasks with
          | (tasks, Some e) => (tasks, Err e)
          | (tasks, None) => (tasks, Ok (h <| tp_Tasks := tasks |>))
          end
      end
  end.

(** It works on a copy of the array. *)
Definition NormalizePlan {quote : QuoteText} (p : TeamPlan) : result GoError TeamPlan := (normalizePlan p).2.

(** ** Which tasks a pool runs *)

Definition lowerPriority (tasks : list TeamTask) (i j : nat) : bool :=
  let key i := match tasks !! i with Some t => (tt_Priority t, tt_TaskID t) | None => (0, "") end in
  let '(pi, idi) := key i in let '(pj, idj) := key j in
  if pi =? pj then if idi =s? idj then (i <? j)%nat else str_ltb idi idj else pj <? pi.

(** The indices to run, those to skip, and why. *)
Definition selectParallelWork {sorting : SortSlice} (p : TeamPlan) : list nat * list nat * string :=
  let total := length (tp_Tasks p) in
  let maxWorkers := Z.to_nat (tp_ParallelMaxWorkers p) in
  let all := seq 0 total in
  if (total =? 0)%nat then ([], [], "")
  else if (tp_ParallelMaxWorkers p <=? 0) || (total <=? maxWorkers)%nat then (all, [], "")
  else if tp_Backpressure p =s? BackpressureReject then
    (seq 0 maxWorkers, seq maxWorkers (total - maxWorkers), "backpressure.reject")
  else if tp_Backpressure p =s? BackpressureDropLowPriority then
    let keep := take maxWorkers (sort_slice (lowerPriority (tp_Tasks p)) all) in
    (filter (fun i => i ∈ keep) all, filter (fun i => i ∉ keep) all, "backpressure.drop_low_priority")
  else (all, [], "").

(** ** Votes *)

Record voteStats : Type := mkVoteStats {
  vs_Count : Z;
  vs_MaxPriority : Z;
  vs_FirstTaskID : string
}.

Definition zeroVoteStats : voteStats := mkVoteStats 0 0 "".

Definition countVote (r : TeamRecord) (s : voteStats) : voteStats :=
  let count := vs_Count s + 1 in
  let id := TrimSpace (tm_TaskID r) in
  mkVoteStats count
    (if (count =? 1) || (vs_MaxPriority s <? tm_Priority r) then tm_Priority r else vs_MaxPriority s)
    (if (count =? 1) || str_ltb id (vs_FirstTaskID s) then id else vs_FirstTaskID s).

Definition tallyVote (stats : gmap string voteStats) (r : TeamRecord) : gmap string voteStats :=
  let vote := TrimSpace (tm_Vote r) in
  if negb (tm_Status r =s? TaskStatusSucceeded) || (vote =s? "") then stats
  else <[vote := countVote r (default zeroVoteStats (stats !! vote))]> stats.

(** Whether a candidate replaces the best vote so far. *)
Definition outvotes (tieBreak : string) (stats : gmap string voteStats) (candidate best : string) : bool :=
  let left := default zeroVoteStats (stats !! best) in
  let right := default zeroVoteStats (stats !! candidate) in
  let first := str_ltb (vs_FirstTaskID right) (vs_FirstTaskID left)
               || (vs_FirstTaskID right =s? vs_FirstTaskID left) && str_ltb candidate best in
  if vs_Count left <? vs_Count right then true
  else if vs_Count right <? vs_Count left then false
  else if tieBreak =s? VoteTieBreakFirstTaskID then first
  else if vs_MaxPriority left <? vs_MaxPriority right then true
  else (vs_MaxPriority right =? vs_MaxPriority left) && first.

Definition resolveVoteWinner (records : list TeamRecord) (tieBreak : string) : string :=
  let stats := foldl tallyVote ∅ records in
  match sort_strings (map_to_list stats).*1 with
  | [] => ""
  | best :: candidates => foldl (fun best c => if outvotes tieBreak stats c best then c else best) best candidates
  end.

(** ** Results *)

Definition countBy (f : TeamRecord -> bool) (l : list TeamRecord) : Z := Z.of_nat (length (List.filter f l)).
Definition hasStatus (st : string) (r : TeamRecord) : bool := tm_Status r =s? st.
Definition isRemote (r : TeamRecord) : bool := tm_Target r =s? TaskTargetRemote.

Definition buildResult (p : TeamPlan) (records : list TeamRecord) : TeamResult :=
  mkTeamResult (TrimSpace (tp_RunID p)) (tp_TeamID p) (TrimSpace (tp_WorkflowID p)) (TrimSpace (tp_StepID p)) (tp_Strategy p) ""
    records (Z.of_nat (length records)) (countBy (hasStatus TaskStatusFailed) records)
    (countBy (hasStatus TaskStatusCanceled) records) (countBy isRemote records)
    (countBy (fun r => hasStatus TaskStatusFailed r && isRemote r) records).

Definition resolveStatus (r : TeamResult) : string :=
  let total := tu_TeamTaskTotal r in
  if total =? 0 then TaskStatusSkipped
  else if 0 <? countBy (hasStatus TaskStatusSucceeded) (tu_Tasks r) then TaskStatusSucceeded
  else if tu_TeamTaskCanceled r =? total then TaskStatusCanceled
  else if countBy (hasStatus TaskStatusSkipped) (tu_Tasks r) =? total then TaskStatusSkipped
  else TaskStatusFailed.

(** ** One task *)

Record taskExecution : Type := mkTaskExecution {
  te_Status : string;
  te_Reason : string;
  te_Error : string;
  te_Vote : string;
  te_Output : option any_value
}.

(** The context has been cancelled, or its deadline has passed. *)
Definition contextEnded (err : option GoError) : bool :=
  match err with Some e => is_canceled e || is_deadline e | None => false end.

Definition propagated (e : GoError) : taskExecution :=
  mkTaskExecution TaskStatusCanceled "cancel.propagated" (ErrorText e) "" None.

(** [executeTask] before the runner, and after it with what the runner returned. *)
Definition executeEntry (ctx : option GoError) (t : TeamTask) : option taskExecution :=
  let missing reason := Some (mkTaskExecution TaskStatusFailed reason "" "" None) in
  match (if contextEnded ctx then ctx else None) with
  | Some e => Some (propagated e)
  | None =>
      if tt_Target t =s? TaskTargetRemote then if tt_RemoteRunner t then None else missing "task.remote_runner_missing"
      else if tt_Runner t then None else missing "task.runner_missing"
  end.

Definition executeExit (p : TeamPlan) (ctx : option GoError) (res : TaskResult) (err : option GoError) : taskExecution :=
  match err with
  | None => mkTaskExecution TaskStatusSucceeded "" "" (TrimSpace (tx_Vote res)) (tx_Output res)
  | Some e =>
      let timedOut := is_deadline e && bool_decide (ctx = None) in
      if (is_canceled e || is_deadline e) && contextEnded ctx then propagated e
      else if (is_canceled e || is_deadline e) && timedOut then
        mkTaskExecution (orDefaultText TaskStatusCanceled (tp_TimeoutTerminalStatus p)) "task.timeout" (ErrorText e) "" None
      else mkTaskExecution TaskStatusFailed "task.error" (ErrorText e) "" None
  end.

(** ** The engine *)

Definition dispatchReasonForRecord (r : TeamRecord) : string :=
  let primitive := lower_trim (tm_CollabPrimitive r) in
  if primitive =s? PrimitiveHandoff then ReasonHandoff
  else if primitive =s? PrimitiveDelegation then ReasonDelegation
  else if isRemote r then ReasonDispatchRemote
  else ReasonDispatch.

Definition collectReasonForRecord (r : TeamRecord) : string :=
  let primitive := lower_trim (tm_CollabPrimitive r) in
  if primitive =s? PrimitiveHandoff then ReasonHandoff
  else if primitive =s? PrimitiveAggregation then ReasonAggregation
  else if isRemote r then ReasonCollectRemote
  else ReasonCollect.

Definition pendingTaskIDs (p : TeamPlan) (records : list TeamRecord) : list string :=
  sort_strings (tt_TaskID <$> (List.filter (fun rt => hasStatus TaskStatusPending rt.1) (zip records (tp_Tasks p))).*2).

Record TeamPauseBoundary : Type := mkTeamPauseBoundary {
  tb_Plan : TeamPlan;
  tb_Task : TeamTask;
  tb_PendingTaskIDs : list string
}.

Section engine.
Context {sorting : SortSlice} {quote : QuoteText}.
Context {W : Type}.

(** Everything outside the engine. *)
Record TeamHost : Type := mkTeamHost {
  th_ctx : W -> option GoError;
  th_now : W -> Time;
  th_run : TeamTask -> W -> W * (TaskResult * option GoError);
  th_runRemote : TeamPlan -> TeamTask -> W -> W * (TaskResult * option GoError);
  th_pause : option (TeamPauseBoundary -> W -> W * option TeamError);
  th_onEvent : option (StreamEvent -> W -> W * option TeamError);
  th_timeline : bool
}.
Context (h : TeamHost).

(** The variables of a run. *)
Record TeamRun : Type := mkTeamRun {
  tn_records : list TeamRecord;
  tn_seq : Z;
  tn_events : list Event;
  tn_world : W
}.
#[export] Instance eta_TeamRun : Settable TeamRun := fun r =>
  mkTeamRun (tn_records r) (tn_seq r) (tn_events r) (tn_world r).
Implicit Types (p : TeamPlan) (s : TeamRun) (w : W).

Definition recordAt s (i : nat) : TeamRecord := default zeroTeamRecord (tn_records s !! i).

Definition setField (key v : string) (m : any_map) : any_map := if v =s? "" then m else <[key := AnyString v]> m.

Definition emitTimeline p (status reason : string) (task : option TeamRecord) s : TeamRun :=
  if negb (th_timeline h) then s
  else
    let seq := wrap_i64 (tn_seq s + 1) in
    let payload : any_map :=
      list_to_map [("phase", AnyString "run"); ("status", AnyString status); ("sequence", AnyInt seq);
                   ("reason", AnyString reason); ("team_id", AnyString (TrimSpace (tp_TeamID p)))] in
    let payload := setField "step_id" (TrimSpace (tp_StepID p)) (setField "workflow_id" (TrimSpace (tp_WorkflowID p)) payload) in
    let payload := match task with
                   | None => payload
                   | Some r => setField "peer_id" (tm_PeerID r) (<["task_id" := AnyString (tm_TaskID r)]>
                                                                   (<["agent_id" := AnyString (tm_AgentID r)]> payload))
                   end in
    s <| tn_seq := seq |>
      <| tn_events ::= fun l => l ++ [mkEvent "v1" "action.timeline" (TrimSpace (tp_RunID p)) (th_now h (tn_world s)) payload] |>.

Definition notify (ev : StreamEvent) s : TeamRun * option TeamError :=
  match th_onEvent h with
  | None => (s, None)
  | Some f => let '(w, err) := f ev (tn_world s) in (s <| tn_world := w |>, err)
  end.

(** A record changes: it is written, appears in the timeline and in the stream. *)
Definition updateRecord p (i : nat) (f : TeamRecord -> TeamRecord) (reason : TeamRecord -> string) s : TeamRun * option TeamError :=
  let s := s <| tn_records ::= alter f i |> in
  let r := recordAt s i in
  notify (TaskUpdated r) (emitTimeline p (tm_Status r) (reason r) (Some r) s).

Definition markRunning (r : TeamRecord) : TeamRecord := r <| tm_Status := TaskStatusRunning |>.

Definition writeExecution (x : taskExecution) (r : TeamRecord) : TeamRecord :=
  r <| tm_Status := te_Status x |> <| tm_Reason := te_Reason x |> <| tm_Error := te_Error x |> <| tm_Vote := te_Vote x |>
    <| tm_Output := te_Output x |>.

Definition failedExecution (st : string) : bool := (st =s? TaskStatusFailed) || (st =s? TaskStatusCanceled).

Definition runTask p (t : TeamTask) : W -> W * (TaskResult * option GoError) :=
  if tt_Target t =s? TaskTargetRemote then th_runRemote h p t else th_run h t.

(** *** One task after the other *)

Definition executeTask p (t : TeamTask) w : W * taskExecution :=
  match executeEntry (th_ctx h w) t with
  | Some x => (w, x)
  | None => let '(w, (res, err)) := runTask p t w in (w, executeExit p (th_ctx h w) res err)
  end.

Definition askPause (b : TeamPauseBoundary) s : TeamRun * option TeamError :=
  match th_pause h with
  | None => (s, None)
  | Some f => let '(w, err) := f b (tn_world s) in (s <| tn_world := w |>, err)
  end.

Definition skipRecord (reason : string) (r : TeamRecord) : TeamRecord :=
  r <| tm_Status := TaskStatusSkipped |> <| tm_Reason := reason |>.

(** A skipped handoff keeps its own reason. *)
Definition skipHalted (r : TeamRecord) : TeamRecord :=
  skipRecord (if lower_trim (tm_CollabPrimitive r) =s? PrimitiveHandoff then ReasonHandoff else "policy.fail_fast") r.

Fixpoint runSerial p (tasks : list (nat * TeamTask)) (halt : bool) s : TeamRun * option TeamError :=
  match tasks with
  | [] => (s, None)
  | (i, t) :: tasks =>
      if negb (hasStatus TaskStatusPending (recordAt s i)) then runSerial p tasks halt s
      else if halt then
        match updateRecord p i skipHalted collectReasonForRecord s with
        | (s, Some e) => (s, Some e)
        | (s, None) => runSerial p tasks halt s
        end
      else match askPause (mkTeamPauseBoundary p t (pendingTaskIDs p (tn_records s))) s with
      | (s, Some e) => (s, Some e)
      | (s, None) =>
          match updateRecord p i markRunning dispatchReasonForRecord s with
          | (s, Some e) => (s, Some e)
          | (s, None) =>
              let '(w, x) := executeTask p t (tn_world s) in
              match updateRecord p i (writeExecution x) collectReasonForRecord (s <| tn_world := w |>) with
              | (s, Some e) => (s, Some e)
              | (s, None) => runSerial p tasks ((tp_FailurePolicy p =s? TeamFailFast) && failedExecution (te_Status x)) s
              end
          end
      end
  end.

(** *** A pool of workers *)

(** How far a worker is with the task it has received from the channel of jobs: before the check of the
    context at the head of [executeTask], past that check, in the runner, back from the runner with
    what it returned, and about to send the execution. *)
Inductive WorkerPhase : Type :=
| Taken (i : nat)
| Checked (i : nat)
| Running (i : nat)
| Returned (i : nat) (res : TaskResult) (err : option GoError)
| Ending (i : nat) (x : taskExecution).

Definition workerTask (ph : WorkerPhase) : nat :=
  match ph with Taken i | Checked i | Running i | Returned i _ _ | Ending i _ => i end.

(** How far the collecting loop is: waiting for a result, or past the writing of the record, the event of the
    timeline and the call of the consumer, whose error it then has. *)
Inductive CollectorPhase : Type :=
| Reading
| Written (i : nat) (x : taskExecution)
| Emitted (i : nat) (x : taskExecution)
| Notified (i : nat) (x : taskExecution) (err : option TeamError).

(** The tasks that wait for a worker, the workers that have one, the results not yet read, the collecting
    loop, what ended the context of the batch, and the error that ended the loop. [pp_started] lists
    the tasks whose runners were called. *)
Record Pool : Type := mkPool {
  pp_run : TeamRun;
  pp_jobs : list nat;
  pp_workers : list WorkerPhase;
  pp_results : list (nat * taskExecution);
  pp_collector : CollectorPhase;
  pp_cancelled : option GoError;
  pp_error : option TeamError;
  pp_started : list nat
}.
#[export] Instance eta_Pool : Settable Pool := fun r =>
  mkPool (pp_run r) (pp_jobs r) (pp_workers r) (pp_results r) (pp_collector r) (pp_cancelled r) (pp_error r) (pp_started r).
Implicit Types (q : Pool).

Definition newPool s (runIdx : list nat) : Pool := mkPool s runIdx [] [] Reading None None [].

Definition execErr q : option GoError :=
  match pp_cancelled q with Some e => Some e | None => th_ctx h (tn_world (pp_run q)) end.

(** [cancel()]: an error of the context that is already there stays. *)
Definition cancelBatch q : Pool := q <| pp_cancelled := Some (default Canceled (execErr q)) |>.

Definition taskAt p (i : nat) : option TeamTask := tp_Tasks p !! i.

(** A free worker receives the next task from the channel. *)
Definition takeStep (workers : nat) q : option Pool :=
  match pp_jobs q with
  | [] => None
  | i :: jobs =>
      if (workers <=? length (pp_workers q))%nat then None
      else Some (q <| pp_jobs := jobs |> <| pp_workers ::= fun l => l ++ [Taken i] |>)
  end.

Definition toPhase (k : nat) (ph : WorkerPhase) q : Pool := q <| pp_workers ::= <[k := ph]> |>.

(** The [k]-th of the workers that have a task takes its next step: it checks the context, calls the runner, has
    its answer, makes an execution of the answer and the context as it is then, and sends it. *)
Definition workerStep p (k : nat) q : option Pool :=
  ph ← pp_workers q !! k;
  t ← taskAt p (workerTask ph);
  Some match ph with
       | Taken i => toPhase k (match executeEntry (execErr q) t with Some x => Ending i x | None => Checked i end) q
       | Checked i => toPhase k (Running i) q <| pp_started ::= fun l => l ++ [i] |>
       | Running i =>
           let '(w, (res, err)) := runTask p t (tn_world (pp_run q)) in
           toPhase k (Returned i res err) q <| pp_run ::= fun s => s <| tn_world := w |> |>
       | Returned i res err => toPhase k (Ending i (executeExit p (execErr q) res err)) q
       | Ending i x => q <| pp_workers ::= delete k |> <| pp_results ::= fun l => l ++ [(i, x)] |>
       end.

(** The collecting loop takes its next step: it reads a result and writes the record, emits the event, calls the
    consumer, and at last cancels the batch: after a failure under [fail_fast], and after an error of
    the consumer, which also ends the loop. *)
Definition collectorStep p q : option Pool :=
  match pp_error q, pp_collector q with
  | Some _, _ => None
  | None, Reading =>
      match pp_results q with
      | [] => None
      | (i, x) :: results =>
          Some (q <| pp_run ::= fun s => s <| tn_records ::= alter (writeExecution x) i |> |>
                  <| pp_results := results |> <| pp_collector := Written i x |>)
      end
  | None, Written i x =>
      let r := recordAt (pp_run q) i in
      Some (q <| pp_run ::= emitTimeline p (tm_Status r) (collectReasonForRecord r) (Some r) |>
              <| pp_collector := Emitted i x |>)
  | None, Emitted i x =>
      let '(s, err) := notify (TaskUpdated (recordAt (pp_run q) i)) (pp_run q) in
      Some (q <| pp_run := s |> <| pp_collector := Notified i x err |>)
  | None, Notified i x err =>
      let q := q <| pp_collector := Reading |> in
      Some match err with
           | Some e => cancelBatch q <| pp_error := Some e |>
           | None => if (tp_FailurePolicy p =s? TeamFailFast) && failedExecution (tm_Status (recordAt (pp_run q) i))
                     then cancelBatch q else q
           end
  end.

(** A schedule: which goroutine takes the next step; the world may change in between. *)
Inductive PoolAction : Type :=
| Take
| Work (k : nat)
| Collect
| World (w : W).

Definition poolStep p (workers : nat) q (a : PoolAction) : option Pool :=
  match a with
  | Take => takeStep workers q
  | Work k => workerStep p k q
  | Collect => collectorStep p q
  | World w => Some (q <| pp_run ::= fun s => s <| tn_world := w |> |>)
  end.

Fixpoint poolRun p (workers : nat) q (sched : list PoolAction) : option Pool :=
  match sched with
  | [] => Some q
  | a :: sched => q ← poolStep p workers q a; poolRun p workers q sched
  end.

(** The collecting loop has ended: by an error, or because the channel of results is closed and empty. *)
Definition collected q : bool :=
  match pp_error q, pp_jobs q, pp_workers q, pp_results q, pp_collector q with
  | Some _, _, _, _, _ => true
  | None, [], [], [], Reading => true
  | _, _, _, _, _ => false
  end.

Fixpoint updateAll p (idx : list nat) (f : TeamRecord -> TeamRecord) (reason : TeamRecord -> string) s : TeamRun * option TeamError :=
  match idx with
  | [] => (s, None)
  | i :: idx =>
      match updateRecord p i f reason s with
      | (s, Some e) => (s, Some e)
      | (s, None) => updateAll p idx f reason s
      end
  end.

Fixpoint askAll p (idx : list nat) (pendingIDs : list string) s : TeamRun * option TeamError :=
  match idx with
  | [] => (s, None)
  | i :: idx =>
      match taskAt p i with
      | None => (s, None)
      | Some t =>
          match askPause (mkTeamPauseBoundary p t pendingIDs) s with
          | (s, Some e) => (s, Some e)
          | (s, None) => askAll p idx pendingIDs s
          end
      end
  end.

Definition pendingIndices (records : list TeamRecord) : list nat :=
  filter (fun i => tm_Status <$> records !! i = Some TaskStatusPending) (seq 0 (length records)).

(** The tasks to run and to skip, by their indices in the plan. *)
Definition parallelWork p (records : list TeamRecord) : list nat * list nat * string :=
  let pending := pendingIndices records in
  let '(run, skipped, reason) := selectParallelWork (p <| tp_Tasks := omap (taskAt p) pending |>) in
  (omap (fun k => pending !! k) run, omap (fun k => pending !! k) skipped, reason).

(** [None]: the schedule does not bring the batch to its end. *)
Definition runPool p (sched : list PoolAction) (runIdx : list nat) s : option (TeamRun * option TeamError) :=
  let workers := if tp_ParallelMaxWorkers p <=? 0 then 1%nat else Z.to_nat (tp_ParallelMaxWorkers p) in
  q ← poolRun p workers (newPool s runIdx) sched;
  if collected q then Some (pp_run q, pp_error q) else None.

Definition runParallel p (sched : list PoolAction) s : option (TeamRun * option TeamError) :=
  let '(runIdx, skippedIdx, skipReason) := parallelWork p (tn_records s) in
  match updateAll p skippedIdx (skipRecord skipReason) collectReasonForRecord s with
  | (s, Some e) => Some (s, Some e)
  | (s, None) =>
      if bool_decide (runIdx = []) then Some (s, None)
      else match askAll p runIdx (pendingTaskIDs p (tn_records s)) s with
      | (s, Some e) => Some (s, Some e)
      | (s, None) =>
          match updateAll p runIdx markRunning dispatchReasonForRecord s with
          | (s, Some e) => Some (s, Some e)
          | (s, None) => runPool p sched runIdx s
          end
      end
  end.

(** *** A run *)

(** Without a continuation store a pause is refused. *)
Definition persistPausedResult (e : TeamError) : TeamError :=
  match e with
  | TeamPauseError _ => OtherTeamError ErrTeamContinuationUnsupported
  | OtherTeamError e => OtherTeamError e
  end.

(** The result, unless it is the zero one, and the error. *)
Definition resolveRun p s : TeamRun * (option TeamResult * option TeamError) :=
  let result := buildResult p (tn_records s) in
  let result := if tp_Strategy p =s? StrategyVote
                then result <| tu_WinnerVote := resolveVoteWinner (tn_records s) (tp_VoteTieBreak p) |> else result in
  let s := emitTimeline p (resolveStatus result) ReasonResolve None s in
  match notify (TeamResolved result) s with
  | (s, Some e) => (s, (None, Some e))
  | (s, None) =>
      let ctx := th_ctx h (tn_world s) in
      (s, (Some result, if contextEnded ctx then OtherTeamError <$> ctx else None))
  end.

Definition executeWithRecords p (sched : list PoolAction) (records : list TeamRecord) w
    : option (TeamRun * (option TeamResult * option TeamError)) :=
  let s := mkTeamRun records 0 [] w in
  let ran :=
    if tp_Strategy p =s? StrategySerial then Some (runSerial p (imap pair (tp_Tasks p)) false s)
    else if (tp_Strategy p =s? StrategyParallel) || (tp_Strategy p =s? StrategyVote) then runParallel p sched s
    else Some (s, Some (OtherTeamError (ErrorString ("unsupported team strategy " +:+ fmt_q (tp_Strategy p))))) in
  match ran with
  | None => None
  | Some (s, Some e) => Some (s, (None, Some (persistPausedResult e)))
  | Some (s, None) => Some (resolveRun p s)
  end.

Definition newRecord (t : TeamTask) : TeamRecord :=
  mkTeamRecord (tt_TaskID t) (tt_AgentID t) (tt_Role t) (tt_Target t) (tt_CollabPrimitive t) (rt_PeerID (tt_Remote t))
    (tt_Priority t) TaskStatusPending "" "" "" None.

(** The array of tasks the caller shares comes first. *)
Definition TeamExecute (raw : TeamPlan) (sched : list PoolAction) w
    : option (list TeamTask * W * (list Event * (option TeamResult * option TeamError))) :=
  match normalizePlan raw with
  | (tasks, Err e) => Some (tasks, w, ([], (None, Some (OtherTeamError e))))
  | (tasks, Ok p) =>
      match executeWithRecords p sched (newRecord <$> tp_Tasks p) w with
      | None => None
      | Some (s, res) => Some (tasks, tn_world s, (tn_events s, res))
      end
  end.
End engine.
Arguments TeamHost : clear implicits.
Arguments TeamRun : clear implicits.
Arguments Pool : clear implicits.
Arguments PoolAction : clear implicits.

(** [Run] has no consumer, [Stream] has one. *)
Definition TeamRunPlan {sorting : SortSlice} {quote : QuoteText} {W} (h : TeamHost W) :=
  TeamExecute (mkTeamHost (th_ctx h) (th_now h) (th_run h) (th_runRemote h) (th_pause h) None (th_timeline h)).

(** ** The dependencies of a plan *)

Definition teamNode (strategy : string) (previous : option TeamTask) (t : TeamTask) : Node :=
  mkNode (tt_TaskID t) (if strategy =s? StrategySerial then match previous with Some b => [tt_TaskID b] | None => [] end else []).

Fixpoint teamNodes (strategy : string) (previous : option TeamTask) (tasks : list TeamTask) : list Node :=
  match tasks with
  | [] => []
  | t :: tasks => teamNode strategy previous t :: teamNodes strategy (Some t) tasks
  end.

Definition ProjectTeamGraph {quote : QuoteText} `{GraphCodec} (input : TeamPlan) : result (GoError + GraphError) Compiled :=
  match NormalizePlan input with
  | Err e => Err (inl e)
  | Ok p =>
      match Compile (mkGraphDefinition (tp_TeamID p) "v1" (teamNodes (tp_Strategy p) None (tp_Tasks p))) with
      | Err e => Err (inr e)
      | Ok c => Ok c
      end
  end.

(** ** Runners on remote peers *)

(** The id a generator gives, or one made of the task, the clock and a counter. *)
Definition remoteTaskID (generated : option string) (wall : Time) (counter : Z) (t : TeamTask) : string :=
  let id := TrimSpace (default "" generated) in
  orDefaultText (TrimSpace (tt_TaskID t) +:+ "-" +:+ itoa (UnixNano wall) +:+ "-" +:+ itoa counter) id.

Definition remoteMethod (t : TeamTask) : string := orDefaultText "team.dispatch" (TrimSpace (rt_Method (tt_Remote t))).

Definition teamInvokeRequest (p : TeamPlan) (t : TeamTask) (taskID : string) (pollInterval : Duration) : InvokeRequest :=
  mkInvokeRequest taskID (TrimSpace (tp_WorkflowID p)) (TrimSpace (tp_TeamID p)) (TrimSpace (tp_StepID p))
    (TrimSpace (tt_AgentID t)) (TrimSpace (rt_PeerID (tt_Remote t))) (remoteMethod t) (rt_Payload (tt_Remote t)) pollInterval None.

(** What a delegation makes of the task. *)
Definition teamTaskResult {quote : QuoteText} {mv : MapValue} (o : CollabOutcome) (err : option GoError) : TaskResult * option GoError :=
  let zero := mkTaskResult None "" in
  match err with
  | Some e => (zero, Some e)
  | None =>
      if co_Status o =s? CollabSucceeded then
        (mkTaskResult (Some (map_value (co_Payload o)))
           (match co_Payload o !! "vote" with Some (AnyString v) => TrimSpace v | _ => "" end), None)
      else (zero, Some (ErrorString (orDefaultText ("a2a task status " +:+ fmt_q (co_Status o)) (TrimSpace (co_Error o)))))
  end.

Section remote.
Context {quote : QuoteText} {pow : MathPow} {mv : MapValue} {order : RangeOrder} {C : Type}.
Context (source : nat -> string) (timer : Duration -> C -> C * option GoError).

Definition A2ARemoteTaskRunner `{InvokeClient C} (env : Z -> BridgeEnv) (retry : RetryConfig) (observer : bool)
    (pollInterval : Duration) (generated : option string) (wall : Time) (counter : Z) (p : TeamPlan) (t : TeamTask) (c : C)
    : option (C * list RetryEvent * (TaskResult * option GoError)) :=
  match DelegateSyncWithRetry (H := fresh_bridges source) timer env retry observer 0%nat c
          (teamInvokeRequest p t (remoteTaskID generated wall counter t) pollInterval) with
  | None => None
  | Some (_, c, log, (o, err)) => Some (c, log, teamTaskResult o err)
  end.

Definition teamAsyncRequest (p : TeamPlan) (t : TeamTask) (taskID : string) : AsyncRequest :=
  mkAsyncRequest taskID (TrimSpace (tp_WorkflowID p)) (TrimSpace (tp_TeamID p)) (TrimSpace (tp_StepID p)) "1"
    (TrimSpace (tt_AgentID t)) (TrimSpace (rt_PeerID (tt_Remote t))) (remoteMethod t) (rt_Payload (tt_Remote t)).

Definition acceptedOutput (ack : DelegationAsyncAck) : any_map :=
  list_to_map [("async_accepted", AnyBool true); ("async_task_id", AnyString (TrimSpace (dk_TaskID ack)));
    ("workflow_id", AnyString (TrimSpace (dk_WorkflowID ack))); ("team_id", AnyString (TrimSpace (dk_TeamID ack)));
    ("step_id", AnyString (TrimSpace (dk_StepID ack))); ("peer_id", AnyString (TrimSpace (dk_PeerID ack)))].

Definition A2AAsyncRemoteTaskRunner {S} `{InvokeAsyncClient C} (e : Z -> MailboxEnv) (wallOf : Z -> Time) (env : Z -> MailboxEnv)
    (retry : RetryConfig) (observer : bool) (sink : option (ReportSink S)) (generated : option string) (wall : Time)
    (counter : Z) (p : TeamPlan) (t : TeamTask) (c : C) : option (C * list RetryEvent * (TaskResult * option GoError)) :=
  match DelegateAsyncWithRetry (H := fresh_bridges source) timer e wallOf env retry observer 0%nat c
          (teamAsyncRequest p t (remoteTaskID generated wall counter t)) sink with
  | None => None
  | Some (_, c, log, Err err) => Some (c, log, (mkTaskResult None "", Some err))
  | Some (_, c, log, Ok ack) => Some (c, log, (mkTaskResult (Some (map_value (acceptedOutput ack))) "", None))
  end.
End remote.
