(* ===== verification/TeamsProps.v ===== *)
(** * Teams: theorems

    A pool of workers runs each of its tasks once and comes to its end under every schedule;
    what fail-fast means for a pool and for a serial run; which vote wins. *)
From S2P Require Import Prelude GoStrings GoNum GoText Paging CoreTypes A2ATypes A2ARouting ExecutionGraph.
From S2P Require Import Invoke Collab Teams.

Local Open Scope bool_scope.
Local Open Scope string_scope.
Local Open Scope list_scope.
Local Open Scope Z_scope.

(** ** A pool of workers *)

Definition finalStatus (st : string) : Prop := st ∈ [TaskStatusSucceeded; TaskStatusFailed; TaskStatusCanceled].

(** The context of a run ends as the package [context] says. *)
Definition standard_context {W} (h : TeamHost W) : Prop :=
  forall w e, th_ctx h w = Some e -> e = Canceled \/ e = DeadlineExceeded.

Section pool.
Context {sorting : SortSlice} {quote : QuoteText} {W : Type} (h : TeamHost W).
Implicit Types (p : TeamPlan) (q : Pool W) (s : TeamRun W).

Lemma emitTimeline_records p st re t s : tn_records (emitTimeline h p st re t s) = tn_records s.
Proof. unfold emitTimeline. by case_match. Qed.

Lemma notify_records ev s s' e : notify h ev s = (s', e) -> tn_records s' = tn_records s.
Proof. unfold notify. destruct (th_onEvent h) as [f|]; [|by intros [= <- _]]. destruct (f ev _) as [w err]. by intros [= <- _]. Qed.

Lemma updateRecord_records p i f re s s' e :
  updateRecord h p i f re s = (s', e) -> tn_records s' = alter f i (tn_records s).
Proof. unfold updateRecord. intros E%notify_records. by rewrite emitTimeline_records in E. Qed.

(** What a task ends as. *)
Lemma executeEntry_final ctx t x : executeEntry ctx t = Some x -> finalStatus (te_Status x) /\ te_Status x <> TaskStatusSucceeded.
Proof.
  unfold executeEntry. unfold finalStatus. case_match; [intros [= <-]; cbn; set_solver|].
  repeat case_match; try done; intros [= <-]; cbn; set_solver.
Qed.

Lemma executeExit_final p ctx res err :
  tp_TimeoutTerminalStatus p ∈ [TaskStatusCanceled; TaskStatusFailed] ->
  finalStatus (te_Status (executeExit p ctx res err)).
Proof.
  intros Hp. unfold executeExit, finalStatus. destruct err as [e|]; [|cbn; set_solver].
  cbn zeta. case_match; [cbn; set_solver|]. case_match; [|cbn; set_solver]. cbn. unfold orDefaultText. case_match; set_solver.
Qed.

(** One list with an element in focus. *)
Lemma list_focus {A} (l : list A) k x :
  l !! k = Some x -> exists rest, l ≡ₚ x :: rest /\ delete k l ≡ₚ rest /\ forall y, <[k := y]> l ≡ₚ y :: rest.
Proof.
  intros Hk. exists (take k l ++ drop (S k) l). split_and!.
  - rewrite <-(take_drop_middle l k x Hk) at 1. by rewrite Permutation_middle.
  - by rewrite delete_take_drop.
  - intros y. rewrite insert_take_drop by (by eapply lookup_lt_Some). by rewrite Permutation_middle.
Qed.

(** *** What a goroutine does *)

(** A worker goes on with its task; the last list has the task if its runner is called. *)
Inductive worker_moves p (ctx : option GoError) (t : TeamTask) : WorkerPhase -> WorkerPhase -> list nat -> Prop :=
| move_refused i x : executeEntry ctx t = Some x -> worker_moves p ctx t (Taken i) (Ending i x) []
| move_checked i : executeEntry ctx t = None -> worker_moves p ctx t (Taken i) (Checked i) []
| move_called i : worker_moves p ctx t (Checked i) (Running i) [i]
| move_returned i res err : worker_moves p ctx t (Running i) (Returned i res err) []
| move_exit i res err : worker_moves p ctx t (Returned i res err) (Ending i (executeExit p ctx res err)) [].

(** What the workers leave alone. *)
Definition worker_frame q q' : Prop :=
  pp_jobs q' = pp_jobs q /\ pp_collector q' = pp_collector q /\ pp_cancelled q' = pp_cancelled q /\ pp_error q' = pp_error q
  /\ tn_records (pp_run q') = tn_records (pp_run q).

Lemma workerStep_cases p k q q' :
  workerStep h p k q = Some q' ->
  exists ph rest, pp_workers q ≡ₚ ph :: rest /\ worker_frame q q'
    /\ ((exists t ph' new, worker_moves p (execErr h q) t ph ph' new /\ pp_workers q' ≡ₚ ph' :: rest
           /\ pp_results q' = pp_results q /\ pp_started q' = pp_started q ++ new)
        \/ (exists i x, ph = Ending i x /\ pp_workers q' ≡ₚ rest /\ pp_results q' = pp_results q ++ [(i, x)]
              /\ pp_started q' = pp_started q)).
Proof.
  unfold workerStep. destruct (pp_workers q !! k) as [ph|] eqn:Ek; [|done]. cbn.
  destruct (taskAt p _) as [t|]; [|done]. cbn. intros [= <-].
  destruct (list_focus _ _ _ Ek) as (rest & Hq & Hd & Hi). exists ph, rest. split; [done|].
  destruct ph as [i|i|i|i res err|i x].
  - split; [done|]. left. destruct (executeEntry _ t) as [x|] eqn:Ex; eexists t, _, []; rewrite app_nil_r;
      (split_and!; [by constructor | apply Hi | done..]).
  - split; [done|]. left. eexists t, _, [i]. split_and!; [by constructor | apply Hi | done..].
  - destruct (runTask h p t _) as [w [res err]]. split; [done|]. left. eexists t, _, []. rewrite app_nil_r.
    split_and!; [by constructor | apply Hi | done..].
  - split; [done|]. left. eexists t, _, []. rewrite app_nil_r. split_and!; [by constructor | apply Hi | done..].
  - split; [done|]. right. by exists i, x.
Qed.

(** The task of the collecting loop, from the writing of its record on. *)
Definition collecting q : option (nat * taskExecution) :=
  match pp_collector q with
  | Reading => None
  | Written i x | Emitted i x | Notified i x _ => Some (i, x)
  end.

(** The tasks whose check of the context is behind, but whose runners are not yet called. *)
Definition passed q : list nat := omap (fun ph => match ph with Checked i => Some i | _ => None end) (pp_workers q).

(** *** The invariant *)

Definition phase_ok (started : list nat) (ph : WorkerPhase) : Prop :=
  match ph with
  | Taken i | Checked i => i ∉ started
  | Running i | Returned i _ _ => i ∈ started
  | Ending i x => finalStatus (te_Status x) /\ (te_Status x = TaskStatusSucceeded -> i ∈ started)
  end.

(** What is known of a pool for the tasks [runIdx] with at most [workers] at once, that began with the records
    [recs] and has written the executions [written]. *)
Record pool_inv p (workers : nat) (runIdx : list nat) (recs : list TeamRecord) q (written : list (nat * taskExecution)) : Prop := {
  pi_perm : pp_jobs q ++ (workerTask <$> pp_workers q) ++ (pp_results q).*1 ++ written.*1 ≡ₚ runIdx;
  pi_workers : (length (pp_workers q) <= workers)%nat;
  pi_started : NoDup (pp_started q) /\ forall i, i ∈ pp_started q -> i ∈ runIdx /\ i ∉ pp_jobs q;
  pi_phases : Forall (phase_ok (pp_started q)) (pp_workers q);
  pi_final : Forall (fun ix => finalStatus (te_Status ix.2)
               /\ (te_Status ix.2 = TaskStatusSucceeded -> ix.1 ∈ pp_started q)) (pp_results q ++ written);
  pi_written : forall i x, (i, x) ∈ written -> tn_records (pp_run q) !! i = writeExecution x <$> recs !! i;
  pi_kept : forall i, i ∉ written.*1 -> tn_records (pp_run q) !! i = recs !! i;
  pi_collecting : forall ix, collecting q = Some ix -> ix ∈ written;
  pi_cancel : tp_FailurePolicy p = TeamFailFast -> forall i x, (i, x) ∈ written -> is_Some (recs !! i) ->
    failedExecution (te_Status x) = true -> collecting q = Some (i, x) \/ pp_cancelled q <> None;
  pi_error : pp_error q <> None -> pp_cancelled q <> None
}.

Lemma pool_start p workers runIdx s : pool_inv p workers runIdx (tn_records s) (newPool s runIdx) [].
Proof.
  split; cbn; try done.
  - by rewrite app_nil_r.
  - lia.
  - split; [constructor | intros i Hi; by apply elem_of_nil in Hi].
  - intros i x Hi. by apply elem_of_nil in Hi.
  - intros _ i x Hi. by apply elem_of_nil in Hi.
Qed.

Lemma phase_ok_grow started new ph :
  workerTask ph ∉ new -> phase_ok started ph -> phase_ok (started ++ new) ph.
Proof. destruct ph; cbn; set_solver. Qed.

Context (p : TeamPlan) (Hp : tp_TimeoutTerminalStatus p ∈ [TaskStatusCanceled; TaskStatusFailed]).
Context (workers : nat) (runIdx : list nat) (Hnd : NoDup runIdx) (recs : list TeamRecord).

Lemma take_inv q q' written :
  pool_inv p workers runIdx recs q written -> takeStep workers q = Some q' -> pool_inv p workers runIdx recs q' written.
Proof.
  intros [Hperm Hw (S1 & S2) Hph Hf Hwr Hk Hcol Hc He] E. unfold takeStep in E.
  destruct (pp_jobs q) as [|i jobs] eqn:Ej; [done|]. destruct (Nat.leb_spec workers (length (pp_workers q))) as [|Hlt]; [done|].
  injection E as <-. split; cbn; try done.
  - rewrite <-Hperm, fmap_app. cbn. solve_Permutation.
  - rewrite length_app. cbn. lia.
  - split; [done|]. intros j Hj. destruct (S2 j Hj). split; [done|set_solver].
  - apply Forall_app. split; [done|]. constructor; [|done]. cbn. intros H%S2. set_solver.
Qed.

(** A move keeps the task of the worker, which calls no runner that was called. *)
Lemma moves_ok ctx t ph ph' new started :
  worker_moves p ctx t ph ph' new -> phase_ok started ph ->
  workerTask ph' = workerTask ph /\ phase_ok (started ++ new) ph'
  /\ (new = [] \/ new = [workerTask ph] /\ workerTask ph ∉ started).
Proof.
  destruct 1 as [i x E|i E|i|i res err|i res err]; cbn; intros Hok; rewrite ?app_nil_r; (split; [done|]); (split; [|by auto]).
  - destruct (executeEntry_final _ _ _ E). naive_solver.
  - done.
  - set_solver.
  - done.
  - split; [by apply executeExit_final|done].
Qed.

Lemma worker_inv k q q' written :
  pool_inv p workers runIdx recs q written -> workerStep h p k q = Some q' -> pool_inv p workers runIdx recs q' written.
Proof.
  intros [Hperm Hw (S1 & S2) Hph Hf Hwr Hk Hcol Hc He] (ph & rest & Hq & (Fj & Fc & Fx & Fe & Fr) & Hstep)%workerStep_cases.
  rewrite Hq in Hperm, Hw, Hph. apply Forall_cons in Hph as [Hok Hph]. cbn in Hperm, Hw.
  destruct Hstep as [(t & ph' & new & Hm & Hq' & Er & Es)|(i & x & -> & Hq' & Er & Es)].
  - destruct (moves_ok _ _ _ _ _ _ Hm Hok) as (Ht & Hok' & Hnew).
    assert (Hin : workerTask ph ∈ runIdx /\ (workerTask ph ∉ pp_jobs q) /\ workerTask ph ∉ (workerTask <$> rest)).
    { assert (Hnd' := Hnd). rewrite <-Hperm in Hnd' |- *. clear -Hnd'. apply NoDup_app in Hnd' as (_ & Hd & Hnd').
      apply NoDup_cons in Hnd' as [Hnd' _]. split; [set_solver|]. split; [|set_solver].
      intros H. apply (Hd _ H). set_solver. }
    destruct Hin as (Hin & Hnj & Hnr).
    split; unfold collecting in *; rewrite ?Fj, ?Fc, ?Fx, ?Fe, ?Fr, ?Er, ?Es, ?Hq'; cbn; rewrite ?Ht; try done.
    + destruct Hnew as [->|[-> Hns]]; [by rewrite app_nil_r|]. split.
      * apply NoDup_app. split_and!; [done | set_solver -S2 Hperm | apply NoDup_singleton].
      * intros j [Hj| ->%list_elem_of_singleton]%elem_of_app; [by apply S2|done].
    + constructor; [done|]. rewrite Forall_forall in Hph |- *. intros ph1 H1. apply phase_ok_grow; [|by apply Hph].
      apply (list_elem_of_fmap_2 workerTask) in H1. destruct Hnew as [->|[-> _]]; [by apply not_elem_of_nil|].
      intros E%list_elem_of_singleton. apply Hnr. by rewrite <-E.
    + eapply Forall_impl; [done|]. cbn. intros [j x] [? Hsucc]. split; [done|]. intros E. apply elem_of_app. left. by apply Hsucc.
  - split; unfold collecting in *; rewrite ?Fj, ?Fc, ?Fx, ?Fe, ?Fr, ?Er, ?Es, ?Hq'; cbn; try done.
    + rewrite <-Hperm, fmap_app. cbn. solve_Permutation.
    + lia.
    + rewrite <-app_assoc, Forall_app in *. destruct Hf. split; [done|]. by constructor.
Qed.

(** The collecting loop reads a result. *)
Lemma read_inv q written i x results :
  pool_inv p workers runIdx recs q written -> pp_results q = (i, x) :: results -> collecting q = None ->
  pool_inv p workers runIdx recs
    (q <| pp_run ::= fun s => s <| tn_records ::= alter (writeExecution x) i |> |> <| pp_results := results |>
       <| pp_collector := Written i x |>) (written ++ [(i, x)]).
Proof.
  intros [Hperm Hw S Hph Hf Hwr Hk Hcol Hc He] Er Ec. rewrite Er in *. cbn in Hperm.
  assert (Hnw : i ∉ written.*1).
  { assert (Hnd' := Hnd). rewrite <-Hperm in Hnd'. clear -Hnd'. apply NoDup_app in Hnd' as (_ & _ & Hnd').
    apply NoDup_app in Hnd' as (_ & _ & Hnd'). apply NoDup_cons in Hnd' as [Hnd' _]. set_solver. }
  split; cbn; try done.
  - rewrite <-Hperm, fmap_app. cbn. solve_Permutation.
  - rewrite app_assoc, Forall_app. apply Forall_cons in Hf as [Hx Hf]. split; [done|]. by constructor.
  - intros j y [Hj|Hj%list_elem_of_singleton]%elem_of_app.
    + rewrite list_lookup_alter_ne; [by apply Hwr|]. intros ->. apply Hnw. by apply (list_elem_of_fmap_2 fst) in Hj.
    + injection Hj as -> ->. rewrite list_lookup_alter_eq. by rewrite Hk.
  - intros j Hj. rewrite fmap_app, not_elem_of_app in Hj. cbn in Hj. destruct Hj as [Hj Hne].
    rewrite list_lookup_alter_ne by (clear -Hne; set_solver). by apply Hk.
  - intros ix [= <-]. apply elem_of_app. right. by apply list_elem_of_singleton.
  - intros Hff j y [Hj|Hj%list_elem_of_singleton]%elem_of_app Hs Hfail; [|injection Hj as -> ->; by left].
    right. destruct (Hc Hff j y Hj Hs Hfail) as [H|H]; [by rewrite Ec in H | done].
Qed.

(** The other steps of the loop leave the records, the tasks and the results alone, and keep the task of the
    loop until they may cancel the batch. *)
Lemma collector_frame_inv q q' written :
  pool_inv p workers runIdx recs q written ->
  pp_jobs q' = pp_jobs q -> pp_workers q' = pp_workers q -> pp_results q' = pp_results q -> pp_started q' = pp_started q ->
  tn_records (pp_run q') = tn_records (pp_run q) -> (pp_cancelled q <> None -> pp_cancelled q' <> None) ->
  (pp_error q' <> None -> pp_cancelled q' <> None) ->
  (collecting q' = collecting q
   \/ collecting q' = None
      /\ forall i x, tp_FailurePolicy p = TeamFailFast -> collecting q = Some (i, x) -> is_Some (recs !! i) ->
           failedExecution (te_Status x) = true -> pp_cancelled q' <> None) ->
  pool_inv p workers runIdx recs q' written.
Proof.
  intros [Hperm Hw S Hph Hf Hwr Hk Hcol Hc He] Ej Ew Er Es Ere Hcan Herr Hco.
  split; rewrite ?Ej, ?Ew, ?Er, ?Es, ?Ere; try done.
  - intros ix Hix. destruct Hco as [Hco|[Hco _]]; rewrite Hco in Hix; [by apply Hcol | done].
  - intros Hff i x Hi Hs Hfail. destruct (Hc Hff i x Hi Hs Hfail) as [H|H]; [|by right; apply Hcan].
    destruct Hco as [Hco|[_ Hco]]; [left; by rewrite Hco | right; by eapply Hco].
Qed.

Lemma collecting_record q written i x :
  pool_inv p workers runIdx recs q written -> collecting q = Some (i, x) -> is_Some (recs !! i) ->
  tm_Status (recordAt (pp_run q) i) = te_Status x.
Proof.
  intros HI Hc [r Hr]. unfold recordAt. by rewrite (pi_written _ _ _ _ _ _ HI i x (pi_collecting _ _ _ _ _ _ HI _ Hc)), Hr.
Qed.

Lemma collector_inv q q' written :
  pool_inv p workers runIdx recs q written -> collectorStep h p q = Some q' ->
  exists written', pool_inv p workers runIdx recs q' written'.
Proof.
  intros HI. pose proof (pi_error _ _ _ _ _ _ HI) as Herr. unfold collectorStep.
  destruct (pp_error q) eqn:Ee; [done|]. destruct (pp_collector q) as [|i x|i x|i x err] eqn:Eco.
  - destruct (pp_results q) as [|[i x] results] eqn:Er; [done|]. intros [= <-]. eexists.
    apply read_inv; [done..|]. unfold collecting. by rewrite Eco.
  - intros [= <-]. exists written. eapply collector_frame_inv; [done| by cbn ..| | | |]; cbn; try done.
    + apply emitTimeline_records.
    + left. unfold collecting. by rewrite Eco.
  - destruct (notify h _ _) as [s err] eqn:En. apply notify_records in En. intros [= <-]. exists written.
    eapply collector_frame_inv; [done| by cbn ..| | |]; cbn; try done.
    left. unfold collecting. by rewrite Eco.
  - intros [= <-]. exists written.
    assert (Hq : collecting q = Some (i, x)) by (unfold collecting; by rewrite Eco).
    destruct err as [e|]; [eapply collector_frame_inv; [done| by cbn ..|]; cbn; try done; by right|].
    destruct (_ && _) eqn:Ef; (eapply collector_frame_inv; [done| by cbn ..|]; cbn; try done); right; split; try done.
    intros j y Hff Hj Hs Hfail. rewrite Hq in Hj. injection Hj as <- <-. cbn in Ef.
    rewrite (collecting_record q written i x HI Hq Hs), Hff, str_eqb_refl, Hfail in Ef. done.
Qed.

Lemma world_inv q written w :
  pool_inv p workers runIdx recs q written ->
  pool_inv p workers runIdx recs (q <| pp_run ::= fun s => s <| tn_world := w |> |>) written.
Proof. intros HI. eapply collector_frame_inv; [done| by cbn ..| |]; [by destruct HI | by left]. Qed.

Lemma pool_step_inv q q' written a :
  pool_inv p workers runIdx recs q written -> poolStep h p workers q a = Some q' ->
  exists written', pool_inv p workers runIdx recs q' written'.
Proof.
  intros HI. destruct a as [|k| |w]; cbn [poolStep]; intros E.
  - exists written. by eapply take_inv.
  - exists written. by eapply worker_inv.
  - by eapply collector_inv.
  - injection E as <-. exists written. by apply world_inv.
Qed.

Lemma pool_run_inv sched q q' written :
  pool_inv p workers runIdx recs q written -> poolRun h p workers q sched = Some q' ->
  exists written', pool_inv p workers runIdx recs q' written'.
Proof.
  revert q written. induction sched as [|a sched IH]; intros q written HI; cbn; [intros [= <-]; by eexists|].
  destruct (poolStep h p workers q a) as [q1|] eqn:E; [|done]. destruct (pool_step_inv _ _ _ _ HI E) as [w1 H1]. by apply (IH q1 w1).
Qed.

(** *** Cancelled batches *)

Lemma passed_length q : (length (passed q) <= length (pp_workers q))%nat.
Proof. unfold passed. induction (pp_workers q) as [|[] l IH]; cbn; lia. Qed.

(** In an ended context a worker moves to a call of its runner only from behind the check. *)
Lemma ended_moves ctx t ph ph' new rest :
  contextEnded ctx = true -> worker_moves p ctx t ph ph' new ->
  let passing := omap (fun ph => match ph with Checked i => Some i | _ => None end) in
  new ++ passing (ph' :: rest) = passing (ph :: rest).
Proof.
  intros Hctx. destruct 1 as [i x E|i E|i|i res err|i res err]; cbn; try done.
  unfold executeEntry in E. rewrite Hctx in E. by destruct ctx.
Qed.

Lemma cancelled_step q q' a e :
  pp_cancelled q = Some e -> contextEnded (Some e) = true -> poolStep h p workers q a = Some q' ->
  pp_cancelled q' = Some e /\ exists new, pp_started q' = pp_started q ++ new /\ new ++ passed q' ≡ₚ passed q.
Proof.
  intros Hc He. assert (Hctx : execErr h q = Some e) by (unfold execErr; by rewrite Hc).
  assert (Hsame : forall q1, pp_cancelled q1 = Some e -> pp_started q1 = pp_started q -> passed q1 = passed q ->
    pp_cancelled q1 = Some e /\ exists new, pp_started q1 = pp_started q ++ new /\ new ++ passed q1 ≡ₚ passed q).
  { intros q1 ? ? Hpa. split; [done|]. exists []. cbn. by rewrite app_nil_r, Hpa. }
  destruct a as [|k| |w]; cbn [poolStep].
  - unfold takeStep. destruct (pp_jobs q); [done|]. case_match; [done|]. intros [= <-]. apply Hsame; [done..|].
    unfold passed. cbn. by rewrite omap_app, app_nil_r.
  - intros (ph & rest & Hq & (_ & _ & Fx & _ & _) & Hstep)%workerStep_cases.
    destruct Hstep as [(t & ph' & new & Hm & Hq' & _ & Es)|(i & x & -> & Hq' & _ & Es)]; (split; [congruence|]).
    + exists new. split; [done|]. unfold passed. rewrite Hq, Hq'. rewrite Hctx in Hm.
      by rewrite (ended_moves _ _ _ _ _ rest He Hm).
    + exists []. rewrite app_nil_r. split; [done|]. unfold passed. by rewrite Hq, Hq'.
  - unfold collectorStep. destruct (pp_error q); [done|]. destruct (pp_collector q) as [|i x|i x|i x err].
    + destruct (pp_results q) as [|[i x] ?]; [done|]. intros [= <-]. by apply Hsame.
    + intros [= <-]. by apply Hsame.
    + destruct (notify h _ _) as [s err]. intros [= <-]. by apply Hsame.
    + intros [= <-]. destruct err; [|case_match]; apply Hsame; try done; cbn; unfold execErr; cbn; by rewrite Hc.
  - intros [= <-]. by apply Hsame.
Qed.

(** Once the batch is cancelled, the runners still to be called are those of tasks past the check of the context. *)
Lemma cancelled_run sched q q' e :
  pp_cancelled q = Some e -> contextEnded (Some e) = true -> poolRun h p workers q sched = Some q' ->
  exists late, pp_started q' = pp_started q ++ late /\ late ⊆+ passed q.
Proof.
  intros Hc He. revert q Hc. induction sched as [|a sched IH]; intros q Hc; cbn.
  { intros [= <-]. exists []. split; [by rewrite app_nil_r|apply submseteq_nil_l]. }
  destruct (poolStep h p workers q a) as [q1|] eqn:E; [|done]. intros Er.
  destruct (cancelled_step _ _ _ _ Hc He E) as (Hc1 & new & Es & Hpa). destruct (IH q1 Hc1 Er) as (late & El & Hl).
  exists (new ++ late). rewrite El, Es, app_assoc. split; [done|]. rewrite <-Hpa. by apply submseteq_app.
Qed.

(** The error of a cancelled batch is one of the context. *)
Lemma cancel_standard q q' a :
  standard_context h -> (forall e, pp_cancelled q = Some e -> contextEnded (Some e) = true) ->
  poolStep h p workers q a = Some q' -> forall e, pp_cancelled q' = Some e -> contextEnded (Some e) = true.
Proof.
  intros Hctx Hc E e He. destruct (pp_cancelled q) as [e0|] eqn:E0.
  { destruct (cancelled_step _ _ _ e0 E0 (Hc _ eq_refl) E) as [Hc' _]. rewrite He in Hc'. injection Hc' as ->. by apply Hc. }
  assert (Hcancel : forall q1, pp_cancelled q1 = None -> pp_cancelled (cancelBatch h q1) = Some e -> contextEnded (Some e) = true).
  { intros q1 H1. cbn. unfold execErr. rewrite H1. intros [= <-]. destruct (th_ctx h _) as [e1|] eqn:Ec; [|done].
    by apply Hctx in Ec as [-> | ->]. }
  destruct a as [|k| |w]; cbn [poolStep] in E.
  - unfold takeStep in E. destruct (pp_jobs q); [done|]. case_match; [done|]. injection E as <-. cbn in He. congruence.
  - apply workerStep_cases in E as (ph & rest & _ & (_ & _ & Fx & _ & _) & _). congruence.
  - unfold collectorStep in E. destruct (pp_error q); [done|]. destruct (pp_collector q) as [|i x|i x|i x err].
    + destruct (pp_results q) as [|[i x] ?]; [done|]. injection E as <-. cbn in He. congruence.
    + injection E as <-. cbn in He. congruence.
    + destruct (notify h _ _) as [s err]. injection E as <-. cbn in He. congruence.
    + injection E as <-. destruct err; [|case_match; [|cbn in He; congruence]]; (eapply (Hcancel (q <| pp_collector := Reading |>)); [done|exact He]).
  - injection E as <-. cbn in He. congruence.
Qed.

Lemma run_cancel_standard sched q q' :
  standard_context h -> (forall e, pp_cancelled q = Some e -> contextEnded (Some e) = true) ->
  poolRun h p workers q sched = Some q' -> forall e, pp_cancelled q' = Some e -> contextEnded (Some e) = true.
Proof.
  intros Hctx. revert q. induction sched as [|a sched IH]; intros q H0; cbn; [by intros [= <-]|].
  destruct (poolStep h p workers q a) as [q2|] eqn:E; [|done]. apply IH. by eapply cancel_standard.
Qed.

(** *** Progress *)

Context (Hrange : Forall (fun i => is_Some (tp_Tasks p !! i)) runIdx) (Hpos : (0 < workers)%nat).

(** The steps that are left: ten for a task that waits. *)
Definition phaseWork (ph : WorkerPhase) : nat :=
  match ph with Taken _ => 9 | Checked _ => 8 | Running _ => 7 | Returned _ _ _ => 6 | Ending _ _ => 5 end.

Definition collectorWork (c : CollectorPhase) : nat :=
  match c with Reading => 0 | Written _ _ => 3 | Emitted _ _ => 2 | Notified _ _ _ => 1 end.

Definition pool_work q : nat :=
  10 * length (pp_jobs q) + sum_list_with phaseWork (pp_workers q) + 4 * length (pp_results q) + collectorWork (pp_collector q).

Definition isWorld (a : PoolAction W) : bool := match a with World _ => true | _ => false end.

Lemma moves_work ctx t ph ph' new : worker_moves p ctx t ph ph' new -> (phaseWork ph' < phaseWork ph)%nat.
Proof. destruct 1; cbn; lia. Qed.

Lemma step_work q q' a : poolStep h p workers q a = Some q' -> isWorld a = false -> (pool_work q' < pool_work q)%nat.
Proof.
  intros E Ha. unfold pool_work. destruct a as [|k| |w]; [| | |done]; cbn [poolStep] in E.
  - unfold takeStep in E. destruct (pp_jobs q) as [|i jobs] eqn:Ej; [done|]. case_match; [done|]. injection E as <-. cbn.
    rewrite sum_list_with_app. cbn. lia.
  - apply workerStep_cases in E as (ph & rest & Hq & (Fj & Fc & _ & _ & _) & Hstep). rewrite Hq, Fj, Fc.
    destruct Hstep as [(t & ph' & new & Hm%moves_work & Hq' & -> & _)|(i & x & -> & Hq' & -> & _)]; rewrite Hq'; cbn;
      rewrite ?length_app; cbn; lia.
  - unfold collectorStep in E. destruct (pp_error q); [done|]. destruct (pp_collector q) as [|i x|i x|i x err].
    + destruct (pp_results q) as [|[i x] ?]; [done|]. injection E as <-. cbn. lia.
    + injection E as <-. cbn. lia.
    + destruct (notify h _ _) as [s err]. injection E as <-. cbn. lia.
    + injection E as <-. destruct err; [|case_match]; cbn; lia.
Qed.

(** A worker can take a step as long as a task is left, whether or not results are collected. *)
Lemma goroutines_progress q written :
  pool_inv p workers runIdx recs q written -> pp_jobs q <> [] \/ pp_workers q <> [] ->
  exists a q', isWorld a = false /\ a <> Collect /\ poolStep h p workers q a = Some q'.
Proof.
  intros HI Hne. pose proof (pi_perm _ _ _ _ _ _ HI) as Hperm.
  destruct (pp_workers q) as [|ph l] eqn:Er.
  - destruct (pp_jobs q) as [|i jobs] eqn:Ej; [naive_solver|]. exists Take. cbn [poolStep]. unfold takeStep. rewrite Ej, Er.
    cbn [length]. rewrite (proj2 (Nat.leb_gt workers 0)) by lia. eexists. by split_and!.
  - assert (is_Some (taskAt p (workerTask ph))) as [t Ht].
    { rewrite Forall_forall in Hrange. apply Hrange. rewrite <-Hperm. apply elem_of_app. right. by left. }
    exists (Work 0). cbn [poolStep]. unfold workerStep. rewrite Er. cbn. rewrite Ht. cbn. eexists. by split_and!.
Qed.

Lemma pool_progress q written :
  pool_inv p workers runIdx recs q written -> collected q = false ->
  exists a q', isWorld a = false /\ poolStep h p workers q a = Some q'.
Proof.
  intros HI. pose proof (goroutines_progress q written HI) as Hgo. unfold collected.
  destruct (pp_error q) eqn:Ee; [done|]. destruct (pp_collector q) as [|i x|i x|i x err] eqn:Eco.
  - destruct (pp_results q) as [|[i x] results] eqn:Er.
    + intros Hne. destruct Hgo as (a & q' & H1 & _ & H2); [|by eexists _, _].
      destruct (pp_jobs q); [|by left]. destruct (pp_workers q); [done|by right].
    + intros _. exists Collect. cbn [poolStep]. unfold collectorStep. rewrite Ee, Eco, Er. eexists. by split.
  - intros _. exists Collect. cbn [poolStep]. unfold collectorStep. rewrite Ee, Eco. eexists. by split.
  - intros _. exists Collect. cbn [poolStep]. unfold collectorStep. rewrite Ee, Eco. destruct (notify h _ _). eexists. by split.
  - intros _. exists Collect. cbn [poolStep]. unfold collectorStep. rewrite Ee, Eco. eexists. by split.
Qed.

Lemma pool_finishes n q written :
  pool_inv p workers runIdx recs q written -> (pool_work q <= n)%nat ->
  exists sched q', (length sched <= n)%nat /\ poolRun h p workers q sched = Some q' /\ collected q' = true.
Proof.
  revert q written. induction n as [|n IH]; intros q written HI Hn; destruct (collected q) eqn:Ec.
  1, 3: exists [], q; split_and!; [cbn; lia | done | done].
  all: destruct (pool_progress q written HI Ec) as (a & q1 & Ha & E); pose proof (step_work q q1 a E Ha).
  { lia. }
  destruct (pool_step_inv _ _ _ _ HI E) as [w1 H1]. destruct (IH q1 w1 H1) as (sched & q' & Hl & Er & Hc); [lia|].
  exists (a :: sched), q'. split_and!; [cbn; lia | cbn; by rewrite E | done].
Qed.
End pool.

(** C31: a pool runs each task once. Let a pool begin with distinct tasks of a normalised plan, and let its goroutines take
    any steps in any order, while the world changes in any way in between. Then at no time do more workers
    have a task than there are workers, and no runner is called twice, or for a task that was not
    given to the pool. Under [fail_fast], as soon as the collecting loop is done with a result
    that failed or was cancelled, the batch is cancelled, and so it is when an error of the
    consumer has ended the loop. Once the batch is cancelled, whatever steps follow, the only runners still called are
    those of tasks that had passed their check of the context before: at most one for each worker. When all
    results are read, each of the tasks has ended: its record is what one execution made of
    it, a success only if its runner was called; all other records are as before. *)
Theorem pool_runs_each_task_once {sorting : SortSlice} {quote : QuoteText} {W : Type} (h : TeamHost W) (p : TeamPlan)
    (workers : nat) (runIdx : list nat) (s : TeamRun W) (sched : list (PoolAction W)) (q : Pool W) :
  standard_context h -> tp_TimeoutTerminalStatus p ∈ [TaskStatusCanceled; TaskStatusFailed] -> NoDup runIdx ->
  poolRun h p workers (newPool s runIdx) sched = Some q ->
  let records := tn_records (pp_run q) in
  let busy := workerTask <$> pp_workers q in
  (length busy <= workers)%nat
  /\ NoDup (pp_started q) /\ (forall i, i ∈ pp_started q -> i ∈ runIdx)
  /\ (forall i r, tp_FailurePolicy p = TeamFailFast -> i ∈ runIdx -> i ∉ pp_jobs q ++ busy ++ (pp_results q).*1 ->
        fst <$> collecting q <> Some i -> records !! i = Some r -> failedExecution (tm_Status r) = true -> pp_cancelled q <> None)
  /\ (pp_error q <> None -> pp_cancelled q <> None)
  /\ (pp_cancelled q <> None -> forall later q', poolRun h p workers q later = Some q' ->
        exists late, pp_started q' = pp_started q ++ late /\ late ⊆+ passed q /\ (length late <= workers)%nat)
  /\ (pp_jobs q = [] -> pp_workers q = [] -> pp_results q = [] ->
        (forall i, i ∈ runIdx -> exists x, records !! i = writeExecution x <$> tn_records s !! i /\ finalStatus (te_Status x)
           /\ (te_Status x = TaskStatusSucceeded -> i ∈ pp_started q))
        /\ (forall i, i ∉ runIdx -> records !! i = tn_records s !! i)).
Proof.
  intros Hctx Hp Hnd E records busy.
  destruct (pool_run_inv h p Hp workers runIdx Hnd (tn_records s) sched _ q [] (pool_start p workers runIdx s) E) as [written HI].
  destruct HI as [Hperm Hw (S1 & S2) Hph Hf Hwr Hk Hcol Hc He]. fold records in Hwr, Hk. fold busy in Hperm.
  assert (Hx : forall i, i ∈ written.*1 -> exists x, (i, x) ∈ written).
  { intros i ([j x] & -> & Hi)%list_elem_of_fmap. by exists x. }
  split_and!; [unfold busy; by rewrite length_fmap | done | intros i Hi; by apply S2 | | done | |].
  - intros i r Hff Hi Hnot Hno Hr Hfail. destruct (Hx i) as [y Hy].
    { rewrite <-Hperm, !elem_of_app in Hi. rewrite !elem_of_app in Hnot. tauto. }
    specialize (Hwr i y Hy). rewrite Hr in Hwr. destruct (tn_records s !! i) as [r0|] eqn:Er0; [|done]. injection Hwr as ->.
    destruct (Hc Hff i y Hy) as [H|H]; [by rewrite Er0 | done | by rewrite H in Hno | done].
  - intros Hcan later q' E'. destruct (pp_cancelled q) as [e|] eqn:Ec; [|done].
    destruct (cancelled_run h p workers later q q' e Ec) as (late & El & Hl); [|done|].
    { by eapply (run_cancel_standard h p workers sched (newPool s runIdx)). }
    exists late. split_and!; [done..|]. apply submseteq_length in Hl. pose proof (passed_length q). lia.
  - intros Ej Eru Ere. unfold busy in Hperm. rewrite Ej, Eru, Ere in *. cbn in Hperm, Hf. split.
    + intros i Hi. rewrite <-Hperm in Hi. destruct (Hx i Hi) as [x Hin]. exists x.
      rewrite Forall_forall in Hf. split; [by apply Hwr|]. by apply (Hf (i, x)).
    + intros i Hi. apply Hk. by rewrite Hperm.
Qed.

(** ** The tasks of a batch *)

Lemma filter_partition {A} (P : A -> Prop) `{forall x, Decision (P x)} (l : list A) :
  filter P l ++ filter (fun x => ~ P x) l ≡ₚ l.
Proof.
  induction l as [|x l IH]; [done|]. rewrite !filter_cons. destruct (decide (P x)) as [Hx|Hx].
  - rewrite decide_False by naive_solver. cbn. by rewrite IH.
  - rewrite decide_True by done. rewrite <-Permutation_middle. by rewrite IH.
Qed.

Lemma selectParallelWork_partition {sorting : SortSlice} p run skipped reason :
  selectParallelWork p = (run, skipped, reason) -> run ++ skipped ≡ₚ seq 0 (length (tp_Tasks p)).
Proof.
  unfold selectParallelWork. destruct (Nat.eqb_spec (length (tp_Tasks p)) 0) as [->|]; [by intros [= <- <- _]|].
  destruct ((tp_ParallelMaxWorkers p <=? 0) || _) eqn:Em; [intros [= <- <- _]; by rewrite app_nil_r|].
  apply orb_false_iff in Em as [_ Em%Nat.leb_gt].
  case_match; [intros [= <- <- _]|]. 
  { rewrite <-seq_app. by replace (_ + _)%nat with (length (tp_Tasks p)) by lia. }
  case_match; intros [= <- <- _]; [apply filter_partition | by rewrite app_nil_r].
Qed.

Lemma pendingIndices_spec records :
  NoDup (pendingIndices records)
  /\ forall i, i ∈ pendingIndices records <-> tm_Status <$> records !! i = Some TaskStatusPending.
Proof.
  unfold pendingIndices. split; [apply NoDup_filter, NoDup_seq|]. intros i. rewrite list_elem_of_filter, elem_of_seq.
  split; [by intros [? _]|]. intros H. split; [done|]. destruct (records !! i) eqn:E; [|done]. apply lookup_lt_Some in E. lia.
Qed.

Lemma omap_lookup_seq {A} (l : list A) : omap (fun k => l !! k) (seq 0 (length l)) = l.
Proof.
  assert (forall pre suf : list A, omap (fun k => (pre ++ suf) !! k) (seq (length pre) (length suf)) = suf) as H; [|apply (H [])].
  intros pre suf. revert pre. induction suf as [|x suf IH]; intros pre; [done|]. cbn.
  rewrite list_lookup_middle by done. f_equal. specialize (IH (pre ++ [x])). rewrite <-app_assoc, length_app in IH. cbn in IH.
  by rewrite Nat.add_1_r in IH.
Qed.

Lemma omap_all_length {A B} (f : A -> option B) (l : list A) : Forall (fun x => is_Some (f x)) l -> length (omap f l) = length l.
Proof. induction 1 as [|x l [y Hy] _ IH]; [done|]. cbn. rewrite Hy. cbn. by rewrite IH. Qed.

(** The pending tasks of a batch are those it runs and those it skips. *)
Lemma parallelWork_partition {sorting : SortSlice} p records run skipped reason :
  length records = length (tp_Tasks p) -> parallelWork p records = (run, skipped, reason) ->
  run ++ skipped ≡ₚ pendingIndices records.
Proof.
  intros Hl. unfold parallelWork. destruct (selectParallelWork _) as [[run0 skipped0] reason0] eqn:E. intros [= <- <- _].
  apply selectParallelWork_partition in E. cbn in E.
  assert (length (omap (taskAt p) (pendingIndices records)) = length (pendingIndices records)) as Hlen.
  { apply omap_all_length. apply Forall_forall. intros i Hi. apply pendingIndices_spec in Hi.
    destruct (records !! i) eqn:Ei; [|done]. apply lookup_lt_Some in Ei. apply lookup_lt_is_Some. lia. }
  rewrite <-omap_app, E, Hlen. by rewrite omap_lookup_seq.
Qed.

Section batch.
Context {sorting : SortSlice} {quote : QuoteText} {W : Type} (h : TeamHost W) (p : TeamPlan).
Implicit Types (s : TeamRun W).

Lemma updateAll_records idx f re s s' i :
  updateAll h p idx f re s = (s', None) -> NoDup idx ->
  tn_records s' !! i = (if decide (i ∈ idx) then f <$> tn_records s !! i else tn_records s !! i).
Proof.
  revert s. induction idx as [|j idx IH]; intros s; cbn; [by intros [= <-] _|].
  destruct (updateRecord h p j f re s) as [s1 [e|]] eqn:E; [done|]. intros Hu [Hj Hnd]%NoDup_cons.
  rewrite (IH s1 Hu Hnd). apply updateRecord_records in E. rewrite E. destruct (decide (i = j)) as [->|Hne].
  - rewrite decide_False, decide_True by set_solver. apply list_lookup_alter_eq.
  - rewrite list_lookup_alter_ne by done. destruct (decide (i ∈ idx)).
    + by rewrite decide_True by set_solver.
    + by rewrite decide_False by set_solver.
Qed.

Lemma updateAll_length idx f re s s' e : updateAll h p idx f re s = (s', e) -> length (tn_records s') = length (tn_records s).
Proof.
  revert s. induction idx as [|j idx IH]; intros s; cbn; [by intros [= <- _]|].
  destruct (updateRecord h p j f re s) as [s1 [e1|]] eqn:E; apply updateRecord_records in E; [intros [= <- _]|intros Hu%IH; rewrite Hu];
    by rewrite E, length_alter.
Qed.

Lemma askAll_records idx ids s s' e : askAll h p idx ids s = (s', e) -> tn_records s' = tn_records s.
Proof.
  revert s. induction idx as [|j idx IH]; intros s; cbn; [by intros [= <- _]|].
  destruct (taskAt p j) as [t|]; [|by intros [= <- _]].
  destruct (askPause h _ s) as [s1 e1] eqn:E. assert (tn_records s1 = tn_records s) as Hr.
  { revert E. unfold askPause. destruct (th_pause h) as [f|]; [|by intros [= <- _]]. destruct (f _ _). by intros [= <- _]. }
  destruct e1; [by intros [= <- _]|]. intros Ha%IH. congruence.
Qed.

Context (Hp : tp_TimeoutTerminalStatus p ∈ [TaskStatusCanceled; TaskStatusFailed]).

(** The end of a batch without an error. *)
Lemma collected_empty (q : Pool W) : collected q = true -> pp_error q = None -> pp_jobs q = [] /\ pp_workers q = [] /\ pp_results q = [].
Proof. unfold collected. intros Hc He. rewrite He in Hc. by destruct (pp_jobs q), (pp_workers q), (pp_results q). Qed.

Lemma runPool_records sched runIdx s s' :
  NoDup runIdx -> runPool h p sched runIdx s = Some (s', None) ->
  (forall i, i ∈ runIdx -> exists x, tn_records s' !! i = writeExecution x <$> tn_records s !! i /\ finalStatus (te_Status x))
  /\ (forall i, i ∉ runIdx -> tn_records s' !! i = tn_records s !! i).
Proof.
  intros Hnd. unfold runPool. set (workers := if _ <=? 0 then _ else _). clearbody workers.
  destruct (poolRun h p workers _ sched) as [q|] eqn:E; [|done]. cbn. destruct (collected q) eqn:Ec; [|done]. intros [= <- Ee].
  destruct (pool_run_inv h p Hp workers runIdx Hnd (tn_records s) sched _ q [] (pool_start p workers runIdx s) E) as [written HI].
  apply collected_empty in Ec as (Ej & Er & Eres); [|done].
  destruct HI as [Hperm _ _ _ Hf Hwr Hk _ _ _]. rewrite Ej, Er, Eres in *. cbn in Hperm, Hf. split.
  - intros i Hi. rewrite <-Hperm in Hi. apply list_elem_of_fmap in Hi as ([j x] & -> & Hin). exists x. split; [by apply Hwr|].
    rewrite Forall_forall in Hf. by apply (Hf (j, x)).
  - intros i Hi. apply Hk. by rewrite Hperm.
Qed.

(** What a batch writes, from the choice of its tasks to its end. *)
Lemma runParallel_records sched runIdx skippedIdx reason s s' :
  NoDup runIdx -> NoDup skippedIdx -> (forall i, i ∈ runIdx -> i ∉ skippedIdx) ->
  match updateAll h p skippedIdx (skipRecord reason) collectReasonForRecord s with
  | (s, Some e) => Some (s, Some e)
  | (s, None) =>
      if bool_decide (runIdx = []) then Some (s, None)
      else match askAll h p runIdx (pendingTaskIDs p (tn_records s)) s with
      | (s, Some e) => Some (s, Some e)
      | (s, None) =>
          match updateAll h p runIdx markRunning dispatchReasonForRecord s with
          | (s, Some e) => Some (s, Some e)
          | (s, None) => runPool h p sched runIdx s
          end
      end
  end = Some (s', None) ->
  forall i,
    (i ∈ runIdx -> exists x, tn_records s' !! i = writeExecution x ∘ markRunning <$> tn_records s !! i /\ finalStatus (te_Status x))
    /\ (i ∈ skippedIdx -> tn_records s' !! i = skipRecord reason <$> tn_records s !! i)
    /\ (i ∉ runIdx -> i ∉ skippedIdx -> tn_records s' !! i = tn_records s !! i).
Proof.
  intros Hnr Hns Hdis E i. destruct (updateAll h p skippedIdx _ _ s) as [s1 [e|]] eqn:E1; [done|].
  pose proof (updateAll_records skippedIdx _ _ s s1 i E1 Hns) as R1. case_bool_decide as Hnil.
  { subst runIdx. injection E as <-. split_and!; [set_solver|..]; intros; rewrite R1; [by rewrite decide_True|by rewrite decide_False]. }
  destruct (askAll h p runIdx _ s1) as [s2 [e|]] eqn:E2; [done|]. apply askAll_records in E2.
  destruct (updateAll h p runIdx _ _ s2) as [s3 [e|]] eqn:E3; [done|].
  pose proof (updateAll_records runIdx _ _ s2 s3 i E3 Hnr) as R3. rewrite E2 in R3.
  destruct (runPool_records sched runIdx s3 s' Hnr E) as [Hin Hout]. split_and!.
  - intros Hi. destruct (Hin i Hi) as (x & Hx & Hf). exists x. split; [|done]. rewrite Hx, R3, decide_True, R1 by done.
    rewrite decide_False by (by apply Hdis). by destruct (tn_records s !! i).
  - intros Hi. assert (i ∉ runIdx) by (intros ?; by eapply Hdis). rewrite Hout, R3, decide_False, R1, decide_True; done.
  - intros Hi Hi'. rewrite Hout, R3, decide_False, R1, decide_False; done.
Qed.

Lemma runPool_finishes runIdx s :
  NoDup runIdx -> Forall (fun i => is_Some (tp_Tasks p !! i)) runIdx ->
  exists sched, (length sched <= 10 * length runIdx)%nat /\ is_Some (runPool h p sched runIdx s).
Proof.
  intros Hnd Hr. unfold runPool. set (workers := if _ <=? 0 then _ else _).
  assert (0 < workers)%nat as Hpos by (unfold workers; destruct (Z.leb_spec (tp_ParallelMaxWorkers p) 0); lia). clearbody workers.
  destruct (pool_finishes h p Hp workers runIdx Hnd (tn_records s) Hr Hpos (10 * length runIdx) _ [] (pool_start p workers runIdx s))
    as (sched & q & Hl & E & Hc); [unfold pool_work; cbn; lia|].
  exists sched. split; [done|]. rewrite E. cbn. rewrite Hc. by eexists.
Qed.
End batch.

(** A batch settles every task. Let the plan be normalised and have a record for each task. A schedule of at most ten
    steps per pending task brings the batch to its end. Under every schedule that does, unless the pause
    controller or the consumer of the stream returned an error, a record that was pending ends as a success,
    a failure or cancelled, or is skipped for the reason of the backpressure mode; a record
    that was not pending is not changed. *)
Theorem team_batch_settles_every_task {sorting : SortSlice} {quote : QuoteText} {W : Type} (h : TeamHost W) (p : TeamPlan)
    (s : TeamRun W) :
  tp_TimeoutTerminalStatus p ∈ [TaskStatusCanceled; TaskStatusFailed] -> length (tn_records s) = length (tp_Tasks p) ->
  (exists sched, (length sched <= 10 * length (tp_Tasks p))%nat /\ is_Some (runParallel h p sched s))
  /\ forall sched s', runParallel h p sched s = Some (s', None) ->
     forall i r, tn_records s !! i = Some r ->
     exists r', tn_records s' !! i = Some r'
       /\ if decide (tm_Status r = TaskStatusPending)
          then finalStatus (tm_Status r')
               \/ tm_Status r' = TaskStatusSkipped /\ tm_Reason r' = (parallelWork p (tn_records s)).2
          else r' = r.
Proof.
  intros Hp Hl. unfold runParallel. destruct (parallelWork p (tn_records s)) as [[runIdx skippedIdx] reason] eqn:Ew.
  apply parallelWork_partition in Ew; [|done]. destruct (pendingIndices_spec (tn_records s)) as [Hnd Hpend].
  rewrite <-Ew in Hnd. apply NoDup_app in Hnd as (Hnr & Hdis & Hns). cbn [snd].
  assert (Hrange : Forall (fun i => is_Some (tp_Tasks p !! i)) runIdx).
  { apply Forall_forall. intros i Hi. assert (Hi' : i ∈ pendingIndices (tn_records s)) by (rewrite <-Ew; set_solver).
    apply Hpend in Hi'. destruct (tn_records s !! i) eqn:E; [|done]. apply lookup_lt_Some in E. apply lookup_lt_is_Some. lia. }
  split.
  - assert (Hbound : (length runIdx <= length (tp_Tasks p))%nat).
    { rewrite <-(length_seq (length (tp_Tasks p)) 0). apply submseteq_length, NoDup_submseteq; [done|]. intros i Hi.
      rewrite Forall_forall in Hrange. apply Hrange, lookup_lt_is_Some in Hi. apply elem_of_seq. lia. }
    destruct (updateAll h p skippedIdx _ _ s) as [s1 [e|]]; [exists []; split; [cbn; lia|by eexists]|].
    case_bool_decide; [exists []; split; [cbn; lia|by eexists]|].
    destruct (askAll h p runIdx _ s1) as [s2 [e|]]; [exists []; split; [cbn; lia|by eexists]|].
    destruct (updateAll h p runIdx _ _ s2) as [s3 [e|]]; [exists []; split; [cbn; lia|by eexists]|].
    destruct (runPool_finishes h p Hp runIdx s3 Hnr Hrange) as (sched & Hls & Hs). exists sched. split; [lia|done].
  - intros sched s' E i r Hi. destruct (runParallel_records h p Hp sched runIdx skippedIdx reason s s' Hnr Hns Hdis E i) as (H1 & H2 & H3).
    rewrite Hi in H1, H2, H3. assert (Hiff : i ∈ runIdx ++ skippedIdx <-> tm_Status r = TaskStatusPending).
    { rewrite Ew, Hpend, Hi. split; [by intros [= ?]|cbn; by intros ->]. }
    destruct (decide (i ∈ runIdx)) as [Hr|Hr]; [|destruct (decide (i ∈ skippedIdx)) as [Hsk|Hsk]].
    + destruct (H1 Hr) as (x & -> & Hx). eexists. split; [done|]. rewrite decide_True by set_solver. by left.
    + rewrite H2 by done. eexists. split; [done|]. rewrite decide_True by set_solver. by right.
    + rewrite H3 by done. eexists. split; [done|]. rewrite decide_False by set_solver. done.
Qed.

(** ** One task after the other *)

Section serial.
Context {sorting : SortSlice} {quote : QuoteText} {W : Type} (h : TeamHost W) (p : TeamPlan).
Implicit Types (s : TeamRun W) (l : list (nat * TeamTask)).

Definition pendingAt s (i : nat) : Prop := tm_Status <$> tn_records s !! i = Some TaskStatusPending.

Lemma pendingAt_recordAt s i : pendingAt s i -> hasStatus TaskStatusPending (recordAt s i) = true.
Proof. unfold pendingAt, recordAt. destruct (tn_records s !! i); [|done]. cbn. intros [= E]. by apply str_eqb_eq. Qed.

Lemma serial_halted l s s' :
  runSerial h p l true s = (s', None) -> NoDup l.*1 -> Forall (pendingAt s) l.*1 ->
  forall i, tn_records s' !! i = (if decide (i ∈ l.*1) then skipHalted <$> tn_records s !! i else tn_records s !! i).
Proof.
  revert s. induction l as [|[j t] l IH]; intros s; cbn; [by intros [= <-]|].
  intros E [Hj Hnd]%NoDup_cons [Hpj Hpend]%Forall_cons i. rewrite pendingAt_recordAt in E by done. cbn in E.
  destruct (updateRecord h p j _ _ s) as [s1 [e|]] eqn:Eu; [done|]. apply updateRecord_records in Eu.
  rewrite (IH s1 E Hnd), Eu.
  - destruct (decide (i = j)) as [->|Hne].
    + rewrite decide_False, decide_True by set_solver. apply list_lookup_alter_eq.
    + rewrite list_lookup_alter_ne by done. destruct (decide (i ∈ l.*1));
        [by rewrite decide_True by set_solver | by rewrite decide_False by set_solver].
  - rewrite Forall_forall in Hpend |- *. intros k Hk. unfold pendingAt. rewrite Eu, list_lookup_alter_ne; [by apply Hpend|set_solver].
Qed.

Context (Hp : tp_TimeoutTerminalStatus p ∈ [TaskStatusCanceled; TaskStatusFailed]).

Lemma executeTask_final t w w' x : executeTask h p t w = (w', x) -> finalStatus (te_Status x).
Proof.
  unfold executeTask. destruct (executeEntry _ t) as [y|] eqn:E; [intros [= _ <-]; by eapply executeEntry_final|].
  destruct (runTask h p t w) as [w1 [res err]]. intros [= _ <-]. by apply executeExit_final.
Qed.

(** What becomes of the record of the [k]-th task, when [xs] are the executions. *)
Definition serialRecord (xs : list taskExecution) (k : nat) (r : TeamRecord) : TeamRecord :=
  match xs !! k with Some x => writeExecution x (markRunning r) | None => skipHalted r end.

(** The executions of a serial run of [n] tasks: all of them, or under [fail_fast] those up to the first failure. *)
Record serial_executions (n : nat) (xs : list taskExecution) : Prop := {
  se_final : Forall (fun x => finalStatus (te_Status x)) xs;
  se_length : (length xs <= n)%nat;
  se_stopped : (length xs < n)%nat ->
    tp_FailurePolicy p = TeamFailFast /\ exists x, last xs = Some x /\ failedExecution (te_Status x) = true;
  se_first : tp_FailurePolicy p = TeamFailFast ->
    forall k x, xs !! k = Some x -> (S k < length xs)%nat -> failedExecution (te_Status x) = false
}.

Lemma serial_step x n xs :
  finalStatus (te_Status x) -> serial_executions n xs ->
  (tp_FailurePolicy p =s? TeamFailFast) && failedExecution (te_Status x) = false -> serial_executions (S n) (x :: xs).
Proof.
  intros Hx [H1 H2 H3 H4] Hf. split.
  - by constructor.
  - cbn. lia.
  - cbn. intros Hlt. destruct H3 as (? & y & Hy & ?); [lia|]. split; [done|]. exists y. by destruct xs.
  - intros Hff [|k] y Hk Hl; [|cbn in Hk, Hl; eapply H4; [done..|lia]]. injection Hk as <-. by rewrite Hff in Hf.
Qed.

Lemma runSerial_records l s s' :
  runSerial h p l false s = (s', None) -> NoDup l.*1 -> Forall (pendingAt s) l.*1 ->
  exists xs, serial_executions (length l) xs
    /\ (forall i, i ∉ l.*1 -> tn_records s' !! i = tn_records s !! i)
    /\ (forall k i, l.*1 !! k = Some i -> tn_records s' !! i = serialRecord xs k <$> tn_records s !! i).
Proof.
  revert s. induction l as [|[j t] l IH]; intros s; cbn [runSerial].
  { intros [= <-] _ _. exists []. split_and!; [split; [done|done|cbn; lia|done]|done|done]. }
  cbn [fmap list_fmap fst]. intros E [Hj Hnd]%NoDup_cons [Hpj Hpend]%Forall_cons.
  rewrite pendingAt_recordAt in E by done. cbn [negb] in E.
  destruct (askPause h _ s) as [s0 [e|]] eqn:Ea; [done|].
  assert (R0 : tn_records s0 = tn_records s).
  { revert Ea. unfold askPause. destruct (th_pause h) as [f|]; [|by intros [= <-]]. destruct (f _ _). by intros [= <- _]. }
  destruct (updateRecord h p j markRunning _ s0) as [s1 [e|]] eqn:E1; [done|]. apply updateRecord_records in E1.
  destruct (executeTask h p t (tn_world s1)) as [w x] eqn:Ex. apply executeTask_final in Ex.
  destruct (updateRecord h p j (writeExecution x) _ _) as [s2 [e|]] eqn:E2; [done|]. apply updateRecord_records in E2. cbn in E2.
  assert (R2 : tn_records s2 = alter (writeExecution x) j (alter markRunning j (tn_records s))) by (by rewrite E2, E1, R0).
  assert (Hother : forall i, i <> j -> tn_records s2 !! i = tn_records s !! i) by (intros; by rewrite R2, !list_lookup_alter_ne).
  assert (Hpend2 : Forall (pendingAt s2) l.*1).
  { rewrite Forall_forall in Hpend |- *. intros i Hi. unfold pendingAt. rewrite Hother; [by apply Hpend|set_solver]. }
  assert (Hself : tn_records s2 !! j = serialRecord [x] 0 <$> tn_records s !! j).
  { rewrite R2, !list_lookup_alter_eq. by destruct (tn_records s !! j). }
  destruct (_ && failedExecution (te_Status x)) eqn:Ef.
  - apply andb_true_iff in Ef as [Hff%str_eqb_eq Hx]. pose proof (serial_halted l s2 s' E Hnd Hpend2) as Hh. exists [x]. split_and!.
    + split; [by apply Forall_singleton|cbn; lia|intros _; split; [done|by exists x]|]. intros _ k y Hk Hl. cbn in Hl. lia.
    + intros i Hi. rewrite Hh, decide_False by set_solver. apply Hother. set_solver.
    + intros [|k] i Hk; [injection Hk as <-; by rewrite Hh, decide_False|]. cbn in Hk. apply list_elem_of_lookup_2 in Hk.
      rewrite Hh, decide_True by done. rewrite Hother by set_solver. done.
  - destruct (IH s2 E Hnd Hpend2) as (xs & Hxs & Hout & Hin). exists (x :: xs). split_and!.
    + by apply serial_step.
    + intros i Hi. rewrite Hout, Hother by set_solver. done.
    + intros [|k] i Hk; [injection Hk as <-; by rewrite Hout|]. cbn in Hk. rewrite (Hin k i Hk).
      apply list_elem_of_lookup_2 in Hk. by rewrite Hother by set_solver.
Qed.
End serial.

(** A serial run executes its tasks up to the first failure. Let the plan be normalised, with a pending record for
    each task, and let no error of the pause controller or the consumer end the run. Then the run has
    executed its tasks from the first on: all of them or, under [fail_fast], those up to
    and with the first that failed or was cancelled. Their records are what the executions made of them, the records of the others
    are skipped. *)
Theorem serial_run_stops_at_failure {sorting : SortSlice} {quote : QuoteText} {W : Type} (h : TeamHost W) (p : TeamPlan)
    (s s' : TeamRun W) :
  tp_TimeoutTerminalStatus p ∈ [TaskStatusCanceled; TaskStatusFailed] ->
  tm_Status <$> tn_records s = replicate (length (tp_Tasks p)) TaskStatusPending ->
  runSerial h p (imap pair (tp_Tasks p)) false s = (s', None) ->
  exists xs, serial_executions p (length (tp_Tasks p)) xs /\ tn_records s' = imap (serialRecord xs) (tn_records s).
Proof.
  intros Hp Hpend E. set (n := length (tp_Tasks p)) in *.
  assert (Hidx : (imap pair (tp_Tasks p)).*1 = seq 0 n).
  { rewrite fmap_imap. unfold compose. cbn. apply list_eq. intros i. rewrite list_lookup_imap. unfold n.
    destruct (tp_Tasks p !! i) eqn:Ei; cbn; symmetry; [apply lookup_seq; split; [done|by eapply lookup_lt_Some]|].
    apply lookup_seq_ge. by apply lookup_ge_None. }
  assert (Hlen : length (tn_records s) = n).
  { apply (f_equal length) in Hpend. by rewrite length_fmap, length_replicate in Hpend. }
  destruct (runSerial_records h p Hp _ s s' E) as (xs & Hxs & Hout & Hin).
  - rewrite Hidx. apply NoDup_seq.
  - rewrite Hidx. apply Forall_forall. intros i [_ Hi]%elem_of_seq. unfold pendingAt.
    rewrite <-list_lookup_fmap, Hpend. apply lookup_replicate. by split.
  - exists xs. rewrite length_imap in Hxs. split; [done|]. apply list_eq. intros i. rewrite list_lookup_imap.
    destruct (decide (i < n)%nat) as [Hi|Hi].
    + apply (Hin i). rewrite Hidx. by apply lookup_seq.
    + rewrite Hout by (rewrite Hidx, elem_of_seq; lia). by rewrite !(proj2 (lookup_ge_None (tn_records s) i)) by lia.
Qed.

(** ** A whole run *)

(** A record and what a run made of it. *)
Definition settled (r r' : TeamRecord) : Prop :=
  tm_TaskID r' = tm_TaskID r /\ (finalStatus (tm_Status r') \/ tm_Status r' = TaskStatusSkipped).

Lemma normalizeChoice_ok {quote : QuoteText} choices what fallback v v' :
  normalizeChoice choices what fallback v = Ok v' -> v' ∈ choices.
Proof. unfold normalizeChoice. cbn zeta. case_bool_decide; [by intros [= <-]|done]. Qed.

Lemma normalizePlanHeader_ok {quote : QuoteText} p h :
  normalizePlanHeader p = Ok h ->
  tp_TimeoutTerminalStatus h ∈ [TaskStatusCanceled; TaskStatusFailed]
  /\ tp_Strategy h ∈ [StrategySerial; StrategyParallel; StrategyVote].
Proof.
  unfold normalizePlanHeader. case_match; [|done]. intros E.
  destruct (normalizeChoice [StrategySerial; _; _] _ _ _) as [strategy|] eqn:E1; [|done].
  cbn [result_bind] in E. destruct (normalizeChoice [BackpressureBlock; _; _] _ _ _) as [bp|] eqn:E2; [|done].
  cbn [result_bind] in E. destruct (normalizeChoice [TeamBestEffort; _] _ _ _) as [pol|] eqn:E3; [|done].
  cbn [result_bind] in E. destruct (normalizeChoice [TaskStatusCanceled; _] _ _ _) as [ts|] eqn:E4; [|done].
  cbn [result_bind] in E. destruct (normalizeChoice [VoteTieBreakHighestPriority; _] _ _ _) as [tb|] eqn:E5; [|done].
  cbn [result_bind] in E. injection E as <-. split; by eapply normalizeChoice_ok.
Qed.

Lemma normalizeTeamTask_ok {quote : QuoteText} i seen t t' : normalizeTeamTask i seen t = (t', None) -> tt_TaskID t' ∉ seen.
Proof.
  unfold normalizeTeamTask. set (u := trimTeamTask t). clearbody u. destruct (checkTeamTask i seen u) as [[]|] eqn:E; [|done].
  assert (tt_TaskID u ∉ seen).
  { revert E. unfold checkTeamTask. case_match; [|done]. case_match; [|done]. destruct (negb (bool_decide (_ ∈ seen))) eqn:Es; [|done].
    intros _. by apply negb_true_iff, bool_decide_eq_false in Es. }
  case_match; [by intros [= <- _]|]. case_match; [by intros [= <- _]|done].
Qed.

Lemma normalizeTeamTasks_ok {quote : QuoteText} i seen tasks tasks' :
  normalizeTeamTasks i seen tasks = (tasks', None) ->
  NoDup (tt_TaskID <$> tasks') /\ Forall (fun t => tt_TaskID t ∉ seen) tasks'.
Proof.
  revert i seen tasks'. induction tasks as [|t tasks IH]; intros i seen tasks'; cbn.
  { intros [= <-]. split; constructor. }
  destruct (normalizeTeamTask i seen t) as [t1 [e|]] eqn:Et; [done|]. apply normalizeTeamTask_ok in Et.
  destruct (normalizeTeamTasks (S i) _ tasks) as [l err] eqn:El. intros [= <- ->]. apply IH in El as [Hnd Hall].
  rewrite Forall_forall in Hall. split; cbn.
  - constructor; [|done]. intros (u & Eu & Hu)%list_elem_of_fmap. apply Hall in Hu. set_solver.
  - constructor; [done|]. apply Forall_forall. intros u Hu%Hall. set_solver.
Qed.

Lemma normalizePlan_ok {quote : QuoteText} raw tasks p :
  normalizePlan raw = (tasks, Ok p) ->
  tp_Tasks p = tasks /\ NoDup (tt_TaskID <$> tasks) /\ tp_TimeoutTerminalStatus p ∈ [TaskStatusCanceled; TaskStatusFailed].
Proof.
  unfold normalizePlan. destruct (normalizePlanHeader raw) as [hd|] eqn:Eh; [|done]. apply normalizePlanHeader_ok in Eh as [Hs _].
  destruct (tp_Tasks raw) as [|t ts]; [done|]. destruct (normalizeTeamTasks 0 ∅ (t :: ts)) as [l [e|]] eqn:El; [done|].
  intros [= <- <-]. apply normalizeTeamTasks_ok in El as [? _]. by split_and!.
Qed.

Section accounting.
Context {sorting : SortSlice} {quote : QuoteText} {W : Type} (h : TeamHost W) (p : TeamPlan).
Context (Hp : tp_TimeoutTerminalStatus p ∈ [TaskStatusCanceled; TaskStatusFailed]).
Implicit Types (s : TeamRun W).

Lemma settled_lookup (l l' : list TeamRecord) :
  (forall i, match l !! i with Some r => exists r', l' !! i = Some r' /\ settled r r' | None => l' !! i = None end) -> Forall2 settled l l'.
Proof.
  intros H. apply Forall2_same_length_lookup. split.
  - apply Nat.le_antisymm; apply Nat.nlt_ge; intros Hlt.
    + apply lookup_lt_is_Some in Hlt as [r Hr]. specialize (H (length l')). rewrite Hr in H. destruct H as (r' & Hr' & _).
      apply lookup_lt_Some in Hr'. lia.
    + apply lookup_lt_is_Some in Hlt as [r Hr]. specialize (H (length l)). rewrite lookup_ge_None_2 in H by lia. congruence.
  - intros i r r' Hr Hr'. specialize (H i). rewrite Hr in H. destruct H as (? & E & ?). congruence.
Qed.

Lemma serialRecord_settled xs k r : Forall (fun x => finalStatus (te_Status x)) xs -> settled r (serialRecord xs k r).
Proof.
  intros Hf. unfold serialRecord. destruct (xs !! k) as [x|] eqn:E; [|by split; [|right]].
  split; [done|]. left. by eapply (Forall_lookup_1 _ _ _ _ Hf).
Qed.

Lemma runSerial_settled s s' :
  tm_Status <$> tn_records s = replicate (length (tp_Tasks p)) TaskStatusPending ->
  runSerial h p (imap pair (tp_Tasks p)) false s = (s', None) -> Forall2 settled (tn_records s) (tn_records s').
Proof.
  intros Hpend E. destruct (serial_run_stops_at_failure h p s s' Hp Hpend E) as (xs & Hxs & ->). apply settled_lookup. intros i.
  rewrite list_lookup_imap. destruct (tn_records s !! i) as [r|]; cbn; [|done]. eexists. split; [done|].
  apply serialRecord_settled, Hxs.
Qed.

Lemma runParallel_settled sched s s' :
  tm_Status <$> tn_records s = replicate (length (tp_Tasks p)) TaskStatusPending ->
  runParallel h p sched s = Some (s', None) -> Forall2 settled (tn_records s) (tn_records s').
Proof.
  intros Hpend E. unfold runParallel in E. destruct (parallelWork p (tn_records s)) as [[runIdx skippedIdx] reason] eqn:Ew.
  assert (Hl : length (tn_records s) = length (tp_Tasks p)) by (apply (f_equal length) in Hpend; by rewrite length_fmap, length_replicate in Hpend).
  apply parallelWork_partition in Ew; [|done]. destruct (pendingIndices_spec (tn_records s)) as [Hnd Hin].
  rewrite <-Ew in Hnd. apply NoDup_app in Hnd as (Hnr & Hdis & Hns). apply settled_lookup. intros i.
  destruct (runParallel_records h p Hp sched runIdx skippedIdx reason s s' Hnr Hns Hdis E i) as (H1 & H2 & H3).
  assert (Hi : is_Some (tn_records s !! i) -> i ∈ runIdx ++ skippedIdx).
  { intros [r Hr]. rewrite Ew, Hin, <-list_lookup_fmap, Hpend. apply lookup_replicate. split; [done|].
    apply lookup_lt_Some in Hr. lia. }
  destruct (tn_records s !! i) as [r|] eqn:Er.
  - specialize (Hi ltac:(by eexists)). apply elem_of_app in Hi as [Hi|Hi].
    + destruct (H1 Hi) as (x & -> & Hx). eexists. split; [done|]. by split; [|left].
    + rewrite H2 by done. eexists. split; [done|]. by split; [|right].
  - destruct (decide (i ∈ runIdx)) as [Hr|Hr]; [by destruct (H1 Hr) as (x & -> & _)|].
    destruct (decide (i ∈ skippedIdx)); [by rewrite H2|by rewrite H3].
Qed.

(** Decides the equality of closed names. *)
Ltac eval_names :=
  repeat match goal with |- context [?a =s? ?b] => let v := eval vm_compute in (a =s? b) in progress change (a =s? b) with v end.

(** The counters of a result, for settled records. *)
Lemma settled_counts l l' :
  Forall2 settled l l' ->
  Z.of_nat (length l') = countBy (hasStatus TaskStatusSucceeded) l' + countBy (hasStatus TaskStatusFailed) l'
    + countBy (hasStatus TaskStatusCanceled) l' + countBy (hasStatus TaskStatusSkipped) l'.
Proof.
  unfold countBy, hasStatus. induction 1 as [|r r' l l' [_ Hs] _ IH]; [done|]. cbn [List.filter length].
  assert (tm_Status r' ∈ [TaskStatusSucceeded; TaskStatusFailed; TaskStatusCanceled; TaskStatusSkipped]) as Hst.
  { destruct Hs as [Hs| ->]; [unfold finalStatus in Hs|]; set_solver. }
  repeat (apply elem_of_cons in Hst as [Hst|Hst]; [rewrite Hst; eval_names; cbn [length]; lia|]). by apply elem_of_nil in Hst.
Qed.

Lemma resolveRun_result s s' res err :
  resolveRun h p s = (s', (Some res, err)) ->
  tu_Tasks res = tn_records s /\ tu_TeamTaskTotal res = Z.of_nat (length (tn_records s))
  /\ tu_TeamTaskFailed res = countBy (hasStatus TaskStatusFailed) (tn_records s)
  /\ tu_TeamTaskCanceled res = countBy (hasStatus TaskStatusCanceled) (tn_records s)
  /\ tu_WinnerVote res = (if tp_Strategy p =s? StrategyVote then resolveVoteWinner (tn_records s) (tp_VoteTieBreak p) else "").
Proof.
  unfold resolveRun. set (res0 := if _ =s? _ then _ else _). destruct (notify h _ _) as [s1 [e|]]; [done|]. intros [= _ <- _].
  unfold res0. by case_match.
Qed.
End accounting.


(** ** Votes *)

(** The tasks that succeeded with a vote. *)
Definition ballots (v : string) (records : list TeamRecord) : list TeamRecord :=
  filter (fun r => tm_Status r = TaskStatusSucceeded /\ TrimSpace (tm_Vote r) = v) records.

(** The number of ballots for a vote, their highest priority and their first task id. *)
Record standing (records : list TeamRecord) (v : string) (st : voteStats) : Prop := {
  sd_count : vs_Count st = Z.of_nat (length (ballots v records));
  sd_has_top : exists r, r ∈ ballots v records /\ vs_MaxPriority st = tm_Priority r;
  sd_top : forall r, r ∈ ballots v records -> tm_Priority r <= vs_MaxPriority st;
  sd_has_first : exists r, r ∈ ballots v records /\ vs_FirstTaskID st = TrimSpace (tm_TaskID r);
  sd_first : forall r, r ∈ ballots v records -> String.le (vs_FirstTaskID st) (TrimSpace (tm_TaskID r))
}.

Definition str_lt (a b : string) : Prop := String.le a b /\ a <> b.

(** A vote beats another by its count, then by the highest priority unless the tie break is the first task,
    then by the first task id and last by its own text. *)
Definition beats (tieBreak a b : string) (sa sb : voteStats) : Prop :=
  let first := str_lt (vs_FirstTaskID sa) (vs_FirstTaskID sb) \/ vs_FirstTaskID sa = vs_FirstTaskID sb /\ str_lt a b in
  vs_Count sb < vs_Count sa
  \/ vs_Count sa = vs_Count sb
     /\ if decide (tieBreak = VoteTieBreakFirstTaskID) then first
        else vs_MaxPriority sb < vs_MaxPriority sa \/ vs_MaxPriority sa = vs_MaxPriority sb /\ first.

(** *** Counting *)

Lemma str_ltb_lt a b : str_ltb a b = true <-> str_lt a b.
Proof. unfold str_ltb, str_lt. by rewrite andb_true_iff, bool_decide_eq_true, negb_true_iff, str_eqb_neq. Qed.

Lemma str_lt_total a b : a = b \/ str_lt a b \/ str_lt b a.
Proof. destruct (decide (a = b)) as [|Hne]; [by left|]. destruct (total String.le a b); right; [left|right]; by split. Qed.

Lemma not_str_lt a b : ~ str_lt a b -> String.le b a.
Proof. destruct (str_lt_total a b) as [->|[?|[? _]]]; [|done|done]. by intros _. Qed.

Lemma str_lt_trans a b c : str_lt a b -> str_lt b c -> str_lt a c.
Proof.
  intros [L1 N1] [L2 N2]. split; [by etrans|]. intros <-. apply N1. by apply (anti_symm String.le).
Qed.

Lemma ballots_snoc v records r :
  ballots v (records ++ [r])
  = ballots v records ++ (if decide (tm_Status r = TaskStatusSucceeded /\ TrimSpace (tm_Vote r) = v) then [r] else []).
Proof. unfold ballots. rewrite filter_app. by f_equal. Qed.

Lemma countVote_standing v records r st :
  standing records v st -> tm_Status r = TaskStatusSucceeded -> TrimSpace (tm_Vote r) = v ->
  standing (records ++ [r]) v (countVote r st).
Proof.
  intros [H1 (r1 & Hr1 & H2) H3 (r2 & Hr2 & H4) H5] Hs Hv. assert (Hpos : 0 < vs_Count st).
  { rewrite H1. destruct (ballots v records); [by apply elem_of_nil in Hr1 | cbn; lia]. }
  unfold countVote. destruct (Z.eqb_spec (vs_Count st + 1) 1); [lia|]. cbn [orb].
  split; rewrite ballots_snoc, decide_True by done; cbn [vs_Count vs_MaxPriority vs_FirstTaskID].
  - rewrite length_app, H1. cbn. lia.
  - destruct (Z.ltb_spec (vs_MaxPriority st) (tm_Priority r)); [exists r | exists r1]; split; set_solver.
  - intros r' [Hr'|Hr'%list_elem_of_singleton]%elem_of_app; [apply H3 in Hr'|subst r']; case_match eqn:E; rewrite ?Z.ltb_lt, ?Z.ltb_ge in E; lia.
  - destruct (str_ltb _ _); [exists r | exists r2]; split; set_solver.
  - intros r' Hr'. destruct (str_ltb (TrimSpace (tm_TaskID r)) (vs_FirstTaskID st)) eqn:E.
    + apply str_ltb_lt in E as [E _]. apply elem_of_app in Hr' as [Hr'|Hr'%list_elem_of_singleton]; [etrans; [done|by apply H5]|by subst].
    + apply elem_of_app in Hr' as [Hr'|Hr'%list_elem_of_singleton]; [by apply H5|]. subst r'. apply not_str_lt. intros Hlt%str_ltb_lt. congruence.
Qed.

Lemma countVote_first v records r :
  ballots v records = [] -> tm_Status r = TaskStatusSucceeded -> TrimSpace (tm_Vote r) = v ->
  standing (records ++ [r]) v (countVote r zeroVoteStats).
Proof.
  intros Hb Hs Hv. split; rewrite ballots_snoc, Hb, decide_True by done; cbn; [done|exists r|..|exists r|]; try (split; [set_solver|done]).
  - intros r' ->%list_elem_of_singleton. done.
  - intros r' ->%list_elem_of_singleton. done.
Qed.

(** The map of the tallies. *)
Lemma tally_standing records v :
  match foldl tallyVote ∅ records !! v with
  | Some st => v <> "" /\ standing records v st
  | None => v = "" \/ ballots v records = []
  end.
Proof.
  induction records as [|r records IH] using rev_ind; [by right|]. rewrite foldl_snoc. unfold tallyVote at 1.
  set (stats := foldl tallyVote ∅ records) in *. clearbody stats.
  assert (Hother : ~ (tm_Status r = TaskStatusSucceeded /\ TrimSpace (tm_Vote r) = v) -> ballots v (records ++ [r]) = ballots v records).
  { intros Hn. by rewrite ballots_snoc, decide_False, app_nil_r. }
  assert (Hkeep : ballots v (records ++ [r]) = ballots v records -> forall st, standing records v st -> standing (records ++ [r]) v st).
  { intros Eb st [H1 H2 H3 H4 H5]. by split; rewrite Eb. }
  destruct (str_eqb_spec (tm_Status r) TaskStatusSucceeded) as [Hs|Hs]; cbn [negb orb].
  2:{ specialize (Hother ltac:(naive_solver)). case_match; [destruct IH; split; [done|by apply Hkeep] | by rewrite Hother]. }
  destruct (str_eqb_spec (TrimSpace (tm_Vote r)) "") as [Hv|Hv].
  { destruct (decide (v = "")) as [->|Hne]; [case_match; [by destruct IH|by left]|].
    specialize (Hother ltac:(naive_solver)). case_match; [destruct IH; split; [done|by apply Hkeep] | by rewrite Hother]. }
  destruct (decide (TrimSpace (tm_Vote r) = v)) as [<-|Hne].
  - rewrite lookup_insert_eq. split; [done|]. destruct (stats !! TrimSpace (tm_Vote r)) as [st|]; cbn.
    + destruct IH. by apply countVote_standing.
    + destruct IH as [|IH]; [done|]. by apply countVote_first.
  - rewrite lookup_insert_ne by done. specialize (Hother ltac:(naive_solver)).
    case_match; [destruct IH; split; [done|by apply Hkeep] | by rewrite Hother].
Qed.

(** *** Choosing *)

(** A scan that keeps the better of two finds the best, for a total and transitive relation. *)
Lemma scan_best {A} (P : A -> Prop) (better : A -> A -> bool) :
  (forall a b, P a -> P b -> a = b \/ better a b = true \/ better b a = true) ->
  (forall a b c, P a -> P b -> P c -> better a b = true -> better b c = true -> better a c = true) ->
  forall l b, P b -> Forall P l ->
  let m := foldl (fun best c => if better c best then c else best) b l in
  m ∈ b :: l /\ forall x, x ∈ b :: l -> x = m \/ better m x = true.
Proof.
  intros Htot Htrans. induction l as [|c l IH]; intros b Hb Hl; cbn; [set_solver|]. apply Forall_cons in Hl as [Hc Hl].
  set (b' := if better c b then c else b). assert (Hb' : P b') by (unfold b'; by case_match).
  destruct (IH b' Hb' Hl) as [Hin Hbest]. set (m := foldl _ b' l) in *. clearbody m.
  assert (Hm : P m) by (apply elem_of_cons in Hin as [->|Hin]; [done|]; rewrite Forall_forall in Hl; auto).
  assert (Hsub : b' = m \/ better m b' = true) by (apply Hbest; set_solver).
  assert (Hstep : forall x, x = b \/ x = c -> x = b' \/ better b' x = true).
  { unfold b'. intros x [->| ->]; destruct (better c b) eqn:E; auto. destruct (Htot b c Hb Hc) as [->|[?|?]]; auto. congruence. }
  split.
  - apply elem_of_cons in Hin as [->|Hin]; [unfold b'; case_match; set_solver|set_solver].
  - intros x Hx. rewrite !elem_of_cons in Hx. assert (Hx' : (x = b \/ x = c) \/ x ∈ l) by tauto.
    destruct Hx' as [Hx'|Hx']; [|apply Hbest; set_solver].
    assert (Hpx : P x) by (by destruct Hx' as [->| ->]). apply Hstep in Hx'.
    destruct Hx' as [->|Hx']; [done|]. right. destruct Hsub as [<-|Hsub]; [done|]. by eapply (Htrans m b' x).
Qed.

Section winner.
Context (records : list TeamRecord) (tieBreak : string).
Abbreviation stats := (foldl tallyVote ∅ records).
Abbreviation tallied v := (default zeroVoteStats (stats !! v)).

Lemma outvotes_beats a b : outvotes tieBreak stats a b = true <-> beats tieBreak a b (tallied a) (tallied b).
Proof.
  unfold outvotes, beats. cbn zeta.
  set (sa := tallied a). set (sb := tallied b). clearbody sa sb.
  set (fb := str_ltb _ _ || _). assert (Hf : fb = true <-> str_lt (vs_FirstTaskID sa) (vs_FirstTaskID sb)
    \/ vs_FirstTaskID sa = vs_FirstTaskID sb /\ str_lt a b).
  { unfold fb. by rewrite orb_true_iff, andb_true_iff, !str_ltb_lt, str_eqb_eq. }
  clearbody fb. destruct (Z.ltb_spec (vs_Count sb) (vs_Count sa)); [split; [by left|done]|].
  destruct (Z.ltb_spec (vs_Count sa) (vs_Count sb)); [split; [done|lia]|]. assert (vs_Count sa = vs_Count sb) as -> by lia.
  destruct (str_eqb_spec tieBreak VoteTieBreakFirstTaskID) as [E|E].
  - rewrite decide_True by done. rewrite Hf. split; [by right|]. intros [?|[_ ?]]; [lia|done].
  - rewrite decide_False by done. destruct (Z.ltb_spec (vs_MaxPriority sb) (vs_MaxPriority sa)).
    + split; [|done]. intros _. right. split; [done|]. by left.
    + rewrite andb_true_iff, Z.eqb_eq, Hf. split; [by auto|]. intros [?|[_ [?|?]]]; [lia|lia|done].
Qed.

Lemma outvotes_total a b : a = b \/ outvotes tieBreak stats a b = true \/ outvotes tieBreak stats b a = true.
Proof.
  rewrite !outvotes_beats. destruct (decide (a = b)) as [|Hne]; [by left|right]. unfold beats. cbn zeta.
  set (sa := tallied a). set (sb := tallied b). clearbody sa sb.
  destruct (Z.lt_trichotomy (vs_Count sa) (vs_Count sb)) as [|[Ec|]]; [by right; left| |by left; left].
  assert (Hf : (str_lt (vs_FirstTaskID sa) (vs_FirstTaskID sb) \/ vs_FirstTaskID sa = vs_FirstTaskID sb /\ str_lt a b)
    \/ (str_lt (vs_FirstTaskID sb) (vs_FirstTaskID sa) \/ vs_FirstTaskID sb = vs_FirstTaskID sa /\ str_lt b a)).
  { destruct (str_lt_total (vs_FirstTaskID sa) (vs_FirstTaskID sb)) as [->|[?|?]]; [|by auto|by auto].
    destruct (str_lt_total a b) as [|[?|?]]; [done|left; right|right; right]; by split. }
  case_decide; [destruct Hf; [left|right]; right; by split|].
  destruct (Z.lt_trichotomy (vs_MaxPriority sa) (vs_MaxPriority sb)) as [|[Em|]]; [right|destruct Hf; [left|right]|left]; right; auto.
Qed.

Lemma outvotes_trans a b c :
  outvotes tieBreak stats a b = true -> outvotes tieBreak stats b c = true -> outvotes tieBreak stats a c = true.
Proof.
  rewrite !outvotes_beats. unfold beats. cbn zeta. set (sa := tallied a). set (sb := tallied b). set (sc := tallied c). clearbody sa sb sc.
  assert (Hf : forall x y z : voteStats,
    str_lt (vs_FirstTaskID x) (vs_FirstTaskID y) \/ vs_FirstTaskID x = vs_FirstTaskID y /\ str_lt a b ->
    str_lt (vs_FirstTaskID y) (vs_FirstTaskID z) \/ vs_FirstTaskID y = vs_FirstTaskID z /\ str_lt b c ->
    str_lt (vs_FirstTaskID x) (vs_FirstTaskID z) \/ vs_FirstTaskID x = vs_FirstTaskID z /\ str_lt a c).
  { intros x y z [?|[E1 ?]] [?|[E2 ?]].
    - left. by eapply str_lt_trans.
    - left. by rewrite <-E2.
    - left. by rewrite E1.
    - right. split; [congruence|by eapply str_lt_trans]. }
  specialize (Hf sa sb sc). intros [?|[Ec1 H1]] [?|[Ec2 H2]]; [left; lia..|]. right. split; [lia|].
  case_decide; [by apply Hf|]. destruct H1 as [?|[Em1 H1]], H2 as [?|[Em2 H2]]; [left; lia..|]. right. split; [lia|by apply Hf].
Qed.
End winner.

(** C33: the elected vote. No vote wins exactly when no task succeeded with a vote. Otherwise the winner has ballots, and
    it beats every other vote that has: by the number of ballots, at a tie by the highest priority
    of a ballot, unless the tie break is the first task, then by the first task id and at last by the
    text of the vote. *)
Theorem vote_winner_is_elected (records : list TeamRecord) (tieBreak : string) :
  let winner := resolveVoteWinner records tieBreak in
  (winner = "" <-> forall v, v <> "" -> ballots v records = [])
  /\ (winner <> "" -> exists sw, standing records winner sw
        /\ forall v, v <> "" -> v <> winner -> ballots v records <> [] ->
            exists sv, standing records v sv /\ beats tieBreak winner v sw sv).
Proof.
  cbn zeta. unfold resolveVoteWinner. cbn zeta. set (candidates := sort_strings _).
  assert (Hc : forall v, v ∈ candidates <-> is_Some (foldl tallyVote ∅ records !! v)).
  { intros v. unfold candidates. rewrite elem_of_sort_strings, list_elem_of_fmap. split.
    - intros ([k x] & -> & Hk%elem_of_map_to_list). by exists x.
    - intros [x Hx]. exists (v, x). split; [done|]. by apply elem_of_map_to_list. }
  assert (Hb : forall v, v <> "" -> ballots v records <> [] -> v ∈ candidates).
  { intros v Hv Hb. apply Hc. pose proof (tally_standing records v) as Ht. destruct (_ !! v); [by eexists|naive_solver]. }
  clearbody candidates. destruct candidates as [|best candidates].
  { split; [|done]. split; [|done]. intros _ v Hv. destruct (ballots v records) eqn:E; [done|].
    destruct (not_elem_of_nil v). apply Hb; [done|]. by rewrite E. }
  destruct (scan_best (fun _ => True) (outvotes tieBreak (foldl tallyVote ∅ records))
    ltac:(intros; apply outvotes_total) ltac:(intros; by eapply outvotes_trans) candidates best) as [Hin Hbest]; [done|by apply Forall_true|].
  set (m := foldl _ best candidates) in *. clearbody m. apply Hc in Hin as [sm Hm].
  pose proof (tally_standing records m) as Hsm. rewrite Hm in Hsm. destruct Hsm as [Hne Hsm]. split.
  - split; [done|]. intros Hall. destruct (sd_has_top _ _ _ Hsm) as (r & Hr & _). rewrite Hall in Hr by done. by apply elem_of_nil in Hr.
  - intros _. exists sm. split; [done|]. intros v Hv Hvm Hbal. pose proof (Hb v Hv Hbal) as Hvc.
    destruct (Hbest v Hvc) as [->|Ho]; [done|]. apply Hc in Hvc as [sv Hsv]. exists sv.
    pose proof (tally_standing records v) as Ht. rewrite Hsv in Ht. split; [apply Ht|].
    apply outvotes_beats in Ho. by rewrite Hm, Hsv in Ho.
Qed.

(** A tie of two votes: the priorities decide, or the first task. *)
Definition ballot (id vote : string) (priority : Z) : TeamRecord :=
  mkTeamRecord id "agent" "worker" "local" "" "" priority TaskStatusSucceeded "" "" vote None.

Example tied_votes :
  resolveVoteWinner [ballot "a" "yes" 1; ballot "b" "no" 7; ballot "c" " no " 2; ballot "d" "yes" 3]
    <$> [VoteTieBreakHighestPriority; VoteTieBreakFirstTaskID] = ["no"; "yes"].
Proof. vm_compute. reflexivity. Qed.

(** ** A team *)

#[local] Instance demoQuote : QuoteText := plain_quote.
#[local] Instance demoSorting : SortSlice := stable_sort.

(** The world lists the tasks whose runners were called; runner ["b"] fails, the others vote. *)
Definition demoTeamHost : TeamHost (list string) :=
  mkTeamHost (fun _ => None) (fun _ => 1)
    (fun t w => (w ++ [tt_TaskID t],
       if tt_TaskID t =s? "b" then (mkTaskResult None "", Some (ErrorString "broken"))
       else (mkTaskResult (Some (AnyInt 1)) (if tt_TaskID t =s? "d" then "no" else "yes"), None)))
    (fun _ t w => (w, (mkTaskResult None "", None))) None None true.

Definition demoTeamTask (id : string) (priority : Z) : TeamTask :=
  mkTeamTask id "agent" "" priority "" "" (mkRemoteTarget "" "" [] ∅) true false.

Definition demoTeamPlan (strategy policy backpressure : string) : TeamPlan :=
  mkTeamPlan "run" "team" "" "" strategy [demoTeamTask " a" 1; demoTeamTask "b" 5; demoTeamTask "c" 2; demoTeamTask "d" 9] 0 2
    backpressure policy "" "".

(** A worker that takes all its steps, and the collecting loop; a schedule of two workers. *)
Definition call (k : nat) : list (PoolAction (list string)) := [Work k; Work k].
Definition finish (k : nat) : list (PoolAction (list string)) := [Work k; Work k; Work k].
Definition refuse (k : nat) : list (PoolAction (list string)) := [Work k; Work k].
Definition collect : list (PoolAction (list string)) := [Collect; Collect; Collect; Collect].
Definition demoSchedule : list (PoolAction (list string)) :=
  [Take; Take] ++ call 1 ++ call 0 ++ finish 1 ++ collect ++ [Take] ++ call 1 ++ finish 0 ++ [Collect; Take] ++ finish 0
    ++ [Collect; Collect; Collect] ++ call 0 ++ collect ++ finish 0 ++ collect.

(** The second task fails and cancels the last two. *)
Definition failSchedule : list (PoolAction (list string)) :=
  [Take; Take] ++ call 0 ++ call 1 ++ finish 1 ++ collect ++ [Take] ++ refuse 1 ++ collect ++ [Take] ++ refuse 1 ++ collect
    ++ finish 0 ++ collect.

(** The statuses, the winner and the calls. *)
Definition demoTeamRun (strategy policy backpressure : string) (sched : list (PoolAction (list string))) :=
  match TeamExecute demoTeamHost (demoTeamPlan strategy policy backpressure) sched [] with
  | Some (_, w, (events, (Some r, _))) => Some (tm_Status <$> tu_Tasks r, tu_WinnerVote r, w, length events)
  | _ => None
  end.

Example team_runs :
  [demoTeamRun "" "" "" []; demoTeamRun "serial" "fail_fast" "" []; demoTeamRun " Vote " "" "" demoSchedule;
   demoTeamRun "parallel" "" "drop_low_priority" ([Take; Take] ++ call 0 ++ call 1 ++ finish 0 ++ finish 0 ++ collect ++ collect);
   demoTeamRun "parallel" "fail_fast" "" failSchedule]
  = [Some (["succeeded"; "failed"; "succeeded"; "succeeded"], "", ["a"; "b"; "c"; "d"], 9%nat);
     Some (["succeeded"; "failed"; "skipped"; "skipped"], "", ["a"; "b"], 7%nat);
     Some (["succeeded"; "failed"; "succeeded"; "succeeded"], "yes", ["b"; "a"; "c"; "d"], 9%nat);
     Some (["skipped"; "failed"; "skipped"; "succeeded"], "", ["b"; "d"], 7%nat);
     Some (["succeeded"; "failed"; "canceled"; "canceled"], "", ["b"; "a"], 9%nat)].
Proof. vm_compute. reflexivity. Qed.

(** A pause of a serial run is refused although tasks have run. *)
Example paused_run_is_refused :
  let host := mkTeamHost (th_ctx demoTeamHost) (th_now demoTeamHost) (th_run demoTeamHost) (th_runRemote demoTeamHost)
                (Some (fun b w => (w, if tt_TaskID (tb_Task b) =s? "c" then Some (TeamPauseError "input_required") else None)))
                None true in
  match TeamExecute host (demoTeamPlan "" "" "") [] [] with
  | Some (_, w, (_, (res, err))) => w = ["a"; "b"] /\ res = None /\ err = Some (OtherTeamError ErrTeamContinuationUnsupported)
  | None => False
  end.
Proof. vm_compute. done. Qed.

Definition demoNormalPlan : TeamPlan :=
  Eval vm_compute in match NormalizePlan (demoTeamPlan "parallel" "fail_fast" "") with Ok p => p | Err _ => demoTeamPlan "" "" "" end.
Definition demoTeamStart : TeamRun (list string) := mkTeamRun (newRecord <$> tp_Tasks demoNormalPlan) 0 [] [].
Definition demoPool : Pool (list string) :=
  Eval vm_compute in
    match poolRun demoTeamHost demoNormalPlan 2 (newPool demoTeamStart [0; 1; 2; 3]%nat) failSchedule with
    | Some q => q
    | None => newPool demoTeamStart []
    end.

Lemma demoPool_run :
  poolRun demoTeamHost demoNormalPlan 2 (newPool demoTeamStart [0; 1; 2; 3]%nat) failSchedule = Some demoPool.
Proof. vm_compute. reflexivity. Qed.

Lemma demoPool_plan :
  standard_context demoTeamHost /\ tp_TimeoutTerminalStatus demoNormalPlan ∈ [TaskStatusCanceled; TaskStatusFailed]
  /\ NoDup [0; 1; 2; 3]%nat.
Proof.
  split_and!; [by intros ? ? [=] | by left | by apply (bool_decide_eq_true_1 _); vm_compute].
Qed.

(** The failure of a task races with the others: the runner of the third task is called after the record of the failure
    has been written, and that of the fourth, which passed its check in time, after [cancel()]. *)
Example failure_races_with_runners :
  let run := fun sched => poolRun demoTeamHost demoNormalPlan 3 (newPool demoTeamStart [0; 1; 2; 3]%nat) sched in
  let failed := [Take; Take; Take] ++ call 0 ++ call 1 ++ finish 1 ++ [Collect; Take] in
  let raced := failed ++ call 1 ++ [Work 2; Collect; Collect; Collect; Work 2] in
  (fun q => (pp_started q, tm_Status <$> tn_records (pp_run q) !! 1%nat, pp_cancelled q)) <$> run failed
    = Some ([0; 1]%nat, Some "failed", None)
  /\ (fun q => (pp_started q, pp_cancelled q)) <$> run raced = Some ([0; 1; 2; 3]%nat, Some Canceled).
Proof. vm_compute. done. Qed.

Lemma pool_runs_each_task_once_witness : pp_started demoPool = [0; 1]%nat /\ NoDup (pp_started demoPool).
Proof.
  split; [reflexivity|].
  exact (proj1 (proj2 (pool_runs_each_task_once demoTeamHost demoNormalPlan 2 [0; 1; 2; 3]%nat demoTeamStart _ demoPool
    (proj1 demoPool_plan) (proj1 (proj2 demoPool_plan)) (proj2 (proj2 demoPool_plan)) demoPool_run))).
Defined.

Definition demoVote : option (list TeamTask * list string * (list Event * (option TeamResult * option TeamError))) :=
  Eval vm_compute in TeamExecute demoTeamHost (demoTeamPlan " Vote " "" "") demoSchedule [].

Definition demoVoteResult : TeamResult :=
  Eval vm_compute in match demoVote with
                     | Some (_, _, (_, (Some r, _))) => r
                     | _ => mkTeamResult "" "" "" "" "" "" [] 0 0 0 0 0
                     end.

Lemma demoVote_run :
  exists tasks w events, TeamExecute demoTeamHost (demoTeamPlan " Vote " "" "") demoSchedule [] =
    Some (tasks, w, (events, (Some demoVoteResult, None))) /\ length tasks = 4%nat.
Proof. eexists _, _, _. split; [vm_compute; reflexivity|done]. Qed.


(** A batch of two workers comes to its end within forty steps. *)
Lemma team_batch_settles_every_task_witness :
  exists sched, (length sched <= 40)%nat /\ is_Some (runParallel demoTeamHost demoNormalPlan sched demoTeamStart).
Proof.
  exact (proj1 (team_batch_settles_every_task demoTeamHost demoNormalPlan demoTeamStart (proj1 (proj2 demoPool_plan)) eq_refl)).
Defined.
